(* ===== verification/_CoqProject ===== *)
-Q . S2P
Prelude.v
GoStrings.v
Digits.v
Utf.v
Ccsid.v
Wire.v
Reply.v
Format.v
Request.v
Decfloat.v
Decimal.v
Calendar.v
Values.v
Placeholders.v
DateTime.v
Sqlca.v
Describe.v
Config.v
Columns.v
Encoding.v
Package.v
StatementCache.v
Attributes.v
Session.v
Statements.v
Transaction.v
Rows.v
Binding.v
GeneratedKeys.v
Batch.v
Stmt.v
Usage.v
Arrays.v
BidiFlags.v
BidiOrder.v
BidiShape.v
Bidi.v
BidiSettings.v
GoCrypto.v
Password.v
Transport.v
SignOn.v
Requests.v
Driver.v
