(* ===== verification/Prelude.v ===== *)
(** * i400: a verified model of the IBM i database driver

    i400 is a database/sql driver that speaks the host server protocol of IBM i.
    This library models the driver as written (src/*.go, src/internal/ccsid and
    src/internal/bidi) and proves what makes it correct.  This file is its
    prelude: bytes, the monad of outcomes, machine integers, and the lemmas and
    tactics all files share.

    ** The program and the files that model it

    A data source name becomes a configuration; opening it signs on, starts the
    database server and yields a connection; statements are prepared, executed
    and fetched by request and reply packets over one socket.

    - Language: Prelude (outcomes, integers of fixed width), GoStrings (strings,
      strconv, fmt), Utf (runes, UTF-8, UTF-16), Digits, Calendar (time), Arrays
      (slices that panic out of range, counted loops), Values (driver values and
      their normalisation), GoCrypto (DES, SHA, HMAC, PBKDF2).
    - Packets: Wire (wire.go, protocol.go: headers, LL/CP parameters, reading
      packets), Request (every request builder), Reply (fetched blocks, large
      objects), Sqlca (return codes, SQLCA, warnings, errors), Describe (result
      set descriptions), Format (parameter descriptors and data, batches).
    - Values: Ccsid (internal/ccsid), Decfloat, Decimal, DateTime (with
      Timestamp), Columns (from row bytes to values), Encoding (from arguments to
      parameter bytes), Binding (output parameters of a CALL).
    - Right-to-left text: BidiFlags, BidiOrder, BidiShape, Bidi (internal/bidi),
      BidiSettings (bidi_settings.go).
    - Statements: Placeholders (stmt.go: scans of SQL text), Package (package.go,
      package_cache.go), StatementCache (the cache of driver.go under
      interleaving), Statements (ids, cursors, prepare, execute, open), Rows
      (queryRows), Stmt (driver.Stmt and the entry points of Conn), GeneratedKeys,
      Batch (batch.go).  Usage puts executions, queries and the rows a client holds
      together as the steps of a connection in use.
    - Connections: Config (config.go, dsn.go), Attributes (server attributes,
      client information), Session (Conn, requests, deadlines, errors),
      Transaction (tx.go, ping, reset, close), Password (encryption.go), Transport
      (transport.go, portmapper.go), SignOn (signon.go, the handshake of
      dbconn.go, openConn, cancelStatement), Driver (Open, Connector).  Requests
      lists every request of the driver as a packet.

    The files are listed in _CoqProject from the callees to the callers.

    ** How state and effects are modelled

    - A Go function that can fail or panic returns an [outcome]: [Ret], [Fail]
      with a [goerror], or [Panic].  An index out of range, a nil map and an
      allocation beyond the limit of the runtime panic as in Go.  An error keeps
      its identity (driver.ErrBadConn, context.Canceled, an SQL error with code
      and state); the wording of other errors is only kept in part.
    - A byte is a [Z] with [is_byte]; integers of a fixed width are [Z] with the
      wrap-around written out ([u16], [i32], [i64] and the like).
    - The connection is the record [Conn] of Session, passed through the monad
      [M]; opening works on the [world] of sockets of Transport, through the monad
      [Net].  The trace of a [Conn] records every packet it sends, which is what
      theorems about protocol behaviour speak of.
    - A time.Time is its instant and the offset of its location then, so that what
      Format shows of it (the wall clock) and what a reader of text makes of that
      (a time in UTC) are different times outside UTC.
    - Values shared by pointer live in an explicit store: the cached statements in
      the heap of StatementCache, the destinations of output parameters in the
      memory of a [Conn].
    - Concurrency is explicit where the code has it: the critical sections of the
      statement cache and the life of a [Stmt] are step relations, and the
      theorems hold for every interleaving.  Otherwise a connection is used by one
      goroutine at a time, as database/sql does.
    - Loops without a structural bound carry fuel: the length of the text or of
      the payload for scans and parsers, whose turns consume at least a byte, and
      the width of the interval for counted loops.  In parsers and in loops over
      what a server sends, fuel that runs out is [Panic], so that a theorem that
      excludes a panic also says that the fuel is enough; in a counted loop it
      runs out exactly when the condition of the loop fails.
      Rows.next_loop_terminates bounds the loop of [Next].

    ** Interfaces

    What is not the program's code is a type class, and a theorem holds for every
    instance.
    - [TableFS] (Ccsid): the embedded conversion tables, which are data.
    - [Environment] (Session) and [Network] (Transport): what the sockets do, and
      when.  Bytes that arrive are arbitrary, so that statements about replies
      cover hostile servers.  [punctual] (Transport) is the one law asked of a
      network, and only where time is bounded: an operation with a deadline ends
      by then.
    - [UnicodeCase] (Password), [FloatText] (Values), [Sprint] (Encoding): upper
      case beyond ASCII, decimal texts of floating-point numbers, fmt.Sprint.
    - [CallerMemory] (Binding): Scan methods of the caller's destinations.
    - url.Parse and time.ParseDuration are arguments (Config, Driver).
    Between components: [Parameters] (Statements) and [ColumnDecoding] (Rows) are
    what statements and rows ask of the value code, implemented in Binding;
    [BidiText] (Columns) and [BidiLayout] (Session) are what they ask of the
    bidirectional code, implemented in BidiSettings.

    ** What the theorems show

    - Framing: every request is a packet laid out the way its header says, with
      the parameters its template counts (Requests); [readPacket] returns exactly
      the next packet of a stream (Wire).
    - Round trips: character data, DECFLOAT, packed and zoned decimals, dates,
      timestamps (as the wall clock in UTC), SQLCA, descriptions, fetched blocks,
      batch blocks, parameters and columns, shaped and right-to-left text are read
      back as written.  What lies outside is said with each theorem: the lam-alef
      ligatures of shaped text, characters above Armenian in a bidirectional
      column, the digits a column or DECFLOAT format has no room for.
    - Resources: statement ids, cursor names and uses of cached statements are
      given back, errors included, but for the paths that the theorems name as
      leaking (a result set that cannot be opened, a query with arguments that
      returns none); a statement is closed once; from opening on, a connection
      holds no more ids than the cache has room for and the client has rows
      (Statements, Rows, StatementCache, Stmt, Usage, Driver).  Sockets are closed
      on every path of an open and of a native cancel (SignOn).
    - Error honesty: a request that loses its connection reports the error of its
      context when that has ended by then or its deadline has passed, and
      driver.ErrBadConn otherwise; requests without a reply only ask whether the
      context has ended (Session).  A transaction is finished once, and a reset
      restores the session (Transaction).
    - Opening: an open connection has authenticated on both servers with the
      substitutes of one password level, and opening and cancelling end within
      their timeouts (SignOn); the DES substitute is the algorithm of RFC 4777
      (Password); a refused name dials nothing (Driver).
    - Agreement with a specification: the scans for placeholders with one lexical
      structure (Placeholders), display order with rule L2 of the Unicode
      bidirectional algorithm and shaping with Unicode joining (BidiOrder,
      BidiShape), the Go type announced for a column with that of its values in a
      row (Binding).
    - Totality: parsers, shaping, reordering and [Next] return on all input.

    Theorems are followed by a witness that applies them to concrete input, and
    by examples that evaluate the model, among them the vectors of the program's
    own tests.  Behaviour that looks unintended is recorded as an example, too,
    such as Decfloat.decfloat_exponent_wrap, Config.connect_timeout_wraps,
    StatementCache.insert_after_close_panics, BidiShape.vowelled_ligature_joins and
    SignOn.ended_context_leaves_deadline.

    ** Not modelled

    - register.go registers the driver with database/sql; the assertions that
      types implement interfaces and Config.clone have no behaviour to model.
    - The texts of errors beyond what callers can observe of them.
    - The TLS configuration of a caller, which a data source name cannot set, and
      what TLS does to bytes: a handshake succeeds or fails.
    - The memory model of Go: mutexes are taken to exclude, and a data race
      outside the modelled sections is not considered.
    - Methods on nil receivers, and running out of memory below the allocation
      limit. *)
From Stdlib Require Import Strings.Ascii Strings.String.
From stdpp Require Import base list numbers strings.
#[local] Set Default Proof Using "Type".
Open Scope Z_scope.

(** * Results of Go code

    A Go function either returns, returns a non-nil [error], or panics.  The
    three cases are kept apart, so that "never panics" is a statement. *)

(** The [error] values of the driver.  [EText] is [fmt.Errorf]/[errors.New]
    text with its integer arguments; the other constructors are the sentinel
    values and the struct types of errors.go, context, io and driver. *)
Inductive goerror : Type :=
| EText (text : string) (args : list Z)
| EEOF
| EUnexpectedEOF
| ENet (text : string)
| EBadConn
| ETxDone
| EConnectionClosed
| ECanceled
| EDeadlineExceeded
| EUnsupported (text : string)
| EInvalidNumericText
| EBindingUnsupported
| ESyntax
| ERange
| EMaxStatements
| ENoGeneratedKey
| EWire (op : string) (err : goerror)
| EBinding (parameter : Z) (op : string) (err : goerror)
| EProtocol (op : string) (class code : Z)
| ESQL (code : Z) (state message tokens : list Z).

Inductive outcome (A : Type) : Type :=
| Ret (a : A)
| Fail (e : goerror)
| Panic.
Arguments Ret {A} a.
Arguments Fail {A} e.
Arguments Panic {A}.

#[export] Instance outcome_ret : MRet outcome := fun _ a => Ret a.
#[export] Instance outcome_bind : MBind outcome := fun _ _ f m =>
  match m with
  | Ret a => f a
  | Fail e => Fail e
  | Panic => Panic
  end.
#[export] Instance outcome_fmap : FMap outcome := fun _ _ f m =>
  match m with
  | Ret a => Ret (f a)
  | Fail e => Fail e
  | Panic => Panic
  end.

(** [ensure b e m] is the early return [if !b { return ..., e }] before [m]. *)
Definition ensure {A} (b : bool) (e : goerror) (m : outcome A) : outcome A :=
  if b then m else Fail e.

Definition no_panic {A} (m : outcome A) : Prop := m <> Panic.
Definition returns {A} (m : outcome A) : Prop := exists a, m = Ret a.

Lemma bind_Ret {A B} (m : outcome A) (f : A -> outcome B) b :
  m ≫= f = Ret b <-> exists a, m = Ret a /\ f a = Ret b.
Proof. destruct m; split; try done; [eauto | | |]; by intros (? & [= <-] & ?). Qed.

Lemma Ret_inj {A} (a b : A) : Ret a = Ret b -> a = b.
Proof. by intros [= ->]. Qed.

Lemma fmap_Ret {A B} (m : outcome A) (f : A -> B) b :
  f <$> m = Ret b <-> exists a, m = Ret a /\ f a = b.
Proof. destruct m; split; try done; [intros [= <-]; eauto | | |]; by intros (? & [= <-] & <-). Qed.

Lemma bind_no_panic {A B} (m : outcome A) (f : A -> outcome B) :
  no_panic m -> (forall a, m = Ret a -> no_panic (f a)) -> no_panic (m ≫= f).
Proof. unfold no_panic; destruct m; cbn; auto. Qed.

Lemma fmap_no_panic {A B} (m : outcome A) (f : A -> B) :
  no_panic m -> no_panic (f <$> m).
Proof. unfold no_panic; destruct m; cbn; auto. Qed.

Lemma Ret_no_panic {A} (a : A) : no_panic (Ret a).
Proof. done. Qed.

Lemma Fail_no_panic {A} e : no_panic (@Fail A e).
Proof. done. Qed.

Lemma ensure_no_panic {A} b e (m : outcome A) :
  (b = true -> no_panic m) -> no_panic (ensure b e m).
Proof. destruct b; cbn; auto using Fail_no_panic. Qed.

Lemma ensure_Ret {A} b e (m : outcome A) a :
  ensure b e m = Ret a <-> b = true /\ m = Ret a.
Proof. destruct b; cbn; split; try done; by intros []. Qed.

(** * Machine integers *)

(** Truncation to an unsigned or two's complement integer of [w] bits. *)
Definition wrapu (w x : Z) : Z := x mod 2 ^ w.
Definition wraps (w x : Z) : Z := (x + 2 ^ (w - 1)) mod 2 ^ w - 2 ^ (w - 1).

Abbreviation u8 := (wrapu 8).
Abbreviation u16 := (wrapu 16).
Abbreviation u32 := (wrapu 32).
Abbreviation u64 := (wrapu 64).
Abbreviation i16 := (wraps 16).
Abbreviation i32 := (wraps 32).
Abbreviation i64 := (wraps 64).

Lemma wrapu_range w x : 0 <= w -> 0 <= wrapu w x < 2 ^ w.
Proof. intros. apply Z.mod_pos_bound. lia. Qed.

Lemma wrapu_id w x : 0 <= x < 2 ^ w -> wrapu w x = x.
Proof. apply Z.mod_small. Qed.

Lemma wraps_range w x : 0 < w -> - 2 ^ (w - 1) <= wraps w x < 2 ^ (w - 1).
Proof.
  intros. unfold wraps.
  assert (2 ^ w = 2 * 2 ^ (w - 1)) as Hw.
  { rewrite <-(Z.pow_succ_r 2) by lia. f_equal. lia. }
  pose proof (Z.mod_pos_bound (x + 2 ^ (w - 1)) (2 ^ w)). lia.
Qed.

Lemma wraps_id w x : 0 < w -> - 2 ^ (w - 1) <= x < 2 ^ (w - 1) -> wraps w x = x.
Proof.
  intros. unfold wraps.
  assert (2 ^ w = 2 * 2 ^ (w - 1)) as Hw.
  { rewrite <-(Z.pow_succ_r 2) by lia. f_equal. lia. }
  rewrite Z.mod_small; lia.
Qed.

(** Reading a two's complement value back from its unsigned bit pattern. *)
Lemma wraps_wrapu w x : 0 < w -> wraps w (wrapu w x) = wraps w x.
Proof.
  intros. unfold wraps, wrapu. by rewrite Z.add_mod_idemp_l by lia.
Qed.

(** * Byte strings

    A Go [[]byte] and a Go [string] are both a list of integers in [0, 256). *)

Abbreviation bytes := (list Z).

Definition is_byte (b : Z) : Prop := 0 <= b < 256.
Definition is_bytes (bs : bytes) : Prop := Forall is_byte bs.

#[export] Instance is_byte_dec b : Decision (is_byte b).
Proof. unfold is_byte. apply _. Defined.
#[export] Instance is_bytes_dec bs : Decision (is_bytes bs).
Proof. unfold is_bytes. apply _. Defined.

Definition len {A} (l : list A) : Z := Z.of_nat (length l).

(** A Go string literal. *)
Definition lit (s : string) : bytes :=
  (fun a => Z.of_N (N_of_ascii a)) <$> list_ascii_of_string s.

Lemma len_nonneg {A} (l : list A) : 0 <= len l.
Proof. unfold len. lia. Qed.

Lemma len_app {A} (l k : list A) : len (l ++ k) = len l + len k.
Proof. unfold len. rewrite length_app. lia. Qed.

Lemma len_nil {A} : len (@nil A) = 0.
Proof. done. Qed.

Lemma len_cons {A} (x : A) l : len (x :: l) = 1 + len l.
Proof. unfold len. cbn [length]. lia. Qed.

Lemma len_replicate {A} n (x : A) : len (replicate n x) = Z.of_nat n.
Proof. unfold len. by rewrite length_replicate. Qed.

Lemma len_fmap {A B} (f : A -> B) l : len (f <$> l) = len l.
Proof. unfold len. by rewrite length_fmap. Qed.

Create Rewrite HintDb golen.
#[export] Hint Rewrite @len_app @len_nil @len_cons @len_replicate @len_fmap : golen.

(** ** Slicing: [s[lo:hi]] panics out of range. *)

Definition sub (bs : bytes) (lo n : Z) : bytes :=
  take (Z.to_nat n) (drop (Z.to_nat lo) bs).

Definition slice (bs : bytes) (lo hi : Z) : outcome bytes :=
  if (0 <=? lo) && (lo <=? hi) && (hi <=? len bs) then Ret (sub bs lo (hi - lo))
  else Panic.

Definition index (bs : bytes) (i : Z) : outcome Z :=
  if 0 <=? i then
    match bs !! Z.to_nat i with Some b => Ret b | None => Panic end
  else Panic.

Lemma slice_ok bs lo hi :
  0 <= lo -> lo <= hi -> hi <= len bs -> slice bs lo hi = Ret (sub bs lo (hi - lo)).
Proof.
  intros. unfold slice.
  by rewrite !(proj2 (Z.leb_le _ _)) by lia.
Qed.

Lemma slice_Ret bs lo hi r :
  slice bs lo hi = Ret r <-> 0 <= lo <= hi /\ hi <= len bs /\ r = sub bs lo (hi - lo).
Proof.
  unfold slice. destruct (Z.leb_spec 0 lo), (Z.leb_spec lo hi), (Z.leb_spec hi (len bs));
    cbn; split; intros H'; try discriminate; try (destruct H' as ([] & ? & ?); lia);
    [injection H' as <-; auto with lia | destruct H' as (? & ? & ->); done].
Qed.

Lemma index_ok bs i : 0 <= i < len bs -> exists b, bs !! Z.to_nat i = Some b /\ index bs i = Ret b.
Proof.
  intros. unfold index. rewrite (proj2 (Z.leb_le 0 i)) by lia.
  destruct (lookup_lt_is_Some_2 bs (Z.to_nat i)) as [b Hb]; [unfold len in *; lia|].
  exists b. by rewrite Hb.
Qed.

Lemma len_sub bs lo n : 0 <= lo -> 0 <= n -> lo + n <= len bs -> len (sub bs lo n) = n.
Proof.
  intros. unfold sub, len in *. rewrite length_take, length_drop. lia.
Qed.

Lemma length_sub bs lo n : 0 <= lo -> 0 <= n -> lo + n <= len bs -> length (sub bs lo n) = Z.to_nat n.
Proof. intros. pose proof (len_sub bs lo n). unfold len in *. lia. Qed.

Lemma is_bytes_app bs cs : is_bytes (bs ++ cs) <-> is_bytes bs /\ is_bytes cs.
Proof. apply Forall_app. Qed.

Lemma is_bytes_sub bs lo n : is_bytes bs -> is_bytes (sub bs lo n).
Proof. intros. by apply Forall_take, Forall_drop. Qed.

Lemma is_bytes_take n bs : is_bytes bs -> is_bytes (take n bs).
Proof. apply Forall_take. Qed.

Lemma is_bytes_drop n bs : is_bytes bs -> is_bytes (drop n bs).
Proof. apply Forall_drop. Qed.

(** Reading at a known position inside a concatenation. *)
Lemma sub_app_l bs cs n : n = len bs -> sub (bs ++ cs) 0 n = bs.
Proof. intros ->. unfold sub, len. rewrite drop_0. rewrite Nat2Z.id. apply take_app_length. Qed.

Lemma sub_app_r bs cs lo n :
  len bs <= lo -> sub (bs ++ cs) lo n = sub cs (lo - len bs) n.
Proof.
  intros. unfold sub, len in *. rewrite drop_app_ge by lia.
  do 2 f_equal. lia.
Qed.

Lemma sub_all bs n : n = len bs -> sub bs 0 n = bs.
Proof. intros ->. rewrite <-(app_nil_r bs) at 1. by apply sub_app_l. Qed.

Lemma sub_all' bs lo n : lo = 0 -> n = len bs -> sub bs lo n = bs.
Proof. intros ->. apply sub_all. Qed.

Lemma sub_split bs k : 0 <= k <= len bs ->
  bs = sub bs 0 k ++ sub bs k (len bs - k).
Proof.
  intros. unfold sub, len in *. rewrite drop_0.
  rewrite (take_ge (drop _ _)) by (rewrite length_drop; lia).
  by rewrite take_drop.
Qed.

(** * Big-endian integers (encoding/binary) *)

Fixpoint be (n : nat) (v : Z) : bytes :=
  match n with
  | O => []
  | S n' => (v / 2 ^ (8 * Z.of_nat n')) mod 256 :: be n' v
  end.

Definition unbe (bs : bytes) : Z := foldl (fun a b => a * 256 + b) 0 bs.

Abbreviation be16 := (be 2).
Abbreviation be32 := (be 4).
Abbreviation be64 := (be 8).

Lemma length_be n v : length (be n v) = n.
Proof. induction n; cbn; auto. Qed.

Lemma len_be n v : len (be n v) = Z.of_nat n.
Proof. unfold len. by rewrite length_be. Qed.
#[export] Hint Rewrite len_be : golen.

Lemma is_bytes_be n v : is_bytes (be n v).
Proof.
  induction n; cbn; constructor; auto. apply Z.mod_pos_bound. lia.
Qed.

Lemma foldl_be_acc bs a :
  foldl (fun a b => a * 256 + b) a bs = a * 2 ^ (8 * len bs) + unbe bs.
Proof.
  revert a. induction bs as [|b bs IH]; intros a.
  - unfold unbe, len. cbn [foldl length]. rewrite Z.mul_0_r, Z.pow_0_r. lia.
  - unfold unbe. cbn [foldl]. rewrite !IH, len_cons.
    replace (8 * (1 + len bs)) with (8 + 8 * len bs) by lia.
    rewrite Z.pow_add_r by (pose proof (len_nonneg bs); lia). lia.
Qed.

Lemma unbe_cons b bs : unbe (b :: bs) = b * 2 ^ (8 * len bs) + unbe bs.
Proof. unfold unbe at 1. cbn. by rewrite foldl_be_acc. Qed.

Lemma unbe_app bs cs : unbe (bs ++ cs) = unbe bs * 2 ^ (8 * len cs) + unbe cs.
Proof. unfold unbe at 1. rewrite foldl_app. by rewrite foldl_be_acc. Qed.

Lemma unbe_be n v : unbe (be n v) = v mod 2 ^ (8 * Z.of_nat n).
Proof.
  induction n as [|n IH].
  - cbn. by rewrite Z.mod_1_r.
  - cbn [be]. rewrite unbe_cons, IH, len_be.
    replace (8 * Z.of_nat (S n)) with (8 * Z.of_nat n + 8) by lia.
    rewrite Z.pow_add_r by lia.
    rewrite (Z.rem_mul_r v) by lia. change (2 ^ 8) with 256. lia.
Qed.

Lemma unbe_range bs : is_bytes bs -> 0 <= unbe bs < 2 ^ (8 * len bs).
Proof.
  induction 1 as [|b bs Hb Hbs IH]; [done|].
  rewrite unbe_cons, len_cons.
  replace (8 * (1 + len bs)) with (8 + 8 * len bs) by lia.
  rewrite Z.pow_add_r by (pose proof (len_nonneg bs); lia).
  unfold is_byte in Hb. change (2 ^ 8) with 256. nia.
Qed.

Lemma be_unbe bs n : is_bytes bs -> length bs = n -> be n (unbe bs) = bs.
Proof.
  intros Hbs <-. induction Hbs as [|b bs Hb Hbs IH]; [done|].
  cbn [be length]. pose proof (unbe_range bs Hbs) as Hr.
  rewrite unbe_cons. unfold len in *. set (m := 2 ^ (8 * Z.of_nat (length bs))) in *.
  assert (0 < m) by lia.
  rewrite Z.div_add_l by lia. rewrite (Z.div_small (unbe bs) m), Z.add_0_r by lia.
  rewrite Z.mod_small by done. f_equal.
  assert (forall k v, (k <= length bs)%nat -> be k (b * m + v) = be k v) as Hdrop; [|by rewrite Hdrop].
  intros k v. induction k as [|k IHk]; intros Hk; [done|].
  cbn. rewrite IHk by lia. f_equal.
  assert (m = 2 ^ (8 * Z.of_nat k) * (256 * 2 ^ (8 * (Z.of_nat (length bs) - Z.of_nat k - 1)))) as ->.
  { subst m. change 256 with (2 ^ 8). rewrite <-!Z.pow_add_r by lia. f_equal. lia. }
  rewrite (Z.mul_comm b), <-Z.mul_assoc, Z.add_comm.
  rewrite (Z.mul_comm (2 ^ (8 * Z.of_nat k))), Z.div_add by lia.
  by rewrite <-Z.mul_assoc, (Z.mul_comm 256), Z_mod_plus_full.
Qed.

Lemma be_wrapu n v : be n (wrapu (8 * Z.of_nat n) v) = be n v.
Proof.
  unfold wrapu. rewrite <-unbe_be. apply be_unbe; [apply is_bytes_be | apply length_be].
Qed.

(** Reading a big-endian integer at an offset, as
    [binary.BigEndian.UintN(data[off:off+n])] does. *)
Definition uint_at (n : Z) (bs : bytes) (off : Z) : outcome Z :=
  s ← slice bs off (off + n); Ret (unbe s).
Abbreviation u16_at := (uint_at 2).
Abbreviation u32_at := (uint_at 4).

Lemma uint_at_ok n bs off :
  0 <= n -> 0 <= off -> off + n <= len bs ->
  uint_at n bs off = Ret (unbe (sub bs off n)).
Proof.
  intros. unfold uint_at. rewrite slice_ok by lia. cbn. do 3 f_equal. lia.
Qed.

Lemma uint_at_app_r n bs cs off :
  len bs <= off -> uint_at n (bs ++ cs) off = uint_at n cs (off - len bs).
Proof.
  intros. pose proof (len_nonneg bs). pose proof (len_nonneg cs).
  unfold uint_at, slice. rewrite len_app.
  replace (off - len bs + n) with (off + n - len bs) by lia.
  replace (0 <=? off - len bs) with (0 <=? off) by lia.
  replace (off - len bs <=? off + n - len bs) with (off <=? off + n) by lia.
  replace (off + n - len bs <=? len cs) with (off + n <=? len bs + len cs) by lia.
  rewrite sub_app_r by lia.
  by replace (off + n - len bs - (off - len bs)) with (off + n - off) by lia.
Qed.

Lemma uint_at_app_l n k v bs :
  n = Z.of_nat k -> uint_at n (be k v ++ bs) 0 = Ret (v mod 2 ^ (8 * n)).
Proof.
  intros ->. rewrite uint_at_ok; [|lia|lia| rewrite len_app, len_be; pose proof (len_nonneg bs); lia].
  rewrite sub_app_l by (by rewrite len_be). by rewrite unbe_be.
Qed.

Lemma uint_at_Ret n bs off v :
  0 <= n -> uint_at n bs off = Ret v <-> 0 <= off /\ off + n <= len bs /\ v = unbe (sub bs off n).
Proof.
  intros Hn. split.
  - unfold uint_at. intros (s & (Hlo & Hhi & ->)%slice_Ret & [= <-])%bind_Ret.
    replace (off + n - off) with n by lia. split_and!; [lia|lia|done].
  - intros (? & ? & ->). by apply uint_at_ok.
Qed.

Lemma uint_at_range n bs off v :
  is_bytes bs -> 0 <= n -> uint_at n bs off = Ret v -> 0 <= v < 2 ^ (8 * n).
Proof.
  intros Hbs Hn (? & ? & ->)%uint_at_Ret; [|done].
  pose proof (unbe_range (sub bs off n) (is_bytes_sub _ _ _ Hbs)) as Hr.
  by rewrite len_sub in Hr by lia.
Qed.

Lemma uint_at_no_panic n bs off :
  0 <= n -> 0 <= off -> off + n <= len bs -> no_panic (uint_at n bs off).
Proof. intros. by rewrite uint_at_ok. Qed.

Lemma slice_no_panic bs lo hi :
  0 <= lo -> lo <= hi -> hi <= len bs -> no_panic (slice bs lo hi).
Proof. intros. by rewrite slice_ok. Qed.

Lemma uint_at_be_skip n k v bs off :
  Z.of_nat k <= off -> uint_at n (be k v ++ bs) off = uint_at n bs (off - Z.of_nat k).
Proof. intros. by rewrite uint_at_app_r; rewrite len_be. Qed.

Lemma uint_at_be_end n k v :
  n = Z.of_nat k -> uint_at n (be k v) 0 = Ret (v mod 2 ^ (8 * n)).
Proof. intros. rewrite <-(app_nil_r (be k v)). by apply uint_at_app_l. Qed.

(** Splitting a byte string at a field boundary. *)
Lemma sub_sub bs lo n : 0 <= lo -> 0 <= n -> lo + n <= len bs ->
  sub bs lo (len bs - lo) = sub bs lo n ++ sub bs (lo + n) (len bs - (lo + n)).
Proof.
  intros. unfold sub, len in *.
  rewrite !(take_ge (drop _ _) (Z.to_nat (Z.of_nat _ - _))) by (rewrite length_drop; lia).
  rewrite <-(take_drop (Z.to_nat n) (drop (Z.to_nat lo) bs)) at 1.
  f_equal. rewrite drop_drop. f_equal. lia.
Qed.

(** Reading inside the first part of a concatenation. *)
Lemma uint_at_prefix n bs cs off :
  0 <= n -> 0 <= off -> off + n <= len bs -> uint_at n (bs ++ cs) off = uint_at n bs off.
Proof.
  intros. pose proof (len_nonneg cs). rewrite !uint_at_ok by (rewrite ?len_app; lia).
  do 2 f_equal. unfold sub, len in *. rewrite drop_app_le, take_app_le by (rewrite ?length_drop; lia). done.
Qed.

(** Reading inside one of a sequence of records of [w] bytes. *)
Lemma len_concat_chunks (chunks : list bytes) w :
  Forall (fun c => len c = w) chunks -> len (concat chunks) = len chunks * w.
Proof. induction 1; cbn [concat]; rewrite ?len_app, ?len_cons; [done|]. lia. Qed.

Lemma uint_at_chunk n hd chunks c i w off :
  Forall (fun c => len c = w) chunks -> chunks !! i = Some c ->
  0 <= n -> 0 <= off -> off + n <= w ->
  uint_at n (hd ++ concat chunks) (len hd + Z.of_nat i * w + off) = uint_at n c off.
Proof.
  intros Hw Hi Hn Ho Hlt. pose proof (len_nonneg hd).
  rewrite <-(take_drop_middle chunks i c Hi) at 1.
  assert (len (concat (take i chunks)) = Z.of_nat i * w) as Hl.
  { rewrite (len_concat_chunks _ w) by by apply Forall_take. unfold len.
    rewrite length_take. apply lookup_lt_Some in Hi. lia. }
  assert (len c = w) by (eapply Forall_lookup_1 in Hw; eauto). pose proof (len_nonneg c).
  rewrite concat_app, app_assoc, uint_at_app_r by (rewrite len_app; lia). cbn [concat].
  rewrite uint_at_prefix by (rewrite ?len_app; lia). f_equal. rewrite len_app. lia.
Qed.

(** ** [mapM] over the outcome monad *)

Lemma mapM_no_panic {A B} (f : A -> outcome B) l :
  Forall (fun x => no_panic (f x)) l -> no_panic (mapM f l).
Proof.
  induction 1; cbn [mapM]; [done|]. apply bind_no_panic; [done|]. intros.
  by apply bind_no_panic.
Qed.

Lemma mapM_Ret {A B} (f : A -> outcome B) l k :
  Forall2 (fun x y => f x = Ret y) l k -> mapM f l = Ret k.
Proof. induction 1 as [|x y l k E _ IH]; [done|]. cbn [mapM]. by rewrite E; cbn [mbind outcome_bind]; rewrite IH. Qed.

(** * Tactics *)

(** Bounds facts recorded as booleans, ready for [lia]. *)
Ltac bool_facts :=
  repeat match goal with
  | H : (_ <=? _) = true |- _ => apply Z.leb_le in H
  | H : (_ <? _) = true |- _ => apply Z.ltb_lt in H
  | H : (_ =? _) = true |- _ => apply Z.eqb_eq in H
  | H : (_ <=? _) = false |- _ => apply Z.leb_gt in H
  | H : (_ <? _) = false |- _ => apply Z.ltb_ge in H
  | H : (_ =? _) = false |- _ => apply Z.eqb_neq in H
  | H : (_ && _) = true |- _ => apply andb_true_iff in H as [? ?]
  end.

(** Read the fields of a concatenation of big-endian integers. *)
Ltac read_be :=
  repeat (
    first
      [ rewrite uint_at_app_l by reflexivity
      | rewrite uint_at_be_end by reflexivity
      | rewrite uint_at_be_skip by lia ];
    repeat match goal with
    | |- context [uint_at ?n ?bs (?a - Z.of_nat ?k)] =>
        let v := eval compute in (a - Z.of_nat k) in change (a - Z.of_nat k) with v
    end;
    cbn [mbind outcome_bind]).

(** Normalise lengths of concatenations, then close with [lia]. *)
Ltac len_lia :=
  autorewrite with golen in *;
  repeat match goal with
  | |- context [len ?l] => lazymatch goal with H : 0 <= len l |- _ => fail | _ => pose proof (len_nonneg l) end
  | _ : context [len ?l] |- _ => lazymatch goal with H : 0 <= len l |- _ => fail | _ => pose proof (len_nonneg l) end
  end; try lia.

(** One step through the outcome monad in a [no_panic] goal. *)
Create HintDb nopanic.
#[export] Hint Extern 4 (no_panic (uint_at _ _ _)) =>
  apply uint_at_no_panic; bool_facts; lia : nopanic.
#[export] Hint Extern 4 (no_panic (slice _ _ _)) =>
  apply slice_no_panic; bool_facts; lia : nopanic.
#[export] Hint Resolve Ret_no_panic Fail_no_panic : nopanic.

Ltac np_step :=
  match goal with
  | |- no_panic (Ret _) => apply Ret_no_panic
  | |- no_panic (mret _) => apply Ret_no_panic
  | |- no_panic (Fail _) => apply Fail_no_panic
  | |- no_panic (ensure _ _ _) => apply ensure_no_panic; intros ?
  | |- no_panic (_ <$> _) => apply fmap_no_panic
  | |- no_panic (_ ≫= _) => apply bind_no_panic; [|intros ? ?]
  | |- no_panic (if ?b then _ else _) => destruct b eqn:?
  | |- no_panic (match ?x with _ => _ end) => destruct x eqn:?
  | |- no_panic _ => solve [eauto with nopanic]
  end.
Ltac np := repeat np_step.

(** Split a successful run of the monad into its steps. *)
Ltac inv_ret :=
  repeat match goal with
  | H : _ ≫= _ = Ret _ |- _ => apply bind_Ret in H as (? & ? & H)
  | H : ensure _ _ _ = Ret _ |- _ => apply ensure_Ret in H as [? H]
  | H : Ret _ = Ret _ |- _ => injection H as ?; subst
  | H : Fail _ = Ret _ |- _ => discriminate H
  | H : Panic = Ret _ |- _ => discriminate H
  end.
