(* ===== verification/GoStrings.v ===== *)
(** The functions of Go's [strings], [strconv] and [fmt] packages that the
    driver calls, on byte strings.

    [trimSpace] is exact for UTF-8 text: it strips every encoding of a Unicode
    white-space rune.  [toUpper] and [toLower] are exact on ASCII and on the two
    non-ASCII runes each that map into ASCII; the driver compares their results
    only with ASCII key words, so the case of the other runes is immaterial and
    they are kept as they are. *)
From Stdlib Require Import Strings.String.
From stdpp Require Import base list numbers strings.
From S2P Require Import Prelude.
Open Scope Z_scope.

(** ** Prefixes, suffixes, searching *)

Fixpoint hasPrefix (s p : bytes) {struct p} : bool :=
  match p, s with
  | [], _ => true
  | c :: p', b :: s' => (b =? c) && hasPrefix s' p'
  | _ :: _, [] => false
  end.

Definition hasSuffix (s p : bytes) : bool := hasPrefix (reverse s) (reverse p).

Definition beqb (s t : bytes) : bool := bool_decide (s = t).

Definition trimPrefix (s p : bytes) : bytes :=
  if hasPrefix s p then drop (length p) s else s.

Definition trimSuffix (s p : bytes) : bytes :=
  if hasSuffix s p then take (length s - length p) s else s.

(** [strings.IndexFunc]-like search for the first byte that satisfies [p]. *)
Fixpoint indexFunc (p : Z -> bool) (s : bytes) : option nat :=
  match s with
  | [] => None
  | b :: s' => if p b then Some O else S <$> indexFunc p s'
  end.

Definition indexByte (s : bytes) (c : Z) : option nat := indexFunc (Z.eqb c) s.

Definition inSet (cs : bytes) (b : Z) : bool := existsb (Z.eqb b) cs.

Definition indexAny (s cs : bytes) : option nat := indexFunc (inSet cs) s.

(** [strings.Index]: the first position where [p] occurs. *)
Fixpoint indexOf (s p : bytes) : option nat :=
  if hasPrefix s p then Some O
  else match s with
       | [] => None
       | _ :: s' => S <$> indexOf s' p
       end.

(** ** Trimming *)

Fixpoint dropWhile (p : Z -> bool) (s : bytes) : bytes :=
  match s with
  | [] => []
  | b :: s' => if p b then dropWhile p s' else s
  end.

(** [strings.TrimLeft] and friends, for an ASCII cut set. *)
Definition trimLeft (s cs : bytes) : bytes := dropWhile (inSet cs) s.
Definition trimRight (s cs : bytes) : bytes := reverse (dropWhile (inSet cs) (reverse s)).
Definition trim (s cs : bytes) : bytes := trimRight (trimLeft s cs) cs.

(** The UTF-8 encodings of the white-space runes of [unicode.IsSpace]. *)
Definition spaceRunes : list bytes :=
  [[9]; [10]; [11]; [12]; [13]; [32]; [194; 133]; [194; 160]; [225; 154; 128];
   [226; 128; 128]; [226; 128; 129]; [226; 128; 130]; [226; 128; 131];
   [226; 128; 132]; [226; 128; 133]; [226; 128; 134]; [226; 128; 135];
   [226; 128; 136]; [226; 128; 137]; [226; 128; 138]; [226; 128; 168];
   [226; 128; 169]; [226; 128; 175]; [226; 129; 159]; [227; 128; 128]].

Definition spaceRunesRev : list bytes := Eval vm_compute in (reverse <$> spaceRunes).

Definition spaceAt (rs : list bytes) (s : bytes) : option nat :=
  length <$> List.find (hasPrefix s) rs.

Fixpoint trimRunes (rs : list bytes) (fuel : nat) (s : bytes) : bytes :=
  match fuel with
  | O => s
  | S fuel' =>
      match spaceAt rs s with
      | Some n => trimRunes rs fuel' (drop n s)
      | None => s
      end
  end.

(** [strings.TrimLeftFunc(s, unicode.IsSpace)], its right counterpart and
    [strings.TrimSpace].  Each step drops at least one byte, so the length of
    the text is enough fuel. *)
Definition trimLeftSpace (s : bytes) : bytes := trimRunes spaceRunes (length s) s.
Definition trimRightSpace (s : bytes) : bytes :=
  reverse (trimRunes spaceRunesRev (length s) (reverse s)).
Definition trimSpace (s : bytes) : bytes := trimRightSpace (trimLeftSpace s).

(** ** Case *)

Definition upperByte (b : Z) : Z := if (97 <=? b) && (b <=? 122) then b - 32 else b.
Definition lowerByte (b : Z) : Z := if (65 <=? b) && (b <=? 90) then b + 32 else b.

(** U+0131 and U+017F are the only non-ASCII runes with an ASCII upper case. *)
Fixpoint toUpper (s : bytes) : bytes :=
  match s with
  | 196 :: 177 :: s' => 73 :: toUpper s'
  | 197 :: 191 :: s' => 83 :: toUpper s'
  | b :: s' => upperByte b :: toUpper s'
  | [] => []
  end.

(** U+0130 and U+212A are the only non-ASCII runes with an ASCII lower case. *)
Fixpoint toLower (s : bytes) : bytes :=
  match s with
  | 196 :: 176 :: s' => 105 :: toLower s'
  | 226 :: 132 :: 170 :: s' => 107 :: toLower s'
  | b :: s' => lowerByte b :: toLower s'
  | [] => []
  end.

(** ** Decimal digits *)

Definition isDigit (b : Z) : bool := (48 <=? b) && (b <=? 57).

Definition digitsVal (s : bytes) : Z := foldl (fun a b => a * 10 + (b - 48)) 0 s.

(** The decimal digits of a non-negative number, at least one. *)
Fixpoint digitsOf (fuel : nat) (n : Z) : bytes :=
  match fuel with
  | O => []
  | S fuel' => (if n <? 10 then [] else digitsOf fuel' (n / 10)) ++ [48 + n mod 10]
  end.

Definition formatNat (n : Z) : bytes := digitsOf (S (Z.to_nat (Z.log2 n))) n.
Definition formatInt (n : Z) : bytes :=
  if n <? 0 then 45 :: formatNat (- n) else formatNat n.

(** The low [k] decimal digits of [n], most significant first. *)
Fixpoint fixedDigits (k : nat) (n : Z) : bytes :=
  match k with
  | O => []
  | S k' => fixedDigits k' (n / 10) ++ [48 + n mod 10]
  end.

(** [fmt.Sprintf("%0kd", n)]: zero padding to width [k], sign included. *)
Definition padInt (k : nat) (n : Z) : bytes :=
  if n <? 0 then 45 :: replicate (k - 1 - length (formatNat (- n))) 48 ++ formatNat (- n)
  else replicate (k - length (formatNat n)) 48 ++ formatNat n.

(** [fmt.Sprintf("%0kX", n)] for a value that fits [k] digits. *)
Definition hexDigit (d : Z) : Z := if d <? 10 then 48 + d else 55 + d.
Fixpoint padHex (k : nat) (n : Z) : bytes :=
  match k with
  | O => []
  | S k' => padHex k' (n / 16) ++ [hexDigit (n mod 16)]
  end.

(** [strconv.ParseInt(s, 10, 64)], which is also [strconv.Atoi] on a 64-bit
    platform. *)
Definition parseInt64 (s : bytes) : outcome Z :=
  let '(neg, body) :=
    match s with
    | 43 :: s' => (false, s')
    | 45 :: s' => (true, s')
    | _ => (false, s)
    end in
  match body with
  | [] => Fail ESyntax
  | _ =>
      if forallb isDigit body then
        let v := if neg : bool then - digitsVal body else digitsVal body in
        if (- 2 ^ 63 <=? v) && (v <? 2 ^ 63) then Ret v else Fail ERange
      else Fail ESyntax
  end.
Abbreviation atoi := parseInt64.

(** * Lemmas *)

Lemma hasPrefix_spec s p : hasPrefix s p = true <-> exists k, s = p ++ k.
Proof.
  revert s. induction p as [|c p IH]; intros s; cbn.
  - split; [eauto|done].
  - destruct s as [|b s]; cbn.
    + split; [done|]. by intros (? & [=]).
    + rewrite andb_true_iff, Z.eqb_eq, IH. split.
      * intros (-> & k & ->). eauto.
      * intros (k & [= -> ->]). eauto.
Qed.

Lemma hasPrefix_app p s : hasPrefix (p ++ s) p = true.
Proof. apply hasPrefix_spec. eauto. Qed.

Lemma beqb_true s t : beqb s t = true <-> s = t.
Proof. apply bool_decide_eq_true. Qed.

Lemma indexFunc_None p s : indexFunc p s = None <-> Forall (fun b => p b = false) s.
Proof.
  induction s as [|b s IH]; cbn.
  - split; auto.
  - destruct (p b) eqn:Hb.
    + split; [done|]. intros Hf. apply Forall_cons in Hf as [? _]. congruence.
    + rewrite Forall_cons, <-IH. destruct (indexFunc p s); cbn; split; try done; by intros [].
Qed.

Lemma indexFunc_Some p s i :
  indexFunc p s = Some i ->
  exists l b r, s = l ++ b :: r /\ length l = i /\ p b = true /\ Forall (fun b => p b = false) l.
Proof.
  revert i. induction s as [|b s IH]; intros i; cbn; [done|].
  destruct (p b) eqn:Hb.
  - intros [= <-]. exists [], b, s. auto.
  - destruct (indexFunc p s) as [j|] eqn:Hj; [|done]. cbn. intros [= <-].
    destruct (IH j eq_refl) as (l & b' & r & -> & <- & ? & ?).
    exists (b :: l), b', r. auto.
Qed.

Lemma indexFunc_app_no p l b r :
  Forall (fun b => p b = false) l -> p b = true -> indexFunc p (l ++ b :: r) = Some (length l).
Proof.
  induction 1 as [|c l Hc Hl IH]; intros Hb; cbn.
  - by rewrite Hb.
  - by rewrite Hc, IH.
Qed.

Lemma dropWhile_none p s : Forall (fun b => p b = false) s -> dropWhile p s = s.
Proof. destruct s as [|b s]; [done|]. intros [Hb _]%Forall_cons. cbn. by rewrite Hb. Qed.

Lemma dropWhile_app p l s :
  Forall (fun b => p b = true) l -> dropWhile p (l ++ s) = dropWhile p s.
Proof. induction 1 as [|b l Hb Hl IH]; [done|]. cbn. by rewrite Hb. Qed.

Lemma dropWhile_split p s :
  exists l, s = l ++ dropWhile p s /\ Forall (fun b => p b = true) l.
Proof.
  induction s as [|b s (l & Hs & Hl)]; [by exists []|]. cbn.
  destruct (p b) eqn:Hb.
  - exists (b :: l). cbn. rewrite <-Hs. auto.
  - by exists [].
Qed.

Lemma dropWhile_head p s b r : dropWhile p s = b :: r -> p b = false.
Proof.
  induction s as [|c s IH]; cbn; [done|]. destruct (p c) eqn:Hc; [done|].
  by intros [= <- _].
Qed.

Lemma trimRunes_id rs fuel s : spaceAt rs s = None -> trimRunes rs fuel s = s.
Proof. intros H. destruct fuel; [done|]. cbn. by rewrite H. Qed.

(** A text that neither starts nor ends with a byte of a white-space rune is
    left alone by [trimSpace].  The bytes outside this set include the ASCII
    letters, digits and punctuation. *)
Definition plainByte (b : Z) : bool := (33 <=? b) && (b <=? 126).

Lemma spaceAt_plain b s : plainByte b = true -> spaceAt spaceRunes (b :: s) = None.
Proof.
  unfold plainByte, spaceAt. intros [? ?]%andb_true_iff. cbn.
  repeat match goal with
  | |- context [?b =? ?n] => destruct (Z.eqb_spec b n); [lia|]
  end. done.
Qed.

Lemma spaceAt_plain_rev b s :
  plainByte b = true -> spaceAt spaceRunesRev (b :: s) = None.
Proof.
  unfold plainByte, spaceAt. intros [? ?]%andb_true_iff.
  cbn. repeat match goal with
  | |- context [?b =? ?n] => destruct (Z.eqb_spec b n); [lia|]
  end. done.
Qed.
