(* ===== verification/Digits.v ===== *)
(** Decimal digit strings: the lemmas that the numeric and date conversions
    share.  [fixedDigits k n] is the canonical form: a digit string is the
    fixed-width rendering of its own value. *)
From Stdlib Require Import Strings.String.
From stdpp Require Import base list numbers strings.
From S2P Require Import Prelude GoStrings.
Open Scope Z_scope.

Definition is_digits (s : bytes) : Prop := Forall (fun b => isDigit b = true) s.

#[export] Instance is_digits_dec s : Decision (is_digits s).
Proof. unfold is_digits. apply _. Defined.

Lemma isDigit_range b : isDigit b = true <-> 48 <= b < 58.
Proof. unfold isDigit. rewrite andb_true_iff, !Z.leb_le. lia. Qed.

Lemma is_digits_app s t : is_digits (s ++ t) <-> is_digits s /\ is_digits t.
Proof. apply Forall_app. Qed.

Lemma is_digits_forallb s : forallb isDigit s = true <-> is_digits s.
Proof.
  unfold is_digits. rewrite List.forallb_forall, <-List.Forall_forall. done.
Qed.

Lemma pow10_pos k : 0 <= k -> 0 < 10 ^ k.
Proof. intros. apply Z.pow_pos_nonneg; lia. Qed.

Lemma pow10_S k : 10 ^ Z.of_nat (S k) = 10 * 10 ^ Z.of_nat k.
Proof. rewrite Nat2Z.inj_succ, Z.pow_succ_r by lia. done. Qed.

(** ** Values *)

Lemma digitsVal_acc s a :
  foldl (fun a b => a * 10 + (b - 48)) a s = a * 10 ^ len s + digitsVal s.
Proof.
  revert a. induction s as [|b s IH]; intros a.
  - unfold digitsVal, len. cbn [foldl length]. change (10 ^ Z.of_nat 0) with 1. lia.
  - unfold digitsVal. cbn [foldl]. rewrite !IH, len_cons.
    rewrite Z.pow_add_r by (pose proof (len_nonneg s); lia). change (10 ^ 1) with 10. lia.
Qed.

Lemma digitsVal_nil : digitsVal [] = 0.
Proof. done. Qed.

Lemma digitsVal_app s t : digitsVal (s ++ t) = digitsVal s * 10 ^ len t + digitsVal t.
Proof. unfold digitsVal at 1. rewrite foldl_app. by rewrite digitsVal_acc. Qed.

Lemma digitsVal_cons b s : digitsVal (b :: s) = (b - 48) * 10 ^ len s + digitsVal s.
Proof. apply (digitsVal_app [b]). Qed.

Lemma digitsVal_snoc s b : digitsVal (s ++ [b]) = digitsVal s * 10 + (b - 48).
Proof. rewrite digitsVal_app. done. Qed.

Lemma digitsVal_range s : is_digits s -> 0 <= digitsVal s < 10 ^ len s.
Proof.
  induction 1 as [|b s Hb%isDigit_range Hs IH]; [done|].
  rewrite digitsVal_cons, len_cons, Z.pow_add_r by (pose proof (len_nonneg s); lia).
  change (10 ^ 1) with 10. nia.
Qed.

Lemma digitsVal_zeros k s : digitsVal (replicate k 48 ++ s) = digitsVal s.
Proof.
  rewrite digitsVal_app. induction k as [|k IH]; [done|]. cbn [replicate]. rewrite digitsVal_cons. lia.
Qed.

(** ** Fixed width *)

Lemma length_fixedDigits k n : length (fixedDigits k n) = k.
Proof. revert n. induction k as [|k IH]; intros n; [done|]. cbn [fixedDigits]. rewrite length_app, IH. cbn. lia. Qed.

Lemma len_fixedDigits k n : len (fixedDigits k n) = Z.of_nat k.
Proof. unfold len. by rewrite length_fixedDigits. Qed.
#[export] Hint Rewrite len_fixedDigits : golen.

Lemma is_digits_fixed k n : is_digits (fixedDigits k n).
Proof.
  revert n. induction k as [|k IH]; intros n; [by constructor|]. cbn [fixedDigits].
  apply is_digits_app. split; [apply IH|]. repeat constructor. apply isDigit_range.
  pose proof (Z.mod_pos_bound n 10). lia.
Qed.

Lemma digitsVal_fixed k n : 0 <= n -> digitsVal (fixedDigits k n) = n mod 10 ^ Z.of_nat k.
Proof.
  revert n. induction k as [|k IH]; intros n Hn; [by rewrite Z.mod_1_r|].
  cbn [fixedDigits]. rewrite digitsVal_snoc, IH by (apply Z.div_pos; lia).
  rewrite pow10_S. pose proof (pow10_pos (Z.of_nat k)).
  rewrite (Z.rem_mul_r n 10) by lia. lia.
Qed.

Lemma fixedDigits_val s k : is_digits s -> k = length s -> fixedDigits k (digitsVal s) = s.
Proof.
  intros Hs ->. induction s as [|b s IH] using rev_ind; [done|].
  apply is_digits_app in Hs as [Hs Hb]. apply Forall_singleton, isDigit_range in Hb.
  rewrite length_app, digitsVal_snoc. cbn [length]. rewrite Nat.add_1_r. cbn [fixedDigits].
  pose proof (digitsVal_range s Hs).
  rewrite Z.div_add_l, (Z.div_small (b - 48)), Z.add_0_r, IH by (done || lia).
  rewrite <-(Z.mod_unique _ 10 (digitsVal s) (b - 48)) by lia. do 2 f_equal. lia.
Qed.

Lemma fixedDigits_app a b n :
  fixedDigits (a + b) n = fixedDigits a (n / 10 ^ Z.of_nat b) ++ fixedDigits b n.
Proof.
  revert n. induction b as [|b IH]; intros n.
  - rewrite Nat.add_0_r, app_nil_r. cbn. by rewrite Z.div_1_r.
  - rewrite Nat.add_succ_r. cbn [fixedDigits]. rewrite IH, app_assoc, pow10_S.
    rewrite Z.div_div by (pose proof (pow10_pos (Z.of_nat b)); lia). done.
Qed.

Lemma fixedDigits_zero k : fixedDigits k 0 = replicate k 48.
Proof.
  induction k as [|k IH]; [done|]. cbn [fixedDigits]. change (0 / 10) with 0. change (0 mod 10) with 0.
  rewrite IH, <-replicate_cons_app. done.
Qed.

Lemma fixedDigits_small a b n :
  0 <= n < 10 ^ Z.of_nat b -> fixedDigits (a + b) n = replicate a 48 ++ fixedDigits b n.
Proof. intros. by rewrite fixedDigits_app, Z.div_small, fixedDigits_zero. Qed.

(** ** Shortest form *)

Lemma digitsOf_fixed fuel n :
  0 <= n < 2 ^ Z.of_nat fuel -> (0 < fuel)%nat ->
  exists k, digitsOf fuel n = fixedDigits (S k) n /\ n < 10 ^ Z.of_nat (S k) /\
            (k = O \/ 10 ^ Z.of_nat k <= n).
Proof.
  revert n. induction fuel as [|fuel IH]; intros n Hn Hf; [lia|]. cbn [digitsOf].
  destruct (Z.ltb_spec n 10).
  - exists O. cbn. split_and!; [done|lia|by left].
  - rewrite Nat2Z.inj_succ, Z.pow_succ_r in Hn by lia.
    destruct (IH (n / 10)) as (k & E & Hlt & Hge).
    + split; [apply Z.div_pos; lia|]. apply Z.div_lt_upper_bound; lia.
    + destruct fuel; [|lia]. cbn in Hn. lia.
    + exists (S k). rewrite E. split_and!; [done| |right].
      * rewrite (pow10_S (S k)). pose proof (Z.mod_pos_bound n 10). 
        pose proof (Z.div_mod n 10). lia.
      * rewrite pow10_S. pose proof (Z.div_mod n 10). pose proof (Z.mod_pos_bound n 10).
        destruct Hge as [->|Hge]; [cbn|]; lia.
Qed.

(** The number of digits [formatNat] prints. *)
Definition digits10 (n : Z) : Z := len (formatNat n).

Lemma formatNat_fixed n : 0 <= n ->
  exists k, formatNat n = fixedDigits (S k) n /\ digits10 n = Z.of_nat (S k) /\
            n < 10 ^ Z.of_nat (S k) /\ (k = O \/ 10 ^ Z.of_nat k <= n).
Proof.
  intros Hn. unfold digits10, formatNat.
  destruct (digitsOf_fixed (S (Z.to_nat (Z.log2 n))) n) as (k & E & ? & ?).
  - split; [done|]. rewrite Nat2Z.inj_succ, Z2Nat.id by apply Z.log2_nonneg.
    destruct (Z.eq_dec n 0) as [->|]; [done|]. apply Z.log2_spec. lia.
  - lia.
  - exists k. rewrite E, len_fixedDigits. done.
Qed.

Lemma digits10_pos n : 0 <= n -> 1 <= digits10 n.
Proof. intros (k & _ & -> & _)%formatNat_fixed. lia. Qed.

Lemma digits10_bound n : 0 <= n -> n < 10 ^ digits10 n.
Proof. intros (k & _ & -> & ? & _)%formatNat_fixed. done. Qed.

Lemma digits10_lower n : 0 < n -> 10 ^ (digits10 n - 1) <= n.
Proof.
  intros Hn. destruct (formatNat_fixed n) as (k & _ & -> & _ & [->|Hk]); [lia|cbn; lia|].
  replace (Z.of_nat (S k) - 1) with (Z.of_nat k) by lia. done.
Qed.

Lemma digits10_le n k : 0 <= n -> 1 <= k -> n < 10 ^ k -> digits10 n <= k.
Proof.
  intros Hn Hk Hlt. destruct (formatNat_fixed n) as (j & _ & -> & _ & [->|Hj]); [done|lia|].
  destruct (Z.le_gt_cases (Z.of_nat (S j)) k) as [|Hgt]; [done|].
  assert (10 ^ k <= 10 ^ Z.of_nat j) by (apply Z.pow_le_mono_r; lia). lia.
Qed.

Lemma digits10_gt n k : 0 <= k -> 10 ^ k <= n -> k < digits10 n.
Proof.
  intros Hk Hge. pose proof (pow10_pos k Hk). pose proof (digits10_bound n ltac:(lia)).
  destruct (Z.le_gt_cases (digits10 n) k) as [Hle|]; [|done].
  assert (10 ^ digits10 n <= 10 ^ k); [|lia]. apply Z.pow_le_mono_r; lia.
Qed.

Lemma is_digits_formatNat n : 0 <= n -> is_digits (formatNat n).
Proof. intros (k & -> & _)%formatNat_fixed. apply is_digits_fixed. Qed.

Lemma digitsVal_formatNat n : 0 <= n -> digitsVal (formatNat n) = n.
Proof.
  intros Hn. destruct (formatNat_fixed n Hn) as (k & -> & _ & ? & _).
  rewrite digitsVal_fixed by done. by apply Z.mod_small.
Qed.

(** Zero padding gives the fixed-width form. *)
Lemma pad_formatNat k n : 0 <= n < 10 ^ Z.of_nat k -> (0 < k)%nat ->
  replicate (k - length (formatNat n)) 48 ++ formatNat n = fixedDigits k n.
Proof.
  intros Hn Hk. pose proof (digits10_le n (Z.of_nat k)) as Hle.
  destruct (formatNat_fixed n) as (j & E & Ed & ? & _); [lia|].
  rewrite Ed in Hle. rewrite E, length_fixedDigits, <-fixedDigits_small by lia. f_equal. lia.
Qed.

Lemma padInt_fixed k n : 0 <= n < 10 ^ Z.of_nat k -> (0 < k)%nat -> padInt k n = fixedDigits k n.
Proof. intros. unfold padInt. rewrite (proj2 (Z.ltb_ge n 0)) by lia. by apply pad_formatNat. Qed.

(** Dropping leading zeros gives the shortest form. *)
Definition isZero (b : Z) : bool := b =? 48.

Lemma dropZeros_formatNat s :
  is_digits s ->
  dropWhile isZero s = if digitsVal s =? 0 then [] else formatNat (digitsVal s).
Proof.
  intros Hs. destruct (dropWhile_split isZero s) as (l & E & Hl).
  assert (l = replicate (length l) 48) as El.
  { clear -Hl. induction Hl as [|b l Hb Hl IH]; [done|]. apply Z.eqb_eq in Hb as ->.
    cbn [length replicate]. by rewrite <-IH. }
  assert (digitsVal s = digitsVal (dropWhile isZero s)) as Hv
    by (rewrite E at 1; rewrite El; apply digitsVal_zeros).
  assert (is_digits (dropWhile isZero s)) as Hd by (rewrite E in Hs; by apply is_digits_app in Hs as [_ ?]).
  rewrite Hv. destruct (dropWhile isZero s) as [|b r] eqn:Eb; [done|].
  pose proof (dropWhile_head _ _ _ _ Eb) as Hnz. apply Z.eqb_neq in Hnz.
  pose proof (Forall_inv Hd) as Hb. apply isDigit_range in Hb.
  pose proof (Forall_inv_tail Hd) as Hr. pose proof (digitsVal_range r Hr).
  pose proof (pow10_pos (len r) (len_nonneg r)).
  rewrite digitsVal_cons, (proj2 (Z.eqb_neq _ 0)) by nia. rewrite <-digitsVal_cons.
  set (n := digitsVal (b :: r)) in *. pose proof (digitsVal_range _ Hd) as Hn. fold n in Hn.
  assert (10 ^ len r <= n) as Hge by (subst n; rewrite digitsVal_cons; nia).
  destruct (formatNat_fixed n) as (k & Ef & Ek & _); [lia|]. rewrite Ef.
  pose proof (digits10_le n (len (b :: r))) as H1. pose proof (digits10_gt n (len r)) as H2.
  rewrite len_cons in *. pose proof (len_nonneg r).
  assert (S k = length (b :: r)) as -> by (unfold len in *; cbn [length]; lia).
  subst n. symmetry. by apply fixedDigits_val.
Qed.

(** ** Texts without surrounding blanks *)

Lemma plain_digit b : isDigit b = true -> plainByte b = true.
Proof. rewrite isDigit_range. unfold plainByte. intros. apply andb_true_iff. rewrite !Z.leb_le. lia. Qed.

Lemma trimSpace_plain s :
  (forall b r, s = b :: r -> plainByte b = true) -> (forall l b, s = l ++ [b] -> plainByte b = true) ->
  trimSpace s = s.
Proof.
  intros Hh Ht. unfold trimSpace, trimLeftSpace.
  rewrite (trimRunes_id spaceRunes) by (destruct s; [done|apply spaceAt_plain; by eapply Hh]).
  unfold trimRightSpace. rewrite trimRunes_id; [apply reverse_involutive|].
  destruct s as [|b s _] using rev_ind; [done|]. rewrite reverse_snoc. apply spaceAt_plain_rev. by eapply Ht.
Qed.

Lemma trimSpace_forall s : Forall (fun b => plainByte b = true) s -> trimSpace s = s.
Proof.
  intros Hs. apply trimSpace_plain.
  - intros b r ->. by apply Forall_inv in Hs.
  - intros l b ->. apply Forall_app in Hs as [_ Hs]. by inversion Hs.
Qed.

(** ** Digits next to signs, points and exponents *)

Definition signText (n : bool) : bytes := if n then [45] else [].

Lemma trimZeros_isZero s : trimLeft s (lit "0") = dropWhile isZero s.
Proof.
  unfold trimLeft. induction s as [|b s IH]; [done|]. cbn [dropWhile]. rewrite IH.
  change (inSet (lit "0") b) with ((b =? 48) || false). by rewrite orb_false_r.
Qed.

Lemma digit_facts s : is_digits s ->
  Forall (fun b => plainByte b = true) s /\ Forall (fun b => inSet (lit "eE") b = false) s /\
  Forall (fun b => (46 =? b) = false) s.
Proof.
  intros Hs. split_and!; (eapply Forall_impl; [exact Hs|]); intros b Hb.
  - by apply plain_digit.
  - apply isDigit_range in Hb. change (inSet (lit "eE") b) with ((b =? 101) || ((b =? 69) || false)).
    by rewrite !(proj2 (Z.eqb_neq b _)) by lia.
  - apply isDigit_range in Hb. apply Z.eqb_neq. lia.
Qed.

Lemma trimmed_val s : is_digits s ->
  (if len (trimLeft s (lit "0")) =? 0 then 0 else digitsVal (trimLeft s (lit "0"))) = digitsVal s.
Proof.
  intros Hs. rewrite trimZeros_isZero, dropZeros_formatNat by done.
  pose proof (digitsVal_range s Hs). destruct (Z.eqb_spec (digitsVal s) 0) as [->|Hn]; [done|].
  rewrite digitsVal_formatNat by lia. pose proof (digits10_pos (digitsVal s) ltac:(lia)).
  unfold digits10 in *. by rewrite (proj2 (Z.eqb_neq (len _) 0)) by lia.
Qed.

Lemma is_digits_zeros k : is_digits (replicate k 48).
Proof. rewrite <-fixedDigits_zero. apply is_digits_fixed. Qed.

Lemma digitsVal_trailing s k : digitsVal (s ++ replicate k 48) = digitsVal s * 10 ^ Z.of_nat k.
Proof.
  rewrite digitsVal_app, len_replicate. pose proof (digitsVal_zeros k []) as E.
  rewrite app_nil_r in E. rewrite E, digitsVal_nil. lia.
Qed.

(** ** Fixed-width hexadecimal numbers *)

Lemma plain_hexDigit n : 0 <= n < 16 -> plainByte (hexDigit n) = true.
Proof. intros. unfold plainByte, hexDigit. destruct (n <? 10) eqn:E; bool_facts; apply andb_true_iff; lia. Qed.

Lemma padHex_plain k n : Forall (fun b => plainByte b = true) (padHex k n).
Proof.
  revert n. induction k as [|k IH]; intros n; cbn; [constructor|]. apply Forall_app. split; [apply IH|].
  constructor; [|constructor]. apply plain_hexDigit, Z.mod_pos_bound. lia.
Qed.

Lemma hexDigit_inj a b : 0 <= a < 16 -> 0 <= b < 16 -> hexDigit a = hexDigit b -> a = b.
Proof. unfold hexDigit. intros. destruct (a <? 10) eqn:Ea, (b <? 10) eqn:Eb; bool_facts; lia. Qed.

Lemma padHex_inj k n m : 0 <= n < 16 ^ Z.of_nat k -> 0 <= m < 16 ^ Z.of_nat k -> padHex k n = padHex k m -> n = m.
Proof.
  revert n m. induction k as [|k IH]; intros n m Hn Hm E.
  - change (16 ^ Z.of_nat 0) with 1 in *. lia.
  - rewrite Nat2Z.inj_succ, Z.pow_succ_r in Hn, Hm by lia. cbn [padHex] in E. apply app_inj_tail in E as [E Ed].
    apply hexDigit_inj in Ed; [|apply Z.mod_pos_bound; lia..].
    apply IH in E; [|split; [apply Z.div_pos; lia|apply Z.div_lt_upper_bound; lia]..].
    rewrite (Z.div_mod n 16), (Z.div_mod m 16) by lia. congruence.
Qed.
