(* ===== verification/Utf.v ===== *)
(** Unicode text as Go sees it: [unicode/utf8], [unicode/utf16], conversions
    between [string] and [[]rune], and encoding.go's UTF-16BE helpers. *)
From Stdlib Require Import Strings.String.
From stdpp Require Import base list numbers strings.
From S2P Require Import Prelude.
Open Scope Z_scope.

Definition runeError : Z := 0xFFFD.

(** A Unicode scalar value. *)
Definition validRune (r : Z) : bool :=
  ((0 <=? r) && (r <? 0xD800)) || ((0xE000 <=? r) && (r <=? 0x10FFFF)).

Definition between (lo hi b : Z) : bool := (lo <=? b) && (b <=? hi).
Definition isCont (b : Z) : bool := between 0x80 0xBF b.

(** ** UTF-8 *)

(** [utf8.AppendRune(nil, r)]: runes that are not scalar values become U+FFFD. *)
Definition appendRune (r : Z) : bytes :=
  if negb (validRune r) then [0xEF; 0xBF; 0xBD]
  else if r <? 0x80 then [r]
  else if r <? 0x800 then [0xC0 + r / 64; 0x80 + r mod 64]
  else if r <? 0x10000 then [0xE0 + r / 4096; 0x80 + r / 64 mod 64; 0x80 + r mod 64]
  else [0xF0 + r / 262144; 0x80 + r / 4096 mod 64; 0x80 + r / 64 mod 64; 0x80 + r mod 64].

(** [utf8.DecodeRune] on a non-empty text: the rune and its width; a byte that
    starts no valid encoding is U+FFFD with width one. *)
Definition decodeRune (s : bytes) : Z * nat :=
  match s with
  | b0 :: s1 =>
      if b0 <? 0x80 then (b0, 1%nat)
      else if between 0xC2 0xDF b0 then
        match s1 with
        | b1 :: _ => if isCont b1 then ((b0 - 0xC0) * 64 + (b1 - 0x80), 2%nat) else (runeError, 1%nat)
        | _ => (runeError, 1%nat)
        end
      else if between 0xE0 0xEF b0 then
        match s1 with
        | b1 :: b2 :: _ =>
            if between (if b0 =? 0xE0 then 0xA0 else 0x80) (if b0 =? 0xED then 0x9F else 0xBF) b1
               && isCont b2
            then ((b0 - 0xE0) * 4096 + (b1 - 0x80) * 64 + (b2 - 0x80), 3%nat)
            else (runeError, 1%nat)
        | _ => (runeError, 1%nat)
        end
      else if between 0xF0 0xF4 b0 then
        match s1 with
        | b1 :: b2 :: b3 :: _ =>
            if between (if b0 =? 0xF0 then 0x90 else 0x80) (if b0 =? 0xF4 then 0x8F else 0xBF) b1
               && isCont b2 && isCont b3
            then ((b0 - 0xF0) * 262144 + (b1 - 0x80) * 4096 + (b2 - 0x80) * 64 + (b3 - 0x80), 4%nat)
            else (runeError, 1%nat)
        | _ => (runeError, 1%nat)
        end
      else (runeError, 1%nat)
  | [] => (runeError, 0%nat)
  end.

Fixpoint runesFuel (fuel : nat) (s : bytes) : list Z :=
  match fuel, s with
  | S fuel', _ :: _ => let '(r, n) := decodeRune s in r :: runesFuel fuel' (drop n s)
  | _, _ => []
  end.

(** [[]rune(s)], which is also the sequence of runes of [for _, r := range s]. *)
Definition runesOf (s : bytes) : list Z := runesFuel (length s) s.

(** [string(runes)]. *)
Definition stringOf (rs : list Z) : bytes := concat (appendRune <$> rs).

(** Valid UTF-8 text: the encoding of some scalar values. *)
(** [utf8.Valid]: every decoding step is an encoding of its rune. *)
Fixpoint validFuel (fuel : nat) (s : bytes) : bool :=
  match fuel, s with
  | _, [] => true
  | S fuel', _ :: _ =>
      let '(r, n) := decodeRune s in
      bool_decide (take n s = appendRune r) && validFuel fuel' (drop n s)
  | O, _ => false
  end.
Definition utf8Valid (s : bytes) : bool := validFuel (length s) s.

(** [bytes.ToValidUTF8(s, U+FFFD)]: every run of invalid bytes becomes one
    replacement character. *)
Fixpoint toValidFuel (fuel : nat) (inRun : bool) (s : bytes) : bytes :=
  match fuel, s with
  | S fuel', _ :: _ =>
      let '(r, n) := decodeRune s in
      if bool_decide (take n s = appendRune r) then appendRune r ++ toValidFuel fuel' false (drop n s)
      else (if inRun then [] else appendRune runeError) ++ toValidFuel fuel' true (drop n s)
  | _, _ => []
  end.
Definition toValidUTF8 (s : bytes) : bytes := toValidFuel (length s) false s.

(** ** UTF-16 *)

Definition isSurrogate (u : Z) : bool := between 0xD800 0xDFFF u.

(** [utf16.Encode(runes)]. *)
Definition utf16EncodeRune (r : Z) : list Z :=
  if negb (validRune r) then [runeError]
  else if r <? 0x10000 then [r]
  else [0xD800 + (r - 0x10000) / 1024; 0xDC00 + (r - 0x10000) mod 1024].
Definition utf16Encode (rs : list Z) : list Z := concat (utf16EncodeRune <$> rs).

(** [utf16.Decode(units)]: unpaired surrogates become U+FFFD. *)
Fixpoint utf16Decode (us : list Z) : list Z :=
  match us with
  | [] => []
  | u :: us1 =>
      if between 0xD800 0xDBFF u then
        match us1 with
        | v :: us2 =>
            if between 0xDC00 0xDFFF v
            then ((u - 0xD800) * 1024 + (v - 0xDC00) + 0x10000) :: utf16Decode us2
            else runeError :: utf16Decode us1
        | [] => runeError :: utf16Decode us1
        end
      else if isSurrogate u then runeError :: utf16Decode us1
      else u :: utf16Decode us1
  end.

(** Code units as big-endian or little-endian byte pairs. *)
Definition unitsBE (us : list Z) : bytes := concat (be16 <$> us).
Definition unitsLE (us : list Z) : bytes := concat ((fun u => reverse (be16 u)) <$> us).

Fixpoint pairsBE (bs : bytes) : list Z :=
  match bs with
  | a :: b :: bs' => (a * 256 + b) :: pairsBE bs'
  | _ => []
  end.

Fixpoint pairsLE (bs : bytes) : list Z :=
  match bs with
  | a :: b :: bs' => (b * 256 + a) :: pairsLE bs'
  | _ => []
  end.

(** ** encoding.go *)

Definition EncodeUTF16BE (text : bytes) : bytes := unitsBE (utf16Encode (runesOf text)).

Definition DecodeUTF16BE (data : bytes) : outcome bytes :=
  ensure (len data mod 2 =? 0) (EText "utf16be data length must be even" [len data])
    (Ret (stringOf (utf16Decode (pairsBE data)))).

(** [copy(result, encoded)] into a buffer. *)
Definition copyInto (dst src : bytes) : bytes := take (length dst) src ++ drop (length src) dst.

Definition EncodeUTF16BEBlankPad (text : bytes) (size : Z) : bytes :=
  if size <=? 0 then []
  else
    let result := take (Z.to_nat size)
      (concat (replicate (Z.to_nat (size / 2)) [0x00; 0x20]) ++ replicate (Z.to_nat size) 0) in
    copyInto result (EncodeUTF16BE text).

(** * Lemmas *)

#[local] Ltac Zify.zify_post_hook ::= Z.div_mod_to_equations.

(** Decide the comparisons of a goal by [lia]. *)
Ltac cmp :=
  repeat match goal with
  | |- context [?a <=? ?b] =>
      first [rewrite (proj2 (Z.leb_le a b)) by lia | rewrite (proj2 (Z.leb_gt a b)) by lia]
  | |- context [?a <? ?b] =>
      first [rewrite (proj2 (Z.ltb_lt a b)) by lia | rewrite (proj2 (Z.ltb_ge a b)) by lia]
  end; cbn [andb orb negb].

Lemma validRune_spec r :
  validRune r = true <-> 0 <= r < 0xD800 \/ 0xE000 <= r <= 0x10FFFF.
Proof. unfold validRune. rewrite orb_true_iff, !andb_true_iff, !Z.leb_le, !Z.ltb_lt. lia. Qed.

Lemma validRune_runeError : validRune runeError = true.
Proof. done. Qed.

(** Decoding undoes encoding, for every scalar value. *)
Lemma decodeRune_appendRune r rest :
  validRune r = true -> decodeRune (appendRune r ++ rest) = (r, length (appendRune r)).
Proof.
  intros Hv. pose proof (proj1 (validRune_spec r) Hv) as Hr.
  unfold appendRune. rewrite Hv. cbn [negb].
  destruct (Z.ltb_spec r 0x80).
  { cbn. by rewrite (proj2 (Z.ltb_lt _ _)) by lia. }
  destruct (Z.ltb_spec r 0x800).
  { cbn [app decodeRune length]. unfold between, isCont, between. cmp. f_equal. lia. }
  destruct (Z.ltb_spec r 0x10000).
  { cbn [app decodeRune length]. unfold between, isCont, between.
    destruct (Z.eqb_spec (224 + r / 4096) 224), (Z.eqb_spec (224 + r / 4096) 237);
      cmp; f_equal; lia. }
  cbn [app decodeRune length]. unfold between, isCont, between.
  destruct (Z.eqb_spec (240 + r / 262144) 240), (Z.eqb_spec (240 + r / 262144) 244);
    cmp; f_equal; lia.
Qed.

Lemma length_appendRune_pos r : (0 < length (appendRune r))%nat.
Proof. unfold appendRune. repeat case_match; cbn; lia. Qed.

Lemma is_bytes_appendRune r : is_bytes (appendRune r).
Proof.
  unfold appendRune. destruct (validRune r) eqn:Hv; cbn [negb].
  - apply validRune_spec in Hv.
    repeat case_match; bool_facts; repeat constructor; unfold is_byte; lia.
  - repeat constructor; unfold is_byte; lia.
Qed.

Lemma is_bytes_stringOf rs : is_bytes (stringOf rs).
Proof.
  unfold stringOf. induction rs; cbn; [constructor|].
  apply is_bytes_app. auto using is_bytes_appendRune.
Qed.

Lemma runesFuel_stringOf rs fuel :
  Forall (fun r => validRune r = true) rs -> (length (stringOf rs) <= fuel)%nat ->
  runesFuel fuel (stringOf rs) = rs.
Proof.
  intros Hrs. revert fuel. induction Hrs as [|r rs Hr Hrs IH]; intros fuel Hl.
  - by destruct fuel.
  - change (stringOf (r :: rs)) with (appendRune r ++ stringOf rs) in *.
    pose proof (length_appendRune_pos r). rewrite length_app in Hl.
    destruct fuel as [|fuel]; [lia|]. cbn [runesFuel].
    destruct (appendRune r ++ stringOf rs) as [|b bs] eqn:E.
    { apply (f_equal length) in E. rewrite length_app in E. cbn in E. lia. }
    rewrite <-E, decodeRune_appendRune, drop_app_length by done.
    f_equal. apply IH. lia.
Qed.

Lemma runesOf_stringOf rs :
  Forall (fun r => validRune r = true) rs -> runesOf (stringOf rs) = rs.
Proof. intros. by apply runesFuel_stringOf. Qed.

Lemma utf16EncodeRune_decode r us :
  validRune r = true -> utf16Decode (utf16EncodeRune r ++ us) = r :: utf16Decode us.
Proof.
  intros Hv. pose proof (proj1 (validRune_spec r) Hv) as Hr.
  unfold utf16EncodeRune. rewrite Hv. cbn [negb].
  destruct (Z.ltb_spec r 0x10000).
  - cbn [app utf16Decode]. unfold isSurrogate, between.
    destruct (Z.leb_spec 0xD800 r); cmp; done.
  - cbn [app utf16Decode]. unfold between. cmp. f_equal. lia.
Qed.

Lemma utf16Decode_Encode rs :
  Forall (fun r => validRune r = true) rs -> utf16Decode (utf16Encode rs) = rs.
Proof.
  induction 1 as [|r rs Hr Hrs IH]; [done|].
  change (utf16Encode (r :: rs)) with (utf16EncodeRune r ++ utf16Encode rs).
  by rewrite utf16EncodeRune_decode, IH.
Qed.

(** A UTF-16 code unit. *)
Definition is_unit (u : Z) : Prop := 0 <= u < 65536.

Lemma is_unit_utf16Encode rs : Forall is_unit (utf16Encode rs).
Proof.
  unfold utf16Encode. induction rs as [|r rs IH]; cbn; [constructor|].
  apply Forall_app. split; [|done]. unfold utf16EncodeRune, is_unit.
  destruct (validRune r) eqn:Hv; cbn [negb]; [apply validRune_spec in Hv|];
    repeat case_match; bool_facts; repeat constructor; unfold runeError; lia.
Qed.

Lemma be16_eq u : is_unit u -> be16 u = [u / 256; u mod 256].
Proof.
  unfold is_unit. intros. cbn. rewrite Z.div_1_r. f_equal. change (Z.pow_pos 2 8) with 256.
  apply Z.mod_small. lia.
Qed.

Lemma pairsBE_unitsBE us : Forall is_unit us -> pairsBE (unitsBE us) = us.
Proof.
  induction 1 as [|u us Hu Hus IH]; [done|].
  change (unitsBE (u :: us)) with (be16 u ++ unitsBE us).
  rewrite be16_eq by done. cbn [app pairsBE]. rewrite IH. f_equal. unfold is_unit in Hu. lia.
Qed.

Lemma pairsLE_unitsLE us : Forall is_unit us -> pairsLE (unitsLE us) = us.
Proof.
  induction 1 as [|u us Hu Hus IH]; [done|].
  change (unitsLE (u :: us)) with (reverse (be16 u) ++ unitsLE us).
  rewrite be16_eq by done. cbn [app pairsLE reverse rev_append]. rewrite IH.
  f_equal. unfold is_unit in Hu. lia.
Qed.

Lemma len_unitsBE us : len (unitsBE us) = 2 * len us.
Proof.
  induction us as [|u us IH]; [done|].
  change (unitsBE (u :: us)) with (be16 u ++ unitsBE us). len_lia.
Qed.

Lemma len_unitsLE us : len (unitsLE us) = 2 * len us.
Proof.
  induction us as [|u us IH]; [done|].
  change (unitsLE (u :: us)) with (reverse (be16 u) ++ unitsLE us).
  unfold len in *. rewrite length_app, length_reverse, length_be. cbn [length]. lia.
Qed.

Lemma is_bytes_unitsBE us : is_bytes (unitsBE us).
Proof.
  unfold unitsBE. induction us; cbn -[be]; [constructor|].
  apply is_bytes_app. auto using is_bytes_be.
Qed.

Lemma decodeRune_valid s : is_bytes s -> validRune (decodeRune s).1 = true.
Proof.
  intros Hs. destruct s as [|b0 s]; [done|]. apply Forall_cons in Hs as [H0 Hs].
  unfold is_byte in H0. apply validRune_spec.
  unfold decodeRune, between, isCont, between.
  destruct (Z.ltb_spec b0 0x80); [cbn; lia|].
  repeat match goal with
  | |- context [match ?l with [] => _ | _ => _ end] => is_var l; destruct l
  | |- context [if ?b then (_, _) else _] => destruct b eqn:?
  | |- context [if ?b then match _ with _ => _ end else _] => destruct b eqn:?
  end; cbn [fst]; unfold runeError; bool_facts; try lia;
    repeat match goal with
    | H : context [if ?x =? ?y then _ else _] |- _ => destruct (Z.eqb_spec x y)
    end; lia.
Qed.

(** Valid text is the encoding of its runes, which are scalar values. *)
Lemma validFuel_stringOf fuel s :
  is_bytes s -> validFuel fuel s = true ->
  s = stringOf (runesFuel fuel s) /\ Forall (fun r => validRune r = true) (runesFuel fuel s).
Proof.
  revert s. induction fuel as [|fuel IH]; intros s Hs Hv.
  - by destruct s.
  - destruct s as [|b s]; [done|]. cbn [validFuel runesFuel] in *.
    pose proof (decodeRune_valid (b :: s) Hs) as Hr.
    destruct (decodeRune (b :: s)) as [r n] eqn:E.
    apply andb_true_iff in Hv as [Ht%bool_decide_eq_true Hv].
    destruct (IH (drop n (b :: s)) (is_bytes_drop _ _ Hs) Hv) as [Hd Hf].
    split; [|by constructor].
    change (stringOf (r :: runesFuel fuel (drop n (b :: s))))
      with (appendRune r ++ stringOf (runesFuel fuel (drop n (b :: s)))).
    by rewrite <-Hd, <-Ht, take_drop.
Qed.

Lemma utf8Valid_runes s :
  is_bytes s -> utf8Valid s = true ->
  s = stringOf (runesOf s) /\ Forall (fun r => validRune r = true) (runesOf s).
Proof. apply validFuel_stringOf. Qed.
