(* ===== verification/Ccsid.v ===== *)
(** Character conversion: internal/ccsid/ccsid.go and units.go.

    The conversion tables are data files extracted from JTOpen and embedded in
    the program, so their contents are a parameter ([TableFS]): for a CCSID,
    there is no file, or a file that does not decompress, or the decompressed
    bytes.  The table formats, the codecs and the codec cache are the code's. *)
From Stdlib Require Import Strings.String.
From stdpp Require Import base list numbers strings gmap.
From S2P Require Import Prelude GoStrings Utf.
Open Scope Z_scope.

Definition sbSubUnicode : Z := 0x1A.
Definition dbSubUnicode : Z := 0xFFFD.
Definition dbSubChar : Z := 0xFEFE.
Definition shiftOut : Z := 0x0E.
Definition shiftIn : Z := 0x0F.
Definition euro : Z := 0x20AC.

(** ** Codecs *)

Record singleByte := mkSingle {
  sbCcsid : Z;
  sbSub : Z;
  sbToUnicode : list Z;
  sbFromUni : bytes;
}.

Record doubleByte := mkDouble {
  dbCcsid : Z;
  dbToUnicode : list Z;
  dbFromUni : list Z;
  dbToMulti : gmap Z (list Z);
  dbFromMulti : gmap bytes Z;
  dbMaxMulti : nat;
}.

Record mixedByte := mkMixed { mbCcsid : Z; mbSb : singleByte; mbDb : doubleByte }.

(** kind 0 is UTF-16BE, 1 is UTF-16LE, 2 is UTF-8. *)
Record unicodeImpl := mkUnicode { uCcsid : Z; uKind : Z }.

Inductive Codec :=
| CSingle (t : singleByte)
| CDouble (t : doubleByte)
| CMixed (t : mixedByte)
| CUnicode (u : unicodeImpl).

(** A table lookup [t[i]]; the tables have an entry for every byte or unit. *)
Definition at_ (t : list Z) (i : Z) : Z := nth (Z.to_nat i) t 0.

(** ** Parsing the table files *)

Fixpoint words (n : nat) (raw : bytes) : list Z :=
  match n with
  | O => []
  | S n' => unbe (take 2 raw) :: words n' (drop 2 raw)
  end.

Definition parseSingle (ccsid : Z) (raw : bytes) : outcome singleByte :=
  if negb (len raw =? 1 + 512 + 65536) then Fail (EText "corrupt single-byte table" [ccsid])
  else
    sub ← index raw 0;
    Ret (mkSingle ccsid sub (words 256 (drop 1 raw)) (drop 513 raw)).

(** [unitsKey]: the map key of a code unit sequence. *)
Definition unitsKey (units : list Z) : bytes := unitsBE units.

(** The multi-character section: [n] entries of code, length and units.  An
    entry takes at least three bytes, so [len rest] iterations are enough. *)
Fixpoint parseMulti (ccsid : Z) (fuel : nat) (n : Z) (rest : bytes) (t : doubleByte)
    : outcome doubleByte :=
  if n <=? 0 then Ret t
  else if len rest <? 3 then Fail (EText "corrupt double-byte table" [ccsid])
  else
    match fuel with
    | O => Panic
    | S fuel' =>
        let code := unbe (take 2 rest) in
        l ← index rest 2;
        let rest := drop 3 rest in
        if len rest <? l * 2 then Fail (EText "corrupt double-byte table" [ccsid])
        else
          let seq := words (Z.to_nat l) rest in
          parseMulti ccsid fuel' (n - 1) (drop (Z.to_nat (l * 2)) rest)
            (mkDouble (dbCcsid t) (dbToUnicode t) (dbFromUni t)
               (<[code := seq]> (dbToMulti t)) (<[unitsKey seq := code]> (dbFromMulti t))
               (Nat.max (dbMaxMulti t) (Z.to_nat l)))
    end.

Definition parseDouble (ccsid : Z) (raw : bytes) : outcome doubleByte :=
  let tableBytes := 65536 * 2 in
  if len raw <? 2 * tableBytes + 4 then Fail (EText "corrupt double-byte table" [ccsid])
  else
    let rest := drop (Z.to_nat (2 * tableBytes)) raw in
    let n := unbe (take 4 rest) in
    parseMulti ccsid (length rest) n (drop 4 rest)
      (mkDouble ccsid (words (Z.to_nat 65536) raw)
         (words (Z.to_nat 65536) (drop (Z.to_nat tableBytes) raw)) ∅ ∅ 0).

(** ** Single-byte tables *)

Definition sbDecode (t : singleByte) (data : bytes) : bytes :=
  concat ((fun b => appendRune (at_ (sbToUnicode t) b)) <$> data).

Definition sbEncodeRune (t : singleByte) (r : Z) : bytes :=
  if 0xFFFF <? r then (fun u => at_ (sbFromUni t) u) <$> utf16EncodeRune r
  else [at_ (sbFromUni t) r].

Definition sbEncode (t : singleByte) (text : bytes) : bytes :=
  concat (sbEncodeRune t <$> runesOf text).

Definition sbSpace (t : singleByte) : bytes := [at_ (sbFromUni t) 0x20].

(** ** Double-byte tables *)

Definition decodeCode (t : doubleByte) (code : Z) : list Z :=
  match dbToMulti t !! code with
  | Some seq => seq
  | None => [at_ (dbToUnicode t) code]
  end.

Fixpoint dbUnits (t : doubleByte) (data : bytes) : list Z :=
  match data with
  | a :: b :: data' => decodeCode t (a * 256 + b) ++ dbUnits t data'
  | _ => []
  end.

Definition dbDecode (t : doubleByte) (data : bytes) : bytes :=
  stringOf (utf16Decode (dbUnits t data)).

(** The longest multi-character sequence, of length [l] down to 2, that the
    units start with. *)
Fixpoint findMulti (t : doubleByte) (l : nat) (src : list Z) : option (Z * nat) :=
  match l with
  | O => None
  | S l' =>
      if bool_decide (l' = O) then None
      else
        match dbFromMulti t !! unitsKey (take l src) with
        | Some code => Some (code, l)
        | None => findMulti t l' src
        end
  end.

(** [encodeAt(src, i)] on the units from [i] on, which are not empty. *)
Definition encodeAt (t : doubleByte) (src : list Z) : Z * nat :=
  match findMulti t (Nat.min (dbMaxMulti t) (length src)) src with
  | Some r => r
  | None =>
      match src with
      | u :: src' =>
          if isSurrogate u then
            if (u <? 0xDC00) && negb (bool_decide (src' = [])) then (dbSubChar, 2%nat)
            else (dbSubChar, 1%nat)
          else (at_ (dbFromUni t) u, 1%nat)
      | [] => (dbSubChar, 1%nat)
      end
  end.

Fixpoint dbEncodeUnits (t : doubleByte) (fuel : nat) (src : list Z) : bytes :=
  match fuel, src with
  | S fuel', _ :: _ =>
      let '(code, n) := encodeAt t src in
      [code / 256; code mod 256] ++ dbEncodeUnits t fuel' (drop n src)
  | _, _ => []
  end.

Definition dbEncode (t : doubleByte) (text : bytes) : bytes :=
  let src := utf16Encode (runesOf text) in
  dbEncodeUnits t (length src) src.

Definition dbSpace (t : doubleByte) : bytes :=
  let code := at_ (dbFromUni t) 0x3000 in [code / 256; code mod 256].

(** ** Mixed tables: shift-out starts double-byte data, shift-in ends it *)

Fixpoint mbUnits (t : mixedByte) (single : bool) (data : bytes) : list Z :=
  match data with
  | [] => []
  | b :: data' =>
      if single then
        if b =? shiftOut then mbUnits t false data'
        else at_ (sbToUnicode (mbSb t)) b :: mbUnits t true data'
      else if b =? shiftIn then mbUnits t true data'
      else
        match data' with
        | [] => [dbSubUnicode]
        | c :: data'' => decodeCode (mbDb t) (b * 256 + c) ++ mbUnits t false data''
        end
  end.

Definition mbDecode (t : mixedByte) (data : bytes) : bytes :=
  stringOf (utf16Decode (mbUnits t true data)).

(** The closures [putSingle] and [putDouble]: the bytes appended to the output
    and the new shift state. *)
Definition putSingle (single : bool) (b : Z) : bytes * bool :=
  ((if single then [] else [shiftIn]) ++ [b], true).
Definition putDouble (single : bool) (code : Z) : bytes * bool :=
  ((if single then [shiftOut] else []) ++ [code / 256; code mod 256], false).

(** One iteration of the encoding loop: appended bytes, shift state, units consumed. *)
Definition mbStep (t : mixedByte) (single : bool) (src : list Z) : bytes * bool * nat :=
  match src with
  | [] => ([], single, 1%nat)
  | cur :: _ =>
      let sub := sbSub (mbSb t) in
      if (cur / 256 =? 0) || (cur =? euro) ||
         ((cur =? 0x203E) && ((mbCcsid t =? 935) || (mbCcsid t =? 1388)))
      then
        let b := at_ (sbFromUni (mbSb t)) cur in
        if negb (b =? sub) || (cur =? sbSubUnicode) then (putSingle single b, 1%nat)
        else
          let '(code, n) := encodeAt (mbDb t) src in
          if code =? dbSubChar then (putSingle single sub, n) else (putDouble single code, n)
      else
        let '(code, n) := encodeAt (mbDb t) src in
        if negb (code =? dbSubChar) || (cur =? dbSubUnicode) then (putDouble single code, n)
        else
          let b := at_ (sbFromUni (mbSb t)) cur in
          if negb (b =? sub) then (putSingle single b, n)
          else if single then ([sub], single, n)
          else ([dbSubChar / 256; dbSubChar mod 256], single, n)
  end.

Fixpoint mbEncodeUnits (t : mixedByte) (fuel : nat) (single : bool) (src : list Z) : bytes :=
  match fuel, src with
  | S fuel', _ :: _ =>
      let '(out, single', n) := mbStep t single src in
      out ++ mbEncodeUnits t fuel' single' (drop n src)
  | _, _ => if single then [] else [shiftIn]
  end.

Definition mbEncode (t : mixedByte) (text : bytes) : bytes :=
  let src := utf16Encode (runesOf text) in
  mbEncodeUnits t (length src) true src.

(** ** Unicode CCSIDs *)

Definition unicodeCodec (ccsid : Z) : option unicodeImpl :=
  if existsb (Z.eqb ccsid) [1200; 1201; 13488; 17584; 21680] then Some (mkUnicode ccsid 0)
  else if ccsid =? 1202 then Some (mkUnicode ccsid 1)
  else if ccsid =? 1208 then Some (mkUnicode ccsid 2)
  else None.

Definition unicodeDecode (u : unicodeImpl) (data : bytes) : outcome bytes :=
  if uKind u =? 2 then
    if utf8Valid data then Ret data else Ret (toValidUTF8 data)
  else if negb (len data mod 2 =? 0) then
    Fail (EText "data length must be even" [uCcsid u; len data])
  else
    let units := if uKind u =? 1 then pairsLE data else pairsBE data in
    Ret (stringOf (utf16Decode units)).

Definition unicodeEncode (u : unicodeImpl) (text : bytes) : bytes :=
  if uKind u =? 2 then text
  else
    let units := utf16Encode (runesOf text) in
    if uKind u =? 1 then unitsLE units else unitsBE units.

Definition unicodeSpace (u : unicodeImpl) : bytes :=
  if uKind u =? 2 then [0x20] else if uKind u =? 1 then [0x20; 0] else [0; 0x20].

(** ** The codec interface *)

Definition codecDecode (c : Codec) (data : bytes) : outcome bytes :=
  match c with
  | CSingle t => Ret (sbDecode t data)
  | CDouble t => Ret (dbDecode t data)
  | CMixed t => Ret (mbDecode t data)
  | CUnicode u => unicodeDecode u data
  end.

Definition codecEncode (c : Codec) (text : bytes) : bytes :=
  match c with
  | CSingle t => sbEncode t text
  | CDouble t => dbEncode t text
  | CMixed t => mbEncode t text
  | CUnicode u => unicodeEncode u text
  end.

Definition codecSpace (c : Codec) : bytes :=
  match c with
  | CSingle t => sbSpace t
  | CDouble t => dbSpace t
  | CMixed t => sbSpace (mbSb t)
  | CUnicode u => unicodeSpace u
  end.

Definition codecCCSID (c : Codec) : Z :=
  match c with
  | CSingle t => sbCcsid t
  | CDouble t => dbCcsid t
  | CMixed t => mbCcsid t
  | CUnicode u => uCcsid u
  end.

(** The embedded table files. *)
Inductive tableFile := NoFile | CorruptFile | RawFile (raw : bytes).
Class TableFS := tableFS : Z -> tableFile.

Section Lookup.
Context `{TableFS}.

Definition ErrUnsupportedCCSID (ccsid : Z) : goerror := EText "ccsid: unsupported CCSID" [ccsid].

(** [lookupLocked] and [load]: a mixed table looks its two components up
    recursively.  [fuel] bounds the nesting; running out of it is the stack
    overflow of the program on tables that refer to each other in a cycle. *)
Fixpoint lookupLocked (fuel : nat) (cache : gmap Z Codec) (ccsid : Z)
    : outcome Codec * gmap Z Codec :=
  match cache !! ccsid with
  | Some c => (Ret c, cache)
  | None =>
      match fuel with
      | O => (Panic, cache)
      | S fuel' =>
          let keep (r : outcome Codec * gmap Z Codec) :=
            match r with
            | (Ret c, cache') => (Ret c, <[ccsid := c]> cache')
            | r => r
            end in
          match unicodeCodec ccsid with
          | Some u => keep (Ret (CUnicode u), cache)
          | None =>
              match tableFS ccsid with
              | NoFile => (Fail (ErrUnsupportedCCSID ccsid), cache)
              | CorruptFile => (Fail (EText "corrupt table" [ccsid]), cache)
              | RawFile [] => (Fail (EText "empty table" [ccsid]), cache)
              | RawFile (kind :: raw) =>
                  if kind =? 83 (* 'S' *) then keep (CSingle <$> parseSingle ccsid raw, cache)
                  else if kind =? 68 (* 'D' *) then keep (CDouble <$> parseDouble ccsid raw, cache)
                  else if kind =? 77 (* 'M' *) then
                    if len raw <? 8 then (Fail (EText "corrupt mixed table" [ccsid]), cache)
                    else
                      match lookupLocked fuel' cache (unbe (take 4 raw)) with
                      | (Ret sb, cache1) =>
                          match lookupLocked fuel' cache1 (unbe (take 4 (drop 4 raw))) with
                          | (Ret db, cache2) =>
                              match sb, db with
                              | CSingle s, CDouble d => keep (Ret (CMixed (mkMixed ccsid s d)), cache2)
                              | _, _ => (Fail (EText "invalid mixed table components" [ccsid]), cache2)
                              end
                          | r => r
                          end
                      | r => r
                      end
                  else (Fail (EText "unknown table kind" [ccsid; kind]), cache)
              end
          end
      end
  end.

(** The embedded tables nest at most once; two levels are enough for them. *)
Definition lookupFuel : nat := 8.

(** [Lookup] as a function of the cache, and as the pure function it computes. *)
Definition LookupCached (cache : gmap Z Codec) (ccsid : Z) := lookupLocked lookupFuel cache ccsid.
Definition Lookup (ccsid : Z) : outcome Codec := (LookupCached ∅ ccsid).1.

Definition Supported (ccsid : Z) : bool :=
  match unicodeCodec ccsid with
  | Some _ => true
  | None => match tableFS ccsid with NoFile => false | _ => true end
  end.

Definition Decode (data : bytes) (ccsid : Z) : outcome bytes :=
  c ← Lookup ccsid; codecDecode c data.

Definition Encode (text : bytes) (ccsid : Z) : outcome bytes :=
  c ← Lookup ccsid; Ret (codecEncode c text).

(** *** units.go *)

Definition ErrNotSingleByte : goerror := EText "ccsid: not a single-byte CCSID" [].

Definition DecodeUnits (data : bytes) (ccsid : Z) : outcome (list Z) :=
  c ← Lookup ccsid;
  match c with
  | CSingle sb => Ret ((fun b => at_ (sbToUnicode sb) b) <$> data)
  | _ => Fail ErrNotSingleByte
  end.

Definition EncodeUnits (units : list Z) (ccsid : Z) : outcome bytes :=
  c ← Lookup ccsid;
  match c with
  | CSingle sb => Ret ((fun u => at_ (sbFromUni sb) u) <$> units)
  | _ => Fail ErrNotSingleByte
  end.

(** *** encoding.go: EBCDIC 37 helpers *)

Definition EncodeEBCDIC37 (text : bytes) : outcome bytes := Encode text 37.
Definition DecodeEBCDIC37 (data : bytes) : outcome bytes := Decode data 37.

Definition EncodeEBCDIC37BlankPad (text : bytes) (size : Z) : outcome bytes :=
  encoded ← EncodeEBCDIC37 text;
  if size <? 0 then Panic
  else Ret (copyInto (replicate (Z.to_nat size) 0x40) encoded).
(** *** sql.go: text of columns and parameters *)

(** The "no conversion" CCSIDs mean EBCDIC 37. *)
Definition textCCSID (id : Z) : Z := if (id =? 0) || (id =? 65535) then 37 else id.

(** [errors.Is(err, ccsid.ErrUnsupported)]: rewrap as the driver's error. *)
Definition wrapUnsupported {A} (m : outcome A) : outcome A :=
  match m with
  | Fail (EText text _) =>
      if String.eqb text "ccsid: unsupported CCSID" then Fail (EUnsupported "CCSID") else m
  | _ => m
  end.

Definition decodeTextByCCSID (data : bytes) (id : Z) : outcome bytes :=
  match data with
  | [] => Ret []
  | _ => wrapUnsupported (Decode data (textCCSID id))
  end.

Definition encodeTextBytes (text : bytes) (id : Z) : outcome bytes :=
  wrapUnsupported (Encode text (textCCSID id)).

(** [length] bytes of the CCSID's blank, with [raw] over the start.  A blank
    that does not fit at the end leaves zero bytes there. *)
Definition blanks (space : bytes) (length : Z) : bytes :=
  concat (replicate (Z.to_nat (length / len space)) space) ++
  replicate (Z.to_nat (length mod len space)) 0.

Definition fitTextBytesToLength (raw : bytes) (length : Z) (id : Z) : outcome bytes :=
  if length <? 0 then Panic
  else
    let space := match Lookup (textCCSID id) with Ret codec => codecSpace codec | _ => [0x40] end in
    Ret (copyInto (blanks space length) raw).

Definition fitBytesToLength (raw : bytes) (length : Z) (pad : Z) : bytes :=
  if length <=? 0 then raw else copyInto (replicate (Z.to_nat length) pad) raw.
End Lookup.

(** * Specification of the tables *)

(** The codec of a CCSID, without a cache: what the table files define. *)
Inductive codec_of `{TableFS} : Z -> Codec -> Prop :=
| codec_unicode id u : unicodeCodec id = Some u -> codec_of id (CUnicode u)
| codec_single id raw t :
    unicodeCodec id = None -> tableFS id = RawFile (83 :: raw) ->
    parseSingle id raw = Ret t -> codec_of id (CSingle t)
| codec_double id raw t :
    unicodeCodec id = None -> tableFS id = RawFile (68 :: raw) ->
    parseDouble id raw = Ret t -> codec_of id (CDouble t)
| codec_mixed id raw s d :
    unicodeCodec id = None -> tableFS id = RawFile (77 :: raw) ->
    codec_of (unbe (take 4 raw)) (CSingle s) ->
    codec_of (unbe (take 4 (drop 4 raw))) (CDouble d) ->
    codec_of id (CMixed (mkMixed id s d)).

Definition cache_ok `{TableFS} (cache : gmap Z Codec) : Prop :=
  map_Forall codec_of cache.

(** A UTF-16 unit that a mixed table converts without substitution, with table
    entries that are inverse to each other and clear of the shift bytes. *)
Definition unit_ok (t : mixedByte) (u : Z) : Prop :=
  let b := at_ (sbFromUni (mbSb t)) u in
  let code := at_ (dbFromUni (mbDb t)) u in
  is_unit u /\ isSurrogate u = false /\ u <> dbSubUnicode /\ u <> sbSubUnicode /\
  (b <> sbSub (mbSb t) -> at_ (sbToUnicode (mbSb t)) b = u /\ b <> shiftOut) /\
  (code <> dbSubChar -> decodeCode (mbDb t) code = [u] /\ is_unit code /\ code / 256 <> shiftIn) /\
  (b <> sbSub (mbSb t) \/ code <> dbSubChar).

Definition multi_ok (t : mixedByte) : Prop :=
  map_Forall (fun key code =>
    decodeCode (mbDb t) code = pairsBE key /\ is_unit code /\ code / 256 <> shiftIn /\
    code <> dbSubChar) (dbFromMulti (mbDb t)).

#[export] Instance is_unit_dec u : Decision (is_unit u).
Proof. unfold is_unit. apply _. Defined.
#[export] Instance unit_ok_dec t u : Decision (unit_ok t u).
Proof. unfold unit_ok. apply _. Defined.
#[export] Instance multi_ok_dec t : Decision (multi_ok t).
Proof. unfold multi_ok. apply _. Defined.

(** * Lemmas *)

Lemma findMulti_Some t l src code n :
  (l <= length src)%nat -> findMulti t l src = Some (code, n) ->
  (2 <= n <= length src)%nat /\ dbFromMulti t !! unitsKey (take n src) = Some code.
Proof.
  induction l as [|l IH]; intros Hl; [done|].
  cbn [findMulti]. case_bool_decide as Hz; [done|].
  destruct (dbFromMulti t !! unitsKey (take (S l) src)) eqn:E.
  - intros [= <- <-]. split; [lia|done].
  - apply IH. lia.
Qed.

(** One double-byte encoding step consumes the units its code decodes to. *)
Lemma encodeAt_ok t u src code n :
  multi_ok t -> Forall is_unit (u :: src) ->
  encodeAt (mbDb t) (u :: src) = (code, n) -> isSurrogate u = false ->
  (code = at_ (dbFromUni (mbDb t)) u /\ n = 1%nat) \/
  (decodeCode (mbDb t) code = take n (u :: src) /\ is_unit code /\
   code / 256 <> shiftIn /\ code <> dbSubChar /\ (1 <= n)%nat).
Proof.
  intros Hm Hu He Hs. unfold encodeAt in He.
  destruct (findMulti _ _ _) as [[c k]|] eqn:E.
  - injection He as -> ->. right.
    apply findMulti_Some in E as [Hn Hk]; [|apply Nat.le_min_r].
    apply Hm in Hk as (Hd & ? & ? & ?).
    unfold unitsKey in Hd. rewrite pairsBE_unitsBE in Hd by (by apply Forall_take).
    split_and!; [done..|lia].
  - rewrite Hs in He. injection He as <- <-. by left.
Qed.

Lemma mbUnits_pair t code rest :
  is_unit code -> code / 256 <> shiftIn ->
  mbUnits t false (code / 256 :: code mod 256 :: rest) =
  decodeCode (mbDb t) code ++ mbUnits t false rest.
Proof.
  intros Hu Hs. cbn [mbUnits]. rewrite (proj2 (Z.eqb_neq _ _)) by done.
  do 2 f_equal. rewrite Z.mul_comm. symmetry. apply Z.div_mod. lia.
Qed.

(** Decoding what [putSingle] and [putDouble] append, from the same shift state. *)
Lemma putSingle_units t single b rest :
  b <> shiftOut ->
  mbUnits t single ((putSingle single b).1 ++ rest) =
  at_ (sbToUnicode (mbSb t)) b :: mbUnits t true rest.
Proof.
  intros Hb. destruct single; cbn; by rewrite (proj2 (Z.eqb_neq b shiftOut)).
Qed.

Lemma putDouble_units t single code rest :
  is_unit code -> code / 256 <> shiftIn ->
  mbUnits t single ((putDouble single code).1 ++ rest) =
  decodeCode (mbDb t) code ++ mbUnits t false rest.
Proof.
  intros Hu Hs. unfold putDouble. destruct single; cbn [fst app].
  - change (mbUnits t true (shiftOut :: ?x)) with (mbUnits t false x).
    by apply mbUnits_pair.
  - by apply mbUnits_pair.
Qed.

(** One iteration emits bytes that decode to the units it consumes. *)
Lemma mbStep_units t single u src rest :
  multi_ok t -> unit_ok t u -> Forall is_unit src ->
  exists single' n, mbStep t single (u :: src) = ((mbStep t single (u :: src)).1.1, single', n) /\
    (1 <= n)%nat /\
    mbUnits t single ((mbStep t single (u :: src)).1.1 ++ rest) =
    take n (u :: src) ++ mbUnits t single' rest.
Proof.
  intros Hm (Hu & Hs & Hfd & Hsub & Hsb & Hdb & Hone) Hsrc.
  unfold mbStep.
  destruct (encodeAt (mbDb t) (u :: src)) as [code n] eqn:He.
  apply encodeAt_ok in He; [|done|by constructor|done].
  rewrite (proj2 (Z.eqb_neq u sbSubUnicode)), (proj2 (Z.eqb_neq u dbSubUnicode)), !orb_false_r
    by done.
  destruct (_ || _) eqn:Hcls.
  - destruct (Z.eqb_spec (at_ (sbFromUni (mbSb t)) u) (sbSub (mbSb t))) as [Eb|Eb]; cbn [negb].
    + destruct Hone as [?|Hone]; [done|].
      destruct He as [[-> ->]|(Hd & Hc & Hl & Hne & Hn)].
      * rewrite (proj2 (Z.eqb_neq _ dbSubChar)) by done. destruct (Hdb Hone) as (Hdec & ? & ?).
        exists false, 1%nat. split_and!; [done|lia|].
        cbn [fst]. by rewrite putDouble_units, Hdec.
      * rewrite (proj2 (Z.eqb_neq _ dbSubChar)) by done.
        exists false, n. split_and!; [done|lia|]. cbn [fst]. by rewrite putDouble_units, Hd.
    + destruct (Hsb Eb) as [Hdec ?].
      exists true, 1%nat. split_and!; [done|lia|]. cbn [fst]. by rewrite putSingle_units, Hdec.
  - destruct He as [[-> ->]|(Hd & Hc & Hl & Hne & Hn)].
    + destruct (Z.eqb_spec (at_ (dbFromUni (mbDb t)) u) dbSubChar) as [Ec|Ec]; cbn [negb].
      * destruct Hone as [Hone|?]; [|done]. destruct (Hsb Hone) as [Hdec ?].
        rewrite (proj2 (Z.eqb_neq _ (sbSub _))) by done. cbn [negb].
        exists true, 1%nat. split_and!; [done|lia|]. cbn [fst]. by rewrite putSingle_units, Hdec.
      * destruct (Hdb Ec) as (Hdec & ? & ?).
        exists false, 1%nat. split_and!; [done|lia|]. cbn [fst]. by rewrite putDouble_units, Hdec.
    + rewrite (proj2 (Z.eqb_neq code dbSubChar)) by done. cbn [negb].
      exists false, n. split_and!; [done|lia|]. cbn [fst]. by rewrite putDouble_units, Hd.
Qed.

Lemma mbEncodeUnits_decode t fuel single src :
  multi_ok t -> Forall (unit_ok t) src -> (length src <= fuel)%nat ->
  mbUnits t single (mbEncodeUnits t fuel single src) = src.
Proof.
  intros Hm. revert single src. induction fuel as [|fuel IH]; intros single src Hsrc Hl.
  - destruct src; [|cbn in Hl; lia]. by destruct single.
  - destruct src as [|u src]; [by destruct single|].
    pose proof Hsrc as [Hu Hrest]%Forall_cons.
    cbn [mbEncodeUnits].
    destruct (mbStep_units t single u src
      (mbEncodeUnits t fuel (mbStep t single (u :: src)).1.2
         (drop (mbStep t single (u :: src)).2 (u :: src)))) as (single' & n & E & Hn & Hd);
      [done|done| by eapply Forall_impl; [exact Hrest | intros ? (? & _)] |].
    rewrite E in Hd |- *. cbn [fst snd] in Hd. rewrite Hd, IH.
    + apply take_drop.
    + by apply Forall_drop.
    + rewrite length_drop. cbn in *. lia.
Qed.

Lemma codec_of_det `{TableFS} id c1 c2 : codec_of id c1 -> codec_of id c2 -> c1 = c2.
Proof.
  intros Hc1. revert c2. induction Hc1; intros c2 Hc2; inversion Hc2; subst; try congruence.
  assert (raw = raw0) as -> by congruence.
  assert (CSingle s = CSingle s0) as [= ->] by auto.
  assert (CDouble d = CDouble d0) as [= ->] by auto. done.
Qed.

Lemma lookupLocked_ok `{TableFS} fuel cache id c cache' :
  cache_ok cache -> lookupLocked fuel cache id = (Ret c, cache') ->
  codec_of id c /\ cache_ok cache'.
Proof.
  revert cache id c cache'.
  induction fuel as [|fuel IH]; intros cache id c cache' Hc; cbn [lookupLocked];
    destruct (cache !! id) as [c0|] eqn:Ec; try (by intros [= <- <-]; split; [by apply Hc|]);
    [done|].
  destruct (unicodeCodec id) as [u|] eqn:Eu.
  { intros [= <- <-]. assert (codec_of id (CUnicode u)) by (by constructor).
    split; [done|]. by apply map_Forall_insert_2. }
  destruct (tableFS id) as [| |[|kind raw]] eqn:Ef; try done.
  destruct (Z.eqb_spec kind 83) as [->|].
  { destruct (parseSingle id raw) as [t| |] eqn:Ep; cbn; try done. intros [= <- <-].
    assert (codec_of id (CSingle t)) by (by eapply codec_single).
    split; [done|]. by apply map_Forall_insert_2. }
  destruct (Z.eqb_spec kind 68) as [->|].
  { destruct (parseDouble id raw) as [t| |] eqn:Ep; cbn; try done. intros [= <- <-].
    assert (codec_of id (CDouble t)) by (by eapply codec_double).
    split; [done|]. by apply map_Forall_insert_2. }
  destruct (Z.eqb_spec kind 77) as [->|]; [|done].
  destruct (len raw <? 8); [done|].
  destruct (lookupLocked fuel cache _) as [[sb| |] cache1] eqn:E1; try done.
  destruct (IH _ _ _ _ Hc E1) as [Hd1 Hc1].
  destruct (lookupLocked fuel cache1 _) as [[db| |] cache2] eqn:E2; try done.
  destruct (IH _ _ _ _ Hc1 E2) as [Hd2 Hc2].
  destruct sb, db; try done. intros [= <- <-].
  assert (codec_of id (CMixed (mkMixed id t t0))) by (by eapply codec_mixed).
  split; [done|]. by apply map_Forall_insert_2.
Qed.

Lemma lookupLocked_unicode `{TableFS} fuel cache id u :
  unicodeCodec id = Some u -> cache !! id = None ->
  lookupLocked (S fuel) cache id = (Ret (CUnicode u), <[id := CUnicode u]> cache).
Proof. intros Hu Hc. cbn. by rewrite Hc, Hu. Qed.

Lemma Lookup_unicode `{TableFS} id u : unicodeCodec id = Some u -> Lookup id = Ret (CUnicode u).
Proof.
  intros Hu. unfold Lookup, LookupCached, lookupFuel.
  by rewrite (lookupLocked_unicode _ _ _ u).
Qed.

Lemma unicode_decode_encode u text :
  0 <= uKind u <= 2 -> is_bytes text -> utf8Valid text = true ->
  unicodeDecode u (unicodeEncode u text) = Ret text.
Proof.
  intros Hk Hb Hv. pose proof (utf8Valid_runes text Hb Hv) as [Ht Hr].
  unfold unicodeDecode, unicodeEncode.
  destruct (uKind u =? 2); [by rewrite Hv|].
  destruct (uKind u =? 1).
  - rewrite len_unitsLE, Z.mul_comm, Z.mod_mul, Z.eqb_refl by done. cbn [negb].
    rewrite pairsLE_unitsLE by apply is_unit_utf16Encode.
    by rewrite utf16Decode_Encode, <-Ht.
  - rewrite len_unitsBE, Z.mul_comm, Z.mod_mul, Z.eqb_refl by done. cbn [negb].
    rewrite pairsBE_unitsBE by apply is_unit_utf16Encode.
    by rewrite utf16Decode_Encode, <-Ht.
Qed.

(** * Properties *)

(** For the Unicode CCSIDs, decoding undoes encoding on every valid text. *)
Theorem unicode_ccsid_roundtrip `{TableFS} (id : Z) (text : bytes) :
  unicodeCodec id <> None -> is_bytes text -> utf8Valid text = true ->
  (data ← Encode text id; Decode data id) = Ret text.
Proof.
  intros Hid Hb Hv. destruct (unicodeCodec id) as [u|] eqn:E; [|done].
  unfold Encode, Decode. rewrite (Lookup_unicode id u) by done. cbn [mbind outcome_bind].
  apply unicode_decode_encode; [|done..].
  unfold unicodeCodec in E. repeat case_match; simplify_eq; cbn; lia.
Qed.

Lemma unicode_ccsid_roundtrip_witness :
  (data ← @Encode (fun _ => NoFile) [72; 226; 130; 172; 240; 159; 152; 128] 1202;
   @Decode (fun _ => NoFile) data 1202) = Ret [72; 226; 130; 172; 240; 159; 152; 128].
Proof.
  apply (@unicode_ccsid_roundtrip (fun _ => NoFile) 1202 [72; 226; 130; 172; 240; 159; 152; 128]);
    [vm_compute; discriminate | by apply (bool_decide_unpack _) | vm_compute; reflexivity].
Defined.

(** C27: for an EBCDIC mixed table, decoding undoes encoding on every valid text
    whose UTF-16 units the table converts without substitution: the shift-out
    and shift-in bytes the encoder inserts always bracket the double-byte data
    the way the decoder reads it, multi-unit sequences included. *)
Theorem mixed_roundtrip (t : mixedByte) (text : bytes) :
  multi_ok t -> is_bytes text -> utf8Valid text = true ->
  Forall (unit_ok t) (utf16Encode (runesOf text)) ->
  mbDecode t (mbEncode t text) = text.
Proof.
  intros Hm Hb Hv Hu. pose proof (utf8Valid_runes text Hb Hv) as [Ht Hr].
  unfold mbDecode, mbEncode. rewrite mbEncodeUnits_decode by done.
  by rewrite utf16Decode_Encode, <-Ht.
Qed.

(** A small mixed table: one letter, three double-byte characters and one
    two-unit sequence. *)
Definition sparse (d : Z) (kvs : list (Z * Z)) (n : Z) : list Z :=
  (fun i => default d (snd <$> List.find (fun kv => kv.1 =? i) kvs)) <$> seqZ 0 n.
Definition sampleWide : list (Z * Z) := [(0x100, 0x0181); (0x101, 0x0186); (0x102, 0x01BF)].
Definition sampleMixed : mixedByte :=
  mkMixed 930
    (mkSingle 290 0x6F (sparse 0xFFFD [(0xC1, 0x41)] 256) (sparse 0x6F [(0x41, 0xC1)] 0x110))
    (mkDouble 300 (sparse 0xFFFD ((fun kv => (kv.2, kv.1)) <$> sampleWide) 0x200)
       (sparse dbSubChar sampleWide 0x110)
       {[0x0290 := [0x101; 0x102]]} {[unitsKey [0x101; 0x102] := 0x0290]} 2).
Definition sampleText : bytes := stringOf [0x41; 0x100; 0x101; 0x102; 0x41; 0x101].

Lemma mixed_roundtrip_witness :
  mbEncode sampleMixed sampleText =
    [0xC1; 0x0E; 0x01; 0x81; 0x02; 0x90; 0x0F; 0xC1; 0x0E; 0x01; 0x86; 0x0F] /\
  mbDecode sampleMixed (mbEncode sampleMixed sampleText) = sampleText.
Proof.
  split; [vm_compute; reflexivity|].
  apply (mixed_roundtrip sampleMixed sampleText);
    [apply (bool_decide_unpack _); vm_compute; exact I
    | apply (bool_decide_unpack _); vm_compute; exact I
    | vm_compute; reflexivity
    | apply (bool_decide_unpack _); vm_compute; exact I].
Defined.

(** The codec cache is transparent.  From any cache that holds only codecs
    of the table files, a lookup that succeeds returns the codec the table files
    define, leaves such a cache behind, and agrees with the same lookup from any
    other such cache. *)
Theorem lookup_cache_transparent `{TableFS} (cache1 cache2 cache1' cache2' : gmap Z Codec)
    (id : Z) (c1 c2 : Codec) :
  cache_ok cache1 -> cache_ok cache2 ->
  LookupCached cache1 id = (Ret c1, cache1') -> LookupCached cache2 id = (Ret c2, cache2') ->
  codec_of id c1 /\ cache_ok cache1' /\ c1 = c2.
Proof.
  intros Hc1 Hc2 [Hd1 Hk1]%lookupLocked_ok [Hd2 _]%lookupLocked_ok; [|done..].
  eauto using codec_of_det.
Qed.

Lemma lookup_cache_transparent_witness :
  @codec_of (fun _ => NoFile) 1208 (CUnicode (mkUnicode 1208 2)) /\
  @cache_ok (fun _ => NoFile) {[1208 := CUnicode (mkUnicode 1208 2)]} /\
  CUnicode (mkUnicode 1208 2) = CUnicode (mkUnicode 1208 2).
Proof.
  apply (@lookup_cache_transparent (fun _ => NoFile) ∅ {[1208 := CUnicode (mkUnicode 1208 2)]}
    {[1208 := CUnicode (mkUnicode 1208 2)]} {[1208 := CUnicode (mkUnicode 1208 2)]}
    1208 (CUnicode (mkUnicode 1208 2)) (CUnicode (mkUnicode 1208 2)));
    [apply map_Forall_empty
    | apply map_Forall_singleton, codec_unicode; reflexivity
    | vm_compute; reflexivity | vm_compute; reflexivity].
Defined.
