(* ===== verification/Wire.v ===== *)
(** Host-server packets: wire.go and the framing half of protocol.go.

    A request or a reply is one packet: a 20-byte header whose first word is
    the length of the whole packet, a 20-byte template, and a sequence of
    parameters framed as "LL/CP" (a 4-byte length that counts itself and the
    2-byte code point, the code point, the payload). *)
From Stdlib Require Import Strings.String.
From stdpp Require Import base list numbers strings.
From S2P Require Import Prelude.
Open Scope Z_scope.

(** ** protocol.go: constants *)

Definition HeaderSize : Z := 20.
Definition TemplateSize : Z := 20.
Definition maxPacketLength : Z := Z.shiftl 1 30.

(** Server identifiers, requests, functions and code points. *)
Definition PortMapperPort : Z := 449.
Definition DatabasePort : Z := 8471.
Definition SecureDatabasePort : Z := 9471.
Definition SignonPort : Z := 8476.
Definition SecureSignonPort : Z := 9476.
Definition DatabaseServerID : Z := 0xE004.
Definition NativeDatabaseServerID : Z := 0xE005.
Definition SignonServerID : Z := 0xE009.
Definition HostConnServerID : Z := 0xE00B.
Definition RequestExchangeRandomSeeds : Z := 0x7001.
Definition RequestStartServer : Z := 0x7002.
Definition RequestExchangeAttributes : Z := 0x7003.
Definition RequestSignonInfo : Z := 0x7004.
Definition ReplyExchangeRandomSeeds : Z := 0xF001.
Definition ReplyStartServer : Z := 0xF002.
Definition ReplyExchangeAttributes : Z := 0xF003.
Definition ReplySignonInfo : Z := 0xF004.
Definition FunctionPrepare : Z := 0x1800.
Definition FunctionDescribe : Z := 0x1801.
Definition FunctionDescribeParmMarker : Z := 0x1802.
Definition FunctionPrepareDescribe : Z := 0x1803.
Definition FunctionOpenDescribe : Z := 0x1804.
Definition FunctionExecute : Z := 0x1805.
Definition FunctionExecuteImmediate : Z := 0x1806.
Definition FunctionCommit : Z := 0x1807.
Definition FunctionRollback : Z := 0x1808.
Definition FunctionConnect : Z := 0x1809.
Definition FunctionClose : Z := 0x180A.
Definition FunctionFetch : Z := 0x180B.
Definition FunctionStreamFetch : Z := 0x180C.
Definition FunctionAddLibraryList : Z := 0x180C.
Definition FunctionPrepareExecute : Z := 0x180D.
Definition FunctionOpenDescribeFetch : Z := 0x180E.
Definition FunctionCreatePackage : Z := 0x180F.
Definition FunctionClearPackage : Z := 0x1810.
Definition FunctionDeletePackage : Z := 0x1811.
Definition FunctionExecuteOpenDescribe : Z := 0x1812.
Definition FunctionEndStreamFetch : Z := 0x1813.
Definition FunctionCreateRPB : Z := 0x1D00.
Definition FunctionChangeRPB : Z := 0x1D03.
Definition FunctionDeleteRPB : Z := 0x1D02.
Definition FunctionChangeDescriptor : Z := 0x1E00.
Definition FunctionDeleteDescriptor : Z := 0x1E01.
Definition FunctionReturnPackage : Z := 0x1815.
Definition FunctionRetrieveLobData : Z := 0x1816.
Definition FunctionWriteLobData : Z := 0x1817.
Definition FunctionCancel : Z := 0x1818.
Definition FunctionFreeLob : Z := 0x1819.
Definition FunctionTestConnection : Z := 0x0000.
Definition FunctionEndJob : Z := 0x1FFF.
Definition cursorReuseNo : Z := 0xF0.
Definition cursorReuseYes : Z := 0xF1.
Definition cursorReuseResultSet : Z := 0xF2.
Definition FunctionSetAttributes : Z := 0x1F80.
Definition FunctionRetrieveAttributes : Z := 0x1F81.
Definition CodePointClientVersion : Z := 0x1101.
Definition CodePointClientDSLevel : Z := 0x1102.
Definition CodePointClientSeed : Z := 0x1103.
Definition CodePointUserID : Z := 0x1104.
Definition CodePointPassword : Z := 0x1105.
Definition CodePointCurrentSignonDate : Z := 0x1106.
Definition CodePointLastSignonDate : Z := 0x1107.
Definition CodePointPasswordExpireDate : Z := 0x1108.
Definition CodePointServerCCSID : Z := 0x1114.
Definition CodePointPasswordLevel : Z := 0x1119.
Definition CodePointJobName : Z := 0x111F.
Definition CodePointReturnErrorMessages : Z := 0x1128.
Definition CodePointPasswordWarning : Z := 0x112C.
Definition CodePointAdditionalAuthFactor : Z := 0x112F.
Definition CodePointVerificationID : Z := 0x1130.
Definition CodePointClientIPAddress : Z := 0x1131.
Definition CodePointClientCCSID : Z := 0x1113.
Definition CodePointNamingConvention : Z := 0x380C.
Definition CodePointDefaultSQLLibrary : Z := 0x380F.
Definition CodePointJobIdentifier : Z := 0x3826.
Definition CodePointCommitmentControlLevel : Z := 0x380E.
Definition CodePointDateFormat : Z := 0x3807.
Definition CodePointDateSeparator : Z := 0x3808.
Definition CodePointTimeFormat : Z := 0x3809.
Definition CodePointTimeSeparator : Z := 0x380A.
Definition CodePointDecimalSeparator : Z := 0x380B.
Definition CodePointClientFunctionalLevel : Z := 0x3803.
Definition CodePointLanguageFeatureCode : Z := 0x3802.
Definition CodePointTranslateIndicator : Z := 0x00F0.
Definition CodePointUseExtendedFormats : Z := 0x00F1.
Definition CodePointUseSuperExtendedFormats : Z := 0x00F2.
Definition CodePointTrueAutoCommitIndicator : Z := 0x3824.
Definition CodePointLOBFieldThreshold : Z := 0x3822.
Definition CodePointDecimalPrecision : Z := 0x3827.
Definition CodePointQueryOptimizeGoal : Z := 0x3833.
Definition CodePointDecfloatRoundingMode : Z := 0x3835.
Definition CodePointCloseOnEOF : Z := 0x383F.
Definition CodePointMessageID : Z := 0x3801.
Definition CodePointFirstLevelMessageText : Z := 0x3802.
Definition CodePointSecondLevelMessageText : Z := 0x3803.
Definition CodePointServerAttributes : Z := 0x3804.
Definition CodePointDataFormat : Z := 0x3805.
Definition CodePointResultData : Z := 0x3806.
Definition CodePointSQLCA : Z := 0x3807.
Definition CodePointParameterMarkerFormat : Z := 0x3808.
Definition CodePointPackageInfo : Z := 0x380B.
Definition CodePointExtendedDataFormat : Z := 0x380C.
Definition CodePointExtendedParameterMarker : Z := 0x380D.
Definition CodePointExtendedResultData : Z := 0x380E.
Definition CodePointLOBLocatorData : Z := 0x380F.
Definition CodePointCurrentLOBLength : Z := 0x3810.
Definition CodePointExtendedColumnDescriptors : Z := 0x3811.
Definition CodePointSuperExtendedDataFormat : Z := 0x3812.
Definition CodePointSuperExtendedParameterMarker : Z := 0x3813.
Definition CodePointCursorAttributes : Z := 0x3814.
Definition CodePointAlternateServer : Z := 0x3846.
Definition CodePointVariableResultData : Z := 0x3901.
Definition CodePointXIDData : Z := 0x38A1.
Definition CodePointStatementText : Z := 0x3807.
Definition CodePointPrepareStatementName : Z := 0x3806.
Definition CodePointPackageName : Z := 0x3804.
Definition CodePointPrepareOption : Z := 0x3808.
Definition CodePointOpenAttributes : Z := 0x3809.
Definition CodePointDescribeOption : Z := 0x380A.
Definition CodePointCursorName : Z := 0x380B.
Definition CodePointBlockingFactor : Z := 0x380C.
Definition CodePointScrollableCursorFlag : Z := 0x380D.
Definition CodePointFetchScrollOption : Z := 0x380E.
Definition CodePointHoldIndicator : Z := 0x380F.
Definition CodePointReuseIndicator : Z := 0x3810.
Definition CodePointParameterMarkerData : Z := 0x3811.
Definition CodePointStatementType : Z := 0x3812.
Definition CodePointParameterMarkerBlockInd : Z := 0x3814.
Definition CodePointReturnSize : Z := 0x3815.
Definition CodePointLOBLocatorHandle : Z := 0x3818.
Definition CodePointRequestedSize : Z := 0x3819.
Definition CodePointStartOffset : Z := 0x381A.
Definition CodePointCompressionIndicator : Z := 0x381B.
Definition CodePointParameterMarkerDataExt : Z := 0x381F.
Definition CodePointColumnIndex : Z := 0x3828.
Definition CodePointExtendedColumnDescOption : Z := 0x3829.
Definition CodePointResultSetHoldability : Z := 0x3830.
Definition CodePointExtendedStatementText : Z := 0x3831.
Definition CodePointVariableFieldCompression : Z := 0x3833.
Definition CodePointListOfLibraries : Z := 0x3813.

(** ** protocol.go: headers *)

Record Header := mkHeader {
  Length : Z;
  HeaderID : Z;
  ServerID : Z;
  CSInstance : Z;
  CorrelationID : Z;
  TemplateLength : Z;
  ReqRepID : Z;
}.

Definition MarshalBinary (h : Header) : bytes :=
  be32 (Length h) ++ be16 (HeaderID h) ++ be16 (ServerID h) ++
  be32 (CSInstance h) ++ be32 (CorrelationID h) ++
  be16 (TemplateLength h) ++ be16 (ReqRepID h).

(** [data] either is the whole packet, or the packet without its leading
    length word; the first word tells which. *)
Definition ParseHeader (data : bytes) : outcome Header :=
  ensure (HeaderSize <=? len data) (EText "header too short" [len data]) (
    n ← u32_at data 0;
    if n =? u32 (len data) then
      length ← u32_at data 0;
      headerID ← u16_at data 4;
      serverID ← u16_at data 6;
      csInstance ← u32_at data 8;
      correlationID ← u32_at data 12;
      templateLength ← u16_at data 16;
      reqRepID ← u16_at data 18;
      Ret (mkHeader length headerID serverID csInstance correlationID templateLength reqRepID)
    else
      headerID ← u16_at data 0;
      serverID ← u16_at data 2;
      csInstance ← u32_at data 4;
      correlationID ← u32_at data 8;
      templateLength ← u16_at data 12;
      reqRepID ← u16_at data 14;
      Ret (mkHeader (u32 (len data + 4)) headerID serverID csInstance correlationID templateLength reqRepID)).

Definition header_ok (h : Header) : Prop :=
  0 <= Length h < 2 ^ 32 /\ 0 <= HeaderID h < 2 ^ 16 /\ 0 <= ServerID h < 2 ^ 16 /\
  0 <= CSInstance h < 2 ^ 32 /\ 0 <= CorrelationID h < 2 ^ 32 /\
  0 <= TemplateLength h < 2 ^ 16 /\ 0 <= ReqRepID h < 2 ^ 16.

#[export] Instance header_ok_dec h : Decision (header_ok h).
Proof. unfold header_ok. apply _. Defined.

(** ** protocol.go: LL/CP parameters *)

Definition AppendLLCP (dst : bytes) (codePoint : Z) (payload : bytes) : bytes :=
  dst ++ be32 (u32 (len payload + 6)) ++ be16 codePoint ++ payload.

Definition ParseLLCP (data : bytes) : outcome (Z * bytes * bytes) :=
  ensure (6 <=? len data) (EText "llcp too short" [len data]) (
    length ← u32_at data 0;
    ensure (6 <=? length) (EText "invalid llcp length" [length]) (
      ensure (length <=? len data) (EText "llcp length exceeds buffer" [length; len data]) (
        codePoint ← u16_at data 4;
        payload ← slice data 6 length;
        rest ← slice data length (len data);
        Ret (codePoint, payload, rest)))).

(** The loop [for len(remaining) > 0 { cp, payload, rest, err := ParseLLCP(remaining) ... }]
    that walks the parameters of a reply.  [body] is the loop body: it ends
    with a new state or with the function's result; [onErr] is what the code
    does when [ParseLLCP] fails.  Every iteration consumes at least six bytes,
    so [len remaining] iterations are enough ([forLLCP_no_panic]: the
    out-of-fuel [Panic] is never reached). *)
Fixpoint forLLCP {S R} (onErr : goerror -> outcome (S + R))
    (body : S -> Z -> bytes -> outcome (S + R)) (fuel : nat) (s : S) (remaining : bytes)
    : outcome (S + R) :=
  match remaining with
  | [] => Ret (inl s)
  | _ =>
      match fuel with
      | O => Panic
      | Datatypes.S fuel' =>
          match ParseLLCP remaining with
          | Ret (codePoint, payload, rest) =>
              r ← body s codePoint payload;
              match r with
              | inl s' => forLLCP onErr body fuel' s' rest
              | inr a => Ret (inr a)
              end
          | Fail e => onErr e
          | Panic => Panic
          end
      end
  end.

(** The byte string that carries a list of parameters. *)
Definition encodeLLCPs (ps : list (Z * bytes)) : bytes :=
  concat ((fun p => AppendLLCP [] p.1 p.2) <$> ps).

Definition llcp_ok (p : Z * bytes) : Prop := 0 <= p.1 < 2 ^ 16 /\ len p.2 + 6 < 2 ^ 32.

#[export] Instance llcp_ok_dec p : Decision (llcp_ok p).
Proof. unfold llcp_ok. apply _. Defined.

(** ** wire.go: reading packets

    The peer's bytes that have not been read yet, and the error the
    connection reports after them ([EEOF], or a network error such as an
    expired deadline). *)
Record inbound := mkInbound { pending : bytes; ending : goerror }.

(** [io.ReadFull(conn, buf)] with [len buf = n]. *)
Definition readFull (n : Z) (conn : inbound) : outcome bytes * inbound :=
  if n <=? len (pending conn) then
    (Ret (sub (pending conn) 0 n),
     mkInbound (drop (Z.to_nat n) (pending conn)) (ending conn))
  else
    (Fail (match ending conn with
           | EEOF => if len (pending conn) =? 0 then EEOF else EUnexpectedEOF
           | e => e
           end),
     mkInbound [] (ending conn)).

Definition readPacket (conn : inbound) : outcome bytes * inbound :=
  match readFull 4 conn with
  | (Ret lengthBuf, conn1) =>
      let length := unbe lengthBuf in
      if length <? HeaderSize then
        (Fail (EWire "validate packet length" (EText "invalid packet length" [length; HeaderSize])), conn1)
      else if maxPacketLength <? length then
        (Fail (EWire "validate packet length" (EText "packet length exceeds maximum" [length; maxPacketLength])), conn1)
      else
        match readFull (length - 4) conn1 with
        | (Ret body, conn2) => (Ret (lengthBuf ++ body), conn2)
        | (Fail e, conn2) => (Fail (EWire "read packet body" e), conn2)
        | (Panic, conn2) => (Panic, conn2)
        end
  | (Fail e, conn1) => (Fail (EWire "read packet length" e), conn1)
  | (Panic, conn1) => (Panic, conn1)
  end.

(** ** wire.go: appending fields and building headers *)

Definition appendU32 (dst : bytes) (value : Z) : bytes := dst ++ be32 value.
Definition appendU16 (dst : bytes) (value : Z) : bytes := dst ++ be16 value.
Definition appendU64 (dst : bytes) (value : Z) : bytes := dst ++ be64 value.
Definition appendI32 (dst : bytes) (value : Z) : bytes := appendU32 dst (u32 value).
Definition appendBytes (dst value : bytes) : bytes := dst ++ value.

Definition buildHeader (length headerID serverID templateLength reqRepID : Z) : bytes :=
  be32 length ++ be16 headerID ++ be16 serverID ++ be32 0 ++ be32 0 ++
  be16 templateLength ++ be16 reqRepID.

(** ** wire.go: replies *)

Definition readReturnCode (packet : bytes) : outcome Z :=
  ensure (24 <=? len packet) (EText "reply too short" [len packet])
    (i32 <$> u32_at packet 20).

Definition readSimpleReply (packet : bytes) : outcome (Z * bytes) :=
  rc ← readReturnCode packet;
  ensure (24 <=? len packet) (EText "reply too short" [len packet])
    (payload ← slice packet 24 (len packet); Ret (rc, payload)).

Definition readSimpleReplyForID (packet : bytes) (expectedReplyID : Z) : outcome (Z * bytes) :=
  header ← ParseHeader packet;
  ensure (ReqRepID header =? expectedReplyID)
    (EText "unexpected reply id" [ReqRepID header]) (readSimpleReply packet).

Record replyEnvelope := mkEnvelope {
  envHeader : Header;
  ORSBitmap : Z;
  Compressed : Z;
  ReturnORSHandle : Z;
  ReturnDataFunctionID : Z;
  RequestDataFunctionID : Z;
  RCClass : Z;
  RCCode : Z;
}.

Definition hasWarning (e : replyEnvelope) : bool := negb (RCClass e =? 0) && (0 <=? RCCode e).
Definition hasError (e : replyEnvelope) : bool := negb (RCClass e =? 0) && (RCCode e <? 0).

Definition readReplyEnvelope (packet : bytes) : outcome (replyEnvelope * bytes) :=
  ensure (40 <=? len packet) (EText "reply too short" [len packet]) (
    header ← ParseHeader packet;
    ensure (ReqRepID header =? 0x2800) (EText "unexpected reply id" [ReqRepID header]) (
      orsBitmap ← u32_at packet 20;
      compressed ← u32_at packet 24;
      returnORSHandle ← u16_at packet 28;
      returnDataFunctionID ← u16_at packet 30;
      requestDataFunctionID ← u16_at packet 32;
      rcClass ← u16_at packet 34;
      rcCode ← u32_at packet 36;
      payload ← slice packet 40 (len packet);
      Ret (mkEnvelope header orsBitmap compressed returnORSHandle returnDataFunctionID
             requestDataFunctionID rcClass (i32 rcCode), payload))).

(** * Lemmas *)

Lemma ParseHeader_no_panic data : no_panic (ParseHeader data).
Proof. unfold ParseHeader, HeaderSize. np. Qed.
#[export] Hint Resolve ParseHeader_no_panic : nopanic.

Lemma ParseLLCP_no_panic data : no_panic (ParseLLCP data).
Proof. unfold ParseLLCP. np. Qed.
#[export] Hint Resolve ParseLLCP_no_panic : nopanic.

Lemma readSimpleReplyForID_no_panic packet id : no_panic (readSimpleReplyForID packet id).
Proof. unfold readSimpleReplyForID, readSimpleReply, readReturnCode. np. Qed.
#[export] Hint Resolve readSimpleReplyForID_no_panic : nopanic.

(** What is read from bytes, and what is left of them, are bytes. *)
Lemma readFull_bytes n conn :
  is_bytes (pending conn) ->
  is_bytes (pending (readFull n conn).2) /\ (forall bs, (readFull n conn).1 = Ret bs -> is_bytes bs).
Proof.
  intros Hb. unfold readFull. destruct (n <=? len (pending conn)); cbn.
  - split; [by apply is_bytes_drop|]. intros bs [= <-]. by apply is_bytes_sub.
  - split; [constructor|done].
Qed.

Lemma readPacket_bytes conn :
  is_bytes (pending conn) ->
  is_bytes (pending (readPacket conn).2) /\ (forall packet, (readPacket conn).1 = Ret packet -> is_bytes packet).
Proof.
  intros Hb. unfold readPacket. destruct (readFull_bytes 4 conn Hb) as [Hb1 Hl].
  destruct (readFull 4 conn) as [[lengthBuf|e|] conn1]; cbn in Hb1, Hl; [|by split..].
  cbv zeta. case_match; [by split|]. case_match; [by split|].
  destruct (readFull_bytes (unbe lengthBuf - 4) conn1 Hb1) as [Hb2 Hbody].
  destruct (readFull _ conn1) as [[body|e|] conn2]; cbn in Hb2, Hbody |- *; [|by split..].
  split; [done|]. intros packet [= <-]. apply is_bytes_app. auto.
Qed.

Lemma readReplyEnvelope_bytes packet envelope payload :
  is_bytes packet -> readReplyEnvelope packet = Ret (envelope, payload) -> is_bytes payload.
Proof.
  intros Hb. unfold readReplyEnvelope. intros [_ E]%ensure_Ret.
  apply bind_Ret in E as (? & _ & E). apply ensure_Ret in E as [_ E]. do 7 apply bind_Ret in E as (? & _ & E).
  apply bind_Ret in E as (p & Hp & E). apply slice_Ret in Hp as (_ & _ & ->). injection E as _ <-.
  by apply is_bytes_sub.
Qed.

Lemma readReplyEnvelope_no_panic packet : no_panic (readReplyEnvelope packet).
Proof. unfold readReplyEnvelope. np. Qed.
#[export] Hint Resolve readReplyEnvelope_no_panic : nopanic.

(** [ParseLLCP] undoes [AppendLLCP], and accepts nothing else. *)
Lemma ParseLLCP_AppendLLCP cp payload rest :
  0 <= cp < 2 ^ 16 -> len payload + 6 < 2 ^ 32 ->
  ParseLLCP (AppendLLCP [] cp payload ++ rest) = Ret (cp, payload, rest).
Proof.
  intros Hcp Hp. unfold AppendLLCP. rewrite app_nil_l, <-!app_assoc.
  assert (u32 (len payload + 6) = len payload + 6) as -> by (apply wrapu_id; len_lia).
  unfold ParseLLCP, ensure.
  rewrite (proj2 (Z.leb_le _ _)) by len_lia. read_be.
  rewrite (Z.mod_small (len payload + 6)) by len_lia.
  rewrite !(proj2 (Z.leb_le _ _)) by len_lia.
  rewrite (Z.mod_small cp) by lia.
  rewrite !slice_ok by len_lia. cbn [mbind outcome_bind].
  set (hd := be32 (len payload + 6) ++ be16 cp).
  assert (len hd = 6) as Hhd by (subst hd; len_lia).
  replace (be32 (len payload + 6) ++ be16 cp ++ payload ++ rest)
    with (hd ++ payload ++ rest) by (subst hd; by rewrite <-app_assoc).
  rewrite (sub_app_r hd), sub_app_l by len_lia.
  rewrite (app_assoc hd), (sub_app_r (hd ++ payload)) by len_lia.
  rewrite sub_all' by len_lia. done.
Qed.

Lemma ParseLLCP_Ret data cp payload rest :
  is_bytes data -> ParseLLCP data = Ret (cp, payload, rest) ->
  data = AppendLLCP [] cp payload ++ rest /\ 0 <= cp < 2 ^ 16 /\ len payload + 6 < 2 ^ 32.
Proof.
  unfold ParseLLCP. intros Hb H. inv_ret. bool_facts.
  pose proof (uint_at_range 4 data 0 _ Hb ltac:(lia) H1).
  pose proof (uint_at_range 2 data 4 _ Hb ltac:(lia) H4).
  apply uint_at_Ret in H1 as (_ & _ & Hlen); [|lia].
  apply uint_at_Ret in H4 as (_ & _ & Hcp); [|lia].
  apply slice_Ret in H5 as (_ & _ & Hp). apply slice_Ret in H6 as (_ & _ & Hr).
  assert (len payload = x - 6) as Hlp by (subst payload; apply len_sub; lia).
  split; [|lia].
  unfold AppendLLCP. rewrite wrapu_id by lia. rewrite Hlp.
  replace (x - 6 + 6) with x by lia. rewrite Hlen, Hcp.
  rewrite !be_unbe by (first [by apply is_bytes_sub | rewrite length_sub by lia; lia]).
  subst payload rest. rewrite app_nil_l, <-!app_assoc.
  rewrite (sub_split data 4) at 1 by lia.
  rewrite (sub_sub data 4 2), (sub_sub data (4 + 2) (x - 6)) by lia.
  replace (4 + 2 + (x - 6)) with x by lia. done.
Qed.

Lemma ParseLLCP_shrinks data cp payload rest :
  ParseLLCP data = Ret (cp, payload, rest) -> (length rest < length data)%nat.
Proof.
  unfold ParseLLCP. intros H. inv_ret. bool_facts.
  match goal with H : slice _ _ (len _) = _ |- _ => apply slice_Ret in H as (? & ? & ->) end.
  unfold sub, len in *. rewrite length_take, length_drop. lia.
Qed.

Lemma ParseLLCP_is_bytes data cp payload rest :
  is_bytes data -> ParseLLCP data = Ret (cp, payload, rest) -> is_bytes payload /\ is_bytes rest.
Proof.
  unfold ParseLLCP. intros Hb H. inv_ret.
  repeat match goal with H : slice _ _ _ = Ret _ |- _ => apply slice_Ret in H as (_ & _ & ->) end.
  auto using is_bytes_sub.
Qed.

(** [Q] holds of the unread bytes and [P] of every payload. *)
Lemma forLLCP_no_panic_with {S R} (Q P : bytes -> Prop) onErr
    (body : S -> Z -> bytes -> outcome (S + R)) fuel s data :
  (forall d cp p rest, Q d -> ParseLLCP d = Ret (cp, p, rest) -> P p /\ Q rest) ->
  (forall e, no_panic (onErr e)) -> (forall s cp p, P p -> no_panic (body s cp p)) ->
  Q data -> (length data <= fuel)%nat -> no_panic (forLLCP onErr body fuel s data).
Proof.
  intros HQ He Hb. revert s data. induction fuel as [|fuel IH]; intros s data Hd Hl.
  - by destruct data; [|cbn in Hl; lia].
  - destruct data as [|b data]; [done|]. cbn [forLLCP].
    pose proof (ParseLLCP_no_panic (b :: data)) as Hp.
    destruct (ParseLLCP (b :: data)) as [[[cp p] rest]|e|] eqn:E; [|by auto|done].
    destruct (HQ _ _ _ _ Hd E).
    apply bind_no_panic; [by apply Hb|]. intros [s'|r] _; [|done].
    apply IH; [done|]. apply ParseLLCP_shrinks in E. cbn in *. lia.
Qed.

Lemma forLLCP_no_panic_bytes {S R} onErr (body : S -> Z -> bytes -> outcome (S + R)) fuel s data :
  (forall e, no_panic (onErr e)) -> (forall s cp p, is_bytes p -> no_panic (body s cp p)) ->
  is_bytes data -> (length data <= fuel)%nat -> no_panic (forLLCP onErr body fuel s data).
Proof. apply (forLLCP_no_panic_with is_bytes). eauto using ParseLLCP_is_bytes. Qed.

Lemma forLLCP_no_panic {S R} onErr (body : S -> Z -> bytes -> outcome (S + R)) fuel s data :
  (forall e, no_panic (onErr e)) -> (forall s cp p, no_panic (body s cp p)) ->
  (length data <= fuel)%nat -> no_panic (forLLCP onErr body fuel s data).
Proof. intros ? ?. by apply (forLLCP_no_panic_with (fun _ => True) (fun _ => True)); auto. Qed.

(** The result of the loop on a well-formed parameter sequence. *)
Fixpoint foldLLCP {S R} (body : S -> Z -> bytes -> outcome (S + R)) (s : S)
    (ps : list (Z * bytes)) : outcome (S + R) :=
  match ps with
  | [] => Ret (inl s)
  | (cp, p) :: ps' =>
      r ← body s cp p;
      match r with inl s' => foldLLCP body s' ps' | inr a => Ret (inr a) end
  end.

Lemma length_AppendLLCP cp p : length (AppendLLCP [] cp p) = (6 + length p)%nat.
Proof. unfold AppendLLCP. rewrite app_nil_l, !length_app, !length_be. done. Qed.

Lemma forLLCP_encode {S R} onErr (body : S -> Z -> bytes -> outcome (S + R)) fuel s ps :
  Forall llcp_ok ps -> (length (encodeLLCPs ps) <= fuel)%nat ->
  forLLCP onErr body fuel s (encodeLLCPs ps) = foldLLCP body s ps.
Proof.
  intros Hps. revert fuel s. induction Hps as [|[cp p] ps [Hcp Hp] Hps IH]; intros fuel s Hl.
  - by destruct fuel.
  - change (encodeLLCPs ((cp, p) :: ps)) with (AppendLLCP [] cp p ++ encodeLLCPs ps) in *.
    rewrite length_app, length_AppendLLCP in Hl.
    destruct fuel as [|fuel]; [lia|].
    assert (exists b bs, AppendLLCP [] cp p ++ encodeLLCPs ps = b :: bs) as (b & bs & E).
    { unfold AppendLLCP. rewrite app_nil_l. cbn. eauto. }
    rewrite E. cbn [forLLCP]. rewrite <-E, ParseLLCP_AppendLLCP by done.
    cbn [foldLLCP]. destruct (body s cp p) as [[s'|a]| |]; cbn; [|done..].
    apply IH. lia.
Qed.

(** A payload of one parameter. *)
Lemma forLLCP_one {S R} onErr (body : S -> Z -> bytes -> outcome (S + R)) s cp p :
  llcp_ok (cp, p) ->
  forLLCP onErr body (length (AppendLLCP [] cp p)) s (AppendLLCP [] cp p) = foldLLCP body s [(cp, p)].
Proof.
  intros Hok. rewrite <-(forLLCP_encode onErr body (length (AppendLLCP [] cp p)) s [(cp, p)]).
  - f_equal. cbn. by rewrite app_nil_r.
  - by constructor.
  - cbn. by rewrite app_nil_r.
Qed.

Lemma len_MarshalBinary h : len (MarshalBinary h) = 20.
Proof. unfold MarshalBinary. len_lia. Qed.

Lemma len_buildHeader l h s t r : len (buildHeader l h s t r) = 20.
Proof. unfold buildHeader. len_lia. Qed.
#[export] Hint Rewrite len_MarshalBinary len_buildHeader : golen.

Lemma buildHeader_MarshalBinary l h s t r :
  buildHeader l h s t r = MarshalBinary (mkHeader l h s 0 0 t r).
Proof. done. Qed.

Lemma ParseHeader_MarshalBinary h rest :
  header_ok h -> Length h = 20 + len rest ->
  ParseHeader (MarshalBinary h ++ rest) = Ret h.
Proof.
  intros (? & ? & ? & ? & ? & ? & ?) Hl. unfold ParseHeader, ensure.
  rewrite (proj2 (Z.leb_le _ _)) by (unfold HeaderSize; len_lia).
  rewrite len_app, len_MarshalBinary, <-Hl, wrapu_id by done.
  unfold MarshalBinary. rewrite <-!app_assoc. read_be.
  rewrite (Z.mod_small (Length h)), Z.eqb_refl by done.
  rewrite !Z.mod_small by done. by destruct h.
Qed.

Lemma readFull_Ret n conn bs conn' :
  0 <= n -> readFull n conn = (Ret bs, conn') <->
  pending conn = bs ++ pending conn' /\ len bs = n /\ ending conn' = ending conn.
Proof.
  intros Hn. unfold readFull. destruct (Z.leb_spec n (len (pending conn))) as [Hle|Hgt]; split.
  - intros [= <- <-]. cbn. rewrite len_sub by lia. split_and!; [|done..].
    unfold sub. by rewrite drop_0, take_drop.
  - intros (Hp & Hl & He). destruct conn as [p e], conn' as [p' e']. cbn in *. subst.
    unfold sub, len. rewrite drop_0, Nat2Z.id, take_app_length, drop_app_length. done.
  - done.
  - intros (Hp & Hl & _). rewrite Hp in Hgt. len_lia.
Qed.

(** Reading a 32-bit word that was written as two 16-bit words. *)
Lemma two_words off a b rest :
  off = 0 -> 0 <= a < 2 ^ 16 -> 0 <= b < 2 ^ 16 ->
  u32_at (be16 a ++ be16 b ++ rest) off = Ret (a * 2 ^ 16 + b).
Proof.
  intros -> ? ?. rewrite app_assoc, uint_at_ok by len_lia.
  rewrite sub_app_l by len_lia. rewrite unbe_app, !unbe_be, len_be.
  change (8 * Z.of_nat 2) with 16. by rewrite !Z.mod_small by done.
Qed.

(** * Properties *)

(** A header that the driver marshals, followed by the rest of its packet,
    is parsed back to the same header when its length word is the length of the
    packet; and the parser accepts the same packet without its length word,
    recovering the length, unless the next word happens to equal the packet
    length. *)
Theorem header_roundtrip (h : Header) (rest : bytes) :
  header_ok h -> Length h = 20 + len rest -> 4 <= len rest ->
  ParseHeader (MarshalBinary h ++ rest) = Ret h /\
  (HeaderID h * 2 ^ 16 + ServerID h <> 16 + len rest ->
   ParseHeader (drop 4 (MarshalBinary h ++ rest)) = Ret h).
Proof.
  intros Hok Hl Hr. split; [by apply ParseHeader_MarshalBinary|]. intros Hne.
  destruct Hok as (? & ? & ? & ? & ? & ? & ?).
  assert (drop 4 (MarshalBinary h ++ rest) =
    be16 (HeaderID h) ++ be16 (ServerID h) ++ be32 (CSInstance h) ++ be32 (CorrelationID h) ++
    be16 (TemplateLength h) ++ be16 (ReqRepID h) ++ rest) as ->
    by (unfold MarshalBinary; by rewrite <-!app_assoc).
  unfold ParseHeader, ensure.
  rewrite (proj2 (Z.leb_le _ _)) by (unfold HeaderSize; len_lia).
  rewrite (two_words 0) by done. cbn [mbind outcome_bind].
  match goal with |- context [len ?l] => assert (len l = 16 + len rest) as -> by len_lia end.
  rewrite (wrapu_id 32 (16 + len rest)) by lia.
  rewrite (proj2 (Z.eqb_neq _ _)) by done.
  replace (16 + len rest + 4) with (Length h) by lia. rewrite wrapu_id by done.
  read_be. rewrite !Z.mod_small by done. by destruct h.
Qed.

Definition sampleHeader : Header := mkHeader 24 0 DatabaseServerID 7 9 20 FunctionCommit.

Lemma header_roundtrip_witness :
  ParseHeader (MarshalBinary sampleHeader ++ [1; 2; 3; 4]) = Ret sampleHeader /\
  (HeaderID sampleHeader * 2 ^ 16 + ServerID sampleHeader <> 16 + len [1; 2; 3; 4] ->
   ParseHeader (drop 4 (MarshalBinary sampleHeader ++ [1; 2; 3; 4])) = Ret sampleHeader).
Proof.
  apply (header_roundtrip sampleHeader [1; 2; 3; 4]);
    [vm_compute; intuition discriminate | reflexivity | vm_compute; discriminate].
Defined.

(** [ParseLLCP] is the exact inverse of [AppendLLCP]: on a byte string it
    succeeds precisely when the string starts with an encoded parameter, and
    it returns that parameter's code point and payload and the bytes after it. *)
Theorem llcp_roundtrip (data : bytes) (cp : Z) (payload rest : bytes) :
  is_bytes data ->
  ParseLLCP data = Ret (cp, payload, rest) <->
  data = AppendLLCP [] cp payload ++ rest /\ llcp_ok (cp, payload).
Proof.
  intros Hb. unfold llcp_ok. cbn. split.
  - by apply ParseLLCP_Ret.
  - intros (-> & ? & ?). by apply ParseLLCP_AppendLLCP.
Qed.

Lemma llcp_roundtrip_witness :
  ParseLLCP [0; 0; 0; 8; 56; 18; 0; 2; 99] = Ret (0x3812, [0; 2], [99]).
Proof.
  apply (llcp_roundtrip [0; 0; 0; 8; 56; 18; 0; 2; 99] 0x3812 [0; 2] [99]);
    [by apply (bool_decide_unpack _) | split; [reflexivity | by apply (bool_decide_unpack _)]].
Defined.

(** C19: [readPacket] frames the byte stream: it returns a packet exactly when
    the unread bytes start with one whose length word is its own length and is
    between 20 bytes and 1 GiB, and it consumes that packet and nothing else. *)
Theorem readPacket_frames (conn conn' : inbound) (packet : bytes) :
  is_bytes (pending conn) ->
  readPacket conn = (Ret packet, conn') <->
  pending conn = packet ++ pending conn' /\ ending conn' = ending conn /\
  unbe (sub packet 0 4) = len packet /\ 20 <= len packet <= 2 ^ 30.
Proof.
  intros Hb. unfold readPacket. split.
  - destruct (readFull 4 conn) as [[lb|e|] c1] eqn:H1; [|done..].
    apply readFull_Ret in H1 as (Hp1 & Hl1 & He1); [|done].
    destruct (Z.ltb_spec (unbe lb) HeaderSize); [done|].
    destruct (Z.ltb_spec maxPacketLength (unbe lb)); [done|].
    unfold HeaderSize, maxPacketLength in *. change (Z.shiftl 1 30) with (2 ^ 30) in *.
    destruct (readFull (unbe lb - 4) c1) as [[body|e|] c2] eqn:H2; [|done..].
    intros [= <- <-]. apply readFull_Ret in H2 as (Hp2 & Hl2 & He2); [|lia].
    rewrite sub_app_l, Hp1, Hp2, app_assoc by done. split_and!; [done|congruence|..]; len_lia.
  - intros (Hp & He & Hl & Hr).
    assert (packet = sub packet 0 4 ++ sub packet 4 (len packet - 4)) as Hsplit
      by (apply sub_split; lia).
    set (c1 := mkInbound (sub packet 4 (len packet - 4) ++ pending conn') (ending conn)).
    assert (readFull 4 conn = (Ret (sub packet 0 4), c1)) as ->.
    { apply readFull_Ret; [done|]. cbn. rewrite len_sub by lia.
      split_and!; [|done..]. by rewrite app_assoc, <-Hsplit. }
    rewrite Hl. unfold HeaderSize, maxPacketLength.
    change (Z.shiftl 1 30) with (2 ^ 30).
    rewrite !(proj2 (Z.ltb_ge _ _)) by lia.
    assert (readFull (len packet - 4) c1 = (Ret (sub packet 4 (len packet - 4)), conn')) as ->.
    { apply readFull_Ret; [lia|]. rewrite len_sub by lia. done. }
    by rewrite <-Hsplit.
Qed.

Definition samplePacket : bytes := [0; 0; 0; 20; 0; 0; 224; 4; 0; 0; 0; 0; 0; 0; 0; 0; 0; 0; 24; 7].

Lemma readPacket_frames_witness :
  readPacket (mkInbound (samplePacket ++ [5; 6]) EEOF) = (Ret samplePacket, mkInbound [5; 6] EEOF).
Proof.
  apply (readPacket_frames (mkInbound (samplePacket ++ [5; 6]) EEOF) (mkInbound [5; 6] EEOF) samplePacket);
    [apply (bool_decide_unpack _); vm_compute; exact I | vm_compute; intuition discriminate].
Defined.
