(* ===== verification/Reply.v ===== *)
(** Reading reply payloads: the [sliceReader] of sql.go, fetched result data
    and large-object replies.

    [make] is modelled up to the runtime's limit on an allocation (2^48 bytes
    on amd64): a negative or larger size panics.  Running out of memory below
    that limit is not modelled. *)
From Stdlib Require Import Strings.String.
From stdpp Require Import base list numbers strings.
From S2P Require Import Prelude Wire.
Open Scope Z_scope.

(** ** sliceReader *)

Record sliceReader := mkReader { rdata : bytes; rpos : Z }.

Definition newSliceReader (data : bytes) : sliceReader := mkReader data 0.
Definition remaining (r : sliceReader) : Z := len (rdata r) - rpos r.

Definition readU8 (r : sliceReader) : outcome (Z * sliceReader) :=
  if remaining r <? 1 then Fail EEOF
  else v ← uint_at 1 (rdata r) (rpos r); Ret (v, mkReader (rdata r) (rpos r + 1)).

Definition readU16 (r : sliceReader) : outcome (Z * sliceReader) :=
  if remaining r <? 2 then Fail EEOF
  else v ← uint_at 2 (rdata r) (rpos r); Ret (v, mkReader (rdata r) (rpos r + 2)).

Definition readU32 (r : sliceReader) : outcome (Z * sliceReader) :=
  if remaining r <? 4 then Fail EEOF
  else v ← uint_at 4 (rdata r) (rpos r); Ret (v, mkReader (rdata r) (rpos r + 4)).

Definition readBytes (n : Z) (r : sliceReader) : outcome (bytes * sliceReader) :=
  if (n <? 0) || (remaining r <? n) then Fail EEOF
  else
    v ← slice (rdata r) (rpos r) (rpos r + n);
    Ret (v, mkReader (rdata r) (rpos r + n)).

Definition skip (n : Z) (r : sliceReader) : outcome sliceReader :=
  '(_, r) ← readBytes n r; Ret r.

(** The position is inside the data. *)
Definition reader_ok (r : sliceReader) : Prop := 0 <= rpos r <= len (rdata r).

(** The bytes not read yet. *)
Definition rest (r : sliceReader) : bytes := sub (rdata r) (rpos r) (remaining r).

(** ** Result data blocks *)

Record fetchBlock := mkBlock {
  RowCount : Z;
  ColumnCount : Z;
  IndicatorSize : Z;
  RowSize : Z;
  Nulls : list bool;
  Data : bytes;
  cursorClosed : bool;
  endOfData : bool;
}.

Definition emptyBlock : fetchBlock := mkBlock 0 0 0 0 [] [] false false.

Definition maxAlloc : Z := 2 ^ 48.

(** [make([]T, n)] for a one-byte [T]. *)
Definition makeSize (n : Z) : outcome Z :=
  if (n <? 0) || (maxAlloc <? n) then Panic else Ret n.

(** The null indicators of [columns] columns of a row. *)
Fixpoint readIndicatorRow (indicatorSize : Z) (columns : nat) (r : sliceReader)
    : outcome (list bool * sliceReader) :=
  match columns with
  | O => Ret ([], r)
  | S columns' =>
      if 0 <? indicatorSize then
        '(indicatorBuf, r) ← readBytes indicatorSize r;
        let null := (2 <=? indicatorSize) && (unbe (sub indicatorBuf 0 2) =? 0xFFFF) in
        '(nulls, r) ← readIndicatorRow indicatorSize columns' r;
        Ret (null :: nulls, r)
      else
        '(nulls, r) ← readIndicatorRow indicatorSize columns' r;
        Ret (false :: nulls, r)
  end.

Fixpoint readIndicatorRows (indicatorSize : Z) (rows columns : nat) (r : sliceReader)
    : outcome (list bool * sliceReader) :=
  match rows with
  | O => Ret ([], r)
  | S rows' =>
      '(nulls, r) ← readIndicatorRow indicatorSize columns r;
      '(more, r) ← readIndicatorRows indicatorSize rows' columns r;
      Ret (nulls ++ more, r)
  end.

Definition parseResultDataBlock (r : sliceReader) (rowCount columnCount indicatorSize rowSize : Z)
    : outcome fetchBlock :=
  _ ← makeSize (i64 (rowCount * columnCount));
  _ ← makeSize (i64 (rowCount * rowSize));
  _ ← makeSize indicatorSize;
  '(nulls, r) ← readIndicatorRows indicatorSize (Z.to_nat rowCount) (Z.to_nat columnCount) r;
  '(data, r) ← readBytes (i64 (rowCount * rowSize)) r;
  Ret (mkBlock rowCount columnCount indicatorSize rowSize nulls data false false).

Definition parseOriginalResultDataPayload (payload : bytes) : outcome fetchBlock :=
  let r := newSliceReader payload in
  '(_, r) ← readU32 r;
  '(rowCount, r) ← readU32 r;
  '(columnCount, r) ← readU16 r;
  '(indicatorSize, r) ← readU16 r;
  '(rowSize, r) ← readU16 r;
  parseResultDataBlock r rowCount columnCount indicatorSize rowSize.

Definition parseResultDataPayload (payload : bytes) : outcome fetchBlock :=
  let r := newSliceReader payload in
  '(_, r) ← readU32 r;
  '(rowCount, r) ← readU32 r;
  '(columnCount, r) ← readU16 r;
  '(indicatorSize, r) ← readU16 r;
  '(_, r) ← readU32 r;
  '(rowSize, r) ← readU32 r;
  parseResultDataBlock r rowCount columnCount indicatorSize rowSize.

Definition parseFetchBody (s : unit) (codePoint : Z) (cpPayload : bytes)
    : outcome (unit + fetchBlock) :=
  if codePoint =? CodePointExtendedResultData then inr <$> parseResultDataPayload cpPayload
  else if codePoint =? CodePointResultData then inr <$> parseOriginalResultDataPayload cpPayload
  else Ret (inl s).

Definition parseFetchPayload (payload : bytes) : outcome fetchBlock :=
  r ← forLLCP (fun e => Fail e) parseFetchBody (length payload) tt payload;
  match r with inl _ => Ret emptyBlock | inr b => Ret b end.

(** ** Large objects *)

Definition parseCurrentLobLengthBody (s : unit) (codePoint : Z) (cpPayload : bytes)
    : outcome (unit + Z) :=
  if codePoint =? CodePointCurrentLOBLength then
    if len cpPayload =? 6 then inr <$> uint_at 4 cpPayload 2
    else if len cpPayload =? 10 then
      length ← uint_at 8 cpPayload 2;
      ensure (length <=? 2 ^ 63 - 1)
        (EWire "parse LOB length" (EText "length exceeds int64" [length])) (Ret (inr length))
    else Fail (EWire "parse LOB length" (EText "unexpected payload length" [len cpPayload]))
  else Ret (inl s).

(** -1 when the code point is absent. *)
Definition parseCurrentLobLengthFromPayload (payload : bytes) : outcome Z :=
  r ← forLLCP (fun e => Fail (EWire "parse LOB length" e)) parseCurrentLobLengthBody
        (length payload) tt payload;
  match r with inl _ => Ret (-1) | inr n => Ret n end.

Definition parseLobDataBody (s : unit) (codePoint : Z) (cpPayload : bytes)
    : outcome (unit + bytes) :=
  if codePoint =? CodePointLOBLocatorData then
    if len cpPayload <? 6 then Ret (inr [])
    else
      length ← uint_at 4 cpPayload 2;
      let length := if len cpPayload - 6 <? length then len cpPayload - 6 else length in
      inr <$> slice cpPayload 6 (6 + length)
  else Ret (inl s).

Definition parseLobDataFromPayload (payload : bytes) : outcome bytes :=
  r ← forLLCP (fun e => Fail e) parseLobDataBody (length payload) tt payload;
  match r with inl _ => Ret [] | inr data => Ret data end.

(** * Lemmas *)

(** ** Reading in the middle of a concatenation *)

Lemma readUint_app n k v pre post :
  n = Z.of_nat k ->
  uint_at n (pre ++ be k v ++ post) (len pre) = Ret (v mod 2 ^ (8 * n)).
Proof.
  intros ->. rewrite uint_at_app_r by lia. rewrite Z.sub_diag. by rewrite uint_at_app_l.
Qed.

(** [at_rest r bs]: the unread bytes of [r] are [bs]. *)
Definition at_rest (r : sliceReader) (bs : bytes) : Prop :=
  exists pre, rdata r = pre ++ bs /\ rpos r = len pre.

Lemma at_rest_new data : at_rest (newSliceReader data) data.
Proof. by exists []. Qed.

Lemma at_rest_remaining r bs : at_rest r bs -> remaining r = len bs.
Proof. destruct r as [d p]. intros (pre & Hd & Hp). cbn in *. subst. unfold remaining. cbn. len_lia. Qed.

Lemma readBytes_at r v bs n :
  at_rest r (v ++ bs) -> n = len v ->
  exists r', readBytes n r = Ret (v, r') /\ at_rest r' bs /\ rpos r' = rpos r + n.
Proof.
  intros Hr ->. pose proof (at_rest_remaining _ _ Hr) as Hrem.
  destruct r as [d p]. destruct Hr as (pre & Hd & Hp). cbn in *. subst.
  exists (mkReader (pre ++ v ++ bs) (len pre + len v)). split_and!.
  - unfold readBytes. rewrite Hrem. cbn [rdata rpos].
    rewrite (proj2 (Z.ltb_ge (len v) 0)), (proj2 (Z.ltb_ge _ (len v))) by len_lia.
    cbn [orb]. rewrite slice_ok by len_lia. cbn [mbind outcome_bind].
    rewrite sub_app_r by len_lia. by rewrite Z.sub_diag, sub_app_l by len_lia.
  - exists (pre ++ v). cbn. rewrite <-app_assoc. split; [done|len_lia].
  - done.
Qed.

Lemma readUint_at n k r v bs :
  at_rest r (be k v ++ bs) -> n = Z.of_nat k ->
  uint_at n (rdata r) (rpos r) = Ret (v mod 2 ^ (8 * n)) /\
  at_rest (mkReader (rdata r) (rpos r + n)) bs /\ (remaining r <? n) = false.
Proof.
  intros Hr ->. pose proof (at_rest_remaining _ _ Hr) as Hrem.
  destruct Hr as (pre & Hd & Hp). rewrite Hd, Hp. split_and!.
  - by rewrite readUint_app.
  - exists (pre ++ be k v). cbn. rewrite <-app_assoc. split; [done|len_lia].
  - apply Z.ltb_ge. rewrite Hrem. len_lia.
Qed.

Lemma readU32_at r v bs :
  at_rest r (be32 v ++ bs) ->
  exists r', readU32 r = Ret (v mod 2 ^ 32, r') /\ at_rest r' bs /\ rpos r' = rpos r + 4.
Proof. intros (Hv & Hr & Hl)%(readUint_at 4); [|done]. unfold readU32. rewrite Hl, Hv. eauto. Qed.

Lemma readU16_at r v bs :
  at_rest r (be16 v ++ bs) ->
  exists r', readU16 r = Ret (v mod 2 ^ 16, r') /\ at_rest r' bs /\ rpos r' = rpos r + 2.
Proof. intros (Hv & Hr & Hl)%(readUint_at 2); [|done]. unfold readU16. rewrite Hl, Hv. eauto. Qed.

Lemma readU8_at r v bs :
  at_rest r (be 1 v ++ bs) ->
  exists r', readU8 r = Ret (v mod 2 ^ 8, r') /\ at_rest r' bs /\ rpos r' = rpos r + 1.
Proof. intros (Hv & Hr & Hl)%(readUint_at 1); [|done]. unfold readU8. rewrite Hl, Hv. eauto. Qed.

(** Run one read whose position in the data is known. *)
Ltac rd :=
  lazymatch goal with
  | Hr : at_rest ?r _ |- context [readU32 ?r] =>
      let r' := fresh "r" in let E := fresh "E" in
      destruct (readU32_at _ _ _ Hr) as (r' & E & ? & ?); rewrite E; clear E Hr; cbn [mbind outcome_bind]
  | Hr : at_rest ?r _ |- context [readU16 ?r] =>
      let r' := fresh "r" in let E := fresh "E" in
      destruct (readU16_at _ _ _ Hr) as (r' & E & ? & ?); rewrite E; clear E Hr; cbn [mbind outcome_bind]
  | Hr : at_rest ?r _ |- context [readU8 ?r] =>
      let r' := fresh "r" in let E := fresh "E" in
      destruct (readU8_at _ _ _ Hr) as (r' & E & ? & ?); rewrite E; clear E Hr; cbn [mbind outcome_bind]
  end.

(** ** Safety: a read inside the data stays inside it and does not panic *)

(** [safe r m]: from a well-formed reader, [m] does not panic and leaves a
    well-formed reader over the same data, further on. *)
Definition forward (r r' : sliceReader) : Prop :=
  rdata r' = rdata r /\ rpos r <= rpos r' <= len (rdata r).

Definition safe {A} (r : sliceReader) (m : outcome (A * sliceReader)) : Prop :=
  no_panic m /\ forall a r', m = Ret (a, r') -> forward r r'.

Lemma forward_refl r : reader_ok r -> forward r r.
Proof. unfold forward, reader_ok. auto with lia. Qed.

Lemma forward_ok r r' : reader_ok r -> forward r r' -> reader_ok r'.
Proof. unfold forward, reader_ok. intros ? [-> ?]. lia. Qed.

Lemma forward_trans r r' r'' : forward r r' -> forward r' r'' -> forward r r''.
Proof. unfold forward. intros [E ?] [E' ?]. rewrite E, E' in *. split; [done|lia]. Qed.

Lemma readBytes_safe n r : reader_ok r -> safe r (readBytes n r).
Proof.
  unfold reader_ok, safe, forward, readBytes, remaining. intros Hr.
  destruct (Z.ltb_spec n 0); [done|].
  destruct (Z.ltb_spec (len (rdata r) - rpos r) n); [done|]. cbn [orb].
  rewrite slice_ok by lia. split; [done|]. intros a r' [= <- <-]. cbn. auto with lia.
Qed.

Lemma readUint_safe n r : 0 <= n -> reader_ok r ->
  safe r (if remaining r <? n then Fail EEOF
          else v ← uint_at n (rdata r) (rpos r); Ret (v, mkReader (rdata r) (rpos r + n))).
Proof.
  unfold reader_ok, safe, forward, remaining. intros ? Hr.
  destruct (Z.ltb_spec (len (rdata r) - rpos r) n); [done|].
  rewrite uint_at_ok by lia. split; [done|]. intros a r' [= <- <-]. cbn. auto with lia.
Qed.

Lemma readU8_safe r : reader_ok r -> safe r (readU8 r).
Proof. by apply (readUint_safe 1). Qed.
Lemma readU16_safe r : reader_ok r -> safe r (readU16 r).
Proof. by apply (readUint_safe 2). Qed.
Lemma readU32_safe r : reader_ok r -> safe r (readU32 r).
Proof. by apply (readUint_safe 4). Qed.

Lemma safe_bind {A B} r (m : outcome (A * sliceReader)) (f : A * sliceReader -> outcome B) :
  safe r m -> (forall a r', forward r r' -> no_panic (f (a, r'))) -> no_panic (m ≫= f).
Proof.
  intros [Hm Hf] Hk. apply bind_no_panic; [done|]. intros [a r'] E. eauto.
Qed.

Lemma safe_bind' {A B} r (m : outcome (A * sliceReader)) (f : A * sliceReader -> outcome (B * sliceReader)) :
  safe r m -> (forall a r', forward r r' -> safe r' (f (a, r'))) -> safe r (m ≫= f).
Proof.
  intros [Hm Hf] Hk. split.
  - apply bind_no_panic; [done|]. intros [a r'] E. by apply Hk, (Hf a).
  - intros b r'' ([a r'] & E & E')%bind_Ret. pose proof (Hf _ _ E) as Hr.
    eapply forward_trans; [done|]. by eapply Hk.
Qed.

Lemma safe_Ret {A} r (a : A) : reader_ok r -> safe r (Ret (a, r)).
Proof. intros. split; [done|]. intros ? ? [= <- <-]. by apply forward_refl. Qed.

Lemma safe_Fail {A} r e : safe r (@Fail (A * sliceReader) e).
Proof. by split. Qed.

#[export] Hint Resolve readBytes_safe readU8_safe readU16_safe readU32_safe safe_Fail safe_Ret forward_ok : nopanic.

(** One read in a [no_panic] or [safe] goal. *)
Ltac sf :=
  match goal with
  | H : forward ?r ?r' |- _ =>
      lazymatch goal with Hr : reader_ok r' |- _ => fail | _ => idtac end;
      match goal with Hr : reader_ok r |- _ => pose proof (forward_ok _ _ Hr H) end
  | |- no_panic (?m ≫= _) =>
      eapply safe_bind; [solve [eauto with nopanic]|intros ? ? ?; cbv beta iota zeta]
  | |- safe _ (?m ≫= _) =>
      eapply safe_bind'; [solve [eauto with nopanic]|intros ? ? ?; cbv beta iota zeta]
  end.

Lemma newSliceReader_ok data : reader_ok (newSliceReader data).
Proof. unfold reader_ok. cbn. len_lia. Qed.
#[export] Hint Resolve newSliceReader_ok : nopanic.

(** ** Result data *)

(** The size check on a product computed in 64 bits. *)
Lemma makeSize_product a b :
  0 <= a -> 0 <= b -> a * b < 2 ^ 64 ->
  makeSize (i64 (a * b)) = if maxAlloc <? a * b then Panic else Ret (i64 (a * b)).
Proof.
  intros ? ? Hlt. assert (0 <= a * b) by nia. unfold makeSize, maxAlloc.
  assert (i64 (a * b) = a * b \/ 2 ^ 63 <= a * b /\ i64 (a * b) < 0) as [->|[? ?]].
  { destruct (Z.lt_ge_cases (a * b) (2 ^ 63)); [left; apply wraps_id; lia|right; split; [done|]].
    unfold wraps. change (2 ^ (64 - 1)) with (2 ^ 63).
    replace (a * b + 2 ^ 63) with (a * b - 2 ^ 63 + 1 * 2 ^ 64) by lia.
    rewrite Z_mod_plus_full, Z.mod_small by lia. lia. }
  - by rewrite (proj2 (Z.ltb_ge (a * b) 0)) by lia.
  - by rewrite (proj2 (Z.ltb_lt _ 0)), (proj2 (Z.ltb_lt _ (a * b))) by lia.
Qed.

Lemma readIndicatorRow_safe isz columns r : reader_ok r -> safe r (readIndicatorRow isz columns r).
Proof.
  revert r. induction columns as [|columns IH]; intros r Hr; cbn [readIndicatorRow]; [eauto with nopanic|].
  destruct (0 <? isz); repeat sf; eauto with nopanic.
Qed.
#[export] Hint Resolve readIndicatorRow_safe : nopanic.

Lemma readIndicatorRows_safe isz rows columns r :
  reader_ok r -> safe r (readIndicatorRows isz rows columns r).
Proof.
  revert r. induction rows as [|rows IH]; intros r Hr; cbn [readIndicatorRows]; [eauto with nopanic|].
  repeat sf; eauto with nopanic.
Qed.
#[export] Hint Resolve readIndicatorRows_safe : nopanic.

Definition nullIndicator (ind : bytes) : bool :=
  (2 <=? len ind) && (unbe (sub ind 0 2) =? 0xFFFF).

(** The indicators a reader with [bs] after them sees. *)
Lemma readIndicatorRow_at isz r inds bs :
  at_rest r (concat inds ++ bs) -> 0 <= isz -> Forall (fun i => len i = isz) inds ->
  exists r', readIndicatorRow isz (length inds) r = Ret (nullIndicator <$> inds, r') /\ at_rest r' bs.
Proof.
  intros Hr Hisz Hinds. revert r Hr. induction Hinds as [|i inds Hi Hinds IH]; intros r Hr; [by exists r|].
  cbn [concat] in Hr. rewrite <-app_assoc in Hr. cbn [length readIndicatorRow].
  destruct (Z.ltb_spec 0 isz).
  - destruct (readBytes_at _ _ _ isz Hr) as (r1 & -> & Hr1 & _); [done|]. cbn [mbind outcome_bind].
    destruct (IH r1 Hr1) as (r2 & -> & Hr2). cbn [mbind outcome_bind]. exists r2. split; [|done].
    rewrite fmap_cons. do 3 f_equal. unfold nullIndicator. by rewrite Hi.
  - assert (i = []) as -> by (destruct i; [done|]; rewrite len_cons in Hi; len_lia).
    destruct (IH r Hr) as (r2 & -> & Hr2). by exists r2.
Qed.

Lemma readIndicatorRows_at isz columns r rows bs :
  at_rest r (concat (concat rows) ++ bs) -> 0 <= isz ->
  Forall (fun row => length row = columns /\ Forall (fun i => len i = isz) row) rows ->
  exists r', readIndicatorRows isz (length rows) columns r =
    Ret (nullIndicator <$> concat rows, r') /\ at_rest r' bs.
Proof.
  intros Hr Hisz Hrows. revert r Hr. induction Hrows as [|row rows [Hl Hrow] Hrows IH]; intros r Hr; [by exists r|].
  cbn [concat] in Hr. rewrite concat_app, <-app_assoc in Hr. cbn [length readIndicatorRows].
  destruct (readIndicatorRow_at _ _ _ _ Hr Hisz Hrow) as (r1 & E & Hr1).
  rewrite Hl in E. rewrite E. cbn [mbind outcome_bind].
  destruct (IH r1 Hr1) as (r2 & -> & Hr2). cbn [mbind outcome_bind]. exists r2. split; [|done].
  cbn [concat]. by rewrite fmap_app.
Qed.

Lemma makeSize_ok n : 0 <= n <= maxAlloc -> makeSize n = Ret n.
Proof. intros. unfold makeSize. by rewrite (proj2 (Z.ltb_ge n 0)), (proj2 (Z.ltb_ge maxAlloc n)) by lia. Qed.

(** A block parsed from its row-major indicators and its row data. *)
Lemma parseResultDataBlock_at r rows columns isz rowSize data bs :
  at_rest r (concat (concat rows) ++ data ++ bs) ->
  0 <= isz < 2 ^ 16 -> Z.of_nat columns < 2 ^ 16 -> len rows < 2 ^ 32 -> 0 <= rowSize ->
  len data = len rows * rowSize -> len data <= maxAlloc ->
  Forall (fun row => length row = columns /\ Forall (fun i => len i = isz) row) rows ->
  parseResultDataBlock r (len rows) (Z.of_nat columns) isz rowSize =
    Ret (mkBlock (len rows) (Z.of_nat columns) isz rowSize
           (nullIndicator <$> concat rows) data false false).
Proof.
  intros Hr Hisz Hc Hrc Hrs Hd Hmax Hrows. unfold parseResultDataBlock.
  pose proof (len_nonneg rows). pose proof (len_nonneg data).
  assert (forall x, 0 <= x <= maxAlloc -> i64 x = x) as Hi
    by (intros; apply wraps_id; unfold maxAlloc in *; lia).
  assert (0 <= len rows * Z.of_nat columns <= maxAlloc) by (unfold maxAlloc; nia).
  rewrite (Hi (len rows * Z.of_nat columns)) by done.
  rewrite (makeSize_ok (len rows * Z.of_nat columns)) by done. cbn [mbind outcome_bind].
  rewrite <-Hd, (Hi (len data)) by lia. rewrite (makeSize_ok (len data)) by lia. cbn [mbind outcome_bind].
  rewrite (makeSize_ok isz) by (unfold maxAlloc; lia). cbn [mbind outcome_bind].
  change (len rows) with (Z.of_nat (length rows)). rewrite !Nat2Z.id.
  destruct (readIndicatorRows_at isz columns r rows (data ++ bs)) as (r1 & -> & Hr1); [done|lia|done|].
  cbn [mbind outcome_bind].
  destruct (readBytes_at r1 data bs (len data) Hr1) as (r2 & -> & _); [done|].
  cbn [mbind outcome_bind]. done.
Qed.

Lemma parseCurrentLobLength_no_panic payload : no_panic (parseCurrentLobLengthFromPayload payload).
Proof.
  unfold parseCurrentLobLengthFromPayload. apply bind_no_panic; [|intros [] ?; done].
  apply forLLCP_no_panic; [done| |done]. intros s cp p. unfold parseCurrentLobLengthBody. np.
Qed.

Lemma parseLobData_no_panic payload : is_bytes payload -> no_panic (parseLobDataFromPayload payload).
Proof.
  intros Hb. unfold parseLobDataFromPayload. apply bind_no_panic; [|intros [] ?; done].
  apply forLLCP_no_panic_bytes; [done| |done|done]. intros s cp p Hp. unfold parseLobDataBody. np; bool_facts;
  match goal with H : uint_at 4 _ _ = Ret ?x |- _ =>
    pose proof (uint_at_range 4 _ _ _ Hp ltac:(lia) H) end;
  case_match; bool_facts; apply slice_no_panic; lia.
Qed.

(** * Properties *)

(** C17: the parser of fetched rows reads the rows the server encoded: after the
    20-byte extended header, row-major indicators and row data, whatever
    follows, it returns the header's sizes, the columns whose 2-byte indicator
    is 0xFFFF as null, and exactly the row data. *)
Theorem fetched_block_roundtrip (token reserved : Z) (columns : nat) (isz rowSize : Z)
    (rows : list (list bytes)) (data trailing : bytes) :
  0 <= isz < 2 ^ 16 -> Z.of_nat columns < 2 ^ 16 -> len rows < 2 ^ 32 -> 0 <= rowSize < 2 ^ 32 ->
  len data = len rows * rowSize -> len data <= maxAlloc ->
  Forall (fun row => length row = columns /\ Forall (fun i => len i = isz) row) rows ->
  parseResultDataPayload
    (be32 token ++ be32 (len rows) ++ be16 (Z.of_nat columns) ++ be16 isz ++ be32 reserved ++
     be32 rowSize ++ concat (concat rows) ++ data ++ trailing) =
  Ret (mkBlock (len rows) (Z.of_nat columns) isz rowSize
         (nullIndicator <$> concat rows) data false false).
Proof.
  intros. unfold parseResultDataPayload. cbv zeta.
  match goal with |- context [newSliceReader ?d] => pose proof (at_rest_new d) as Hr end.
  do 6 rd. pose proof (len_nonneg rows). rewrite !Z.mod_small by lia.
  eapply parseResultDataBlock_at; try done; lia.
Qed.

Lemma fetched_block_roundtrip_witness :
  parseResultDataPayload
    (be32 7 ++ be32 2 ++ be16 2 ++ be16 2 ++ be32 0 ++ be32 3 ++
     concat (concat [[[0; 0]; [255; 255]]; [[0; 0]; [0; 0]]]) ++ [1; 2; 3; 4; 5; 6] ++ [9]) =
  Ret (mkBlock 2 2 2 3 [false; true; false; false] [1; 2; 3; 4; 5; 6] false false).
Proof.
  apply (fetched_block_roundtrip 7 0 2 2 3 [[[0; 0]; [255; 255]]; [[0; 0]; [0; 0]]] [1; 2; 3; 4; 5; 6] [9]);
    try lia; try (vm_compute; discriminate); try reflexivity;
    apply (bool_decide_unpack _); vm_compute; exact I.
Defined.

(** The block parser panics on exactly the headers whose row data exceeds
    the largest allocation: the size it allocates comes from the header
    unchecked, and past 2^63 the product wraps negative.  Every other block,
    truncated ones included, is parsed or rejected with an error. *)
Theorem result_block_panics_iff (r : sliceReader) (rowCount columnCount isz rowSize : Z) :
  reader_ok r -> 0 <= rowCount < 2 ^ 32 -> 0 <= columnCount < 2 ^ 16 ->
  0 <= isz < 2 ^ 16 -> 0 <= rowSize < 2 ^ 32 ->
  parseResultDataBlock r rowCount columnCount isz rowSize = Panic <->
  maxAlloc < rowCount * rowSize.
Proof.
  intros Hr ? ? ? ?. assert (rowCount * rowSize < 2 ^ 64) by nia.
  assert (rowCount * columnCount < maxAlloc) by (unfold maxAlloc; nia).
  unfold parseResultDataBlock.
  rewrite !makeSize_product by (unfold maxAlloc in *; lia).
  rewrite (proj2 (Z.ltb_ge maxAlloc (rowCount * columnCount))) by lia. cbn [mbind outcome_bind].
  destruct (Z.ltb_spec maxAlloc (rowCount * rowSize)) as [Hbig|Hsmall]; [done|].
  cbn [mbind outcome_bind]. rewrite (makeSize_ok isz) by (unfold maxAlloc; lia). cbn [mbind outcome_bind].
  split; [|lia]. intros E. exfalso. revert E. change (no_panic
    ('(nulls, r) ← readIndicatorRows isz (Z.to_nat rowCount) (Z.to_nat columnCount) r;
     '(data, r) ← readBytes (i64 (rowCount * rowSize)) r;
     Ret (mkBlock rowCount columnCount isz rowSize nulls data false false))).
  repeat sf. done.
Qed.

Lemma result_block_panics_iff_witness :
  parseResultDataBlock (newSliceReader [])  (2 ^ 31) 1 0 (2 ^ 31) = Panic <-> maxAlloc < 2 ^ 31 * 2 ^ 31.
Proof.
  apply (result_block_panics_iff (newSliceReader []) (2 ^ 31) 1 0 (2 ^ 31));
    vm_compute; intuition discriminate.
Defined.

(** A 26-byte reply that makes the driver panic. *)
Example hostile_fetch_reply_panics :
  parseFetchPayload (AppendLLCP [] CodePointExtendedResultData
    (be32 1 ++ be32 (2 ^ 31) ++ be16 1 ++ be16 0 ++ be32 0 ++ be32 (2 ^ 31))) = Panic.
Proof. reflexivity. Qed.
