(* ===== verification/Format.v ===== *)
(** Parameter markers: the formats the server describes, the descriptor and
    data payloads the driver sends (sql.go), and their block form (batch.go).

    The bidi settings that a field carries for encoding its text are not part
    of this model, and an output destination ([sql.Out.Dest]) is the number of a
    slot in the caller's memory. *)
From Stdlib Require Import Strings.String.
From stdpp Require Import base list numbers strings gmap.
From S2P Require Import Prelude GoStrings Utf Ccsid Wire Reply.
Open Scope Z_scope.

Record parameterMarkerField := mkField {
  Name : bytes;
  SQLType : Z;
  FieldLength : Z;
  Scale : Z;
  Precision : Z;
  CCSID : Z;
  ParameterType : Z;
  LOBLocator : Z;
  LOBMaxSize : Z;
}.

Record parameterMarkerFormat := mkFormat {
  codePoint : Z;
  RecordSize : Z;
  Fields : list parameterMarkerField;
}.

Record lobWriteRequest := mkLobWrite {
  locatorHandle : Z;
  requestedSize : Z;
  lobData : bytes;
}.

Record parameterBinding := mkBinding {
  field : parameterMarkerField;
  raw : bytes;
  isNull : bool;
  outDest : option nat;
  lobWrite : option lobWriteRequest;
}.

(** A nil [*parameterMarkerFormat] is [None]. *)
Definition parameterCount (f : option parameterMarkerFormat) : Z :=
  match f with None => 0 | Some f => len (Fields f) end.

Definition usesOriginalFormat (f : parameterMarkerFormat) : bool :=
  codePoint f =? CodePointParameterMarkerFormat.

Definition hasOutputBindings (bindings : list parameterBinding) : bool := existsb (fun b => bool_decide (is_Some (outDest b))) bindings.

Definition isOutputParameterField (f : parameterMarkerField) : bool :=
  let t := ParameterType f mod 256 in (t =? 0xF1) || (t =? 0xF2).

(** ** Parsing the formats the server describes *)

Section Parse.
Context `{TableFS}.

(** The name of a field, when it lies inside the payload and decodes. *)
Definition fieldName (payload : bytes) (at_name : Z) (nameLength nameCCSID : Z) : outcome bytes :=
  if (0 <? nameLength) && (at_name + nameLength <=? len payload) then
    raw ← slice payload at_name (at_name + nameLength);
    match decodeTextByCCSID raw nameCCSID with
    | Ret name => Ret (trimSpace name)
    | Fail _ => Ret []
    | Panic => Panic
    end
  else Ret [].

Definition parseOriginalField (payload : bytes) (i : nat) : outcome parameterMarkerField :=
  let base := 8 + Z.of_nat i * 54 in
  sqlType ← uint_at 2 payload (base + 2);
  length ← uint_at 2 payload (base + 4);
  scale ← uint_at 2 payload (base + 6);
  precision ← uint_at 2 payload (base + 8);
  ccsid ← uint_at 2 payload (base + 10);
  parameterType ← uint_at 1 payload (base + 12);
  nameLength ← uint_at 2 payload (base + 28);
  nameCCSID ← uint_at 2 payload (base + 30);
  name ← fieldName payload (base + 32) nameLength nameCCSID;
  Ret (mkField name (i16 sqlType) (i16 length) (i16 scale) (i16 precision) ccsid parameterType (-1) (-1)).

(** The fields shared by the extended and the super-extended format. *)
Definition parseExtendedFieldAt (payload : bytes) (base : Z) (name : bytes)
    : outcome parameterMarkerField :=
  sqlType ← uint_at 2 payload (base + 2);
  length ← uint_at 4 payload (base + 4);
  scale ← uint_at 2 payload (base + 8);
  precision ← uint_at 2 payload (base + 10);
  ccsid ← uint_at 2 payload (base + 12);
  parameterType ← uint_at 1 payload (base + 14);
  lobLocator ← uint_at 4 payload (base + 17);
  lobMaxSize ← uint_at 4 payload (base + 26);
  Ret (mkField name (i16 sqlType) length (i16 scale) (i16 precision) ccsid parameterType lobLocator lobMaxSize).

Definition parseExtendedField (payload : bytes) (i : nat) : outcome parameterMarkerField :=
  let base := 16 + Z.of_nat i * 64 in
  nameLength ← uint_at 2 payload (base + 30);
  nameCCSID ← uint_at 2 payload (base + 32);
  name ← fieldName payload (base + 34) nameLength nameCCSID;
  parseExtendedFieldAt payload base name.

Definition parseSuperExtendedField (payload : bytes) (i : nat) : outcome parameterMarkerField :=
  parseExtendedFieldAt payload (16 + Z.of_nat i * 48) [].

Definition formatTooShort (payload : bytes) : goerror :=
  EText "parameter marker format too short" [len payload].

Definition parseOriginalParameterMarkerFormat (payload : bytes)
    : outcome (option parameterMarkerFormat) :=
  if len payload =? 0 then Ret None
  else if len payload <? 8 then Fail (formatTooShort payload)
  else
    count ← uint_at 2 payload 4;
    recordSize ← uint_at 2 payload 6;
    if count =? 0 then Ret (Some (mkFormat 0 recordSize []))
    else if len payload <? 8 + count * 54 then Fail (formatTooShort payload)
    else
      fields ← mapM (parseOriginalField payload) (seq 0 (Z.to_nat count));
      Ret (Some (mkFormat 0 recordSize fields)).

Definition parseExtendedParameterMarkerFormat (payload : bytes)
    : outcome (option parameterMarkerFormat) :=
  if len payload =? 0 then Ret None
  else if len payload <? 16 then Fail (formatTooShort payload)
  else
    count ← uint_at 4 payload 4;
    recordSize ← uint_at 4 payload 12;
    if count =? 0 then Ret (Some (mkFormat 0 recordSize []))
    else if len payload <? 16 + count * 64 then Fail (formatTooShort payload)
    else
      fields ← mapM (parseExtendedField payload) (seq 0 (Z.to_nat count));
      Ret (Some (mkFormat 0 recordSize fields)).

Definition parseSuperExtendedParameterMarkerFormat (payload : bytes)
    : outcome (option parameterMarkerFormat) :=
  if len payload =? 0 then Ret None
  else if len payload <? 16 then Fail (formatTooShort payload)
  else
    count ← uint_at 4 payload 4;
    recordSize ← uint_at 4 payload 12;
    if count =? 0 then Ret (Some (mkFormat 0 recordSize []))
    else if len payload <? 16 + count * 48 then Fail (formatTooShort payload)
    else
      fields ← mapM (parseSuperExtendedField payload) (seq 0 (Z.to_nat count));
      Ret (Some (mkFormat 0 recordSize fields)).

Definition withCodePoint (cp : Z) (f : parameterMarkerFormat) : parameterMarkerFormat :=
  mkFormat cp (RecordSize f) (Fields f).

Definition parseParameterMarkerBody (s : unit) (cp : Z) (cpPayload : bytes)
    : outcome (unit + option parameterMarkerFormat) :=
  if cp =? CodePointParameterMarkerFormat then
    (fun f => inr (option_map (withCodePoint cp) f)) <$> parseOriginalParameterMarkerFormat cpPayload
  else if cp =? CodePointExtendedParameterMarker then
    (fun f => inr (option_map (withCodePoint cp) f)) <$> parseExtendedParameterMarkerFormat cpPayload
  else if cp =? CodePointSuperExtendedParameterMarker then
    (fun f => inr (option_map (withCodePoint cp) f)) <$> parseSuperExtendedParameterMarkerFormat cpPayload
  else Ret (inl s).

Definition parseParameterMarkerFormatFromPayload (payload : bytes)
    : outcome (option parameterMarkerFormat) :=
  r ← forLLCP (fun e => Fail e) parseParameterMarkerBody (length payload) tt payload;
  match r with inl _ => Ret None | inr f => Ret f end.
End Parse.

(** ** Payloads the driver sends *)

Definition sumBindingLengths (bindings : list parameterBinding) : Z :=
  len (concat (raw <$> bindings)).

(** The scan of [parameterMarkerPayloadLayout]: a value, or the sum so far,
    that does not fit in 16 bits. *)
Fixpoint lengthsOverflow (total : Z) (bindings : list parameterBinding) : bool :=
  match bindings with
  | [] => false
  | b :: bindings' =>
      if 0xFFFF <? len (raw b) then true
      else if 0xFFFF <? total + len (raw b) then true
      else lengthsOverflow (total + len (raw b)) bindings'
  end.

(** Whether the payloads use the extended layout. *)
Definition parameterMarkerPayloadLayout (format : option parameterMarkerFormat)
    (bindings : list parameterBinding) : bool :=
  match format with
  | None => true
  | Some f =>
      if negb (usesOriginalFormat f) then true
      else if 0xFFFF <? len bindings then true
      else lengthsOverflow 0 bindings
  end.

Definition extendedFieldBlock (b : parameterBinding) : bytes :=
  be16 64 ++ be16 (SQLType (field b)) ++ be32 (len (raw b)) ++ be16 (Scale (field b)) ++
  be16 (Precision (field b)) ++ be16 (CCSID (field b)) ++ be 1 (ParameterType (field b)) ++
  be 2 0 ++ be32 (LOBLocator (field b)) ++ be 5 0 ++ be32 (LOBMaxSize (field b)) ++ be 34 0.

Definition originalFieldBlock (b : parameterBinding) : bytes :=
  be16 54 ++ be16 (SQLType (field b)) ++ be16 (len (raw b)) ++ be16 (Scale (field b)) ++
  be16 (Precision (field b)) ++ be16 (CCSID (field b)) ++ be 1 (ParameterType (field b)) ++ be 41 0.

Definition buildParameterMarkerFormatPayload (format : option parameterMarkerFormat)
    (bindings : list parameterBinding) : bytes * Z :=
  if parameterMarkerPayloadLayout format bindings then
    (be32 1 ++ be32 (len bindings) ++ be32 0 ++ be32 (sumBindingLengths bindings) ++
       concat (extendedFieldBlock <$> bindings), CodePointExtendedParameterMarker)
  else
    (be32 1 ++ be16 (len bindings) ++ be16 (sumBindingLengths bindings) ++
       concat (originalFieldBlock <$> bindings), CodePointParameterMarkerFormat).

Definition indicator (b : parameterBinding) : bytes := be16 (if isNull b then 0xFFFF else 0).

Definition buildParameterMarkerDataPayload (format : option parameterMarkerFormat)
    (bindings : list parameterBinding) : bytes * Z :=
  let totalLength := sumBindingLengths bindings in
  let indicators := concat (indicator <$> bindings) in
  let data := concat (raw <$> bindings) in
  if parameterMarkerPayloadLayout format bindings then
    (be32 1 ++ be32 1 ++ be16 (len bindings) ++ be16 2 ++ be32 0 ++ be32 totalLength ++
       indicators ++ data, CodePointParameterMarkerDataExt)
  else
    (be32 1 ++ be32 1 ++ be16 (len bindings) ++ be16 2 ++ be16 totalLength ++
       indicators ++ data, CodePointParameterMarkerData).

(** *** batch.go: one payload for a block of rows *)

Definition bindingRowBytes (row : list parameterBinding) : Z := sumBindingLengths row.

Definition sameBindingShape (a b : list parameterBinding) : bool :=
  (len a =? len b) && forallb (fun p => len (raw p.1) =? len (raw p.2)) (zip a b).

Definition buildBlockParameterMarkerData (format : option parameterMarkerFormat)
    (rows : list (list parameterBinding)) : outcome (bytes * Z) :=
  match rows with
  | [] => Fail (EText "parameter block has no rows" [])
  | first :: _ =>
      let columns := len first in
      let rowSize := bindingRowBytes first in
      ensure (forallb (sameBindingShape first) rows)
        (EText "parameter block row has a different shape" []) (
        ensure (columns <=? 0xFFFF) (EText "parameter block has too many columns" []) (
          let indicators := concat (indicator <$> concat rows) in
          let data := concat (raw <$> concat rows) in
          if parameterMarkerPayloadLayout format first then
            Ret (be32 1 ++ be32 (len rows) ++ be16 columns ++ be16 2 ++ be32 0 ++ be32 rowSize ++
                   indicators ++ data, CodePointParameterMarkerDataExt)
          else
            Ret (be32 1 ++ be32 (len rows) ++ be16 columns ++ be16 2 ++ be16 rowSize ++
                   indicators ++ data, CodePointParameterMarkerData)))
  end.

(** * Lemmas *)

#[local] Arguments be : simpl never.

Lemma forallb_sameShape first rows :
  forallb (sameBindingShape first) rows = true ->
  Forall (fun row => length row = length first /\ sumBindingLengths row = sumBindingLengths first) rows.
Proof.
  intros Hr. rewrite List.forallb_forall in Hr. apply List.Forall_forall. intros row Hin.
  specialize (Hr row Hin).
  unfold sameBindingShape in Hr. bool_facts. unfold len in *. assert (length row = length first) as Hl by lia.
  split; [done|]. clear -Hl H0. revert row Hl H0. unfold sumBindingLengths, len.
  induction first as [|b first IH]; intros [|c row] Hl Hz; try done; [by cbn in Hl..|].
  cbn in Hl, Hz. bool_facts. rewrite !fmap_cons. cbn [concat]. rewrite !length_app.
  specialize (IH row ltac:(lia) H0). unfold len in *. lia.
Qed.

Lemma fmap_nullIndicator (bs : list parameterBinding) : nullIndicator <$> (indicator <$> bs) = isNull <$> bs.
Proof.
  rewrite <-list_fmap_compose. apply list_fmap_ext. intros _ b _. unfold compose, nullIndicator, indicator.
  by destruct (isNull b).
Qed.

Lemma len_indicator b : len (indicator b) = 2.
Proof. unfold indicator. len_lia. Qed.

Lemma concat_map_concat {A B} (f : A -> B) (l : list (list A)) : concat (fmap (M := list) f <$> l) = f <$> concat l.
Proof. induction l as [|x l IH]; [done|]. rewrite fmap_cons. cbn [concat]. by rewrite IH, fmap_app. Qed.

(** The server's view of a block of rows: the parser of result data applied to
    the data payload of a batch. *)
Lemma parse_block_data (rows : list (list parameterBinding)) (columns : nat) rowSize r :
  at_rest r (concat (indicator <$> concat rows) ++ concat (raw <$> concat rows)) ->
  Forall (fun row => length row = columns /\ sumBindingLengths row = rowSize) rows ->
  Z.of_nat columns < 2 ^ 16 -> len rows < 2 ^ 32 -> 0 <= rowSize ->
  len rows * rowSize <= maxAlloc ->
  parseResultDataBlock r (len rows) (Z.of_nat columns) 2 rowSize =
    Ret (mkBlock (len rows) (Z.of_nat columns) 2 rowSize
           (isNull <$> concat rows) (concat (raw <$> concat rows)) false false).
Proof.
  intros Hr Hrows Hc Hn Hrs Hmax.
  assert (len (concat (raw <$> concat rows)) = len rows * rowSize) as Hlen.
  { clear -Hrows. induction Hrows as [|row rows [_ Hrow] Hrows IH]; [done|]. cbn [concat].
    rewrite fmap_app, concat_app, len_app, len_cons, IH. unfold sumBindingLengths in Hrow. lia. }
  rewrite <-fmap_nullIndicator, <-!(concat_map_concat indicator).
  assert (len rows = len (fmap (M := list) indicator <$> rows)) as Hl by (by rewrite len_fmap).
  rewrite Hl. eapply parseResultDataBlock_at with (bs := []); try done.
  - rewrite app_nil_r, concat_map_concat. done.
  - by rewrite <-Hl.
  - by rewrite <-Hl.
  - by rewrite Hlen.
  - apply Forall_fmap, (Forall_impl _ _ _ Hrows). intros row [Hrow _]. cbn. rewrite length_fmap.
    split; [done|]. apply Forall_fmap, Forall_true. intros. apply len_indicator.
Qed.

(** The layout the driver chooses always has room for the sizes it writes. *)
Lemma lengthsOverflow_false total bindings :
  0 <= total -> lengthsOverflow total bindings = false ->
  bindings = [] \/ total + sumBindingLengths bindings <= 0xFFFF.
Proof.
  revert total. induction bindings as [|b bs IH]; intros total Ht Ho; [by left|right].
  cbn [lengthsOverflow] in Ho. repeat case_match; try done. bool_facts.
  unfold sumBindingLengths. rewrite fmap_cons. cbn [concat]. rewrite len_app.
  destruct (IH (total + len (raw b))) as [->|IH']; [len_lia|done| |].
  - rewrite fmap_nil. cbn [concat]. len_lia.
  - unfold sumBindingLengths in IH'. lia.
Qed.

Lemma original_layout_fits format bindings :
  parameterMarkerPayloadLayout format bindings = false ->
  len bindings < 2 ^ 16 /\ 0 <= sumBindingLengths bindings < 2 ^ 16.
Proof.
  unfold parameterMarkerPayloadLayout. intros H. repeat case_match; try done. bool_facts.
  split; [lia|]. pose proof (len_nonneg (concat (raw <$> bindings))).
  apply lengthsOverflow_false in H as [->|Hle]; [done| |lia]. unfold sumBindingLengths in *. lia.
Qed.


(** ** Parsing safety *)

Lemma decodeTextByCCSID_no_panic `{TableFS} data id :
  no_panic (Lookup (textCCSID id)) -> no_panic (decodeTextByCCSID data id).
Proof.
  intros Hl. unfold decodeTextByCCSID. destruct data as [|b data]; [done|].
  assert (no_panic (Decode (b :: data) (textCCSID id))) as Hd.
  { unfold Decode. apply bind_no_panic; [done|]. intros c _.
    destruct c; try done. unfold codecDecode, unicodeDecode. np. }
  revert Hd. unfold wrapUnsupported. repeat case_match; done.
Qed.

(** The embedded tables do not refer to each other in a cycle. *)
Definition tables_ok `{TableFS} : Prop := forall id, no_panic (Lookup id).

Lemma fieldName_no_panic `{TableFS} payload at_ n id :
  tables_ok -> 0 <= at_ -> no_panic (fieldName payload at_ n id).
Proof.
  intros Ht Ha. unfold fieldName. destruct (_ && _) eqn:E; [|done]. bool_facts.
  rewrite slice_ok by lia. cbn [mbind outcome_bind].
  pose proof (decodeTextByCCSID_no_panic (sub payload at_ (at_ + n - at_)) id (Ht _)) as Hd.
  by destruct (decodeTextByCCSID _ _).
Qed.

Lemma seq_Forall_lt (P : nat -> Prop) n : (forall i, (i < n)%nat -> P i) -> Forall P (seq 0 n).
Proof. intros HP. apply Forall_seq. intros j Hj. apply HP. lia. Qed.

Lemma parseExtendedFieldAt_no_panic payload base name :
  0 <= base -> base + 30 <= len payload -> no_panic (parseExtendedFieldAt payload base name).
Proof. intros. unfold parseExtendedFieldAt. np. Qed.
#[local] Hint Extern 4 (no_panic (parseExtendedFieldAt _ _ _)) =>
  apply parseExtendedFieldAt_no_panic; lia : nopanic.
#[local] Hint Extern 4 (no_panic (fieldName _ _ _ _)) =>
  apply fieldName_no_panic; [assumption|lia] : nopanic.

Lemma parse_format_no_panic `{TableFS} payload :
  tables_ok -> no_panic (parseParameterMarkerFormatFromPayload payload).
Proof.
  intros Ht. unfold parseParameterMarkerFormatFromPayload. apply bind_no_panic; [|intros [] ?; done].
  apply forLLCP_no_panic; [done| |done]. intros s cp p. unfold parseParameterMarkerBody. np.
  all: unfold parseOriginalParameterMarkerFormat, parseExtendedParameterMarkerFormat,
    parseSuperExtendedParameterMarkerFormat.
  all: np; bool_facts; apply mapM_no_panic, seq_Forall_lt; intros i Hi;
    unfold parseOriginalField, parseExtendedField, parseSuperExtendedField; np.
Qed.

(** * Properties *)

(** The result-data parser that reads a layout's code point. *)
Definition parseData (p : bytes * Z) : outcome fetchBlock :=
  if p.2 =? CodePointParameterMarkerDataExt then parseResultDataPayload p.1
  else parseOriginalResultDataPayload p.1.

(** C18: whichever layout the driver picks for a batch, a reader of the same
    layout gets back every null flag and every value byte of every row: the
    16-bit layout is only used when all its sizes fit. *)
Theorem batch_data_roundtrip (format : option parameterMarkerFormat)
    (rows : list (list parameterBinding)) (payload : bytes) (cp : Z) :
  buildBlockParameterMarkerData format rows = Ret (payload, cp) ->
  len rows < 2 ^ 32 -> len (concat (raw <$> concat rows)) <= maxAlloc ->
  sumBindingLengths (hd [] rows) < 2 ^ 32 ->
  parseData (payload, cp) =
    Ret (mkBlock (len rows) (len (hd [] rows)) 2 (sumBindingLengths (hd [] rows))
           (isNull <$> concat rows) (concat (raw <$> concat rows)) false false).
Proof.
  destruct rows as [|first rows']; [done|]. cbn [hd]. set (rows := first :: rows').
  intros Hb Hn Hmax Hsum. unfold buildBlockParameterMarkerData in Hb. fold rows in Hb.
  cbv zeta in Hb. apply ensure_Ret in Hb as [Hshape%forallb_sameShape Hb].
  apply ensure_Ret in Hb as [Hc%Z.leb_le Hb].
  pose proof (len_nonneg first). pose proof (len_nonneg rows).
  assert (0 <= sumBindingLengths first) by apply len_nonneg.
  assert (len rows * sumBindingLengths first <= maxAlloc) as Hsize.
  { clear -Hmax Hshape. etrans; [|exact Hmax]. clear Hmax.
    induction Hshape as [|row rs [_ Hrow] _ IH]; [done|]. cbn [concat].
    rewrite fmap_app, concat_app, len_app, len_cons. unfold sumBindingLengths in *. lia. }
  unfold bindingRowBytes in Hb.
  destruct (parameterMarkerPayloadLayout format first) eqn:Hlay;
    apply Ret_inj, pair_equal_spec in Hb as [<- <-];
    unfold parseData; cbn [fst snd]; cbv beta iota zeta.
  - rewrite Z.eqb_refl. unfold parseResultDataPayload. cbv zeta.
    match goal with |- context [newSliceReader ?d] => pose proof (at_rest_new d) as Hr end.
    do 6 rd. rewrite !Z.mod_small by lia.
    apply parse_block_data; try done; unfold len in *; lia.
  - unfold parseOriginalResultDataPayload. cbv zeta.
    apply original_layout_fits in Hlay as [? ?].
    match goal with |- context [newSliceReader ?d] => pose proof (at_rest_new d) as Hr end.
    cbn [Z.eqb CodePointParameterMarkerData CodePointParameterMarkerDataExt].
    do 5 rd. rewrite !Z.mod_small by lia.
    apply parse_block_data; try done; unfold len in *; lia.
Qed.

Definition sampleField (t l : Z) : parameterMarkerField := mkField [] t l 0 0 37 0xF0 (-1) (-1).

Definition sampleRows : list (list parameterBinding) :=
  [[mkBinding (sampleField 500 2) [1; 2] false None None; mkBinding (sampleField 453 1) [64] true None None];
   [mkBinding (sampleField 500 2) [3; 4] true None None; mkBinding (sampleField 453 1) [65] false None None]].

Definition samplePayload : bytes :=
  Eval vm_compute in
    match buildBlockParameterMarkerData None sampleRows with Ret (p, _) => p | _ => [] end.

Lemma batch_data_roundtrip_witness :
  parseData (samplePayload, CodePointParameterMarkerDataExt) =
    Ret (mkBlock 2 2 2 3 [false; true; true; false] [1; 2; 64; 3; 4; 65] false false).
Proof.
  apply (batch_data_roundtrip None sampleRows); [reflexivity | reflexivity | vm_compute; discriminate | reflexivity].
Defined.

(** A block of one row is the request a single execute sends: both
    builders produce the same payload under the same code point. *)
Theorem single_row_block_is_execute (format : option parameterMarkerFormat)
    (bindings : list parameterBinding) :
  len bindings <= 0xFFFF ->
  buildBlockParameterMarkerData format [bindings] =
    Ret (buildParameterMarkerDataPayload format bindings).
Proof.
  intros Hl. unfold buildBlockParameterMarkerData, ensure.
  assert (forallb (sameBindingShape bindings) [bindings] = true) as ->.
  { cbn. rewrite andb_true_r. unfold sameBindingShape. rewrite Z.eqb_refl. cbn.
    induction bindings as [|b bs IH]; [done|]. cbn [zip zip_with forallb fst snd]. rewrite Z.eqb_refl.
    apply IH. rewrite len_cons in Hl. lia. }
  rewrite (proj2 (Z.leb_le _ _)) by done. cbn [concat]. rewrite !app_nil_r.
  unfold buildParameterMarkerDataPayload, bindingRowBytes. change (len [bindings]) with 1.
  by destruct (parameterMarkerPayloadLayout format bindings).
Qed.

Lemma single_row_block_is_execute_witness :
  buildBlockParameterMarkerData None [hd [] sampleRows] =
    Ret (buildParameterMarkerDataPayload None (hd [] sampleRows)).
Proof. apply (single_row_block_is_execute None (hd [] sampleRows)). vm_compute. discriminate. Defined.

(** The integer fields are in the range of their wire representation. *)
Definition field_ok (f : parameterMarkerField) : Prop :=
  - 2 ^ 15 <= SQLType f < 2 ^ 15 /\ - 2 ^ 15 <= Scale f < 2 ^ 15 /\
  - 2 ^ 15 <= Precision f < 2 ^ 15 /\ 0 <= CCSID f < 2 ^ 16 /\ 0 <= ParameterType f < 2 ^ 8.

#[export] Instance field_ok_dec f : Decision (field_ok f).
Proof. unfold field_ok. apply _. Defined.

(** What a descriptor says about a binding, by layout. *)
Definition describedExtended (b : parameterBinding) : parameterMarkerField :=
  let f := field b in
  mkField [] (SQLType f) (len (raw b)) (Scale f) (Precision f) (CCSID f) (ParameterType f)
    (u32 (LOBLocator f)) (u32 (LOBMaxSize f)).
Definition describedOriginal (b : parameterBinding) : parameterMarkerField :=
  let f := field b in
  mkField [] (SQLType f) (i16 (len (raw b))) (Scale f) (Precision f) (CCSID f) (ParameterType f) (-1) (-1).
Definition described (format : option parameterMarkerFormat) (bindings : list parameterBinding) :=
  if parameterMarkerPayloadLayout format bindings then describedExtended <$> bindings
  else describedOriginal <$> bindings.

Lemma i16_mod v : - 2 ^ 15 <= v < 2 ^ 15 -> i16 (v mod 2 ^ 16) = v.
Proof. intros. change (v mod 2 ^ 16) with (wrapu 16 v). by rewrite wraps_wrapu, wraps_id. Qed.

Lemma i16_mod' v : i16 (v mod 2 ^ 16) = i16 v.
Proof. change (v mod 2 ^ 16) with (wrapu 16 v). by rewrite wraps_wrapu. Qed.

Lemma len_extendedFieldBlock b : len (extendedFieldBlock b) = 64.
Proof. unfold extendedFieldBlock. len_lia. Qed.
Lemma len_originalFieldBlock b : len (originalFieldBlock b) = 54.
Proof. unfold originalFieldBlock. len_lia. Qed.

Lemma parseExtendedField_block `{TableFS} hd bindings i b :
  bindings !! i = Some b -> len hd = 16 -> field_ok (field b) -> len (raw b) < 2 ^ 32 ->
  parseExtendedField (hd ++ concat (extendedFieldBlock <$> bindings)) i = Ret (describedExtended b).
Proof.
  intros Hi Hh (? & ? & ? & ? & ?) Hl. pose proof (len_nonneg (raw b)).
  assert (forall n off, 0 <= n -> 0 <= off -> off + n <= 64 ->
    uint_at n (hd ++ concat (extendedFieldBlock <$> bindings)) (16 + Z.of_nat i * 64 + off) =
    uint_at n (extendedFieldBlock b) off) as Hread.
  { intros. rewrite <-Hh at 1. apply (uint_at_chunk n); [|by rewrite list_lookup_fmap, Hi|lia..].
    apply Forall_fmap, Forall_true. intros. apply len_extendedFieldBlock. }
  unfold parseExtendedField, parseExtendedFieldAt. cbv zeta. rewrite !Hread by lia.
  unfold extendedFieldBlock. read_be. change (0 mod _) with 0. unfold fieldName. cbn [Z.ltb Z.compare andb].
  cbn [mbind outcome_bind].
  change (8 * 2) with 16. change (8 * 1) with 8. change (8 * 4) with 32.
  rewrite !i16_mod by done. rewrite (Z.mod_small (len (raw b))), (Z.mod_small (CCSID _)), (Z.mod_small (ParameterType _)) by lia.
  done.
Qed.

Lemma parseOriginalField_block `{TableFS} hd bindings i b :
  bindings !! i = Some b -> len hd = 8 -> field_ok (field b) ->
  parseOriginalField (hd ++ concat (originalFieldBlock <$> bindings)) i = Ret (describedOriginal b).
Proof.
  intros Hi Hh (? & ? & ? & ? & ?).
  assert (forall n off, 0 <= n -> 0 <= off -> off + n <= 54 ->
    uint_at n (hd ++ concat (originalFieldBlock <$> bindings)) (8 + Z.of_nat i * 54 + off) =
    uint_at n (originalFieldBlock b) off) as Hread.
  { intros. rewrite <-Hh at 1. apply (uint_at_chunk n); [|by rewrite list_lookup_fmap, Hi|lia..].
    apply Forall_fmap, Forall_true. intros. apply len_originalFieldBlock. }
  unfold parseOriginalField. cbv zeta. rewrite !Hread by lia.
  assert (forall off, 13 <= off -> off + 2 <= 54 -> uint_at 2 (originalFieldBlock b) off = Ret 0) as Hzero.
  { intros off ? ?. unfold originalFieldBlock. do 7 (rewrite uint_at_be_skip by lia).
    rewrite uint_at_ok by len_lia. f_equal. change (be 41 0) with (replicate 41 0).
    unfold sub. rewrite drop_replicate, take_replicate.
    replace (Z.to_nat 2 `min` _)%nat with 2%nat by lia. done. }
  rewrite !Hzero by lia. unfold originalFieldBlock. read_be. unfold fieldName. cbn [Z.ltb Z.compare andb].
  cbn [mbind outcome_bind].
  change (8 * 2) with 16. change (8 * 1) with 8.
  rewrite (i16_mod' (len (raw b))), !i16_mod by done.
  by rewrite (Z.mod_small (CCSID _)), (Z.mod_small (ParameterType _)) by lia.
Qed.

(** [mapM] over the record numbers, when each record is known. *)
Lemma mapM_records {A B} (f : nat -> outcome B) (g : A -> B) (l : list A) n :
  n = length l -> (forall i x, l !! i = Some x -> f i = Ret (g x)) -> mapM f (seq 0 n) = Ret (g <$> l).
Proof.
  intros -> Hf. apply mapM_Ret. apply Forall2_same_length_lookup_2; [by rewrite length_seq, length_fmap|].
  intros i x y [-> _]%lookup_seq Hy. rewrite list_lookup_fmap in Hy.
  destruct (l !! i) as [z|] eqn:E; [|done]. injection Hy as <-. by apply Hf.
Qed.

Lemma parseExtended_descriptor `{TableFS} bindings :
  (forall b, b ∈ bindings -> field_ok (field b)) -> (forall b, b ∈ bindings -> len (raw b) < 2 ^ 32) ->
  len bindings < 2 ^ 32 -> 0 <= sumBindingLengths bindings < 2 ^ 32 ->
  parseExtendedParameterMarkerFormat
    (be32 1 ++ be32 (len bindings) ++ be32 0 ++ be32 (sumBindingLengths bindings) ++
     concat (extendedFieldBlock <$> bindings)) =
  Ret (Some (mkFormat 0 (sumBindingLengths bindings) (describedExtended <$> bindings))).
Proof.
  intros Hok Hraw Hn Hsum. pose proof (len_nonneg bindings).
  assert (len (concat (extendedFieldBlock <$> bindings)) = len bindings * 64) as Hl.
  { rewrite (len_concat_chunks _ 64), len_fmap; [done|].
    apply Forall_fmap, Forall_true. intros. apply len_extendedFieldBlock. }
  unfold parseExtendedParameterMarkerFormat.
  match goal with |- context [len ?p =? 0] => assert (len p = 16 + len bindings * 64) as -> by len_lia end.
  rewrite (proj2 (Z.eqb_neq _ 0)), (proj2 (Z.ltb_ge _ 16)) by lia. read_be.
  change (8 * 4) with 32. rewrite !Z.mod_small by lia.
  destruct (Z.eqb_spec (len bindings) 0) as [E|_].
  { assert (bindings = []) as -> by (destruct bindings; [done|rewrite len_cons in E; len_lia]). done. }
  rewrite (proj2 (Z.ltb_ge _ _)) by lia.
  rewrite (mapM_records _ describedExtended bindings); [done|unfold len; lia|].
  intros i b Hi. pose proof (list_elem_of_lookup_2 _ _ _ Hi).
  rewrite 3!app_assoc.
  apply parseExtendedField_block; auto.
Qed.

Lemma parseOriginal_descriptor `{TableFS} bindings :
  (forall b, b ∈ bindings -> field_ok (field b)) ->
  len bindings < 2 ^ 16 -> 0 <= sumBindingLengths bindings < 2 ^ 16 ->
  parseOriginalParameterMarkerFormat
    (be32 1 ++ be16 (len bindings) ++ be16 (sumBindingLengths bindings) ++
     concat (originalFieldBlock <$> bindings)) =
  Ret (Some (mkFormat 0 (sumBindingLengths bindings) (describedOriginal <$> bindings))).
Proof.
  intros Hok Hn Hsum. pose proof (len_nonneg bindings).
  assert (len (concat (originalFieldBlock <$> bindings)) = len bindings * 54) as Hl.
  { rewrite (len_concat_chunks _ 54), len_fmap; [done|].
    apply Forall_fmap, Forall_true. intros. apply len_originalFieldBlock. }
  unfold parseOriginalParameterMarkerFormat.
  match goal with |- context [len ?p =? 0] => assert (len p = 8 + len bindings * 54) as -> by len_lia end.
  rewrite (proj2 (Z.eqb_neq _ 0)), (proj2 (Z.ltb_ge _ 8)) by lia. read_be.
  change (8 * 2) with 16. rewrite !Z.mod_small by lia.
  destruct (Z.eqb_spec (len bindings) 0) as [E|_].
  { assert (bindings = []) as -> by (destruct bindings; [done|rewrite len_cons in E; len_lia]). done. }
  rewrite (proj2 (Z.ltb_ge _ _)) by lia.
  rewrite (mapM_records _ describedOriginal bindings); [done|unfold len; lia|].
  intros i b Hi. pose proof (list_elem_of_lookup_2 _ _ _ Hi).
  rewrite 2!app_assoc.
  apply parseOriginalField_block; auto.
Qed.

(** The descriptor the driver sends for a set of bindings says what the
    bindings are: read back with the driver's own parser of marker formats,
    it has one field per binding with its type, length, scale, precision,
    CCSID and mode, and the record size is the total length of the values. *)
Theorem descriptor_roundtrip `{TableFS} (format : option parameterMarkerFormat)
    (bindings : list parameterBinding) :
  Forall (fun b => field_ok (field b)) bindings ->
  64 * len bindings + 22 < 2 ^ 32 -> sumBindingLengths bindings < 2 ^ 32 ->
  let '(payload, cp) := buildParameterMarkerFormatPayload format bindings in
  parseParameterMarkerFormatFromPayload (AppendLLCP [] cp payload) =
    Ret (Some (mkFormat cp (sumBindingLengths bindings) (described format bindings))).
Proof.
  intros Hok Hn Hsum. unfold buildParameterMarkerFormatPayload, described.
  assert (0 <= sumBindingLengths bindings) by apply len_nonneg. pose proof (len_nonneg bindings).
  assert (forall b, b ∈ bindings -> len (raw b) < 2 ^ 32) as Hraw.
  { intros b Hb. apply list_elem_of_split in Hb as (l1 & l2 & ->). unfold sumBindingLengths in Hsum.
    rewrite fmap_app, fmap_cons, concat_app in Hsum. cbn [concat] in Hsum. len_lia. }
  rewrite Forall_forall in Hok.
  assert (forall (g : parameterBinding -> bytes) w, (forall b, len (g b) = w) ->
    len (concat (g <$> bindings)) = len bindings * w) as Hblocks.
  { intros g w Hg. rewrite (len_concat_chunks _ w), len_fmap; [done|]. by apply Forall_fmap, Forall_true. }
  pose proof (Hblocks _ _ len_extendedFieldBlock). pose proof (Hblocks _ _ len_originalFieldBlock).
  destruct (parameterMarkerPayloadLayout format bindings) eqn:Hlay.
  all: unfold parseParameterMarkerFormatFromPayload;
    rewrite forLLCP_one by (unfold llcp_ok; cbn [fst snd]; split; [vm_compute; intuition discriminate | len_lia]);
    cbn [foldLLCP]; unfold parseParameterMarkerBody.
  - change (CodePointExtendedParameterMarker =? CodePointParameterMarkerFormat) with false.
    rewrite Z.eqb_refl. cbv iota. rewrite parseExtended_descriptor by first [assumption | lia]. done.
  - rewrite Z.eqb_refl. cbv iota. apply original_layout_fits in Hlay as [? ?].
    rewrite parseOriginal_descriptor by first [assumption | lia]. done.
Qed.

Lemma descriptor_roundtrip_witness :
  let H : TableFS := fun _ => NoFile in
  parseParameterMarkerFormatFromPayload
    (AppendLLCP [] CodePointExtendedParameterMarker
       (buildParameterMarkerFormatPayload None (hd [] sampleRows)).1) =
  Ret (Some (mkFormat CodePointExtendedParameterMarker 3
    [mkField [] 500 2 0 0 37 0xF0 (2 ^ 32 - 1) (2 ^ 32 - 1);
     mkField [] 453 1 0 0 37 0xF0 (2 ^ 32 - 1) (2 ^ 32 - 1)])).
Proof.
  apply (@descriptor_roundtrip (fun _ => NoFile) None (hd [] sampleRows));
    [apply (bool_decide_unpack _); vm_compute; exact I | reflexivity | reflexivity].
Defined.
