(* ===== verification/Request.v ===== *)
(** The requests the driver sends: sql.go, tx.go, package.go, package_cache.go,
    call_result_sets.go, sqlerror_text.go and the cancel, library-list and
    end-job requests of dbconn.go.

    Every builder assembles a body of LL/CP parameters while it counts them,
    and puts a header with the total length and a template with the count in
    front.  [well_formed] is the contract they share, which Requests proves for all
    the requests of the driver. *)
From Stdlib Require Import Strings.String.
From stdpp Require Import base list numbers strings gmap.
From S2P Require Import Prelude GoStrings Utf Ccsid Wire Reply Format.
Open Scope Z_scope.

(** ** Constants *)

Definition sqlStatementTypeUnknown : Z := 0.
Definition sqlStatementTypeInsertUpdateDelete : Z := 1.
Definition sqlStatementTypeSelect : Z := 2.
Definition sqlStatementTypeCall : Z := 3.
Definition fetchNext : Z := 0.
Definition fetchFirst : Z := 2.
Definition fetchLast : Z := 3.
Definition fetchBeforeFirst : Z := 4.
Definition fetchAfterLast : Z := 5.
Definition fetchCurrent : Z := 6.
Definition fetchRelative : Z := 7.
Definition fetchDirect : Z := 8.
Definition holdFalse : Z := 0xD5.
Definition holdTrue : Z := 0xE8.
Definition orsSendReplyImmediately : Z := 0x80000000.
Definition orsDataFormat : Z := 0x08000000.
Definition orsResultData : Z := 0x04000000.
Definition orsSQLCA : Z := 0x02000000.
Definition orsParameterMarkerFormat : Z := 0x00800000.
Definition orsReplyRLECompressed : Z := 0x00040000.
Definition orsExtendedColumnDescriptors : Z := 0x00020000.
Definition orsReturnResultSetAttributes : Z := 0x00008000.
Definition orsMessageID : Z := 0x40000000.
Definition orsFirstLevelText : Z := 0x20000000.
Definition orsSecondLevelText : Z := 0x10000000.
Definition functionSendResultsSet : Z := 0x1F00.
Definition CodePointPackageLibrary : Z := 0x3801.
Definition codePointPrepareOption : Z := 0x3808.
Definition defaultPackageCCSID : Z := 13488.
Definition defaultCommitmentControl : Z := 1.

(** ** Statement classification (sql.go) *)

(** Drop leading parentheses and the blanks after each; every round drops a
    byte. *)
Fixpoint stripParens (fuel : nat) (text : bytes) : bytes :=
  match fuel, text with
  | S fuel', 40 :: text' => stripParens fuel' (trimSpace text')
  | _, _ => text
  end.

Definition hasAnyPrefix (text : bytes) (ps : list string) : bool :=
  existsb (fun p => hasPrefix text (lit p)) ps.

Definition classifySQLStatement (sql : bytes) : Z :=
  let text := toUpper (trimSpace sql) in
  let text := stripParens (length text) text in
  if hasAnyPrefix text ["SELECT"; "VALUES"; "WITH"]%string then sqlStatementTypeSelect
  else if hasAnyPrefix text ["INSERT"; "UPDATE"; "DELETE"; "MERGE"]%string then
    sqlStatementTypeInsertUpdateDelete
  else if hasAnyPrefix text ["CALL"]%string then sqlStatementTypeCall
  else sqlStatementTypeUnknown.

Definition cursorNameForStatement (statementHandle : Z) : bytes :=
  lit "CRSR" ++ padHex 8 (u32 statementHandle).

(** ** Attributes *)

Definition appendRequestTemplate (dst : bytes) (bitmap rpbHandle pmHandle parmCount : Z) : bytes :=
  dst ++ be32 bitmap ++ be32 0 ++ be16 1 ++ be16 1 ++ be16 0 ++
  be16 rpbHandle ++ be16 pmHandle ++ be16 parmCount.

Definition appendByteAttribute (dst : bytes) (cp value : Z) : bytes :=
  dst ++ be32 7 ++ be16 cp ++ be 1 value.
Definition appendShortAttribute (dst : bytes) (cp value : Z) : bytes :=
  dst ++ be32 8 ++ be16 cp ++ be16 value.
Definition appendIntAttribute (dst : bytes) (cp value : Z) : bytes :=
  dst ++ be32 10 ++ be16 cp ++ be32 value.
Definition appendShortIntAttribute (dst : bytes) (cp value relative : Z) : bytes :=
  dst ++ be32 12 ++ be16 cp ++ be16 value ++ be32 relative.
Definition appendRawAttribute (dst : bytes) (cp : Z) (value : bytes) : bytes :=
  dst ++ be32 (6 + len value) ++ be16 cp ++ value.

Record packageSpec := mkPackage { pkgName : bytes; pkgLibrary : bytes; packaged : bool }.

(** A body under construction: the bytes and the parameter count. *)
Abbreviation body := (bytes * Z)%type.

Section Builders.
Context `{TableFS}.

Definition appendNameAttribute (cp : Z) (name : bytes) : outcome bytes :=
  encoded ← EncodeEBCDIC37 name;
  Ret (be32 (10 + len encoded) ++ be16 cp ++ be16 37 ++ be16 (len encoded) ++ encoded).

Definition appendEBCDIC37FixedAttribute (dst : bytes) (cp : Z) (value : bytes) (size : Z) : outcome bytes :=
  encoded ← EncodeEBCDIC37BlankPad value size;
  Ret (dst ++ be32 (10 + len encoded) ++ be16 cp ++ be16 37 ++ be16 (len encoded) ++ encoded).

Definition appendEBCDIC37StringAttribute (dst : bytes) (cp : Z) (value : bytes) : outcome bytes :=
  encoded ← EncodeEBCDIC37 value;
  Ret (dst ++ be32 (10 + len encoded) ++ be16 cp ++ be16 37 ++ be16 (len encoded) ++ encoded).

Definition appendExtendedSQLTextAttribute (query : bytes) (ccsidValue : Z) : outcome bytes :=
  encoded ← encodeTextBytes query ccsidValue;
  Ret (be32 (12 + len encoded) ++ be16 CodePointExtendedStatementText ++ be16 ccsidValue ++
       be32 (len encoded) ++ encoded).

Fixpoint libraryEntries (indicators : bytes) (libraries : list bytes) : outcome bytes :=
  match indicators, libraries with
  | ind :: indicators', library :: libraries' =>
      indicatorBytes ← EncodeEBCDIC37 [ind];
      encodedLibrary ← EncodeEBCDIC37 library;
      first ← index indicatorBytes 0;
      rest ← libraryEntries indicators' libraries';
      Ret (be 1 first ++ be16 (len encodedLibrary) ++ encodedLibrary ++ rest)
  | [], _ :: _ => Panic
  | _, [] => Ret []
  end.

Definition appendLibraryListAttribute (dst : bytes) (indicators : bytes) (libraries : list bytes)
    : outcome bytes :=
  entries ← libraryEntries indicators libraries;
  let payload := be16 37 ++ be16 (len libraries) ++ entries in
  Ret (dst ++ be32 (6 + len payload) ++ be16 CodePointListOfLibraries ++ payload).

(** *** package.go *)

(** An attribute that fails to encode is left out. *)
Definition appendPrepareAttributes (pkg : option packageSpec) (b : body) : outcome body :=
  match pkg with
  | None => Ret b
  | Some s =>
      if packaged s then
        let '(body, parms) := (appendByteAttribute b.1 codePointPrepareOption 1, b.2 + 1) in
        match appendNameAttribute CodePointPackageName (pkgName s) with
        | Ret attr => Ret (body ++ attr, parms + 1)
        | Fail _ => Ret (body, parms)
        | Panic => Panic
        end
      else
        let body := appendByteAttribute b.1 codePointPrepareOption 0 in
        Ret (appendRawAttribute body CodePointPackageName [], b.2 + 2)
  end.

Definition appendExecuteAttributes (pkg : option packageSpec) (b : body) : outcome body :=
  match pkg with
  | None => Ret b
  | Some s =>
      if negb (packaged s) then Ret b
      else
        match appendNameAttribute CodePointPackageName (pkgName s) with
        | Ret attr => Ret (b.1 ++ attr, b.2 + 1)
        | Fail _ => Ret b
        | Panic => Panic
        end
  end.

Definition appendLibraryAttributes (pkg : option packageSpec) (b : body) : outcome body :=
  match pkg with
  | None => Ret b
  | Some s =>
      match appendNameAttribute CodePointPackageLibrary (pkgLibrary s) with
      | Ret attr => Ret (b.1 ++ attr, b.2 + 1)
      | Fail _ => Ret b
      | Panic => Panic
      end
  end.

(** The common end of the builders: header, template, body. *)
Definition finishRequest (serverID function bitmap rpbHandle pmHandle : Z) (b : body) : bytes :=
  appendRequestTemplate (buildHeader (40 + len b.1) 0 serverID 20 function)
    bitmap rpbHandle pmHandle b.2 ++ b.1.

(** ** sql.go *)

Definition buildCreateRPBRequest (statementHandle : Z) (statementName : bytes)
    (pkg : option packageSpec) : outcome bytes :=
  nameAttr ← appendNameAttribute CodePointPrepareStatementName statementName;
  cursorAttr ← appendNameAttribute CodePointCursorName (cursorNameForStatement statementHandle);
  b ← appendLibraryAttributes pkg (nameAttr ++ cursorAttr, 2);
  Ret (finishRequest DatabaseServerID FunctionCreateRPB 0 statementHandle 0 b).

Definition buildPrepareAndDescribeRequestCCSID (statementHandle : Z) (statementName query : bytes)
    (pkg : option packageSpec) (textCCSID : Z) : outcome bytes :=
  let statementType := classifySQLStatement query in
  nameAttr ← appendNameAttribute CodePointPrepareStatementName statementName;
  let b :=
    if (statementType =? sqlStatementTypeSelect) || (statementType =? sqlStatementTypeCall) then
      (appendByteAttribute (appendShortAttribute nameAttr CodePointStatementType statementType)
         CodePointOpenAttributes 0x80, 3)
    else (nameAttr, 1) in
  b ← appendPrepareAttributes pkg b;
  extendedTextAttr ← appendExtendedSQLTextAttribute query textCCSID;
  let templateBitmap :=
    Z.lor (Z.lor (Z.lor orsSendReplyImmediately orsDataFormat) orsSQLCA) orsParameterMarkerFormat in
  let templateBitmap :=
    if negb (statementType =? sqlStatementTypeCall) then Z.lor templateBitmap orsExtendedColumnDescriptors
    else templateBitmap in
  Ret (finishRequest DatabaseServerID FunctionPrepareDescribe templateBitmap statementHandle 0
         (b.1 ++ extendedTextAttr, b.2 + 1)).

Definition buildPrepareAndDescribeRequest (statementHandle : Z) (statementName query : bytes)
    (pkg : option packageSpec) : outcome bytes :=
  buildPrepareAndDescribeRequestCCSID statementHandle statementName query pkg defaultPackageCCSID.

Definition buildOpenAndDescribeRequest (statementName cursorName : bytes) : outcome bytes :=
  nameAttr ← appendNameAttribute CodePointPrepareStatementName statementName;
  cursorAttr ← appendNameAttribute CodePointCursorName cursorName;
  let body := nameAttr ++ cursorAttr in
  let body := appendByteAttribute body CodePointOpenAttributes 0x80 in
  let body := appendByteAttribute body CodePointVariableFieldCompression 0xE8 in
  let body := appendByteAttribute body CodePointDescribeOption 0xD5 in
  let body := appendShortAttribute body CodePointScrollableCursorFlag 0 in
  let templateBitmap :=
    Z.lor (Z.lor (Z.lor (Z.lor orsSendReplyImmediately orsDataFormat) orsSQLCA)
      orsReturnResultSetAttributes) orsExtendedColumnDescriptors in
  Ret (finishRequest DatabaseServerID FunctionOpenDescribe templateBitmap 0 0 (body, 6)).

(** A relative or direct fetch takes the 8-byte scroll option back off the
    body and appends the 12-byte form. *)
Definition buildFetchRequestForStatement (statementHandle : Z) (cursorName : bytes)
    (fetchBufferSize option relative : Z) : outcome bytes :=
  cursorAttr ← appendNameAttribute CodePointCursorName cursorName;
  let body := appendShortAttribute cursorAttr CodePointFetchScrollOption option in
  body ←
    (if (option =? fetchRelative) || (option =? fetchDirect) then
       body ← slice body 0 (len body - 8);
       Ret (appendShortIntAttribute body CodePointFetchScrollOption option relative)
     else Ret body);
  let body := appendByteAttribute body CodePointVariableFieldCompression 0xE8 in
  let body := appendIntAttribute body 0x3834 fetchBufferSize in
  Ret (finishRequest DatabaseServerID FunctionFetch
         (Z.lor orsSendReplyImmediately orsResultData) statementHandle 0 (body, 4)).

Definition buildFetchRequest (cursorName : bytes) (fetchBufferSize option relative : Z) : outcome bytes :=
  buildFetchRequestForStatement 0 cursorName fetchBufferSize option relative.

Definition buildCloseCursorRequest (cursorName : bytes) (reuseIndicator : Z) : outcome bytes :=
  cursorAttr ← appendNameAttribute CodePointCursorName cursorName;
  let body := appendByteAttribute cursorAttr CodePointReuseIndicator reuseIndicator in
  Ret (finishRequest DatabaseServerID FunctionClose orsSendReplyImmediately 0 0 (body, 2)).

Definition buildCloseResultSetCursorRequest (statementHandle : Z) (cursorName : bytes)
    (reuseIndicator : Z) : outcome bytes :=
  cursorAttr ← appendNameAttribute CodePointCursorName cursorName;
  let body := appendByteAttribute cursorAttr CodePointReuseIndicator reuseIndicator in
  Ret (finishRequest DatabaseServerID FunctionClose orsReplyRLECompressed statementHandle 0 (body, 2)).

Definition buildDeleteRPBRequest (statementHandle : Z) : bytes :=
  appendRequestTemplate (buildHeader 40 0 DatabaseServerID 20 FunctionDeleteRPB)
    (Z.lor orsSendReplyImmediately orsReplyRLECompressed) statementHandle 0 0.

Definition buildTestConnectionRequest : bytes :=
  appendRequestTemplate (buildHeader 40 0 DatabaseServerID 20 FunctionTestConnection)
    orsSendReplyImmediately 0 0 0.

Definition buildExecuteImmediateRequestCCSID (query : bytes) (statementType : Z)
    (pkg : option packageSpec) (textCCSID : Z) : outcome bytes :=
  let b :=
    if statementType =? sqlStatementTypeCall then
      let body := appendShortAttribute [] CodePointStatementType sqlStatementTypeCall in
      let body := appendByteAttribute body CodePointOpenAttributes 0x80 in
      match pkg with
      | None => (appendByteAttribute body CodePointPrepareOption 0, 3)
      | Some _ => (body, 2)
      end
    else ([], 0) in
  b ← appendPrepareAttributes pkg b;
  extendedTextAttr ← appendExtendedSQLTextAttribute query textCCSID;
  Ret (finishRequest DatabaseServerID FunctionExecuteImmediate
         (Z.lor orsSendReplyImmediately orsSQLCA) 0 0 (b.1 ++ extendedTextAttr, b.2 + 1)).

Definition buildExecuteImmediateRequest (query : bytes) (statementType : Z)
    (pkg : option packageSpec) : outcome bytes :=
  buildExecuteImmediateRequestCCSID query statementType pkg defaultPackageCCSID.

Definition buildChangeDescriptorRequest (statementHandle descriptorHandle : Z)
    (format : option parameterMarkerFormat) (bindings : list parameterBinding) : bytes :=
  let '(formatPayload, formatCodePoint) := buildParameterMarkerFormatPayload format bindings in
  let requestFormatCodePoint :=
    if formatCodePoint =? CodePointParameterMarkerFormat then 0x3801
    else if (formatCodePoint =? CodePointExtendedParameterMarker) ||
            (formatCodePoint =? CodePointSuperExtendedParameterMarker) then 0x381E
    else formatCodePoint in
  finishRequest DatabaseServerID FunctionChangeDescriptor (Z.lor orsSendReplyImmediately orsSQLCA)
    statementHandle descriptorHandle (AppendLLCP [] requestFormatCodePoint formatPayload, 1).

Definition buildDeleteDescriptorRequest (statementHandle descriptorHandle : Z) : bytes :=
  appendRequestTemplate (buildHeader 40 0 DatabaseServerID 20 FunctionDeleteDescriptor)
    (Z.lor orsSendReplyImmediately orsSQLCA) statementHandle descriptorHandle 0.

Definition buildExecutePreparedRequest (statementHandle descriptorHandle statementType : Z)
    (format : option parameterMarkerFormat) (bindings : list parameterBinding)
    (pkg : option packageSpec) : outcome bytes :=
  let '(dataPayload, dataCodePoint) := buildParameterMarkerDataPayload format bindings in
  let body := appendShortAttribute [] CodePointStatementType statementType in
  let body := body ++ AppendLLCP [] dataCodePoint dataPayload in
  b ← appendExecuteAttributes pkg (body, 2);
  let templateBitmap := Z.lor orsSendReplyImmediately orsSQLCA in
  let templateBitmap :=
    if (statementType =? sqlStatementTypeCall) && hasOutputBindings bindings then
      Z.lor templateBitmap orsResultData
    else templateBitmap in
  Ret (finishRequest DatabaseServerID FunctionExecute templateBitmap statementHandle descriptorHandle b).

Definition collectLOBWriteRequests (bindings : list parameterBinding) : list lobWriteRequest :=
  omap lobWrite bindings.

Definition buildWriteLOBDataRequest (write : lobWriteRequest) : bytes :=
  let body := appendIntAttribute [] CodePointLOBLocatorHandle (locatorHandle write) in
  let body := appendIntAttribute body CodePointRequestedSize (requestedSize write) in
  let body := appendIntAttribute body CodePointStartOffset 0 in
  let body := appendByteAttribute body CodePointCompressionIndicator 0xF0 in
  let body := AppendLLCP body 0x381D (lobData write) in
  finishRequest DatabaseServerID FunctionWriteLobData (Z.lor orsSendReplyImmediately orsResultData)
    0 0 (body, 5).

Definition buildRetrieveLobDataRequest (locator requestedSize : Z) : bytes :=
  let body := appendIntAttribute [] CodePointLOBLocatorHandle locator in
  let body := appendIntAttribute body CodePointRequestedSize requestedSize in
  let body := appendIntAttribute body CodePointStartOffset 0 in
  let body := appendByteAttribute body CodePointCompressionIndicator 0xF0 in
  let body := appendByteAttribute body 0x3821 0xF1 in
  finishRequest DatabaseServerID FunctionRetrieveLobData (Z.lor orsSendReplyImmediately orsResultData)
    0 0 (body, 5).

Definition buildFreeLobRequest (locator : Z) : bytes :=
  finishRequest DatabaseServerID FunctionFreeLob orsSendReplyImmediately 0 0
    (appendIntAttribute [] CodePointLOBLocatorHandle locator, 1).

Definition buildOpenDescribePreparedRequest (statementHandle descriptorHandle : Z)
    (statementName cursorName : bytes) (format : option parameterMarkerFormat)
    (bindings : list parameterBinding) (scrollable hold : bool) (pkg : option packageSpec)
    : outcome bytes :=
  nameAttr ← appendNameAttribute CodePointPrepareStatementName statementName;
  cursorAttr ← appendNameAttribute CodePointCursorName cursorName;
  b ← appendExecuteAttributes pkg (nameAttr ++ cursorAttr, 2);
  let '(body, parms) := b in
  let '(body, parms) := (appendByteAttribute body CodePointOpenAttributes 0x80, parms + 1) in
  let '(body, parms) := (appendByteAttribute body CodePointVariableFieldCompression 0xE8, parms + 1) in
  let '(body, parms) := (appendByteAttribute body CodePointDescribeOption 0xD5, parms + 1) in
  let '(body, parms) :=
    (appendShortAttribute body CodePointScrollableCursorFlag (if scrollable then 2 else 0), parms + 1) in
  let '(body, parms) :=
    if hold then
      (appendByteAttribute (appendByteAttribute body CodePointHoldIndicator holdTrue)
         CodePointResultSetHoldability holdTrue, parms + 2)
    else (body, parms) in
  let '(body, parms) :=
    match bindings with
    | [] => (body, parms)
    | _ =>
        let '(dataPayload, dataCodePoint) := buildParameterMarkerDataPayload format bindings in
        (body ++ AppendLLCP [] dataCodePoint dataPayload, parms + 1)
    end in
  let templateBitmap :=
    Z.lor (Z.lor (Z.lor orsSendReplyImmediately orsDataFormat) orsSQLCA) orsReturnResultSetAttributes in
  Ret (finishRequest DatabaseServerID FunctionOpenDescribe templateBitmap statementHandle
         descriptorHandle (body, parms)).

(** ** batch.go, call_result_sets.go *)

Definition buildBlockExecuteRequest (statementHandle descriptorHandle statementType : Z)
    (format : option parameterMarkerFormat) (rows : list (list parameterBinding))
    (pkg : option packageSpec) : outcome bytes :=
  '(dataPayload, dataCodePoint) ← buildBlockParameterMarkerData format rows;
  let body := appendShortAttribute [] CodePointStatementType statementType in
  let body := body ++ AppendLLCP [] dataCodePoint dataPayload in
  let body := AppendLLCP body CodePointParameterMarkerBlockInd [0; 0] in
  b ← appendExecuteAttributes pkg (body, 3);
  Ret (finishRequest DatabaseServerID FunctionExecute (Z.lor orsSendReplyImmediately orsSQLCA)
         statementHandle descriptorHandle b).

Definition buildExecuteCallNoParamsRequest (statementHandle : Z) (pkg : option packageSpec)
    : outcome bytes :=
  b ← appendExecuteAttributes pkg (appendShortAttribute [] CodePointStatementType sqlStatementTypeCall, 1);
  Ret (finishRequest DatabaseServerID FunctionExecute
         (Z.lor (Z.lor orsSendReplyImmediately orsSQLCA) orsReturnResultSetAttributes)
         statementHandle 0 b).

(** ** tx.go *)

Definition buildCommitRequest : bytes :=
  appendRequestTemplate (buildHeader 40 0 DatabaseServerID 20 FunctionCommit)
    orsSendReplyImmediately 0 0 0.

Definition buildRollbackRequest : bytes :=
  appendRequestTemplate (buildHeader 40 0 DatabaseServerID 20 FunctionRollback)
    orsSendReplyImmediately 0 0 0.

Definition autoCommitIndicator (enabled : bool) : Z := if enabled then 0xE8 else 0xD5.

Definition requestCommitmentControl (autoCommit : bool) (commitmentControl : Z) : Z :=
  if autoCommit then 0
  else if (commitmentControl <? 0) || (4 <? commitmentControl) then defaultCommitmentControl
  else commitmentControl.

Definition buildAutoCommitRequestLevel (enabled : bool) (level : Z) : bytes :=
  let body := appendByteAttribute [] CodePointTrueAutoCommitIndicator (autoCommitIndicator enabled) in
  let body := appendShortAttribute body CodePointCommitmentControlLevel level in
  finishRequest DatabaseServerID FunctionSetAttributes (Z.lor orsSendReplyImmediately 0x01000000)
    0 0 (body, 2).

Definition buildAutoCommitRequest (enabled : bool) (commitmentControl : Z) : bytes :=
  buildAutoCommitRequestLevel enabled (requestCommitmentControl enabled commitmentControl).

(** The only request without a template length. *)
Definition buildEndJobRequest : bytes :=
  buildHeader 40 0 DatabaseServerID 0 FunctionEndJob ++ be32 0 ++ be32 0 ++ be32 0 ++ be32 0 ++ be32 0.

(** ** sqlerror_text.go, package.go, package_cache.go, dbconn.go *)

Definition sqlMessageBitmap (secondLevel : bool) : Z :=
  let bitmap := Z.lor (Z.lor (Z.lor orsSendReplyImmediately orsSQLCA) orsMessageID) orsFirstLevelText in
  if secondLevel then Z.lor bitmap orsSecondLevelText else bitmap.

Definition buildSendResultsSetRequest (rpbHandle bitmap : Z) : bytes :=
  appendRequestTemplate (buildHeader 40 0 DatabaseServerID 20 functionSendResultsSet) bitmap rpbHandle 0 0.

Definition buildCreatePackageRequest (name library : bytes) : outcome bytes :=
  nameAttr ← appendNameAttribute CodePointPackageName name;
  libraryAttr ← appendNameAttribute CodePointPackageLibrary library;
  Ret (finishRequest DatabaseServerID FunctionCreatePackage orsSendReplyImmediately 0 0
         (nameAttr ++ libraryAttr, 2)).

Definition codePointPackageReturnSize : Z := 0x3815.
Definition orsPackageInfo : Z := 0x00100000.

Definition buildReturnPackageRequest (name library : bytes) : outcome bytes :=
  nameAttr ← appendNameAttribute CodePointPackageName name;
  libraryAttr ← appendNameAttribute CodePointPackageLibrary library;
  let body := appendIntAttribute (nameAttr ++ libraryAttr) codePointPackageReturnSize 0 in
  Ret (finishRequest DatabaseServerID FunctionReturnPackage (Z.lor orsSendReplyImmediately orsPackageInfo)
         0 0 (body, 3)).

(** An empty list sends nothing. *)
Definition buildAddLibraryListRequest (indicators : bytes) (libraries : list bytes)
    : outcome (option bytes) :=
  if len libraries =? 0 then Ret None
  else
    body ← appendLibraryListAttribute [] indicators libraries;
    Ret (Some (finishRequest NativeDatabaseServerID FunctionAddLibraryList orsSendReplyImmediately
                 0 0 (body, 1))).

Definition buildCancelRequest (statementHandle : Z) (jobIdentifier : bytes) : outcome bytes :=
  body ← appendEBCDIC37FixedAttribute [] CodePointJobIdentifier jobIdentifier 26;
  Ret (finishRequest DatabaseServerID FunctionCancel orsSendReplyImmediately statementHandle 0 (body, 1)).
End Builders.

(** * Lemmas *)

#[local] Arguments be : simpl never.

(** [encodes body ps]: the body is the framing of the parameters [ps]. *)
Definition encodes (d : bytes) (ps : list (Z * bytes)) : Prop :=
  d = encodeLLCPs ps /\ Forall (fun p => 0 <= p.1 < 2 ^ 16) ps.

Lemma encodeLLCPs_app ps qs : encodeLLCPs (ps ++ qs) = encodeLLCPs ps ++ encodeLLCPs qs.
Proof. unfold encodeLLCPs. by rewrite fmap_app, concat_app. Qed.

Lemma encodeLLCPs_one cp p : encodeLLCPs [(cp, p)] = be32 (len p + 6) ++ be16 cp ++ p.
Proof.
  unfold encodeLLCPs, AppendLLCP. cbn [fmap list_fmap concat fst snd app]. rewrite app_nil_r.
  by rewrite (be_wrapu 4).
Qed.

Lemma encodes_nil : encodes [] [].
Proof. by split. Qed.

Lemma encodes_app d e ps qs : encodes d ps -> encodes e qs -> encodes (d ++ e) (ps ++ qs).
Proof. intros [-> ?] [-> ?]. split; [by rewrite encodeLLCPs_app|by apply Forall_app]. Qed.

Lemma encodes_param cp n p : 0 <= cp < 2 ^ 16 -> n = 6 + len p -> encodes (be32 n ++ be16 cp ++ p) [(cp, p)].
Proof.
  intros ? ->. split; [|by constructor]. by rewrite encodeLLCPs_one, Z.add_comm.
Qed.

Lemma encodes_llcp d cp p ps :
  encodes d ps -> 0 <= cp < 2 ^ 16 -> encodes (AppendLLCP d cp p) (ps ++ [(cp, p)]).
Proof.
  intros Hd Hcp. unfold AppendLLCP. apply encodes_app; [done|]. rewrite (be_wrapu 4).
  apply encodes_param; [done|lia].
Qed.

Lemma encodes_byte d cp v ps :
  encodes d ps -> 0 <= cp < 2 ^ 16 -> encodes (appendByteAttribute d cp v) (ps ++ [(cp, be 1 v)]).
Proof. intros. apply encodes_app; [done|]. by apply encodes_param. Qed.

Lemma encodes_short d cp v ps :
  encodes d ps -> 0 <= cp < 2 ^ 16 -> encodes (appendShortAttribute d cp v) (ps ++ [(cp, be16 v)]).
Proof. intros. apply encodes_app; [done|]. by apply encodes_param. Qed.

Lemma encodes_int d cp v ps :
  encodes d ps -> 0 <= cp < 2 ^ 16 -> encodes (appendIntAttribute d cp v) (ps ++ [(cp, be32 v)]).
Proof. intros. apply encodes_app; [done|]. by apply encodes_param. Qed.

Lemma encodes_shortint d cp v w ps :
  encodes d ps -> 0 <= cp < 2 ^ 16 ->
  encodes (appendShortIntAttribute d cp v w) (ps ++ [(cp, be16 v ++ be32 w)]).
Proof. intros. apply encodes_app; [done|]. by apply encodes_param. Qed.

Lemma encodes_raw d cp v ps :
  encodes d ps -> 0 <= cp < 2 ^ 16 -> encodes (appendRawAttribute d cp v) (ps ++ [(cp, v)]).
Proof. intros. apply encodes_app; [done|]. by apply encodes_param. Qed.

(** The parameter count of an attribute that encodes text. *)
Definition one_param (d : bytes) : Prop := exists cp p, encodes d [(cp, p)].

Lemma one_param_text cp n p :
  0 <= cp < 2 ^ 16 -> n = 6 + len p -> one_param (be32 n ++ be16 cp ++ p).
Proof. intros. exists cp, p. by apply encodes_param. Qed.

Lemma appendNameAttribute_param `{TableFS} cp name attr :
  appendNameAttribute cp name = Ret attr -> 0 <= cp < 2 ^ 16 -> one_param attr.
Proof. unfold appendNameAttribute. intros H' ?. inv_ret. apply one_param_text; [done|len_lia]. Qed.

Lemma appendFixed_param `{TableFS} cp value size attr :
  appendEBCDIC37FixedAttribute [] cp value size = Ret attr -> 0 <= cp < 2 ^ 16 -> one_param attr.
Proof.
  unfold appendEBCDIC37FixedAttribute. intros H' ?. inv_ret. cbn [app].
  apply one_param_text; [done|len_lia].
Qed.

Lemma appendText_param `{TableFS} query id attr :
  appendExtendedSQLTextAttribute query id = Ret attr -> one_param attr.
Proof.
  unfold appendExtendedSQLTextAttribute. intros H'. inv_ret. apply one_param_text; [|len_lia].
  vm_compute; intuition discriminate.
Qed.

Lemma appendLibraryList_param `{TableFS} inds libs attr :
  appendLibraryListAttribute [] inds libs = Ret attr -> one_param attr.
Proof.
  unfold appendLibraryListAttribute. intros H'. inv_ret. cbn [app].
  apply one_param_text; [vm_compute; intuition discriminate|len_lia].
Qed.

(** A body with its parameter count, at most [n]. *)
Definition counted (n : Z) (b : bytes * Z) : Prop :=
  exists ps, encodes b.1 ps /\ b.2 = len ps /\ len ps <= n.

Lemma counted_encodes d k ps : encodes d ps -> k = len ps -> counted k (d, k).
Proof. intros ? ->. exists ps. split_and!; [done|done|lia]. Qed.

Lemma counted_one n d k attr :
  counted n (d, k) -> one_param attr -> counted (n + 1) (d ++ attr, k + 1).
Proof.
  intros (ps & Hd & Hk & Hn) (cp & p & Ha). cbn in *. exists (ps ++ [(cp, p)]). cbn.
  rewrite len_app. split_and!; [by apply encodes_app|len_lia|len_lia].
Qed.

Lemma counted_byte n d k cp v :
  counted n (d, k) -> 0 <= cp < 2 ^ 16 -> counted (n + 1) (appendByteAttribute d cp v, k + 1).
Proof. intros. eapply counted_one; [done|]. by apply one_param_text. Qed.

Lemma counted_short n d k cp v :
  counted n (d, k) -> 0 <= cp < 2 ^ 16 -> counted (n + 1) (appendShortAttribute d cp v, k + 1).
Proof. intros. eapply counted_one; [done|]. by apply one_param_text. Qed.

Lemma counted_llcp n d k cp v :
  counted n (d, k) -> 0 <= cp < 2 ^ 16 -> counted (n + 1) (d ++ AppendLLCP [] cp v, k + 1).
Proof.
  intros. eapply counted_one; [done|]. exists cp, v. apply (encodes_llcp [] cp v []); [apply encodes_nil|done].
Qed.

Lemma counted_weaken n m b : counted n b -> n <= m -> counted m b.
Proof. intros (ps & ? & ? & ?) ?. exists ps. split_and!; [done|done|lia]. Qed.

Lemma appendPrepareAttributes_counted `{TableFS} pkg n b b' :
  appendPrepareAttributes pkg b = Ret b' -> counted n b -> counted (n + 2) b'.
Proof.
  unfold appendPrepareAttributes. destruct b as [d k]. intros H' Hb. cbn [fst snd] in H'.
  repeat case_match; inv_ret.
  - replace (n + 2) with (n + 1 + 1) by lia. eapply counted_one.
    + apply counted_byte; [done|vm_compute; intuition discriminate].
    + eapply appendNameAttribute_param; [done|vm_compute; intuition discriminate].
  - eapply counted_weaken; [apply counted_byte; [done|vm_compute; intuition discriminate]|lia].
  - replace (n + 2) with (n + 1 + 1) by lia. replace (k + 2) with (k + 1 + 1) by lia.
    eapply (counted_one _ (appendByteAttribute d codePointPrepareOption 0)).
    + apply counted_byte; [done|vm_compute; intuition discriminate].
    + by apply one_param_text; [vm_compute; intuition discriminate|].
  - eapply counted_weaken; [done|lia].
Qed.

Lemma appendExecuteAttributes_counted `{TableFS} pkg n b b' :
  appendExecuteAttributes pkg b = Ret b' -> counted n b -> counted (n + 1) b'.
Proof.
  unfold appendExecuteAttributes. destruct b as [d k]. intros H' Hb. cbn [fst snd] in H'.
  repeat case_match; inv_ret; try (eapply counted_weaken; [done|lia]).
  eapply counted_one; [done|]. eapply appendNameAttribute_param; [done|vm_compute; intuition discriminate].
Qed.

Lemma appendLibraryAttributes_counted `{TableFS} pkg n b b' :
  appendLibraryAttributes pkg b = Ret b' -> counted n b -> counted (n + 1) b'.
Proof.
  unfold appendLibraryAttributes. destruct b as [d k]. intros H' Hb. cbn [fst snd] in H'.
  repeat case_match; inv_ret; try (eapply counted_weaken; [done|lia]).
  eapply counted_one; [done|]. eapply appendNameAttribute_param; [done|vm_compute; intuition discriminate].
Qed.

Lemma encodes_llcp_ok ps :
  Forall (fun p => 0 <= p.1 < 2 ^ 16) ps -> len (encodeLLCPs ps) < 2 ^ 32 -> Forall llcp_ok ps.
Proof.
  induction 1 as [|[cp p] ps Hp Hps IH]; [done|].
  change (encodeLLCPs ((cp, p) :: ps)) with (encodeLLCPs ([(cp, p)] ++ ps)).
  rewrite encodeLLCPs_app, encodeLLCPs_one. intros Hl. constructor.
  - split; [done|]. cbn. len_lia.
  - apply IH. len_lia.
Qed.

(** A packet that the server can take apart: its header carries its length,
    and its template the number of parameters that its body consists of. *)
Definition well_formed (serverID function : Z) (packet : bytes) : Prop :=
  ParseHeader packet = Ret (mkHeader (len packet) 0 serverID 0 0 20 function) /\
  exists ps, drop 40 packet = encodeLLCPs ps /\ Forall llcp_ok ps /\ u16_at packet 38 = Ret (len ps).

Lemma finishRequest_ok serverID function bitmap rpb pm n b :
  counted n b -> n < 2 ^ 16 -> 0 <= serverID < 2 ^ 16 -> 0 <= function < 2 ^ 16 ->
  len (finishRequest serverID function bitmap rpb pm b) < 2 ^ 32 ->
  well_formed serverID function (finishRequest serverID function bitmap rpb pm b).
Proof.
  intros (ps & [Hd Hps] & Hk & Hn) ? ? ? Hl. destruct b as [d k]. cbn [fst snd] in *. subst k.
  unfold well_formed, finishRequest, appendRequestTemplate in *. cbn [fst snd] in *.
  set (tmpl := be32 bitmap ++ be32 0 ++ be16 1 ++ be16 1 ++ be16 0 ++ be16 rpb ++ be16 pm) in *.
  assert (len tmpl = 18) as Ht by (subst tmpl; len_lia).
  match goal with |- context [ParseHeader ?p] => assert (p =
    buildHeader (40 + len d) 0 serverID 20 function ++ tmpl ++ be16 (len ps) ++ d) as E
    by (subst tmpl; by rewrite <-!app_assoc) end.
  rewrite E in *. clear E. rewrite buildHeader_MarshalBinary in *.
  assert (len (MarshalBinary (mkHeader (40 + len d) 0 serverID 0 0 20 function) ++ tmpl ++ be16 (len ps) ++ d)
          = 40 + len d) as El by len_lia.
  pose proof (len_nonneg ps). pose proof (len_nonneg d). rewrite El in *. split.
  - apply ParseHeader_MarshalBinary; [|cbn [Length]; len_lia].
    unfold header_ok. cbn. lia.
  - exists ps. rewrite (app_assoc (MarshalBinary _)), app_assoc. split_and!.
    + rewrite <-Hd. apply drop_app_length'.
      assert (forall l : bytes, len l = 40 -> 40%nat = length l) as Hlen by (unfold len; lia).
      apply Hlen. len_lia.
    + apply encodes_llcp_ok; [done|]. rewrite <-Hd. lia.
    + rewrite <-app_assoc, uint_at_app_r by len_lia.
      rewrite len_app, len_MarshalBinary, Ht. cbn [Z.sub Z.add]. 
      rewrite uint_at_app_l by done. f_equal. apply Z.mod_small. lia.
Qed.

(** A body of attributes with a known number of parameters. *)
Ltac enc_cp :=
  lazymatch goal with
  | |- _ <= _ < _ => vm_compute; intuition discriminate
  | |- _ < _ => vm_compute; reflexivity
  | |- _ <= _ => vm_compute; discriminate
  end.
Ltac enc :=
  repeat first
    [ eassumption
    | eapply encodes_byte; [|enc_cp] | eapply encodes_short; [|enc_cp] | eapply encodes_int; [|enc_cp]
    | eapply encodes_shortint; [|enc_cp] | eapply encodes_raw; [|enc_cp] | eapply encodes_llcp; [|enc_cp]
    | eapply encodes_nil | eapply encodes_app ].

(** Name the single parameter of every encoded text attribute. *)
Ltac name_params :=
  repeat match goal with
  | E : appendNameAttribute _ _ = Ret _ |- _ =>
      apply appendNameAttribute_param in E as (? & ? & ?); [|enc_cp]
  | E : appendExtendedSQLTextAttribute _ _ = Ret _ |- _ => apply appendText_param in E as (? & ? & ?)
  | E : appendLibraryListAttribute [] _ _ = Ret _ |- _ => apply appendLibraryList_param in E as (? & ? & ?)
  | E : appendEBCDIC37FixedAttribute [] _ _ _ = Ret _ |- _ =>
      apply appendFixed_param in E as (? & ? & ?); [|enc_cp]
  end.

Ltac plain_request :=
  eapply finishRequest_ok; [eapply counted_encodes; [enc|reflexivity]|enc_cp|enc_cp|enc_cp|assumption].

(** Close the two goals of a builder with package attributes, given the lemma
    that counts them and the number of parameters before them. *)
Ltac counted_now := name_params; eapply counted_encodes; [enc|reflexivity].
Ltac finish_counted := eapply finishRequest_ok; [eassumption|enc_cp|enc_cp|enc_cp|assumption].

Section WellFormed.
Context `{TableFS}.

Lemma create_rpb_ok h n pkg p :
  buildCreateRPBRequest h n pkg = Ret p -> len p < 2 ^ 32 -> well_formed DatabaseServerID FunctionCreateRPB p.
Proof.
  unfold buildCreateRPBRequest. intros Hb Hl. inv_ret.
  apply (appendLibraryAttributes_counted _ 2) in H2; [finish_counted|counted_now].
Qed.

Lemma prepare_ok h n q pkg id p :
  buildPrepareAndDescribeRequestCCSID h n q pkg id = Ret p -> len p < 2 ^ 32 ->
  well_formed DatabaseServerID FunctionPrepareDescribe p.
Proof.
  unfold buildPrepareAndDescribeRequestCCSID. cbv zeta. intros Hb Hl. inv_ret.
  apply (appendPrepareAttributes_counted _ 3) in H1 as Hc.
  - apply appendText_param in H2. destruct x0 as [d k].
    eapply finishRequest_ok; [eapply counted_one; eassumption|enc_cp|enc_cp|enc_cp|exact Hl].
  - match goal with |- counted _ (if ?b then _ else _) => destruct b end; [counted_now|]. name_params.
    eapply counted_weaken; [eapply counted_encodes; [enc|reflexivity]|enc_cp].
Qed.

Lemma immediate_ok q ty pkg id p :
  buildExecuteImmediateRequestCCSID q ty pkg id = Ret p -> len p < 2 ^ 32 ->
  well_formed DatabaseServerID FunctionExecuteImmediate p.
Proof.
  unfold buildExecuteImmediateRequestCCSID. cbv zeta. intros Hb Hl. inv_ret.
  apply (appendPrepareAttributes_counted _ 3) in H0 as Hc.
  - apply appendText_param in H1. destruct x as [d k].
    eapply finishRequest_ok; [eapply counted_one; eassumption|enc_cp|enc_cp|enc_cp|exact Hl].
  - match goal with |- counted _ (if ?b then _ else _) => destruct b end; [destruct pkg|];
      (eapply counted_weaken; [eapply counted_encodes; [enc|reflexivity]|enc_cp]).
Qed.

Lemma data_code_point format bindings payload cp :
  buildParameterMarkerDataPayload format bindings = (payload, cp) -> 0 <= cp < 2 ^ 16.
Proof. unfold buildParameterMarkerDataPayload. case_match; intros [= <- <-]; enc_cp. Qed.

Lemma block_code_point format rows payload cp :
  buildBlockParameterMarkerData format rows = Ret (payload, cp) -> 0 <= cp < 2 ^ 16.
Proof.
  unfold buildBlockParameterMarkerData. case_match; [done|]. intros Hb. inv_ret.
  case_match; apply Ret_inj in Hb; injection Hb as <- <-; enc_cp.
Qed.

Lemma execute_ok h d ty format bs pkg p :
  buildExecutePreparedRequest h d ty format bs pkg = Ret p -> len p < 2 ^ 32 ->
  well_formed DatabaseServerID FunctionExecute p.
Proof.
  unfold buildExecutePreparedRequest. destruct (buildParameterMarkerDataPayload format bs) eqn:E.
  apply data_code_point in E. intros Hb Hl. inv_ret.
  apply (appendExecuteAttributes_counted _ 2) in H0; [finish_counted|].
  eapply counted_encodes; [eapply encodes_app; [enc|eapply encodes_llcp; [enc|done]]|reflexivity].
Qed.

Lemma block_ok h d ty format rows pkg p :
  buildBlockExecuteRequest h d ty format rows pkg = Ret p -> len p < 2 ^ 32 ->
  well_formed DatabaseServerID FunctionExecute p.
Proof.
  unfold buildBlockExecuteRequest. intros Hb Hl. apply bind_Ret in Hb as ([payload cp] & E & Hb).
  apply block_code_point in E. inv_ret.
  apply (appendExecuteAttributes_counted _ 3) in H0; [finish_counted|].
  eapply counted_encodes; [|shelve].
  eapply encodes_llcp; [eapply encodes_app; [enc|eapply encodes_llcp; [enc|done]]|enc_cp].
  Unshelve. reflexivity.
Qed.

Lemma call_ok h pkg p :
  buildExecuteCallNoParamsRequest h pkg = Ret p -> len p < 2 ^ 32 ->
  well_formed DatabaseServerID FunctionExecute p.
Proof.
  unfold buildExecuteCallNoParamsRequest. intros Hb Hl. inv_ret.
  apply (appendExecuteAttributes_counted _ 1) in H0; [finish_counted|counted_now].
Qed.

Lemma fetch_ok h c size opt rel p :
  buildFetchRequestForStatement h c size opt rel = Ret p -> len p < 2 ^ 32 ->
  well_formed DatabaseServerID FunctionFetch p.
Proof.
  unfold buildFetchRequestForStatement. cbv zeta. intros Hb Hl. inv_ret. name_params.
  assert (exists v, encodes x0 ([(x1, x2)] ++ [(CodePointFetchScrollOption, v)])) as [v Hv].
  { case_match; inv_ret; [|eexists; enc]. unfold appendShortAttribute in *.
    match goal with E : slice _ _ _ = Ret _ |- _ => apply slice_Ret in E as (_ & _ & ->) end.
    rewrite sub_app_l by len_lia. eexists. enc. }
  plain_request.
Qed.

Lemma open_prepared_ok h d n c format bs scrollable hold pkg p :
  buildOpenDescribePreparedRequest h d n c format bs scrollable hold pkg = Ret p -> len p < 2 ^ 32 ->
  well_formed DatabaseServerID FunctionOpenDescribe p.
Proof.
  unfold buildOpenDescribePreparedRequest. intros Hb Hl. inv_ret.
  apply (appendExecuteAttributes_counted _ 2) in H2; [|counted_now].
  destruct x1 as [bd k], (buildParameterMarkerDataPayload format bs) as [payload cp] eqn:E.
  apply data_code_point in E.
  destruct hold; [replace (k + 1 + 1 + 1 + 1 + 2) with (k + 1 + 1 + 1 + 1 + 1 + 1) in * by lia|];
    destruct bs; inv_ret; (eapply finishRequest_ok; [|shelve|enc_cp|enc_cp|exact Hl]);
    repeat lazymatch goal with
    | |- counted _ (appendByteAttribute _ _ _, _) => eapply counted_byte; [|enc_cp]
    | |- counted _ (appendShortAttribute _ _ _, _) => eapply counted_short; [|enc_cp]
    | |- counted _ (_ ++ AppendLLCP _ _ _, _) => eapply counted_llcp; [|assumption]
    | |- counted _ (bd, _) => eassumption
    end.
  Unshelve. all: enc_cp.
Qed.
Lemma format_code_point format bindings payload cp :
  buildParameterMarkerFormatPayload format bindings = (payload, cp) ->
  cp = CodePointExtendedParameterMarker \/ cp = CodePointParameterMarkerFormat.
Proof. unfold buildParameterMarkerFormatPayload. case_match; intros [= <- <-]; auto. Qed.

Lemma change_descriptor_ok h d format bs :
  len (buildChangeDescriptorRequest h d format bs) < 2 ^ 32 ->
  well_formed DatabaseServerID FunctionChangeDescriptor (buildChangeDescriptorRequest h d format bs).
Proof.
  unfold buildChangeDescriptorRequest. destruct (buildParameterMarkerFormatPayload format bs) as [q c] eqn:E.
  intros Hl. eapply finishRequest_ok;
    [eapply counted_encodes; [eapply encodes_llcp; [enc|]|reflexivity]|enc_cp|enc_cp|enc_cp|exact Hl].
  by destruct (format_code_point _ _ _ _ E) as [-> | ->]; enc_cp.
Qed.

(** A request without parameters. *)
Lemma bare_request_ok function bitmap rpb pm :
  0 <= function < 2 ^ 16 ->
  let p := appendRequestTemplate (buildHeader 40 0 DatabaseServerID 20 function) bitmap rpb pm 0 in
  len p < 2 ^ 32 -> well_formed DatabaseServerID function p.
Proof.
  intros ? p Hl. rewrite <-(app_nil_r p) in *.
  apply (finishRequest_ok _ _ _ _ _ 0 ([], 0)); [by exists []|enc_cp|enc_cp|done|exact Hl].
Qed.
End WellFormed.
