(* ===== verification/Decfloat.v ===== *)
(** DECFLOAT: decimal text to and from IEEE 754-2008 decimal64/decimal128 in
    densely packed decimal (decfloat_encode.go and the decoding half of sql.go).

    [big.Int] is [Z]; Go's [int] exponents are 64-bit and wrap, which the model
    keeps ([i64]). *)
From Stdlib Require Import Strings.String.
From stdpp Require Import base list numbers strings.
From S2P Require Import Prelude GoStrings Digits.
Open Scope Z_scope.

(** ** Densely packed decimal (sql.go) *)

Definition decfloatUnpackDeclet (bits : Z) : Z :=
  let combination :=
    if Z.land bits 0xe =? 0xe then Z.lor (Z.shiftr (Z.land bits 0x60) 5) 4
    else if Z.land bits 0x8 =? 0x8 then Z.shiftr (Z.land (Z.lnot bits) 0x6) 1
    else 0 in
  let decoded :=
    match combination with
    | 0 => Z.lor (Z.shiftl (Z.land bits 0x380) 1) (Z.land bits 0x77)
    | 1 => Z.lor (Z.lor (Z.lor (Z.shiftl (Z.land bits 0x80) 1) (Z.land bits 0x71))
             (Z.shiftr (Z.land bits 0x300) 7)) 0x800
    | 2 => Z.lor (Z.lor (Z.lor (Z.shiftl (Z.land bits 0x380) 1) (Z.land bits 0x11))
             (Z.shiftr (Z.land bits 0x60) 4)) 0x80
    | 3 => Z.lor (Z.lor (Z.shiftl (Z.land bits 0x380) 1) (Z.land bits 0x71)) 0x8
    | 4 => Z.lor (Z.lor (Z.lor (Z.shiftl (Z.land bits 0x80) 1) (Z.land bits 0x11))
             (Z.shiftr (Z.land bits 0x300) 7)) 0x880
    | 5 => Z.lor (Z.lor (Z.lor (Z.shiftl (Z.land bits 0x80) 1) (Z.land bits 0x11))
             (Z.shiftr (Z.land bits 0x300) 3)) 0x808
    | 6 => Z.lor (Z.lor (Z.shiftl (Z.land bits 0x380) 1) (Z.land bits 0x11)) 0x88
    | 7 => Z.lor (Z.lor (Z.shiftl (Z.land bits 0x80) 1) (Z.land bits 0x11)) 0x888
    | _ => 0
    end in
  Z.shiftr (Z.land decoded 0xf00) 8 * 100 + Z.shiftr (Z.land decoded 0xf0) 4 * 10 + Z.land decoded 0xf.

(** Three declets to nine digits: the loop over [i = 2, 1, 0]. *)
Definition decfloatBitsToDigits (bits : Z) : Z :=
  foldl (fun d i => d * 1000 + decfloatUnpackDeclet (Z.land (Z.shiftr bits (i * 10)) 0x3ff)) 0 [2; 1; 0].

(** The values of the declets 0 to 1023. *)
Definition unpackedDeclets : list Z :=
  Eval vm_compute in (fun bits => decfloatUnpackDeclet (Z.of_nat bits)) <$> seq 0 1024.

(** The lowest declet that decodes to each value; -1 if there is none. *)
Definition decfloatDecletTable : list Z :=
  Eval vm_compute in
    (fun v => match indexFunc (Z.eqb (Z.of_nat v)) unpackedDeclets with
              | Some bits => Z.of_nat bits
              | None => -1
              end) <$> seq 0 1000.

Definition declet (g : Z) : Z := nth (Z.to_nat g) decfloatDecletTable (-1).

(** ** Formats *)

Definition decfloat16Bias : Z := 398.
Definition decfloat34Bias : Z := 6176.

Record decfloatFormat := mkDecfloatFormat {
  dfSize : Z;
  precision : Z;
  bias : Z;
  qmin : Z;
  qmax : Z;
  expContBits : Z;
}.

Definition decfloat16Format : decfloatFormat :=
  mkDecfloatFormat 8 16 decfloat16Bias (- decfloat16Bias) (767 - decfloat16Bias) 8.
Definition decfloat34Format : decfloatFormat :=
  mkDecfloatFormat 16 34 decfloat34Bias (- decfloat34Bias) (12287 - decfloat34Bias) 12.

Inductive decfloatKind := KindFinite | KindInf | KindNaN | KindSNaN.

Record decfloatValue := mkDecfloat { neg : bool; kind : decfloatKind; coef : Z; exp : Z }.

(** ** Text to value *)

Definition parseDecfloatText (value : bytes) : outcome decfloatValue :=
  let s := trimSpace value in
  if len s =? 0 then Fail (EText "empty DECFLOAT value" [])
  else
    let '(neg, s) :=
      match s with
      | 43 :: s' => (false, s')
      | 45 :: s' => (true, s')
      | _ => (false, s)
      end in
    let low := toLower s in
    if beqb low (lit "inf") || beqb low (lit "infinity") then Ret (mkDecfloat neg KindInf 0 0)
    else if beqb low (lit "nan") then Ret (mkDecfloat neg KindNaN 0 0)
    else if beqb low (lit "snan") then Ret (mkDecfloat neg KindSNaN 0 0)
    else
      '(mant, exp10) ←
        (match indexAny s (lit "eE") with
         | Some idx =>
             match atoi (drop (S idx) s) with
             | Ret e => Ret (take idx s, e)
             | Fail _ => Fail (EText "invalid DECFLOAT exponent" [])
             | Panic => Panic
             end
         | None => Ret (s, 0)
         end);
      let '(intPart, fracPart) :=
        match indexByte mant 46 with
        | Some idx => (take idx mant, drop (S idx) mant)
        | None => (mant, [])
        end in
      if (len intPart =? 0) && (len fracPart =? 0) then Fail (EText "invalid DECFLOAT value" [])
      else if negb (forallb isDigit (intPart ++ fracPart)) then Fail (EText "invalid DECFLOAT value" [])
      else
        let digits := trimLeft (intPart ++ fracPart) (lit "0") in
        let coef := if len digits =? 0 then 0 else digitsVal digits in
        Ret (mkDecfloat neg KindFinite coef (i64 (exp10 - len fracPart))).

(** ** Rounding *)

Definition decfloatPow10 (n : Z) : Z := 10 ^ n.

(** Divide by [10^drop], half to even. *)
Definition decfloatRoundDrop (coef drop : Z) : Z :=
  if drop <=? 0 then coef
  else
    let p := decfloatPow10 drop in
    let q := Z.quot coef p in
    let r := Z.rem coef p in
    if (p <? Z.shiftl r 1) || ((Z.shiftl r 1 =? p) && Z.testbit q 0) then q + 1 else q.

(** [len(coef.String())] *)
Definition digitCount (coef : Z) : Z := len (formatInt coef).

Definition exponentRange (v : decfloatValue) : goerror :=
  EText "DECFLOAT exponent out of range" [coef v; exp v].

(** The first rounding of [encodeDecfloatFinite]: at most [p] digits are left. *)
Definition roundDigits (p c e : Z) : Z * Z :=
  if p <? digitCount c then
    let drop := digitCount c - p in
    let c := decfloatRoundDrop c drop in
    let e := i64 (e + drop) in
    if p <? digitCount c then (decfloatRoundDrop c 1, i64 (e + 1)) else (c, e)
  else (c, e).

(** The first half of [encodeDecfloatFinite]: the coefficient and exponent
    that are stored. *)
Definition decfloatRound (v : decfloatValue) (f : decfloatFormat) : outcome (Z * Z) :=
  let c := coef v in
  let e := exp v in
  if c =? 0 then
    let e := if qmax f <? e then qmax f else e in
    let e := if e <? qmin f then qmin f else e in
    Ret (c, e)
  else
    let '(c, e) := roundDigits (precision f) c e in
    let '(c, e) :=
      if e <? qmin f then
        let drop := i64 (qmin f - e) in
        ((if digitCount c <? drop then 0 else decfloatRoundDrop c drop), qmin f)
      else (c, e) in
    if qmax f <? e then
      let shift := i64 (e - qmax f) in
      if negb (c =? 0) && (precision f <? i64 (digitCount c + shift)) then Fail (exponentRange v)
      else Ret ((if negb (c =? 0) then c * decfloatPow10 shift else c), qmax f)
    else Ret (c, e).

(** ** Packing *)

(** The loop over the digits after the first, three at a time. *)
Fixpoint packDeclets (rest : bytes) (cont : Z) : Z :=
  match rest with
  | a :: b :: c :: rest' =>
      let g := (a - 48) * 100 + (b - 48) * 10 + (c - 48) in
      packDeclets rest' (Z.lor (Z.shiftl cont 10) (declet g))
  | _ => cont
  end.

Definition encodeDecfloatFinite (v : decfloatValue) (f : decfloatFormat) (sign : Z) : outcome (Z * Z) :=
  '(c, e) ← decfloatRound v f;
  let digits := formatInt c in
  if precision f <? len digits then Fail (EText "DECFLOAT coefficient exceeds digits" [precision f])
  else
    let digits := replicate (Z.to_nat (precision f - len digits)) 48 ++ digits in
    let biased := i64 (e + bias f) in
    if biased <? 0 then Fail (exponentRange v)
    else
      let expMSD := Z.shiftr biased (expContBits f) in
      let expCont := Z.land biased (Z.shiftl 1 (expContBits f) - 1) in
      d0 ← index digits 0;
      let coefMSD := d0 - 48 in
      let comb :=
        if coefMSD <? 8 then Z.lor (u64 (Z.shiftl expMSD 3)) coefMSD
        else Z.lor (Z.lor 0x18 (u64 (Z.shiftl expMSD 1))) (coefMSD - 8) in
      let cont := packDeclets (drop 1 digits) 0 in
      let signComb := Z.lor (u64 (Z.shiftl sign 63)) (u64 (Z.shiftl comb 58)) in
      if dfSize f =? 8 then
        Ret (Z.lor (Z.lor signComb (u64 (Z.shiftl expCont 50))) (u64 cont), 0)
      else
        let lo := Z.land cont (2 ^ 64 - 1) in
        let hiCont := u64 (Z.shiftr cont 64) in
        Ret (Z.lor (Z.lor signComb (u64 (Z.shiftl expCont 46))) hiCont, lo).

Definition encodeDecfloat (value : bytes) (size : Z) : outcome bytes :=
  f ← (if size =? 8 then Ret decfloat16Format
       else if size =? 16 then Ret decfloat34Format
       else Fail (EText "unsupported DECFLOAT size" [size]));
  v ← parseDecfloatText value;
  let sign := if neg v then 1 else 0 in
  let signBits := u64 (Z.shiftl sign 63) in
  '(hi, lo) ←
    (match kind v with
     | KindInf => Ret (Z.lor signBits (Z.shiftl 0x1e 58), 0)
     | KindNaN => Ret (Z.lor signBits (Z.shiftl 0x1f 58), 0)
     | KindSNaN => Ret (Z.lor (Z.lor signBits (Z.shiftl 0x1f 58)) 0x0200000000000000, 0)
     | KindFinite => encodeDecfloatFinite v f sign
     end);
  Ret (if size =? 8 then be64 hi else be64 hi ++ be64 lo).

(** ** Decoding (sql.go) *)

Definition formatDecfloatStr (sign : Z) (coefDigits : bytes) (exponent : Z) : bytes :=
  let n := len coefDigits in
  let scale := - exponent in
  let result :=
    if scale <=? 0 then coefDigits ++ replicate (Z.to_nat (- scale)) 48
    else if n <=? scale then lit "0." ++ replicate (Z.to_nat (scale - n)) 48 ++ coefDigits
    else take (Z.to_nat (n - scale)) coefDigits ++ [46] ++ drop (Z.to_nat (n - scale)) coefDigits in
  if (sign <? 0) && negb (beqb result (lit "0")) then 45 :: result else result.

Definition formatDecfloat (sign coef exponent : Z) : bytes :=
  let digits := if coef =? 0 then lit "0" else trimLeft (formatInt coef) (lit "0") in
  formatDecfloatStr sign digits exponent.

(** The special values and the combination field, as both decoders read them
    from the first word: the text, or the exponent's and the coefficient's most
    significant part. *)
Definition decodeSpecial (bits sign combination : Z) : option bytes :=
  if combination =? 0x1f then
    Some (if negb (Z.land bits 0x0200000000000000 =? 0) then
            if sign <? 0 then lit "-SNaN" else lit "SNaN"
          else if sign <? 0 then lit "-NaN" else lit "NaN")
  else if combination =? 0x1e then Some (if sign <? 0 then lit "-Infinity" else lit "Infinity")
  else None.

Definition splitCombination (combination : Z) : Z * Z :=
  if Z.land combination 0x18 =? 0x18 then
    (Z.shiftr (Z.land combination 0x06) 1, 8 + Z.land combination 0x01)
  else (Z.shiftr (Z.land combination 0x18) 3, Z.land combination 0x07).

Definition decodeDecfloat16 (data : bytes) : outcome bytes :=
  ensure (8 <=? len data) (EText "DECFLOAT(16) requires 8 bytes" [len data]) (
    word ← uint_at 8 data 0;
    let bits := i64 word in
    let sign := if negb (Z.land (Z.shiftr bits 63) 1 =? 0) then -1 else 1 in
    let combination := Z.land (Z.shiftr bits 58) 0x1f in
    match decodeSpecial bits sign combination with
    | Some text => Ret text
    | None =>
        let '(exponentMSD, coefficientMSD) := splitCombination combination in
        let exponent := Z.shiftr (Z.land bits 0x03fc000000000000) 50 in
        let exponent := Z.lor exponent (Z.shiftl exponentMSD 8) - decfloat16Bias in
        let coefCont := Z.land bits 0x0003ffffffffffff in
        let coefficientLo := decfloatBitsToDigits (Z.land coefCont 0x3fffffff) in
        let coefficientHi := decfloatBitsToDigits (Z.land (Z.shiftr coefCont 30) 0xfffff) in
        let coefficientHi := coefficientHi + coefficientMSD * 1000000 in
        let coefVal := coefficientHi * 1000000000 + coefficientLo in
        Ret (formatDecfloat sign coefVal exponent)
    end).

Definition decodeDecfloat34 (data : bytes) : outcome bytes :=
  ensure (16 <=? len data) (EText "DECFLOAT(34) requires 16 bytes" [len data]) (
    word0 ← uint_at 8 data 0;
    word1 ← uint_at 8 data 8;
    let hi := i64 word0 in
    let lo := i64 word1 in
    let sign := if negb (Z.land (Z.shiftr hi 63) 1 =? 0) then -1 else 1 in
    let combination := Z.land (Z.shiftr hi 58) 0x1f in
    match decodeSpecial hi sign combination with
    | Some text => Ret text
    | None =>
        let '(exponentMSD, coefficientMSD) := splitCombination combination in
        let exponent := Z.shiftr (Z.land hi 0x03ffc00000000000) 46 in
        let exponent := Z.lor exponent (Z.shiftl exponentMSD 12) - decfloat34Bias in
        let coefLo := decfloatBitsToDigits (Z.land lo 0x3fffffff) in
        let coefMeLo := decfloatBitsToDigits (Z.land (Z.shiftr lo 30) 0x3fffffff) in
        let coefMeHi := decfloatBitsToDigits
          (Z.lor (Z.shiftl (Z.land hi 0x3ffffff) 4) (Z.land (Z.shiftr lo 60) 0xf)) in
        let coefHi := decfloatBitsToDigits (Z.land (Z.shiftr hi 26) 0xfffff) + coefficientMSD * 1000000 in
        let sig := formatInt coefHi ++ padInt 9 coefMeHi ++ padInt 9 coefMeLo ++ padInt 9 coefLo in
        let trimmed := trimLeft sig (lit "0") in
        let trimmed := if len trimmed =? 0 then lit "0" else trimmed in
        Ret (formatDecfloatStr sign trimmed exponent)
    end).

(** * Densely packed decimal *)

Lemma declet_table : forallb (fun g => let d := declet (Z.of_nat g) in
  (0 <=? d) && (d <? 1024) && (decfloatUnpackDeclet d =? Z.of_nat g)) (seq 0 1000) = true.
Proof. vm_compute. reflexivity. Qed.

Lemma declet_spec g : 0 <= g < 1000 ->
  0 <= declet g < 1024 /\ decfloatUnpackDeclet (declet g) = g.
Proof.
  intros Hg. pose proof declet_table as Ht. rewrite List.forallb_forall in Ht.
  specialize (Ht (Z.to_nat g)). rewrite List.in_seq in Ht. rewrite Z2Nat.id in Ht by lia.
  specialize (Ht ltac:(lia)). cbv zeta in Ht. bool_facts. lia.
Qed.

Lemma unpack_table : forallb (fun b => let g := decfloatUnpackDeclet (Z.of_nat b) in
  (0 <=? g) && (g <? 1000)) (seq 0 1024) = true.
Proof. vm_compute. reflexivity. Qed.

Lemma unpack_range b : 0 <= b < 1024 -> 0 <= decfloatUnpackDeclet b < 1000.
Proof.
  intros Hb. pose proof unpack_table as Ht. rewrite List.forallb_forall in Ht.
  specialize (Ht (Z.to_nat b)). rewrite List.in_seq in Ht. rewrite Z2Nat.id in Ht by lia.
  specialize (Ht ltac:(lia)). cbv zeta in Ht. bool_facts. lia.
Qed.

(** [k] declets of a number in base 1000, and back. *)
Fixpoint packVal (k : nat) (n : Z) : Z :=
  match k with
  | O => 0
  | S k' => declet ((n / 1000 ^ Z.of_nat k') mod 1000) * 1024 ^ Z.of_nat k' + packVal k' n
  end.

Fixpoint unpackVal (k : nat) (w : Z) : Z :=
  match k with
  | O => 0
  | S k' =>
      decfloatUnpackDeclet ((w / 1024 ^ Z.of_nat k') mod 1024) * 1000 ^ Z.of_nat k' + unpackVal k' w
  end.

Lemma pow_nat_S b k : b ^ Z.of_nat (S k) = b * b ^ Z.of_nat k.
Proof. rewrite Nat2Z.inj_succ, Z.pow_succ_r by lia. done. Qed.

Lemma mod1000 n : 0 <= n mod 1000 < 1000.
Proof. apply Z.mod_pos_bound. lia. Qed.

Lemma mod1024 n : 0 <= n mod 1024 < 1024.
Proof. apply Z.mod_pos_bound. lia. Qed.

Lemma packVal_range k n : 0 <= packVal k n < 1024 ^ Z.of_nat k.
Proof.
  induction k as [|k IH]; [done|]. cbn [packVal]. rewrite pow_nat_S.
  pose proof (declet_spec _ (mod1000 (n / 1000 ^ Z.of_nat k))) as [? _]. nia.
Qed.

Lemma unpackVal_range k w : 0 <= unpackVal k w < 1000 ^ Z.of_nat k.
Proof.
  induction k as [|k IH]; [done|]. cbn [unpackVal]. rewrite pow_nat_S.
  pose proof (unpack_range ((w / 1024 ^ Z.of_nat k) mod 1024) (mod1024 _)). nia.
Qed.

(** Only the low [k] declets matter. *)
Lemma unpackVal_low k a w : unpackVal k (a * 1024 ^ Z.of_nat k + w) = unpackVal k w.
Proof.
  revert a. induction k as [|k IH]; intros a; [done|]. cbn [unpackVal]. rewrite pow_nat_S.
  replace (a * (1024 * 1024 ^ Z.of_nat k) + w) with ((a * 1024) * 1024 ^ Z.of_nat k + w) by lia.
  rewrite IH. rewrite Z.div_add_l by (apply Z.pow_nonzero; lia).
  by rewrite (Z.add_comm (a * 1024)), Z_mod_plus_full.
Qed.

Lemma unpackVal_mod k w : unpackVal k (w mod 1024 ^ Z.of_nat k) = unpackVal k w.
Proof.
  rewrite (Z.div_mod w (1024 ^ Z.of_nat k)) at 2 by (apply Z.pow_nonzero; lia).
  by rewrite (Z.mul_comm (1024 ^ _)), unpackVal_low.
Qed.

Lemma unpackVal_packVal k n : unpackVal k (packVal k n) = n mod 1000 ^ Z.of_nat k.
Proof.
  induction k as [|k IH]; [by rewrite Z.mod_1_r|].
  cbn [unpackVal packVal]. rewrite unpackVal_low, IH, pow_nat_S.
  pose proof (packVal_range k n). pose proof (declet_spec _ (mod1000 (n / 1000 ^ Z.of_nat k))) as [? E].
  rewrite Z.div_add_l, (Z.div_small (packVal k n)), Z.add_0_r by (try apply Z.pow_nonzero; lia).
  rewrite (Z.mod_small (declet _)), E by done.
  rewrite (Z.mul_comm 1000), (Z.rem_mul_r n (1000 ^ Z.of_nat k) 1000) by (try apply Z.pow_nonzero; lia).
  lia.
Qed.

(** Only the low [k] groups matter. *)
Lemma packVal_mod k n : 0 <= n -> packVal k (n mod 1000 ^ Z.of_nat k) = packVal k n.
Proof.
  assert (forall j m, (j <= k)%nat -> 0 <= m -> packVal j (m mod 1000 ^ Z.of_nat k) = packVal j m) as Hj.
  { intros j m. induction j as [|j IH]; intros Hj Hm; [done|]. cbn [packVal]. rewrite IH by lia. do 3 f_equal.
    replace (Z.of_nat k) with (Z.of_nat j + (1 + (Z.of_nat k - Z.of_nat j - 1))) by lia.
    rewrite !Z.pow_add_r by lia. change (1000 ^ 1) with 1000.
    set (p := 1000 ^ Z.of_nat j). set (q := 1000 ^ (Z.of_nat k - Z.of_nat j - 1)).
    assert (0 < p /\ 0 < q) as [? ?] by (split; apply Z.pow_pos_nonneg; lia).
    rewrite (Z.rem_mul_r m p (1000 * q)) by lia. rewrite Z.add_comm, Z.mul_comm, Z.div_add_l by lia.
    rewrite (Z.div_small (m mod p)), Z.add_0_r by (apply Z.mod_pos_bound; lia).
    rewrite (Z.rem_mul_r (m / p) 1000 q) by lia.
    by rewrite Z.add_comm, (Z.mul_comm 1000), Z.add_comm, Z_mod_plus_full, Z.mod_mod. }
  intros. by apply Hj.
Qed.

Lemma unpackVal_split a b w :
  unpackVal (a + b) w = unpackVal a (w / 1024 ^ Z.of_nat b) * 1000 ^ Z.of_nat b + unpackVal b w.
Proof.
  induction a as [|a IH]; [done|]. cbn [Nat.add unpackVal]. rewrite IH.
  rewrite Z.div_div by (try apply Z.pow_nonzero; lia).
  rewrite <-Z.pow_add_r by lia. rewrite Nat2Z.inj_add, (Z.add_comm (Z.of_nat b)).
  rewrite (Z.pow_add_r 1000) by lia. lia.
Qed.

Lemma lor_shiftl_add a k b : 0 <= k -> 0 <= b < 2 ^ k -> Z.lor (Z.shiftl a k) b = a * 2 ^ k + b.
Proof.
  intros Hk Hb. rewrite Z.shiftl_mul_pow2 by done. rewrite <-Z.lxor_lor, <-Z.add_nocarry_lxor; [done|..];
    apply Z.bits_inj_0; intros i; rewrite Z.land_spec;
    (destruct (Z.lt_ge_cases i k);
      [rewrite Z.mul_pow2_bits_low by done; done|
       rewrite (Z.testbit_eqb b) by lia; rewrite Z.div_small, Z.mod_0_l; [by rewrite andb_false_r|lia|];
       assert (2 ^ k <= 2 ^ i) by (apply Z.pow_le_mono_r; lia); lia]).
Qed.

(** The loop packs a fixed-width digit string declet by declet. *)
Lemma packDeclets_fixed k n acc :
  0 <= n -> packDeclets (fixedDigits (3 * k) n) acc = acc * 1024 ^ Z.of_nat k + packVal k n.
Proof.
  revert acc. induction k as [|k IH]; intros acc Hn; [cbn; lia|].
  replace (3 * S k)%nat with (3 + 3 * k)%nat by lia. rewrite fixedDigits_app.
  set (m := n / 10 ^ Z.of_nat (3 * k)).
  assert (m = n / 1000 ^ Z.of_nat k) as Em.
  { subst m. f_equal. change 1000 with (10 ^ 3). rewrite <-Z.pow_mul_r by lia. f_equal. lia. }
  cbn [fixedDigits app packDeclets].
  replace ((48 + (m / 10 / 10) mod 10 - 48) * 100 + (48 + (m / 10) mod 10 - 48) * 10 + (48 + m mod 10 - 48))
    with (m mod 1000).
  - rewrite IH by done. pose proof (declet_spec _ (mod1000 m)) as [? _].
    rewrite lor_shiftl_add by lia. cbn [packVal]. rewrite <-Em, pow_nat_S. change (2 ^ 10) with 1024. lia.
  - change 1000 with (10 * (10 * 10)). rewrite !Z.rem_mul_r by lia. lia.
Qed.

(** Nine digits from thirty bits. *)
Lemma bitsToDigits_val w : decfloatBitsToDigits w = unpackVal 3 w.
Proof.
  unfold decfloatBitsToDigits. cbn [foldl unpackVal]. rewrite !Z.shiftr_div_pow2 by lia.
  change 0x3ff with (Z.ones 10). rewrite !Z.land_ones by lia.
  change (2 ^ (2 * 10)) with (1024 ^ Z.of_nat 2). change (2 ^ (1 * 10)) with (1024 ^ Z.of_nat 1).
  change (2 ^ (0 * 10)) with (1024 ^ Z.of_nat 0). change (2 ^ 10) with 1024. lia.
Qed.

Lemma bitsToDigits_30 w : decfloatBitsToDigits (w mod 2 ^ 30) = unpackVal 3 w.
Proof. rewrite bitsToDigits_val. apply (unpackVal_mod 3). Qed.

Lemma bitsToDigits_20 w : decfloatBitsToDigits (w mod 2 ^ 20) = unpackVal 2 w.
Proof.
  rewrite bitsToDigits_val. cbn [unpackVal]. pose proof (Z.mod_pos_bound w (2 ^ 20)).
  change (1024 ^ Z.of_nat 2) with (2 ^ 20). rewrite Z.div_small, Z.mod_0_l by lia.
  change (decfloatUnpackDeclet 0) with 0. pose proof (unpackVal_mod 2 w) as E. cbn [unpackVal] in E.
  change (1024 ^ Z.of_nat 2) with (2 ^ 20) in E. lia.
Qed.

(** * Words *)

(** A bit field of a 64-bit word that is held as a signed integer. *)
Lemma word_field n k m : 0 <= n < 2 ^ 64 -> 0 <= k -> 0 <= m -> k + m <= 64 ->
  Z.land (Z.shiftr (i64 n) k) (Z.ones m) = (n / 2 ^ k) mod 2 ^ m.
Proof.
  intros Hn Hk Hm Hkm. rewrite Z.land_ones, Z.shiftr_div_pow2 by done.
  assert (exists c, i64 n = c * 2 ^ (64 - k - m) * 2 ^ m * 2 ^ k + n) as [c ->].
  { assert (2 ^ 64 = 2 ^ (64 - k - m) * 2 ^ m * 2 ^ k) as E by (rewrite <-!Z.pow_add_r by lia; f_equal; lia).
    exists (if n <? 2 ^ 63 then 0 else -1). unfold wraps. change (2 ^ (64 - 1)) with (2 ^ 63).
    destruct (Z.ltb_spec n (2 ^ 63)).
    - rewrite Z.mod_small by lia. lia.
    - replace (n + 2 ^ 63) with (n - 2 ^ 63 + 1 * 2 ^ 64) by lia.
      rewrite Z_mod_plus_full, Z.mod_small by lia. lia. }
  rewrite Z.div_add_l by (apply Z.pow_nonzero; lia).
  by rewrite Z.add_comm, Z_mod_plus_full.
Qed.

Lemma word_masked n k m : 0 <= n < 2 ^ 64 -> 0 <= k -> 0 <= m -> k + m <= 64 ->
  Z.shiftr (Z.land (i64 n) (Z.shiftl (Z.ones m) k)) k = (n / 2 ^ k) mod 2 ^ m.
Proof.
  intros. rewrite Z.shiftr_land, Z.shiftr_shiftl_l, Z.sub_diag, Z.shiftl_0_r by done.
  by apply word_field.
Qed.

(** The first word of a finite number: sign, combination, exponent
    continuation and [w] bits of coefficient. *)
Definition finiteWord (w sign comb ec low : Z) : Z :=
  sign * 2 ^ 63 + comb * 2 ^ 58 + ec * 2 ^ w + low.

Definition combOf (m d : Z) : Z := if d <? 8 then m * 8 + d else 24 + m * 2 + (d - 8).

Definition combCheck (m d : Z) : bool :=
  let c := combOf m d in
  (0 <=? c) && (c <? 30) &&
  ((splitCombination c).1 =? m) && ((splitCombination c).2 =? d) &&
  ((if d <? 8 then Z.lor (u64 (Z.shiftl m 3)) d
    else Z.lor (Z.lor 0x18 (u64 (Z.shiftl m 1))) (d - 8)) =? c).

Lemma combOf_spec m d : 0 <= m <= 2 -> 0 <= d <= 9 ->
  0 <= combOf m d < 30 /\ splitCombination (combOf m d) = (m, d) /\
  (if d <? 8 then Z.lor (u64 (Z.shiftl m 3)) d
   else Z.lor (Z.lor 0x18 (u64 (Z.shiftl m 1))) (d - 8)) = combOf m d.
Proof.
  intros Hm Hd.
  assert (combCheck m d = true) as Hc.
  { assert (m = 0 \/ m = 1 \/ m = 2) as [->|[->| ->]] by lia;
    assert (d = 0 \/ d = 1 \/ d = 2 \/ d = 3 \/ d = 4 \/ d = 5 \/ d = 6 \/ d = 7 \/ d = 8 \/ d = 9) as Hd' by lia;
    repeat destruct Hd' as [->|Hd']; subst; reflexivity. }
  unfold combCheck in Hc. cbv zeta in Hc. bool_facts.
  split_and!; [lia|lia| |done]. destruct (splitCombination _). cbn in *. congruence.
Qed.

Lemma finiteWord_range w sign comb ec low :
  0 <= w <= 58 -> 0 <= sign <= 1 -> 0 <= comb < 32 -> 0 <= ec < 2 ^ (58 - w) -> 0 <= low < 2 ^ w ->
  0 <= ec * 2 ^ w + low < 2 ^ 58 /\ 0 <= finiteWord w sign comb ec low < 2 ^ 64.
Proof.
  intros ? ? ? ? ?. unfold finiteWord.
  assert (2 ^ 58 = 2 ^ (58 - w) * 2 ^ w) as E by (rewrite <-Z.pow_add_r by lia; f_equal; lia).
  assert (0 <= ec * 2 ^ w + low < 2 ^ 58) by nia. lia.
Qed.

Lemma finiteWord_lor w sign comb ec low :
  0 <= w <= 58 -> 0 <= sign <= 1 -> 0 <= comb < 32 -> 0 <= ec < 2 ^ (58 - w) -> 0 <= low < 2 ^ w ->
  Z.lor (Z.lor (Z.lor (u64 (Z.shiftl sign 63)) (u64 (Z.shiftl comb 58))) (u64 (Z.shiftl ec w))) (u64 low)
  = finiteWord w sign comb ec low.
Proof.
  intros. destruct (finiteWord_range w sign comb ec low) as [? ?]; [done..|].
  pose proof (Z.pow_nonneg 2 w). pose proof (Z.pow_pos_nonneg 2 w).
  rewrite !wrapu_id by (rewrite ?Z.shiftl_mul_pow2 by lia; nia).
  rewrite <-!Z.lor_assoc. rewrite (lor_shiftl_add ec) by lia.
  rewrite (lor_shiftl_add comb), (lor_shiftl_add sign) by lia. unfold finiteWord. lia.
Qed.

Lemma finiteWord_fields w sign comb ec low :
  0 <= w <= 58 -> 0 <= sign <= 1 -> 0 <= comb < 32 -> 0 <= ec < 2 ^ (58 - w) -> 0 <= low < 2 ^ w ->
  let bits := i64 (finiteWord w sign comb ec low) in
  Z.land (Z.shiftr bits 63) 1 = sign /\ Z.land (Z.shiftr bits 58) 0x1f = comb /\
  Z.shiftr (Z.land bits (Z.shiftl (Z.ones (58 - w)) w)) w = ec.
Proof.
  intros ? ? ? ? ? bits. destruct (finiteWord_range w sign comb ec low) as [? ?]; [done..|].
  change 1 with (Z.ones 1) at 1. change 0x1f with (Z.ones 5). unfold bits.
  rewrite !word_field, word_masked by lia. unfold finiteWord in *. split_and!.
  - rewrite <-(Z.div_unique _ (2 ^ 63) sign (comb * 2 ^ 58 + ec * 2 ^ w + low)) by lia.
    apply Z.mod_small. lia.
  - rewrite <-(Z.div_unique _ (2 ^ 58) (sign * 32 + comb) (ec * 2 ^ w + low)) by lia.
    rewrite <-(Z.mod_unique _ (2 ^ 5) sign comb); lia.
  - rewrite <-(Z.div_unique _ (2 ^ w) ((sign * 32 + comb) * 2 ^ (58 - w) + ec) low).
    + rewrite <-(Z.mod_unique _ (2 ^ (58 - w)) (sign * 32 + comb) ec); lia.
    + lia.
    + assert (2 ^ 58 = 2 ^ (58 - w) * 2 ^ w) as E by (rewrite <-Z.pow_add_r by lia; f_equal; lia).
      rewrite E. change (2 ^ 63) with (32 * 2 ^ 58). rewrite E. lia.
Qed.

(** ** Packing a coefficient and a biased exponent *)

(** The value that is decoded from a coefficient's parts. *)
Lemma coefficient_parts p c : 0 <= c ->
  c = c / 10 ^ Z.of_nat p * 10 ^ Z.of_nat p + c mod 10 ^ Z.of_nat p.
Proof. intros. pose proof (Z.div_mod c (10 ^ Z.of_nat p) ltac:(apply Z.pow_nonzero; lia)). lia. Qed.

Lemma pad_digits (k : nat) c :
  0 <= c < 10 ^ Z.of_nat (S k) ->
  let digits := replicate (Z.to_nat (Z.of_nat (S k) - len (formatInt c))) 48 ++ formatInt c in
  len (formatInt c) <= Z.of_nat (S k) /\
  index digits 0 = Ret (48 + c / 10 ^ Z.of_nat k) /\ drop 1 digits = fixedDigits k c.
Proof.
  intros Hc digits. assert (formatInt c = formatNat c) as E
    by (unfold formatInt; by rewrite (proj2 (Z.ltb_ge c 0)) by lia).
  assert (digits = fixedDigits (1 + k) c) as ->.
  { subst digits. change (1 + k)%nat with (S k). rewrite E, <-(pad_formatNat (S k) c) by lia.
    f_equal. f_equal. unfold len. lia. }
  rewrite E. split; [apply digits10_le; lia|]. rewrite fixedDigits_app. cbn [fixedDigits app].
  rewrite (Z.mod_small (c / 10 ^ Z.of_nat k)); [done|].
  rewrite pow10_S in Hc. pose proof (pow10_pos (Z.of_nat k)).
  split; [apply Z.div_pos; lia|apply Z.div_lt_upper_bound; lia].
Qed.

Lemma pow10_groups k : 10 ^ Z.of_nat (3 * k) = 1000 ^ Z.of_nat k.
Proof. change 1000 with (10 ^ 3). rewrite <-Z.pow_mul_r by lia. f_equal. lia. Qed.

(** The fields shared by both sizes: [f] has [3 k + 1] digits. *)
Lemma encodeFinite_fields v f sign c e (k : nat) :
  decfloatRound v f = Ret (c, e) -> precision f = Z.of_nat (S (3 * k)) ->
  0 <= c < 10 ^ Z.of_nat (S (3 * k)) ->
  0 <= expContBits f <= 32 -> 0 <= e + bias f < 3 * 2 ^ expContBits f ->
  let b := e + bias f in
  let m := b / 2 ^ expContBits f in
  let d := c / 10 ^ Z.of_nat (3 * k) in
  0 <= m <= 2 /\ 0 <= d <= 9 /\
  encodeDecfloatFinite v f sign =
    let signComb := Z.lor (u64 (Z.shiftl sign 63)) (u64 (Z.shiftl (combOf m d) 58)) in
    let expCont := b mod 2 ^ expContBits f in
    let cont := packVal k c in
    if dfSize f =? 8 then Ret (Z.lor (Z.lor signComb (u64 (Z.shiftl expCont 50))) (u64 cont), 0)
    else Ret (Z.lor (Z.lor signComb (u64 (Z.shiftl expCont 46))) (u64 (Z.shiftr cont 64)),
              Z.land cont (2 ^ 64 - 1)).
Proof.
  intros Hr Hp Hc Hb He b m d.
  pose proof (Z.pow_pos_nonneg 2 (expContBits f)) as Hpow.
  assert (2 ^ expContBits f <= 2 ^ 32) by (apply Z.pow_le_mono_r; lia).
  assert (0 <= m <= 2) as Hm.
  { subst m. split; [apply Z.div_pos; lia|]. cut (b / 2 ^ expContBits f < 3); [lia|].
    apply Z.div_lt_upper_bound; lia. }
  assert (0 <= d <= 9) as Hd.
  { subst d. rewrite pow10_S in Hc. pose proof (pow10_pos (Z.of_nat (3 * k))).
    split; [apply Z.div_pos; lia|]. cut (c / 10 ^ Z.of_nat (3 * k) < 10); [lia|].
    apply Z.div_lt_upper_bound; lia. }
  split_and!; try lia.
  destruct (pad_digits (3 * k) c Hc) as (Hlen & Hi & Hdrop). cbv zeta in Hi, Hdrop.
  unfold encodeDecfloatFinite. rewrite Hr. cbn [mbind outcome_bind].
  rewrite Hp, (proj2 (Z.ltb_ge _ _)) by lia. cbv zeta.
  rewrite (wraps_id 64 (e + bias f)) by lia. fold b. rewrite (proj2 (Z.ltb_ge b 0)) by lia.
  rewrite Hi. cbn [mbind outcome_bind]. rewrite Hdrop, packDeclets_fixed by lia.
  replace (48 + c / 10 ^ Z.of_nat (3 * k) - 48) with d by (subst d; lia).
  rewrite Z.shiftr_div_pow2 by lia. fold m.
  assert (Z.land b (Z.shiftl 1 (expContBits f) - 1) = b mod 2 ^ expContBits f) as ->.
  { by rewrite <-Z.land_ones by lia. }
  destruct (combOf_spec m d Hm Hd) as (_ & _ & ->).
  by rewrite Z.mul_0_l, Z.add_0_l.
Qed.

(** The text a decoder prints for a sign, a coefficient and an exponent. *)
Definition decodedText (sign c e : Z) : bytes :=
  formatDecfloatStr (if negb (sign =? 0) then -1 else 1) (formatNat c) e.

Lemma formatDecfloat_nat sign c e : 0 <= c ->
  formatDecfloat sign c e = formatDecfloatStr sign (formatNat c) e.
Proof.
  intros Hc. unfold formatDecfloat. destruct (Z.eqb_spec c 0) as [->|Hn]; [done|]. f_equal.
  unfold formatInt. rewrite (proj2 (Z.ltb_ge c 0)) by lia. rewrite trimZeros_isZero.
  rewrite dropZeros_formatNat by by apply is_digits_formatNat.
  rewrite digitsVal_formatNat by done. by rewrite (proj2 (Z.eqb_neq c 0)).
Qed.

Lemma decode16_word sign m d ec c :
  0 <= sign <= 1 -> 0 <= m <= 2 -> 0 <= d <= 9 -> 0 <= ec < 2 ^ 8 -> 0 <= c < 10 ^ 15 ->
  decodeDecfloat16 (be64 (finiteWord 50 sign (combOf m d) ec (packVal 5 c))) =
  Ret (decodedText sign (d * 10 ^ 15 + c) (m * 2 ^ 8 + ec - decfloat16Bias)).
Proof.
  intros Hs Hm Hd He Hc. pose proof (packVal_range 5 c) as Hp. change (1024 ^ Z.of_nat 5) with (2 ^ 50) in Hp.
  destruct (combOf_spec m d Hm Hd) as (Hcomb & Hsplit & _).
  destruct (finiteWord_range 50 sign (combOf m d) ec (packVal 5 c)) as [_ Hw]; [lia..|].
  destruct (finiteWord_fields 50 sign (combOf m d) ec (packVal 5 c)) as (E1 & E2 & E3); [lia..|].
  unfold decodeDecfloat16, ensure. rewrite len_be. change (8 <=? Z.of_nat 8) with true.
  rewrite uint_at_be_end by reflexivity. cbn [mbind outcome_bind]. rewrite Z.mod_small by done.
  rewrite E1, E2. unfold decodeSpecial.
  rewrite !(proj2 (Z.eqb_neq (combOf m d) _)) by lia. rewrite Hsplit. cbv beta iota.
  change 0x03fc000000000000 with (Z.shiftl (Z.ones (58 - 50)) 50). rewrite E3.
  rewrite (Z.lor_comm ec), lor_shiftl_add by lia.
  assert (Z.land (i64 (finiteWord 50 sign (combOf m d) ec (packVal 5 c))) 0x0003ffffffffffff = packVal 5 c) as ->.
  { pose proof (word_field _ 0 50 Hw) as E. rewrite Z.shiftr_0_r in E.
    change 0x0003ffffffffffff with (Z.ones 50). rewrite E by lia. rewrite Z.div_1_r. symmetry.
    apply (Z.mod_unique _ _ (sign * 2 ^ 13 + combOf m d * 2 ^ 8 + ec)); [lia|]. unfold finiteWord. lia. }
  change 0x3fffffff with (Z.ones 30). change 0xfffff with (Z.ones 20).
  rewrite !Z.land_ones, Z.shiftr_div_pow2 by lia.
  rewrite bitsToDigits_30, bitsToDigits_20.
  pose proof (unpackVal_split 2 3 (packVal 5 c)) as Esplit. cbn [Nat.add] in Esplit.
  rewrite unpackVal_packVal in Esplit. change (1024 ^ Z.of_nat 3) with (2 ^ 30) in Esplit.
  change (1000 ^ Z.of_nat 5) with (10 ^ 15) in Esplit. rewrite Z.mod_small in Esplit by lia.
  change (1000 ^ Z.of_nat 3) with 1000000000 in Esplit.
  rewrite formatDecfloat_nat by nia. unfold decodedText. do 3 f_equal. lia.
Qed.

(** Printing four groups of digits and dropping the leading zeros. *)
Lemma trimmed_groups a b c d :
  0 <= a -> 0 <= b < 10 ^ 9 -> 0 <= c < 10 ^ 9 -> 0 <= d < 10 ^ 9 ->
  let sig := formatInt a ++ padInt 9 b ++ padInt 9 c ++ padInt 9 d in
  let trimmed := trimLeft sig (lit "0") in
  (if len trimmed =? 0 then lit "0" else trimmed) = formatNat (((a * 10 ^ 9 + b) * 10 ^ 9 + c) * 10 ^ 9 + d).
Proof.
  intros Ha Hb Hc Hd sig trimmed.
  assert (sig = formatNat a ++ fixedDigits 9 b ++ fixedDigits 9 c ++ fixedDigits 9 d) as Es.
  { subst sig. unfold formatInt. rewrite (proj2 (Z.ltb_ge a 0)) by lia. by rewrite !padInt_fixed by (done || lia). }
  assert (is_digits sig) as Hs.
  { rewrite Es, !is_digits_app. auto using is_digits_formatNat, is_digits_fixed. }
  assert (digitsVal sig = ((a * 10 ^ 9 + b) * 10 ^ 9 + c) * 10 ^ 9 + d) as Hv.
  { rewrite Es, !digitsVal_app, !digitsVal_fixed, digitsVal_formatNat by lia.
    autorewrite with golen. rewrite !Z.mod_small by done. lia. }
  subst trimmed. rewrite trimZeros_isZero, dropZeros_formatNat, Hv by done.
  destruct (Z.eqb_spec (((a * 10 ^ 9 + b) * 10 ^ 9 + c) * 10 ^ 9 + d) 0) as [->|Hn]; [done|].
  pose proof (digits10_pos (((a * 10 ^ 9 + b) * 10 ^ 9 + c) * 10 ^ 9 + d) ltac:(lia)). unfold digits10 in *.
  by rewrite (proj2 (Z.eqb_neq (len _) 0)) by lia.
Qed.

Lemma word_shifted n w : 0 <= n < 2 ^ 64 -> 0 <= w -> w + 20 <= 64 ->
  decfloatBitsToDigits (Z.land (Z.shiftr (i64 n) w) 0xfffff) = unpackVal 2 (n / 2 ^ w).
Proof.
  intros. change 0xfffff with (Z.ones 20). rewrite word_field by lia. apply bitsToDigits_20.
Qed.

(** The second word and the low 46 bits of the first hold 110 bits of declets. *)
Lemma decode34_coefficient hi lo w q :
  0 <= lo < 2 ^ 64 -> 0 <= hi < 2 ^ 64 -> 0 <= w < 2 ^ 46 -> hi = q * 2 ^ 46 + w ->
  let W := w * 2 ^ 64 + lo in
  decfloatBitsToDigits (Z.land (i64 lo) 0x3fffffff) = unpackVal 3 W /\
  decfloatBitsToDigits (Z.land (Z.shiftr (i64 lo) 30) 0x3fffffff) = unpackVal 3 (W / 2 ^ 30) /\
  decfloatBitsToDigits
    (Z.lor (Z.shiftl (Z.land (i64 hi) 0x3ffffff) 4) (Z.land (Z.shiftr (i64 lo) 60) 0xf)) =
    unpackVal 3 (W / 2 ^ 60) /\
  decfloatBitsToDigits (Z.land (Z.shiftr (i64 hi) 26) 0xfffff) = unpackVal 2 (W / 2 ^ 90).
Proof.
  intros Hlo Hhi Hw Hq W.
  assert (Z.land (i64 lo) 0x3fffffff = lo mod 2 ^ 30) as ->.
  { change 0x3fffffff with (Z.ones 30). pose proof (word_field lo 0 30 Hlo) as E.
    rewrite Z.shiftr_0_r, Z.div_1_r in E. apply E; lia. }
  assert (Z.land (i64 hi) 0x3ffffff = hi mod 2 ^ 26) as ->.
  { change 0x3ffffff with (Z.ones 26). pose proof (word_field hi 0 26 Hhi) as E.
    rewrite Z.shiftr_0_r, Z.div_1_r in E. apply E; lia. }
  change 0x3fffffff with (Z.ones 30). change 0xf with (Z.ones 4).
  rewrite !(word_field lo) by lia. rewrite word_shifted by lia.
  rewrite !bitsToDigits_30.
  pose proof (Z.mod_pos_bound (lo / 2 ^ 60) (2 ^ 4)). rewrite lor_shiftl_add by lia. split_and!.
  - rewrite <-(unpackVal_low 3 (w * 2 ^ 34) lo). f_equal. subst W. change (1024 ^ Z.of_nat 3) with (2 ^ 30). lia.
  - rewrite <-(unpackVal_low 3 (w * 2 ^ 4) (lo / 2 ^ 30)). f_equal. subst W.
    change (1024 ^ Z.of_nat 3) with (2 ^ 30).
    replace (w * 2 ^ 64 + lo) with ((w * 2 ^ 34) * 2 ^ 30 + lo) by lia.
    rewrite Z.div_add_l by lia. lia.
  - rewrite bitsToDigits_val.
    rewrite <-(unpackVal_low 3 (hi / 2 ^ 26) (hi mod 2 ^ 26 * 2 ^ 4 + _)).
    change (1024 ^ Z.of_nat 3) with (2 ^ 30).
    pose proof (Z.div_mod hi (2 ^ 26) ltac:(lia)). rewrite (Z.mod_small (lo / 2 ^ 60)) by
      (split; [apply Z.div_pos; lia|apply Z.div_lt_upper_bound; lia]).
    replace (hi / 2 ^ 26 * 2 ^ 30 + (hi mod 2 ^ 26 * 2 ^ 4 + lo / 2 ^ 60)) with (hi * 2 ^ 4 + lo / 2 ^ 60) by lia.
    rewrite Hq. rewrite <-(unpackVal_low 3 0 (W / 2 ^ 60)). change (1024 ^ Z.of_nat 3) with (2 ^ 30).
    replace (W / 2 ^ 60) with (w * 2 ^ 4 + lo / 2 ^ 60).
    + rewrite <-(unpackVal_low 3 (q * 2 ^ 20) (0 * 2 ^ 30 + _)). f_equal.
      change (1024 ^ Z.of_nat 3) with (2 ^ 30). lia.
    + subst W. replace (w * 2 ^ 64 + lo) with ((w * 2 ^ 4) * 2 ^ 60 + lo) by lia.
      by rewrite Z.div_add_l by lia.
  - rewrite Hq. replace (q * 2 ^ 46 + w) with ((q * 2 ^ 20) * 2 ^ 26 + w) by lia.
    rewrite Z.div_add_l by lia. change (2 ^ 20) with (1024 ^ Z.of_nat 2). rewrite unpackVal_low. f_equal.
    subst W. change (2 ^ 90) with (2 ^ 64 * 2 ^ 26). rewrite <-Z.div_div by lia.
    by rewrite Z.div_add_l, (Z.div_small lo), Z.add_0_r by lia.
Qed.

(** Eleven declets in four groups. *)
Lemma unpackVal_11 W :
  unpackVal 11 W =
    ((unpackVal 2 (W / 2 ^ 90) * 10 ^ 9 + unpackVal 3 (W / 2 ^ 60)) * 10 ^ 9 +
      unpackVal 3 (W / 2 ^ 30)) * 10 ^ 9 + unpackVal 3 W.
Proof.
  rewrite (unpackVal_split 8 3), (unpackVal_split 5 3), (unpackVal_split 2 3).
  change (1024 ^ Z.of_nat 3) with (2 ^ 30). change (1000 ^ Z.of_nat 3) with (10 ^ 9).
  rewrite !Z.div_div by lia. done.
Qed.

Lemma decode34_fields hi lo sign m d ec W :
  0 <= hi < 2 ^ 64 -> 0 <= lo < 2 ^ 64 -> 0 <= m <= 2 -> 0 <= d <= 9 -> 0 <= ec < 2 ^ 12 ->
  Z.land (Z.shiftr (i64 hi) 63) 1 = sign -> Z.land (Z.shiftr (i64 hi) 58) 0x1f = combOf m d ->
  Z.shiftr (Z.land (i64 hi) 0x03ffc00000000000) 46 = ec ->
  decfloatBitsToDigits (Z.land (i64 lo) 0x3fffffff) = unpackVal 3 W ->
  decfloatBitsToDigits (Z.land (Z.shiftr (i64 lo) 30) 0x3fffffff) = unpackVal 3 (W / 2 ^ 30) ->
  decfloatBitsToDigits
    (Z.lor (Z.shiftl (Z.land (i64 hi) 0x3ffffff) 4) (Z.land (Z.shiftr (i64 lo) 60) 0xf)) =
    unpackVal 3 (W / 2 ^ 60) ->
  decfloatBitsToDigits (Z.land (Z.shiftr (i64 hi) 26) 0xfffff) = unpackVal 2 (W / 2 ^ 90) ->
  decodeDecfloat34 (be64 hi ++ be64 lo) =
    Ret (decodedText sign (d * 10 ^ 33 + unpackVal 11 W) (m * 2 ^ 12 + ec - decfloat34Bias)).
Proof.
  intros Hhi Hlo Hm Hd He E1 E2 E3 C1 C2 C3 C4.
  destruct (combOf_spec m d Hm Hd) as (Hcomb & Hsplit & _).
  unfold decodeDecfloat34, ensure. rewrite len_app, !len_be. change (16 <=? Z.of_nat 8 + Z.of_nat 8) with true.
  cbv iota. rewrite uint_at_app_l by done. rewrite uint_at_be_skip by done. change (8 - Z.of_nat 8) with 0.
  rewrite uint_at_be_end by done. cbn [mbind outcome_bind]. rewrite !Z.mod_small by done. cbv zeta.
  rewrite E1, E2, E3, C1, C2, C3, C4. unfold decodeSpecial.
  rewrite !(proj2 (Z.eqb_neq (combOf m d) _)) by lia. rewrite Hsplit. cbv beta iota.
  rewrite (Z.lor_comm ec), lor_shiftl_add by lia.
  assert (forall x, 0 <= unpackVal 3 x < 10 ^ 9) as U3 by (intros; apply (unpackVal_range 3)).
  pose proof (unpackVal_range 2 (W / 2 ^ 90)) as U2.
  assert (0 <= unpackVal 2 (W / 2 ^ 90) + d * 1000000) as Ha by lia.
  pose proof (trimmed_groups _ _ _ _ Ha (U3 (W / 2 ^ 60)) (U3 (W / 2 ^ 30)) (U3 W)) as Et. cbv zeta in Et.
  rewrite Et. unfold decodedText. do 3 f_equal. rewrite unpackVal_11. lia.
Qed.

Lemma decode34_word sign m d ec c :
  0 <= sign <= 1 -> 0 <= m <= 2 -> 0 <= d <= 9 -> 0 <= ec < 2 ^ 12 -> 0 <= c < 10 ^ 33 ->
  decodeDecfloat34 (be64 (finiteWord 46 sign (combOf m d) ec (packVal 11 c / 2 ^ 64)) ++
                    be64 (packVal 11 c mod 2 ^ 64)) =
  Ret (decodedText sign (d * 10 ^ 33 + c) (m * 2 ^ 12 + ec - decfloat34Bias)).
Proof.
  intros Hs Hm Hd He Hc. pose proof (packVal_range 11 c) as Hp.
  pose proof (unpackVal_packVal 11 c) as Hu. rewrite Z.mod_small in Hu by done.
  generalize dependent (packVal 11 c). intros W Hp Hu. 
  destruct (combOf_spec m d Hm Hd) as (Hcomb & _ & _).
  assert (0 <= W < 2 ^ 46 * 2 ^ 64) as HW by exact Hp.
  assert (0 <= W / 2 ^ 64 < 2 ^ 46) as Hh by (split; [apply Z.div_pos|apply Z.div_lt_upper_bound]; lia).
  pose proof (Z.mod_pos_bound W (2 ^ 64) ltac:(lia)) as Hl.
  destruct (finiteWord_range 46 sign (combOf m d) ec (W / 2 ^ 64)) as [_ Hw]; [lia..|].
  destruct (finiteWord_fields 46 sign (combOf m d) ec (W / 2 ^ 64)) as (E1 & E2 & E3); [lia..|].
  destruct (decode34_coefficient (finiteWord 46 sign (combOf m d) ec (W / 2 ^ 64)) (W mod 2 ^ 64)
    (W / 2 ^ 64) (sign * 2 ^ 17 + combOf m d * 2 ^ 12 + ec)) as (C1 & C2 & C3 & C4); [done|done|done| |].
  { unfold finiteWord. lia. }
  replace (W / 2 ^ 64 * 2 ^ 64 + W mod 2 ^ 64) with W in * by (pose proof (Z.div_mod W (2 ^ 64)); lia).
  rewrite <-Hu. by apply decode34_fields.
Qed.

(** * Rounding *)

(** [q] is [c / p] rounded to the nearest, ties to even. *)
Definition half_even (c p q : Z) : Prop :=
  - p <= 2 * (c - q * p) <= p /\
  (2 * (c - q * p) = p \/ 2 * (c - q * p) = - p -> Z.even q = true).

Lemma decfloatRoundDrop_spec c drop : 0 <= c -> 0 < drop ->
  let q := decfloatRoundDrop c drop in
  half_even c (10 ^ drop) q /\ (q = c / 10 ^ drop \/ q = c / 10 ^ drop + 1).
Proof.
  intros Hc Hd q. subst q. unfold decfloatRoundDrop, decfloatPow10.
  rewrite (proj2 (Z.leb_gt drop 0)) by lia. cbv zeta.
  pose proof (pow10_pos drop ltac:(lia)) as Hp. set (p := 10 ^ drop) in *.
  rewrite Z.quot_div_nonneg, Z.rem_mod_nonneg by lia.
  pose proof (Z.div_mod c p ltac:(lia)) as E. pose proof (Z.mod_pos_bound c p Hp) as Hr.
  rewrite Z.shiftl_mul_pow2 by lia. change (2 ^ 1) with 2. rewrite Z.bit0_odd.
  destruct (Z.ltb_spec p (c mod p * 2)); cbn [orb]; [|destruct (Z.eqb_spec (c mod p * 2) p); cbn [andb];
    [destruct (Z.odd (c / p)) eqn:Ho|]]; (split; [split; [nia|intros Ht]|auto]); try nia.
  - by rewrite Z.even_add, <-Z.negb_odd, Ho.
  - by rewrite <-Z.negb_odd, Ho.
Qed.

Definition decfloat_format (f : decfloatFormat) : Prop := f = decfloat16Format \/ f = decfloat34Format.

Lemma digitCount_nat c : 0 <= c -> digitCount c = digits10 c.
Proof. intros. unfold digitCount, digits10, formatInt. by rewrite (proj2 (Z.ltb_ge c 0)) by lia. Qed.

Lemma roundDigits_spec p c e :
  1 <= p -> 0 < c -> - 2 ^ 62 <= e <= 2 ^ 62 - 1 -> digits10 c < 2 ^ 61 ->
  let '(c', e') := roundDigits p c e in
  0 < c' < 10 ^ p /\ e <= e' < 2 ^ 63 - 2 /\
  (e' = e -> c' = c) /\
  (e < e' -> half_even c (10 ^ (e' - e)) c' /\ digits10 c' = p).
Proof.
  intros Hp Hc He Hn. unfold roundDigits. rewrite digitCount_nat by lia.
  pose proof (digits10_bound c ltac:(lia)) as Hup. pose proof (digits10_lower c Hc) as Hlo.
  destruct (Z.ltb_spec p (digits10 c)) as [Hbig|Hsmall].
  2: { assert (10 ^ digits10 c <= 10 ^ p) by (apply Z.pow_le_mono_r; lia).
       split_and!; try lia. }
  set (drop := digits10 c - p). cbv zeta. assert (0 < drop) by (subst drop; lia).
  destruct (decfloatRoundDrop_spec c drop ltac:(lia) ltac:(lia)) as [Hhe Hq]. cbv zeta in Hhe, Hq.
  set (q := decfloatRoundDrop c drop) in *.
  pose proof (pow10_pos drop ltac:(lia)) as Hpd. pose proof (pow10_pos p ltac:(lia)).
  pose proof (pow10_pos (p - 1) ltac:(lia)).
  assert (10 ^ digits10 c = 10 ^ p * 10 ^ drop) as Ep
    by (rewrite <-Z.pow_add_r by lia; f_equal; subst drop; lia).
  assert (10 ^ (digits10 c - 1) = 10 ^ (p - 1) * 10 ^ drop) as Ep1
    by (rewrite <-Z.pow_add_r by lia; f_equal; subst drop; lia).
  assert (10 ^ p = 10 * 10 ^ (p - 1)) as Ep2.
  { rewrite <-(Z.pow_succ_r 10) by lia. f_equal. lia. }
  assert (10 ^ (p - 1) <= c / 10 ^ drop < 10 ^ p) as Hdiv.
  { split; [apply Z.div_le_lower_bound; lia|apply Z.div_lt_upper_bound; lia]. }
  assert (10 ^ (p - 1) <= q <= 10 ^ p) as Hqr by lia.
  rewrite digitCount_nat by lia. rewrite (wraps_id 64 (e + drop)) by (subst drop; lia).
  destruct (Z.ltb_spec p (digits10 q)) as [Hcarry|Hfit].
  - assert (q = 10 ^ p) as ->.
    { destruct (Z.eq_dec q (10 ^ p)) as [|Hne]; [done|].
      pose proof (digits10_le q p ltac:(lia) ltac:(lia) ltac:(lia)). lia. }
    assert (decfloatRoundDrop (10 ^ p) 1 = 10 ^ (p - 1)) as ->.
    { unfold decfloatRoundDrop, decfloatPow10. change (1 <=? 0) with false. cbv zeta iota.
      change (10 ^ 1) with 10. rewrite Z.quot_div_nonneg, Z.rem_mod_nonneg by lia.
      rewrite Ep2, (Z.mul_comm 10), Z.div_mul, Z.mod_mul by lia. done. }
    rewrite (wraps_id 64 (e + drop + 1)) by (subst drop; lia).
    split_and!; [lia|lia|subst drop; lia|subst drop; lia|lia|]. intros _. split.
    + replace (e + drop + 1 - e) with (drop + 1) by lia. rewrite Z.pow_add_r by lia. change (10 ^ 1) with 10.
      destruct Hhe as [? _]. split; [nia|]. nia.
    + pose proof (digits10_gt (10 ^ (p - 1)) (p - 1) ltac:(lia) ltac:(lia)).
      pose proof (digits10_le (10 ^ (p - 1)) p ltac:(lia) ltac:(lia) ltac:(lia)). lia.
  - assert (q < 10 ^ p) as Hlt.
    { destruct (Z.eq_dec q (10 ^ p)) as [E|]; [|lia].
      pose proof (digits10_gt q p ltac:(lia) ltac:(lia)). lia. }
    split_and!; [lia|lia|lia|subst drop; lia|lia|]. intros _.
    replace (e + drop - e) with drop by lia. split; [done|].
    pose proof (digits10_gt q (p - 1) ltac:(lia) ltac:(lia)). lia.
Qed.

(** The input values the exponent arithmetic handles without wrapping. *)
Definition decfloat_small (v : decfloatValue) : Prop :=
  0 <= coef v /\ - 2 ^ 62 <= exp v <= 2 ^ 62 - 1 /\ digits10 (coef v) < 2 ^ 61.

#[export] Instance decfloat_small_dec v : Decision (decfloat_small v).
Proof. unfold decfloat_small. apply _. Defined.

Lemma format_facts f : decfloat_format f ->
  (precision f = 16 \/ precision f = 34) /\ - 6176 <= qmin f <= - 398 /\ 369 <= qmax f <= 6111.
Proof. intros [->| ->]; vm_compute; intuition discriminate. Qed.

Lemma decfloatRound_ret v f :
  decfloat_format f -> decfloat_small v ->
  coef v = 0 \/ digits10 (coef v) + exp v < qmax f + precision f ->
  exists c e, decfloatRound v f = Ret (c, e) /\
    0 <= c < 10 ^ precision f /\ qmin f <= e <= qmax f /\
    (coef v = 0 -> c = 0) /\
    (0 < coef v -> qmin f <= exp v -> e <= exp v -> c = coef v * 10 ^ (exp v - e)) /\
    (0 < coef v -> qmin f <= exp v -> exp v < e -> half_even (coef v) (10 ^ (e - exp v)) c).
Proof.
  intros Hf (Hc & He & Hn) Hfit. destruct (format_facts f Hf) as (Hp & Hmin & Hmax).
  unfold decfloatRound. destruct (Z.eqb_spec (coef v) 0) as [E0|Hnz].
  { eexists _, _. split; [reflexivity|]. rewrite E0. pose proof (pow10_pos (precision f) ltac:(lia)).
    split_and!; repeat case_match; bool_facts; lia. }
  destruct Hfit as [|Hfit]; [done|].
  pose proof (roundDigits_spec (precision f) (coef v) (exp v) ltac:(lia) ltac:(lia) He Hn) as Hr.
  destruct (roundDigits (precision f) (coef v) (exp v)) as [c1 e1] eqn:Er.
  destruct Hr as (Hc1 & He1 & Hexact & Hround).
  assert (e1 <= qmax f \/ e1 = exp v) as Hover.
  { destruct (Z.eq_dec e1 (exp v)); [by right|left].
    revert Er. unfold roundDigits. rewrite digitCount_nat by lia.
    destruct (Z.ltb_spec (precision f) (digits10 (coef v))); [|intros [= <- <-]; done].
    rewrite (wraps_id 64 (exp v + _)) by lia.
    case_match; intros [= <- <-]; rewrite ?wraps_id by lia; lia. }
  destruct (Z.ltb_spec e1 (qmin f)) as [Hsub|Hnorm].
  - rewrite (proj2 (Z.ltb_ge (qmax f) (qmin f))) by lia. eexists _, _. split; [reflexivity|].
    rewrite (wraps_id 64 (qmin f - e1)) by lia. rewrite digitCount_nat by lia.
    split_and!; try lia.
    all: case_match; bool_facts; try lia; try (apply pow10_pos; lia).
    all: destruct (decfloatRoundDrop_spec c1 (qmin f - e1)) as [_ Hq]; [lia..|]; cbv zeta in Hq.
    all: pose proof (Z.div_pos c1 (10 ^ (qmin f - e1)) ltac:(lia) (pow10_pos (qmin f - e1) ltac:(lia))).
    all: assert (c1 / 10 ^ (qmin f - e1) < c1) by
      (apply Z.div_lt; [lia|]; change 1 with (10 ^ 0); apply Z.pow_lt_mono_r; lia); lia.
  - destruct (Z.ltb_spec (qmax f) e1) as [Hbig|Hin].
    + destruct Hover as [? | ->]; [lia|]. rewrite (Hexact eq_refl) in *.
      rewrite (wraps_id 64 (exp v - qmax f)) by lia.
      assert (digits10 (coef v) + (exp v - qmax f) < precision f) by lia.
      pose proof (digits10_pos (coef v) ltac:(lia)).
      rewrite digitCount_nat by lia. rewrite (wraps_id 64 (digits10 (coef v) + (exp v - qmax f))) by lia.
      rewrite (proj2 (Z.eqb_neq (coef v) 0)) by done. cbn [negb andb].
      rewrite (proj2 (Z.ltb_ge (precision f) _)) by lia.
      eexists _, _. split; [reflexivity|]. unfold decfloatPow10.
      pose proof (pow10_pos (exp v - qmax f) ltac:(lia)).
      assert (coef v * 10 ^ (exp v - qmax f) < 10 ^ precision f).
      { pose proof (digits10_bound (coef v) ltac:(lia)).
        assert (10 ^ digits10 (coef v) * 10 ^ (exp v - qmax f) <= 10 ^ precision f); [|nia].
        rewrite <-Z.pow_add_r by (try apply len_nonneg; lia). apply Z.pow_le_mono_r; lia. }
      split_and!; try lia.
    + eexists _, _. split; [reflexivity|]. split_and!; try lia.
      * intros _ _ Hle. assert (e1 = exp v) as -> by lia. rewrite Hexact by done.
        rewrite Z.sub_diag. lia.
      * intros _ _ Hlt. by apply Hround.
Qed.

(** The first rounding, as a relation: a coefficient with more than [p] digits
    becomes the [p] digits nearest to it, ties to even. *)
Definition first_rounding (p c e c1 e1 : Z) : Prop :=
  if digits10 c <=? p then c1 = c /\ e1 = e
  else e < e1 /\ half_even c (10 ^ (e1 - e)) c1 /\ digits10 c1 = p.

Lemma roundDigits_first p c e :
  1 <= p -> 0 < c -> - 2 ^ 62 <= e <= 2 ^ 62 - 1 -> digits10 c < 2 ^ 61 ->
  let '(c1, e1) := roundDigits p c e in first_rounding p c e c1 e1 /\ 0 < c1 < 10 ^ p /\ e <= e1 < 2 ^ 63 - 2.
Proof.
  intros Hp Hc He Hn. pose proof (roundDigits_spec p c e Hp Hc He Hn) as Hr.
  destruct (roundDigits p c e) as [c1 e1] eqn:Er. destruct Hr as (Hc1 & He1 & Hsame & Hround).
  split; [|done]. unfold first_rounding. destruct (Z.leb_spec (digits10 c) p) as [Hs|Hb].
  - unfold roundDigits in Er. rewrite digitCount_nat, (proj2 (Z.ltb_ge _ _)) in Er by lia. by injection Er as <- <-.
  - assert (e < e1); [|by split; [|apply Hround]]. destruct (Z.eq_dec e1 e) as [->|]; [|lia]. rewrite Hsame in Hc1 by done.
    pose proof (digits10_le c p ltac:(lia) ltac:(lia) ltac:(lia)). lia.
Qed.

(** Rounding at the smallest exponent. *)
Lemma subnormal_rounding c1 drop :
  0 < c1 -> 0 < drop ->
  half_even c1 (10 ^ drop) (if digitCount c1 <? drop then 0 else decfloatRoundDrop c1 drop).
Proof.
  intros Hc Hd. rewrite digitCount_nat by lia. destruct (Z.ltb_spec (digits10 c1) drop); [|by apply decfloatRoundDrop_spec; lia].
  pose proof (digits10_bound c1 ltac:(lia)). pose proof (digits10_pos c1 ltac:(lia)).
  assert (10 ^ digits10 c1 <= 10 ^ (drop - 1)) by (apply Z.pow_le_mono_r; lia).
  assert (10 ^ drop = 10 * 10 ^ (drop - 1)) by (rewrite <-(Z.pow_succ_r 10) by lia; f_equal; lia).
  pose proof (pow10_pos (drop - 1) ltac:(lia)). split; [lia|]. intros [|]; [lia|lia].
Qed.

Lemma subnormal_small c1 drop : 0 < c1 -> 0 < drop -> 0 <= (if digitCount c1 <? drop then 0 else decfloatRoundDrop c1 drop) <= c1.
Proof.
  intros Hc Hd. case_match; [lia|]. destruct (decfloatRoundDrop_spec c1 drop) as [_ Hq]; [lia..|]. cbv zeta in Hq.
  pose proof (Z.div_pos c1 (10 ^ drop) ltac:(lia) (pow10_pos drop ltac:(lia))).
  assert (c1 / 10 ^ drop < c1) by (apply Z.div_lt; [lia|]; change 1 with (10 ^ 0); apply Z.pow_lt_mono_r; lia). lia.
Qed.

(** Padding with zeros down to the largest exponent. *)
Lemma padded_fits c1 shift p :
  0 < c1 -> 0 <= shift -> 0 <= p -> digits10 c1 + shift <= p <-> c1 * 10 ^ shift < 10 ^ p.
Proof.
  intros Hc Hs Hp. pose proof (digits10_bound c1 ltac:(lia)). pose proof (digits10_lower c1 Hc). pose proof (digits10_pos c1 ltac:(lia)).
  pose proof (pow10_pos shift Hs). split; intros Hle.
  - assert (10 ^ digits10 c1 * 10 ^ shift <= 10 ^ p); [|nia]. rewrite <-Z.pow_add_r by lia. apply Z.pow_le_mono_r; lia.
  - destruct (Z.le_gt_cases (digits10 c1 + shift) p); [done|].
    assert (10 ^ p <= 10 ^ (digits10 c1 - 1) * 10 ^ shift); [|nia]. rewrite <-Z.pow_add_r by lia. apply Z.pow_le_mono_r; lia.
Qed.

(** * Reading back the printed text *)

(** A text of digits, with a fraction or without, is read as its digits and
    the negated length of the fraction. *)
Lemma parse_decimal n ip fp point :
  is_digits ip -> is_digits fp -> (0 < length ip)%nat ->
  point = [] /\ fp = [] \/ point = [46] ->
  parseDecfloatText (signText n ++ ip ++ point ++ fp) =
    Ret (mkDecfloat n KindFinite (digitsVal (ip ++ fp)) (i64 (0 - len fp))).
Proof.
  intros Hi Hf Hl Hp.
  destruct (digit_facts ip Hi) as (Pi & Ei & Di). destruct (digit_facts fp Hf) as (Pf & Ef & Df).
  assert (Forall (fun b => plainByte b = true) (signText n ++ ip ++ point ++ fp)) as Hplain.
  { apply Forall_app. split; [destruct n; by repeat constructor|].
    apply Forall_app. split; [done|]. apply Forall_app. split; [|done].
    destruct Hp as [[-> _]| ->]; by repeat constructor. }
  assert (Forall (fun b => inSet (lit "eE") b = false) (ip ++ point ++ fp)) as Hne.
  { apply Forall_app. split; [done|]. apply Forall_app. split; [|done].
    destruct Hp as [[-> _]| ->]; by repeat constructor. }
  unfold parseDecfloatText. rewrite trimSpace_forall by done.
  destruct ip as [|d ip']; [cbn in Hl; lia|]. pose proof (Forall_inv Hi) as Hd. cbv beta in Hd.
  apply isDigit_range in Hd.
  assert (match signText n ++ (d :: ip') ++ point ++ fp with
          | 43 :: s' => (false, s')
          | 45 :: s' => (true, s')
          | _ => (false, signText n ++ (d :: ip') ++ point ++ fp)
          end = (n, (d :: ip') ++ point ++ fp)) as ->.
  { destruct n; [done|]. cbn [signText app]. 
    assert (d = 48 \/ d = 49 \/ d = 50 \/ d = 51 \/ d = 52 \/ d = 53 \/ d = 54 \/ d = 55 \/ d = 56 \/ d = 57)
      as Hcase by lia.
    repeat destruct Hcase as [->|Hcase]; subst; done. }
  rewrite (proj2 (Z.eqb_neq (len _) 0)) by (destruct n; cbn [signText app]; len_lia). cbv beta iota.
  assert (forall w c r, w = c :: r -> 97 <= c -> beqb (toLower ((d :: ip') ++ point ++ fp)) w = false) as Hlow.
  { intros w c r -> Hc. apply bool_decide_eq_false_2. intros E. revert E. cbn [app toLower].
    assert (d <> 196 /\ d <> 226) as [? ?] by lia.
    assert (lowerByte d = d) as Hld.
    { unfold lowerByte. destruct (Z.leb_spec 65 d); [lia|done]. }
    assert (forall s, head (toLower (d :: s)) = Some d) as Hh.
    { intros s. assert (d = 48 \/ d = 49 \/ d = 50 \/ d = 51 \/ d = 52 \/ d = 53 \/ d = 54 \/ d = 55 \/ d = 56 \/ d = 57)
        as Hcase by lia. repeat destruct Hcase as [->|Hcase]; subst; done. }
    intros E. specialize (Hh (ip' ++ point ++ fp)). cbn [toLower] in Hh. rewrite E in Hh. cbn in Hh.
    injection Hh as ->. lia. }
  rewrite (Hlow (lit "inf") 105 (lit "nf")), (Hlow (lit "infinity") 105 (lit "nfinity")),
    (Hlow (lit "nan") 110 (lit "an")), (Hlow (lit "snan") 115 (lit "nan")) by done. cbn [orb].
  unfold indexAny. rewrite (proj2 (indexFunc_None _ _) Hne). cbn [mbind outcome_bind].
  assert (match indexByte ((d :: ip') ++ point ++ fp) 46 with
          | Some idx => (take idx ((d :: ip') ++ point ++ fp), drop (S idx) ((d :: ip') ++ point ++ fp))
          | None => ((d :: ip') ++ point ++ fp, [])
          end = (d :: ip', fp)) as ->.
  { unfold indexByte. destruct Hp as [[-> ->]| ->].
    - rewrite !app_nil_r, (proj2 (indexFunc_None _ _)); done.
    - change ([46] ++ fp) with (46 :: fp). rewrite (indexFunc_app_no (Z.eqb 46) (d :: ip') 46 fp) by done.
      rewrite take_app_length. f_equal. rewrite (cons_middle 46), app_assoc.
      apply drop_app_length'. rewrite length_app. cbn. lia. }
  rewrite (proj2 (Z.eqb_neq (len (d :: ip')) 0)) by len_lia. cbn [andb].
  rewrite (proj2 (is_digits_forallb _)) by (apply is_digits_app; done). cbn [negb].
  rewrite trimmed_val by (by apply is_digits_app). done.
Qed.

(** The printed text denotes the number that was decoded. *)
Lemma parse_decodedText sign c e :
  0 <= c -> - 2 ^ 60 <= e <= 2 ^ 60 -> digits10 c <= 2 ^ 60 ->
  exists v, parseDecfloatText (decodedText sign c e) = Ret v /\ kind v = KindFinite /\
    exp v <= e /\ coef v = c * 10 ^ (e - exp v) /\ (0 < c -> neg v = negb (sign =? 0)).
Proof.
  intros Hc He Hd. unfold decodedText, formatDecfloatStr.
  pose proof (is_digits_formatNat c Hc) as Hds. pose proof (digitsVal_formatNat c Hc) as Hv.
  pose proof (digits10_pos c Hc) as Hpos. unfold digits10 in *. set (ds := formatNat c) in *.
  assert (forall n ip point fp result,
    result = ip ++ point ++ fp -> is_digits ip -> is_digits fp -> (0 < length ip)%nat ->
    point = [] /\ fp = [] \/ point = [46] -> len fp <= 2 ^ 62 ->
    digitsVal (ip ++ fp) = c * 10 ^ (e + len fp) -> 0 <= e + len fp ->
    (0 < c -> result <> lit "0") -> (0 < c -> n = negb (sign =? 0)) ->
    exists v, parseDecfloatText (signText n ++ result) = Ret v /\ kind v = KindFinite /\
      exp v <= e /\ coef v = c * 10 ^ (e - exp v) /\ (0 < c -> neg v = negb (sign =? 0))) as Hgoal.
  { intros n ip point fp result -> Hi Hf Hl Hp Hlen Hval Hge Hne Hn.
    eexists. split; [by apply parse_decimal|]. cbn [kind exp coef neg].
    pose proof (len_nonneg fp). rewrite (wraps_id 64 (0 - len fp)) by lia.
    split_and!; [done|lia| |done]. rewrite Hval. do 2 f_equal. lia. }
  match goal with |- context [if _ then 45 :: ?r else ?r] => set (result := r) end.
  assert ((if ((if negb (sign =? 0) then -1 else 1) <? 0) && negb (beqb result (lit "0"))
           then 45 :: result else result) =
    signText (negb (sign =? 0) && negb (beqb result (lit "0"))) ++ result) as ->
    by (destruct (sign =? 0), (beqb result (lit "0")); done).
  assert (forall b : bool, (0 < c -> result <> lit "0") -> 0 < c ->
    b && negb (beqb result (lit "0")) = b) as Hsign.
  { intros b Hr Hpc. unfold beqb. rewrite bool_decide_eq_false_2 by auto. by rewrite andb_true_r. }
  assert (0 < c -> ds <> lit "0") as Hds0.
  { intros ? E. rewrite E in Hv. change (digitsVal (lit "0")) with 0 in Hv. lia. }
  subst result. destruct (Z.leb_spec (- e) 0) as [Hint|Hfrac].
  - eapply (Hgoal _ (ds ++ replicate (Z.to_nat (- - e)) 48) [] []); auto.
    + by rewrite !app_nil_r.
    + apply is_digits_app. auto using is_digits_zeros.
    + constructor.
    + rewrite length_app. unfold len in Hpos. lia.
    + change (len (@nil Z)) with 0. lia.
    + rewrite app_nil_r, digitsVal_trailing, Hv. change (len (@nil Z)) with 0. do 2 f_equal. lia.
    + change (len (@nil Z)) with 0. lia.
    + intros ? E. apply (f_equal digitsVal) in E. rewrite digitsVal_trailing, Hv in E.
      change (digitsVal (lit "0")) with 0 in E. pose proof (pow10_pos (Z.of_nat (Z.to_nat (- - e)))). nia.
    + intros ?. apply Hsign; [|done]. intros ? E. apply (f_equal digitsVal) in E.
      rewrite digitsVal_trailing, Hv in E. change (digitsVal (lit "0")) with 0 in E.
      pose proof (pow10_pos (Z.of_nat (Z.to_nat (- - e)))). nia.
  - assert (forall l r : bytes, len (l ++ [46] ++ r) = 1 -> l = []) as Hshort.
    { intros l r El. destruct l; [done|]. len_lia. }
    destruct (Z.leb_spec (len ds) (- e)) as [Hlong|Hin].
    + set (zs := replicate (Z.to_nat (- e - len ds)) 48).
      assert (len (zs ++ ds) = - e) as Hlz by (subst zs; autorewrite with golen; lia).
      assert (lit "0." ++ zs ++ ds <> lit "0") as Hr by done.
      eapply (Hgoal _ [48] [46] (zs ++ ds)); auto; try lia.
      * by repeat constructor.
      * apply is_digits_app. split; [apply is_digits_zeros|done].
      * change ([48] ++ zs ++ ds) with (replicate 1 48 ++ zs ++ ds). subst zs.
        rewrite !digitsVal_zeros, Hv, Hlz, Z.add_opp_diag_r. lia.
    + set (k := Z.to_nat (len ds - - e)).
      assert (0 < k < length ds)%nat as Hk by (unfold k, len in *; lia).
      assert (len (drop k ds) = - e) as Hld by (unfold len; rewrite length_drop; unfold k, len in *; lia).
      assert (take k ds ++ [46] ++ drop k ds <> lit "0") as Hr.
      { intros E. apply (f_equal len) in E as E1. apply Hshort in E1.
        apply (f_equal length) in E1. rewrite length_take in E1.
        change (length (@nil Z)) with 0%nat in E1. lia. }
      rewrite <-(take_drop k ds) in Hds. apply is_digits_app in Hds as [Hdt Hdd].
      eapply (Hgoal _ (take k ds) [46] (drop k ds)); auto; try lia.
      * rewrite length_take. lia.
      * by rewrite take_drop, Hv, Hld, Z.add_opp_diag_r, Z.mul_1_r.
Qed.

(** * Properties *)

(** The decoder for each size, as the column decoder chooses it. *)
Definition decodeDecfloat (size : Z) (data : bytes) : outcome bytes :=
  if size =? 8 then decodeDecfloat16 data else decodeDecfloat34 data.

Definition formatOf (size : Z) : decfloatFormat :=
  if size =? 8 then decfloat16Format else decfloat34Format.

(** What the encoder writes for a rounded value, the decoder prints. *)
Lemma encode_decode16 v sign c e :
  0 <= sign <= 1 -> decfloatRound v decfloat16Format = Ret (c, e) ->
  0 <= c < 10 ^ 16 -> - 398 <= e <= 369 ->
  exists hi lo, encodeDecfloatFinite v decfloat16Format sign = Ret (hi, lo) /\
    decodeDecfloat16 (be64 hi) = Ret (decodedText sign c e).
Proof.
  intros Hs Hr Hc He.
  destruct (encodeFinite_fields v decfloat16Format sign c e 5 Hr) as (Hm & Hd & ->);
    [done|exact Hc|cbn; lia|unfold decfloat16Format, decfloat16Bias; cbn [bias expContBits]; lia|].
  change (dfSize decfloat16Format =? 8) with true. cbv iota zeta. eexists _, _. split; [reflexivity|].
  change (bias decfloat16Format) with 398 in *. change (expContBits decfloat16Format) with 8 in *.
  change (Z.of_nat (3 * 5)) with 15 in *.
  pose proof (packVal_range 5 c) as Hp. change (1024 ^ Z.of_nat 5) with (2 ^ 50) in Hp.
  pose proof (Z.mod_pos_bound (e + 398) (2 ^ 8) ltac:(lia)) as Hec.
  destruct (combOf_spec _ _ Hm Hd) as (Hcomb & _). rewrite finiteWord_lor by lia.
  assert (packVal 5 c = packVal 5 (c mod 10 ^ 15)) as ->.
  { symmetry. apply (packVal_mod 5). lia. }
  rewrite decode16_word by (try lia; apply Z.mod_pos_bound; lia).
  do 2 f_equal; [|unfold decfloat16Bias; pose proof (Z.div_mod (e + 398) (2 ^ 8) ltac:(lia)); lia].
  pose proof (Z.div_mod c (10 ^ 15) ltac:(lia)). lia.
Qed.

Lemma encode_decode34 v sign c e :
  0 <= sign <= 1 -> decfloatRound v decfloat34Format = Ret (c, e) ->
  0 <= c < 10 ^ 34 -> - 6176 <= e <= 6111 ->
  exists hi lo, encodeDecfloatFinite v decfloat34Format sign = Ret (hi, lo) /\
    decodeDecfloat34 (be64 hi ++ be64 lo) = Ret (decodedText sign c e).
Proof.
  intros Hs Hr Hc He.
  destruct (encodeFinite_fields v decfloat34Format sign c e 11 Hr) as (Hm & Hd & ->);
    [done|exact Hc|cbn; lia|unfold decfloat34Format, decfloat34Bias; cbn [bias expContBits]; lia|].
  change (dfSize decfloat34Format =? 8) with false. cbv iota zeta. eexists _, _. split; [reflexivity|].
  change (bias decfloat34Format) with 6176 in *. change (expContBits decfloat34Format) with 12 in *.
  change (Z.of_nat (3 * 11)) with 33 in *.
  pose proof (packVal_range 11 c) as Hp. change (1024 ^ Z.of_nat 11) with (2 ^ 46 * 2 ^ 64) in Hp.
  pose proof (Z.mod_pos_bound (e + 6176) (2 ^ 12) ltac:(lia)) as Hec.
  destruct (combOf_spec _ _ Hm Hd) as (Hcomb & _).
  change (2 ^ 64 - 1) with (Z.ones 64). rewrite Z.land_ones, Z.shiftr_div_pow2 by lia.
  rewrite finiteWord_lor by first [lia | split; [apply Z.div_pos|apply Z.div_lt_upper_bound]; lia].
  assert (packVal 11 c = packVal 11 (c mod 10 ^ 33)) as ->.
  { symmetry. apply (packVal_mod 11). lia. }
  rewrite decode34_word by (try lia; apply Z.mod_pos_bound; lia).
  do 2 f_equal; [|unfold decfloat34Bias; pose proof (Z.div_mod (e + 6176) (2 ^ 12) ltac:(lia)); lia].
  pose proof (Z.div_mod c (10 ^ 33) ltac:(lia)). lia.
Qed.

(** What the rounding stage stores. *)
Lemma decfloatRound_spec (v : decfloatValue) (f : decfloatFormat) :
  decfloat_format f -> decfloat_small v ->
  match decfloatRound v f with
  | Ret (c, e) =>
      0 <= c < 10 ^ precision f /\ qmin f <= e <= qmax f /\
      (coef v = 0 -> c = 0 /\ e = Z.max (qmin f) (Z.min (qmax f) (exp v))) /\
      (0 < coef v -> exists c1 e1, first_rounding (precision f) (coef v) (exp v) c1 e1 /\
        (e1 < qmin f -> e = qmin f /\ half_even c1 (10 ^ (qmin f - e1)) c) /\
        (qmin f <= e1 -> e = Z.min e1 (qmax f) /\ c = c1 * 10 ^ (e1 - e)))
  | Fail _ =>
      0 < coef v /\ exists c1 e1, first_rounding (precision f) (coef v) (exp v) c1 e1 /\
        qmax f < e1 /\ 10 ^ precision f <= c1 * 10 ^ (e1 - qmax f)
  | Panic => False
  end.
Proof.
  intros Hf (Hc & He & Hn). destruct (format_facts f Hf) as (Hp & Hmin & Hmax). unfold decfloatRound.
  destruct (Z.eqb_spec (coef v) 0) as [E0|Hnz].
  { pose proof (pow10_pos (precision f) ltac:(lia)). split_and!; try lia; repeat case_match; bool_facts; lia. }
  pose proof (roundDigits_first (precision f) (coef v) (exp v) ltac:(lia) ltac:(lia) He Hn) as Hr.
  destruct (roundDigits (precision f) (coef v) (exp v)) as [c1 e1]. destruct Hr as (Hfirst & Hc1 & He1).
  destruct (Z.ltb_spec e1 (qmin f)) as [Hsub|Hnorm].
  - rewrite (proj2 (Z.ltb_ge (qmax f) (qmin f))), (wraps_id 64 (qmin f - e1)) by lia.
    pose proof (subnormal_small c1 (qmin f - e1) ltac:(lia) ltac:(lia)).
    split_and!; [lia..|]. intros _. exists c1, e1. split; [done|]. split; [|lia]. intros _. split; [done|].
    apply subnormal_rounding; lia.
  - pose proof (digits10_le c1 (precision f) ltac:(lia) ltac:(lia) ltac:(lia)). pose proof (digits10_pos c1 ltac:(lia)).
    destruct (Z.ltb_spec (qmax f) e1) as [Hbig|Hin].
    + rewrite (wraps_id 64 (e1 - qmax f)), (proj2 (Z.eqb_neq c1 0)) by lia. cbn [negb andb].
      rewrite digitCount_nat, (wraps_id 64 (digits10 c1 + _)) by lia.
      pose proof (padded_fits c1 (e1 - qmax f) (precision f) ltac:(lia) ltac:(lia) ltac:(lia)) as Hpad. unfold decfloatPow10.
      pose proof (pow10_pos (e1 - qmax f) ltac:(lia)). destruct (Z.ltb_spec (precision f) (digits10 c1 + (e1 - qmax f))) as [Hover|Hroom].
      * split; [lia|]. exists c1, e1. split_and!; [done|done|]. destruct (Z.le_gt_cases (10 ^ precision f) (c1 * 10 ^ (e1 - qmax f))); [done|].
        assert (digits10 c1 + (e1 - qmax f) <= precision f) by by apply Hpad. lia.
      * apply Hpad in Hroom as Hlt. split_and!; [nia|nia|lia..|]. intros _. exists c1, e1. split; [done|]. split; [lia|]. intros _. split; [lia|done].
    + split_and!; [lia..|]. intros _. exists c1, e1. split; [done|]. split; [lia|]. intros _. rewrite Z.min_l, Z.sub_diag by lia. lia.
Qed.

Lemma decfloatRound_range v f c e : decfloat_format f -> decfloat_small v -> decfloatRound v f = Ret (c, e) ->
  0 <= c < 10 ^ precision f /\ qmin f <= e <= qmax f.
Proof. intros Hf Hs E. pose proof (decfloatRound_spec v f Hf Hs) as H. rewrite E in H. by destruct H as (? & ? & _). Qed.

(** The text that is read back for a text that was stored. *)
Definition storedDecfloat (text : bytes) (size : Z) : outcome bytes :=
  v ← parseDecfloatText text;
  match kind v with
  | KindInf => Ret (signText (neg v) ++ lit "Infinity")
  | KindNaN => Ret (signText (neg v) ++ lit "NaN")
  | KindSNaN => Ret (signText (neg v) ++ lit "SNaN")
  | KindFinite => '(c, e) ← decfloatRound v (formatOf size); Ret (decodedText (if neg v then 1 else 0) c e)
  end.

(** A finite value, in each size. *)
Lemma encoded_finite v size sign hi lo :
  size = 8 \/ size = 16 -> 0 <= sign <= 1 -> decfloat_small v ->
  encodeDecfloatFinite v (formatOf size) sign = Ret (hi, lo) ->
  exists c e, decfloatRound v (formatOf size) = Ret (c, e) /\
    decodeDecfloat size (if size =? 8 then be64 hi else be64 hi ++ be64 lo) = Ret (decodedText sign c e).
Proof.
  intros Hsize Hs Hsmall E. assert (decfloat_format (formatOf size)) as Hf by (destruct Hsize as [-> | ->]; [by left|by right]).
  assert (exists c e, decfloatRound v (formatOf size) = Ret (c, e)) as (c & e & Hr).
  { unfold encodeDecfloatFinite in E. apply bind_Ret in E as ([c e] & Hr & _). by exists c, e. }
  exists c, e. split; [done|]. destruct (decfloatRound_range v _ c e Hf Hsmall Hr) as [Hc He].
  destruct Hsize as [-> | ->].
  - destruct (encode_decode16 v sign c e Hs Hr Hc He) as (hi' & lo' & E' & Hd).
    change (formatOf 8) with decfloat16Format in E. rewrite E in E'. by injection E' as <- <-.
  - destruct (encode_decode34 v sign c e Hs Hr Hc He) as (hi' & lo' & E' & Hd).
    change (formatOf 16) with decfloat34Format in E. rewrite E in E'. by injection E' as <- <-.
Qed.

Lemma encoded_decfloat_decodes text size data :
  size = 8 \/ size = 16 -> (forall v, parseDecfloatText text = Ret v -> decfloat_small v) ->
  encodeDecfloat text size = Ret data ->
  len data = size /\ decodeDecfloat size data = storedDecfloat text size.
Proof.
  intros Hsize Hsmall. unfold encodeDecfloat, storedDecfloat.
  intros (f & Hf & (v & Hv & ([hi lo] & Hw & <-%Ret_inj)%bind_Ret)%bind_Ret)%bind_Ret.
  rewrite Hv. cbn [mbind outcome_bind]. specialize (Hsmall v Hv). clear Hv.
  assert (f = formatOf size) as -> by (destruct Hsize as [-> | ->]; by injection Hf as <-). clear Hf.
  split; [destruct Hsize as [-> | ->]; [exact (len_be 8 hi)|cbn [Z.eqb Pos.eqb]; rewrite len_app; change (len (be64 hi)) with (len (be 8 hi)); change (len (be64 lo)) with (len (be 8 lo)); by rewrite !len_be]|].
  destruct (kind v).
  1: { destruct (encoded_finite v size (if neg v then 1 else 0) hi lo) as (c & e & -> & ->); [done|by destruct (neg v)|done..]. }
  all: injection Hw as <- <-; destruct Hsize as [-> | ->]; destruct (neg v); vm_compute; reflexivity.
Qed.

(** C20: a decimal text survives DECFLOAT(16) and DECFLOAT(34).  For every
    finite decimal text in range, the driver encodes it in 8 or 16 bytes, and
    the text it decodes from those bytes reads back as exactly the coefficient
    and exponent that the rounding stage chose, with the sign of the input. *)
Theorem decfloat_roundtrip (text : bytes) (size : Z) (v : decfloatValue) :
  size = 8 \/ size = 16 ->
  parseDecfloatText text = Ret v -> kind v = KindFinite -> decfloat_small v ->
  coef v = 0 \/ digits10 (coef v) + exp v < qmax (formatOf size) + precision (formatOf size) ->
  exists data out w c e,
    encodeDecfloat text size = Ret data /\ len data = size /\
    decodeDecfloat size data = Ret out /\ parseDecfloatText out = Ret w /\
    decfloatRound v (formatOf size) = Ret (c, e) /\ kind w = KindFinite /\
    exp w <= e /\ coef w = c * 10 ^ (e - exp w) /\ (0 < c -> neg w = neg v).
Proof.
  intros Hsize Hparse Hkind Hsmall Hfit.
  set (sign := if neg v then 1 else 0). assert (0 <= sign <= 1) as Hs by (subst sign; by destruct (neg v)).
  assert (negb (sign =? 0) = neg v) as Hsn by (subst sign; by destruct (neg v)).
  assert (decfloat_format (formatOf size)) as Hf by (destruct Hsize as [-> | ->]; [by left|by right]).
  destruct (decfloatRound_ret v (formatOf size) Hf Hsmall Hfit) as (c & e & Hr & Hc & He & _).
  assert (exists w, parseDecfloatText (decodedText sign c e) = Ret w /\ kind w = KindFinite /\
    exp w <= e /\ coef w = c * 10 ^ (e - exp w) /\ (0 < c -> neg w = neg v)) as (w & Hw & Hk & Hx & Hcw & Hn).
  { rewrite <-Hsn. destruct (format_facts _ Hf) as (Hp & ? & ?). apply parse_decodedText; [lia|lia|].
    etrans; [apply (digits10_le c (precision (formatOf size))); lia|lia]. }
  unfold encodeDecfloat. rewrite Hparse.
  destruct Hsize as [-> | ->].
  - destruct (encode_decode16 v sign c e Hs Hr Hc He) as (hi & lo & He1 & Hd1).
    exists (be64 hi), (decodedText sign c e), w, c, e. cbn [Z.eqb Pos.eqb mbind outcome_bind]. rewrite Hkind.
    fold sign. change decfloat16Format with (formatOf 8) in He1. cbv zeta.
    split_and!; try done. change (formatOf 8) with decfloat16Format in He1. by rewrite He1.
  - destruct (encode_decode34 v sign c e Hs Hr Hc He) as (hi & lo & He1 & Hd1).
    exists (be64 hi ++ be64 lo), (decodedText sign c e), w, c, e.
    cbn [Z.eqb Pos.eqb mbind outcome_bind]. rewrite Hkind. fold sign. cbv zeta.
    split_and!; try done. by rewrite He1.
Qed.

Lemma decfloat_roundtrip_witness :
  exists data out w c e,
    encodeDecfloat (lit "-123.45E-3") 16 = Ret data /\ len data = 16 /\
    decodeDecfloat 16 data = Ret out /\ parseDecfloatText out = Ret w /\
    decfloatRound (mkDecfloat true KindFinite 12345 (-5)) decfloat34Format = Ret (c, e) /\
    kind w = KindFinite /\ exp w <= e /\ coef w = c * 10 ^ (e - exp w) /\
    (0 < c -> neg w = true).
Proof.
  apply (decfloat_roundtrip (lit "-123.45E-3") 16 (mkDecfloat true KindFinite 12345 (-5)));
    [by right | vm_compute; reflexivity | reflexivity
    | apply (bool_decide_unpack _); vm_compute; exact I | right; vm_compute; reflexivity].
Defined.

(** C24: the coefficient that is stored.  The exponents of the input are those
    within 2^62 of zero, where the exponent arithmetic does not wrap.  A value
    with more digits than the format is rounded to that many, to nearest with
    ties to even.  When the exponent is then below the smallest one of the format,
    the result is rounded a second time, to nearest with ties to even, at the
    smallest exponent; so it need not be the value of the format nearest to the
    input ([decfloat_double_rounding]).  Otherwise it is kept, with zeros put
    behind it down to the largest exponent, and it is an error exactly when it
    does not have the room for them.  A zero keeps its exponent, brought into
    the range. *)
Theorem decfloat_rounding (v : decfloatValue) (f : decfloatFormat) :
  decfloat_format f -> decfloat_small v ->
  match decfloatRound v f with
  | Ret (c, e) =>
      0 <= c < 10 ^ precision f /\ qmin f <= e <= qmax f /\
      (coef v = 0 -> c = 0 /\ e = Z.max (qmin f) (Z.min (qmax f) (exp v))) /\
      (0 < coef v -> exists c1 e1, first_rounding (precision f) (coef v) (exp v) c1 e1 /\
        (e1 < qmin f -> e = qmin f /\ half_even c1 (10 ^ (qmin f - e1)) c) /\
        (qmin f <= e1 -> e = Z.min e1 (qmax f) /\ c = c1 * 10 ^ (e1 - e)))
  | Fail _ =>
      0 < coef v /\ exists c1 e1, first_rounding (precision f) (coef v) (exp v) c1 e1 /\
        qmax f < e1 /\ 10 ^ precision f <= c1 * 10 ^ (e1 - qmax f)
  | Panic => False
  end.
Proof. apply decfloatRound_spec. Qed.

(** Seventeen digits in the middle of the range. *)
Lemma decfloat_rounding_witness :
  decfloatRound (mkDecfloat false KindFinite 12345678901234565 3) decfloat16Format = Ret (1234567890123456, 4) /\
  exists c1 e1, first_rounding 16 12345678901234565 3 c1 e1 /\
    (e1 < -398 -> 4 = -398 /\ half_even c1 (10 ^ (-398 - e1)) 1234567890123456) /\
    (-398 <= e1 -> 4 = Z.min e1 369 /\ 1234567890123456 = c1 * 10 ^ (e1 - 4)).
Proof.
  pose proof (decfloat_rounding (mkDecfloat false KindFinite 12345678901234565 3) decfloat16Format) as Hr.
  assert (decfloatRound (mkDecfloat false KindFinite 12345678901234565 3) decfloat16Format = Ret (1234567890123456, 4)) as E
    by (vm_compute; reflexivity).
  split; [exact E|]. rewrite E in Hr. apply Hr; [by left|apply (bool_decide_unpack _); vm_compute; exact I|reflexivity].
Defined.

(** 1.4999999999999995 * 10^-398, between 1 and 2 units of the smallest
    exponent and nearer to 1, is stored as 2: the 17 digits are first rounded
    to 1.5, and that tie is then rounded to even. *)
Example decfloat_double_rounding :
  decfloatRound (mkDecfloat false KindFinite 14999999999999995 (-414)) decfloat16Format = Ret (2, -398) /\
  ~ half_even 14999999999999995 (10 ^ 16) 2.
Proof.
  split; [vm_compute; reflexivity|]. intros [[Hlo _] _]. vm_compute in Hlo. by apply Hlo.
Qed.

(** A 17-digit coefficient with the largest exponent an [int] holds: adding the
    dropped digit wraps the exponent, and the value is stored as zero instead of
    being rejected. *)
Example decfloat_exponent_wrap :
  decfloatRound (mkDecfloat false KindFinite 12345678901234567 (2 ^ 63 - 1)) decfloat16Format = Ret (0, -398).
Proof. vm_compute. reflexivity. Qed.
