(* ===== verification/Decimal.v ===== *)
(** Numeric text, packed and zoned decimal: numeric_param.go and the numeric
    halves of sql.go. *)
From Stdlib Require Import Strings.String.
From stdpp Require Import base list numbers strings gmap.
From S2P Require Import Prelude GoStrings Digits Utf Ccsid Wire Reply Format.
Open Scope Z_scope.

(** ** numeric_param.go *)

Definition maxDecimalExponent : Z := 100000.

Definition isASCIIDigits (s : bytes) : bool := forallb isDigit s.

(** Optional sign of a number. *)
Definition splitSign (s : bytes) : bool * bytes :=
  match s with
  | 43 :: s' => (false, s')
  | 45 :: s' => (true, s')
  | _ => (false, s)
  end.

(** The integer and fraction digits around the first point. *)
Definition splitPoint (s : bytes) : bytes * bytes :=
  match indexByte s 46 with
  | Some i => (take i s, drop (S i) s)
  | None => (s, [])
  end.

(** The exponent clause of [decimalTextDigits]: the mantissa and the exponent. *)
Definition decimalExponent (s : bytes) : outcome (bytes * Z) :=
  match indexAny s (lit "eE") with
  | None => Ret (s, 0)
  | Some i =>
      let '(negExp, body) := splitSign (drop (S i) s) in
      let sign := if negExp : bool then -1 else 1 in
      if (len body =? 0) || negb (isASCIIDigits body) then Fail EInvalidNumericText
      else if 9 <? len body then Ret (take i s, sign * (maxDecimalExponent + 1))
      else
        match atoi body with
        | Ret e => Ret (take i s, sign * e)
        | Fail _ => Fail EInvalidNumericText
        | Panic => Panic
        end
  end.

Definition allZeros (s : bytes) : bool := len (trim s (lit "0")) =? 0.

(** The second half of [decimalTextDigits]: digits and sign of the value,
    truncated to the scale. *)
Definition truncateToScale (negative : bool) (intPart fracPart : bytes) (exp scale : Z)
    : outcome (bytes * bool) :=
  let digits := intPart ++ fracPart in
  let point := len intPart + exp in
  '(digits, point) ←
    (if allZeros digits || (point <? - maxDecimalExponent) then Ret ([], 0)
     else if maxDecimalExponent <? point then Fail (EText "decimal value out of range" [])
     else Ret (digits, point));
  let '(intDigits, fracDigits) :=
    if point <=? 0 then ([], replicate (Z.to_nat (- point)) 48 ++ digits)
    else if len digits <=? point then (digits ++ replicate (Z.to_nat (point - len digits)) 48, [])
    else (take (Z.to_nat point) digits, drop (Z.to_nat point) digits) in
  let fracDigits :=
    if scale <? len fracDigits then take (Z.to_nat scale) fracDigits
    else fracDigits ++ replicate (Z.to_nat (scale - len fracDigits)) 48 in
  let integerPart := trimLeft intDigits (lit "0") in
  let negative := if allZeros (integerPart ++ fracDigits) then false else negative in
  if len integerPart =? 0 then
    if len fracDigits =? 0 then Ret (lit "0", negative) else Ret (fracDigits, negative)
  else Ret (integerPart ++ fracDigits, negative).

Definition decimalTextDigits (text : bytes) (scale : Z) : outcome (bytes * bool) :=
  let scale := if scale <? 0 then 0 else scale in
  let '(negative, s) := splitSign (trimSpace text) in
  '(s, exp) ← decimalExponent s;
  let '(intPart, fracPart) := splitPoint s in
  if ((len intPart =? 0) && (len fracPart =? 0)) || negb (isASCIIDigits intPart) ||
     negb (isASCIIDigits fracPart)
  then Fail EInvalidNumericText
  else truncateToScale negative intPart fracPart exp scale.

Definition normalizeDecimalText (text : bytes) (scale : Z) : outcome (bytes * bool) :=
  decimalTextDigits text scale.

(** ** sql.go: packed and zoned bytes *)

Fixpoint packNibbles (signNibble : Z) (digits : bytes) : bytes :=
  match digits with
  | hi :: lo :: digits' => Z.lor (u8 (Z.shiftl (hi - 48) 4)) (lo - 48) :: packNibbles signNibble digits'
  | [hi] => [Z.lor (u8 (Z.shiftl (hi - 48) 4)) signNibble]
  | [] => []
  end.

(** The right-most [n] digits, padded with zeros on the left. *)
Definition fitDigits (digits : bytes) (n : Z) : bytes :=
  if n <? len digits then drop (Z.to_nat (len digits - n)) digits
  else replicate (Z.to_nat (n - len digits)) 48 ++ digits.

Definition packDecimalDigits (digits : bytes) (negative : bool) (f : parameterMarkerField) : bytes :=
  let digits := if len digits =? 0 then lit "0" else digits in
  let targetBytes := FieldLength f in
  let targetBytes := if targetBytes <=? 0 then Z.quot (Precision f + 2) 2 else targetBytes in
  let targetBytes := if targetBytes <=? 0 then (len digits + 2) / 2 else targetBytes in
  let digitSlots := targetBytes * 2 - 1 in
  let digitSlots := if digitSlots <? 1 then 1 else digitSlots in
  packNibbles (if negative then 0x0D else 0x0C) (fitDigits digits digitSlots).

Fixpoint zoneBytes (negative : bool) (digits : bytes) : bytes :=
  match digits with
  | [] => []
  | [d] => [Z.lor (if negative then 0xD0 else 0xF0) (d - 48)]
  | d :: digits' => Z.lor 0xF0 (d - 48) :: zoneBytes negative digits'
  end.

Definition zoneDecimalDigits (digits : bytes) (negative : bool) (f : parameterMarkerField) : bytes :=
  let digits := if len digits =? 0 then lit "0" else digits in
  let targetBytes := FieldLength f in
  let targetBytes := if targetBytes <=? 0 then Precision f else targetBytes in
  let targetBytes := if targetBytes <=? 0 then len digits else targetBytes in
  zoneBytes negative (fitDigits digits targetBytes).

(** The encoders after the value has been converted to text; [packed] chooses
    DECIMAL or NUMERIC.  The error of [numericParameterError] names the type. *)
Definition encodeDecimalText (text : bytes) (f : parameterMarkerField) (packed : bool) : outcome bytes :=
  match normalizeDecimalText text (Scale f) with
  | Ret (normalized, negative) =>
      if (0 <? Precision f) && (Precision f <? len normalized) then
        Fail (EText "decimal value out of range" [])
      else
        Ret (if packed then packDecimalDigits normalized negative f
             else zoneDecimalDigits normalized negative f)
  | Fail e => Fail e
  | Panic => Panic
  end.

(** *** Decoding *)

Definition digitNibble (nibble : Z) : Z := if 9 <? nibble then 48 else 48 + nibble.

(** The digits and the sign nibble of packed bytes. *)
Fixpoint unpackNibbles (data : bytes) : outcome (bytes * Z) :=
  match data with
  | [] => Ret ([], 0x0C)
  | b :: data' =>
      let hi := Z.land (Z.shiftr b 4) 0x0F in
      let lo := Z.land b 0x0F in
      if 0x09 <? hi then Fail (EText "invalid packed decimal digit nibble" [hi])
      else
        match data' with
        | [] =>
            if lo <? 0x0A then Fail (EText "invalid packed decimal sign nibble" [lo])
            else Ret ([digitNibble hi], lo)
        | _ =>
            if 0x09 <? lo then Fail (EText "invalid packed decimal digit nibble" [lo])
            else
              '(digits, sign) ← unpackNibbles data';
              Ret (digitNibble hi :: digitNibble lo :: digits, sign)
        end
  end.

(** Put the decimal point in front of the last [scale] digits. *)
Definition insertPoint (digits : bytes) (scale : Z) : bytes :=
  if 0 <? scale then
    let digits :=
      if len digits <=? scale then replicate (Z.to_nat (scale - len digits + 1)) 48 ++ digits
      else digits in
    let point := Z.to_nat (len digits - scale) in
    take point digits ++ [46] ++ drop point digits
  else digits.

Definition signPrefix (sign : Z) : bytes := if (sign =? 0x0B) || (sign =? 0x0D) then lit "-" else [].

Definition decodePackedDecimalString (data : bytes) (precision scale : Z) : outcome bytes :=
  if len data =? 0 then Ret (lit "0")
  else if precision <? 0 then Fail (EText "invalid packed decimal precision" [precision])
  else
    '(digits, sign) ← unpackNibbles data;
    Ret (signPrefix sign ++ insertPoint (fitDigits digits precision) scale).

Fixpoint unzoneBytes (data : bytes) : outcome (bytes * Z) :=
  match data with
  | [] => Ret ([], 0x0C)
  | b :: data' =>
      let d := Z.land b 0x0F in
      if 0x09 <? d then Fail (EText "invalid zoned decimal digit nibble" [d])
      else
        match data' with
        | [] =>
            let sign := Z.land (Z.shiftr b 4) 0x0F in
            if sign <? 0x0A then Fail (EText "invalid zoned decimal sign nibble" [sign])
            else Ret ([48 + d], sign)
        | _ => '(digits, sign) ← unzoneBytes data'; Ret (48 + d :: digits, sign)
        end
  end.

(** A negative precision is sliced out of range. *)
Definition decodeZonedDecimalString (data : bytes) (precision scale : Z) : outcome bytes :=
  if len data =? 0 then Ret (lit "0")
  else
    '(digits, sign) ← unzoneBytes data;
    if precision <? 0 then Panic
    else Ret (signPrefix sign ++ insertPoint (fitDigits digits precision) scale).

(** ** sql.go: numeric text to int64 *)

(** The exponent clause: the mantissa, and the exponent or its absence because
    it is not representable. *)
Definition integerExponent (text : bytes) : outcome (bytes * option Z) :=
  match indexAny text (lit "eE") with
  | None => Ret (text, Some 0)
  | Some i =>
      let exponentText := drop (S i) text in
      let body := trimLeft exponentText (lit "+-") in
      if (len body =? 0) || (1 <? len exponentText - len body) || negb (isASCIIDigits body) then
        Fail EInvalidNumericText
      else
        match atoi exponentText with
        | Ret e => Ret (take i text, if (100000 <? e) || (e <? -100000) then None else Some e)
        | Fail _ => Ret (take i text, None)
        | Panic => Panic
        end
  end.

Definition notInteger : goerror := EText "parameter value is not an integer" [].
Definition outOfRange64 : goerror := EText "parameter value out of range for 64-bit integer" [].

(** The value of checked digits and an exponent. *)
Definition integerOfDigits (negative : bool) (intPart fracPart : bytes) (exp : Z) : outcome Z :=
  let digits := trimLeft (intPart ++ fracPart) (lit "0") in
  if len digits =? 0 then Ret 0
  else
    let exp := exp - len fracPart in
    let trimmed := trimRight digits (lit "0") in
    let exp := exp + (len digits - len trimmed) in
    let digits := trimmed in
    if exp <? 0 then Fail notInteger
    else if 19 <? len digits + exp then Fail outOfRange64
    else
      let s := digits ++ replicate (Z.to_nat exp) 48 in
      let s := if negative : bool then 45 :: s else s in
      match parseInt64 s with
      | Ret value => Ret value
      | Fail _ => Fail outOfRange64
      | Panic => Panic
      end.

Definition parameterFieldDecimalFloat (text : bytes) : outcome Z :=
  let text := trimSpace text in
  if len text =? 0 then Fail EInvalidNumericText
  else
    let '(negative, text) := splitSign text in
    let mantissa := match indexAny text (lit "eE") with Some i => take i text | None => text end in
    let '(intPart, fracPart) := splitPoint mantissa in
    if ((len intPart =? 0) && (len fracPart =? 0)) || negb (isASCIIDigits intPart) ||
       negb (isASCIIDigits fracPart)
    then Fail EInvalidNumericText
    else
      '(_, exp) ← integerExponent text;
      match exp with
      | None =>
          if allZeros (intPart ++ fracPart) then Ret 0
          else Fail (EText "parameter value is not a representable integer" [])
      | Some exp => integerOfDigits negative intPart fracPart exp
      end.

(** * Lemmas *)

(** ** Truncation to the scale *)

(** The digits that stand for [N / 10^scale] at that scale: no leading zeros,
    and a single zero for nothing at all. *)
Definition canonDigits (N scale : Z) : bytes :=
  if N <? 10 ^ scale then
    if scale =? 0 then lit "0" else fixedDigits (Z.to_nat scale) N
  else formatNat N.

(** [v * 10^e], rounded towards zero. *)
Definition truncated (v e : Z) : Z := if 0 <=? e then v * 10 ^ e else v / 10 ^ (- e).

(** The fraction digits cut or padded to the scale. *)
Definition fitFraction (s : bytes) (n : Z) : bytes :=
  if n <? len s then take (Z.to_nat n) s else s ++ replicate (Z.to_nat (n - len s)) 48.

Lemma is_digits_take n s : is_digits s -> is_digits (take n s).
Proof. apply Forall_take. Qed.

Lemma is_digits_drop n s : is_digits s -> is_digits (drop n s).
Proof. apply Forall_drop. Qed.

Lemma fitFraction_facts s n : is_digits s -> 0 <= n ->
  is_digits (fitFraction s n) /\ len (fitFraction s n) = n /\
  digitsVal (fitFraction s n) = truncated (digitsVal s) (n - len s).
Proof.
  intros Hs Hn. unfold fitFraction, truncated. destruct (Z.ltb_spec n (len s)).
  - rewrite (proj2 (Z.leb_gt 0 (n - len s))) by lia.
    split_and!; [by apply is_digits_take|unfold len in *; rewrite length_take; lia|].
    rewrite <-(take_drop (Z.to_nat n) s) at 2. rewrite digitsVal_app.
    assert (len (drop (Z.to_nat n) s) = len s - n) as -> by (unfold len in *; rewrite length_drop; lia).
    pose proof (digitsVal_range _ (is_digits_drop (Z.to_nat n) s Hs)) as Hd.
    assert (len (drop (Z.to_nat n) s) = len s - n) as E by (unfold len in *; rewrite length_drop; lia).
    rewrite E in Hd. replace (- (n - len s)) with (len s - n) by lia.
    rewrite Z.div_add_l, (Z.div_small (digitsVal (drop _ _))) by lia. lia.
  - rewrite (proj2 (Z.leb_le 0 (n - len s))) by lia. rewrite digitsVal_trailing.
    split_and!; [apply is_digits_app; auto using is_digits_zeros|len_lia|f_equal; f_equal; lia].
Qed.

(** Cutting [D] digits with [L] of them in the fraction to a fraction of [scale]. *)
Lemma truncated_split I F L scale : 0 <= I -> 0 <= F < 10 ^ L -> 0 <= L -> 0 <= scale ->
  I * 10 ^ scale + truncated F (scale - L) = truncated (I * 10 ^ L + F) (scale - L).
Proof.
  intros. unfold truncated. destruct (Z.leb_spec 0 (scale - L)).
  - replace scale with (L + (scale - L)) at 1 by lia. rewrite Z.pow_add_r by lia. lia.
  - replace (- (scale - L)) with (L - scale) by lia.
    assert (10 ^ L = 10 ^ scale * 10 ^ (L - scale)) as -> by (rewrite <-Z.pow_add_r by lia; f_equal; lia).
    rewrite Z.mul_assoc.
    rewrite Z.div_add_l by (pose proof (pow10_pos (L - scale)); lia). done.
Qed.

Lemma truncated_shift v a e : 0 <= a -> truncated (v * 10 ^ a) e = truncated v (a + e).
Proof.
  intros. unfold truncated. destruct (Z.leb_spec 0 e), (Z.leb_spec 0 (a + e)); try lia.
  - rewrite Z.pow_add_r by lia. lia.
  - assert (10 ^ a = 10 ^ (a + e) * 10 ^ (- e)) as -> by (rewrite <-Z.pow_add_r by lia; f_equal; lia).
    rewrite Z.mul_assoc.
    rewrite Z.div_mul by (pose proof (pow10_pos (- e)); lia). done.
  - replace (- e) with (a + - (a + e)) by lia. rewrite Z.pow_add_r by lia.
    rewrite (Z.mul_comm (10 ^ a)). pose proof (pow10_pos a). pose proof (pow10_pos (- (a + e))).
    rewrite Z.div_mul_cancel_r by lia. done.
Qed.

Lemma allZeros_val s : is_digits s -> allZeros s = (digitsVal s =? 0).
Proof.
  intros Hs. unfold allZeros, trim, trimRight. rewrite trimZeros_isZero, dropZeros_formatNat by done.
  pose proof (digitsVal_range s Hs). destruct (Z.eqb_spec (digitsVal s) 0) as [|Hn]; [done|].
  set (n := digitsVal s) in *. apply Z.eqb_neq.
  assert (is_digits (reverse (formatNat n))) as Hr
    by (apply Forall_reverse, is_digits_formatNat; lia).
  destruct (dropWhile (inSet (lit "0")) (reverse (formatNat n))) as [|b r] eqn:E;
    [|rewrite reverse_cons; len_lia].
  exfalso. change (trimLeft (reverse (formatNat n)) (lit "0") = []) in E.
  rewrite trimZeros_isZero in E. destruct (dropWhile_split isZero (reverse (formatNat n))) as (l & El & Hl).
  rewrite E, app_nil_r in El. assert (Forall (fun b => isZero b = true) (formatNat n)) as Hz
    by (rewrite <-(reverse_involutive (formatNat n)), El; by apply Forall_reverse).
  assert (digitsVal (formatNat n) = 0) as Hv.
  { clear -Hz. generalize dependent (formatNat n). clear. intros t Hz.
    induction Hz as [|b t Hb _ IH]; [done|]. apply Z.eqb_eq in Hb as ->.
    rewrite digitsVal_cons, IH. lia. }
  rewrite digitsVal_formatNat in Hv by lia. lia.
Qed.

(** The digits before and behind the point, and the value they stand for. *)
Lemma point_split digits point :
  is_digits digits ->
  let '(ip, fp) :=
    if point <=? 0 then ([], replicate (Z.to_nat (- point)) 48 ++ digits)
    else if len digits <=? point then (digits ++ replicate (Z.to_nat (point - len digits)) 48, [])
    else (take (Z.to_nat point) digits, drop (Z.to_nat point) digits) in
  is_digits ip /\ is_digits fp /\
  exists a, 0 <= a /\ digitsVal (ip ++ fp) = digitsVal digits * 10 ^ a /\ len fp = len digits - point + a.
Proof.
  intros Hd. destruct (Z.leb_spec point 0); [|destruct (Z.leb_spec (len digits) point)].
  - split_and!; [constructor|apply is_digits_app; auto using is_digits_zeros|].
    exists 0. cbn [app]. rewrite digitsVal_zeros. split_and!; [lia|lia|len_lia].
  - split_and!; [apply is_digits_app; auto using is_digits_zeros|constructor|].
    exists (point - len digits). rewrite app_nil_r, digitsVal_trailing.
    split_and!; [lia|do 2 f_equal; lia|len_lia].
  - split_and!; [by apply is_digits_take|by apply is_digits_drop|].
    exists 0. rewrite take_drop. split_and!; [lia|lia|]. unfold len in *. rewrite length_drop. lia.
Qed.

(** Integer digits without leading zeros in front of a full fraction. *)
Lemma canonDigits_join I F scale : is_digits I -> is_digits F -> len F = scale ->
  let integerPart := trimLeft I (lit "0") in
  (if len integerPart =? 0 then if len F =? 0 then lit "0" else F else integerPart ++ F) =
    canonDigits (digitsVal (I ++ F)) scale /\
  digitsVal (integerPart ++ F) = digitsVal (I ++ F) /\ is_digits (integerPart ++ F).
Proof.
  intros HI HF HL. cbv zeta. rewrite trimZeros_isZero, dropZeros_formatNat by done.
  pose proof (digitsVal_range I HI). pose proof (digitsVal_range F HF) as Hr. rewrite HL in Hr.
  rewrite (digitsVal_app I F), HL. unfold canonDigits. pose proof (len_nonneg F).
  destruct (Z.eqb_spec (digitsVal I) 0) as [->|Hn].
  - change (len (@nil Z) =? 0) with true. cbn [app]. rewrite Z.mul_0_l, Z.add_0_l.
    split_and!; [|done|done]. rewrite (proj2 (Z.ltb_lt _ _)) by lia.
    destruct (Z.eqb_spec scale 0); [done|]. symmetry. apply fixedDigits_val; [done|]. unfold len in *. lia.
  - pose proof (pow10_pos scale). rewrite (proj2 (Z.ltb_ge _ (10 ^ scale))) by nia.
    pose proof (digits10_pos (digitsVal I) ltac:(lia)) as Hp. unfold digits10 in Hp.
    rewrite (proj2 (Z.eqb_neq (len _) 0)) by lia.
    assert (is_digits (formatNat (digitsVal I) ++ F)) as Hd.
    { apply is_digits_app. split; [apply is_digits_formatNat; lia|done]. }
    assert (digitsVal (formatNat (digitsVal I) ++ F) = digitsVal I * 10 ^ scale + digitsVal F) as Hv.
    { rewrite digitsVal_app, digitsVal_formatNat, HL by lia. done. }
    split_and!; [|done|done]. rewrite <-Hv.
    assert (dropWhile isZero (formatNat (digitsVal I) ++ F) = formatNat (digitsVal I) ++ F) as Hz.
    { assert (dropWhile isZero (formatNat (digitsVal I)) = formatNat (digitsVal I)) as Hz.
      { rewrite dropZeros_formatNat by (apply is_digits_formatNat; lia).
        rewrite digitsVal_formatNat by lia. by rewrite (proj2 (Z.eqb_neq _ 0)). }
      destruct (formatNat (digitsVal I)) as [|b r] eqn:E; [rewrite len_nil in Hp; lia|].
      cbn [dropWhile app] in *. destruct (isZero b) eqn:Hb; [|done].
      exfalso. apply (f_equal length) in Hz. destruct (dropWhile_split isZero r) as (l & El & _).
      apply (f_equal length) in El. rewrite length_app in El. cbn [length] in Hz. lia. }
    rewrite <-Hz at 1. rewrite dropZeros_formatNat by done.
    by rewrite (proj2 (Z.eqb_neq _ 0)) by (rewrite Hv; nia).
Qed.

(** Splitting a text of digits at its sign and its point. *)
Definition isSign (b : Z) : bool := (b =? 43) || (b =? 45).

Lemma splitSign_text n s : (forall b r, s = b :: r -> isSign b = false) -> splitSign (signText n ++ s) = (n, s).
Proof.
  intros Hs. destruct n; [done|]. cbn [signText app]. destruct s as [|b s]; [done|].
  specialize (Hs b s eq_refl). unfold isSign in Hs. apply orb_false_iff in Hs as [H1 H2].
  bool_facts. unfold splitSign.
  repeat match goal with
  | |- context [match ?x with _ => _ end] => is_var x; destruct x; try done
  end; lia.
Qed.

Lemma splitPoint_digits ip fp point : is_digits ip -> point = [] /\ fp = [] \/ point = [46] ->
  splitPoint (ip ++ point ++ fp) = (ip, fp).
Proof.
  intros Hi Hp. destruct (digit_facts ip Hi) as (_ & _ & Di). unfold splitPoint, indexByte.
  destruct Hp as [[-> ->]| ->].
  - by rewrite !app_nil_r, (proj2 (indexFunc_None _ _)).
  - change ([46] ++ fp) with (46 :: fp). rewrite (indexFunc_app_no (Z.eqb 46) ip 46 fp) by done.
    rewrite take_app_length. f_equal. rewrite (cons_middle 46), app_assoc.
    apply drop_app_length'. rewrite length_app. cbn. lia.
Qed.

(** A value below [10^-100000] vanishes at every scale a column can have. *)
Lemma truncated_tiny V e k : 0 <= V < 10 ^ k -> 0 <= k -> k + e <= 0 -> truncated V e = 0.
Proof.
  intros HV Hk He. unfold truncated. destruct (Z.leb_spec 0 e).
  - assert (k = 0) as -> by lia. change (10 ^ 0) with 1 in HV. assert (V = 0) as -> by lia. lia.
  - apply Z.div_small. split; [lia|]. apply Z.lt_le_trans with (10 ^ k); [lia|]. apply Z.pow_le_mono_r; lia.
Qed.

Lemma truncated_zero e : truncated 0 e = 0.
Proof. unfold truncated. destruct (0 <=? e); [lia|]. apply Zdiv_0_l. Qed.

Lemma truncateToScale_spec negative ip fp exp scale :
  is_digits ip -> is_digits fp -> 0 <= scale <= 100000 ->
  let V := digitsVal (ip ++ fp) in
  let N := truncated V (exp - len fp + scale) in
  truncateToScale negative ip fp exp scale =
    if (0 <? V) && (100000 <? len ip + exp) then Fail (EText "decimal value out of range" [])
    else Ret (canonDigits N scale, negative && negb (N =? 0)).
Proof.
  intros Hi Hf Hs. cbv zeta.
  assert (is_digits (ip ++ fp)) as Hd by by apply is_digits_app.
  pose proof (digitsVal_range _ Hd) as HV. set (V := digitsVal (ip ++ fp)) in *.
  set (N := truncated V (exp - len fp + scale)).
  assert (forall digits point, is_digits digits ->
    truncated (digitsVal digits) (scale + (point - len digits)) = N ->
    (let '(intDigits, fracDigits) :=
       if point <=? 0 then ([], replicate (Z.to_nat (- point)) 48 ++ digits)
       else if len digits <=? point then (digits ++ replicate (Z.to_nat (point - len digits)) 48, [])
       else (take (Z.to_nat point) digits, drop (Z.to_nat point) digits) in
     let fracDigits := fitFraction fracDigits scale in
     let integerPart := trimLeft intDigits (lit "0") in
     let negative := if allZeros (integerPart ++ fracDigits) then false else negative in
     if len integerPart =? 0 then
       if len fracDigits =? 0 then Ret (lit "0", negative) else Ret (fracDigits, negative)
     else Ret (integerPart ++ fracDigits, negative)) =
    Ret (canonDigits N scale, negative && negb (N =? 0))) as Hmain.
  { intros digits point Hdig HN. pose proof (point_split digits point Hdig) as Hsplit.
    destruct (if point <=? 0 then _ else _) as [I F]. destruct Hsplit as (HI & HF & a & Ha & Hval & HL).
    destruct (fitFraction_facts F scale HF ltac:(lia)) as (HF' & HL' & Hv').
    destruct (canonDigits_join I (fitFraction F scale) scale HI HF' HL') as (Hout & Hsum & Hds).
    assert (digitsVal (I ++ fitFraction F scale) = N) as HvN.
    { rewrite digitsVal_app, HL', Hv', truncated_split; try lia.
      - rewrite <-digitsVal_app, Hval, truncated_shift by lia. rewrite <-HN. f_equal. lia.
      - pose proof (digitsVal_range I HI). lia.
      - by apply digitsVal_range.
      - apply len_nonneg. }
    cbv beta zeta in *. rewrite allZeros_val, Hsum, HvN by done. rewrite HvN in Hout. rewrite <-Hout.
    destruct (N =? 0), negative; cbn [negb andb];
    destruct (len (trimLeft I (lit "0")) =? 0), (len (fitFraction F scale) =? 0); done. }
  pose proof (len_nonneg ip). pose proof (len_nonneg fp).
  unfold truncateToScale. rewrite allZeros_val by done. fold V.
  unfold maxDecimalExponent. change (- (100000)) with (-100000).
  assert (V = 0 \/ len ip + exp < - 100000 ->
    N = 0 /\ truncated (digitsVal []) (scale + (0 - len (@nil Z))) = N) as Hnil.
  { intros Hcase. rewrite digitsVal_nil, truncated_zero. assert (N = 0) as ->; [|done].
    subst N. destruct Hcase as [->|]; [apply truncated_zero|].
    apply (truncated_tiny _ _ (len (ip ++ fp))); [done|apply len_nonneg|]. rewrite len_app. lia. }
  destruct (Z.eqb_spec V 0) as [E|E]; [|destruct (Z.ltb_spec (len ip + exp) (- 100000))]; cbn [orb].
  - destruct Hnil as [_ HN]; [by left|]. rewrite E. exact (Hmain [] 0 ltac:(constructor) HN).
  - destruct Hnil as [_ HN]; [by right|]. rewrite (proj2 (Z.ltb_ge 100000 _)), andb_false_r by lia.
    exact (Hmain [] 0 ltac:(constructor) HN).
  - rewrite (proj2 (Z.ltb_lt 0 V)) by lia. cbn [andb].
    destruct (Z.ltb_spec 100000 (len ip + exp)); [done|].
    apply (Hmain (ip ++ fp) (len ip + exp) Hd). subst N. fold V. f_equal. rewrite len_app. lia.
Qed.

(** The exponent clauses and the exponents they count as: none is zero; after a
    marker and an optional sign, at most nine digits are their number, and more
    digits are one more than the largest exponent, whatever their number. *)
Definition exponentOf (body : bytes) : Z := if 9 <? len body then maxDecimalExponent + 1 else digitsVal body.

Inductive exponent_clause : bytes -> Z -> Prop :=
| exponent_none : exponent_clause [] 0
| exponent_some c sign body :
    c = 101 \/ c = 69 -> sign = [] \/ sign = [43] \/ sign = [45] ->
    is_digits body -> body <> [] ->
    exponent_clause (c :: sign ++ body) (if beqb sign [45] then - exponentOf body else exponentOf body).

Lemma digit_not_sign b : isDigit b = true -> isSign b = false.
Proof. rewrite isDigit_range. unfold isSign. intros. by rewrite !(proj2 (Z.eqb_neq b _)) by lia. Qed.

Lemma atoi_digits body : is_digits body -> 1 <= len body <= 18 -> atoi body = Ret (digitsVal body).
Proof.
  intros Hd Hl. pose proof (digitsVal_range body Hd) as Hr.
  assert (10 ^ len body <= 10 ^ 18) by (apply Z.pow_le_mono_r; lia). change (10 ^ 18) with 1000000000000000000 in *.
  destruct body as [|b body]; [change (len (@nil Z)) with 0 in Hl; lia|].
  pose proof (digit_not_sign b (Forall_inv Hd)) as Hb. unfold isSign in Hb. apply orb_false_iff in Hb as [H1 H2].
  bool_facts. unfold parseInt64.
  assert (forall A (x y z : A), match b :: body with 43 :: _ => x | 45 :: _ => y | _ => z end = z) as E.
  { intros. repeat match goal with
    | |- context [match ?x with _ => _ end] => is_var x; destruct x; try done
    end; lia. }
  assert (match b :: body with
          | 43 :: s' => (false, s') | 45 :: s' => (true, s') | _ => (false, b :: body) end = (false, b :: body)) as ->.
  { clear E. repeat match goal with
    | |- context [match ?x with _ => _ end] => is_var x; destruct x; try done
    end; lia. }
  rewrite (proj2 (is_digits_forallb _) Hd). change (2 ^ 63) with 9223372036854775808.
  rewrite (proj2 (Z.leb_le _ _)), (proj2 (Z.ltb_lt _ _)) by lia. done.
Qed.

Lemma decimalExponent_clause s clause e :
  Forall (fun b => inSet (lit "eE") b = false) s -> exponent_clause clause e ->
  decimalExponent (s ++ clause) = Ret (s, e).
Proof.
  intros Hs [|c sign body Hc Hsg Hd Hl]; unfold decimalExponent, indexAny.
  - by rewrite app_nil_r, (proj2 (indexFunc_None _ _)).
  - rewrite indexFunc_app_no by (done || by destruct Hc as [->| ->]).
    rewrite take_app_length, (cons_middle c), app_assoc, drop_app_length' by (rewrite length_app; cbn; lia).
    assert (splitSign (sign ++ body) = (beqb sign [45], body)) as ->.
    { destruct Hsg as [->|[->| ->]]; [|done|done].
      apply (splitSign_text false). intros b r ->. by apply digit_not_sign, (Forall_inv Hd). }
    assert (0 < len body) by (destruct body; [done|len_lia]).
    rewrite (proj2 (Z.eqb_neq (len body) 0)) by lia. unfold isASCIIDigits, exponentOf.
    rewrite (proj2 (is_digits_forallb _)) by done. cbn [orb negb]. destruct (Z.ltb_spec 9 (len body)).
    + destruct (beqb sign [45]); do 2 f_equal; lia.
    + rewrite atoi_digits by (done || lia). destruct (beqb sign [45]); do 2 f_equal; lia.
Qed.

(** A whole decimal text. *)
Lemma decimalTextDigits_text n ip fp point clause e scale :
  is_digits ip -> is_digits fp -> ip ++ fp <> [] -> point = [] /\ fp = [] \/ point = [46] ->
  exponent_clause clause e -> 0 <= scale ->
  decimalTextDigits (signText n ++ ip ++ point ++ fp ++ clause) scale = truncateToScale n ip fp e scale.
Proof.
  intros Hi Hf Hl Hp He Hs.
  destruct (digit_facts ip Hi) as (Pi & Ei & Di). destruct (digit_facts fp Hf) as (Pf & Ef & Df).
  assert (Forall (fun b => plainByte b = true) (signText n ++ ip ++ point ++ fp ++ clause)) as Hplain.
  { rewrite !Forall_app. split_and!; [destruct n; by repeat constructor|done| |done|].
    - destruct Hp as [[-> _]| ->]; by repeat constructor.
    - destruct He as [|c sign body Hc Hsg Hd _]; [done|]. rewrite Forall_cons, Forall_app.
      destruct (digit_facts body Hd) as (? & _).
      split_and!; [by destruct Hc as [->| ->]| |done].
      destruct Hsg as [->|[->| ->]]; by repeat constructor. }
  unfold decimalTextDigits. rewrite trimSpace_forall, (proj2 (Z.ltb_ge scale 0)) by done.
  rewrite splitSign_text.
  2:{ intros b r E. destruct ip as [|d ip].
      - destruct Hp as [[-> ->]| ->]; [done|]. by injection E as <- _.
      - injection E as <- _. by apply digit_not_sign, (Forall_inv Hi). }
  replace (ip ++ point ++ fp ++ clause) with ((ip ++ point ++ fp) ++ clause) by by rewrite <-!app_assoc.
  rewrite (decimalExponent_clause _ _ e); [|rewrite !Forall_app; split_and!; [done| |done]|done].
  2:{ destruct Hp as [[-> _]| ->]; by repeat constructor. }
  cbn [mbind outcome_bind]. rewrite splitPoint_digits by done.
  assert ((len ip =? 0) && (len fp =? 0) = false) as ->.
  { apply andb_false_iff. rewrite !Z.eqb_neq. destruct ip; [right|left; len_lia]. destruct fp; [done|len_lia]. }
  unfold isASCIIDigits. rewrite !(proj2 (is_digits_forallb _)) by done. done.
Qed.

(** ** Packed and zoned bytes *)

Lemma fitDigits_facts digits n : is_digits digits -> 0 <= n ->
  is_digits (fitDigits digits n) /\ len (fitDigits digits n) = n.
Proof.
  intros Hd Hn. unfold fitDigits. destruct (Z.ltb_spec n (len digits)).
  - split; [by apply is_digits_drop|]. unfold len in *. rewrite length_drop. lia.
  - split; [apply is_digits_app; auto using is_digits_zeros|len_lia].
Qed.

Lemma fitDigits_val digits n : len digits <= n -> digitsVal (fitDigits digits n) = digitsVal digits.
Proof. intros. unfold fitDigits. rewrite (proj2 (Z.ltb_ge _ _)) by done. apply digitsVal_zeros. Qed.

(** Fitting to more slots first does not matter. *)
Lemma fitDigits_twice digits n m : len digits <= n <= m -> fitDigits (fitDigits digits m) n = fitDigits digits n.
Proof.
  intros [Hn Hm]. unfold fitDigits at 2 3. rewrite !(proj2 (Z.ltb_ge _ (len digits))) by lia.
  unfold fitDigits. autorewrite with golen. rewrite Z2Nat.id by lia.
  replace (m - len digits + len digits) with m by lia. destruct (Z.ltb_spec n m).
  - replace (Z.to_nat (m - len digits)) with (Z.to_nat (m - n) + Z.to_nat (n - len digits))%nat by lia.
    rewrite replicate_add, <-app_assoc. apply drop_app_length'. by rewrite length_replicate.
  - assert (n = m) as -> by lia. by rewrite Z.sub_diag.
Qed.

Lemma nibble_pair : forallb (fun h => forallb (fun l =>
    let b := Z.lor (u8 (Z.shiftl (Z.of_nat h) 4)) (Z.of_nat l) in
    (Z.land (Z.shiftr b 4) 15 =? Z.of_nat h) && (Z.land b 15 =? Z.of_nat l)) (seq 0 16)) (seq 0 10) = true.
Proof. vm_compute. exact eq_refl. Qed.

Lemma nibble_pair_spec h l : 0 <= h < 10 -> 0 <= l < 16 ->
  Z.land (Z.shiftr (Z.lor (u8 (Z.shiftl h 4)) l) 4) 15 = h /\
  Z.land (Z.lor (u8 (Z.shiftl h 4)) l) 15 = l.
Proof.
  intros Hh Hl. pose proof nibble_pair as HT.
  rewrite List.forallb_forall in HT. specialize (HT (Z.to_nat h)).
  rewrite List.in_seq in HT. specialize (HT ltac:(lia)). cbv beta in HT.
  rewrite List.forallb_forall in HT. specialize (HT (Z.to_nat l)).
  rewrite List.in_seq in HT. specialize (HT ltac:(lia)). cbv beta zeta in HT.
  rewrite !Z2Nat.id in HT by lia. apply andb_true_iff in HT as [H1 H2]. by bool_facts.
Qed.

Lemma digitNibble_digit d : isDigit d = true -> digitNibble (d - 48) = d /\ 0 <= d - 48 < 10.
Proof.
  rewrite isDigit_range. intros. unfold digitNibble. rewrite (proj2 (Z.ltb_ge 9 _)) by lia. lia.
Qed.

Lemma unpack_pack sg k digits : (sg = 12 \/ sg = 13) -> length digits = S (2 * k) -> is_digits digits ->
  unpackNibbles (packNibbles sg digits) = Ret (digits, sg).
Proof.
  intros Hsg. revert digits. induction k as [|k IH]; intros digits Hl Hd.
  - destruct digits as [|h [|]]; try done. apply Forall_inv, digitNibble_digit in Hd as [Hn Hr].
    cbn [packNibbles unpackNibbles].
    destruct (nibble_pair_spec (h - 48) sg) as [-> ->]; [lia|lia|].
    rewrite (proj2 (Z.ltb_ge 9 _)), (proj2 (Z.ltb_ge sg 10)), Hn by lia. done.
  - destruct digits as [|h [|l digits]]; try (cbn in Hl; lia).
    assert (length digits = S (2 * k)) as Hl' by (cbn in Hl; lia).
    apply Forall_cons in Hd as [[Hh Hhr]%digitNibble_digit [[Hlo Hlr]%digitNibble_digit Hd]%Forall_cons].
    specialize (IH digits Hl' Hd).
    cbn [packNibbles]. cbn [unpackNibbles]. destruct (nibble_pair_spec (h - 48) (l - 48)) as [-> ->]; [lia|lia|].
    rewrite !(proj2 (Z.ltb_ge 9 _)) by lia.
    destruct (packNibbles sg digits) as [|b bs] eqn:E.
    + destruct digits as [|? [|]]; done.
    + rewrite IH. cbn [mbind outcome_bind]. by rewrite Hh, Hlo.
Qed.

Lemma zone_nibbles : forallb (fun d => let n := Z.of_nat d in
    (Z.land (Z.lor 0xF0 n) 15 =? n) && (Z.land (Z.lor 0xD0 n) 15 =? n) &&
    (Z.land (Z.shiftr (Z.lor 0xF0 n) 4) 15 =? 15) && (Z.land (Z.shiftr (Z.lor 0xD0 n) 4) 15 =? 13))
  (seq 0 10) = true.
Proof. vm_compute. exact eq_refl. Qed.

Lemma zone_nibbles_spec n : 0 <= n < 10 ->
  Z.land (Z.lor 0xF0 n) 15 = n /\ Z.land (Z.lor 0xD0 n) 15 = n /\
  Z.land (Z.shiftr (Z.lor 0xF0 n) 4) 15 = 15 /\ Z.land (Z.shiftr (Z.lor 0xD0 n) 4) 15 = 13.
Proof.
  intros Hn. pose proof zone_nibbles as HT. rewrite List.forallb_forall in HT.
  specialize (HT (Z.to_nat n)). rewrite List.in_seq in HT. specialize (HT ltac:(lia)).
  cbv beta zeta in HT. rewrite Z2Nat.id in HT by lia. bool_facts. done.
Qed.

Lemma unzone_zone negative digits : digits <> [] -> is_digits digits ->
  unzoneBytes (zoneBytes negative digits) = Ret (digits, if negative : bool then 13 else 15).
Proof.
  intros Hne Hd. induction Hd as [|d digits Hdig Hd IH]; [done|].
  apply digitNibble_digit in Hdig as [_ Hr].
  destruct (zone_nibbles_spec (d - 48) Hr) as (F1 & D1 & F2 & D2).
  destruct digits as [|d' digits].
  - cbn [zoneBytes unzoneBytes]. destruct negative; rewrite ?F1, ?D1, ?F2, ?D2;
      rewrite (proj2 (Z.ltb_ge 9 _)) by lia; cbn; do 3 f_equal; lia.
  - specialize (IH ltac:(done)). change (zoneBytes negative (d :: d' :: digits)) with
      (Z.lor 0xF0 (d - 48) :: zoneBytes negative (d' :: digits)).
    cbn [unzoneBytes]. rewrite F1, (proj2 (Z.ltb_ge 9 _)) by lia.
    destruct (zoneBytes negative (d' :: digits)) as [|b bs] eqn:E; [by destruct digits|].
    rewrite IH. cbn [mbind outcome_bind]. do 3 f_equal. lia.
Qed.

(** The printed digits, split at the point. *)
Lemma insertPoint_split digits scale : is_digits digits -> 0 <= scale -> digits <> [] ->
  exists ip point fp, insertPoint digits scale = ip ++ point ++ fp /\ is_digits ip /\ is_digits fp /\
    (0 < length ip)%nat /\ (point = [] /\ fp = [] \/ point = [46]) /\ len fp = scale /\
    digitsVal (ip ++ fp) = digitsVal digits /\ len ip <= 1 + len digits.
Proof.
  intros Hd Hs Hne. assert (0 < len digits) by (destruct digits; [done|len_lia]).
  unfold insertPoint. destruct (Z.ltb_spec 0 scale).
  - set (ds := if len digits <=? scale then _ else _).
    assert (is_digits ds /\ scale < len ds /\ digitsVal ds = digitsVal digits /\ len ds <= scale + 1 + len digits)
      as (Hds & Hlt & Hv & Hle).
    { subst ds. destruct (Z.leb_spec (len digits) scale).
      - rewrite digitsVal_zeros. split_and!; [apply is_digits_app; auto using is_digits_zeros|len_lia|done|len_lia].
      - split_and!; [done|done|done|lia]. }
    exists (take (Z.to_nat (len ds - scale)) ds), [46], (drop (Z.to_nat (len ds - scale)) ds).
    rewrite take_drop. unfold len in *. rewrite length_take, length_drop.
    split_and!; [done|by apply is_digits_take|by apply is_digits_drop|lia|by right|lia|done|lia].
  - assert (scale = 0) as -> by lia. exists digits, [], [].
    rewrite !app_nil_r. unfold len in *. split_and!; [done|done|by constructor|lia|by left|done|done|lia].
Qed.

(** Reading back what a decoder prints for canonical digits. *)
Lemma reparse N scale negative P :
  0 <= N -> 0 <= scale <= 65535 -> len (canonDigits N scale) <= P <= 65535 ->
  decimalTextDigits (signText negative ++ insertPoint (fitDigits (canonDigits N scale) P) scale) scale =
    Ret (canonDigits N scale, negative && negb (N =? 0)).
Proof.
  intros HN Hs HP.
  assert (is_digits (canonDigits N scale) /\ digitsVal (canonDigits N scale) = N /\ 1 <= len (canonDigits N scale))
    as (Hd & Hv & Hl).
  { unfold canonDigits. destruct (Z.ltb_spec N (10 ^ scale)); [destruct (Z.eqb_spec scale 0) as [->|]|].
    - change (10 ^ 0) with 1 in *. assert (N = 0) as -> by lia. split_and!; [by repeat constructor|done|done].
    - rewrite digitsVal_fixed, len_fixedDigits, Z2Nat.id by lia.
      split_and!; [apply is_digits_fixed|by apply Z.mod_small|lia].
    - split_and!; [by apply is_digits_formatNat|by apply digitsVal_formatNat|]. by apply digits10_pos. }
  set (ds := canonDigits N scale) in *. destruct (fitDigits_facts ds P Hd ltac:(lia)) as [Hfd Hfl].
  destruct (insertPoint_split (fitDigits ds P) scale) as (ip & point & fp & -> & Hi & Hf & Hpos & Hp & HL & Hval & Hle).
  { done. }
  { lia. }
  { intros E. rewrite E in Hfl. change (len (@nil Z)) with 0 in Hfl. lia. }
  pose proof (decimalTextDigits_text negative ip fp point [] 0 scale) as E.
  rewrite app_nil_r in E. rewrite E; [|done|done|destruct ip; [cbn in Hpos; lia|done]|done|constructor|lia]. clear E.
  rewrite truncateToScale_spec by (done || lia). rewrite Hval, fitDigits_val by lia. rewrite Hv, HL.
  rewrite (proj2 (Z.ltb_ge 100000 _)), andb_false_r by lia.
  replace (truncated N (0 - scale + scale)) with N; [done|].
  replace (0 - scale + scale) with 0 by lia. unfold truncated. cbn. lia.
Qed.

(** The digits the parser returns are canonical. *)
Lemma decimalTextDigits_canonical text scale d n : 0 <= scale <= 65535 ->
  decimalTextDigits text scale = Ret (d, n) ->
  exists N, 0 <= N /\ d = canonDigits N scale /\ (n = true -> N <> 0).
Proof.
  intros Hs. unfold decimalTextDigits. rewrite (proj2 (Z.ltb_ge scale 0)) by lia.
  destruct (splitSign _) as [neg s]. intros ([s' e] & _ & H)%bind_Ret.
  destruct (splitPoint s') as [ip fp].
  destruct (((len ip =? 0) && (len fp =? 0)) || negb (isASCIIDigits ip) || negb (isASCIIDigits fp)) eqn:E; [done|].
  apply orb_false_iff in E as [[_ Hi%negb_false_iff]%orb_false_iff Hf%negb_false_iff].
  apply is_digits_forallb in Hi, Hf. rewrite truncateToScale_spec in H by (done || lia).
  destruct ((0 <? _) && _); [done|]. apply Ret_inj, pair_equal_spec in H as [Hd Hn].
  eexists. split_and!; [|by symmetry|].
  - pose proof (digitsVal_range (ip ++ fp)) as Hr. rewrite is_digits_app in Hr. specialize (Hr (conj Hi Hf)).
    unfold truncated. destruct (Z.leb_spec 0 (e - len fp + scale)).
    + pose proof (pow10_pos (e - len fp + scale)). nia.
    + apply Z.div_pos; [lia|]. apply pow10_pos. lia.
  - intros ->. apply andb_true_iff in Hn as [_ Hn%negb_true_iff]. by apply Z.eqb_neq.
Qed.

(** ** Numeric text to int64 *)

(** [m * 10^e] is the integer [n]. *)
Definition equals_scaled (m e n : Z) : Prop :=
  if 0 <=? e then n = m * 10 ^ e else n * 10 ^ (- e) = m.

Lemma equals_scaled_shift m k e n : 0 <= k ->
  equals_scaled (m * 10 ^ k) e n <-> equals_scaled m (e + k) n.
Proof.
  intros Hk. unfold equals_scaled. destruct (Z.leb_spec 0 e), (Z.leb_spec 0 (e + k)); try lia.
  - rewrite Z.pow_add_r by lia. split; intros ->; lia.
  - assert (10 ^ k = 10 ^ (e + k) * 10 ^ (- e)) as -> by (rewrite <-Z.pow_add_r by lia; f_equal; lia).
    pose proof (pow10_pos (- e)). rewrite Z.mul_assoc. split; [intros; nia|intros ->; done].
  - assert (10 ^ (- e) = 10 ^ (- (e + k)) * 10 ^ k) as -> by (rewrite <-Z.pow_add_r by lia; f_equal; lia).
    pose proof (pow10_pos k). rewrite Z.mul_assoc. split; [intros; nia|intros ->; done].
Qed.

Lemma equals_scaled_opp m e n : equals_scaled m e n <-> equals_scaled (- m) e (- n).
Proof. unfold equals_scaled. destruct (0 <=? e); lia. Qed.

(** Digits without a trailing zero. *)
Lemma trimRight_zeros s : is_digits s ->
  exists k, s = trimRight s (lit "0") ++ replicate k 48 /\
    (trimRight s (lit "0") <> [] -> digitsVal (trimRight s (lit "0")) mod 10 <> 0) /\
    is_digits (trimRight s (lit "0")).
Proof.
  intros Hs. unfold trimRight.
  assert (dropWhile (inSet (lit "0")) (reverse s) = dropWhile isZero (reverse s)) as ->
    by exact (trimZeros_isZero (reverse s)).
  destruct (dropWhile_split isZero (reverse s)) as (l & E & Hl).
  set (r := dropWhile isZero (reverse s)) in *.
  assert (s = reverse r ++ reverse l) as Es by (rewrite <-reverse_app, <-E; by rewrite reverse_involutive).
  assert (reverse l = replicate (length l) 48) as El.
  { clear -Hl. induction Hl as [|b l Hb _ IH]; [done|]. apply Z.eqb_eq in Hb as ->.
    rewrite reverse_cons, IH. cbn [length replicate]. by rewrite replicate_cons_app. }
  assert (is_digits (reverse r)) as Hr by (rewrite Es in Hs; by apply is_digits_app in Hs as [? _]).
  exists (length l). rewrite <-El. split_and!; [done| |done].
  intros Hne. destruct r as [|b r'] eqn:Er; [done|].
  pose proof (dropWhile_head isZero (reverse s) b r' Er) as Hb. apply Z.eqb_neq in Hb.
  rewrite reverse_cons, digitsVal_snoc. rewrite reverse_cons in Hr.
  apply is_digits_app in Hr as [_ Hd]. apply Forall_inv, isDigit_range in Hd.
  rewrite Z.add_comm, Z.mod_add, Z.mod_small by lia. lia.
Qed.

Lemma parseInt64_signed n s : is_digits s -> (0 < length s)%nat ->
  let v := if n : bool then - digitsVal s else digitsVal s in
  parseInt64 (signText n ++ s) = if (- 2 ^ 63 <=? v) && (v <? 2 ^ 63) then Ret v else Fail ERange.
Proof.
  intros Hs Hl. cbv zeta. unfold parseInt64.
  pose proof (splitSign_text n s) as E. unfold splitSign in E. rewrite E.
  - destruct s; [cbn in Hl; lia|]. by rewrite (proj2 (is_digits_forallb _) Hs).
  - intros b r ->. by apply digit_not_sign, (Forall_inv Hs).
Qed.

Lemma integerOfDigits_spec negative ip fp exp n :
  is_digits ip -> is_digits fp ->
  let m := if negative : bool then - digitsVal (ip ++ fp) else digitsVal (ip ++ fp) in
  integerOfDigits negative ip fp exp = Ret n <->
    equals_scaled m (exp - len fp) n /\ - 2 ^ 63 <= n < 2 ^ 63.
Proof.
  intros Hi Hf. cbv zeta. assert (is_digits (ip ++ fp)) as Hd by by apply is_digits_app.
  pose proof (digitsVal_range _ Hd) as HV. unfold integerOfDigits.
  rewrite trimZeros_isZero, dropZeros_formatNat by done. set (V := digitsVal (ip ++ fp)) in *.
  destruct (Z.eqb_spec V 0) as [E0|Hn].
  { rewrite E0. change (len (@nil Z) =? 0) with true. cbv iota. unfold equals_scaled.
    assert ((if negative then - 0 else 0) = 0) as -> by by destruct negative.
    split; [intros [= <-]; split; [by destruct (0 <=? _)|lia]|]. intros [H _]. f_equal.
    destruct (Z.leb_spec 0 (exp - len fp)); [lia|]. pose proof (pow10_pos (- (exp - len fp))). nia. }
  pose proof (digits10_pos V ltac:(lia)) as Hp. unfold digits10 in Hp.
  rewrite (proj2 (Z.eqb_neq (len (formatNat V)) 0)) by lia.
  assert (is_digits (formatNat V)) as HfV by (apply is_digits_formatNat; lia).
  assert (digitsVal (formatNat V) = V) as HvV by (apply digitsVal_formatNat; lia).
  destruct (trimRight_zeros (formatNat V) HfV) as (k & Ek & Hmod & Ht).
  set (t := trimRight (formatNat V) (lit "0")) in *.
  assert (len (formatNat V) - len t = Z.of_nat k) as -> by (rewrite Ek, len_app, len_replicate; lia).
  set (e := exp - len fp + Z.of_nat k).
  rewrite Ek, digitsVal_trailing in HvV.
  assert (t <> []) as Hne by (intros ->; rewrite digitsVal_nil in HvV; lia).
  specialize (Hmod Hne). pose proof (digitsVal_range t Ht) as HT.
  assert (equals_scaled (if negative then - V else V) (exp - len fp) n <->
          equals_scaled (if negative then - digitsVal t else digitsVal t) e n) as ->.
  { unfold e. rewrite <-equals_scaled_shift by lia. rewrite <-HvV. destruct negative; [|done].
    by rewrite <-Z.mul_opp_l. }
  destruct (Z.ltb_spec e 0).
  { split; [done|]. intros [H1 _]. exfalso. unfold equals_scaled in H1. rewrite (proj2 (Z.leb_gt 0 e)) in H1 by lia.
    assert (10 ^ (- e) = 10 ^ (- e - 1) * 10) as E10.
    { replace (- e) with (- e - 1 + 1) at 1 by lia. rewrite Z.pow_add_r by lia. done. }
    rewrite E10 in H1. apply Hmod. destruct negative.
    - replace (digitsVal t) with ((- n * 10 ^ (- e - 1)) * 10) by lia. apply Z.mod_mul. lia.
    - rewrite <-H1, Z.mul_assoc. apply Z.mod_mul. lia. }
  assert (0 < digitsVal t) as Hpos by (pose proof (pow10_pos (Z.of_nat k)); nia).
  unfold equals_scaled. rewrite (proj2 (Z.leb_le 0 e)) by lia.
  destruct (Z.ltb_spec 19 (len t + e)) as [Hbig|Hfit].
  { split; [done|]. intros [-> Hr]. exfalso.
    assert (10 ^ (len t - 1) <= digitsVal t) as Hlow.
    { pose proof (digits10_lower V ltac:(lia)) as HL. unfold digits10 in HL.
      rewrite Ek, len_app, len_replicate in HL. rewrite <-HvV in HL.
      replace (len t + Z.of_nat k - 1) with (len t - 1 + Z.of_nat k) in HL by lia.
      rewrite Z.pow_add_r in HL by (destruct t; [done|len_lia]).
      apply Z.mul_le_mono_pos_r with (10 ^ Z.of_nat k); [apply pow10_pos; lia|done]. }
    assert (10 ^ 19 <= digitsVal t * 10 ^ e).
    { pose proof (pow10_pos e). transitivity (10 ^ (len t - 1) * 10 ^ e); [|nia].
      rewrite <-Z.pow_add_r by (destruct t; [done|len_lia]). apply Z.pow_le_mono_r; lia. }
    change (10 ^ 19) with 10000000000000000000 in *. change (2 ^ 63) with 9223372036854775808 in *.
    destruct negative; lia. }
  set (s := t ++ replicate (Z.to_nat e) 48).
  assert (is_digits s) as Hs by (apply is_digits_app; auto using is_digits_zeros).
  assert ((if negative then 45 :: s else s) = signText negative ++ s) as -> by by destruct negative.
  rewrite parseInt64_signed; [|done|subst s; rewrite length_app; destruct t; [done|cbn; lia]].
  assert (digitsVal s = digitsVal t * 10 ^ e) as -> by (subst s; rewrite digitsVal_trailing, Z2Nat.id by lia; done).
  assert ((if negative then - digitsVal t else digitsVal t) * 10 ^ e =
    if negative then - (digitsVal t * 10 ^ e) else digitsVal t * 10 ^ e) as -> by (destruct negative; lia).
  set (v := if negative then _ else _).
  destruct (Z.leb_spec (- 2 ^ 63) v), (Z.ltb_spec v (2 ^ 63)); cbn [andb]; split; try done;
    try (intros [-> Hr]; by lia); try (intros [= <-]; split; [done|lia]); by intros [-> ?].
Qed.

(** * Properties *)

(** C22: The digits of a decimal text.  For a sign, digits with or without a
    point, and an exponent clause, [decimalTextDigits] returns the digits of the
    number rounded towards zero at the scale of the column, in canonical form;
    a result of zero is never negative; and the only error is a number other
    than zero whose point is behind more than 100000 digits.  An exponent of
    more than nine digits counts as 100001 or -100001, whatever its digits are,
    so that 1E0000000001 is out of range and not ten.  The scale is at most
    100000. *)
Theorem decimal_text_truncates (n : bool) (ip fp point clause : bytes) (e scale : Z) :
  is_digits ip -> is_digits fp -> ip ++ fp <> [] -> point = [] /\ fp = [] \/ point = [46] ->
  exponent_clause clause e -> 0 <= scale <= 100000 ->
  let V := digitsVal (ip ++ fp) in
  let N := truncated V (e - len fp + scale) in
  decimalTextDigits (signText n ++ ip ++ point ++ fp ++ clause) scale =
    if (0 <? V) && (100000 <? len ip + e) then Fail (EText "decimal value out of range" [])
    else Ret (canonDigits N scale, n && negb (N =? 0)).
Proof.
  intros Hi Hf Hne Hp He Hs. cbv zeta. rewrite (decimalTextDigits_text n ip fp point clause e) by (done || lia).
  by apply truncateToScale_spec.
Qed.

(** "-012.3456e+1" at scale 2 is -123.45. *)
Lemma decimal_text_truncates_witness :
  decimalTextDigits (lit "-012.3456e+1") 2 = Ret (lit "12345", true).
Proof.
  exact (decimal_text_truncates true (lit "012") (lit "3456") [46] (lit "e+1") 1 2
    ltac:(apply (bool_decide_unpack _); vm_compute; exact I)
    ltac:(apply (bool_decide_unpack _); vm_compute; exact I) ltac:(done) (or_intror eq_refl)
    (exponent_some 101 [43] (lit "1") (or_introl eq_refl) (or_intror (or_introl eq_refl))
       ltac:(apply (bool_decide_unpack _); vm_compute; exact I) ltac:(done)) ltac:(lia)).
Defined.

(** The decoder of each decimal type. *)
Definition decodeDecimalString (packed : bool) (data : bytes) (precision scale : Z) : outcome bytes :=
  if packed then decodePackedDecimalString data precision scale
  else decodeZonedDecimalString data precision scale.

(** The column is wide enough for its precision; zero means that the width is
    derived from the precision. *)
Definition field_fits (packed : bool) (f : parameterMarkerField) : Prop :=
  1 <= Precision f <= 65535 /\ 0 <= Scale f <= 65535 /\
  (FieldLength f = 0 \/ Precision f <= if packed then 2 * FieldLength f - 1 else FieldLength f).

Lemma decode_encode_digits packed f ds negative :
  field_fits packed f -> is_digits ds -> 1 <= len ds <= Precision f ->
  decodeDecimalString packed
    (if packed then packDecimalDigits ds negative f else zoneDecimalDigits ds negative f)
    (Precision f) (Scale f) =
  Ret (signText negative ++ insertPoint (fitDigits ds (Precision f)) (Scale f)).
Proof.
  intros (HP & HS & HF) Hd Hl. destruct packed; cbn [decodeDecimalString].
  - unfold packDecimalDigits. rewrite (proj2 (Z.eqb_neq (len ds) 0)) by lia.
    set (target := if FieldLength f <=? 0 then Z.quot (Precision f + 2) 2 else FieldLength f).
    assert (Precision f <= 2 * target - 1) as HT.
    { subst target. destruct (Z.leb_spec (FieldLength f) 0); [|lia].
      rewrite Z.quot_div_nonneg by lia. pose proof (Z.div_mod (Precision f + 2) 2). 
      pose proof (Z.mod_pos_bound (Precision f + 2) 2). lia. }
    rewrite (proj2 (Z.leb_gt target 0)), (proj2 (Z.ltb_ge (target * 2 - 1) 1)) by lia.
    destruct (fitDigits_facts ds (target * 2 - 1) Hd ltac:(lia)) as [Hfd Hfl].
    unfold decodePackedDecimalString.
    assert (unpackNibbles (packNibbles (if negative then 13 else 12) (fitDigits ds (target * 2 - 1))) =
      Ret (fitDigits ds (target * 2 - 1), if negative then 13 else 12)) as E.
    { apply (unpack_pack _ (Z.to_nat (target - 1))); [destruct negative; auto|unfold len in Hfl; lia|done]. }
    destruct (packNibbles _ _) as [|b bs] eqn:Eb.
    + apply Ret_inj, (f_equal fst) in E. cbn [fst] in E. rewrite <-E in Hfl. change (len (@nil Z)) with 0 in Hfl. lia.
    + rewrite (proj2 (Z.eqb_neq (len (b :: bs)) 0)), (proj2 (Z.ltb_ge _ 0)), E by len_lia. cbn [mbind outcome_bind].
      rewrite fitDigits_twice by lia. by destruct negative.
  - unfold zoneDecimalDigits. rewrite (proj2 (Z.eqb_neq (len ds) 0)) by lia.
    set (target := if FieldLength f <=? 0 then Precision f else FieldLength f).
    assert (Precision f <= target) as HT by (subst target; destruct (Z.leb_spec (FieldLength f) 0); lia).
    rewrite (proj2 (Z.leb_gt target 0)) by lia.
    destruct (fitDigits_facts ds target Hd ltac:(lia)) as [Hfd Hfl].
    unfold decodeZonedDecimalString.
    assert (fitDigits ds target <> []) as Hne by (intros E; rewrite E in Hfl; change (len (@nil Z)) with 0 in Hfl; lia).
    pose proof (unzone_zone negative (fitDigits ds target) Hne Hfd) as E.
    destruct (zoneBytes _ _) as [|b bs] eqn:Eb; [by apply Ret_inj, (f_equal fst) in E; cbn [fst] in E; rewrite <-E in Hne|].
    rewrite (proj2 (Z.eqb_neq (len (b :: bs)) 0)), E by len_lia. cbn [mbind outcome_bind].
    rewrite (proj2 (Z.ltb_ge _ 0)), fitDigits_twice by lia. by destruct negative.
Qed.

Lemma canonDigits_facts N scale : 0 <= N -> 0 <= scale ->
  is_digits (canonDigits N scale) /\ 1 <= len (canonDigits N scale).
Proof.
  intros HN Hs. unfold canonDigits. destruct (N <? 10 ^ scale); [destruct (Z.eqb_spec scale 0)|].
  - split; [by repeat constructor|done].
  - rewrite len_fixedDigits. split; [apply is_digits_fixed|lia].
  - split; [by apply is_digits_formatNat|by apply digits10_pos].
Qed.

(** What the decoder prints for the bytes of a text. *)
Definition storedDecimal (text : bytes) (f : parameterMarkerField) : outcome bytes :=
  '(digits, negative) ← decimalTextDigits text (Scale f);
  Ret (signText negative ++ insertPoint (fitDigits digits (Precision f)) (Scale f)).

Lemma encoded_decimal_decodes packed f text data :
  field_fits packed f -> encodeDecimalText text f packed = Ret data ->
  decodeDecimalString packed data (Precision f) (Scale f) = storedDecimal text f.
Proof.
  intros Hfit. pose proof Hfit as (HP & HS & _). unfold encodeDecimalText, normalizeDecimalText, storedDecimal.
  destruct (decimalTextDigits text (Scale f)) as [[digits negative]|e|] eqn:Hdig; [|done|done].
  destruct (decimalTextDigits_canonical text (Scale f) digits negative HS Hdig) as (N & HN & -> & _).
  destruct (canonDigits_facts N (Scale f) HN ltac:(lia)) as [Hd Hl].
  rewrite (proj2 (Z.ltb_lt 0 (Precision f))) by lia. cbn [andb mbind outcome_bind].
  destruct (Z.ltb_spec (Precision f) (len (canonDigits N (Scale f)))) as [|Hle]; [done|].
  intros <-%Ret_inj. by apply decode_encode_digits.
Qed.

(** C21: Packed and zoned decimal round trip.  Whatever text the encoder of a
    DECIMAL or NUMERIC parameter accepts, the decoder of the column prints a text
    that means the same digits with the same sign at the column's scale. *)
Theorem decimal_roundtrip (packed : bool) (f : parameterMarkerField) (text digits data : bytes) (negative : bool) :
  field_fits packed f ->
  decimalTextDigits text (Scale f) = Ret (digits, negative) ->
  encodeDecimalText text f packed = Ret data ->
  exists out, decodeDecimalString packed data (Precision f) (Scale f) = Ret out /\
    decimalTextDigits out (Scale f) = Ret (digits, negative).
Proof.
  intros Hfit Hdig Henc. pose proof Hfit as (HP & HS & _).
  destruct (decimalTextDigits_canonical text (Scale f) digits negative HS Hdig) as (N & HN & -> & Hneg).
  unfold encodeDecimalText, normalizeDecimalText in Henc. rewrite Hdig in Henc.
  rewrite (proj2 (Z.ltb_lt 0 _)) in Henc by lia. cbn [andb] in Henc.
  destruct (Z.ltb_spec (Precision f) (len (canonDigits N (Scale f)))) as [|Hle]; [done|].
  apply Ret_inj in Henc as <-. destruct (canonDigits_facts N (Scale f) HN ltac:(lia)) as [Hd Hl].
  eexists. split; [by apply decode_encode_digits|].
  rewrite reparse by lia. do 2 f_equal. destruct negative; [|done].
  by rewrite (proj2 (Z.eqb_neq N 0)) by auto.
Qed.

Lemma decimal_roundtrip_witness :
  let f := mkField [] 485 0 2 5 0 0 0 0 in
  exists out, decodeDecimalString true [0x00; 0x00; 0x5D] 5 2 = Ret out /\
    decimalTextDigits out 2 = Ret (lit "05", true).
Proof.
  exact (decimal_roundtrip true (mkField [] 485 0 2 5 0 0 0 0) (lit "-0.0599") (lit "05") [0x00; 0x00; 0x5D] true
    ltac:(unfold field_fits; cbn; lia) eq_refl eq_refl).
Defined.

(** Numeric text bound to an integer column is exact: the conversion
    returns [n] if and only if the number the digits, the point and the exponent
    denote is the integer [n] and fits 64 bits.  A fraction that does not vanish,
    and a number out of range, are errors, never rounded or wrapped. *)
Theorem int64_exact (negative : bool) (ip fp : bytes) (exp n : Z) :
  is_digits ip -> is_digits fp ->
  let m := if negative then - digitsVal (ip ++ fp) else digitsVal (ip ++ fp) in
  integerOfDigits negative ip fp exp = Ret n <->
    equals_scaled m (exp - len fp) n /\ - 2 ^ 63 <= n < 2 ^ 63.
Proof. apply integerOfDigits_spec. Qed.

Lemma int64_exact_witness :
  integerOfDigits true (lit "0922337203685477580") (lit "80") 1 = Ret (- 2 ^ 63) <->
    equals_scaled (- 92233720368547758080) (1 - 2) (- 2 ^ 63) /\ - 2 ^ 63 <= - 2 ^ 63 < 2 ^ 63.
Proof.
  exact (int64_exact true (lit "0922337203685477580") (lit "80") 1 (- 2 ^ 63)
    ltac:(apply (bool_decide_unpack _); vm_compute; exact I)
    ltac:(apply (bool_decide_unpack _); vm_compute; exact I)).
Defined.

(** An exponent clause of more than nine digits counts as out of range even
    when its value is small. *)
Example exponent_leading_zeros :
  decimalTextDigits (lit "1E000000001") 0 = Ret (lit "10", false) /\
  decimalTextDigits (lit "1E0000000001") 0 = Fail (EText "decimal value out of range" []).
Proof. split; vm_compute; reflexivity. Qed.
