(* ===== verification/Calendar.v ===== *)
(** The part of Go's [time] package that the driver uses: the proleptic
    Gregorian calendar, [time.Date] with its normalisation, and the layouts the
    driver formats and parses.  A [time] is an instant and the offset of its
    location from UTC; what is formatted is the wall clock there. *)
From Stdlib Require Import Strings.String.
From stdpp Require Import base list numbers strings.
From S2P Require Import Prelude GoStrings Digits.
Open Scope Z_scope.

(** ** Dates *)

Definition isLeap (year : Z) : bool :=
  (year mod 4 =? 0) && (negb (year mod 100 =? 0) || (year mod 400 =? 0)).

(** Days before each month of a common year. *)
Definition daysBefore : list Z := [0; 31; 59; 90; 120; 151; 181; 212; 243; 273; 304; 334; 365].

Definition monthStart (leap : bool) (month0 : Z) : Z :=
  nth (Z.to_nat month0) daysBefore 0 + (if leap && (2 <=? month0) then 1 else 0).

(** [daysIn(month, year)], months counted from zero. *)
Definition daysIn (leap : bool) (month0 : Z) : Z := monthStart leap (month0 + 1) - monthStart leap month0.

(** Days from 1 January of year 1 to 1 January of [year]. *)
Definition daysBeforeYear (year : Z) : Z :=
  let y := year - 1 in 365 * y + y / 4 - y / 100 + y / 400.

(** The day number of a date whose month and day may be out of range, as
    [time.Date] normalises it. *)
Definition dayNumber (year month day : Z) : Z :=
  let year' := year + (month - 1) / 12 in
  daysBeforeYear year' + monthStart (isLeap year') ((month - 1) mod 12) + day - 1.

(** The year and the day of the year, by cycles of 400, 100, 4 and 1 years. *)
Definition yearOfDay (d : Z) : Z * Z :=
  let n400 := d / 146097 in
  let d := d - 146097 * n400 in
  let n100 := Z.min 3 (d / 36524) in
  let d := d - 36524 * n100 in
  let n4 := d / 1461 in
  let d := d - 1461 * n4 in
  let n1 := Z.min 3 (d / 365) in
  (400 * n400 + 100 * n100 + 4 * n4 + n1 + 1, d - 365 * n1).

(** The month and the day of the month. *)
Definition monthOfDay (leap : bool) (yday : Z) : Z * Z :=
  let m := Z.quot yday 31 in
  let m := if monthStart leap (m + 1) <=? yday then m + 1 else m in
  (m + 1, yday - monthStart leap m + 1).

Record civil := mkCivil { year : Z; month : Z; day : Z; yearDay : Z }.

Definition civilOfDay (d : Z) : civil :=
  let '(y, yday) := yearOfDay d in
  let '(m, dd) := monthOfDay (isLeap y) yday in
  mkCivil y m dd (yday + 1).

Definition valid_date (y m d : Z) : Prop := 1 <= m <= 12 /\ 1 <= d <= daysIn (isLeap y) (m - 1).

#[export] Instance valid_date_dec y m d : Decision (valid_date y m d).
Proof. unfold valid_date. apply _. Defined.

(** ** Times *)

(** An instant in seconds and nanoseconds since 1970 in UTC, and the seconds that
    its location is ahead of UTC then. *)
Record time := mkTimeAt { unixSec : Z; nanosecond : Z; zone : Z }.

(** A time in UTC. *)
Notation mkTime sec ns := (mkTimeAt sec ns 0).

Definition epochDay : Z := 719162.  (* daysBeforeYear 1970 *)

(** The seconds of the wall clock. *)
Definition wall (t : time) : Z := unixSec t + zone t.

Definition dayOf (t : time) : Z := epochDay + wall t / 86400.
Definition secOf (t : time) : Z := wall t mod 86400.
Definition Date (t : time) : civil := civilOfDay (dayOf t).
Definition hourOf (t : time) : Z := secOf t / 3600.
Definition minuteOf (t : time) : Z := secOf t mod 3600 / 60.
Definition secondOf (t : time) : Z := secOf t mod 60.

(** [time.Date] in UTC. *)
Definition timeDate (y mo d h mi s ns : Z) : time :=
  mkTime ((dayNumber y mo d - epochDay) * 86400 + h * 3600 + mi * 60 + s + ns / 10 ^ 9) (ns mod 10 ^ 9).

Definition time_ok (t : time) : Prop := 0 <= nanosecond t < 10 ^ 9.

(** ** Layouts *)

(** [Format] of a year: four digits, a minus sign in front. *)
Definition formatYear (y : Z) : bytes := if y <? 0 then 45 :: padInt 4 (- y) else padInt 4 y.

Definition formatISODate (t : time) : bytes :=
  formatYear (year (Date t)) ++ [45] ++ padInt 2 (month (Date t)) ++ [45] ++ padInt 2 (day (Date t)).

Definition formatDotTime (t : time) : bytes :=
  padInt 2 (hourOf t) ++ [46] ++ padInt 2 (minuteOf t) ++ [46] ++ padInt 2 (secondOf t).

(** "2006-01-02-15.04.05" *)
Definition formatStamp (t : time) : bytes := formatISODate t ++ [45] ++ formatDotTime t.

(** ".999999999": the nanoseconds without trailing zeros. *)
Definition formatFraction9 (t : time) : bytes :=
  if nanosecond t =? 0 then [] else 46 :: trimRight (fixedDigits 9 (nanosecond t)) (lit "0").

Definition parseError : goerror := EText "parsing time" [].

(** A fixed two-digit number and the text behind it. *)
Definition getnum (s : bytes) : outcome (Z * bytes) :=
  match s with
  | a :: b :: s' => if isDigit a && isDigit b then Ret (digitsVal [a; b], s') else Fail parseError
  | _ => Fail parseError
  end.

(** One or two digits: the hour of the layout "15". *)
Definition getnum1 (s : bytes) : outcome (Z * bytes) :=
  match s with
  | a :: s' =>
      if isDigit a then
        match s' with
        | b :: s'' => if isDigit b then Ret (digitsVal [a; b], s'') else Ret (digitsVal [a], s')
        | [] => Ret (digitsVal [a], s')
        end
      else Fail parseError
  | [] => Fail parseError
  end.

Definition skipByte (c : Z) (s : bytes) : outcome bytes :=
  match s with
  | b :: s' => if b =? c then Ret s' else Fail parseError
  | [] => Fail parseError
  end.

Definition leadingDigits (s : bytes) : nat :=
  match indexFunc (fun b => negb (isDigit b)) s with Some n => n | None => length s end.

(** [atoi] of the package: a sign is accepted, and no digits at all are zero. *)
Definition stampAtoi (s : bytes) : outcome Z :=
  let '(negative, ds) :=
    match s with
    | 43 :: s' => (false, s')
    | 45 :: s' => (true, s')
    | _ => (false, s)
    end in
  if forallb isDigit ds then Ret (if negative : bool then - digitsVal ds else digitsVal ds)
  else Fail parseError.

(** [parseNanoseconds]: a point or comma and up to nine digits that count. *)
Definition parseNanoseconds (s : bytes) : outcome Z :=
  match s with
  | b :: ds =>
      if (b =? 46) || (b =? 44) then
        let ds := take 9 ds in
        ns ← stampAtoi ds;
        if ns <? 0 then Fail parseError else Ret (ns * 10 ^ (9 - len ds))
      else Fail parseError
  | [] => Fail parseError
  end.

(** The fraction behind the seconds: with no fraction in the layout, any number
    of digits; with [n] zeros in the layout, exactly [n]; with a point alone in
    the layout, that point. *)
Inductive fractionLayout := NoFraction | PointOnly | Zeros (n : nat).

Definition parseFraction (layout : fractionLayout) (s : bytes) : outcome (Z * bytes) :=
  let implicit (s : bytes) : outcome (Z * bytes) :=
    match s with
    | b :: c :: s' =>
        if ((b =? 46) || (b =? 44)) && isDigit c then
          let n := S (leadingDigits (c :: s')) in
          nanos ← parseNanoseconds (take n s);
          Ret (nanos, drop n s)
        else Ret (0, s)
    | _ => Ret (0, s)
    end in
  match layout with
  | NoFraction => implicit s
  | PointOnly =>
      '(nanos, s) ← implicit s;
      s ← skipByte 46 s;
      Ret (nanos, s)
  | Zeros n =>
      if len s <? Z.of_nat (S n) then Fail parseError
      else
        nanos ← parseNanoseconds (take (S n) s);
        Ret (nanos, drop (S n) s)
  end.

(** [time.Parse("2006-01-02-15.04.05" + fraction, s)]. *)
Definition parseStamp (layout : fractionLayout) (s : bytes) : outcome time :=
  if len s <? 4 then Fail parseError
  else if negb (forallb isDigit (take 4 s)) then Fail parseError
  else
    let y := digitsVal (take 4 s) in
    s ← skipByte 45 (drop 4 s);
    '(mo, s) ← getnum s;
    ensure ((0 <? mo) && (mo <=? 12)) parseError (
    s ← skipByte 45 s;
    '(d, s) ← getnum s;
    s ← skipByte 45 s;
    '(h, s) ← getnum1 s;
    ensure (h <? 24) parseError (
    s ← skipByte 46 s;
    '(mi, s) ← getnum s;
    ensure (mi <? 60) parseError (
    s ← skipByte 46 s;
    '(sec, s) ← getnum s;
    ensure (sec <? 60) parseError (
    '(nanos, s) ← parseFraction layout s;
    ensure (len s =? 0) parseError (
    ensure ((1 <=? d) && (d <=? daysIn (isLeap y) (mo - 1))) parseError (
    Ret (timeDate y mo d h mi sec nanos))))))).

(** * Lemmas *)

(** ** Years *)

Definition yearDays (leap : bool) : Z := if leap then 366 else 365.
Definition yearLength (y : Z) : Z := yearDays (isLeap y).

Lemma yearLength_cases y :
  yearLength y = 366 /\ isLeap y = true /\ (y mod 4 = 0 /\ (y mod 100 <> 0 \/ y mod 400 = 0)) \/
  yearLength y = 365 /\ isLeap y = false /\ (y mod 4 <> 0 \/ (y mod 100 = 0 /\ y mod 400 <> 0)).
Proof.
  unfold yearLength, isLeap.
  destruct (Z.eqb_spec (y mod 4) 0), (Z.eqb_spec (y mod 100) 0), (Z.eqb_spec (y mod 400) 0); cbn; auto 10.
Qed.

Lemma div_exact n k q r : n = k * q + r -> 0 <= r < k -> n / k = q.
Proof. intros -> Hr. rewrite (Z.mul_comm k), Z.div_add_l, Z.div_small by lia. lia. Qed.

(** A year split into its cycles. *)
Lemma year_parts y : exists a b c e,
  y - 1 = 400 * a + 100 * b + 4 * c + e /\ 0 <= b <= 3 /\ 0 <= c <= 24 /\ 0 <= e <= 3.
Proof.
  exists ((y - 1) / 400), ((y - 1) mod 400 / 100), ((y - 1) mod 100 / 4), ((y - 1) mod 4).
  Z.div_mod_to_equations. lia.
Qed.

Lemma daysBeforeYear_parts y a b c e :
  y - 1 = 400 * a + 100 * b + 4 * c + e -> 0 <= b <= 3 -> 0 <= c <= 24 -> 0 <= e <= 3 ->
  daysBeforeYear y = 146097 * a + 36524 * b + 1461 * c + 365 * e /\
  (yearLength y = 366 -> e = 3 /\ (c <> 24 \/ b = 3)) /\
  365 <= yearLength y <= 366 /\ (e = 3 -> c <> 24 \/ b = 3 -> yearLength y = 366).
Proof.
  intros E Hb Hc He. unfold daysBeforeYear. cbv zeta. rewrite E.
  rewrite (div_exact _ 4 (100 * a + 25 * b + c) e), (div_exact _ 100 (4 * a + b) (4 * c + e)),
    (div_exact _ 400 a (100 * b + 4 * c + e)) by lia.
  split; [lia|]. destruct (yearLength_cases y) as [(-> & _ & H1)|(-> & _ & H1)];
    Z.div_mod_to_equations; lia.
Qed.

Lemma yearOfDay_year y yday : 0 <= yday < yearLength y -> yearOfDay (daysBeforeYear y + yday) = (y, yday).
Proof.
  intros Hd. destruct (year_parts y) as (a & b & c & e & E & Hb & Hc & He).
  destruct (daysBeforeYear_parts y a b c e E Hb Hc He) as (-> & Hl & Hr & Hl').
  unfold yearOfDay. rewrite (div_exact _ 146097 a (36524 * b + 1461 * c + 365 * e + yday)) by lia.
  replace (146097 * a + 36524 * b + 1461 * c + 365 * e + yday - 146097 * a)
    with (36524 * b + (1461 * c + 365 * e + yday)) by lia.
  assert (Z.min 3 ((36524 * b + (1461 * c + 365 * e + yday)) / 36524) = b) as -> by (Z.div_mod_to_equations; lia).
  replace (36524 * b + (1461 * c + 365 * e + yday) - 36524 * b) with (1461 * c + (365 * e + yday)) by lia.
  rewrite (div_exact _ 1461 c (365 * e + yday)) by lia.
  replace (1461 * c + (365 * e + yday) - 1461 * c) with (365 * e + yday) by lia.
  assert (Z.min 3 ((365 * e + yday) / 365) = e) as -> by (Z.div_mod_to_equations; lia).
  f_equal; lia.
Qed.

(** Every day is in the year that [yearOfDay] finds. *)
Lemma yearOfDay_day d : exists y yday,
  yearOfDay d = (y, yday) /\ d = daysBeforeYear y + yday /\ 0 <= yday < yearLength y.
Proof.
  set (a := d / 146097). set (d1 := d - 146097 * a). set (b := Z.min 3 (d1 / 36524)).
  set (d2 := d1 - 36524 * b). set (c := d2 / 1461). set (d3 := d2 - 1461 * c). set (e := Z.min 3 (d3 / 365)).
  assert (0 <= d1 < 146097) by (subst d1 a; Z.div_mod_to_equations; lia).
  assert (0 <= b <= 3 /\ 0 <= d2 <= 36524 /\ (d2 = 36524 -> b = 3)) as (? & ? & ?)
    by (subst d2 b; Z.div_mod_to_equations; lia).
  assert (0 <= c <= 24 /\ 0 <= d3 <= 1460 /\ (d3 = 1460 -> c <> 24 \/ b = 3)) as (? & ? & ?)
    by (subst d3 c; Z.div_mod_to_equations; lia).
  assert (0 <= e <= 3 /\ 0 <= d3 - 365 * e <= 365 /\ (d3 - 365 * e = 365 -> e = 3)) as (? & ? & ?)
    by (subst e; Z.div_mod_to_equations; lia).
  exists (400 * a + 100 * b + 4 * c + e + 1), (d3 - 365 * e). split; [done|].
  destruct (daysBeforeYear_parts (400 * a + 100 * b + 4 * c + e + 1) a b c e) as (-> & _ & Hl & Hl'); lia.
Qed.

(** ** Months, by computation over a common and a leap year *)

Definition monthsAgree (leap : bool) : bool :=
  forallb (fun yday =>
    let '(m, d) := monthOfDay leap (Z.of_nat yday) in
    (1 <=? m) && (m <=? 12) && (1 <=? d) && (d <=? daysIn leap (m - 1)) &&
    (monthStart leap (m - 1) + d - 1 =? Z.of_nat yday)) (seq 0 (Z.to_nat (yearDays leap))) &&
  forallb (fun m => forallb (fun d =>
    bool_decide (monthOfDay leap (monthStart leap (Z.of_nat m - 1) + Z.of_nat d - 1) = (Z.of_nat m, Z.of_nat d)))
    (seq 1 (Z.to_nat (daysIn leap (Z.of_nat m - 1))))) (seq 1 12).

Lemma months_agree leap : monthsAgree leap = true.
Proof. destruct leap; vm_compute; reflexivity. Qed.

Lemma monthOfDay_day leap yday : 0 <= yday < yearDays leap ->
  exists m d, monthOfDay leap yday = (m, d) /\ 1 <= m <= 12 /\ 1 <= d <= daysIn leap (m - 1) /\
    yday = monthStart leap (m - 1) + d - 1.
Proof.
  intros Hd. pose proof (months_agree leap) as [H _]%andb_true_iff.
  rewrite List.forallb_forall in H. specialize (H (Z.to_nat yday)). rewrite List.in_seq in H.
  specialize (H ltac:(lia)). rewrite Z2Nat.id in H by lia.
  destruct (monthOfDay leap yday) as [m d]. exists m, d. bool_facts. split_and!; [done|lia..].
Qed.

Lemma monthOfDay_date leap m d : 1 <= m <= 12 -> 1 <= d <= daysIn leap (m - 1) ->
  monthOfDay leap (monthStart leap (m - 1) + d - 1) = (m, d).
Proof.
  intros Hm Hd. pose proof (months_agree leap) as [_ H]%andb_true_iff.
  rewrite List.forallb_forall in H. specialize (H (Z.to_nat m)). rewrite List.in_seq in H. specialize (H ltac:(lia)).
  rewrite List.forallb_forall in H. specialize (H (Z.to_nat d)). rewrite List.in_seq in H.
  rewrite !Z2Nat.id in H by lia. specialize (H ltac:(lia)). by apply bool_decide_eq_true in H.
Qed.

Definition monthsRange (leap : bool) : bool :=
  forallb (fun m => (0 <=? monthStart leap (Z.of_nat m)) && (1 <=? daysIn leap (Z.of_nat m)) &&
    (monthStart leap (Z.of_nat m) + daysIn leap (Z.of_nat m) <=? yearDays leap)) (seq 0 12).

Lemma months_range leap : monthsRange leap = true.
Proof. destruct leap; vm_compute; reflexivity. Qed.

Lemma month_range leap m0 : 0 <= m0 < 12 ->
  0 <= monthStart leap m0 /\ monthStart leap m0 + daysIn leap m0 <= yearDays leap.
Proof.
  intros Hm. pose proof (months_range leap) as H. unfold monthsRange in H.
  rewrite List.forallb_forall in H. specialize (H (Z.to_nat m0)). rewrite List.in_seq in H.
  rewrite Z2Nat.id in H by lia. specialize (H ltac:(lia)). bool_facts. lia.
Qed.

(** ** The calendar is a bijection *)

Lemma dayNumber_month y m d : 1 <= m <= 12 ->
  dayNumber y m d = daysBeforeYear y + (monthStart (isLeap y) (m - 1) + d - 1).
Proof.
  intros. unfold dayNumber. rewrite Z.div_small, Z.mod_small by lia. rewrite Z.add_0_r. lia.
Qed.

(** The date of a day is valid, and numbers that day, by month or by day of the year. *)
Lemma civilOfDay_day n :
  let c := civilOfDay n in
  valid_date (year c) (month c) (day c) /\ dayNumber (year c) (month c) (day c) = n /\
  1 <= yearDay c <= yearLength (year c) /\ dayNumber (year c) 1 (yearDay c) = n.
Proof.
  cbv zeta. unfold civilOfDay. destruct (yearOfDay_day n) as (y & yday & -> & -> & Hy).
  destruct (monthOfDay_day (isLeap y) yday) as (m & d & -> & Hm & Hd & E).
  { unfold yearLength in Hy. done. }
  cbn [year month day yearDay]. rewrite !dayNumber_month by lia. rewrite <-E.
  change (1 - 1) with 0. assert (monthStart (isLeap y) 0 = 0) as -> by by destruct (isLeap y).
  split_and!; [done|lia|lia|lia|lia].
Qed.

(** A valid date is the date of its day number. *)
Lemma civilOfDay_date y m d : valid_date y m d ->
  let c := civilOfDay (dayNumber y m d) in year c = y /\ month c = m /\ day c = d.
Proof.
  intros [Hm Hd]. rewrite dayNumber_month by done. unfold civilOfDay.
  pose proof (month_range (isLeap y) (m - 1) ltac:(lia)) as [? ?].
  rewrite yearOfDay_year by (unfold yearLength; lia).
  by rewrite monthOfDay_date.
Qed.

(** ** Times of day *)

Lemma secOf_range t : 0 <= secOf t < 86400.
Proof. apply Z.mod_pos_bound. lia. Qed.

Lemma clock_range t : 0 <= hourOf t < 24 /\ 0 <= minuteOf t < 60 /\ 0 <= secondOf t < 60 /\
  secOf t = hourOf t * 3600 + minuteOf t * 60 + secondOf t.
Proof.
  pose proof (secOf_range t). unfold hourOf, minuteOf, secondOf. Z.div_mod_to_equations. lia.
Qed.

Lemma timeDate_clock y mo d h mi s ns :
  0 <= h < 24 -> 0 <= mi < 60 -> 0 <= s < 60 -> 0 <= ns < 10 ^ 9 ->
  let t := timeDate y mo d h mi s ns in
  dayOf t = dayNumber y mo d /\ hourOf t = h /\ minuteOf t = mi /\ secondOf t = s /\ nanosecond t = ns.
Proof.
  intros Hh Hm Hs Hn. cbv zeta. unfold dayOf, hourOf, minuteOf, secondOf, secOf, wall, timeDate. cbn [unixSec nanosecond zone]. rewrite !Z.add_0_r.
  rewrite (Z.div_small ns), (Z.mod_small ns) by lia.
  set (n := dayNumber y mo d - epochDay).
  replace (n * 86400 + h * 3600 + mi * 60 + s + 0) with (h * 3600 + mi * 60 + s + n * 86400) by lia.
  rewrite Z.div_add, Z.mod_add by lia. subst n. Z.div_mod_to_equations. lia.
Qed.

Lemma time_eq t u :
  dayOf t = dayOf u -> secOf t = secOf u -> nanosecond t = nanosecond u -> zone t = zone u -> t = u.
Proof.
  unfold dayOf, secOf, wall. destruct t as [a n z], u as [b m w]; cbn. intros Hd Hs -> ->. f_equal.
  pose proof (Z.div_mod (a + w) 86400). pose proof (Z.div_mod (b + w) 86400). lia.
Qed.

(** What the fields of a time denote in UTC: the same wall clock there. *)
Definition inUTC (t : time) : time := mkTime (wall t) (nanosecond t).

Lemma inUTC_clock t : dayOf (inUTC t) = dayOf t /\ secOf (inUTC t) = secOf t.
Proof.
  unfold dayOf, secOf. assert (wall (inUTC t) = wall t) as ->; [|done]. unfold inUTC. unfold wall at 1. cbn. lia.
Qed.

Lemma timeDate_fields t : time_ok t ->
  timeDate (year (Date t)) (month (Date t)) (day (Date t)) (hourOf t) (minuteOf t) (secondOf t) (nanosecond t) = inUTC t.
Proof.
  intros Hn. destruct (clock_range t) as (Hh & Hm & Hs & E). destruct (inUTC_clock t) as [Ud Us].
  destruct (timeDate_clock (year (Date t)) (month (Date t)) (day (Date t)) (hourOf t) (minuteOf t) (secondOf t)
    (nanosecond t) Hh Hm Hs Hn) as (Hd & Eh & Em & Es & En).
  apply time_eq; [|rewrite Us, (proj2 (proj2 (proj2 (clock_range (timeDate _ _ _ _ _ _ _))))); lia|done|done].
  rewrite Hd, Ud. apply civilOfDay_day.
Qed.

Lemma Date_valid t : valid_date (year (Date t)) (month (Date t)) (day (Date t)).
Proof. apply civilOfDay_day. Qed.

Lemma valid_date_range y m d : valid_date y m d -> 1 <= m <= 12 /\ 1 <= d <= 31.
Proof.
  intros [Hm Hd]. split; [done|]. split; [lia|]. etransitivity; [apply Hd|].
  assert (m = 1 \/ m = 2 \/ m = 3 \/ m = 4 \/ m = 5 \/ m = 6 \/ m = 7 \/ m = 8 \/ m = 9 \/ m = 10 \/ m = 11 \/ m = 12)
    as Hc by lia.
  destruct (isLeap y); repeat destruct Hc as [->|Hc]; subst; vm_compute; discriminate.
Qed.

(** ** Reading formatted fields *)

Lemma two_digits n : 0 <= n < 100 -> exists a b,
  fixedDigits 2 n = [a; b] /\ isDigit a = true /\ isDigit b = true.
Proof.
  intros Hn. pose proof (is_digits_fixed 2 n) as Hd. pose proof (length_fixedDigits 2 n) as Hl.
  destruct (fixedDigits 2 n) as [|a [|b [|]]]; try done. exists a, b.
  apply Forall_cons in Hd as [? [? _]%Forall_cons]. done.
Qed.

Lemma getnum_fixed n s : 0 <= n < 100 -> getnum (fixedDigits 2 n ++ s) = Ret (n, s).
Proof.
  intros Hn. destruct (two_digits n Hn) as (a & b & E & Ha & Hb). rewrite E. cbn [app getnum].
  rewrite Ha, Hb. cbn [andb]. do 2 f_equal. rewrite <-E, digitsVal_fixed by lia. by apply Z.mod_small.
Qed.

Lemma getnum1_fixed n s : 0 <= n < 100 -> getnum1 (fixedDigits 2 n ++ s) = Ret (n, s).
Proof.
  intros Hn. destruct (two_digits n Hn) as (a & b & E & Ha & Hb). rewrite E. cbn [app getnum1].
  rewrite Ha, Hb. do 2 f_equal. rewrite <-E, digitsVal_fixed by lia. by apply Z.mod_small.
Qed.

Lemma skipByte_same c s : skipByte c (c :: s) = Ret s.
Proof. cbn. by rewrite Z.eqb_refl. Qed.

Lemma formatYear_fixed y : 0 <= y <= 9999 -> formatYear y = fixedDigits 4 y.
Proof.
  intros. unfold formatYear. rewrite (proj2 (Z.ltb_ge y 0)) by lia. apply padInt_fixed; [|lia].
  change (10 ^ Z.of_nat 4) with 10000. lia.
Qed.

Lemma padInt2_fixed n : 0 <= n < 100 -> padInt 2 n = fixedDigits 2 n.
Proof. intros. by apply padInt_fixed; [|lia]. Qed.

(** The text of a time, field by field. *)
Lemma formatStamp_fields t : 0 <= year (Date t) <= 9999 ->
  formatStamp t = fixedDigits 4 (year (Date t)) ++ 45 :: fixedDigits 2 (month (Date t)) ++
    45 :: fixedDigits 2 (day (Date t)) ++ 45 :: fixedDigits 2 (hourOf t) ++
    46 :: fixedDigits 2 (minuteOf t) ++ 46 :: fixedDigits 2 (secondOf t).
Proof.
  intros Hy. unfold formatStamp, formatISODate, formatDotTime.
  destruct (clock_range t) as (? & ? & ? & _). destruct (valid_date_range _ _ _ (Date_valid t)).
  rewrite formatYear_fixed, !padInt2_fixed by lia. by rewrite <-!app_assoc.
Qed.

(** Parsing a formatted time, up to the fraction. *)
Lemma parseStamp_format layout t rest nanos :
  0 <= year (Date t) <= 9999 -> 0 <= nanos < 10 ^ 9 ->
  parseFraction layout rest = Ret (nanos, []) ->
  parseStamp layout (formatStamp t ++ rest) = Ret (mkTime (wall t) nanos).
Proof.
  intros Hy Hn Hf. rewrite formatStamp_fields by done.
  destruct (clock_range t) as (Hh & Hm & Hs & _). pose proof (Date_valid t) as Hv.
  destruct (valid_date_range _ _ _ Hv) as [Hmo Hd]. unfold parseStamp.
  set (y := year (Date t)) in *. set (mo := month (Date t)) in *. set (d := day (Date t)) in *.
  repeat (progress (rewrite <-?app_assoc; cbn [app])).
  rewrite (proj2 (Z.ltb_ge (len _) 4)) by (rewrite len_app, len_fixedDigits; len_lia).
  rewrite take_app_length' by by rewrite length_fixedDigits.
  rewrite drop_app_length' by by rewrite length_fixedDigits.
  rewrite (proj2 (is_digits_forallb _)) by apply is_digits_fixed. cbn [negb].
  rewrite digitsVal_fixed, Z.mod_small by (change (10 ^ Z.of_nat 4) with 10000; lia).
  rewrite skipByte_same. cbn [mbind outcome_bind].
  rewrite (getnum_fixed mo) by lia. cbn [mbind outcome_bind]. unfold ensure.
  rewrite (proj2 (Z.ltb_lt 0 mo)), (proj2 (Z.leb_le mo 12)) by lia. cbn [andb].
  rewrite skipByte_same. cbn [mbind outcome_bind]. rewrite (getnum_fixed d) by lia. cbn [mbind outcome_bind].
  rewrite skipByte_same. cbn [mbind outcome_bind].
  rewrite (getnum1_fixed (hourOf t)) by lia. cbn [mbind outcome_bind]. rewrite (proj2 (Z.ltb_lt (hourOf t) 24)) by lia.
  rewrite skipByte_same. cbn [mbind outcome_bind].
  rewrite (getnum_fixed (minuteOf t)) by lia. cbn [mbind outcome_bind]. rewrite (proj2 (Z.ltb_lt (minuteOf t) 60)) by lia.
  rewrite skipByte_same. cbn [mbind outcome_bind].
  rewrite (getnum_fixed (secondOf t)) by lia. cbn [mbind outcome_bind]. rewrite (proj2 (Z.ltb_lt (secondOf t) 60)) by lia.
  rewrite Hf. cbn [mbind outcome_bind]. rewrite len_nil. cbn [Z.eqb].
  destruct Hv as [_ [Hd1 Hd2]]. rewrite (proj2 (Z.leb_le 1 d)), (proj2 (Z.leb_le d _)) by done. cbn [andb].
  f_equal. pose proof (timeDate_fields (mkTimeAt (unixSec t) nanos (zone t)) Hn) as E. exact E.
Qed.
