(* ===== verification/Values.v ===== *)
(** Go values as the driver sees them: the values database/sql hands over, the
    arguments a caller may pass, and their normalisation ([CheckNamedValue] of
    driver.go and the default converter of database/sql/driver).

    Floating-point numbers are their IEEE 754 bit patterns; the conversions
    between them and integers are written out.  Their decimal texts, which
    strconv computes, are an interface. *)
From Stdlib Require Import Strings.String.
From stdpp Require Import base list numbers strings.
From S2P Require Import Prelude GoStrings Digits Calendar.
Open Scope Z_scope.

(** ** Floating-point numbers *)

(** A binary format: the precision, the exponent of the last place of the
    smallest numbers, and the exponent field's all-ones pattern. *)
Record floatFormat := mkFloatFormat { precisionBits : Z; minExponent : Z; specialExponent : Z }.
Definition binary64 : floatFormat := mkFloatFormat 53 (-1074) 2047.
Definition binary32 : floatFormat := mkFloatFormat 24 (-149) 255.

Definition fractionBits (f : floatFormat) : Z := precisionBits f - 1.
Definition signBit (f : floatFormat) : Z := (specialExponent f + 1) * 2 ^ fractionBits f.
Definition infinityBits (f : floatFormat) : Z := specialExponent f * 2 ^ fractionBits f.

Definition isNegative (f : floatFormat) (bits : Z) : bool := signBit f <=? bits.
Definition magnitude (f : floatFormat) (bits : Z) : Z := bits mod signBit f.
Definition isNaN (f : floatFormat) (bits : Z) : bool := infinityBits f <? magnitude f bits.
Definition isInf (f : floatFormat) (bits : Z) : bool := magnitude f bits =? infinityBits f.

(** A finite number is [m * 2^e]; this is [(m, e)]. *)
Definition finiteParts (f : floatFormat) (bits : Z) : Z * Z :=
  let a := magnitude f bits in
  let exp := a / 2 ^ fractionBits f in
  let '(m, e) := if exp =? 0 then (a, minExponent f)
                 else (a mod 2 ^ fractionBits f + 2 ^ fractionBits f, minExponent f + exp - 1) in
  (if isNegative f bits then - m else m, e).

(** [a / 2^s] rounded to nearest, ties to even. *)
Definition shiftRounded (a s : Z) : Z :=
  if s <=? 0 then a * 2 ^ (- s)
  else
    let q := a / 2 ^ s in
    let r := a mod 2 ^ s in
    if (2 ^ (s - 1) <? r) || ((r =? 2 ^ (s - 1)) && Z.odd q) then q + 1 else q.

(** The bits of the number nearest to [m * 2^e]; a negative zero keeps its sign
    through [negative]. *)
Definition roundFloat (f : floatFormat) (negative : bool) (a e : Z) : Z :=
  let t := Z.max (Z.log2 a + e - fractionBits f) (minExponent f) in
  let bits := if a =? 0 then 0 else (t - minExponent f) * 2 ^ fractionBits f + shiftRounded a (t - e) in
  Z.min bits (infinityBits f) + (if negative then signBit f else 0).

(** [float64(n)]. *)
Definition float64OfInt (n : Z) : Z := roundFloat binary64 (n <? 0) (Z.abs n) 0.

(** [float32(v)] and [float64(v)] between the formats. *)
Definition convertFloat (from to : floatFormat) (bits : Z) : Z :=
  let negative := isNegative from bits in
  if isNaN from bits then
    let fraction := magnitude from bits - infinityBits from in
    let shift := fractionBits to - fractionBits from in
    infinityBits to + Z.lor (2 ^ (fractionBits to - 1)) (Z.shiftl fraction shift mod 2 ^ fractionBits to)
    + (if negative then signBit to else 0)
  else if isInf from bits then infinityBits to + (if negative then signBit to else 0)
  else let '(m, e) := finiteParts from bits in roundFloat to negative (Z.abs m) e.

Definition float32Of (bits : Z) : Z := convertFloat binary64 binary32 bits.
Definition float64Of (bits : Z) : Z := convertFloat binary32 binary64 bits.

(** strconv's decimal texts: [FormatFloat(v, 'f', -1, 64)], [FormatFloat(v, 'g',
    -1, 64)] and [ParseFloat(s, 64)], whose result has 64 bits. *)
Class FloatText := {
  formatFloat : Z -> bytes;
  formatFloatG : Z -> bytes;
  parseFloat : bytes -> outcome Z;
  parseFloat_range s bits : parseFloat s = Ret bits -> 0 <= bits < 2 ^ 64;
}.

(** ** Values *)

(** [driver.Value]. *)
Inductive driverValue :=
| VNil
| VInt64 (n : Z)
| VFloat64 (bits : Z)
| VBool (b : bool)
| VString (s : bytes)
| VBytes (s : bytes)
| VTime (t : time).

(** Where a [sql.Out] puts its value: nothing, a value that is not a pointer, or
    a pointer, nil or not, which is a slot of the caller's memory. *)
Inductive outDestination :=
| DestNil
| DestNotPointer
| DestPointer (slot : nat) (isNilPointer : bool).

(** What a caller may pass: a value, an integer or float of another Go type, a
    type with an underlying basic type, a [driver.Valuer] with what its [Value]
    returns, a pointer, a [sql.Out] with the value its destination holds, or anything
    else. *)
#[warnings="-register-all"]
Inductive goAny :=
| Native (v : driverValue)
| GoInt (n : Z)
| GoUint (n : Z)
| GoFloat32 (bits : Z)
| GoValuer (result : outcome driverValue)
| GoNamedInt (n : Z)
| GoNamedUint (n : Z)
| GoNamedFloat (bits : Z)
| GoNamedString (s : bytes)
| GoNamedBool (b : bool)
| GoNamedBytes (s : bytes)
| GoPointer (pointee : option goAny)
| GoOut (dest : outDestination) (isIn : bool) (held : goAny)
| GoOther.

(** What an output slot is: the Go type it points to, as far as [reflect]
    tells its values apart, and the value it holds.  An interface type comes with
    the values that implement it; [KindOther] is any other type, with the values
    [reflect] can assign or convert to it. *)
Inductive destinationKind :=
| KindScanner
| KindInterface (implements : driverValue -> bool)
| KindString
| KindBool
| KindInt (bitSize : Z)
| KindUint (bitSize : Z)
| KindFloat32
| KindFloat64
| KindBytes
| KindOther (convert : driverValue -> option goAny) (zero : goAny).

Record destination := mkDestination { kind : destinationKind; held : goAny }.

Record NamedValue := mkNamedValue { argName : bytes; Ordinal : Z; Value : goAny }.

Definition withValue (v : NamedValue) (x : goAny) : NamedValue := mkNamedValue (argName v) (Ordinal v) x.

(** [driver.ErrSkip]. *)
Definition ErrSkip : goerror := EText "driver: skip fast-path; continue as if unimplemented" [].

Definition uintOverflows : goerror := EText "value overflows int64" [].

Definition checkedUint (n : Z) : outcome driverValue :=
  if 2 ^ 63 - 1 <? n then Fail uintOverflows else Ret (VInt64 n).

Definition CheckNamedValue (value : NamedValue) : outcome NamedValue :=
  let keep (v : driverValue) := Ret (withValue value (Native v)) in
  match Value value with
  | GoOut DestNil _ _ => Fail (EText "sql.Out destination must not be nil" [])
  | GoOut _ _ _ => Ret value
  | Native _ => Ret value
  | GoInt n => keep (VInt64 n)
  | GoUint n => v ← checkedUint n; keep v
  | GoFloat32 bits => keep (VFloat64 (float64Of bits))
  | GoValuer result => v ← result; keep v
  | GoNamedInt n => keep (VInt64 n)
  | GoNamedUint n => v ← checkedUint n; keep v
  | GoNamedFloat bits => keep (VFloat64 bits)
  | GoNamedString s => keep (VString s)
  | GoNamedBool _ | GoNamedBytes _ | GoPointer _ | GoOther => Fail ErrSkip
  end.

(** [driver.DefaultParameterConverter.ConvertValue]. *)
Definition unsupportedType : goerror := EText "unsupported type" [].

Fixpoint ConvertValue (v : goAny) : outcome driverValue :=
  match v with
  | Native v => Ret v
  | GoInt n | GoNamedInt n => Ret (VInt64 n)
  | GoUint n | GoNamedUint n => checkedUint n
  | GoFloat32 bits => Ret (VFloat64 (float64Of bits))
  | GoNamedFloat bits => Ret (VFloat64 bits)
  | GoValuer result => result
  | GoNamedString s => Ret (VString s)
  | GoNamedBool b => Ret (VBool b)
  | GoNamedBytes s => Ret (VBytes s)
  | GoPointer None => Ret VNil
  | GoPointer (Some v) => ConvertValue v
  | GoOut _ _ _ | GoOther => Fail unsupportedType
  end.

(** ** Texts of values *)

Definition boolText (b : bool) : bytes := if b then lit "1" else lit "0".

Fixpoint replaceQuotes (s : bytes) : bytes :=
  match s with [] => [] | b :: s' => if b =? 39 then 39 :: 39 :: replaceQuotes s' else b :: replaceQuotes s' end.

Definition hexText (s : bytes) : bytes := concat ((fun b => [hexDigit (b / 16); hexDigit (b mod 16)]) <$> s).

Section Texts.
Context `{FloatText}.

Definition sqlLiteral (v : driverValue) : bytes :=
  match v with
  | VNil => lit "NULL"
  | VInt64 n => formatInt n
  | VFloat64 bits => formatFloatG bits
  | VBool b => boolText b
  | VString s => [39] ++ replaceQuotes s ++ [39]
  | VBytes s => lit "X'" ++ hexText s ++ [39]
  | VTime t => lit "TIMESTAMP('" ++ formatStamp t ++ formatFraction9 t ++ lit "')"
  end.

Definition sqlLiteralFromNamedValue (value : NamedValue) : outcome bytes :=
  sqlLiteral <$> ConvertValue (Value value).

Definition parameterFieldValueString (value : driverValue) : bytes :=
  match value with
  | VString s | VBytes s => s
  | VInt64 n => formatInt n
  | VFloat64 bits => formatFloat bits
  | VBool b => boolText b
  | VTime t => formatStamp t ++ formatFraction9 t
  | VNil => lit "<nil>"
  end.
End Texts.

(** Only for evaluating examples without floating-point texts. *)
#[refine] Definition noFloatText : FloatText := {|
  formatFloat _ := []; formatFloatG _ := []; parseFloat _ := Fail ESyntax
|}.
Proof. done. Defined.

(** * Lemmas *)

Lemma lor_lt_pow2 a b k : 0 <= k -> 0 <= a < 2 ^ k -> 0 <= b < 2 ^ k -> 0 <= Z.lor a b < 2 ^ k.
Proof.
  intros Hk Ha Hb. split; [apply Z.lor_nonneg; lia|]. destruct (Z.eq_dec (Z.lor a b) 0) as [->|Hn]; [lia|].
  pose proof (proj2 (Z.lor_nonneg a b) ltac:(lia)) as Hl. apply Z.log2_lt_pow2; [lia|]. rewrite Z.log2_lor by lia.
  assert (forall x, 0 <= x < 2 ^ k -> x = 0 \/ Z.log2 x < k) as H.
  { intros x Hx. destruct (Z.eq_dec x 0); [by left|right]. apply Z.log2_lt_pow2; lia. }
  destruct (H a Ha) as [->|], (H b Hb) as [->|]; change (Z.log2 0) with 0; rewrite ?Z.lor_0_l, ?Z.lor_0_r in *; try lia.
  - pose proof (Z.log2_nonneg b). lia.
  - pose proof (Z.log2_nonneg a). lia.
Qed.

Definition format_ok (f : floatFormat) : Prop := 1 < precisionBits f /\ 0 < specialExponent f.

Lemma shiftRounded_nonneg a s : 0 <= a -> 0 <= shiftRounded a s.
Proof.
  intros Ha. unfold shiftRounded. destruct (Z.leb_spec s 0); [pose proof (Z.pow_nonneg 2 (- s)); nia|].
  pose proof (Z.div_pos a (2 ^ s) Ha ltac:(apply Z.pow_pos_nonneg; lia)). case_match; lia.
Qed.

Lemma roundFloat_range f negative a e :
  format_ok f -> 0 <= a -> 0 <= roundFloat f negative a e < 2 * signBit f.
Proof.
  intros [Hp Hs] Ha. unfold roundFloat, signBit, infinityBits, fractionBits.
  set (F := 2 ^ (precisionBits f - 1)). assert (0 < F) by (apply Z.pow_pos_nonneg; lia).
  set (t := Z.max _ _). assert (minExponent f <= t) by (subst t; lia).
  pose proof (shiftRounded_nonneg a (t - e) Ha). destruct (a =? 0), negative; nia.
Qed.

Lemma binary64_ok : format_ok binary64.
Proof. done. Qed.
Lemma binary32_ok : format_ok binary32.
Proof. done. Qed.

Lemma float64OfInt_range n : 0 <= float64OfInt n < 2 ^ 64.
Proof. apply (roundFloat_range binary64); [apply binary64_ok|lia]. Qed.

Lemma convertFloat_range from to bits : format_ok to -> 0 <= convertFloat from to bits < 2 * signBit to.
Proof.
  intros Hf. pose proof Hf as [Hp Hs]. unfold convertFloat. pose proof (Z.pow_pos_nonneg 2 (fractionBits to) ltac:(lia) ltac:(unfold fractionBits; lia)) as HF.
  destruct (isNaN from bits); [|destruct (isInf from bits)].
  - set (x := Z.lor _ _). assert (0 <= x < 2 ^ fractionBits to) as Hx.
    { pose proof (Z.mod_pos_bound (Z.shiftl (magnitude from bits - infinityBits from) (fractionBits to - fractionBits from)) _ HF) as Hm.
      subst x. set (y := _ mod _) in *. assert (0 <= 2 ^ (fractionBits to - 1)) by (apply Z.pow_nonneg; lia).
      apply lor_lt_pow2; [unfold fractionBits; lia| |lia]. split; [done|].
      apply Z.pow_lt_mono_r; unfold fractionBits; lia. }
    unfold signBit, infinityBits. case_match; nia.
  - unfold signBit, infinityBits. case_match; nia.
  - destruct (finiteParts from bits) as [m e]. apply roundFloat_range; [done|lia].
Qed.

Lemma float32Of_range bits : 0 <= float32Of bits < 2 ^ 32.
Proof. apply (convertFloat_range binary64 binary32), binary32_ok. Qed.
