(* ===== verification/Placeholders.v ===== *)
(** Parameter placeholders in SQL text (stmt.go): counting [?] and [:name]
    placeholders, rewriting names to [?], putting literals in their place, and
    bringing named arguments into order.

    The three scans are the loops of [countSQLPlaceholders],
    [rewriteNamedParams] and [expandSQLQuery]; [lex] is the lexical structure
    all three follow.  The loops run over what is left of the text; each turn
    consumes a byte at least, so the length of the text is enough fuel. *)
From Stdlib Require Import Strings.String.
From stdpp Require Import base list numbers strings gmap.
From S2P Require Import Prelude GoStrings Digits Calendar Values.
Open Scope Z_scope.

Inductive sqlScanState :=
| sqlScanNormal
| sqlScanSingleQuoted
| sqlScanDoubleQuoted
| sqlScanLineComment
| sqlScanBlockComment.

#[export] Instance sqlScanState_eq_dec : EqDecision sqlScanState.
Proof. solve_decision. Defined.

(** A text may end in a line comment, but not in a literal or block comment. *)
Definition terminated (state : sqlScanState) : bool :=
  match state with
  | sqlScanSingleQuoted | sqlScanDoubleQuoted | sqlScanBlockComment => false
  | sqlScanNormal | sqlScanLineComment => true
  end.

Definition unterminatedText : goerror := EText "unterminated SQL literal or comment" [].

Definition isLetter (ch : Z) : bool := ((97 <=? ch) && (ch <=? 122)) || ((65 <=? ch) && (ch <=? 90)).
Definition isNameStartChar (ch : Z) : bool := isLetter ch || (ch =? 95).
Definition isNameContinueChar (ch : Z) : bool := isLetter ch || isDigit ch || (ch =? 95).

(** What follows a byte [c] at the start of a text. *)
Definition after (c : Z) (q : bytes) : option bytes :=
  match q with d :: q' => if d =? c then Some q' else None | [] => None end.

Fixpoint takeName (q : bytes) : bytes :=
  match q with [] => [] | ch :: q' => if isNameContinueChar ch then ch :: takeName q' else [] end.

(** The identifier a text starts with, and what follows it. *)
Definition splitName (q : bytes) : option (bytes * bytes) :=
  match q with
  | [] => None
  | ch :: q' =>
      if isNameStartChar ch then Some (ch :: takeName q', dropWhile isNameContinueChar q') else None
  end.

(** ** countSQLPlaceholders *)

Fixpoint countLoop (fuel : nat) (state : sqlScanState) (q : bytes) (count : Z) : Z * sqlScanState :=
  match fuel, q with
  | O, _ | _, [] => (count, state)
  | S fuel, ch :: q1 =>
      match state with
      | sqlScanNormal =>
          if ch =? 39 then countLoop fuel sqlScanSingleQuoted q1 count
          else if ch =? 34 then countLoop fuel sqlScanDoubleQuoted q1 count
          else if ch =? 45 then
            match after 45 q1 with
            | Some q2 => countLoop fuel sqlScanLineComment q2 count
            | None => countLoop fuel sqlScanNormal q1 count
            end
          else if ch =? 47 then
            match after 42 q1 with
            | Some q2 => countLoop fuel sqlScanBlockComment q2 count
            | None => countLoop fuel sqlScanNormal q1 count
            end
          else if ch =? 63 then countLoop fuel sqlScanNormal q1 (count + 1)
          else if ch =? 58 then
            match after 58 q1 with
            | Some q2 => countLoop fuel sqlScanNormal q2 count
            | None =>
                match splitName q1 with
                | Some (_, q2) => countLoop fuel sqlScanNormal q2 (count + 1)
                | None => countLoop fuel sqlScanNormal q1 count
                end
            end
          else countLoop fuel sqlScanNormal q1 count
      | sqlScanSingleQuoted =>
          if ch =? 39 then
            match after 39 q1 with
            | Some q2 => countLoop fuel sqlScanSingleQuoted q2 count
            | None => countLoop fuel sqlScanNormal q1 count
            end
          else countLoop fuel sqlScanSingleQuoted q1 count
      | sqlScanDoubleQuoted =>
          if ch =? 34 then
            match after 34 q1 with
            | Some q2 => countLoop fuel sqlScanDoubleQuoted q2 count
            | None => countLoop fuel sqlScanNormal q1 count
            end
          else countLoop fuel sqlScanDoubleQuoted q1 count
      | sqlScanLineComment =>
          countLoop fuel (if ch =? 10 then sqlScanNormal else sqlScanLineComment) q1 count
      | sqlScanBlockComment =>
          match (if ch =? 42 then after 47 q1 else None) with
          | Some q2 => countLoop fuel sqlScanNormal q2 count
          | None => countLoop fuel sqlScanBlockComment q1 count
          end
      end
  end.

Definition countSQLPlaceholders (query : bytes) : outcome Z :=
  let '(count, state) := countLoop (length query) sqlScanNormal query 0 in
  ensure (terminated state) unterminatedText (Ret count).

(** ** rewriteNamedParams *)

(** What the rest of the loop writes comes after [written]. *)
Definition writing (written : bytes) (r : bytes * list bytes * sqlScanState) : bytes * list bytes * sqlScanState :=
  let '(text, names, state) := r in (written ++ text, names, state).

Definition naming (name : bytes) (r : bytes * list bytes * sqlScanState) : bytes * list bytes * sqlScanState :=
  let '(text, names, state) := r in (63 :: text, name :: names, state).

Fixpoint rewriteLoop (fuel : nat) (state : sqlScanState) (q : bytes) : bytes * list bytes * sqlScanState :=
  match fuel, q with
  | O, _ | _, [] => ([], [], state)
  | S fuel, ch :: q1 =>
      match state with
      | sqlScanNormal =>
          if ch =? 39 then writing [ch] (rewriteLoop fuel sqlScanSingleQuoted q1)
          else if ch =? 34 then writing [ch] (rewriteLoop fuel sqlScanDoubleQuoted q1)
          else if ch =? 45 then
            match after 45 q1 with
            | Some q2 => writing [ch; 45] (rewriteLoop fuel sqlScanLineComment q2)
            | None => writing [ch] (rewriteLoop fuel sqlScanNormal q1)
            end
          else if ch =? 47 then
            match after 42 q1 with
            | Some q2 => writing [ch; 42] (rewriteLoop fuel sqlScanBlockComment q2)
            | None => writing [ch] (rewriteLoop fuel sqlScanNormal q1)
            end
          else if ch =? 58 then
            match after 58 q1 with
            | Some q2 => writing [ch; 58] (rewriteLoop fuel sqlScanNormal q2)
            | None =>
                match splitName q1 with
                | Some (name, q2) => naming name (rewriteLoop fuel sqlScanNormal q2)
                | None => writing [ch] (rewriteLoop fuel sqlScanNormal q1)
                end
            end
          else writing [ch] (rewriteLoop fuel sqlScanNormal q1)
      | sqlScanSingleQuoted =>
          if ch =? 39 then
            match after 39 q1 with
            | Some q2 => writing [ch; 39] (rewriteLoop fuel sqlScanSingleQuoted q2)
            | None => writing [ch] (rewriteLoop fuel sqlScanNormal q1)
            end
          else writing [ch] (rewriteLoop fuel sqlScanSingleQuoted q1)
      | sqlScanDoubleQuoted =>
          if ch =? 34 then
            match after 34 q1 with
            | Some q2 => writing [ch; 34] (rewriteLoop fuel sqlScanDoubleQuoted q2)
            | None => writing [ch] (rewriteLoop fuel sqlScanNormal q1)
            end
          else writing [ch] (rewriteLoop fuel sqlScanDoubleQuoted q1)
      | sqlScanLineComment =>
          writing [ch] (rewriteLoop fuel (if ch =? 10 then sqlScanNormal else sqlScanLineComment) q1)
      | sqlScanBlockComment =>
          match (if ch =? 42 then after 47 q1 else None) with
          | Some q2 => writing [ch; 47] (rewriteLoop fuel sqlScanNormal q2)
          | None => writing [ch] (rewriteLoop fuel sqlScanBlockComment q1)
          end
      end
  end.

(** A text without a colon is returned as it is, whatever it contains. *)
Definition rewriteNamedParams (query : bytes) : outcome (bytes * list bytes) :=
  if negb (existsb (fun ch => ch =? 58) query) then Ret (query, [])
  else
    let '(text, names, state) := rewriteLoop (length query) sqlScanNormal query in
    ensure (terminated state) unterminatedText
      (Ret (if len names =? 0 then (query, []) else (text, names))).

(** ** reorderNamedArgs *)

Definition missingName (name : bytes) : goerror := EText "named parameter not provided" name.

(** The last argument of each name. *)
Definition byName (args : list NamedValue) : gmap bytes NamedValue :=
  foldl (fun m a => if len (argName a) =? 0 then m else <[argName a := a]> m) ∅ args.

Fixpoint orderedArgs (index : Z) (named : gmap bytes NamedValue) (names : list bytes) : outcome (list NamedValue) :=
  match names with
  | [] => Ret []
  | name :: names' =>
      match named !! name with
      | None => Fail (missingName name)
      | Some arg =>
          rest ← orderedArgs (index + 1) named names';
          Ret (mkNamedValue [] (index + 1) (Value arg) :: rest)
      end
  end.

Definition reorderNamedArgs (paramNames : list bytes) (args : list NamedValue) : outcome (list NamedValue) :=
  if len paramNames =? 0 then Ret args else orderedArgs 0 (byName args) paramNames.

(** ** expandSQLQuery *)

Section Expand.
Context `{FloatText}.

(** The index of the last argument of each name. *)
Fixpoint indexByName (index : Z) (args : list NamedValue) (m : gmap bytes Z) : gmap bytes Z :=
  match args with
  | [] => m
  | a :: args' => indexByName (index + 1) args' (if len (argName a) =? 0 then m else <[argName a := index]> m)
  end.

Definition countMismatch (args : list NamedValue) (argIndex : Z) : goerror :=
  EText "parameter count mismatch" [len args; argIndex].

(** The rest of the builder's text, the arguments used, and the final state. *)
Definition building (written : bytes) (r : outcome (bytes * Z * sqlScanState)) : outcome (bytes * Z * sqlScanState) :=
  '(text, argIndex, state) ← r; Ret (written ++ text, argIndex, state).

Fixpoint expandLoop (fuel : nat) (args : list NamedValue) (named : gmap bytes Z) (state : sqlScanState) (argIndex : Z)
    (q : bytes) : outcome (bytes * Z * sqlScanState) :=
  match fuel, q with
  | O, _ | _, [] => Ret ([], argIndex, state)
  | S fuel, ch :: q1 =>
      let go := expandLoop fuel args named in
      match state with
      | sqlScanNormal =>
          if ch =? 39 then building [ch] (go sqlScanSingleQuoted argIndex q1)
          else if ch =? 34 then building [ch] (go sqlScanDoubleQuoted argIndex q1)
          else if ch =? 45 then
            match after 45 q1 with
            | Some q2 => building [ch; 45] (go sqlScanLineComment argIndex q2)
            | None => building [ch] (go sqlScanNormal argIndex q1)
            end
          else if ch =? 47 then
            match after 42 q1 with
            | Some q2 => building [ch; 42] (go sqlScanBlockComment argIndex q2)
            | None => building [ch] (go sqlScanNormal argIndex q1)
            end
          else if ch =? 63 then
            match args !! Z.to_nat argIndex with
            | None => Fail (countMismatch args argIndex)
            | Some arg =>
                literal ← sqlLiteralFromNamedValue arg;
                building literal (go sqlScanNormal (argIndex + 1) q1)
            end
          else if ch =? 58 then
            match after 58 q1 with
            | Some q2 => building [ch; 58] (go sqlScanNormal argIndex q2)
            | None =>
                match splitName q1 with
                | Some (name, q2) =>
                    match named !! name with
                    | None => Fail (missingName name)
                    | Some idx =>
                        match args !! Z.to_nat idx with
                        | None => Panic
                        | Some arg =>
                            literal ← sqlLiteralFromNamedValue arg;
                            building literal (go sqlScanNormal argIndex q2)
                        end
                    end
                | None => building [ch] (go sqlScanNormal argIndex q1)
                end
            end
          else building [ch] (go sqlScanNormal argIndex q1)
      | sqlScanSingleQuoted =>
          if ch =? 39 then
            match after 39 q1 with
            | Some q2 => building [ch; 39] (go sqlScanSingleQuoted argIndex q2)
            | None => building [ch] (go sqlScanNormal argIndex q1)
            end
          else building [ch] (go sqlScanSingleQuoted argIndex q1)
      | sqlScanDoubleQuoted =>
          if ch =? 34 then
            match after 34 q1 with
            | Some q2 => building [ch; 34] (go sqlScanDoubleQuoted argIndex q2)
            | None => building [ch] (go sqlScanNormal argIndex q1)
            end
          else building [ch] (go sqlScanDoubleQuoted argIndex q1)
      | sqlScanLineComment =>
          building [ch] (go (if ch =? 10 then sqlScanNormal else sqlScanLineComment) argIndex q1)
      | sqlScanBlockComment =>
          match (if ch =? 42 then after 47 q1 else None) with
          | Some q2 => building [ch; 47] (go sqlScanNormal argIndex q2)
          | None => building [ch] (go sqlScanBlockComment argIndex q1)
          end
      end
  end.

Definition expandSQLQuery (query : bytes) (args : list NamedValue) : outcome bytes :=
  if len args =? 0 then Ret query
  else
    let named := indexByName 0 args ∅ in
    '(text, argIndex, state) ← expandLoop (length query) args named sqlScanNormal 0 query;
    ensure (terminated state) unterminatedText (
    ensure (negb (bool_decide (named = ∅)) || (argIndex =? len args)) (countMismatch args argIndex)
      (Ret text)).
End Expand.

(** ** Examples of stmt_test.go and named_params_test.go *)

Example count_in_literal_and_comment :
  countSQLPlaceholders (lit "select ? from t where a = '?' and b = ? /* ? */") = Ret 2.
Proof. reflexivity. Qed.
Example rewrite_in_literal : rewriteNamedParams (lit "SELECT ':fake' AS x, :real FROM t") =
  Ret (lit "SELECT ':fake' AS x, ? FROM t", [lit "real"]).
Proof. reflexivity. Qed.
Example rewrite_cast : rewriteNamedParams (lit "SELECT x::text FROM t WHERE id = :id") =
  Ret (lit "SELECT x::text FROM t WHERE id = ?", [lit "id"]).
Proof. reflexivity. Qed.
Example expand_names : @expandSQLQuery noFloatText
    (lit "SELECT * FROM t WHERE name = :name AND age = :age")
    [mkNamedValue (lit "age") 1 (Native (VInt64 42)); mkNamedValue (lit "name") 2 (Native (VString (lit "O'Brien")))] =
  Ret (lit "SELECT * FROM t WHERE name = 'O''Brien' AND age = 42").
Proof. vm_compute. reflexivity. Qed.

(** A negative literal after a minus sign starts a comment. *)
Example expand_negative_comments_out :
  @expandSQLQuery noFloatText (lit "SELECT 10-? FROM t")
    [mkNamedValue [] 1 (Native (VInt64 (-5)))] = Ret (lit "SELECT 10--5 FROM t").
Proof. reflexivity. Qed.

(** * The lexical structure *)

Inductive token := Verbatim (text : bytes) | Name (name : bytes).

#[export] Instance token_eq_dec : EqDecision token.
Proof. solve_decision. Defined.

(** One token of a text that is not empty: the token, the state after it, and
    what is left. *)
Definition nextToken (state : sqlScanState) (ch : Z) (q1 : bytes) : token * sqlScanState * bytes :=
  let one state' := (Verbatim [ch], state', q1) in
  let two d state' :=
    match after d q1 with Some q2 => Some (Verbatim [ch; d], state', q2) | None => None end in
  match state with
  | sqlScanNormal =>
      if ch =? 39 then one sqlScanSingleQuoted
      else if ch =? 34 then one sqlScanDoubleQuoted
      else if ch =? 45 then default (one sqlScanNormal) (two 45 sqlScanLineComment)
      else if ch =? 47 then default (one sqlScanNormal) (two 42 sqlScanBlockComment)
      else if ch =? 58 then
        default (match splitName q1 with Some (name, q2) => (Name name, sqlScanNormal, q2) | None => one sqlScanNormal end)
          (two 58 sqlScanNormal)
      else one sqlScanNormal
  | sqlScanSingleQuoted =>
      if ch =? 39 then default (one sqlScanNormal) (two 39 sqlScanSingleQuoted) else one sqlScanSingleQuoted
  | sqlScanDoubleQuoted =>
      if ch =? 34 then default (one sqlScanNormal) (two 34 sqlScanDoubleQuoted) else one sqlScanDoubleQuoted
  | sqlScanLineComment => one (if ch =? 10 then sqlScanNormal else sqlScanLineComment)
  | sqlScanBlockComment =>
      if ch =? 42 then default (one sqlScanBlockComment) (two 47 sqlScanNormal) else one sqlScanBlockComment
  end.

(** [lex state q tokens final]: from [state] the text [q] is the tokens, each
    with the state it was read in. *)
Inductive lex : sqlScanState -> bytes -> list (sqlScanState * token) -> sqlScanState -> Prop :=
| lex_nil state : lex state [] [] state
| lex_cons state ch q1 token state' q2 tokens final :
    nextToken state ch q1 = (token, state', q2) -> lex state' q2 tokens final ->
    lex state (ch :: q1) ((state, token) :: tokens) final.

Definition tokenText (t : token) : bytes := match t with Verbatim text => text | Name name => 58 :: name end.
Definition rewritten (t : token) : bytes := match t with Verbatim text => text | Name _ => [63] end.

Definition isMark (p : sqlScanState * token) : bool :=
  bool_decide (p.1 = sqlScanNormal /\ p.2 = Verbatim [63]).

Definition namesOf (tokens : list (sqlScanState * token)) : list bytes :=
  omap (fun p => match p.2 with Name name => Some name | Verbatim _ => None end) tokens.

(** The tokens with a [?] for every name. *)
Definition marked (tokens : list (sqlScanState * token)) : list (sqlScanState * token) :=
  (fun p => (p.1, match p.2 with Name _ => Verbatim [63] | t => t end)) <$> tokens.

Definition render (tokens : list (sqlScanState * token)) : bytes := concat ((fun p => tokenText p.2) <$> tokens).

(** ** Tokens and their text *)

Lemma after_Some d q q' : after d q = Some q' <-> q = d :: q'.
Proof.
  destruct q as [|c q]; cbn; [done|]. destruct (Z.eqb_spec c d) as [->|]; split; congruence.
Qed.

Lemma name_split q : q = takeName q ++ dropWhile isNameContinueChar q.
Proof. induction q as [|ch q IH]; [done|]. cbn. destruct (isNameContinueChar ch); [cbn; by f_equal|done]. Qed.

Lemma splitName_Some q name q' : splitName q = Some (name, q') -> q = name ++ q' /\ name <> [].
Proof.
  destruct q as [|ch q]; cbn; [done|]. destruct (isNameStartChar ch); [|done]. intros [= <- <-]. split; [|done].
  cbn. f_equal. apply name_split.
Qed.

(** Take [nextToken] apart. *)
Ltac token_cases :=
  repeat match goal with
  | |- context [if ?b then _ else _] => destruct b eqn:?
  | |- context [match after ?d ?q with _ => _ end] => destruct (after d q) eqn:?
  | |- context [match splitName ?q with _ => _ end] => destruct (splitName q) as [[? ?]|] eqn:?
  end; cbn [default].

Lemma nextToken_text state ch q1 t state' q2 :
  nextToken state ch q1 = (t, state', q2) -> ch :: q1 = tokenText t ++ q2.
Proof.
  unfold nextToken. destruct state; token_cases; intros [= <- _ <-]; cbn [tokenText app];
    repeat match goal with
    | E : after _ _ = Some _ |- _ => apply after_Some in E as ->
    | E : splitName _ = Some _ |- _ => apply splitName_Some in E as [-> _]
    | E : (ch =? 58) = true |- _ => apply Z.eqb_eq in E as ->
    end; done.
Qed.

Lemma nextToken_shrinks state ch q1 t state' q2 :
  nextToken state ch q1 = (t, state', q2) -> (length q2 <= length q1)%nat.
Proof.
  intros E. pose proof (f_equal length (nextToken_text _ _ _ _ _ _ E)) as Hl. rewrite length_app in Hl. cbn [length] in Hl.
  assert (tokenText t <> []) as Ht; [|destruct (tokenText t); [done|cbn [length] in Hl; lia]].
  revert E. unfold nextToken. destruct state; token_cases; by intros [= <- _ _].
Qed.

Lemma lex_total state q : exists tokens final, lex state q tokens final.
Proof.
  remember (length q) as n eqn:Hn. revert state q Hn. induction n as [n IH] using lt_wf_ind. intros state [|ch q1] ->.
  - exists [], state. constructor.
  - destruct (nextToken state ch q1) as [[t state'] q2] eqn:E. pose proof (nextToken_shrinks _ _ _ _ _ _ E).
    destruct (IH (length q2) ltac:(cbn; lia) state' q2 eq_refl) as (tokens & final & L).
    exists ((state, t) :: tokens), final. by econstructor.
Qed.

Lemma lex_render state q tokens final : lex state q tokens final -> render tokens = q.
Proof.
  induction 1 as [|state ch q1 t state' q2 tokens final E _ IH]; [done|].
  unfold render in *. cbn. rewrite IH. symmetry. by eapply nextToken_text.
Qed.

(** ** The scans follow the tokens *)

(** Whether a token is a placeholder. *)
Definition placeholder (p : sqlScanState * token) : bool :=
  match p.2 with Name _ => true | Verbatim _ => isMark p end.

Lemma one_not_mark ch : (ch =? 63) = false -> isMark (sqlScanNormal, Verbatim [ch]) = false.
Proof. intros E. apply bool_decide_false. intros [_ [= ->]]. done. Qed.

Lemma two_not_mark state a b : isMark (state, Verbatim [a; b]) = false.
Proof. apply bool_decide_false. by intros [_ [=]]. Qed.

Lemma other_not_mark state t : state <> sqlScanNormal -> isMark (state, t) = false.
Proof. intros E. apply bool_decide_false. by intros [? _]. Qed.

Lemma count_step fuel state ch q1 count t state' q2 :
  nextToken state ch q1 = (t, state', q2) ->
  countLoop (S fuel) state (ch :: q1) count =
  countLoop fuel state' q2 (if placeholder (state, t) then count + 1 else count).
Proof.
  unfold nextToken. cbn [countLoop]. destruct state; token_cases; intros [= <- <- <-]; cbn [placeholder snd]; try done;
    repeat match goal with
    | E : after _ _ = Some _ |- _ => apply after_Some in E as ->
    | E : (ch =? _) = true |- _ => apply Z.eqb_eq in E as ->
    end; rewrite ?one_not_mark, ?two_not_mark, ?other_not_mark by done; try done.
  all: match goal with E : placeholder _ = true |- _ => unfold placeholder in E; cbn [snd] in E; by rewrite one_not_mark in E end.
Qed.

(** Writing a token of the rewritten text. *)
Definition placing (t : token) (r : bytes * list bytes * sqlScanState) : bytes * list bytes * sqlScanState :=
  match t with Name name => naming name r | Verbatim text => writing text r end.

Lemma rewrite_step fuel state ch q1 t state' q2 :
  nextToken state ch q1 = (t, state', q2) ->
  rewriteLoop (S fuel) state (ch :: q1) = placing t (rewriteLoop fuel state' q2).
Proof. unfold nextToken. cbn [rewriteLoop]. destruct state; token_cases; intros [= <- <- <-]; done. Qed.

Lemma countLoop_lex state q tokens final :
  lex state q tokens final -> forall fuel count, (length q <= fuel)%nat ->
  countLoop fuel state q count = (count + Z.of_nat (length (List.filter placeholder tokens)), final).
Proof.
  induction 1 as [state|state ch q1 t state' q2 tokens final E _ IH]; intros fuel count Hf.
  - destruct fuel; cbn; f_equal; lia.
  - destruct fuel as [|fuel]; [cbn in Hf; lia|]. pose proof (nextToken_shrinks _ _ _ _ _ _ E). cbn [length] in Hf.
    rewrite (count_step _ _ _ _ _ _ _ _ E), IH by lia. cbn [List.filter]. destruct (placeholder (state, t)); cbn [length]; f_equal; lia.
Qed.

Lemma rewriteLoop_lex state q tokens final :
  lex state q tokens final -> forall fuel, (length q <= fuel)%nat ->
  rewriteLoop fuel state q = (render (marked tokens), namesOf tokens, final).
Proof.
  induction 1 as [state|state ch q1 t state' q2 tokens final E _ IH]; intros fuel Hf.
  - by destruct fuel.
  - destruct fuel as [|fuel]; [cbn in Hf; lia|]. pose proof (nextToken_shrinks _ _ _ _ _ _ E). cbn [length] in Hf.
    rewrite (rewrite_step _ _ _ _ _ _ _ E), IH by lia. by destruct t.
Qed.

(** ** The rewritten text has the same structure *)

(** [b] starts as [a] does, or with the [?] that took the place of a name. *)
Definition starts_like (a b : bytes) : Prop :=
  head b = head a \/ (head a = Some 58 /\ head b = Some 63).

Lemma after_starts d a b : starts_like a b -> d <> 58 -> d <> 63 -> after d a = None -> after d b = None.
Proof.
  intros Hs H1 H2. destruct b as [|y b]; [done|]. destruct a as [|x a]; cbn.
  - by destruct Hs as [[=]|[[=] _]].
  - destruct Hs as [[= ->]|[_ [= ->]]]; [by destruct (x =? d)|]. intros _. by rewrite (proj2 (Z.eqb_neq 63 d)).
Qed.

Lemma colon_starts a b : starts_like a b -> after 58 a = None -> after 58 b = None.
Proof.
  intros Hs. destruct b as [|y b]; [done|]. destruct a as [|x a]; cbn.
  - by destruct Hs as [[=]|[[=] _]].
  - destruct Hs as [[= ->]|[_ [= ->]]]; [by destruct (x =? 58)|done].
Qed.

Lemma splitName_starts a b : starts_like a b -> splitName a = None -> splitName b = None.
Proof.
  intros Hs. destruct b as [|y b]; [done|]. destruct a as [|x a]; cbn.
  - by destruct Hs as [[=]|[[=] _]].
  - destruct Hs as [[= ->]|[_ [= ->]]]; [destruct (isNameStartChar x); [intros [=]|done]|done].
Qed.

(** A token of verbatim text is read the same whatever follows it, as long as
    that starts the same. *)
Lemma nextToken_verbatim state ch q1 text state' q2 q2' :
  nextToken state ch q1 = (Verbatim text, state', q2) -> starts_like q2 q2' ->
  exists rest, text ++ q2' = ch :: rest /\ nextToken state ch rest = (Verbatim text, state', q2').
Proof.
  intros E Hs. revert E. unfold nextToken. destruct state; token_cases; intros [= <- <- <-]; eexists; (split; [done|]);
    cbn [app after]; rewrite ?Z.eqb_refl; try done;
    repeat match goal with
    | E : after 58 q1 = None |- _ => rewrite (colon_starts _ _ Hs E); clear E
    | E : after ?d q1 = None |- _ => rewrite (after_starts d _ _ Hs) by done; clear E
    | E : splitName q1 = None |- _ => rewrite (splitName_starts _ _ Hs E); clear E
    end; done.
Qed.

Lemma render_starts tokens q state final : lex state q tokens final -> starts_like q (render (marked tokens)).
Proof.
  destruct 1 as [|state ch q1 t state' q2 tokens final E _]; [by left|].
  pose proof (nextToken_text _ _ _ _ _ _ E) as Ht. destruct t as [text|name].
  - left. destruct text as [|b text]; [|by injection Ht as -> _]. exfalso. clear Ht. revert E. unfold nextToken.
    by destruct state; token_cases.
  - right. by injection Ht as -> _.
Qed.

Lemma lex_marked state q tokens final : lex state q tokens final -> lex state (render (marked tokens)) (marked tokens) final.
Proof.
  induction 1 as [state|state ch q1 t state' q2 tokens final E L IH]; [constructor|].
  apply render_starts in L. unfold render in *. cbn [marked fmap list_fmap fst snd concat].
  destruct t as [text|name]; cbn [tokenText].
  - destruct (nextToken_verbatim _ _ _ _ _ _ _ E L) as (rest & Hr & E'). change (concat ((fun p => tokenText p.2) <$> _)) with (render (marked tokens)) in *.
    rewrite Hr. by econstructor.
  - assert (state = sqlScanNormal /\ state' = sqlScanNormal) as [-> ->].
    { revert E. unfold nextToken. destruct state; token_cases; by intros [= _ <- _]. }
    by eapply lex_cons.
Qed.

(** ** Texts without names *)

Lemma marked_no_names tokens : namesOf tokens = [] -> marked tokens = tokens.
Proof.
  unfold marked, namesOf. induction tokens as [|[state [text|name]] tokens IH]; [done| |done].
  cbn. intros E. by rewrite IH.
Qed.

Lemma namesOf_colon state q tokens final :
  lex state q tokens final -> existsb (fun ch => ch =? 58) q = false -> namesOf tokens = [].
Proof.
  intros L Hc. apply lex_render in L as <-. unfold namesOf. induction tokens as [|[s [text|name]] tokens IH]; [done| |done].
  cbn. apply IH. unfold render in *. cbn in Hc. rewrite existsb_app in Hc. by apply orb_false_iff in Hc as [_ ?].
Qed.

Lemma placeholders_marked tokens :
  Forall (fun p => match p.2 with Name _ => p.1 = sqlScanNormal | _ => True end) tokens ->
  length (List.filter placeholder (marked tokens)) = length (List.filter placeholder tokens).
Proof.
  unfold marked. induction 1 as [|[s [text|name]] tokens Hs _ IH]; [done| |]; cbn in *.
  - destruct (isMark (s, Verbatim text)); cbn; congruence.
  - subst s. change (isMark (sqlScanNormal, Verbatim [63])) with true. cbn. congruence.
Qed.

Lemma names_normal state q tokens final :
  lex state q tokens final -> Forall (fun p => match p.2 with Name _ => p.1 = sqlScanNormal | _ => True end) tokens.
Proof.
  induction 1 as [|state ch q1 t state' q2 tokens final E _ IH]; constructor; [|done]. destruct t as [|name]; [done|].
  revert E. unfold nextToken. destruct state; token_cases; by intros [=].
Qed.

(** ** Named arguments *)

(** The last argument of a name. *)
Definition lastNamed (name : bytes) (args : list NamedValue) : option NamedValue :=
  List.find (fun a => beqb (argName a) name) (reverse args).

Lemma byName_lookup name args : name <> [] -> byName args !! name = lastNamed name args.
Proof.
  intros Hn. unfold byName, lastNamed. rewrite <- (reverse_involutive args) at 1. set (l := reverse args). clearbody l. clear args.
  induction l as [|a l IH]; [by rewrite reverse_nil|]. rewrite reverse_cons, foldl_app. cbn [foldl List.find].
  destruct (beqb (argName a) name) eqn:E.
  - apply beqb_true in E. rewrite (proj2 (Z.eqb_neq (len (argName a)) 0)).
    + rewrite E. apply lookup_insert_eq.
    + rewrite E. destruct name; [done|]. unfold len. cbn. lia.
  - case_match; [done|]. rewrite lookup_insert_ne; [done|]. intros En. by rewrite <- En, (proj2 (beqb_true _ _)) in E.
Qed.

Lemma orderedArgs_spec index named names :
  match orderedArgs index named names with
  | Ret out => Forall2 (fun name a => exists b, named !! name = Some b /\ argName a = [] /\ Value a = Value b) names out /\
               Ordinal <$> out = seqZ (index + 1) (Z.of_nat (length names))
  | Fail e => exists name, name ∈ names /\ named !! name = None /\ e = missingName name
  | Panic => False
  end.
Proof.
  revert index. induction names as [|name names IH]; intros index; cbn [orderedArgs]; [by split; [constructor|]|].
  destruct (named !! name) as [b|] eqn:E; [|exists name; split; [constructor|done]].
  specialize (IH (index + 1)). destruct (orderedArgs (index + 1) named names) as [out|e|]; [|destruct IH as (n & ? & ?); exists n; split; [by constructor|done]|done].
  destruct IH as [IH1 IH2]. cbn [mbind outcome_bind]. split.
  - constructor; [by exists b|done].
  - cbn [length fmap list_fmap]. rewrite seqZ_cons by lia. rewrite IH2. cbn [Ordinal]. f_equal. f_equal; lia.
Qed.

(** * Properties *)

(** C15: the scans agree on the lexical structure of a statement.  Every text
    is the tokens [lex] finds; the count is the number of placeholders among
    them; a text that does not end inside a literal or block comment is
    rewritten to the same tokens, with a [?] for every [:name] and the names in
    order; and the rewritten text is read back as exactly those tokens, so that
    it has as many placeholders and no names. *)
Theorem named_parameters_rewritten (query : bytes) :
  exists tokens final, lex sqlScanNormal query tokens final /\ render tokens = query /\
    countSQLPlaceholders query =
      ensure (terminated final) unterminatedText (Ret (Z.of_nat (length (List.filter placeholder tokens)))) /\
    (terminated final = true -> rewriteNamedParams query = Ret (render (marked tokens), namesOf tokens)) /\
    lex sqlScanNormal (render (marked tokens)) (marked tokens) final /\
    namesOf (marked tokens) = [] /\
    countSQLPlaceholders (render (marked tokens)) = countSQLPlaceholders query.
Proof.
  destruct (lex_total sqlScanNormal query) as (tokens & final & L). exists tokens, final.
  pose proof (lex_marked _ _ _ _ L) as L'. unfold countSQLPlaceholders.
  rewrite (countLoop_lex _ _ _ _ L), (countLoop_lex _ _ _ _ L') by done.
  rewrite placeholders_marked by by eapply names_normal.
  do 2 (split; [by eauto using lex_render|]). split; [done|]. split; [|split; [done|split; [|done]]].
  - intros Ht. unfold rewriteNamedParams. destruct (existsb _ query) eqn:Ec; cbn [negb].
    + rewrite (rewriteLoop_lex _ _ _ _ L), Ht by done. cbn [ensure]. destruct (namesOf tokens) as [|name names] eqn:En; [|done].
      cbn. rewrite marked_no_names by done. by rewrite (lex_render _ _ _ _ L).
    + rewrite (namesOf_colon _ _ _ _ L Ec), (marked_no_names _ (namesOf_colon _ _ _ _ L Ec)). by rewrite (lex_render _ _ _ _ L).
  - clear. unfold namesOf, marked. induction tokens as [|[s [|]] tokens IH]; done.
Qed.

(** Named arguments are brought into the order of the placeholders: each
    placeholder gets the value of the last argument with its name, its own
    ordinal and no name; an error names a placeholder that has no argument. *)
Theorem named_arguments_ordered (names : list bytes) (args : list NamedValue) :
  names <> [] -> Forall (fun name => name <> []) names ->
  match reorderNamedArgs names args with
  | Ret out =>
      Forall2 (fun name a => exists b, lastNamed name args = Some b /\ argName a = [] /\ Value a = Value b) names out /\
      Ordinal <$> out = seqZ 1 (len names)
  | Fail e => exists name, name ∈ names /\ lastNamed name args = None /\ e = missingName name
  | Panic => False
  end.
Proof.
  intros Hne Hall. unfold reorderNamedArgs. rewrite (proj2 (Z.eqb_neq (len names) 0)); [|destruct names; [done|unfold len; cbn; lia]].
  pose proof (orderedArgs_spec 0 (byName args) names) as Hs. rewrite Forall_forall in Hall.
  destruct (orderedArgs 0 (byName args) names) as [out|e|]; [|destruct Hs as (n & ? & ? & ?); exists n; rewrite <- byName_lookup by auto; auto|done].
  destruct Hs as [H2 Ho]. split; [|done]. clear Ho Hne. induction H2 as [|name a names out (b & E & ?) _ IH]; constructor.
  - exists b. rewrite <- byName_lookup; [done|]. apply Hall. constructor.
  - apply IH. intros n Hn. apply Hall. by constructor.
Qed.

Lemma named_arguments_ordered_witness :
  let args := [mkNamedValue (lit "b") 1 (Native (VInt64 1)); mkNamedValue (lit "a") 2 (Native (VInt64 2));
               mkNamedValue (lit "b") 3 (Native (VInt64 3))] in
  exists out, reorderNamedArgs [lit "a"; lit "b"; lit "a"] args = Ret out /\ Ordinal <$> out = [1; 2; 3].
Proof.
  intros args. eexists. split; [reflexivity|].
  apply (named_arguments_ordered [lit "a"; lit "b"; lit "a"] args); [done|]. by repeat constructor.
Defined.

Lemma named_parameters_rewritten_witness :
  exists tokens final, lex sqlScanNormal (lit "a = :x -- :y") tokens final /\
    (terminated final = true -> rewriteNamedParams (lit "a = :x -- :y") = Ret (render (marked tokens), namesOf tokens)).
Proof.
  destruct (named_parameters_rewritten (lit "a = :x -- :y")) as (tokens & final & L & _ & _ & R & _).
  by exists tokens, final.
Defined.
