(* ===== verification/DateTime.v ===== *)
(** DATE, TIME and TIMESTAMP text: datetime_format.go, timestamp.go and the
    timestamp half of sql.go. *)
From Stdlib Require Import Strings.String.
From stdpp Require Import base list numbers strings.
From S2P Require Import Prelude GoStrings Digits Calendar Decimal.
Open Scope Z_scope.

(** ** Settings *)

Definition dateFormatJulian : Z := 0.
Definition dateFormatMDY : Z := 1.
Definition dateFormatDMY : Z := 2.
Definition dateFormatYMD : Z := 3.
Definition dateFormatUSA : Z := 4.
Definition dateFormatISO : Z := 5.
Definition dateFormatEUR : Z := 6.
Definition dateFormatJIS : Z := 7.

Definition timeFormatHMS : Z := 0.
Definition timeFormatUSA : Z := 1.
Definition timeFormatISO : Z := 2.
Definition timeFormatEUR : Z := 3.
Definition timeFormatJIS : Z := 4.

Definition dateSeparatorText : list bytes := [lit "/"; lit "-"; lit "."; lit ","; lit " "].
Definition timeSeparatorText : list bytes := [lit ":"; lit "."; lit ","; lit " "].

Record dateTimeSettings := mkSettings {
  DateFormat : Z;
  DateSeparator : Z;
  TimeFormat : Z;
  TimeSeparator : Z;
  TimestampString : bool;
}.

Definition defaultDateFormat : Z := 5.
Definition defaultDateSeparator : Z := 0.
Definition defaultTimeFormat : Z := 0.
Definition defaultTimeSeparator : Z := 0.

Definition defaultDateTimeSettings : dateTimeSettings :=
  mkSettings defaultDateFormat defaultDateSeparator defaultTimeFormat defaultTimeSeparator false.

(** The entry of a separator table, or its first one out of range. *)
Definition separatorText (table : list bytes) (code : Z) : bytes :=
  if (code <? 0) || (len table <=? code) then nth 0 table [] else nth (Z.to_nat code) table [].

Definition dateSep (s : dateTimeSettings) : bytes := separatorText dateSeparatorText (DateSeparator s).
Definition timeSep (s : dateTimeSettings) : bytes := separatorText timeSeparatorText (TimeSeparator s).

(** ** Formatting *)

Definition formatDate (t : time) (cfg : dateTimeSettings) : bytes :=
  let c := Date t in
  let sep := dateSep cfg in
  let f := DateFormat cfg in
  if f =? dateFormatUSA then padInt 2 (month c) ++ lit "/" ++ padInt 2 (day c) ++ lit "/" ++ padInt 4 (year c)
  else if f =? dateFormatEUR then padInt 2 (day c) ++ lit "." ++ padInt 2 (month c) ++ lit "." ++ padInt 4 (year c)
  else if f =? dateFormatJulian then padInt 2 (Z.rem (year c) 100) ++ sep ++ padInt 3 (yearDay c)
  else if f =? dateFormatMDY then
    padInt 2 (month c) ++ sep ++ padInt 2 (day c) ++ sep ++ padInt 2 (Z.rem (year c) 100)
  else if f =? dateFormatDMY then
    padInt 2 (day c) ++ sep ++ padInt 2 (month c) ++ sep ++ padInt 2 (Z.rem (year c) 100)
  else if f =? dateFormatYMD then
    padInt 2 (Z.rem (year c) 100) ++ sep ++ padInt 2 (month c) ++ sep ++ padInt 2 (day c)
  else padInt 4 (year c) ++ lit "-" ++ padInt 2 (month c) ++ lit "-" ++ padInt 2 (day c).

Definition formatTime (t : time) (cfg : dateTimeSettings) : bytes :=
  let hour := hourOf t in
  let minute := minuteOf t in
  let second := secondOf t in
  let sep := timeSep cfg in
  let f := TimeFormat cfg in
  if f =? timeFormatUSA then
    let '(hour, marker) :=
      if 12 <? hour then (hour - 12, lit "P")
      else if hour =? 12 then (hour, lit "P")
      else if hour =? 0 then (12, lit "A")
      else (hour, lit "A") in
    padInt 2 hour ++ lit ":" ++ padInt 2 minute ++ lit " " ++ marker ++ lit "M"
  else if (f =? timeFormatISO) || (f =? timeFormatEUR) then
    padInt 2 hour ++ lit "." ++ padInt 2 minute ++ lit "." ++ padInt 2 second
  else if f =? timeFormatJIS then
    padInt 2 hour ++ lit ":" ++ padInt 2 minute ++ lit ":" ++ padInt 2 second
  else padInt 2 hour ++ sep ++ padInt 2 minute ++ sep ++ padInt 2 second.

(** ** Fields at fixed positions

    A [fieldReader] keeps its first error and answers zero afterwards; every
    caller returns that error, so the reads are chained in the outcome monad. *)

Definition num (s : bytes) (start n : Z) : outcome Z :=
  if (start <? 0) || (len s <? start + n) then Fail (EText "field out of range" [])
  else if forallb isDigit (sub s start n) then Ret (digitsVal (sub s start n))
  else Fail (EText "unexpected character" []).

Definition expandTwoDigitYear (yy : Z) : Z := if yy <=? 39 then 2000 + yy else 1900 + yy.

Definition yearAt (s : bytes) (start total : Z) : outcome Z :=
  if total <=? 8 then expandTwoDigitYear <$> num s start 2 else num s start 4.

(** ** Parsing dates *)

Definition invalidDate : goerror := EText "invalid date" [].

(** The year, month and day of a text that is not Julian. *)
Definition dateFields (s : bytes) (format : Z) : outcome (Z * Z * Z) :=
  if format =? dateFormatUSA then
    m ← num s 0 2; d ← num s 3 2; y ← num s 6 4; Ret (y, m, d)
  else if format =? dateFormatEUR then
    d ← num s 0 2; m ← num s 3 2; y ← num s 6 4; Ret (y, m, d)
  else if format =? dateFormatMDY then
    m ← num s 0 2; d ← num s 3 2; y ← yearAt s 6 (len s); Ret (y, m, d)
  else if format =? dateFormatDMY then
    d ← num s 0 2; m ← num s 3 2; y ← yearAt s 6 (len s); Ret (y, m, d)
  else if format =? dateFormatYMD then
    if len s <=? 8 then
      y ← num s 0 2; m ← num s 3 2; d ← num s 6 2; Ret (expandTwoDigitYear y, m, d)
    else
      y ← num s 0 4; m ← num s 5 2; d ← num s 8 2; Ret (y, m, d)
  else
    y ← num s 0 4; m ← num s 5 2; d ← num s 8 2; Ret (y, m, d).

(** The year and the day of the year of a Julian text. *)
Definition julianFields (s : bytes) : outcome (Z * Z) :=
  if len s <=? 6 then
    y ← num s 0 2; d ← num s 3 3; Ret (expandTwoDigitYear y, d)
  else
    y ← num s 0 4; d ← num s 5 3; Ret (y, d).

Definition parseDate (s : bytes) (cfg : dateTimeSettings) : outcome time :=
  let s := trimSpace s in
  if allZeros s then Ret (mkTime 0 0)
  else if DateFormat cfg =? dateFormatJulian then
    '(y, dayOfYear) ← julianFields s;
    let t := timeDate y 1 dayOfYear 0 0 0 0 in
    if (dayOfYear <? 1) || negb (year (Date t) =? y) || negb (yearDay (Date t) =? dayOfYear)
    then Fail (EText "invalid julian date" []) else Ret t
  else
    '(y, m, d) ← dateFields s (DateFormat cfg);
    let t := timeDate y m d 0 0 0 0 in
    if negb (year (Date t) =? y) || negb (month (Date t) =? m) || negb (day (Date t) =? d)
    then Fail invalidDate else Ret t.

(** ** Timestamps (sql.go) *)

Definition parseIBMiTimestamp (s : bytes) : outcome time :=
  if len s =? 19 then parseStamp NoFraction s
  else
    match s !! 19%nat with
    | Some 46 =>
        let frac := drop 20 s in
        let frac := if 9 <? len frac then take 9 frac else frac in
        parseStamp (match frac with [] => PointOnly | _ => Zeros (length frac) end)
          (take (20 + length frac) s)
    | _ => parseStamp NoFraction s
    end.

(** ** Parsing times *)

Definition invalidTime : goerror := EText "invalid time" [].

Definition timeOfDay (h m s : Z) : time := timeDate 0 1 1 h m s 0.

Definition parseTimeFields (s : bytes) (cfg : dateTimeSettings) : outcome time :=
  '(hour, minute, second) ←
    (if TimeFormat cfg =? timeFormatUSA then
       if len s <? 7 then Fail invalidTime
       else
         hour ← num s 0 2;
         minute ← num s 3 2;
         if 12 <? hour then Fail invalidTime
         else
           c ← index s 6;
           let marker := Z.lor c 0x20 in
           if marker =? 97 then Ret (if hour =? 12 then 0 else hour, minute, 0)
           else if marker =? 112 then Ret (if hour =? 12 then hour else hour + 12, minute, 0)
           else Fail invalidTime
     else
       hour ← num s 0 2;
       minute ← num s 3 2;
       second ← num s 6 2;
       Ret (if (hour =? 24) && (minute =? 0) && (second =? 0) then 0 else hour, minute, second));
  if (23 <? hour) || (59 <? minute) || (59 <? second) then Fail invalidTime
  else Ret (timeOfDay hour minute second).

Definition parseTime (s : bytes) (cfg : dateTimeSettings) : outcome time :=
  let s := trimSpace s in
  if len s =? 0 then Ret (timeOfDay 0 0 0)
  else
    match parseTimeFields s cfg with
    | Ret t => Ret t
    | Fail err =>
        if (19 <=? len s) && bool_decide (s !! 4%nat = Some 45) && bool_decide (s !! 7%nat = Some 45) then
          match parseIBMiTimestamp s with
          | Ret ts => Ret (timeOfDay (hourOf ts) (minuteOf ts) (secondOf ts))
          | Fail _ => Fail err
          | Panic => Panic
          end
        else Fail err
    | Panic => Panic
    end.

(** A decoded DATE or TIME: the blank text stays text. *)
Inductive dateOrText := DateTime (t : time) | PlainText (s : bytes).

Definition decodeText (op : string) (s : bytes) (parsed : outcome time) : outcome dateOrText :=
  match s with
  | [] => Ret (PlainText s)
  | _ =>
      match parsed with
      | Ret t => Ret (DateTime t)
      | Fail err => Fail (EWire op err)
      | Panic => Panic
      end
  end.

Definition decodeDateText (s : bytes) (cfg : dateTimeSettings) : outcome dateOrText :=
  decodeText "decode DATE value" s (parseDate s cfg).
Definition decodeTimeText (s : bytes) (cfg : dateTimeSettings) : outcome dateOrText :=
  decodeText "decode TIME value" s (parseTime s cfg).

(** ** Timestamp values with picoseconds (timestamp.go) *)

Definition maxTimestampPicoseconds : Z := 999999999999.

Record Timestamp := mkTimestamp { tsTime : time; Picoseconds : Z }.

Definition timestampText (ts : Timestamp) : outcome bytes :=
  if (Picoseconds ts <? 0) || (maxTimestampPicoseconds <? Picoseconds ts) then
    Fail (EText "Timestamp picoseconds out of range" [Picoseconds ts])
  else
    let picos := if Picoseconds ts =? 0 then nanosecond (tsTime ts) * 1000 else Picoseconds ts in
    Ret (formatStamp (tsTime ts) ++ lit "." ++ padInt 12 picos).

Definition invalidTimestamp : goerror := EText "invalid timestamp" [].

Definition oneOf (cs : bytes) (c : Z) : bool := existsb (Z.eqb c) cs.

(** The fraction behind the seconds, in picoseconds. *)
Definition fractionPicos (rest : bytes) : outcome Z :=
  match rest with
  | [] => Ret 0
  | c :: frac =>
      if negb (c =? 46) then Fail invalidTimestamp
      else if (len frac <? 1) || (12 <? len frac) || negb (isASCIIDigits frac) then
        Fail (EText "invalid timestamp fraction" [])
      else Ret (digitsVal (frac ++ replicate (12 - length frac) 48))
  end.

(** The six integer fields, each read by [strconv.Atoi]; any error is the same. *)
Definition stampField (s : bytes) (lo hi : Z) : outcome Z :=
  f ← slice s lo hi;
  match atoi f with
  | Ret n => Ret n
  | Fail _ => Fail invalidTimestamp
  | Panic => Panic
  end.

Definition parseTimestampText (s : bytes) : outcome (time * Z) :=
  let s := trimSpace s in
  if len s <? 19 then Fail invalidTimestamp
  else
    s4 ← index s 4; s7 ← index s 7; s10 ← index s 10; s13 ← index s 13; s16 ← index s 16;
    if negb (s4 =? 45) || negb (s7 =? 45) || negb (oneOf (lit "- T") s10) ||
       negb (oneOf (lit ".:") s13) || negb (oneOf (lit ".:") s16)
    then Fail invalidTimestamp
    else
      y ← stampField s 0 4;
      mo ← stampField s 5 7;
      d ← stampField s 8 10;
      h ← stampField s 11 13;
      mi ← stampField s 14 16;
      sec ← stampField s 17 19;
      if (23 <? h) || (59 <? mi) || (59 <? sec) then Fail invalidTimestamp
      else
        let date := timeDate y mo d h mi sec 0 in
        if negb (year (Date date) =? y) || negb (month (Date date) =? mo) || negb (day (Date date) =? d)
        then Fail invalidTimestamp
        else
          rest ← slice s 19 (len s);
          picos ← fractionPicos rest;
          Ret (timeDate y mo d h mi sec (Z.quot picos 1000), picos).

(** [Timestamp.Scan] of text: both halves are stored. *)
Definition parse (s : bytes) : outcome Timestamp :=
  '(t, picos) ← parseTimestampText s;
  Ret (mkTimestamp t picos).

(** The sources [Scan] accepts. *)
Inductive scanSource := ScanNull | ScanTime (t : time) | ScanText (s : bytes) | ScanOther.

Definition Scan (src : scanSource) : outcome Timestamp :=
  match src with
  | ScanNull => Fail (EText "cannot scan NULL into Timestamp; use NullTimestamp" [])
  | ScanTime t => Ret (mkTimestamp t (nanosecond t * 1000))
  | ScanText s => parse s
  | ScanOther => Fail (EText "cannot scan into Timestamp" [])
  end.

(** [Value] and [String]. *)
Definition Timestamp_Value (ts : Timestamp) : outcome bytes := timestampText ts.
Definition Timestamp_String (errorText : goerror -> bytes) (ts : Timestamp) : outcome bytes :=
  match timestampText ts with
  | Fail e => Ret (lit "Timestamp(invalid: " ++ errorText e ++ lit ")")
  | text => text
  end.

Definition zeroTimestamp : Timestamp := mkTimestamp (mkTime (-62135596800) 0) 0.

Record NullTimestamp := mkNullTimestamp { nullTimestamp : Timestamp; Valid : bool }.

(** The error and the [NullTimestamp] that is left. *)
Definition NullTimestamp_Scan (n : NullTimestamp) (value : scanSource) : outcome unit * NullTimestamp :=
  match value with
  | ScanNull => (Ret tt, mkNullTimestamp zeroTimestamp false)
  | _ =>
      match Scan value with
      | Ret ts => (Ret tt, mkNullTimestamp ts true)
      | Fail e => (Fail e, mkNullTimestamp (nullTimestamp n) true)
      | Panic => (Panic, n)
      end
  end.

(** A nil value is [None]. *)
Definition NullTimestamp_Value (n : NullTimestamp) : outcome (option bytes) :=
  if Valid n then Some <$> Timestamp_Value (nullTimestamp n) else Ret None.

Definition parseTimestampPrecisionOption (value : bytes) : outcome bool :=
  let v := toLower (trimSpace value) in
  if beqb v (lit "nanoseconds") then Ret false
  else if beqb v (lit "string") then Ret true
  else Fail (EText "invalid timestampPrecision" []).

(** ** Parameter text of times (sql.go) *)

(** [parameterFieldDateText], [parameterFieldTimeText] and
    [parameterFieldTimestampText] of a [time.Time] argument. *)
Definition parameterFieldDateText (t : time) : bytes := formatISODate t.
Definition parameterFieldTimeText (t : time) : bytes := formatDotTime t.
Definition parameterFieldTimestampText (t : time) : bytes := formatStamp t ++ formatFraction9 t.

(** * Lemmas *)

(** ** Fields of a formatted text *)

Lemma num_head k v post n : n = Z.of_nat k -> 0 <= v < 10 ^ n -> num (fixedDigits k v ++ post) 0 n = Ret v.
Proof.
  intros -> Hv. unfold num. pose proof (len_nonneg post).
  rewrite (proj2 (Z.ltb_ge 0 0)), (proj2 (Z.ltb_ge (len _) _)) by len_lia. cbn [orb].
  rewrite (sub_app_l (fixedDigits k v)) by by rewrite len_fixedDigits.
  rewrite (proj2 (is_digits_forallb _)) by apply is_digits_fixed.
  by rewrite digitsVal_fixed, Z.mod_small by lia.
Qed.

Lemma num_skip pre s start n : len pre <= start -> num (pre ++ s) start n = num s (start - len pre) n.
Proof.
  intros Hs. pose proof (len_nonneg pre). unfold num. rewrite len_app, sub_app_r by done.
  assert ((len pre + len s <? start + n) = (len s <? start - len pre + n)) as -> by
    (destruct (Z.ltb_spec (len pre + len s) (start + n)), (Z.ltb_spec (len s) (start - len pre + n)); done || lia).
  by rewrite (proj2 (Z.ltb_ge start 0)), (proj2 (Z.ltb_ge (start - len pre) 0)) by lia.
Qed.

Lemma num_last k v n : n = Z.of_nat k -> 0 <= v < 10 ^ n -> num (fixedDigits k v) 0 n = Ret v.
Proof. intros. rewrite <-(app_nil_r (fixedDigits k v)). by apply num_head. Qed.

Lemma num_skip_digits k v s start n :
  Z.of_nat k <= start -> num (fixedDigits k v ++ s) start n = num s (start - Z.of_nat k) n.
Proof. intros. by rewrite num_skip; rewrite len_fixedDigits. Qed.

Lemma num_skip_byte c s start n : 1 <= start -> num (c :: s) start n = num s (start - 1) n.
Proof. intros. by apply (num_skip [c]). Qed.

(** Read the fields of a formatted text, left to right. *)
Ltac read_num :=
  repeat (
    first
      [ rewrite num_head by lia
      | rewrite num_last by lia
      | rewrite num_skip_digits by lia
      | rewrite num_skip_byte by lia ];
    repeat match goal with
    | |- context [num ?s (?a - ?b) ?n] =>
        let v := eval vm_compute in (a - b) in change (a - b) with v
    end;
    cbn [mbind outcome_bind fmap outcome_fmap]).

Lemma dropWhile_nil p s : dropWhile p s = [] -> Forall (fun b => p b = true) s.
Proof. intros E. destruct (dropWhile_split p s) as (l & Es & Hl). by rewrite Es, E, app_nil_r. Qed.

Lemma allZeros_false s c : c ∈ s -> c <> 48 -> allZeros s = false.
Proof.
  intros Hin Hc. unfold allZeros. apply Z.eqb_neq. intros E. apply Hc.
  assert (trim s (lit "0") = []) as E' by (destruct (trim s (lit "0")); [done|len_lia]).
  unfold trim, trimRight in E'. apply (f_equal reverse) in E'. rewrite reverse_involutive in E'.
  change (reverse (@nil Z)) with (@nil Z) in E'.
  apply dropWhile_nil in E'. apply Forall_reverse in E'. rewrite reverse_involutive in E'.
  destruct (dropWhile_split (inSet (lit "0")) s) as (l & Es & Hl).
  assert (Forall (fun b => inSet (lit "0") b = true) s) as Hall by (rewrite Es; apply Forall_app; split; [exact Hl|exact E']).
  rewrite Forall_forall in Hall. specialize (Hall c Hin).
  change (inSet (lit "0") c) with ((c =? 48) || false) in Hall. rewrite orb_false_r in Hall. by apply Z.eqb_eq.
Qed.

(** A text that starts and ends with digits is not trimmed. *)
Lemma trimSpace_digits k a s j b : (0 < k)%nat -> (0 < j)%nat ->
  trimSpace (fixedDigits k a ++ s ++ fixedDigits j b) = fixedDigits k a ++ s ++ fixedDigits j b.
Proof.
  intros Hk Hj. apply trimSpace_plain.
  - intros c r E. pose proof (is_digits_fixed k a) as Hd. pose proof (length_fixedDigits k a).
    destruct (fixedDigits k a); [cbn in *; lia|]. injection E as -> _. by apply plain_digit, (Forall_inv Hd).
  - intros l c E. pose proof (is_digits_fixed j b) as Hd. pose proof (length_fixedDigits j b).
    destruct (fixedDigits j b) as [|x r _] using rev_ind; [cbn in *; lia|].
    rewrite !app_assoc in E. apply app_inj_tail in E as [_ ->].
    apply is_digits_app in Hd as [_ Hd]. by apply plain_digit, (Forall_inv Hd).
Qed.

(** A separator is one byte, and no digit. *)
Lemma separatorText_one table code :
  Forall (fun s => exists c, s = [c] /\ c <> 48) table -> table <> [] ->
  exists c, separatorText table code = [c] /\ c <> 48.
Proof.
  intros Ht Hne. unfold separatorText. rewrite Forall_forall in Ht.
  assert (0 < length table)%nat by (destruct table; [done|cbn; lia]).
  destruct (Z.ltb_spec code 0), (Z.leb_spec (len table) code); cbn [orb];
    apply Ht, list_elem_of_In, List.nth_In; unfold len in *; lia.
Qed.

Lemma dateSep_one cfg : exists c, dateSep cfg = [c] /\ c <> 48.
Proof. apply separatorText_one; [repeat constructor; by eexists|done]. Qed.

Lemma timeSep_one cfg : exists c, timeSep cfg = [c] /\ c <> 48.
Proof. apply separatorText_one; [repeat constructor; by eexists|done]. Qed.

(** ** Dates *)

#[local] Opaque civilOfDay dayNumber.

Definition midnight (t : time) : time := mkTime ((dayOf t - epochDay) * 86400) 0.

Lemma dayOf_timeDate y m d : dayOf (timeDate y m d 0 0 0 0) = dayNumber y m d.
Proof. by apply timeDate_clock. Qed.

Lemma timeDate_midnight t y m d : dayNumber y m d = dayOf t -> timeDate y m d 0 0 0 0 = midnight t.
Proof. intros E. unfold timeDate, midnight. rewrite E. f_equal. change (0 / 10 ^ 9) with 0. lia. Qed.

Lemma Date_midnight t : Date (midnight t) = Date t.
Proof.
  unfold Date. f_equal. rewrite <-(timeDate_midnight t (year (Date t)) (month (Date t)) (day (Date t))).
  - rewrite dayOf_timeDate. apply civilOfDay_day.
  - apply civilOfDay_day.
Qed.

(** The check behind the fields of a date accepts the calendar's dates and no others. *)
Lemma date_check y m d :
  let t := timeDate y m d 0 0 0 0 in
  negb (year (Date t) =? y) || negb (month (Date t) =? m) || negb (day (Date t) =? d) =
    negb (bool_decide (valid_date y m d)).
Proof.
  cbv zeta. unfold Date. rewrite dayOf_timeDate. destruct (bool_decide_reflect (valid_date y m d)) as [Hv|Hv].
  - destruct (civilOfDay_date y m d Hv) as (-> & -> & ->). by rewrite !Z.eqb_refl.
  - destruct (civilOfDay_day (dayNumber y m d)) as (H & _).
    destruct (Z.eqb_spec (year (civilOfDay (dayNumber y m d))) y) as [E1|]; [|done].
    destruct (Z.eqb_spec (month (civilOfDay (dayNumber y m d))) m) as [E2|]; [|done].
    destruct (Z.eqb_spec (day (civilOfDay (dayNumber y m d))) d) as [E3|]; [|done].
    rewrite E1, E2, E3 in H. done.
Qed.

Lemma expandTwoDigitYear_rem y : 1940 <= y <= 2039 -> expandTwoDigitYear (Z.rem y 100) = y.
Proof.
  intros Hy. unfold expandTwoDigitYear. rewrite Z.rem_mod_nonneg by lia.
  destruct (Z.leb_spec (y mod 100) 39); Z.div_mod_to_equations; lia.
Qed.

(** Decide comparisons of constants. *)
Ltac eval_eqb :=
  repeat match goal with
  | |- context [?a =? ?b] =>
      let v := eval vm_compute in (a =? b) in
      lazymatch v with true => change (a =? b) with true | false => change (a =? b) with false end
  end; cbv iota.

(** The number that the last text of a date ends with is not all of it. *)
Lemma parseDate_text cfg k a mid j b y m d t :
  (0 < k)%nat -> (0 < j)%nat -> (exists c, c ∈ mid /\ c <> 48) -> DateFormat cfg <> dateFormatJulian ->
  dateFields (fixedDigits k a ++ mid ++ fixedDigits j b) (DateFormat cfg) = Ret (y, m, d) ->
  y = year (Date t) -> m = month (Date t) -> d = day (Date t) ->
  parseDate (fixedDigits k a ++ mid ++ fixedDigits j b) cfg = Ret (midnight t).
Proof.
  intros Hk Hj (c & Hc & Hc0) Hf Hfields Ey Em Ed. subst y m d. unfold parseDate. rewrite trimSpace_digits by done.
  rewrite (allZeros_false _ c); [|by apply elem_of_app; right; apply elem_of_app; left|done].
  rewrite (proj2 (Z.eqb_neq _ dateFormatJulian)) by done. rewrite Hfields. cbn [mbind outcome_bind].
  rewrite date_check, bool_decide_eq_true_2 by apply Date_valid. cbn [negb].
  f_equal. apply timeDate_midnight. apply civilOfDay_day.
Qed.

(** Three fields with a separator between each two. *)
Lemma parseDate_three cfg k a c1 b c2 j e t :
  (0 < k)%nat -> (0 < j)%nat -> c1 <> 48 -> DateFormat cfg <> dateFormatJulian ->
  dateFields (fixedDigits k a ++ [c1] ++ fixedDigits 2 b ++ [c2] ++ fixedDigits j e) (DateFormat cfg) =
    Ret (year (Date t), month (Date t), day (Date t)) ->
  parseDate (fixedDigits k a ++ [c1] ++ fixedDigits 2 b ++ [c2] ++ fixedDigits j e) cfg = Ret (midnight t).
Proof.
  intros Hk Hj Hc Hf Hfields.
  assert (forall s, [c1] ++ fixedDigits 2 b ++ [c2] ++ s = ([c1] ++ fixedDigits 2 b ++ [c2]) ++ s) as Ha
    by (intros; by rewrite <-!app_assoc).
  rewrite Ha in Hfields |- *. eapply parseDate_text; [done|done| |done|exact Hfields|done..].
  exists c1. split; [by left|done].
Qed.

Lemma yearLength_bound y : 365 <= yearLength y <= 366.
Proof. unfold yearLength. destruct (isLeap y); cbn; lia. Qed.

Lemma parseDate_julian cfg sep t :
  1940 <= year (Date t) <= 2039 -> sep <> 48 -> DateFormat cfg = dateFormatJulian ->
  parseDate (fixedDigits 2 (Z.rem (year (Date t)) 100) ++ [sep] ++ fixedDigits 3 (yearDay (Date t))) cfg = Ret (midnight t).
Proof.
  intros Hy Hs Hf. unfold parseDate. rewrite trimSpace_digits by lia.
  rewrite (allZeros_false _ sep); [|by apply elem_of_app; right; left|done]. rewrite Hf. cbn [Z.eqb].
  destruct (civilOfDay_day (dayOf t)) as (_ & _ & Hyd & Hday). change (civilOfDay (dayOf t)) with (Date t) in *.
  pose proof (yearLength_bound (year (Date t))).
  assert (0 <= Z.rem (year (Date t)) 100 < 10 ^ 2) by (rewrite Z.rem_mod_nonneg by lia; apply Z.mod_pos_bound; lia).
  assert (0 <= yearDay (Date t) < 10 ^ 3) by (change (10 ^ 3) with 1000; lia).
  unfold julianFields. rewrite (proj2 (Z.leb_le (len _) 6)) by (autorewrite with golen; lia).
  cbn [app]. read_num. rewrite expandTwoDigitYear_rem by done.
  assert (Date (timeDate (year (Date t)) 1 (yearDay (Date t)) 0 0 0 0) = Date t) as ->
    by (unfold Date at 1; by rewrite dayOf_timeDate, Hday).
  rewrite !Z.eqb_refl.
  rewrite (proj2 (Z.ltb_ge _ 1)) by lia. cbn [orb negb]. f_equal. by apply timeDate_midnight.
Qed.

(** The years a date format can print and read back. *)
Definition year_in_format (format y : Z) : Prop :=
  if (format =? dateFormatJulian) || (format =? dateFormatMDY) || (format =? dateFormatDMY) ||
     (format =? dateFormatYMD)
  then 1940 <= y <= 2039 else 0 <= y <= 9999.

Lemma formatDate_parse cfg t : year_in_format (DateFormat cfg) (year (Date t)) ->
  parseDate (formatDate t cfg) cfg = Ret (midnight t).
Proof.
  intros Hy. unfold formatDate. cbv zeta. destruct (dateSep_one cfg) as (sep & -> & Hsep).
  destruct (valid_date_range _ _ _ (Date_valid t)) as [Hm Hd].
  destruct (civilOfDay_day (dayOf t)) as (_ & _ & Hyd & _). change (civilOfDay (dayOf t)) with (Date t) in *.
  pose proof (yearLength_bound (year (Date t))) as Hlen.
  rewrite !(padInt2_fixed (month _)), !(padInt2_fixed (day _)) by lia.
  assert (DateFormat cfg ∈ [dateFormatJulian; dateFormatMDY; dateFormatDMY; dateFormatYMD] ->
    1940 <= year (Date t) <= 2039) as Hshort.
  { unfold year_in_format in Hy. rewrite !elem_of_cons, elem_of_nil.
    intros [E|[E|[E|[E|[]]]]]; rewrite E in Hy; exact Hy. }
  assert (DateFormat cfg ∉ [dateFormatJulian; dateFormatMDY; dateFormatDMY; dateFormatYMD] ->
    0 <= year (Date t) <= 9999) as Hlong.
  { rewrite !not_elem_of_cons. intros (E1 & E2 & E3 & E4 & _). unfold year_in_format in Hy.
    by rewrite !(proj2 (Z.eqb_neq (DateFormat cfg) _)) in Hy by done. }
  assert (1940 <= year (Date t) <= 2039 ->
    0 <= Z.rem (year (Date t)) 100 < 100 /\ padInt 2 (Z.rem (year (Date t)) 100) = fixedDigits 2 (Z.rem (year (Date t)) 100)) as Hrem.
  { intros Hr. assert (0 <= Z.rem (year (Date t)) 100 < 100) by (rewrite Z.rem_mod_nonneg by lia; apply Z.mod_pos_bound; lia).
    split; [done|]. by apply padInt2_fixed. }
  assert (0 <= year (Date t) <= 9999 -> padInt 4 (year (Date t)) = fixedDigits 4 (year (Date t))) as Hfull
    by (intros; apply padInt_fixed; [change (10 ^ Z.of_nat 4) with 10000|]; lia).
  pose proof (expandTwoDigitYear_rem (year (Date t))) as Hexp.
  change (lit "/") with [47]. change (lit ".") with [46]. change (lit "-") with [45].
  repeat match goal with
  | |- context [if DateFormat cfg =? ?f then _ else _] => destruct (Z.eqb_spec (DateFormat cfg) f) as [E|]
  end;
  try rewrite E in Hshort, Hlong;
  first [specialize (Hshort ltac:(apply (bool_decide_unpack _); reflexivity)); destruct (Hrem Hshort) as [Hr Ep]; rewrite ?Ep; specialize (Hexp Hshort)
        |specialize (Hlong ltac:(first
          [ apply (bool_decide_unpack _); reflexivity | rewrite !not_elem_of_cons; auto using not_elem_of_nil ])); rewrite (Hfull Hlong)].
  3: { rewrite (padInt_fixed 3) by (change (10 ^ Z.of_nat 3) with 1000; lia). by apply parseDate_julian. }
  all: apply parseDate_three; [lia|lia|done|by rewrite ?E|].
  all: clear Hyd Hlen Hrem Hfull Hy; try clear Ep; generalize dependent (year (Date t));
    generalize dependent (month (Date t)); generalize dependent (day (Date t)); intros d Hd m Hm y; intros.
  all: try (rewrite E; unfold dateFields, yearAt; eval_eqb).
  all: try (rewrite (proj2 (Z.leb_le (len _) 8)) by (autorewrite with golen; lia)).
  all: try (unfold dateFields; rewrite !(proj2 (Z.eqb_neq (DateFormat cfg) _)) by done).
  all: cbn [app]; read_num; done || by rewrite Hexp.
Qed.

(** ** Times of day *)

Lemma parseTime_fields cfg s t : trimSpace s = s -> 0 < len s -> parseTimeFields s cfg = Ret t -> parseTime s cfg = Ret t.
Proof.
  intros Hs Hl E. unfold parseTime. rewrite Hs, (proj2 (Z.eqb_neq (len s) 0)) by lia. by rewrite E.
Qed.

Lemma index_skip pre s i : len pre <= i -> index (pre ++ s) i = index s (i - len pre).
Proof.
  intros Hi. pose proof (len_nonneg pre). unfold index. rewrite !(proj2 (Z.leb_le 0 _)) by lia.
  rewrite lookup_app_r by (unfold len in *; lia). replace (Z.to_nat i - length pre)%nat with (Z.to_nat (i - len pre)) by (unfold len in *; lia). done.
Qed.

Lemma parse_24h cfg h m s c1 c2 : TimeFormat cfg <> timeFormatUSA ->
  0 <= h < 24 -> 0 <= m < 60 -> 0 <= s < 60 ->
  parseTime (fixedDigits 2 h ++ [c1] ++ fixedDigits 2 m ++ [c2] ++ fixedDigits 2 s) cfg = Ret (timeOfDay h m s).
Proof.
  intros Hf Hh Hm Hs. apply parseTime_fields.
  - assert ([c1] ++ fixedDigits 2 m ++ [c2] ++ fixedDigits 2 s = ([c1] ++ fixedDigits 2 m ++ [c2]) ++ fixedDigits 2 s)
      as -> by by rewrite <-!app_assoc.
    apply trimSpace_digits; lia.
  - autorewrite with golen; lia.
  - unfold parseTimeFields. rewrite (proj2 (Z.eqb_neq _ timeFormatUSA)) by done.
    cbn [app]. read_num. rewrite (proj2 (Z.eqb_neq h 24)) by lia. cbn [andb].
    by rewrite (proj2 (Z.ltb_ge 23 h)), (proj2 (Z.ltb_ge 59 m)), (proj2 (Z.ltb_ge 59 s)) by lia.
Qed.

Lemma trimSpace_time k a s b : (0 < k)%nat -> plainByte b = true ->
  trimSpace (fixedDigits k a ++ s ++ [b]) = fixedDigits k a ++ s ++ [b].
Proof.
  intros Hk Hb. apply trimSpace_plain.
  - intros c r E. pose proof (is_digits_fixed k a) as Hd. pose proof (length_fixedDigits k a).
    destruct (fixedDigits k a); [cbn in *; lia|]. injection E as -> _. by apply plain_digit, (Forall_inv Hd).
  - intros l c E. rewrite app_assoc in E. by apply app_inj_tail in E as [_ <-].
Qed.

Lemma parse_12h cfg h m marker : TimeFormat cfg = timeFormatUSA -> 1 <= h <= 12 -> 0 <= m < 60 ->
  marker = 65 \/ marker = 80 ->
  parseTime (fixedDigits 2 h ++ [58] ++ fixedDigits 2 m ++ [32] ++ [marker] ++ [77]) cfg =
    Ret (timeOfDay (if marker =? 65 then if h =? 12 then 0 else h else if h =? 12 then h else h + 12) m 0).
Proof.
  intros Hf Hh Hm Hk. apply parseTime_fields.
  - assert ([58] ++ fixedDigits 2 m ++ [32] ++ [marker] ++ [77] = ([58] ++ fixedDigits 2 m ++ [32] ++ [marker]) ++ [77])
      as -> by by rewrite <-!app_assoc.
    apply trimSpace_time; [lia|done].
  - autorewrite with golen; lia.
  - unfold parseTimeFields. rewrite Hf. eval_eqb.
    rewrite (proj2 (Z.ltb_ge (len _) 7)) by (autorewrite with golen; lia).
    change ([32] ++ [marker] ++ [77]) with [32; marker; 77]. change ([58] ++ fixedDigits 2 m ++ [32; marker; 77]) with (58 :: fixedDigits 2 m ++ [32; marker; 77]).
    read_num. rewrite (proj2 (Z.ltb_ge 12 h)) by lia.
    rewrite index_skip by (rewrite len_fixedDigits; lia). rewrite len_fixedDigits. change (6 - Z.of_nat 2) with 4.
    assert (forall r, index (58 :: r) 4 = index r 3) as -> by (intros; by apply (index_skip [58])).
    rewrite index_skip by (rewrite len_fixedDigits; lia). rewrite len_fixedDigits. change (3 - Z.of_nat 2) with 1.
    change (index [32; marker; 77] 1) with (Ret marker). cbn [mbind outcome_bind].
    destruct Hk as [->| ->]; eval_eqb; cbn [mbind outcome_bind]; destruct (Z.eqb_spec h 12);
      cbn [mbind outcome_bind]; change (Z.lor 65 32 =? 97) with true; change (Z.lor 80 32 =? 97) with false;
      change (Z.lor 80 32 =? 112) with true; cbv iota; cbn [mbind outcome_bind];
      rewrite (proj2 (Z.ltb_ge 23 _)), (proj2 (Z.ltb_ge 59 m)) by lia; done.
Qed.

Lemma formatTime_parse cfg t :
  parseTime (formatTime t cfg) cfg =
    Ret (timeOfDay (hourOf t) (minuteOf t) (if TimeFormat cfg =? timeFormatUSA then 0 else secondOf t)).
Proof.
  unfold formatTime. cbv zeta. destruct (timeSep_one cfg) as (sep & -> & _).
  destruct (clock_range t) as (Hh & Hm & Hs & _).
  generalize dependent (hourOf t). generalize dependent (minuteOf t). generalize dependent (secondOf t).
  intros s Hs m Hm h Hh. rewrite (padInt2_fixed m), (padInt2_fixed s) by lia.
  change (lit ":") with [58]. change (lit ".") with [46]. change (lit " ") with [32].
  destruct (Z.eqb_spec (TimeFormat cfg) timeFormatUSA) as [E|E].
  - change (lit "P") with [80]. change (lit "A") with [65]. change (lit "M") with [77].
    repeat match goal with |- context [if ?a <? ?b then _ else _] => destruct (Z.ltb_spec a b)
    | |- context [if ?a =? ?b then _ else _] => destruct (Z.eqb_spec a b) end;
    rewrite padInt2_fixed, parse_12h by (done || lia || auto); eval_eqb; f_equal; f_equal;
    repeat match goal with |- context [?a =? ?b] => destruct (Z.eqb_spec a b) end; lia.
  - rewrite (padInt2_fixed h) by lia.
    destruct ((TimeFormat cfg =? timeFormatISO) || (TimeFormat cfg =? timeFormatEUR));
      [|destruct (TimeFormat cfg =? timeFormatJIS)]; by apply parse_24h.
Qed.

(** ** Timestamps *)

Lemma len_formatStamp t : 0 <= year (Date t) <= 9999 -> len (formatStamp t) = 19.
Proof. intros. rewrite formatStamp_fields by done. autorewrite with golen. lia. Qed.

(** The reader of TIMESTAMP columns on a formatted time with a fraction: the
    first nine digits count. *)
Lemma parseIBMiTimestamp_digits t ds : 0 <= year (Date t) <= 9999 -> is_digits ds ->
  parseIBMiTimestamp (formatStamp t ++ 46 :: ds) =
    Ret (mkTime (wall t) (digitsVal (take 9 ds) * 10 ^ (9 - len (take 9 ds)))).
Proof.
  intros Hy Hd. pose proof (len_formatStamp t Hy) as Hs. pose proof (len_nonneg ds).
  assert (length (formatStamp t) = 19%nat) as Hs' by (unfold len in Hs; lia).
  unfold parseIBMiTimestamp. rewrite (proj2 (Z.eqb_neq (len _) 19)) by len_lia.
  rewrite lookup_app_r, Hs' by lia. change (19 - 19)%nat with 0%nat. cbn [lookup list_lookup].
  assert (drop 20 (formatStamp t ++ 46 :: ds) = ds) as ->.
  { rewrite (cons_middle 46), app_assoc. apply drop_app_length'. rewrite length_app, Hs'. done. }
  assert ((if 9 <? len ds then take 9 ds else ds) = take 9 ds) as ->.
  { destruct (Z.ltb_spec 9 (len ds)); [done|]. rewrite take_ge; [done|unfold len in *; lia]. }
  assert (take (20 + length (take 9 ds)) (formatStamp t ++ 46 :: ds) = formatStamp t ++ 46 :: take 9 ds) as ->.
  { rewrite take_app, Hs', take_ge by (rewrite Hs'; lia).
    replace (20 + length (take 9 ds) - 19)%nat with (S (length (take 9 ds))) by lia. cbn [take].
    do 2 f_equal. rewrite length_take. destruct (Nat.le_gt_cases 9 (length ds)); [f_equal; lia|].
    rewrite !take_ge by lia. done. }
  assert (is_digits (take 9 ds)) as Hd9 by by apply is_digits_take.
  assert (len (take 9 ds) <= 9) as Hl by (unfold len; rewrite length_take; lia).
  clear Hd. generalize dependent (take 9 ds). clear ds H. intros ds Hd Hl. pose proof (len_nonneg ds).
  pose proof (digitsVal_range ds Hd) as Hv.
  assert (0 <= digitsVal ds * 10 ^ (9 - len ds) < 10 ^ 9) as Hr.
  { pose proof (pow10_pos (9 - len ds)). split; [nia|].
    replace (10 ^ 9) with (10 ^ len ds * 10 ^ (9 - len ds)) by (rewrite <-Z.pow_add_r by lia; f_equal; lia). nia. }
  apply parseStamp_format; [done|done|]. destruct ds as [|d ds'] eqn:E; [done|]. rewrite <-E in *. clear E.
  unfold parseFraction. rewrite (proj2 (Z.ltb_ge (len _) _)) by (rewrite len_cons; unfold len; lia).
  rewrite take_ge, drop_ge by (cbn [length]; lia). unfold parseNanoseconds. cbn [Z.eqb orb].
  rewrite take_ge by (unfold len in Hl; lia).
  assert (stampAtoi ds = Ret (digitsVal ds)) as ->.
  { unfold stampAtoi. pose proof (splitSign_text false ds) as Es. unfold splitSign in Es. cbn [signText app] in Es.
    rewrite Es; [by rewrite (proj2 (is_digits_forallb _))|]. intros b r ->. by apply digit_not_sign, (Forall_inv Hd). }
  cbn [mbind outcome_bind]. by rewrite (proj2 (Z.ltb_ge _ 0)) by lia.
Qed.

Lemma parseIBMiTimestamp_plain t : 0 <= year (Date t) <= 9999 ->
  parseIBMiTimestamp (formatStamp t) = Ret (mkTime (wall t) 0).
Proof.
  intros Hy. unfold parseIBMiTimestamp. rewrite len_formatStamp by done. cbn [Z.eqb Pos.eqb].
  rewrite <-(app_nil_r (formatStamp t)). by apply parseStamp_format.
Qed.

Lemma index_at pre c post i : len pre = i -> index (pre ++ c :: post) i = Ret c.
Proof. intros <-. rewrite index_skip by done. by rewrite Z.sub_diag. Qed.

Lemma stampField_at pre k n post lo hi : len pre = lo -> hi = lo + Z.of_nat k -> (1 <= k <= 18)%nat ->
  0 <= n < 10 ^ Z.of_nat k -> stampField (pre ++ fixedDigits k n ++ post) lo hi = Ret n.
Proof.
  intros <- -> Hk Hn. unfold stampField. pose proof (len_nonneg pre). pose proof (len_nonneg post).
  rewrite slice_ok by (autorewrite with golen; lia). cbn [mbind outcome_bind].
  rewrite sub_app_r, Z.sub_diag by lia. rewrite (sub_app_l (fixedDigits k n)) by (rewrite len_fixedDigits; lia).
  rewrite atoi_digits by (try apply is_digits_fixed; rewrite len_fixedDigits; lia).
  by rewrite digitsVal_fixed, Z.mod_small by lia.
Qed.

(** The fields of a stamp at their positions. *)
Lemma stamp_positions t rest : 0 <= year (Date t) <= 9999 ->
  let s := formatStamp t ++ rest in
  index s 4 = Ret 45 /\ index s 7 = Ret 45 /\ index s 10 = Ret 45 /\ index s 13 = Ret 46 /\ index s 16 = Ret 46 /\
  stampField s 0 4 = Ret (year (Date t)) /\ stampField s 5 7 = Ret (month (Date t)) /\
  stampField s 8 10 = Ret (day (Date t)) /\ stampField s 11 13 = Ret (hourOf t) /\
  stampField s 14 16 = Ret (minuteOf t) /\ stampField s 17 19 = Ret (secondOf t).
Proof.
  intros Hy. cbv zeta. rewrite formatStamp_fields by done.
  destruct (clock_range t) as (Hh & Hmi & Hs & _). destruct (valid_date_range _ _ _ (Date_valid t)) as [Hm Hd].
  generalize dependent (year (Date t)). generalize dependent (month (Date t)). generalize dependent (day (Date t)).
  generalize dependent (hourOf t). generalize dependent (minuteOf t). generalize dependent (secondOf t).
  intros s Hs mi Hmi h Hh d Hd m Hm y Hy.
  set (Y := fixedDigits 4 y). set (M := fixedDigits 2 m). set (D := fixedDigits 2 d).
  set (H := fixedDigits 2 h). set (N := fixedDigits 2 mi). set (S := fixedDigits 2 s).
  assert ((Y ++ 45 :: M ++ 45 :: D ++ 45 :: H ++ 46 :: N ++ 46 :: S) ++ rest =
    Y ++ 45 :: M ++ 45 :: D ++ 45 :: H ++ 46 :: N ++ 46 :: S ++ rest) as ->
    by (repeat (progress (rewrite <-?app_assoc; cbn [app])); done).
  assert (len Y = 4 /\ len M = 2 /\ len D = 2 /\ len H = 2 /\ len N = 2) as (LY & LM & LD & LH & LN)
    by (subst Y M D H N; by rewrite !len_fixedDigits).
  assert (forall a x, 45 :: a ++ x = [45] ++ a ++ x) as E45 by done.
  assert (forall n, 0 <= n < 100 -> 0 <= n < 10 ^ Z.of_nat 2) as H2 by done.
  split_and!.
  - by apply index_at.
  - rewrite (cons_middle 45 Y), !app_assoc. rewrite <-(app_assoc _ _ (45 :: D ++ _)). cbn [app].
    apply (index_at (Y ++ 45 :: M)). len_lia.
  - change (index (Y ++ ([45] ++ M ++ ([45] ++ D ++ 45 :: H ++ 46 :: N ++ 46 :: S ++ rest))) 10 = Ret 45).
    rewrite !app_assoc. apply index_at. autorewrite with golen. lia.
  - change (index (Y ++ ([45] ++ M ++ ([45] ++ D ++ [45] ++ H ++ 46 :: N ++ 46 :: S ++ rest))) 13 = Ret 46).
    rewrite !app_assoc. apply index_at. autorewrite with golen. lia.
  - change (index (Y ++ ([45] ++ M ++ ([45] ++ D ++ [45] ++ H ++ [46] ++ N ++ 46 :: S ++ rest))) 16 = Ret 46).
    rewrite !app_assoc. apply index_at. autorewrite with golen. lia.
  - apply (stampField_at [] 4); [done|done|lia|change (10 ^ Z.of_nat 4) with 10000; lia].
  - change (stampField (Y ++ [45] ++ (M ++ 45 :: D ++ 45 :: H ++ 46 :: N ++ 46 :: S ++ rest)) 5 7 = Ret m).
    rewrite app_assoc. apply stampField_at; [len_lia|done|lia|apply H2; lia].
  - change (stampField (Y ++ [45] ++ M ++ [45] ++ (D ++ 45 :: H ++ 46 :: N ++ 46 :: S ++ rest)) 8 10 = Ret d).
    rewrite !(app_assoc _ _ (D ++ _)), !app_assoc, <-(app_assoc _ D). 
    apply stampField_at; [autorewrite with golen; lia|done|lia|apply H2; lia].
  - change (stampField (Y ++ [45] ++ M ++ [45] ++ D ++ [45] ++ (H ++ 46 :: N ++ 46 :: S ++ rest)) 11 13 = Ret h).
    rewrite !app_assoc, <-(app_assoc _ H). 
    apply stampField_at; [autorewrite with golen; lia|done|lia|apply H2; lia].
  - change (stampField (Y ++ [45] ++ M ++ [45] ++ D ++ [45] ++ H ++ [46] ++ (N ++ 46 :: S ++ rest)) 14 16 = Ret mi).
    rewrite !app_assoc, <-(app_assoc _ N). 
    apply stampField_at; [autorewrite with golen; lia|done|lia|apply H2; lia].
  - change (stampField (Y ++ [45] ++ M ++ [45] ++ D ++ [45] ++ H ++ [46] ++ N ++ [46] ++ (S ++ rest)) 17 19 = Ret s).
    rewrite !app_assoc, <-(app_assoc _ S). 
    apply stampField_at; [autorewrite with golen; lia|done|lia|apply H2; lia].
Qed.

Lemma parseTimestampText_stamp t picos : 0 <= year (Date t) <= 9999 -> 0 <= picos < 10 ^ 12 ->
  parseTimestampText (formatStamp t ++ [46] ++ fixedDigits 12 picos) =
    Ret (mkTime (wall t) (picos / 1000), picos).
Proof.
  intros Hy Hp. pose proof (len_formatStamp t Hy) as Hl.
  assert (trimSpace (formatStamp t ++ [46] ++ fixedDigits 12 picos) = formatStamp t ++ [46] ++ fixedDigits 12 picos) as Htrim.
  { rewrite formatStamp_fields by done. rewrite <-!(app_assoc (fixedDigits 4 _)).
    set (mid := (45 :: _) ++ [46] ++ fixedDigits 12 picos). 
    assert (exists m, mid = m ++ fixedDigits 12 picos) as (m & ->)
      by (eexists; subst mid; rewrite app_assoc; reflexivity).
    apply trimSpace_digits; lia. }
  unfold parseTimestampText. rewrite Htrim, (proj2 (Z.ltb_ge (len _) 19)) by (rewrite len_app, Hl; len_lia).
  destruct (stamp_positions t ([46] ++ fixedDigits 12 picos) Hy) as
    (-> & -> & -> & -> & -> & -> & -> & -> & -> & -> & ->).
  cbn [mbind outcome_bind]. change (oneOf (lit "- T") 45) with true. change (oneOf (lit ".:") 46) with true.
  cbn [Z.eqb Pos.eqb negb orb].
  destruct (clock_range t) as (Hh & Hmi & Hs & _).
  rewrite (proj2 (Z.ltb_ge 23 _)), (proj2 (Z.ltb_ge 59 (minuteOf t))), (proj2 (Z.ltb_ge 59 (secondOf t))) by lia.
  cbn [orb]. set (date := timeDate _ _ _ _ _ _ 0).
  assert (Date date = Date t) as ->.
  { unfold Date. f_equal. subst date. destruct (timeDate_clock (year (Date t)) (month (Date t)) (day (Date t))
      (hourOf t) (minuteOf t) (secondOf t) 0 Hh Hmi Hs ltac:(lia)) as (-> & _). apply civilOfDay_day. }
  rewrite !Z.eqb_refl. cbn [negb orb].
  rewrite slice_ok by (rewrite ?len_app, ?Hl; len_lia). cbn [mbind outcome_bind].
  rewrite sub_app_r, Hl by lia. change (19 - 19) with 0. rewrite sub_all by (rewrite len_app, Hl; lia).
  cbn [app]. unfold fractionPicos. cbn [Z.eqb Pos.eqb negb]. rewrite len_fixedDigits.
  unfold isASCIIDigits. rewrite (proj2 (is_digits_forallb _)) by apply is_digits_fixed.
  rewrite length_fixedDigits. change (replicate (12 - 12) 48) with (@nil Z). rewrite app_nil_r, digitsVal_fixed by lia.
  change (10 ^ Z.of_nat 12) with (10 ^ 12). rewrite Z.mod_small by lia.
  change ((Z.of_nat 12 <? 1) || (12 <? Z.of_nat 12) || negb true) with false. cbn [mbind outcome_bind].
  rewrite Z.quot_div_nonneg by lia. do 2 f_equal.
  assert (0 <= picos / 1000 < 10 ^ 9) as Hn by (Z.div_mod_to_equations; lia).
  exact (timeDate_fields (mkTimeAt (unixSec t) (picos / 1000) (zone t)) Hn).
Qed.

(** The first digits of a text with its trailing zeros removed. *)
Lemma take_trimmed s j : is_digits s ->
  let ds := take j (trimRight s (lit "0")) in
  is_digits ds /\ (length ds <= j)%nat /\ (length ds <= length s)%nat /\
  ((j <= length s)%nat -> digitsVal ds * 10 ^ (Z.of_nat j - len ds) = digitsVal (take j s)).
Proof.
  intros Hs. cbv zeta. destruct (trimRight_zeros s Hs) as (k & E & _ & Hd).
  set (r := trimRight s (lit "0")) in *. rewrite length_take. split_and!.
  - by apply is_digits_take.
  - lia.
  - rewrite E, length_app. lia.
  - intros Hj. rewrite E. rewrite take_app, take_replicate, digitsVal_trailing.
    do 2 f_equal. rewrite E, length_app, length_replicate in Hj. unfold len. rewrite length_take. lia.
Qed.

Lemma take_fixed n k v : (k <= n)%nat -> 0 <= v < 10 ^ Z.of_nat n ->
  digitsVal (take k (fixedDigits n v)) = v / 10 ^ Z.of_nat (n - k).
Proof.
  intros Hk Hv. replace n with (k + (n - k))%nat at 1 by lia. rewrite fixedDigits_app.
  rewrite take_app_length' by by rewrite length_fixedDigits.
  pose proof (pow10_pos (Z.of_nat (n - k)) ltac:(lia)).
  rewrite digitsVal_fixed by (apply Z.div_pos; lia). apply Z.mod_small. split; [apply Z.div_pos; lia|].
  apply Z.div_lt_upper_bound; [done|]. rewrite <-Z.pow_add_r by lia.
  replace (Z.of_nat (n - k) + Z.of_nat k) with (Z.of_nat n) by lia. lia.
Qed.

(** * Properties *)

(** C26: DATE text round trip.  In every date format, with every separator, the
    text of a date reads back as that date at midnight; the formats with
    two-digit years cover 1940 to 2039, the others the years 0 to 9999. *)
Theorem date_text_roundtrip (cfg : dateTimeSettings) (t : time) :
  year_in_format (DateFormat cfg) (year (Date t)) ->
  parseDate (formatDate t cfg) cfg = Ret (mkTime ((dayOf t - epochDay) * 86400) 0).
Proof. apply formatDate_parse. Qed.

Lemma date_text_roundtrip_witness :
  let cfg := mkSettings 0 4 0 0 false in
  formatDate (mkTime 1709164800 0) cfg = lit "24 060" /\
  parseDate (formatDate (mkTime 1709164800 0) cfg) cfg = Ret (mkTime 1709164800 0).
Proof.
  split; [vm_compute; reflexivity|].
  exact (date_text_roundtrip (mkSettings 0 4 0 0 false) (mkTime 1709164800 0)
    ltac:(split; vm_compute; discriminate)).
Defined.

(** TIME text round trip.  In every time format, with every separator, the
    text of a time reads back as its hour, minute and second; the USA format
    has no seconds. *)
Theorem time_text_roundtrip (cfg : dateTimeSettings) (t : time) :
  parseTime (formatTime t cfg) cfg =
    Ret (timeOfDay (hourOf t) (minuteOf t) (if TimeFormat cfg =? timeFormatUSA then 0 else secondOf t)).
Proof. apply formatTime_parse. Qed.

(** What the text of a [Timestamp] scans to. *)
Lemma timestampText_scans (ts : Timestamp) (text : bytes) :
  timestampText ts = Ret text -> time_ok (tsTime ts) -> 0 <= year (Date (tsTime ts)) <= 9999 ->
  Picoseconds ts = 0 \/ Picoseconds ts / 1000 = nanosecond (tsTime ts) ->
  Scan (ScanText text) = Ret (mkTimestamp (inUTC (tsTime ts))
    (if Picoseconds ts =? 0 then nanosecond (tsTime ts) * 1000 else Picoseconds ts)) /\
  parseIBMiTimestamp text = Ret (inUTC (tsTime ts)).
Proof.
  destruct ts as [[sec ns z] picos]. cbn [tsTime Picoseconds nanosecond]. unfold timestampText, time_ok.
  cbn [tsTime Picoseconds nanosecond]. intros Htext Hn Hy Hp.
  destruct (Z.ltb_spec picos 0), (Z.ltb_spec maxTimestampPicoseconds picos); try done. cbn [orb] in Htext.
  unfold maxTimestampPicoseconds in *. apply Ret_inj in Htext as <-.
  set (p := if picos =? 0 then ns * 1000 else picos).
  assert (0 <= p < 10 ^ 12 /\ p / 1000 = ns) as [Hpr Hpn].
  { subst p. change (10 ^ 12) with 1000000000000. destruct (Z.eqb_spec picos 0) as [->|].
    - rewrite Z.div_mul by lia. change (10 ^ 9) with 1000000000 in Hn. lia.
    - destruct Hp; [done|]. split; [lia|done]. }
  rewrite (padInt_fixed 12) by (change (10 ^ Z.of_nat 12) with (10 ^ 12); lia). change (lit ".") with [46].
  split.
  - cbn [Scan]. unfold parse. rewrite parseTimestampText_stamp by done. cbn [mbind outcome_bind unixSec]. by rewrite Hpn.
  - change ([46] ++ fixedDigits 12 p) with (46 :: fixedDigits 12 p).
    rewrite parseIBMiTimestamp_digits by (done || apply is_digits_fixed).
    unfold inUTC. cbn [nanosecond]. do 2 f_equal.
    change 12%nat with (9 + 3)%nat. rewrite (fixedDigits_app 9 3), take_app_length' by by rewrite length_fixedDigits.
    change (10 ^ Z.of_nat 3) with 1000. rewrite Hpn, len_fixedDigits, digitsVal_fixed by lia.
    rewrite Z.mod_small by done. change (9 - Z.of_nat 9) with 0. lia.
Qed.

(** C25: TIMESTAMP text round trip.  The text of a [Timestamp] whose nanoseconds
    agree with its picoseconds shows the wall clock of its own location, and is
    read back in UTC: it scans to the time with that wall clock, which is the
    same instant when the location is UTC, with all twelve digits, and the
    column reader for [time.Time] reads the same time to the nanosecond. *)
Theorem timestamp_roundtrip (ts : Timestamp) (text : bytes) :
  timestampText ts = Ret text -> time_ok (tsTime ts) -> 0 <= year (Date (tsTime ts)) <= 9999 ->
  Picoseconds ts = 0 \/ Picoseconds ts / 1000 = nanosecond (tsTime ts) ->
  Scan (ScanText text) = Ret (mkTimestamp (inUTC (tsTime ts))
    (if Picoseconds ts =? 0 then nanosecond (tsTime ts) * 1000 else Picoseconds ts)) /\
  parseIBMiTimestamp text = Ret (inUTC (tsTime ts)).
Proof. apply timestampText_scans. Qed.

Lemma timestamp_roundtrip_witness :
  (let ts := mkTimestamp (mkTime (-62135596801) 123456789) 123456789012 in
   Scan (ScanText (lit "0000-12-31-23.59.59.123456789012")) = Ret ts /\
   parseIBMiTimestamp (lit "0000-12-31-23.59.59.123456789012") = Ret (tsTime ts)) /\
  (* one hour east of UTC *)
  timestampText (mkTimestamp (mkTimeAt 1709164799 5 3600) 0) = Ret (lit "2024-02-29-00.59.59.000000005000") /\
  Scan (ScanText (lit "2024-02-29-00.59.59.000000005000")) = Ret (mkTimestamp (mkTime 1709168399 5) 5000).
Proof.
  split; [|split].
  - exact (timestamp_roundtrip (mkTimestamp (mkTime (-62135596801) 123456789) 123456789012)
      (lit "0000-12-31-23.59.59.123456789012") ltac:(vm_compute; reflexivity) ltac:(split; vm_compute; congruence)
      ltac:(split; vm_compute; congruence) ltac:(right; vm_compute; reflexivity)).
  - vm_compute. reflexivity.
  - exact (proj1 (timestamp_roundtrip (mkTimestamp (mkTimeAt 1709164799 5 3600) 0)
      (lit "2024-02-29-00.59.59.000000005000") ltac:(vm_compute; reflexivity) ltac:(split; vm_compute; congruence)
      ltac:(split; vm_compute; congruence) ltac:(left; reflexivity))).
Defined.

(** A TIMESTAMP parameter loses exactly the digits that its column cannot
    hold.  The text of a [time.Time], cut to the column length [L] as the encoder
    does, is read back by the column reader as the same second with the
    nanoseconds truncated to the [L - 20] digits left of the cut. *)
Theorem timestamp_param_truncates (t : time) (L : nat) :
  time_ok t -> 0 <= year (Date t) <= 9999 -> (19 <= L)%nat ->
  parseIBMiTimestamp (take L (parameterFieldTimestampText t)) =
    Ret (mkTime (wall t)
      (let unit := 10 ^ (9 - Z.min 9 (Z.max 0 (Z.of_nat L - 20))) in nanosecond t / unit * unit)).
Proof.
  intros Hn Hy HL. cbv zeta. unfold parameterFieldTimestampText, formatFraction9, time_ok in *.
  pose proof (len_formatStamp t Hy) as Hl. assert (length (formatStamp t) = 19%nat) as Hl' by (unfold len in Hl; lia).
  rewrite take_app, Hl', take_ge by lia. destruct (Z.eqb_spec (nanosecond t) 0) as [->|Hn0].
  - rewrite take_nil, app_nil_r, parseIBMiTimestamp_plain, Zdiv_0_l by done. done.
  - destruct (Nat.eq_dec L 19%nat) as [->|HL'].
    { change (19 - 19)%nat with 0%nat. cbn [take]. rewrite app_nil_r, parseIBMiTimestamp_plain by done.
      do 2 f_equal. change (9 - Z.min 9 (Z.max 0 (Z.of_nat 19 - 20))) with 9. rewrite Z.div_small by lia. done. }
    replace (L - 19)%nat with (S (L - 20)) by lia. cbn [take].
    set (ns := nanosecond t) in *.
    pose proof (take_trimmed (fixedDigits 9 ns) (Nat.min 9 (L - 20)) (is_digits_fixed 9 ns)) as Ht. cbv zeta in Ht.
    rewrite length_fixedDigits in Ht. destruct Ht as (Hd & Hlen & _ & Hval). specialize (Hval ltac:(lia)).
    rewrite take_fixed in Hval by (change (10 ^ Z.of_nat 9) with (10 ^ 9); lia).
    destruct (take_trimmed (fixedDigits 9 ns) (L - 20) (is_digits_fixed 9 ns)) as (Hd' & _ & Hlen' & _).
    rewrite length_fixedDigits in Hlen'.
    assert (take 9 (take (L - 20) (trimRight (fixedDigits 9 ns) (lit "0"))) =
      take (Nat.min 9 (L - 20)) (trimRight (fixedDigits 9 ns) (lit "0"))) as E9 by by rewrite take_take.
    rewrite parseIBMiTimestamp_digits by done. rewrite E9. do 2 f_equal.
    set (j := Nat.min 9 (L - 20)) in *.
    assert (9 - Z.min 9 (Z.max 0 (Z.of_nat L - 20)) = Z.of_nat (9 - j)) as -> by (subst j; lia).
    rewrite <-Hval, <-Z.mul_assoc. f_equal. rewrite <-Z.pow_add_r by (unfold len; lia). f_equal. lia.
Qed.

Lemma timestamp_param_truncates_witness :
  parameterFieldTimestampText (mkTime 1709164800 987654320) = lit "2024-02-29-00.00.00.98765432" /\
  parseIBMiTimestamp (take 26 (lit "2024-02-29-00.00.00.98765432")) = Ret (mkTime 1709164800 987654000).
Proof.
  split; [vm_compute; reflexivity|].
  exact (timestamp_param_truncates (mkTime 1709164800 987654320) 26
    ltac:(split; vm_compute; congruence) ltac:(split; vm_compute; congruence) ltac:(lia)).
Defined.

(** What is scanned into a [NullTimestamp] from its own value is that value with its
    wall clock in UTC, NULL included, whatever it held before; its error is that
    of [Scan]. *)
Theorem null_timestamp_roundtrip (n before : NullTimestamp) (value : option bytes) :
  NullTimestamp_Value n = Ret value -> time_ok (tsTime (nullTimestamp n)) -> 0 <= year (Date (tsTime (nullTimestamp n))) <= 9999 ->
  0 < Picoseconds (nullTimestamp n) /\ Picoseconds (nullTimestamp n) / 1000 = nanosecond (tsTime (nullTimestamp n)) ->
  NullTimestamp_Scan before (match value with Some text => ScanText text | None => ScanNull end) =
    (Ret tt, if Valid n then mkNullTimestamp (mkTimestamp (inUTC (tsTime (nullTimestamp n))) (Picoseconds (nullTimestamp n))) true
             else mkNullTimestamp zeroTimestamp false).
Proof.
  destruct n as [ts valid]. unfold NullTimestamp_Value. cbn [nullTimestamp Valid]. intros Hv Ht Hy [Hp Hns].
  destruct valid; [|by apply Ret_inj in Hv as <-]. apply fmap_Ret in Hv as (text & Hv & <-).
  destruct (timestampText_scans ts text Hv Ht Hy (or_intror Hns)) as [E _]. unfold NullTimestamp_Scan. rewrite E.
  by rewrite (proj2 (Z.eqb_neq _ 0)) by lia.
Qed.

(** A date text is accepted exactly when its fields are a date of the
    calendar: for a text of readable fields that is not all zeros, the result is
    that date at midnight if the month exists and has that day in that year,
    and an error otherwise.  Nothing is normalised silently. *)
Theorem date_accepted_iff_valid (s : bytes) (cfg : dateTimeSettings) (y m d : Z) :
  DateFormat cfg <> dateFormatJulian -> allZeros (trimSpace s) = false ->
  dateFields (trimSpace s) (DateFormat cfg) = Ret (y, m, d) ->
  parseDate s cfg = if bool_decide (valid_date y m d) then Ret (timeDate y m d 0 0 0 0) else Fail invalidDate.
Proof.
  intros Hf Hz Hfields. unfold parseDate. rewrite Hz, (proj2 (Z.eqb_neq _ dateFormatJulian)), Hfields by done.
  cbn [mbind outcome_bind]. rewrite date_check. by destruct (bool_decide (valid_date y m d)).
Qed.

Lemma date_accepted_iff_valid_witness :
  parseDate (lit "29/02/2023") (mkSettings 2 0 0 0 false) = Fail invalidDate.
Proof.
  exact (date_accepted_iff_valid (lit "29/02/2023") (mkSettings 2 0 0 0 false) 2023 2 29
    ltac:(done) ltac:(vm_compute; reflexivity) ltac:(vm_compute; reflexivity)).
Defined.

(** A minute of "-1" is accepted: the fields are read with [strconv.Atoi]. *)
Example signed_timestamp_field :
  parseTimestampText (lit "2024-01-01-10.-1.00") = Ret (timeDate 2024 1 1 9 59 0 0, 0).
Proof. vm_compute. reflexivity. Qed.
