(* ===== verification/Sqlca.v ===== *)
(** What a reply says: the SQLCA, warnings and errors of sql.go, errors.go,
    reply_error.go and sqlerror_text.go, and the results built from them. *)
From Stdlib Require Import Strings.String.
From stdpp Require Import base list numbers strings gmap.
From S2P Require Import Prelude GoStrings Digits Utf Ccsid Wire Reply Format Request Decimal.
Open Scope Z_scope.

(** ** errors.go *)

(** A chain of [SQLWarning]s is a list; [nil] is the empty chain. *)
Record SQLWarning := mkWarning { warnCode : Z; warnState : bytes; warnMessage : bytes }.

(** The copy links one new warning after the other. *)
Definition cloneSQLWarningChain (head : list SQLWarning) : list SQLWarning :=
  match head with
  | [] => []
  | h :: rest =>
      foldl (fun clone w => clone ++ [mkWarning (warnCode w) (warnState w) (warnMessage w)])
        [mkWarning (warnCode h) (warnState h) (warnMessage h)] rest
  end.

Record SQLError := mkSQLError {
  errCode : Z;
  errState : bytes;
  errMessage : bytes;
  MessageID : bytes;
  MessageText : bytes;
  SecondLevelText : bytes;
  errTokens : bytes;
}.

(** [SQLError.Error]. *)
Definition sqlErrorText (e : SQLError) : bytes :=
  let code := formatInt (errCode e) in
  if negb (len (MessageID e) =? 0) || negb (len (MessageText e) =? 0) then
    (if len (MessageID e) =? 0 then [] else lit "[" ++ MessageID e ++ lit "] ") ++
    (if len (MessageText e) =? 0 then errMessage e else MessageText e) ++
    (if len (SecondLevelText e) =? 0 then [] else lit " " ++ SecondLevelText e) ++
    (if len (errState e) =? 0 then lit " (SQLCODE " ++ code ++ lit ")"
     else lit " (SQLSTATE " ++ errState e ++ lit ", SQLCODE " ++ code ++ lit ")")
  else if len (errState e) =? 0 then lit "as400 sql error " ++ code ++ lit ": " ++ errMessage e
  else lit "as400 sql error " ++ code ++ lit " (" ++ errState e ++ lit "): " ++ errMessage e.

(** The SQLSTATE class sentinels. *)
Inductive sqlSentinel :=
  ErrSQLNoData | ErrSQLDataException | ErrSQLConstraintViolation | ErrSQLInvalidCursor | ErrSQLSyntaxError.

(** [SQLError.Is]. *)
Definition sqlErrorIs (e : SQLError) (target : sqlSentinel) : bool :=
  if len (errState e) <? 2 then false
  else
    let class := take 2 (errState e) in
    match target with
    | ErrSQLNoData => beqb class (lit "02")
    | ErrSQLDataException => beqb class (lit "22")
    | ErrSQLConstraintViolation => beqb class (lit "23")
    | ErrSQLInvalidCursor => beqb class (lit "24") || beqb class (lit "25")
    | ErrSQLSyntaxError => beqb class (lit "42")
    end.

(** ** The SQLCA *)

Record sqlcaInfo := mkInfo {
  SQLCode : Z;
  SQLState : bytes;
  GeneratedKey : Z;
  HasGeneratedKey : bool;
  UpdateCount : Z;
  ResultSetsCount : Z;
  Warning : list SQLWarning;
  Tokens : bytes;
}.

Definition noInfo : sqlcaInfo := mkInfo 0 [] 0 false 0 0 [] [].

Definition sqlerrmcSeparator : Z := 0xFF.

(** The pieces between the separators; there is always a last one. *)
Fixpoint splitFrom (start : bytes) (data : bytes) (sep : Z) : list bytes :=
  match data with
  | [] => [start]
  | b :: data' => if b =? sep then start :: splitFrom [] data' sep else splitFrom (start ++ [b]) data' sep
  end.

Definition splitBytes (data : bytes) (sep : Z) : list bytes := splitFrom [] data sep.

(** [strings.Join]. *)
Fixpoint join (parts : list bytes) (sep : bytes) : bytes :=
  match parts with
  | [] => []
  | [p] => p
  | p :: parts' => p ++ sep ++ join parts' sep
  end.

Section Text.
Context `{TableFS}.

(** One token: an empty piece, a piece that does not decode and a blank one are
    left out. *)
Definition tokenText (part : bytes) : outcome (list bytes) :=
  if len part =? 0 then Ret []
  else
    match decodeTextByCCSID part 37 with
    | Ret text => Ret (if len (trimSpace text) =? 0 then [] else [trimSpace text])
    | Fail _ => Ret []
    | Panic => Panic
    end.

Definition sqlerrmcTokens (sqlca : bytes) : outcome bytes :=
  if len sqlca <? 18 then Ret []
  else
    length ← uint_at 2 sqlca 16;
    if length <=? 0 then Ret []
    else
      let length := if 70 <? length then 70 else length in
      let length := if len sqlca <? 18 + length then len sqlca - 18 else length in
      raw ← slice sqlca 18 (18 + length);
      tokens ← mapM tokenText (splitBytes raw sqlerrmcSeparator);
      Ret (join (concat tokens) (lit " ")).

(** The warning of a positive SQLCODE. *)
Definition sqlWarningOf (code : Z) (state : bytes) : list SQLWarning :=
  if 0 <? code then
    [mkWarning code state
       (if len state =? 0 then lit "SQL warning " ++ formatInt code
        else lit "SQL warning " ++ formatInt code ++ lit " (" ++ state ++ lit ")")]
  else [].

(** The generated key at offset 72, 16 packed bytes. *)
Definition generatedKeyOf (sqlca : bytes) : outcome (Z * bool) :=
  if 72 + 16 <=? len sqlca then
    data ← slice sqlca 72 (72 + 16);
    match decodePackedDecimalString data 30 0 with
    | Ret key =>
        match parseInt64 (trimSpace key) with
        | Ret parsed => Ret (parsed, true)
        | _ => Ret (0, false)
        end
    | Fail _ => Ret (0, false)
    | Panic => Panic
    end
  else Ret (0, false).

Definition parseSQLCA (sqlca : bytes) : outcome sqlcaInfo :=
  if len sqlca =? 0 then Ret noInfo
  else if len sqlca <? 136 then Fail (EText "sqlca too short" [len sqlca])
  else
    code ← uint_at 4 sqlca 12;
    updateCount ← uint_at 4 sqlca 104;
    resultSets ← uint_at 4 sqlca 100;
    stateBytes ← slice sqlca 131 136;
    state ← (match decodeTextByCCSID stateBytes 37 with
             | Ret s => Ret (trimSpace s)
             | Fail _ => Ret []
             | Panic => Panic
             end);
    tokens ← sqlerrmcTokens sqlca;
    '(key, hasKey) ← generatedKeyOf sqlca;
    Ret (mkInfo (i32 code) state key hasKey (i32 updateCount) (i32 resultSets)
           (sqlWarningOf (i32 code) state) tokens).

Definition parseSQLCABody (s : unit) (codePoint : Z) (cpPayload : bytes) : outcome (unit + bytes) :=
  if codePoint =? CodePointSQLCA then Ret (inr cpPayload) else Ret (inl s).

Definition parseSQLCAFromPayload (payload : bytes) : outcome sqlcaInfo :=
  r ← forLLCP (fun e => Fail e) parseSQLCABody (length payload) tt payload;
  parseSQLCA (match r with inl _ => [] | inr sqlca => sqlca end).

(** ** sqlerror_text.go: message text *)

Record sqlMessageText := mkMessage { msgID : bytes; FirstLevel : bytes; SecondLevel : bytes }.

Definition decodeMessageCodePoint (payload : bytes) (textOffset : Z) : outcome bytes :=
  if len payload <? textOffset then Ret []
  else
    ccsidID ← uint_at 2 payload 0;
    rest ← slice payload textOffset (len payload);
    text ← decodeTextByCCSID rest ccsidID;
    Ret (trimSpace text).

Definition parseMessageBody (out : sqlMessageText) (codePoint : Z) (cp : bytes)
    : outcome (sqlMessageText + sqlMessageText) :=
  if codePoint =? CodePointMessageID then
    text ← decodeMessageCodePoint cp 2; Ret (inl (mkMessage text (FirstLevel out) (SecondLevel out)))
  else if codePoint =? CodePointFirstLevelMessageText then
    text ← decodeMessageCodePoint cp 4; Ret (inl (mkMessage (msgID out) text (SecondLevel out)))
  else if codePoint =? CodePointSecondLevelMessageText then
    text ← decodeMessageCodePoint cp 4; Ret (inl (mkMessage (msgID out) (FirstLevel out) text))
  else Ret (inl out).

Definition parseSQLMessageText (payload : bytes) : outcome sqlMessageText :=
  r ← forLLCP (fun e => Fail e) parseMessageBody (length payload) (mkMessage [] [] []) payload;
  Ret (match r with inl out => out | inr out => out end).

Definition applySQLMessageText (e : SQLError) (text : sqlMessageText) : SQLError :=
  let first := FirstLevel text in
  mkSQLError (errCode e) (errState e)
    (if len first =? 0 then errMessage e else first) (msgID text)
    (if len first =? 0 then MessageText e else first) (SecondLevel text) (errTokens e).

(** The error of an SQLCA before the follow-up request. *)
Definition sqlErrorOf (info : sqlcaInfo) : SQLError :=
  mkSQLError (SQLCode info) (SQLState info)
    (if len (SQLState info) =? 0 then lit "SQL execution failed"
     else lit "SQL execution failed (" ++ SQLState info ++ lit ")")
    [] [] [] (Tokens info).

(** The error after it: [reply] is the payload of the follow-up, or the failure
    of the request, which leaves the error as it is. *)
Definition sqlErrorWithText (info : sqlcaInfo) (reply : outcome bytes) : outcome SQLError :=
  match reply with
  | Ret payload =>
      match parseSQLMessageText payload with
      | Ret text => Ret (applySQLMessageText (sqlErrorOf info) text)
      | Fail _ => Ret (sqlErrorOf info)
      | Panic => Panic
      end
  | Fail _ => Ret (sqlErrorOf info)
  | Panic => Panic
  end.

(** ** reply_error.go *)

Definition isEndOfDataReply (operation : string) (envelope : replyEnvelope) : bool :=
  if (RCClass envelope =? 2) && (RCCode envelope =? 700) then true
  else if negb (String.eqb operation "fetch") then false
  else if (RCClass envelope =? 1) && (RCCode envelope =? 100) then true
  else (RCClass envelope =? 2) && (RCCode envelope =? 701).

(** The loop returns false when the payload is malformed. *)
Definition payloadHasSQLCA (payload : bytes) : outcome bool :=
  r ← forLLCP (R := bool) (fun _ => Ret (inr false))
        (fun _ codePoint _ => if codePoint =? 0x3807 then Ret (inr true) else Ret (inl tt))
        (length payload) tt payload;
  Ret (match r with inl _ => false | inr b => b end).

(** What [checkReply] decides about a reply; an [SQLFailure] is turned into an
    [SQLError] by [newSQLError], which asks the server for the text. *)
Inductive replyVerdict :=
| ReplyOK
| ReplyWarning (w : SQLWarning)
| ReplyProtocolError (operation : string) (class code : Z)
| SQLFailure (info : sqlcaInfo).

Definition checkReply (operation : string) (envelope : replyEnvelope) (payload : bytes) : outcome replyVerdict :=
  if hasWarning envelope then
    if isEndOfDataReply operation envelope then Ret ReplyOK
    else Ret (ReplyWarning (mkWarning (RCCode envelope) []
           (lit operation ++ lit " returned warning: class=" ++ formatInt (RCClass envelope) ++
            lit " code=" ++ formatInt (RCCode envelope))))
  else if negb (hasError envelope) then Ret ReplyOK
  else
    has ← payloadHasSQLCA payload;
    if negb has then Ret (ReplyProtocolError operation (RCClass envelope) (RCCode envelope))
    else
      match parseSQLCAFromPayload payload with
      | Ret info =>
          Ret (SQLFailure (mkInfo (RCCode envelope) (SQLState info) (GeneratedKey info) (HasGeneratedKey info)
                 (UpdateCount info) (ResultSetsCount info) (Warning info) (Tokens info)))
      | Fail _ => Ret (ReplyProtocolError operation (RCClass envelope) (RCCode envelope))
      | Panic => Panic
      end.
End Text.

(** ** Results *)

Record execResult := mkResult { rowsAffected : Z; lastInsertID : Z; hasLastInsert : bool }.

Definition LastInsertId (r : execResult) : outcome Z :=
  if hasLastInsert r then Ret (lastInsertID r) else Fail ENoGeneratedKey.

Definition RowsAffected (r : execResult) : outcome Z := Ret (rowsAffected r).

(** The result of a statement that succeeded, as [execContext] and
    [execPrepared] build it. *)
Definition execResultOf (info : sqlcaInfo) : execResult :=
  mkResult (if UpdateCount info <? 0 then 0 else UpdateCount info)
    (if HasGeneratedKey info then GeneratedKey info else 0) (HasGeneratedKey info).

(** * Lemmas *)

Lemma cloneSQLWarningChain_id chain : cloneSQLWarningChain chain = chain.
Proof.
  destruct chain as [|[c s m] rest]; [done|]. cbn [cloneSQLWarningChain warnCode warnState warnMessage].
  assert (forall acc, foldl (fun clone w => clone ++ [mkWarning (warnCode w) (warnState w) (warnMessage w)]) acc rest
    = acc ++ rest) as H; [|apply H].
  clear. induction rest as [|[c s m] rest IH]; intros acc; cbn [foldl]; [by rewrite app_nil_r|].
  rewrite IH. by rewrite <-app_assoc.
Qed.

Lemma splitFrom_piece start p sep rest :
  Forall (fun b => b <> sep) p -> splitFrom start (p ++ sep :: rest) sep = (start ++ p) :: splitFrom [] rest sep.
Proof.
  revert start. induction p as [|b p IH]; intros start Hp; cbn [app splitFrom].
  - by rewrite Z.eqb_refl, app_nil_r.
  - apply Forall_cons in Hp as [Hb Hp]. rewrite (proj2 (Z.eqb_neq b sep)), IH by done.
    by rewrite <-app_assoc.
Qed.

Lemma splitFrom_last start p sep : Forall (fun b => b <> sep) p -> splitFrom start p sep = [start ++ p].
Proof.
  revert start. induction p as [|b p IH]; intros start Hp; cbn [splitFrom]; [by rewrite app_nil_r|].
  apply Forall_cons in Hp as [Hb Hp]. rewrite (proj2 (Z.eqb_neq b sep)), IH by done. by rewrite <-app_assoc.
Qed.

(** Splitting undoes joining. *)
Lemma splitBytes_join parts sep : parts <> [] -> Forall (Forall (fun b => b <> sep)) parts ->
  splitBytes (join parts [sep]) sep = parts.
Proof.
  intros Hne Hp. unfold splitBytes. induction Hp as [|p parts Hp Hparts IH]; [done|].
  destruct parts as [|q parts].
  - cbn [join]. by rewrite splitFrom_last.
  - change (join (p :: q :: parts) [sep]) with (p ++ sep :: join (q :: parts) [sep]).
    rewrite splitFrom_piece by done. by rewrite IH.
Qed.

(** ** No panic *)

Lemma unpackNibbles_no_panic data : no_panic (unpackNibbles data).
Proof.
  induction data as [|b data IH]; [done|]. cbn [unpackNibbles]. destruct (9 <? _); [done|].
  destruct data; [by destruct (_ <? 10)|]. destruct (9 <? _); [done|]. apply bind_no_panic; [done|]. by intros [].
Qed.

Lemma decodePacked_no_panic data p s : no_panic (decodePackedDecimalString data p s).
Proof.
  unfold decodePackedDecimalString. destruct (_ =? 0); [done|]. destruct (_ <? 0); [done|].
  apply bind_no_panic; [apply unpackNibbles_no_panic|]. by intros [].
Qed.

Lemma wrapUnsupported_no_panic {A} (m : outcome A) : no_panic m -> no_panic (wrapUnsupported m).
Proof. unfold wrapUnsupported. destruct m as [|[]|]; try done. intros _. by destruct (String.eqb _ _). Qed.

(** The payload that the search for the SQLCA returns is part of the reply. *)
Lemma forLLCP_inr_bytes onErr (body : unit -> Z -> bytes -> outcome (unit + bytes)) fuel s data r :
  (forall e, onErr e = Fail e) ->
  (forall s cp p q, body s cp p = Ret (inr q) -> q = p) ->
  is_bytes data -> forLLCP onErr body fuel s data = Ret (inr r) -> is_bytes r.
Proof.
  intros He Hbody. revert s data. induction fuel as [|fuel IH]; intros s data Hd E.
  - by destruct data.
  - destruct data as [|b data]; [done|]. cbn [forLLCP] in E.
    destruct (ParseLLCP (b :: data)) as [[[cp p] rest]|e|] eqn:Ep; [|by rewrite He in E|done].
    apply ParseLLCP_is_bytes in Ep as [Hp Hrest]; [|done].
    apply bind_Ret in E as ([s'|q] & Eb & E); [by eapply IH|].
    apply Ret_inj in E. injection E as ->. by apply Hbody in Eb as ->.
Qed.

Section NoPanic.
Context `{TableFS} (Hdec : tables_ok).

Lemma sqlerrmcTokens_no_panic sqlca : is_bytes sqlca -> no_panic (sqlerrmcTokens sqlca).
Proof.
  intros Hb. unfold sqlerrmcTokens. destruct (Z.ltb_spec (len sqlca) 18); [done|].
  apply bind_no_panic; [apply uint_at_no_panic; lia|]. intros n Hn. apply uint_at_range in Hn; [|done|lia].
  destruct (Z.leb_spec n 0); [done|]. cbv zeta. set (n70 := if 70 <? n then 70 else n).
  assert (0 < n70) by (subst n70; destruct (70 <? n); lia).
  set (m := if len sqlca <? 18 + n70 then len sqlca - 18 else n70).
  assert (0 <= m /\ 18 + m <= len sqlca) as [Hm Hle] by (subst m; destruct (Z.ltb_spec (len sqlca) (18 + n70)); lia).
  rewrite slice_ok by lia. cbn [mbind outcome_bind]. apply bind_no_panic; [|done].
  apply mapM_no_panic, Forall_forall. intros part _. unfold tokenText.
  destruct (_ =? 0); [done|]. pose proof (decodeTextByCCSID_no_panic part 37 (Hdec _)) as Hnp. destruct (decodeTextByCCSID part 37); done.
Qed.

Lemma parseSQLCA_no_panic sqlca : is_bytes sqlca -> no_panic (parseSQLCA sqlca).
Proof.
  intros Hb. unfold parseSQLCA. destruct (_ =? 0); [done|]. destruct (Z.ltb_spec (len sqlca) 136); [done|].
  repeat (apply bind_no_panic; [first [apply uint_at_no_panic; lia|apply slice_no_panic; lia|idtac]|intros ? ?]).
  - match goal with H : slice _ _ _ = Ret ?s |- _ => apply slice_Ret in H as (_ & _ & ->) end.
    pose proof (decodeTextByCCSID_no_panic (sub sqlca 131 (136 - 131)) 37 (Hdec _)) as Hnp.
    destruct (decodeTextByCCSID _ 37); done.
  - by apply sqlerrmcTokens_no_panic.
  - unfold generatedKeyOf. destruct (Z.leb_spec (72 + 16) (len sqlca)); [|done].
    apply bind_no_panic; [apply slice_no_panic; lia|]. intros data _.
    pose proof (decodePacked_no_panic data 30 0) as Hnp. destruct (decodePackedDecimalString data 30 0); try done.
    by destruct (parseInt64 _).
  - match goal with |- no_panic (let '(_, _) := ?x in _) => by destruct x end.
Qed.

Lemma parseSQLCAFromPayload_no_panic payload : is_bytes payload -> no_panic (parseSQLCAFromPayload payload).
Proof.
  intros Hb. unfold parseSQLCAFromPayload. apply bind_no_panic.
  - apply forLLCP_no_panic; [done| |done]. intros s cp p. unfold parseSQLCABody. by case_match.
  - intros [u|sqlca] E; [apply (parseSQLCA_no_panic []); constructor|]. apply parseSQLCA_no_panic.
    eapply forLLCP_inr_bytes; [| |exact Hb|exact E]; [done|].
    intros ? cp p q. unfold parseSQLCABody. case_match; [|done]. by intros [= <-].
Qed.

Lemma payloadHasSQLCA_no_panic payload : no_panic (payloadHasSQLCA payload).
Proof.
  unfold payloadHasSQLCA. apply bind_no_panic; [|done]. apply forLLCP_no_panic; [done| |done].
  intros s cp p. by case_match.
Qed.

Lemma decodeMessageCodePoint_no_panic payload off : 2 <= off -> no_panic (decodeMessageCodePoint payload off).
Proof.
  intros Ho. unfold decodeMessageCodePoint. destruct (Z.ltb_spec (len payload) off); [done|].
  apply bind_no_panic; [apply uint_at_no_panic; lia|]. intros id _.
  apply bind_no_panic; [apply slice_no_panic; lia|]. intros rest _.
  apply bind_no_panic; [apply decodeTextByCCSID_no_panic, Hdec|done].
Qed.

Lemma parseSQLMessageText_no_panic payload : no_panic (parseSQLMessageText payload).
Proof.
  unfold parseSQLMessageText. apply bind_no_panic; [|done]. apply forLLCP_no_panic; [done| |done].
  intros s cp p. unfold parseMessageBody.
  repeat case_match; try done; (apply bind_no_panic; [apply decodeMessageCodePoint_no_panic; lia|done]).
Qed.

Lemma checkReply_no_panic operation envelope payload :
  is_bytes payload -> no_panic (checkReply operation envelope payload).
Proof.
  intros Hb. unfold checkReply. destruct (hasWarning envelope); [by case_match|].
  destruct (hasError envelope); [|done]. cbn [negb].
  apply bind_no_panic; [apply payloadHasSQLCA_no_panic|]. intros [] _; [|done]. cbn [negb].
  pose proof (parseSQLCAFromPayload_no_panic payload Hb). by destruct (parseSQLCAFromPayload payload).
Qed.
End NoPanic.

(** ** Reading an SQLCA back *)

Lemma slice_mid pre x post lo hi : len pre = lo -> hi = lo + len x -> slice (pre ++ x ++ post) lo hi = Ret x.
Proof.
  intros <- ->. pose proof (len_nonneg pre). pose proof (len_nonneg x). pose proof (len_nonneg post).
  rewrite slice_ok by len_lia. rewrite sub_app_r, Z.sub_diag by lia. by rewrite sub_app_l by lia.
Qed.

Lemma uint_mid n pre k v post off : len pre = off -> n = Z.of_nat k ->
  uint_at n (pre ++ be k v ++ post) off = Ret (v mod 2 ^ (8 * n)).
Proof. intros <- ->. by apply readUint_app. Qed.

Lemma i32_read v : - 2 ^ 31 <= v < 2 ^ 31 -> i32 (v mod 2 ^ 32) = v.
Proof. intros. change (v mod 2 ^ 32) with (wrapu 32 v). rewrite wraps_wrapu by lia. by apply wraps_id. Qed.

(** The generated key as the server stores it: 31 digits and a sign. *)
Definition packKey (key : Z) : bytes :=
  packNibbles (if key <? 0 then 0x0D else 0x0C) (fixedDigits 31 (Z.abs key)).

Lemma length_packNibbles sg k digits : length digits = S (2 * k) -> length (packNibbles sg digits) = S k.
Proof.
  revert digits. induction k as [|k IH]; intros digits Hl.
  - destruct digits as [|a [|]]; try done; cbn in Hl; lia.
  - destruct digits as [|a [|b digits]]; try (cbn in Hl; lia). cbn [packNibbles length]. f_equal. apply IH.
    cbn in Hl. lia.
Qed.

Lemma len_packKey key : len (packKey key) = 16.
Proof. unfold packKey, len. rewrite (length_packNibbles _ 15); [done|apply length_fixedDigits]. Qed.

Lemma decode_packKey key : - 10 ^ 30 < key < 10 ^ 30 ->
  exists text, decodePackedDecimalString (packKey key) 30 0 = Ret text /\
    parseInt64 (trimSpace text) = if (- 2 ^ 63 <=? key) && (key <? 2 ^ 63) then Ret key else Fail ERange.
Proof.
  intros Hk. unfold decodePackedDecimalString. rewrite len_packKey. cbn [Z.eqb Z.ltb Z.compare].
  unfold packKey. rewrite (unpack_pack _ 15) by
    (apply length_fixedDigits || apply is_digits_fixed || (destruct (key <? 0); auto)).
  cbn [mbind outcome_bind]. eexists. split; [reflexivity|].
  assert (fitDigits (fixedDigits 31 (Z.abs key)) 30 = fixedDigits 30 (Z.abs key)) as ->.
  { unfold fitDigits. rewrite len_fixedDigits. change (30 <? Z.of_nat 31) with true. cbv iota.
    change (Z.to_nat (Z.of_nat 31 - 30)) with 1%nat. change 31%nat with (1 + 30)%nat.
    rewrite (fixedDigits_app 1 30). apply drop_app_length'. by rewrite length_fixedDigits. }
  unfold insertPoint. cbn [Z.ltb Z.compare].
  assert (signPrefix (if key <? 0 then 13 else 12) = signText (key <? 0)) as -> by by destruct (key <? 0).
  rewrite trimSpace_forall.
  - rewrite parseInt64_signed by (apply is_digits_fixed || rewrite length_fixedDigits; lia).
    rewrite digitsVal_fixed, Z.mod_small by (change (10 ^ Z.of_nat 30) with (10 ^ 30); lia).
    assert ((if key <? 0 then - Z.abs key else Z.abs key) = key) as -> by (destruct (Z.ltb_spec key 0); lia). done.
  - apply Forall_app. split; [destruct (key <? 0); by repeat constructor|].
    apply digit_facts, is_digits_fixed.
Qed.

(** Bytes that are digits with a sign behind them. *)
Fixpoint packed (data : bytes) : bool :=
  match data with
  | [] => false
  | b :: data' =>
      (Z.land (Z.shiftr b 4) 15 <=? 9) &&
      match data' with [] => 10 <=? Z.land b 15 | _ => (Z.land b 15 <=? 9) && packed data' end
  end.

Lemma unpackNibbles_not_packed data : data <> [] -> packed data = false -> exists e, unpackNibbles data = Fail e.
Proof.
  induction data as [|b data IH]; [done|]. intros _. cbn [packed unpackNibbles].
  destruct (Z.leb_spec (Z.land (Z.shiftr b 4) 15) 9) as [Hhi|Hhi]; cbn [andb];
    [rewrite (proj2 (Z.ltb_ge 9 _)) by done|intros _; rewrite (proj2 (Z.ltb_lt 9 _)) by done; by eexists].
  destruct data as [|b' data].
  - intros Hlo. bool_facts. rewrite (proj2 (Z.ltb_lt _ 10)) by lia. by eexists.
  - destruct (Z.leb_spec (Z.land b 15) 9) as [Hlo|Hlo]; cbn [andb]; intros Hp.
    + rewrite (proj2 (Z.ltb_ge 9 _)) by done. destruct (IH ltac:(done) Hp) as [e ->]. by exists e.
    + rewrite (proj2 (Z.ltb_lt 9 _)) by done. by eexists.
Qed.

(** What the last 16 bytes of SQLERRMC say of a generated key: a number as the
    server packs it, which is a key when it has 64 bits, or bytes that are not
    packed digits, such as blanks, zeros or the end of a long message. *)
Inductive key_field : bytes -> Z * bool -> Prop :=
| key_written key : - 2 ^ 63 <= key < 2 ^ 63 -> key_field (packKey key) (key, true)
| key_too_large key : - 10 ^ 30 < key < 10 ^ 30 -> ~ (- 2 ^ 63 <= key < 2 ^ 63) -> key_field (packKey key) (0, false)
| key_not_packed data : len data = 16 -> packed data = false -> key_field data (0, false).

Lemma key_field_len data r : key_field data r -> len data = 16.
Proof. intros []; [apply len_packKey..|done]. Qed.

Lemma key_field_read pre data post r : key_field data r -> len pre = 72 -> generatedKeyOf (pre ++ data ++ post) = Ret r.
Proof.
  intros Hk Hp. pose proof (key_field_len _ _ Hk) as Hl. pose proof (len_nonneg post). unfold generatedKeyOf.
  rewrite (proj2 (Z.leb_le _ _)) by len_lia. rewrite (slice_mid pre data post) by (done || rewrite Hl; lia).
  cbn [mbind outcome_bind]. destruct Hk as [key Hr|key Hr Hn|data Hd Hn].
  - assert (2 ^ 63 < 10 ^ 30) by done. destruct (decode_packKey key) as (text & -> & ->); [lia|].
    by rewrite (proj2 (Z.leb_le _ _)), (proj2 (Z.ltb_lt _ _)) by lia.
  - destruct (decode_packKey key) as (text & -> & ->); [lia|].
    destruct (Z.leb_spec (- 2 ^ 63) key), (Z.ltb_spec key (2 ^ 63)); cbn [andb]; try done. lia.
  - assert (data <> []) as Hne by by intros ->. destruct (unpackNibbles_not_packed data Hne Hn) as [e E].
    unfold decodePackedDecimalString. rewrite Hd, E. done.
Qed.

(** The SQLCA of a server: the fields at their offsets, with the 70 bytes of
    SQLERRMC, of which the last 16 may be a generated key. *)
Definition encodeSQLCA (head : bytes) (code errml : Z) (errmc keyField mid : bytes)
    (resultSets updates : Z) (flags state rest : bytes) : bytes :=
  head ++ be32 code ++ be16 errml ++ errmc ++ keyField ++ mid ++ be32 resultSets ++ be32 updates ++ flags ++ state ++ rest.

(** What a text of the SQLCA says: nothing when it does not decode. *)
Definition says `{TableFS} (text : bytes) : bytes :=
  match decodeTextByCCSID text 37 with Ret t => trimSpace t | _ => [] end.

Definition decodable `{TableFS} (text : bytes) : Prop := no_panic (decodeTextByCCSID text 37).

(** The tokens that say something, with blanks between them. *)
Definition tokensText `{TableFS} (tokens : list bytes) : bytes :=
  join (filter (fun t => t <> []) (says <$> tokens)) (lit " ").

Lemma tokens_texts `{TableFS} tokens :
  Forall decodable tokens ->
  exists parts, mapM tokenText tokens = Ret parts /\ concat parts = filter (fun t => t <> []) (says <$> tokens).
Proof.
  induction 1 as [|p tokens Hp _ (parts & IH & Hc)]; [by exists []|]. cbn [mapM]. rewrite IH.
  assert (exists part, tokenText p = Ret part /\ part = if decide (says p <> []) then [says p] else []) as (part & E & Hpart).
  { unfold tokenText, says, decodable in *. destruct p as [|b p]; [by eexists|].
    rewrite (proj2 (Z.eqb_neq (len (b :: p)) 0)) by len_lia. destruct (decodeTextByCCSID (b :: p) 37) as [t|e|]; [|by eexists|done].
    eexists. split; [done|]. destruct (trimSpace t); done. }
  rewrite E. cbn [mbind outcome_bind]. eexists. split; [done|]. cbn [concat fmap list_fmap].
  rewrite filter_cons, Hc, Hpart. by destruct (decide (says p <> [])).
Qed.

(** Look at a concatenation [ca] as [pre] followed by [post]. *)
Ltac split_at ca pre post :=
  let e := fresh in
  assert (ca = pre ++ post) as e by (subst ca; rewrite <-?app_assoc, ?app_nil_r; reflexivity); rewrite e; clear e.

Lemma state_text `{TableFS} state :
  decodable state ->
  match decodeTextByCCSID state 37 with
  | Ret s => Ret (trimSpace s) | Fail _ => Ret [] | Panic => Panic
  end = Ret (says state).
Proof. unfold decodable, says. by destruct (decodeTextByCCSID state 37). Qed.

(** The message area up to the length the SQLCA says, 70 bytes at most. *)
Lemma tokens_read `{TableFS} head code errml area rest tokens :
  len head = 12 -> 0 <= errml < 2 ^ 16 -> len area = 70 ->
  take (Z.to_nat (Z.min errml 70)) area = join tokens [sqlerrmcSeparator] ->
  Forall (Forall (fun b => b <> sqlerrmcSeparator)) tokens -> Forall decodable tokens ->
  sqlerrmcTokens (head ++ be32 code ++ be16 errml ++ area ++ rest) = Ret (tokensText tokens).
Proof.
  intros Hh He Ha Ht Hsep Hdec. destruct (tokens_texts tokens Hdec) as (parts & Em & Ec). pose proof (len_nonneg rest).
  unfold sqlerrmcTokens. rewrite (proj2 (Z.ltb_ge _ 18)) by len_lia.
  replace (uint_at 2 _ 16) with (Ret errml : outcome Z); last first.
  { rewrite app_assoc. rewrite (uint_mid 2 _ 2) by (autorewrite with golen; lia || done). f_equal. symmetry. by apply Z.mod_small. }
  cbn [mbind outcome_bind]. unfold tokensText. destruct (Z.leb_spec errml 0).
  { rewrite Z.min_l in Ht by lia. replace errml with 0 in Ht by lia. cbn [Z.to_nat take] in Ht.
    replace (filter (fun t => t <> []) (says <$> tokens)) with (@nil bytes); [done|]. rewrite <-Ec.
    destruct tokens as [|t [|? ?]]; [by apply Ret_inj in Em as <-| |by destruct t].
    cbn [join] in Ht. subst t. by apply Ret_inj in Em as <-. }
  assert ((if 70 <? errml then 70 else errml) = Z.min errml 70) as -> by (destruct (Z.ltb_spec 70 errml); lia).
  rewrite (proj2 (Z.ltb_ge _ (18 + _))) by len_lia.
  assert (slice (head ++ be32 code ++ be16 errml ++ area ++ rest) 18 (18 + Z.min errml 70) = Ret (join tokens [sqlerrmcSeparator])) as ->.
  { rewrite <-Ht, <-(take_drop (Z.to_nat (Z.min errml 70)) area) at 1. rewrite <-(app_assoc (take _ _)).
    rewrite (app_assoc (be32 code)), (app_assoc head). apply slice_mid; [len_lia|]. unfold len in *. rewrite length_take. lia. }
  cbn [mbind outcome_bind]. rewrite splitBytes_join; [|intros ->; cbn [join] in Ht|done].
  - rewrite Em. cbn [mbind outcome_bind]. by rewrite Ec.
  - apply (f_equal length) in Ht. rewrite length_take in Ht. unfold len in Ha. cbn [length] in Ht. lia.
Qed.

Lemma parseSQLCA_encoded `{TableFS} head code errml errmc keyField mid resultSets updates flags state rest tokens key hasKey :
  len head = 12 -> len errmc = 54 -> len mid = 12 -> len flags = 23 -> len state = 5 ->
  - 2 ^ 31 <= code < 2 ^ 31 -> - 2 ^ 31 <= resultSets < 2 ^ 31 -> - 2 ^ 31 <= updates < 2 ^ 31 ->
  0 <= errml < 2 ^ 16 -> key_field keyField (key, hasKey) ->
  take (Z.to_nat (Z.min errml 70)) (errmc ++ keyField) = join tokens [sqlerrmcSeparator] ->
  Forall (Forall (fun b => b <> sqlerrmcSeparator)) tokens -> Forall decodable (state :: tokens) ->
  parseSQLCA (encodeSQLCA head code errml errmc keyField mid resultSets updates flags state rest) =
    Ret (mkInfo code (says state) key hasKey updates resultSets (sqlWarningOf code (says state)) (tokensText tokens)).
Proof.
  intros Hh He Hm Hf Hs Hc Hr Hu Hl Hk Ht Hsep [Hstate Hdec]%Forall_cons. unfold encodeSQLCA. cbv zeta.
  pose proof (key_field_len _ _ Hk) as Hkl. pose proof (len_nonneg rest) as Hrest.
  set (ca := head ++ _). assert (len ca = 136 + len rest) as Hca by (subst ca; autorewrite with golen; lia).
  unfold parseSQLCA. rewrite Hca. rewrite (proj2 (Z.eqb_neq _ 0)), (proj2 (Z.ltb_ge _ 136)) by lia.
  assert (uint_at 4 ca 12 = Ret (code mod 2 ^ 32)) as -> by (by apply uint_mid).
  assert (uint_at 4 ca 104 = Ret (updates mod 2 ^ 32)) as ->.
  { split_at ca (head ++ be32 code ++ be16 errml ++ errmc ++ keyField ++ mid ++ be32 resultSets)
      (be32 updates ++ flags ++ state ++ rest). apply uint_mid; [autorewrite with golen; lia|done]. }
  assert (uint_at 4 ca 100 = Ret (resultSets mod 2 ^ 32)) as ->.
  { split_at ca (head ++ be32 code ++ be16 errml ++ errmc ++ keyField ++ mid)
      (be32 resultSets ++ be32 updates ++ flags ++ state ++ rest). apply uint_mid; [autorewrite with golen; lia|done]. }
  assert (slice ca 131 136 = Ret state) as ->.
  { split_at ca (head ++ be32 code ++ be16 errml ++ errmc ++ keyField ++ mid ++ be32 resultSets ++
      be32 updates ++ flags) (state ++ rest). apply slice_mid; autorewrite with golen; lia. }
  cbn [mbind outcome_bind]. rewrite state_text by done. cbn [mbind outcome_bind].
  assert (sqlerrmcTokens ca = Ret (tokensText tokens)) as ->.
  { unfold ca. rewrite (app_assoc errmc keyField). apply tokens_read; try done. len_lia. }
  cbn [mbind outcome_bind].
  assert (generatedKeyOf ca = Ret (key, hasKey)) as ->.
  { split_at ca (head ++ be32 code ++ be16 errml ++ errmc) (keyField ++ mid ++ be32 resultSets ++ be32 updates ++ flags ++ state ++ rest).
    apply key_field_read; [done|autorewrite with golen; lia]. }
  cbn [mbind outcome_bind]. by rewrite !i32_read.
Qed.

(** The search finds the first SQLCA among the parameters. *)
Lemma fold_sqlca before sqlca after :
  Forall (fun p => p.1 <> CodePointSQLCA) before ->
  foldLLCP parseSQLCABody tt (before ++ (CodePointSQLCA, sqlca) :: after) = Ret (inr sqlca).
Proof.
  induction 1 as [|[cp p] before Hcp _ IH]; [done|]. cbn [app foldLLCP].
  assert (parseSQLCABody tt cp p = Ret (inl tt)) as ->
    by (unfold parseSQLCABody; by rewrite (proj2 (Z.eqb_neq cp CodePointSQLCA))).
  cbn [mbind outcome_bind]. exact IH.
Qed.

(** * Properties *)

(** C23: The driver reads an SQLCA the way the server writes it.  From a reply
    with an SQLCA anywhere among its parameters it gets the SQLCODE, the
    SQLSTATE, the row and result-set counts, each with its sign, and the message
    tokens separated by blanks, without those that say nothing: none of the empty
    SQLERRMC of an ordinary reply, those of the first 70 bytes of one that claims
    to be longer.  It gets a generated key when the last 16 bytes of SQLERRMC are
    a packed number of 64 bits, and none when they are a larger one or not packed
    digits.  A positive SQLCODE, and no other, comes with a warning.  Bytes behind
    the SQLSTATE are ignored. *)
Theorem sqlca_roundtrip `{TableFS} (before after : list (Z * bytes)) (head errmc keyField mid flags state rest : bytes)
    (tokens : list bytes) (code errml key resultSets updates : Z) (hasKey : bool) :
  len head = 12 -> len errmc = 54 -> len mid = 12 -> len flags = 23 -> len state = 5 -> len rest < 2 ^ 31 ->
  - 2 ^ 31 <= code < 2 ^ 31 -> - 2 ^ 31 <= resultSets < 2 ^ 31 -> - 2 ^ 31 <= updates < 2 ^ 31 ->
  0 <= errml < 2 ^ 16 -> key_field keyField (key, hasKey) ->
  take (Z.to_nat (Z.min errml 70)) (errmc ++ keyField) = join tokens [sqlerrmcSeparator] ->
  Forall (Forall (fun b => b <> sqlerrmcSeparator)) tokens -> Forall decodable (state :: tokens) ->
  Forall llcp_ok (before ++ after) -> Forall (fun p => p.1 <> CodePointSQLCA) before ->
  parseSQLCAFromPayload (encodeLLCPs (before ++
    (CodePointSQLCA, encodeSQLCA head code errml errmc keyField mid resultSets updates flags state rest) :: after)) =
  Ret (mkInfo code (says state) key hasKey updates resultSets (sqlWarningOf code (says state)) (tokensText tokens)).
Proof.
  intros Hh He Hm Hf Hs Hrest Hc Hr Hu Hl Hk Ht Hsep Hdec Hok Hbefore. unfold parseSQLCAFromPayload.
  assert (len (encodeSQLCA head code errml errmc keyField mid resultSets updates flags state rest) = 136 + len rest) as Hlen.
  { unfold encodeSQLCA. pose proof (key_field_len _ _ Hk). autorewrite with golen. lia. }
  rewrite forLLCP_encode; [|apply Forall_app in Hok as [? ?]; apply Forall_app; split; [done|constructor; [|done]]|done].
  - rewrite fold_sqlca by done. cbn [mbind outcome_bind]. by apply parseSQLCA_encoded.
  - split; [done|]. cbn [snd]. rewrite Hlen. lia.
Qed.

(** A table for CCSID 37 that maps every byte to the code point of the same
    number, and back. *)
Definition sampleTables : TableFS := fun id =>
  if id =? 37 then
    RawFile (83 :: 111 :: concat ((fun n => be16 (Z.of_nat n)) <$> seq 0 256) ++ (Z.of_nat <$> seq 0 256)
      ++ replicate (Z.to_nat (65536 - 256)) 0)
  else NoFile.

(** An error with tokens and a key, and an ordinary reply without either. *)
Lemma sqlca_roundtrip_witness :
  let H := sampleTables in
  parseSQLCAFromPayload (encodeLLCPs ([] ++ (CodePointSQLCA, encodeSQLCA (replicate 12 0) (-204) 8
    (lit "T1" ++ [255; 255] ++ lit "LIB " ++ replicate 46 0) (packKey 42) (replicate 12 0) 0 7 (replicate 23 0) (lit "42704") []) :: [])) =
  Ret (mkInfo (-204) (lit "42704") 42 true 7 0 [] (lit "T1 LIB")) /\
  parseSQLCAFromPayload (encodeLLCPs ([] ++ (CodePointSQLCA, encodeSQLCA (replicate 12 0) 0 0
    (replicate 54 0) (replicate 16 0) (replicate 12 0) 0 7 (replicate 23 0) (lit "00000") []) :: [])) =
  Ret (mkInfo 0 (lit "00000") 0 false 7 0 [] []).
Proof.
  split.
  - exact (@sqlca_roundtrip sampleTables [] [] (replicate 12 0) (lit "T1" ++ [255; 255] ++ lit "LIB " ++ replicate 46 0) (packKey 42)
      (replicate 12 0) (replicate 23 0) (lit "42704") [] [lit "T1"; []; lit "LIB "] (-204) 8 42 0 7 true
      eq_refl eq_refl eq_refl eq_refl eq_refl eq_refl ltac:(lia) ltac:(lia) ltac:(lia) ltac:(lia) (key_written 42 ltac:(lia)) eq_refl
      ltac:(apply (bool_decide_unpack _); vm_compute; exact I) ltac:(repeat (apply Forall_cons_2; [by vm_compute|]); apply Forall_nil_2)
      (Forall_nil_2 _) (Forall_nil_2 _)).
  - exact (@sqlca_roundtrip sampleTables [] [] (replicate 12 0) (replicate 54 0) (replicate 16 0)
      (replicate 12 0) (replicate 23 0) (lit "00000") [] [] 0 0 0 0 7 false
      eq_refl eq_refl eq_refl eq_refl eq_refl eq_refl ltac:(lia) ltac:(lia) ltac:(lia) ltac:(lia)
      (key_not_packed (replicate 16 0) eq_refl eq_refl) eq_refl
      (Forall_nil_2 _) ltac:(constructor; [by vm_compute|apply Forall_nil_2]) (Forall_nil_2 _) (Forall_nil_2 _)).
Defined.

Definition failedEnvelope : replyEnvelope := mkEnvelope (mkHeader 40 0 DatabaseServerID 0 0 20 0x2800) 0 0 0 0 0 1 (-204).

(** Diagnostics never panic.  Whatever bytes a reply carries, deciding about
    it, reading its SQLCA and reading its message text end with a result or an
    error. *)
Theorem diagnostics_no_panic `{TableFS} (operation : string) (envelope : replyEnvelope) (payload : bytes) :
  tables_ok -> is_bytes payload ->
  no_panic (checkReply operation envelope payload) /\ no_panic (parseSQLCAFromPayload payload) /\
  no_panic (parseSQLMessageText payload).
Proof.
  intros. split_and!; [by apply checkReply_no_panic|by apply parseSQLCAFromPayload_no_panic|
    by apply parseSQLMessageText_no_panic].
Qed.

(** A reply is a failure exactly when its class is not zero and its return
    code is negative; the failure carries that return code, whatever its SQLCA
    says, and no failing reply is taken for a success or a warning. *)
Theorem reply_failure_iff `{TableFS} (operation : string) (envelope : replyEnvelope) (payload : bytes)
    (verdict : replyVerdict) :
  checkReply operation envelope payload = Ret verdict ->
  match verdict with
  | ReplyOK | ReplyWarning _ => RCClass envelope = 0 \/ 0 <= RCCode envelope
  | ReplyProtocolError op class code =>
      RCClass envelope <> 0 /\ RCCode envelope < 0 /\ op = operation /\ class = RCClass envelope /\ code = RCCode envelope
  | SQLFailure info => RCClass envelope <> 0 /\ RCCode envelope < 0 /\ SQLCode info = RCCode envelope
  end.
Proof.
  unfold checkReply, hasWarning, hasError.
  destruct (Z.eqb_spec (RCClass envelope) 0) as [Ec|Ec]; cbn [negb andb].
  - intros [= <-]. by left.
  - destruct (Z.leb_spec 0 (RCCode envelope)); [case_match; intros [= <-]; by right|].
    rewrite (proj2 (Z.ltb_lt _ 0)) by done. cbn [negb].
    intros (has & _ & E)%bind_Ret. destruct has; cbn [negb] in E; [|by apply Ret_inj in E as <-].
    destruct (parseSQLCAFromPayload payload); [| |done]; by apply Ret_inj in E as <-.
Qed.

Lemma reply_failure_iff_witness :
  let H : TableFS := fun _ => NoFile in
  RCClass failedEnvelope <> 0 /\ RCCode failedEnvelope < 0 /\
  "open" = "open"%string /\ 1 = RCClass failedEnvelope /\ -204 = RCCode failedEnvelope.
Proof.
  exact (@reply_failure_iff (fun _ => NoFile) "open" failedEnvelope [] (ReplyProtocolError "open" 1 (-204))
    ltac:(vm_compute; reflexivity)).
Defined.

Lemma diagnostics_no_panic_witness :
  let H : TableFS := fun _ => NoFile in
  no_panic (checkReply "open" failedEnvelope [0; 0; 0; 7; 56; 7; 1]) /\
  no_panic (parseSQLCAFromPayload [0; 0; 0; 7; 56; 7; 1]) /\ no_panic (parseSQLMessageText [0; 0; 0; 7; 56; 7; 1]).
Proof.
  apply (@diagnostics_no_panic (fun _ => NoFile) "open" failedEnvelope [0; 0; 0; 7; 56; 7; 1]);
    [|apply (bool_decide_unpack _); vm_compute; exact I].
  intros id. unfold Lookup, LookupCached. cbn [lookupLocked lookupFuel]. rewrite lookup_empty. unfold tableFS. by destruct (unicodeCodec id).
Defined.
