(* ===== verification/Describe.v ===== *)
(** Describing a result set: the column metadata of sql.go and the parsers of
    the extended column descriptors (0x3811) and the super extended data format
    (0x3812). *)
From Stdlib Require Import Strings.String.
From stdpp Require Import base list numbers strings gmap.
From S2P Require Import Prelude GoStrings Digits Utf Ccsid Wire Reply Format.
Open Scope Z_scope.

(** ** Columns *)

Record columnMeta := mkColumn {
  colName : bytes;
  colNameCCSID : Z;
  colLabel : bytes;
  colBaseColumnName : bytes;
  colBaseTableName : bytes;
  colBaseSchemaName : bytes;
  colSQLFromTable : bytes;
  colSQLFromSchema : bytes;
  colUDTName : bytes;
  colType_ : Z;
  colLength : Z;
  colScale : Z;
  colPrecision : Z;
  colCCSID : Z;
  colOffset : Z;
  colLobMaxSize : Z;
  colUpdateable : Z;
  colSearchable : Z;
  colIsIdentity : bool;
  colIsAlwaysGenerated : bool;
  colIsPartOfAnyIndex : bool;
  colIsLoneUniqueIndex : bool;
  colIsPartOfUniqueIndex : bool;
  colIsExpression : bool;
  colIsPrimaryKey : bool;
  colIsNamed : bool;
  colIsRowID : bool;
  colIsRowChangeTimestamp : bool;
}.

Definition zeroColumn : columnMeta :=
  mkColumn
    [] 0 [] [] [] [] [] [] [] 0 0 0 0 0 0 0 0 0 false false false false false false false false false false.

Definition db2TypeDate : Z := 384.
Definition db2TypeTime : Z := 388.
Definition db2TypeTimestamp : Z := 392.
Definition db2TypeDatalink : Z := 396.
Definition db2TypeBlob : Z := 404.
Definition db2TypeClob : Z := 408.
Definition db2TypeDbclob : Z := 412.
Definition db2TypeVarchar : Z := 448.
Definition db2TypeChar : Z := 452.
Definition db2TypeLongVarchar : Z := 456.
Definition db2TypeVarGraphic : Z := 464.
Definition db2TypeGraphic : Z := 468.
Definition db2TypeLongVarGraphic : Z := 472.
Definition db2TypeFloatingPoint : Z := 480.
Definition db2TypeDecimal : Z := 484.
Definition db2TypeNumeric : Z := 488.
Definition db2TypeBigint : Z := 492.
Definition db2TypeInteger : Z := 496.
Definition db2TypeSmallint : Z := 500.
Definition db2TypeRowID : Z := 904.
Definition db2TypeVarbinary : Z := 908.
Definition db2TypeBinary : Z := 912.
Definition db2TypeBlobLocator : Z := 960.
Definition db2TypeClobLocator : Z := 964.
Definition db2TypeDbclobLocator : Z := 968.
Definition db2TypeXML : Z := 988.
Definition db2TypeDecfloat : Z := 996.
Definition db2TypeBoolean : Z := 2436.
Definition db2TypeXMLLocator : Z := 2452.

(** A type without its nullable bit; text of CCSID 65535 is binary. *)
Definition db2TypeOf (sqlType ccsid : Z) : Z :=
  let typ := Z.land sqlType 0xFFFE in
  if ccsid =? 65535 then
    if typ =? db2TypeChar then db2TypeBinary
    else if (typ =? db2TypeVarchar) || (typ =? db2TypeLongVarchar) then db2TypeVarbinary
    else typ
  else typ.

Definition db2Type (c : columnMeta) : Z := db2TypeOf (colType_ c) (colCCSID c).

Definition nullable (c : columnMeta) : bool := negb (Z.land (colType_ c) 1 =? 0).

Definition displayName (c : columnMeta) : bytes :=
  let label := trimSpace (colLabel c) in
  let name := trimSpace (colName c) in
  if negb (len label =? 0) then label
  else if negb (len name =? 0) then name
  else trimSpace (colBaseColumnName c).

(** The names of the types, in the order of the switch. *)
Definition typeNames : list (Z * string) :=
  [(db2TypeDate, "DATE"); (db2TypeTime, "TIME"); (db2TypeTimestamp, "TIMESTAMP"); (db2TypeDatalink, "DATALINK");
   (db2TypeBlob, "BLOB"); (db2TypeClob, "CLOB"); (db2TypeDbclob, "DBCLOB"); (db2TypeVarchar, "VARCHAR");
   (db2TypeChar, "CHAR"); (db2TypeLongVarchar, "LONGVARCHAR"); (db2TypeVarGraphic, "VARGRAPHIC");
   (db2TypeGraphic, "GRAPHIC"); (db2TypeLongVarGraphic, "LONGVARGRAPHIC"); (db2TypeDecimal, "DECIMAL");
   (db2TypeNumeric, "NUMERIC"); (db2TypeBigint, "BIGINT"); (db2TypeInteger, "INTEGER");
   (db2TypeSmallint, "SMALLINT"); (db2TypeRowID, "ROWID"); (db2TypeVarbinary, "VARBINARY");
   (db2TypeBinary, "BINARY"); (db2TypeBlobLocator, "BLOB LOCATOR"); (db2TypeClobLocator, "CLOB LOCATOR");
   (db2TypeDbclobLocator, "DBCLOB LOCATOR"); (db2TypeXML, "SQLXML"); (db2TypeXMLLocator, "XML");
   (db2TypeDecfloat, "DECFLOAT"); (db2TypeBoolean, "BOOLEAN")]%string.

Definition databaseTypeName (c : columnMeta) : string :=
  let typ := db2Type c in
  if typ =? db2TypeFloatingPoint then if colLength c =? 4 then "REAL" else "DOUBLE"
  else
    match List.find (fun p => typ =? p.1) typeNames with
    | Some p => p.2
    | None => "UNKNOWN"
    end.

(** ** Result sets *)

Record resultSetMeta := mkMeta {
  columns : list columnMeta;
  metaRowSize : Z;
  metaDateFormat : Z;
  metaTimeFormat : Z;
  metaDateSeparator : Z;
  metaTimeSeparator : Z;
  hasDataFormat : bool;
}.

Definition emptyMeta : resultSetMeta := mkMeta [] 0 0 0 0 0 false.

Definition withColumns (m : resultSetMeta) (cols : list columnMeta) : resultSetMeta :=
  mkMeta cols (metaRowSize m) (metaDateFormat m) (metaTimeFormat m) (metaDateSeparator m)
    (metaTimeSeparator m) (hasDataFormat m).

Definition withRowSize (m : resultSetMeta) (size : Z) : resultSetMeta :=
  mkMeta (columns m) size (metaDateFormat m) (metaTimeFormat m) (metaDateSeparator m)
    (metaTimeSeparator m) (hasDataFormat m).

Definition ensureColumns (m : resultSetMeta) (count : Z) : outcome resultSetMeta :=
  if count <? 0 then Fail (EText "invalid column count" [count])
  else if len (columns m) =? 0 then Ret (withColumns m (replicate (Z.to_nat count) zeroColumn))
  else if negb (len (columns m) =? count) then Fail (EText "column count mismatch" [count; len (columns m)])
  else Ret m.

Definition columnNames (m : resultSetMeta) : list bytes :=
  imap (fun i c =>
    if len (displayName c) =? 0 then lit "COL" ++ formatInt (Z.of_nat i + 1) else displayName c) (columns m).

Definition sumColumnLengths (cols : list columnMeta) : Z :=
  foldl (fun total c => total + colLength c) 0 cols.

(** ** Updates of one column *)

Definition bit (bitmap mask : Z) : bool := negb (Z.land bitmap mask =? 0).

(** The fixed part of an extended column descriptor. *)
Definition withDescriptor (c : columnMeta) (updateable searchable bitmap : Z) : columnMeta :=
  mkColumn
    (colName c) (colNameCCSID c) (colLabel c) (colBaseColumnName c) (colBaseTableName c)
    (colBaseSchemaName c) (colSQLFromTable c) (colSQLFromSchema c) (colUDTName c) (colType_ c)
    (colLength c) (colScale c) (colPrecision c) (colCCSID c) (colOffset c) (colLobMaxSize c) (updateable)
    (searchable) (bit bitmap 0x8000) (negb (bit bitmap 0x4000)) (bit bitmap 0x2000) (bit bitmap 0x1000)
    (bit bitmap 0x0800) (bit bitmap 0x0400) (bit bitmap 0x0200) (negb (bit bitmap 0x0100))
    (bit bitmap 0x0080) (bit bitmap 0x0040).

(** A text of an extended column descriptor. *)
Definition withText (c : columnMeta) (codePoint : Z) (text : bytes) : columnMeta :=
  mkColumn
    (colName c) (colNameCCSID c) (if codePoint =? 0x3902 then text else colLabel c)
    (if codePoint =? 0x3900 then text else colBaseColumnName c)
    (if codePoint =? 0x3901 then text else colBaseTableName c)
    (if codePoint =? 0x3904 then text else colBaseSchemaName c)
    (if codePoint =? 0x3905 then text else colSQLFromTable c)
    (if codePoint =? 0x3906 then text else colSQLFromSchema c) (colUDTName c) (colType_ c) (colLength c)
    (colScale c) (colPrecision c) (colCCSID c) (colOffset c) (colLobMaxSize c) (colUpdateable c)
    (colSearchable c) (colIsIdentity c) (colIsAlwaysGenerated c) (colIsPartOfAnyIndex c)
    (colIsLoneUniqueIndex c) (colIsPartOfUniqueIndex c) (colIsExpression c) (colIsPrimaryKey c)
    (colIsNamed c) (colIsRowID c) (colIsRowChangeTimestamp c).

(** The fixed part of a super extended data format field. *)
Definition withFormat (c : columnMeta) (type length scale precision ccsid lobMaxSize bitmap : Z) : columnMeta :=
  mkColumn
    (colName c) (colNameCCSID c) (colLabel c) (colBaseColumnName c) (colBaseTableName c)
    (colBaseSchemaName c) (colSQLFromTable c) (colSQLFromSchema c) (colUDTName c) (type) (length) (scale)
    (precision) (ccsid) (colOffset c) (lobMaxSize) (colUpdateable c) (colSearchable c) (colIsIdentity c)
    (colIsAlwaysGenerated c) (colIsPartOfAnyIndex c) (colIsLoneUniqueIndex c) (colIsPartOfUniqueIndex c)
    (colIsExpression c) (colIsPrimaryKey c) (bit bitmap 0x80) (colIsRowID c) (colIsRowChangeTimestamp c).

Definition withOffset (c : columnMeta) (offset : Z) : columnMeta :=
  mkColumn
    (colName c) (colNameCCSID c) (colLabel c) (colBaseColumnName c) (colBaseTableName c)
    (colBaseSchemaName c) (colSQLFromTable c) (colSQLFromSchema c) (colUDTName c) (colType_ c)
    (colLength c) (colScale c) (colPrecision c) (colCCSID c) (offset) (colLobMaxSize c) (colUpdateable c)
    (colSearchable c) (colIsIdentity c) (colIsAlwaysGenerated c) (colIsPartOfAnyIndex c)
    (colIsLoneUniqueIndex c) (colIsPartOfUniqueIndex c) (colIsExpression c) (colIsPrimaryKey c)
    (colIsNamed c) (colIsRowID c) (colIsRowChangeTimestamp c).

(** A name of a super extended data format field. *)
Definition withName (c : columnMeta) (codePoint : Z) (name : bytes) (ccsid : Z) : columnMeta :=
  mkColumn
    (if codePoint =? 0x3840 then name else colName c)
    (if codePoint =? 0x3840 then ccsid else colNameCCSID c) (colLabel c) (colBaseColumnName c)
    (colBaseTableName c) (colBaseSchemaName c) (colSQLFromTable c) (colSQLFromSchema c)
    (if codePoint =? 0x3841 then name else colUDTName c) (colType_ c) (colLength c) (colScale c)
    (colPrecision c) (colCCSID c) (colOffset c) (colLobMaxSize c) (colUpdateable c) (colSearchable c)
    (colIsIdentity c) (colIsAlwaysGenerated c) (colIsPartOfAnyIndex c) (colIsLoneUniqueIndex c)
    (colIsPartOfUniqueIndex c) (colIsExpression c) (colIsPrimaryKey c) (colIsNamed c) (colIsRowID c)
    (colIsRowChangeTimestamp c).

Section Parse.
Context `{TableFS}.

(** ** Extended column descriptors *)

(** The table of descriptors: for each column its flags and the place and
    length of its section. *)
Fixpoint readDescriptors (cols : list columnMeta) (r : sliceReader)
    : outcome (list (columnMeta * (Z * Z)) * sliceReader) :=
  match cols with
  | [] => Ret ([], r)
  | c :: cols' =>
      '(updateable, r) ← readU8 r;
      '(searchable, r) ← readU8 r;
      '(bitmap, r) ← readU16 r;
      '(offset, r) ← readU32 r;
      '(length, r) ← readU32 r;
      r ← skip 4 r;
      if offset <? 6 then Fail (EText "invalid extended column descriptor offset" [offset])
      else
        '(more, r) ← readDescriptors cols' r;
        Ret ((withDescriptor c updateable searchable bitmap, (offset - 6, length)) :: more, r)
  end.

(** One section of texts.  Every iteration reads at least six bytes, so the
    length of the data is enough fuel. *)
Fixpoint readSection (fuel : nat) (c : columnMeta) (sectionLength sectionStart : Z) (r : sliceReader)
    : outcome (columnMeta * sliceReader) :=
  if rpos r - sectionStart <? sectionLength then
    match fuel with
    | O => Panic
    | S fuel' =>
        if sectionLength - (rpos r - sectionStart) <? 6 then
          r ← skip (sectionLength - (rpos r - sectionStart)) r;
          Ret (c, r)
        else
          '(descriptorLength, r) ← readU32 r;
          '(codePoint, r) ← readU16 r;
          let payloadLength := descriptorLength - 6 in
          '((ccsid, payloadLength), r) ←
            (if codePoint =? 0x3902 then
               '(ccsidValue, r) ← readU16 r;
               Ret ((if ccsidValue =? 65535 then 37 else ccsidValue, payloadLength - 2), r)
             else Ret ((37, payloadLength), r));
          '(textBytes, r) ← readBytes payloadLength r;
          text ← decodeTextByCCSID textBytes ccsid;
          readSection fuel' (withText c codePoint text) sectionLength sectionStart r
    end
  else Ret (c, r).

Fixpoint readSections (fuel : nat) (cols : list (columnMeta * (Z * Z))) (r : sliceReader)
    : outcome (list columnMeta * sliceReader) :=
  match cols with
  | [] => Ret ([], r)
  | (c, (offset, sectionLength)) :: cols' =>
      r ← (if rpos r <? offset then skip (offset - rpos r) r else Ret r);
      '(c, r) ← readSection fuel c sectionLength (rpos r) r;
      '(more, r) ← readSections fuel cols' r;
      Ret (c :: more, r)
  end.

Definition parseExtendedColumnDescriptors (payload : bytes) (meta : resultSetMeta) : outcome resultSetMeta :=
  let r := newSliceReader payload in
  '(numColumns, r) ← readU32 r;
  meta ← ensureColumns meta numColumns;
  r ← skip 6 r;
  '(described, r) ← readDescriptors (columns meta) r;
  '(cols, r) ← readSections (length payload) described r;
  Ret (withColumns meta cols).

(** ** Super extended data format *)

(** The fixed fields of each column and the length of its variable part. *)
Fixpoint readFormats (cols : list columnMeta) (r : sliceReader)
    : outcome (list (columnMeta * Z) * sliceReader) :=
  match cols with
  | [] => Ret ([], r)
  | c :: cols' =>
      '(_, r) ← readU16 r;
      '(fieldType, r) ← readU16 r;
      '(fieldLength, r) ← readU32 r;
      '(fieldScale, r) ← readU16 r;
      '(fieldPrecision, r) ← readU16 r;
      '(fieldCCSID, r) ← readU16 r;
      '(_, r) ← readU8 r;
      '(_, r) ← readU16 r;
      '(_, r) ← readU32 r;
      '(attributeBitmap, r) ← readU8 r;
      '(_, r) ← readU32 r;
      '(lobMaxSize, r) ← readU32 r;
      '(_, r) ← readU16 r;
      '(_, r) ← readU32 r;
      '(lengthOfVariableInformation, r) ← readU32 r;
      '(_, r) ← readU32 r;
      '(_, r) ← readU32 r;
      '(more, r) ← readFormats cols' r;
      Ret ((withFormat c fieldType fieldLength fieldScale fieldPrecision fieldCCSID lobMaxSize attributeBitmap,
            lengthOfVariableInformation) :: more, r)
  end.

(** The offsets of the columns in a row. *)
Fixpoint placeColumns (offset : Z) (cols : list columnMeta) : list columnMeta * Z :=
  match cols with
  | [] => ([], offset)
  | c :: cols' =>
      let '(more, total) := placeColumns (offset + colLength c) cols' in
      (withOffset c offset :: more, total)
  end.

(** The names of one column. *)
Fixpoint readNames (fuel : nat) (c : columnMeta) (remaining : Z) (r : sliceReader)
    : outcome (columnMeta * sliceReader) :=
  if 0 <? remaining then
    match fuel with
    | O => Panic
    | S fuel' =>
        if remaining <? 8 then
          r ← skip remaining r;
          Ret (c, r)
        else
          '(fieldLL, r) ← readU32 r;
          '(fieldCP, r) ← readU16 r;
          '(fieldCCSID, r) ← readU16 r;
          let nameLength := fieldLL - 8 in
          if nameLength <? 0 then Fail (EText "invalid variable field length" [fieldLL])
          else
            '(nameBytes, r) ← readBytes nameLength r;
            name ← decodeTextByCCSID nameBytes fieldCCSID;
            readNames fuel' (withName c fieldCP name fieldCCSID) (remaining - fieldLL) r
    end
  else Ret (c, r).

Fixpoint readAllNames (fuel : nat) (cols : list (columnMeta * Z)) (r : sliceReader)
    : outcome (list columnMeta * sliceReader) :=
  match cols with
  | [] => Ret ([], r)
  | (c, variableLength) :: cols' =>
      '(c, r) ← readNames fuel c variableLength r;
      '(more, r) ← readAllNames fuel cols' r;
      Ret (c :: more, r)
  end.

Definition parseSuperExtendedDataFormat (payload : bytes) (meta : resultSetMeta) : outcome resultSetMeta :=
  let r := newSliceReader payload in
  '(_, r) ← readU32 r;
  '(numFields, r) ← readU32 r;
  '(dateFormat, r) ← readU8 r;
  '(timeFormat, r) ← readU8 r;
  '(dateSeparator, r) ← readU8 r;
  '(timeSeparator, r) ← readU8 r;
  '(recordSize, r) ← readU32 r;
  let meta := mkMeta (columns meta) recordSize dateFormat timeFormat dateSeparator timeSeparator true in
  meta ← ensureColumns meta numFields;
  '(formats, r) ← readFormats (columns meta) r;
  let '(placed, offset) := placeColumns 0 (formats.*1) in
  let meta := if metaRowSize meta =? 0 then withRowSize meta offset else meta in
  '(cols, r) ← readAllNames (length payload) (zip placed (formats.*2)) r;
  Ret (withColumns meta cols).

Definition parseDescribeBody (meta : resultSetMeta) (codePoint : Z) (cpPayload : bytes)
    : outcome (resultSetMeta + resultSetMeta) :=
  if codePoint =? CodePointExtendedColumnDescriptors then inl <$> parseExtendedColumnDescriptors cpPayload meta
  else if codePoint =? CodePointSuperExtendedDataFormat then inl <$> parseSuperExtendedDataFormat cpPayload meta
  else Ret (inl meta).

Definition parseDescribePayload (payload : bytes) : outcome resultSetMeta :=
  r ← forLLCP (fun e => Fail e) parseDescribeBody (length payload) emptyMeta payload;
  let meta := match r with inl meta => meta | inr meta => meta end in
  Ret (if (metaRowSize meta =? 0) && (0 <? len (columns meta))
       then withRowSize meta (sumColumnLengths (columns meta)) else meta).
End Parse.

(** * Lemmas *)

(** ** Progress and safety *)

Lemma safe_skip n r : reader_ok r -> no_panic (skip n r) /\ forall r', skip n r = Ret r' -> forward r r'.
Proof.
  intros Hr. unfold skip. destruct (readBytes_safe n r Hr) as [Hn Hf]. split.
  - apply bind_no_panic; [done|]. by intros [].
  - intros r' ([b q] & E & [= <-])%bind_Ret. by eapply Hf.
Qed.

(** A step through [skip]. *)
Lemma safe_bind_skip {B} n r (f : sliceReader -> outcome (B * sliceReader)) :
  reader_ok r -> (forall r', forward r r' -> safe r' (f r')) -> safe r (skip n r ≫= f).
Proof.
  intros Hr Hk. destruct (safe_skip n r Hr) as [Hn Hf]. split.
  - apply bind_no_panic; [done|]. intros r' E. by apply Hk, Hf.
  - intros b r'' (r' & E & E')%bind_Ret. pose proof (Hf _ E) as Hr'.
    eapply forward_trans; [done|]. by eapply Hk.
Qed.

(** A pure step, such as decoding text. *)
Lemma safe_bind_pure {A B} r (m : outcome A) (f : A -> outcome (B * sliceReader)) :
  no_panic m -> (forall a, m = Ret a -> safe r (f a)) -> safe r (m ≫= f).
Proof.
  intros Hm Hk. split.
  - apply bind_no_panic; [done|]. intros a E. by apply Hk.
  - intros b r' (a & E & E')%bind_Ret. by eapply Hk.
Qed.

(** A four-byte read, with its progress. *)
Lemma safe_bind_u32 {B} r (f : Z * sliceReader -> outcome (B * sliceReader)) :
  reader_ok r -> (forall a r', forward r r' -> remaining r' = remaining r - 4 -> safe r' (f (a, r'))) ->
  safe r (readU32 r ≫= f).
Proof.
  intros Hr Hk. destruct (readU32_safe r Hr) as [Hn Hf].
  assert (forall a q, readU32 r = Ret (a, q) -> remaining q = remaining r - 4) as Hp.
  { intros a q. unfold readU32. destruct (_ <? _); [done|]. intros (? & _ & [= <- <-])%bind_Ret.
    unfold remaining. cbn. lia. }
  split.
  - apply bind_no_panic; [done|]. intros [a q] E. apply Hk; eauto.
  - intros b r'' ([a q] & E & E')%bind_Ret. pose proof (Hf _ _ E).
    eapply forward_trans; [done|]. eapply Hk; eauto.
Qed.

(** Reading one item and then the rest, as every loop of the parsers does. *)
Lemma safe_cons {A B} r (m : outcome (A * sliceReader)) (g : A -> B) :
  safe r m -> safe r ('(a, r) ← m; Ret (g a, r)).
Proof.
  intros [Hm Hf]. split.
  - apply bind_no_panic; [done|]. by intros [].
  - intros b r' ([a q] & E & [= <- <-])%bind_Ret. by eapply Hf.
Qed.

Lemma forward_remaining r r' : forward r r' -> remaining r' <= remaining r.
Proof. unfold remaining. intros [-> ?]. lia. Qed.

(** What is left of the data after all the steps. *)
Ltac fwd_lia :=
  repeat match goal with H : forward _ _ |- _ => apply forward_remaining in H end; lia.

Section Safety.
Context `{TableFS} (Htab : forall codepage, no_panic (Lookup codepage)).

Lemma readDescriptors_safe cols r : reader_ok r -> safe r (readDescriptors cols r).
Proof.
  revert r. induction cols as [|c cols IH]; intros r Hr; [by apply safe_Ret|]. cbn [readDescriptors].
  repeat sf. apply safe_bind_skip; [done|]. intros q Hq. repeat sf.
  destruct (_ <? 6); [apply safe_Fail|]. apply safe_cons. by apply IH.
Qed.

(** Every iteration reads at least six bytes, so the fuel never runs out. *)
Lemma readSection_safe fuel c n start r :
  reader_ok r -> remaining r < Z.of_nat fuel -> safe r (readSection fuel c n start r).
Proof.
  revert c r. induction fuel as [|fuel IH]; intros c r Hr Hf; cbn [readSection].
  { unfold reader_ok, remaining in *. lia. }
  destruct (_ <? n); [|by apply safe_Ret].
  destruct (_ <? 6).
  { apply safe_bind_skip; [done|]. intros q Hq. apply safe_Ret. by eapply forward_ok. }
  apply safe_bind_u32; [done|]. intros dl q Hq Hpos. repeat sf.
  apply (safe_bind' r' (if a =? 0x3902 then _ else _)).
  { destruct (a =? 0x3902); [|by apply safe_Ret]. sf. apply safe_Ret. by eapply forward_ok. }
  intros [ccsid pl] q2 Hq2. repeat sf.
  apply safe_bind_pure; [apply decodeTextByCCSID_no_panic, Htab|]. intros text _.
  apply IH; [done|fwd_lia].
Qed.

Lemma readSections_safe fuel cols r :
  reader_ok r -> remaining r < Z.of_nat fuel -> safe r (readSections fuel cols r).
Proof.
  revert r. induction cols as [|[c [offset n]] cols IH]; intros r Hr Hf; [by apply safe_Ret|]. cbn [readSections].
  assert (forall q, forward r q -> safe q
    ('(c, r) ← readSection fuel c n (rpos q) q; '(more, r) ← readSections fuel cols r; Ret (c :: more, r))) as Hgo.
  { intros q Hq. sf.
    eapply safe_bind'; [apply readSection_safe; [done|fwd_lia]|]. intros c' q2 Hq2. sf.
    apply safe_cons. apply IH; [done|fwd_lia]. }
  destruct (rpos r <? offset).
  - apply safe_bind_skip; [done|]. intros q Hq. by apply Hgo.
  - cbn [mbind outcome_bind]. by apply Hgo, forward_refl.
Qed.

Lemma readFormats_safe cols r : reader_ok r -> safe r (readFormats cols r).
Proof.
  revert r. induction cols as [|c cols IH]; intros r Hr; [by apply safe_Ret|]. cbn [readFormats].
  repeat sf. by apply safe_Ret.
Qed.

(** Every iteration reads at least eight bytes. *)
Lemma readNames_safe fuel c n r :
  reader_ok r -> remaining r < Z.of_nat fuel -> safe r (readNames fuel c n r).
Proof.
  revert c n r. induction fuel as [|fuel IH]; intros c n r Hr Hf; cbn [readNames].
  { unfold reader_ok, remaining in *. lia. }
  destruct (0 <? n); [|by apply safe_Ret].
  destruct (_ <? 8).
  { apply safe_bind_skip; [done|]. intros q Hq. apply safe_Ret. by eapply forward_ok. }
  apply safe_bind_u32; [done|]. intros ll q Hq Hpos. repeat sf.
  destruct (_ <? 0); [apply safe_Fail|]. repeat sf.
  apply safe_bind_pure; [apply decodeTextByCCSID_no_panic, Htab|]. intros text _. apply IH; [done|fwd_lia].
Qed.

Lemma readAllNames_safe fuel cols r :
  reader_ok r -> remaining r < Z.of_nat fuel -> safe r (readAllNames fuel cols r).
Proof.
  revert r. induction cols as [|[c n] cols IH]; intros r Hr Hf; [by apply safe_Ret|]. cbn [readAllNames].
  eapply safe_bind'; [by apply readNames_safe|]. intros c' q Hq. sf.
  apply safe_cons. apply IH; [done|fwd_lia].
Qed.

Lemma ensureColumns_no_panic m n : no_panic (ensureColumns m n).
Proof. unfold ensureColumns. by repeat case_match. Qed.

(** The same two steps in front of a result that is not a read. *)
Lemma bind_u32_no_panic {B} r (f : Z * sliceReader -> outcome B) :
  reader_ok r -> (forall a r', forward r r' -> remaining r' = remaining r - 4 -> no_panic (f (a, r'))) ->
  no_panic (readU32 r ≫= f).
Proof.
  intros Hr Hk. apply bind_no_panic; [by apply readU32_safe|]. intros [a q] E. apply Hk.
  - by eapply (readU32_safe r Hr).
  - revert E. unfold readU32. destruct (_ <? _); [done|]. intros (? & _ & [= <- <-])%bind_Ret.
    unfold remaining. cbn. lia.
Qed.

Lemma bind_skip_no_panic {B} n r (f : sliceReader -> outcome B) :
  reader_ok r -> (forall r', forward r r' -> no_panic (f r')) -> no_panic (skip n r ≫= f).
Proof.
  intros Hr Hk. destruct (safe_skip n r Hr) as [Hn Hf]. apply bind_no_panic; [done|].
  intros q E. by apply Hk, Hf.
Qed.

Lemma remaining_new payload : remaining (newSliceReader payload) = Z.of_nat (length payload).
Proof. unfold remaining, newSliceReader, len. cbn. lia. Qed.

Lemma parseExtended_no_panic payload m : no_panic (parseExtendedColumnDescriptors payload m).
Proof.
  unfold parseExtendedColumnDescriptors. cbv zeta.
  apply bind_u32_no_panic; [apply newSliceReader_ok|]. intros n q Hq Hpos.
  pose proof (newSliceReader_ok payload). sf.
  apply bind_no_panic; [apply ensureColumns_no_panic|]. intros m' _.
  apply bind_skip_no_panic; [done|]. intros q2 Hq2. sf.
  eapply safe_bind; [by apply readDescriptors_safe|]. intros ds q3 Hq3. sf.
  eapply safe_bind; [apply readSections_safe; [done|]|done].
  rewrite remaining_new in Hpos. fwd_lia.
Qed.

Lemma parseSuper_no_panic payload m : no_panic (parseSuperExtendedDataFormat payload m).
Proof.
  unfold parseSuperExtendedDataFormat. cbv zeta.
  apply bind_u32_no_panic; [apply newSliceReader_ok|]. intros t q Hq Hpos.
  pose proof (newSliceReader_ok payload). repeat sf.
  apply bind_no_panic; [apply ensureColumns_no_panic|]. intros m' _.
  eapply safe_bind; [by apply readFormats_safe|]. intros fs q3 Hq3. sf.
  destruct (placeColumns 0 fs.*1) as [placed total].
  eapply safe_bind; [apply readAllNames_safe; [done|]|done].
  rewrite remaining_new in Hpos. fwd_lia.
Qed.
End Safety.

(** ** Layout *)

Lemma placeColumns_total cols offset : (placeColumns offset cols).2 = offset + sumColumnLengths cols.
Proof.
  unfold sumColumnLengths. enough (forall acc off, (placeColumns (acc + off) cols).2 =
    foldl (fun total c => total + colLength c) acc cols + off) as Hgo.
  { specialize (Hgo 0 offset). rewrite Z.add_0_l in Hgo. lia. }
  induction cols as [|c cols IH]; intros acc off; [done|]. cbn [placeColumns foldl].
  replace (acc + off + colLength c) with (acc + colLength c + off) by lia. specialize (IH (acc + colLength c) off).
  destruct (placeColumns _ cols). cbn in *. lia.
Qed.

Lemma sumColumnLengths_cons c cols : sumColumnLengths (c :: cols) = colLength c + sumColumnLengths cols.
Proof.
  pose proof (placeColumns_total (c :: cols) 0) as E. cbn [placeColumns] in E.
  pose proof (placeColumns_total cols (0 + colLength c)) as E'. destruct (placeColumns _ cols). cbn in *. lia.
Qed.

Lemma placeColumns_lookup cols offset i c :
  (placeColumns offset cols).1 !! i = Some c ->
  colOffset c = offset + sumColumnLengths (take i cols) /\
  exists c0, cols !! i = Some c0 /\ c = withOffset c0 (colOffset c).
Proof.
  revert offset i. induction cols as [|c1 cols IH]; intros offset i E; [done|]. cbn [placeColumns] in E.
  specialize (IH (offset + colLength c1)). destruct (placeColumns _ cols) as [more total]. cbn [fst] in *.
  destruct i as [|i]; cbn in E.
  - injection E as <-. split; [cbn; lia|]. by exists c1.
  - destruct (IH i E) as (-> & c0 & E0 & Ec). cbn [take]. rewrite sumColumnLengths_cons. split; [lia|].
    by exists c0.
Qed.

(** What the parsers of names and texts leave alone. *)
Definition placed (c c' : columnMeta) : Prop := colOffset c' = colOffset c /\ colLength c' = colLength c.

Lemma placed_trans c c' c'' : placed c c' -> placed c' c'' -> placed c c''.
Proof. unfold placed. intros [-> ->] [-> ->]. done. Qed.

(** Every column starts where the columns before it end. *)
Definition layout_ok (cols : list columnMeta) : Prop :=
  forall i c, cols !! i = Some c -> colOffset c = sumColumnLengths (take i cols).

Definition same_length (c c' : columnMeta) : Prop := colLength c' = colLength c.

Lemma sumColumnLengths_same cols cols' :
  Forall2 same_length cols cols' -> sumColumnLengths cols' = sumColumnLengths cols.
Proof. induction 1 as [|c c' cs cs' E]; [done|]. unfold same_length in E. rewrite !sumColumnLengths_cons. lia. Qed.

Lemma placed_same cols cols' : Forall2 placed cols cols' -> Forall2 same_length cols cols'.
Proof. intros Hp. eapply Forall2_impl; [done|]. by intros ? ? []. Qed.

Lemma sumColumnLengths_same_placed cols cols' :
  Forall2 placed cols cols' -> sumColumnLengths cols' = sumColumnLengths cols.
Proof. intros. by apply sumColumnLengths_same, placed_same. Qed.

Lemma layout_ok_placed cols cols' : Forall2 placed cols cols' -> layout_ok cols -> layout_ok cols'.
Proof.
  intros Hp Hl i c' E'. destruct (Forall2_lookup_r _ _ _ _ _ Hp E') as (c & E & [-> _]).
  rewrite (Hl _ _ E). symmetry. by apply sumColumnLengths_same_placed, Forall2_take.
Qed.

Lemma placeColumns_lengths cols offset : Forall2 same_length cols (placeColumns offset cols).1.
Proof.
  revert offset. induction cols as [|c cols IH]; intros offset; [constructor|]. cbn [placeColumns].
  specialize (IH (offset + colLength c)). destruct (placeColumns _ cols). by constructor.
Qed.

Lemma layout_ok_placeColumns cols : layout_ok (placeColumns 0 cols).1.
Proof.
  intros i c E. destruct (placeColumns_lookup _ _ _ _ E) as [-> _].
  symmetry. apply sumColumnLengths_same, Forall2_take, placeColumns_lengths.
Qed.

(** An invariant of the loop over a reply's parameters. *)
Lemma forLLCP_invariant {S R} (P : S -> Prop) (Q : R -> Prop) onErr
    (body : S -> Z -> bytes -> outcome (S + R)) fuel s data r :
  (forall e, onErr e <> Ret r) ->
  (forall s cp p x, P s -> body s cp p = Ret x -> match x with inl s' => P s' | inr a => Q a end) ->
  P s -> forLLCP onErr body fuel s data = Ret r -> match r with inl s' => P s' | inr a => Q a end.
Proof.
  intros He Hb. revert s data. induction fuel as [|fuel IH]; intros s data Hs E; destruct data as [|b data];
    cbn [forLLCP] in E; try discriminate; try (apply Ret_inj in E as <-; done).
  destruct (ParseLLCP _) as [[[cp p] rest]|e|]; [|by apply He in E|done].
  apply bind_Ret in E as (x & Ex & E). pose proof (Hb _ _ _ _ Hs Ex). destruct x as [s'|a]; [by eapply IH|].
  by apply Ret_inj in E as <-.
Qed.

Section Layout.
Context `{TableFS}.

Lemma readDescriptors_placed cols r out r' :
  readDescriptors cols r = Ret (out, r') -> Forall2 placed cols (out.*1).
Proof.
  revert r out r'. induction cols as [|c cols IH]; intros r out r' E; [by apply Ret_inj in E; simplify_eq|].
  cbn [readDescriptors] in E.
  repeat (apply bind_Ret in E as ([] & _ & E)). repeat case_match; try discriminate.
  apply bind_Ret in E as ([more q] & E' & E%Ret_inj). simplify_eq. constructor; [done|]. by eapply IH.
Qed.

Lemma readSection_placed fuel c n start r c' r' : readSection fuel c n start r = Ret (c', r') -> placed c c'.
Proof.
  revert c r. induction fuel as [|fuel IH]; intros c r E; cbn [readSection] in E;
    (destruct (_ <? n); [|apply Ret_inj in E; by simplify_eq]); [done|].
  destruct (_ <? 6); [apply bind_Ret in E as (q & _ & E%Ret_inj); by simplify_eq|].
  apply bind_Ret in E as ([] & _ & E). apply bind_Ret in E as ([] & _ & E).
  apply bind_Ret in E as ([[] ?] & _ & E). apply bind_Ret in E as ([] & _ & E).
  apply bind_Ret in E as (text & _ & E). eapply placed_trans; [|by eapply IH]. done.
Qed.

Lemma readSections_placed fuel cols r cols' r' :
  readSections fuel cols r = Ret (cols', r') -> Forall2 placed (cols.*1) cols'.
Proof.
  revert r cols' r'. induction cols as [|[c [off n]] cols IH]; intros r cols' r' E; [by apply Ret_inj in E; simplify_eq|].
  cbn [readSections] in E. apply bind_Ret in E as (q & _ & E). apply bind_Ret in E as ([c' q'] & Ec & E).
  apply bind_Ret in E as ([more q2] & Em & E%Ret_inj). simplify_eq.
  constructor; [by eapply readSection_placed|by eapply IH].
Qed.

Lemma readNames_placed fuel c n r c' r' : readNames fuel c n r = Ret (c', r') -> placed c c'.
Proof.
  revert c n r. induction fuel as [|fuel IH]; intros c n r E; cbn [readNames] in E;
    (destruct (0 <? n); [|apply Ret_inj in E; by simplify_eq]); [done|].
  destruct (_ <? 8); [apply bind_Ret in E as (q & _ & E%Ret_inj); by simplify_eq|].
  do 3 apply bind_Ret in E as ([] & _ & E). destruct (_ <? 0); [done|].
  apply bind_Ret in E as ([] & _ & E). apply bind_Ret in E as (name & _ & E).
  eapply placed_trans; [|by eapply IH]. done.
Qed.

Lemma readAllNames_placed fuel cols r cols' r' :
  readAllNames fuel cols r = Ret (cols', r') -> Forall2 placed (cols.*1) cols'.
Proof.
  revert r cols' r'. induction cols as [|[c n] cols IH]; intros r cols' r' E; [by apply Ret_inj in E; simplify_eq|].
  cbn [readAllNames] in E. apply bind_Ret in E as ([c' q'] & Ec & E).
  apply bind_Ret in E as ([more q2] & Em & E%Ret_inj). simplify_eq.
  constructor; [by eapply readNames_placed|by eapply IH].
Qed.

Lemma readFormats_length cols r fs r' : readFormats cols r = Ret (fs, r') -> length fs = length cols.
Proof.
  revert r fs r'. induction cols as [|c cols IH]; intros r fs r' E; [by apply Ret_inj in E; simplify_eq|].
  cbn [readFormats] in E. do 17 apply bind_Ret in E as ([] & _ & E).
  apply bind_Ret in E as ([more q] & Em & E%Ret_inj). simplify_eq. cbn. f_equal. by eapply IH.
Qed.

Lemma placeColumns_length cols offset : length (placeColumns offset cols).1 = length cols.
Proof.
  revert offset. induction cols as [|c cols IH]; intros offset; [done|]. cbn [placeColumns].
  specialize (IH (offset + colLength c)). destruct (placeColumns _ cols). cbn in *. by f_equal.
Qed.

Lemma ensureColumns_layout m n m' : ensureColumns m n = Ret m' -> layout_ok (columns m) -> layout_ok (columns m').
Proof.
  unfold ensureColumns. intros E Hl. repeat case_match; try discriminate; apply Ret_inj in E as <-; [|done].
  intros i c (-> & Hi)%lookup_replicate. cbn [columns withColumns]. rewrite take_replicate.
  generalize (i `min` Z.to_nat n)%nat. intros k. induction k as [|k IH]; [done|].
  cbn [replicate]. rewrite sumColumnLengths_cons, <-IH. done.
Qed.

Lemma parseExtended_layout payload m m' :
  parseExtendedColumnDescriptors payload m = Ret m' -> layout_ok (columns m) -> layout_ok (columns m').
Proof.
  unfold parseExtendedColumnDescriptors. cbv zeta. intros E Hl. apply bind_Ret in E as ([n q] & _ & E).
  apply bind_Ret in E as (m1 & E1 & E). apply (ensureColumns_layout _ _ _ E1) in Hl.
  apply bind_Ret in E as (q1 & _ & E). apply bind_Ret in E as ([ds q2] & Ed & E).
  apply bind_Ret in E as ([cols q3] & Es & E%Ret_inj). subst m'. cbn [columns withColumns].
  apply readDescriptors_placed in Ed. apply readSections_placed in Es.
  by eapply layout_ok_placed, layout_ok_placed.
Qed.

Lemma parseSuper_layout payload m m' : parseSuperExtendedDataFormat payload m = Ret m' -> layout_ok (columns m').
Proof.
  unfold parseSuperExtendedDataFormat. cbv zeta. intros E.
  do 7 apply bind_Ret in E as ([] & _ & E). apply bind_Ret in E as (m1 & E1 & E).
  apply bind_Ret in E as ([fs q] & Ef & E). destruct (placeColumns 0 fs.*1) as [pl total] eqn:Ep.
  apply bind_Ret in E as ([cols q'] & En & E%Ret_inj). subst m'. cbn [columns withColumns].
  apply readAllNames_placed in En.
  rewrite fst_zip in En.
  2:{ apply (f_equal (fun x => length x.1)) in Ep. rewrite placeColumns_length in Ep. cbn [fst] in Ep.
      rewrite length_fmap in Ep. rewrite length_fmap. lia. }
  pose proof (layout_ok_placeColumns fs.*1) as Hl. rewrite Ep in Hl. by eapply layout_ok_placed.
Qed.

Lemma parseDescribeBody_layout m cp p x :
  layout_ok (columns m) -> parseDescribeBody m cp p = Ret x ->
  match x with inl m' | inr m' => layout_ok (columns m') end.
Proof.
  unfold parseDescribeBody. intros Hl E. destruct (_ =? CodePointExtendedColumnDescriptors).
  { apply fmap_Ret in E as (m' & E & <-). by eapply parseExtended_layout. }
  destruct (_ =? CodePointSuperExtendedDataFormat).
  { apply fmap_Ret in E as (m' & E & <-). by eapply parseSuper_layout. }
  by apply Ret_inj in E as <-.
Qed.
End Layout.

(** * Properties *)

(** Parsing the description of a result set never panics, whatever the
    server sends: truncated tables, sections and names end in an error, and the
    loops over sections and names stop because every round reads at least six
    bytes of the payload. *)
Theorem describe_no_panic `{TableFS} (payload : bytes) :
  tables_ok -> no_panic (parseDescribePayload payload).
Proof.
  intros Ht. assert (forall cp, no_panic (Lookup cp)) as Ht' by apply Ht.
  unfold parseDescribePayload. apply bind_no_panic; [|intros [] ?; done].
  apply forLLCP_no_panic; [done| |done]. intros m cp p. unfold parseDescribeBody.
  repeat case_match; try done; apply fmap_no_panic; [by apply parseExtended_no_panic|by apply parseSuper_no_panic].
Qed.

Lemma describe_no_panic_witness :
  no_panic (@parseDescribePayload (fun _ => NoFile) (AppendLLCP [] CodePointExtendedColumnDescriptors (be32 3))).
Proof.
  apply (@describe_no_panic (fun _ => NoFile)). intros id.
  unfold Lookup, LookupCached. cbn [lookupLocked lookupFuel]. rewrite lookup_empty. unfold tableFS. by destruct (unicodeCodec id).
Defined.

(** In every description the driver accepts, each column starts in the row
    exactly where the columns before it end, so columns never overlap, and a
    row size of zero is only left when the columns take no room. *)
Theorem column_layout `{TableFS} (payload : bytes) (meta : resultSetMeta) :
  parseDescribePayload payload = Ret meta ->
  layout_ok (columns meta) /\ (metaRowSize meta = 0 -> sumColumnLengths (columns meta) = 0).
Proof.
  unfold parseDescribePayload. intros (r & E & Em%Ret_inj)%bind_Ret.
  set (m := match r with inl m => m | inr m => m end) in *.
  assert (layout_ok (columns m)) as Hl.
  { apply (forLLCP_invariant (fun m => layout_ok (columns m)) (fun m => layout_ok (columns m))) in E.
    - by destruct r.
    - done.
    - intros s cp p x Hs Ex. by eapply parseDescribeBody_layout.
    - by intros i c [=]. }
  subst meta. destruct (Z.eqb_spec (metaRowSize m) 0) as [E0|E0]; cbn [andb].
  - destruct (Z.ltb_spec 0 (len (columns m))) as [Hn|Hn]; cbn [columns metaRowSize withRowSize]; split; try done.
    destruct (columns m) as [|c cs]; [done|]. rewrite len_cons in Hn. len_lia.
  - done.
Qed.

(** ** What a server sends for a set of columns *)

Record serverName := mkServerName { nameCodePoint : Z; nameCCSID : Z; nameData : bytes; nameText : bytes }.

Record serverColumn := mkServerColumn {
  serverType : Z;
  serverLength : Z;
  serverScale : Z;
  serverPrecision : Z;
  serverCCSID : Z;
  serverAttributes : Z;
  serverLobMax : Z;
  serverNames : list serverName;
}.

Definition nameField (n : serverName) : bytes :=
  be32 (8 + len (nameData n)) ++ be16 (nameCodePoint n) ++ be16 (nameCCSID n) ++ nameData n.

Definition variablePart (sc : serverColumn) : bytes := concat (nameField <$> serverNames sc).

Definition fixedPart (sc : serverColumn) : bytes :=
  be16 48 ++ be16 (serverType sc) ++ be32 (serverLength sc) ++ be16 (serverScale sc) ++
  be16 (serverPrecision sc) ++ be16 (serverCCSID sc) ++ be 1 0 ++ be16 0 ++ be32 0 ++
  be 1 (serverAttributes sc) ++ be32 0 ++ be32 (serverLobMax sc) ++ be16 0 ++ be32 0 ++
  be32 (len (variablePart sc)) ++ be32 0 ++ be32 0.

Definition serverFormat (token dateFormat timeFormat dateSeparator timeSeparator recordSize : Z)
    (cols : list serverColumn) : bytes :=
  be32 token ++ be32 (len cols) ++ be 1 dateFormat ++ be 1 timeFormat ++ be 1 dateSeparator ++
  be 1 timeSeparator ++ be32 recordSize ++ concat (fixedPart <$> cols) ++ concat (variablePart <$> cols).

(** The column the driver should make of it, at an offset in the row. *)
Definition describedFixed (sc : serverColumn) : columnMeta :=
  withFormat zeroColumn (serverType sc) (serverLength sc) (serverScale sc) (serverPrecision sc)
    (serverCCSID sc) (serverLobMax sc) (serverAttributes sc).
Definition nameColumn (c : columnMeta) (n : serverName) : columnMeta :=
  withName c (nameCodePoint n) (nameText n) (nameCCSID n).
Definition describedColumn (sc : serverColumn) (offset : Z) : columnMeta :=
  foldl nameColumn (withOffset (describedFixed sc) offset) (serverNames sc).

Fixpoint describedColumns (offset : Z) (cols : list serverColumn) : list columnMeta :=
  match cols with
  | [] => []
  | sc :: cols' => describedColumn sc offset :: describedColumns (offset + serverLength sc) cols'
  end.

Definition rowLength (cols : list serverColumn) : Z := foldr (fun sc n => serverLength sc + n) 0 cols.

Definition serverName_ok `{TableFS} (n : serverName) : Prop :=
  0 <= nameCodePoint n < 2 ^ 16 /\ 0 <= nameCCSID n < 2 ^ 16 /\ 8 + len (nameData n) < 2 ^ 32 /\
  decodeTextByCCSID (nameData n) (nameCCSID n) = Ret (nameText n).

Definition serverColumn_ok `{TableFS} (sc : serverColumn) : Prop :=
  0 <= serverType sc < 2 ^ 16 /\ 0 <= serverLength sc < 2 ^ 32 /\ 0 <= serverScale sc < 2 ^ 16 /\
  0 <= serverPrecision sc < 2 ^ 16 /\ 0 <= serverCCSID sc < 2 ^ 16 /\ 0 <= serverAttributes sc < 2 ^ 8 /\
  0 <= serverLobMax sc < 2 ^ 32 /\ len (variablePart sc) < 2 ^ 32 /\ Forall serverName_ok (serverNames sc).

Section Roundtrip.
Context `{TableFS}.

Lemma len_nameField n : len (nameField n) = 8 + len (nameData n).
Proof. unfold nameField. len_lia. Qed.

Lemma readFormats_at cols bs r :
  Forall serverColumn_ok cols -> at_rest r (concat (fixedPart <$> cols) ++ bs) ->
  exists r', readFormats (replicate (length cols) zeroColumn) r =
    Ret ((fun sc => (describedFixed sc, len (variablePart sc))) <$> cols, r') /\ at_rest r' bs.
Proof.
  intros Hok. revert r. induction Hok as [|sc cols Hsc Hok IH]; intros r Hr; [by exists r|].
  destruct Hsc as (? & ? & ? & ? & ? & ? & ? & ? & _). pose proof (len_nonneg (variablePart sc)).
  cbn [length replicate readFormats]. rewrite fmap_cons in Hr. cbn [concat] in Hr.
  unfold fixedPart at 1 in Hr. rewrite <-!app_assoc in Hr.
  do 17 rd. match goal with Hq : at_rest ?q (concat _ ++ bs) |- _ => destruct (IH q Hq) as (r' & -> & Hr') end.
  cbn [mbind outcome_bind]. exists r'. split; [|done]. rewrite fmap_cons. do 3 f_equal.
  unfold describedFixed. by rewrite !Z.mod_small by lia.
Qed.

Lemma readNames_at names c bs r fuel :
  Forall serverName_ok names -> at_rest r (concat (nameField <$> names) ++ bs) ->
  (length (concat (nameField <$> names)) <= fuel)%nat ->
  exists r', readNames fuel c (len (concat (nameField <$> names))) r = Ret (foldl nameColumn c names, r') /\
    at_rest r' bs.
Proof.
  intros Hok. revert c r fuel. induction Hok as [|n names Hn Hok IH]; intros c r fuel Hr Hf.
  { exists r. by destruct fuel. }
  destruct Hn as (? & ? & ? & Htext). rewrite fmap_cons in *. cbn [concat] in *.
  pose proof (len_nonneg (nameData n)). pose proof (len_nameField n) as Hl.
  set (tail := concat (nameField <$> names)) in *. pose proof (len_nonneg tail).
  rewrite length_app in Hf. unfold len in Hl at 1.
  destruct fuel as [|fuel]; [lia|]. cbn [readNames]. rewrite len_app, len_nameField.
  rewrite (proj2 (Z.ltb_lt 0 _)), (proj2 (Z.ltb_ge _ 8)) by lia.
  unfold nameField at 1 in Hr. rewrite <-!app_assoc in Hr. do 3 rd.
  rewrite !Z.mod_small by lia. replace (8 + len (nameData n) - 8) with (len (nameData n)) by lia.
  rewrite (proj2 (Z.ltb_ge _ 0)) by lia.
  match goal with Hq : at_rest ?q (nameData n ++ _) |- _ =>
    destruct (readBytes_at q _ _ (len (nameData n)) Hq) as (q' & -> & Hq' & _); [done|] end.
  cbn [mbind outcome_bind]. rewrite Htext. cbn [mbind outcome_bind].
  replace (8 + len (nameData n) + len tail - (8 + len (nameData n))) with (len tail) by lia.
  destruct (IH (nameColumn c n) q' fuel Hq') as (r' & E & Hr'); [lia|]. by exists r'.
Qed.

Lemma readAllNames_at (cols : list serverColumn) offset bs r fuel :
  Forall serverColumn_ok cols -> at_rest r (concat (variablePart <$> cols) ++ bs) ->
  (length (concat (variablePart <$> cols)) <= fuel)%nat ->
  exists r', readAllNames fuel
      (zip (placeColumns offset (describedFixed <$> cols)).1 ((fun sc => len (variablePart sc)) <$> cols)) r =
    Ret (describedColumns offset cols, r') /\ at_rest r' bs.
Proof.
  intros Hok. revert offset r. induction Hok as [|sc cols Hsc Hok IH]; intros offset r Hr Hf; [by exists r|].
  rewrite !fmap_cons in *. cbn [concat] in *. rewrite length_app in Hf. rewrite <-app_assoc in Hr.
  cbn [placeColumns describedColumns].
  change (colLength (describedFixed sc)) with (serverLength sc).
  specialize (IH (offset + serverLength sc)).
  destruct (placeColumns (offset + serverLength sc) (describedFixed <$> cols)) as [more total]. cbn [fst] in *.
  cbn [zip zip_with readAllNames].
  destruct Hsc as (_ & _ & _ & _ & _ & _ & _ & _ & Hnames).
  destruct (readNames_at (serverNames sc) (withOffset (describedFixed sc) offset)
    (concat (variablePart <$> cols) ++ bs) r fuel) as (q & E & Hq); [done|done|unfold variablePart in *; lia|].
  fold (variablePart sc) in E. rewrite E. cbn [mbind outcome_bind].
  destruct (IH q Hq) as (r' & E' & Hr'); [lia|]. rewrite E'. by exists r'.
Qed.

Lemma rowLength_sum cols : sumColumnLengths (describedFixed <$> cols) = rowLength cols.
Proof.
  induction cols as [|sc cols IH]; [done|]. rewrite fmap_cons, sumColumnLengths_cons, IH. done.
Qed.

Lemma len_fixedParts cols : len (concat (fixedPart <$> cols)) = 48 * len cols.
Proof.
  induction cols as [|sc cols IH]; [done|]. rewrite fmap_cons. cbn [concat].
  rewrite len_app, len_cons, IH. unfold fixedPart. len_lia.
Qed.

Definition describedMeta (dateFormat timeFormat dateSeparator timeSeparator recordSize : Z)
    (cols : list serverColumn) : resultSetMeta :=
  mkMeta (describedColumns 0 cols) (if recordSize =? 0 then rowLength cols else recordSize)
    dateFormat timeFormat dateSeparator timeSeparator true.

Lemma parseSuper_at token dateFormat timeFormat dateSeparator timeSeparator recordSize cols :
  0 <= dateFormat < 2 ^ 8 -> 0 <= timeFormat < 2 ^ 8 -> 0 <= dateSeparator < 2 ^ 8 ->
  0 <= timeSeparator < 2 ^ 8 -> 0 <= recordSize < 2 ^ 32 -> Forall serverColumn_ok cols -> len cols < 2 ^ 32 ->
  parseSuperExtendedDataFormat
    (serverFormat token dateFormat timeFormat dateSeparator timeSeparator recordSize cols) emptyMeta =
  Ret (describedMeta dateFormat timeFormat dateSeparator timeSeparator recordSize cols).
Proof.
  intros ? ? ? ? ? Hok ?. pose proof (len_nonneg cols).
  set (payload := serverFormat _ _ _ _ _ _ _). unfold parseSuperExtendedDataFormat. cbv zeta.
  pose proof (at_rest_new payload) as Hr. unfold payload at 2, serverFormat in Hr. do 7 rd.
  rewrite !Z.mod_small by lia. unfold ensureColumns. cbn [columns emptyMeta].
  rewrite (proj2 (Z.ltb_ge (len cols) 0)) by done.
  change (len (@nil columnMeta) =? 0) with true. cbv iota. cbn [mbind outcome_bind columns withColumns].
  assert (Z.to_nat (len cols) = length cols) as -> by (unfold len; lia).
  match goal with Hq : at_rest ?q (concat (fixedPart <$> cols) ++ _) |- _ =>
    destruct (readFormats_at cols _ q Hok Hq) as (q1 & -> & Hq1) end.
  cbn [mbind outcome_bind]. rewrite <-!list_fmap_compose.
  change (fst ∘ _) with describedFixed. change (snd ∘ _) with (fun sc => len (variablePart sc)).
  pose proof (placeColumns_total (describedFixed <$> cols) 0) as Ht. rewrite rowLength_sum in Ht.
  rewrite <-(app_nil_r (concat (variablePart <$> cols))) in Hq1.
  destruct (readAllNames_at cols 0 [] q1 (length payload) Hok Hq1) as (q2 & E & _).
  { unfold payload, serverFormat. rewrite !length_app. lia. }
  destruct (placeColumns 0 (describedFixed <$> cols)) as [pl total]. cbn [fst snd] in E, Ht.
  rewrite E. cbn [mbind outcome_bind]. subst total. unfold describedMeta. cbn [metaRowSize withColumns].
  by destruct (recordSize =? 0).
Qed.

Lemma describedColumns_lengths offset cols :
  Forall2 same_length (describedFixed <$> cols) (describedColumns offset cols).
Proof.
  revert offset. induction cols as [|sc cols IH]; intros offset; [constructor|].
  rewrite fmap_cons. constructor; [|apply IH]. unfold same_length, describedColumn.
  change (serverLength sc) with (colLength (describedFixed sc)).
  enough (forall names c, colLength (foldl nameColumn c names) = colLength c) as Hgo by (by rewrite Hgo).
  induction names as [|n names IHn]; intros c; [done|]. cbn. rewrite IHn. done.
Qed.
End Roundtrip.

(** C28: the driver reads the description of a result set the server encoded:
    the columns come back in order with their type, length, scale, precision,
    CCSID, LOB size and names, each at the offset where the columns before it
    end; the row size is the server's, or the total length when it sent zero. *)
Theorem describe_roundtrip `{TableFS}
    (token dateFormat timeFormat dateSeparator timeSeparator recordSize : Z) (cols : list serverColumn) :
  0 <= dateFormat < 2 ^ 8 -> 0 <= timeFormat < 2 ^ 8 -> 0 <= dateSeparator < 2 ^ 8 ->
  0 <= timeSeparator < 2 ^ 8 -> 0 <= recordSize < 2 ^ 32 -> Forall serverColumn_ok cols ->
  let payload := serverFormat token dateFormat timeFormat dateSeparator timeSeparator recordSize cols in
  len payload + 6 < 2 ^ 32 ->
  parseDescribePayload (AppendLLCP [] CodePointSuperExtendedDataFormat payload) =
    Ret (describedMeta dateFormat timeFormat dateSeparator timeSeparator recordSize cols).
Proof.
  intros ? ? ? ? ? Hok payload Hlen. unfold parseDescribePayload.
  pose proof (len_nonneg cols). assert (len cols < 2 ^ 32) as Hcols.
  { pose proof (len_fixedParts cols). pose proof (len_nonneg (concat (variablePart <$> cols))).
    unfold payload, serverFormat in Hlen. len_lia. }
  rewrite forLLCP_one by (split; [vm_compute; intuition discriminate | cbn [snd]; lia]).
  cbn [foldLLCP]. unfold parseDescribeBody.
  change (CodePointSuperExtendedDataFormat =? CodePointExtendedColumnDescriptors) with false.
  rewrite Z.eqb_refl. cbv iota. unfold payload. rewrite parseSuper_at by done.
  cbn [mbind outcome_bind fmap outcome_fmap]. f_equal. unfold describedMeta. cbn [metaRowSize columns].
  pose proof (sumColumnLengths_same _ _ (describedColumns_lengths 0 cols)) as Hs. rewrite rowLength_sum in Hs.
  destruct (Z.eqb_spec recordSize 0); [|by rewrite (proj2 (Z.eqb_neq recordSize 0))].
  destruct (Z.eqb_spec (rowLength cols) 0) as [E|]; [|done]. cbn [andb].
  destruct (0 <? _); [|done]. unfold withRowSize. cbn [columns metaDateFormat metaTimeFormat metaDateSeparator metaTimeSeparator hasDataFormat].
  by rewrite Hs, E.
Qed.

Definition sampleColumns : list serverColumn :=
  [mkServerColumn 496 4 0 10 0 0x80 0 [mkServerName 0x3840 1208 [73; 68] [73; 68]];
   mkServerColumn 449 22 0 0 1208 0 0 [mkServerName 0x3840 1208 [78] [78]; mkServerName 0x3841 1208 [85] [85]]].

Lemma describe_roundtrip_witness :
  @parseDescribePayload (fun _ => NoFile) (AppendLLCP [] CodePointSuperExtendedDataFormat
    (serverFormat 9 1 2 45 58 0 sampleColumns)) = Ret (describedMeta 1 2 45 58 0 sampleColumns).
Proof.
  apply (@describe_roundtrip (fun _ => NoFile) 9 1 2 45 58 0 sampleColumns); try lia; [|vm_compute; reflexivity].
  repeat constructor; vm_compute; intuition discriminate.
Defined.

Lemma column_layout_witness :
  layout_ok (describedColumns 0 sampleColumns) /\ (26 = 0 -> sumColumnLengths (describedColumns 0 sampleColumns) = 0).
Proof.
  apply (@column_layout (fun _ => NoFile)
    (AppendLLCP [] CodePointSuperExtendedDataFormat (serverFormat 9 1 2 45 58 0 sampleColumns))
    (describedMeta 1 2 45 58 0 sampleColumns)).
  vm_compute. reflexivity.
Defined.
