(* ===== verification/Config.v ===== *)
(** Configuration: the [Config] of config.go, its validation, and the parsing
    of the options of a data source name (dsn.go, with the options of
    package.go, transport.go, clientinfo.go and bidi_settings.go).

    The fields of [Config] are grouped by the function that parses them.  The
    parts of a data source name that [net/url] separates are the input of
    [ParseDSN]; [time.ParseDuration] is a parameter.  [TLSConfig], which a data
    source name cannot set, is left out. *)
From Stdlib Require Import Strings.String.
From stdpp Require Import base list numbers strings gmap sorting.
From S2P Require Import Prelude GoStrings Wire Request.
Open Scope Z_scope.

Inductive NamingConvention := NamingSQL | NamingSystem.

#[export] Instance NamingConvention_eq_dec : EqDecision NamingConvention.
Proof. solve_decision. Defined.

Definition defaultDateFormat : Z := 5.
Definition defaultDateSeparator : Z := 0.
Definition defaultTimeFormat : Z := 0.
Definition defaultTimeSeparator : Z := 0.
Definition defaultDecimalSeparator : Z := 0.
Definition defaultQueryOptimizeGoal : Z := 0.
Definition defaultDecimalMaxPrecision : Z := 31.
Definition defaultDecimalMaxScale : Z := 31.
Definition defaultMinimumDivideScale : Z := 0.
Definition defaultLOBThreshold : Z := 1024 * 1024.
Definition maxLOBThreshold : Z := 15728640.
Definition defaultBlockSizeKB : Z := 256.
Definition maxSocketBufferSize : Z := Z.shiftl 16 20.
Definition defaultQueryStorageLimit : Z := -1.
Definition maxQueryStorageLimit : Z := 2147352578.
Definition clientInfoMaxBytes : Z := 255.
Definition defaultBidiStringType : Z := 5.
Definition bidiStringTypeNotSet : Z := -1.

(** ** Groups of options *)

Record serverOptions := mkServerOptions {
  QueryOptimizeGoal : Z;
  DecimalMaxPrecision : Z;
  DecimalMaxScale : Z;
  MinimumDivideScale : Z;
  LOBThreshold : Z;
  BlockSize : Z;
  ErrorsFull : bool;
  TrueAutocommit : bool;
  UseBlockUpdate : bool;
  ReturnGeneratedKeys : bool;
  DecfloatRoundingMode : Z;
}.

Record socketOptions := mkSocketOptions {
  KeepAlive : option bool;
  TCPNoDelay : option bool;
  ReceiveBufferSize : Z;
  SendBufferSize : Z;
  SocketTimeout : Z;
}.

Inductive packageCriteriaOption := CriteriaUnset | CriteriaDefault | CriteriaSelect.
Inductive packageErrorOption := PackageErrorUnset | PackageErrorNone | PackageErrorWarning | PackageErrorException.

Record packageOptions := mkPackageOptions {
  ExtendedDynamic : bool;
  PackageName : bytes;
  PackageLibrary : bytes;
  PackageCriteria : packageCriteriaOption;
  PackageAddDisabled : bool;
  PackageError : packageErrorOption;
  PackageCCSID : Z;
  PackageCCSIDSystem : bool;
  PackageCache : bool;
  PackageClear : bool;
}.

Record clientOptions := mkClientOptions {
  ApplicationName : bytes;
  ClientUser : bytes;
  ClientAccounting : bytes;
  ClientHostname : bytes;
  ClientProgramID : bytes;
  QueryStorageLimit : Z;
  TimeoutByServer : bool;
}.

Record bidiOptions := mkBidiOptions {
  BidiStringType : Z;
  BidiImplicitReordering : bool;
  BidiNumericOrdering : bool;
}.

Record Config := mkConfig {
  Host : bytes;
  Port : Z;
  UseTLS : bool;
  User : bytes;
  Password : bytes;
  Schema : bytes;
  Naming : NamingConvention;
  DateFormat : Z;
  DateSeparator : Z;
  TimeFormat : Z;
  TimeSeparator : Z;
  DecimalSeparator : Z;
  CommitmentControl : Z;
  Libraries : list bytes;
  ConnectTimeout : Z;
  StatementCacheSize : Z;
  ScrollableCursors : bool;
  HoldCursors : bool;
  TimestampString : bool;
  Server : serverOptions;
  Socket : socketOptions;
  Packages : packageOptions;
  Client : clientOptions;
  Bidi : bidiOptions;
}.

(** ** config.go *)

Definition validBlockSize (kb : Z) : bool :=
  existsb (Z.eqb kb) [0; 8; 16; 32; 64; 128; 256; 512] || ((512 <? kb) && (kb <=? 16000)).

Definition validBidiStringType (t : Z) : bool :=
  (t =? bidiStringTypeNotSet) || (t =? 0) || ((4 <=? t) && (t <=? 11)).

Definition inRange (lo hi x : Z) : bool := (lo <=? x) && (x <=? hi).

Definition invalid (name : string) (value : Z) : goerror := EText ("invalid DSN: " ++ name) [value].

Definition validatePackageConfig (p : packageOptions) : outcome unit :=
  ensure (0 <=? PackageCCSID p) (invalid "packageCCSID" (PackageCCSID p)) (Ret tt).

Definition Validate (c : Config) : outcome unit :=
  let s := Server c in
  ensure (negb (len (trimSpace (Host c)) =? 0)) (invalid "host is required" 0) (
  ensure (inRange 0 65535 (Port c)) (invalid "port" (Port c)) (
  ensure (validBidiStringType (BidiStringType (Bidi c))) (invalid "bidiStringType" (BidiStringType (Bidi c))) (
  ensure (inRange 0 7 (DateFormat c)) (invalid "dateFormat" (DateFormat c)) (
  ensure (inRange 0 4 (DateSeparator c)) (invalid "dateSeparator" (DateSeparator c)) (
  ensure (inRange 0 4 (TimeFormat c)) (invalid "timeFormat" (TimeFormat c)) (
  ensure (inRange 0 3 (TimeSeparator c)) (invalid "timeSeparator" (TimeSeparator c)) (
  ensure (inRange 0 1 (DecimalSeparator c)) (invalid "decimalSeparator" (DecimalSeparator c)) (
  ensure (inRange 0 4 (CommitmentControl c)) (invalid "commitmentControl" (CommitmentControl c)) (
  ensure (0 <=? StatementCacheSize c) (invalid "statementCacheSize" (StatementCacheSize c)) (
  ensure (inRange 0 2 (QueryOptimizeGoal s)) (invalid "queryOptimizeGoal" (QueryOptimizeGoal s)) (
  ensure (existsb (Z.eqb (DecimalMaxPrecision s)) [0; 31; 63]) (invalid "decimalMaxPrecision" (DecimalMaxPrecision s)) (
  ensure (inRange 0 63 (DecimalMaxScale s)) (invalid "decimalMaxScale" (DecimalMaxScale s)) (
  ensure (inRange 0 9 (MinimumDivideScale s)) (invalid "minimumDivideScale" (MinimumDivideScale s)) (
  ensure (inRange 0 maxLOBThreshold (LOBThreshold s)) (invalid "lobThreshold" (LOBThreshold s)) (
  ensure (validBlockSize (BlockSize s)) (invalid "blockSize" (BlockSize s)) (
  ensure (inRange 0 6 (DecfloatRoundingMode s)) (invalid "decfloatRoundingMode" (DecfloatRoundingMode s)) (
  ensure (inRange 0 maxSocketBufferSize (ReceiveBufferSize (Socket c))) (invalid "receiveBufferSize" (ReceiveBufferSize (Socket c))) (
  ensure (inRange 0 maxSocketBufferSize (SendBufferSize (Socket c))) (invalid "sendBufferSize" (SendBufferSize (Socket c))) (
  ensure (0 <=? SocketTimeout (Socket c)) (invalid "socketTimeout" (SocketTimeout (Socket c)))
    (validatePackageConfig (Packages c))))))))))))))))))))).

Definition fetchBufferBytes (c : Config) : Z :=
  if BlockSize (Server c) <=? 0 then defaultBlockSizeKB * 1024 else u32 (u32 (BlockSize (Server c)) * 1024).

Definition lobThresholdValue (c : Config) : Z :=
  if LOBThreshold (Server c) <=? 0 then 0
  else if maxLOBThreshold <? LOBThreshold (Server c) then maxLOBThreshold
  else u32 (LOBThreshold (Server c)).

Definition DefaultPort (c : Config) : Z := if UseTLS c then SecureDatabasePort else DatabasePort.

(** [serverCommitmentControl] of dbconn.go. *)
Definition serverCommitmentControl (c : Config) (autoCommit : bool) (commitmentControl : Z) : Z :=
  if autoCommit && negb (TrueAutocommit (Server c)) then 0 else requestCommitmentControl false commitmentControl.

(** ** dsn.go: option values *)

(** The text [url.Values] holds for each key. *)
Abbreviation urlValues := (gmap bytes (list bytes)).

Definition Get (q : urlValues) (name : bytes) : bytes :=
  match q !! name with Some (value :: _) => value | _ => [] end.

Definition normalizeOptionKey (value : bytes) : bytes := filter (fun b => negb (inSet [32; 95; 45] b)) value.

(** Byte-wise order of Go strings. *)
Fixpoint leb (s t : bytes) : bool :=
  match s, t with
  | [], _ => true
  | _ :: _, [] => false
  | a :: s', b :: t' => if a =? b then leb s' t' else a <? b
  end.

Definition firstNonBlank (values : list bytes) : option bytes :=
  List.find (fun v => negb (len v =? 0)) (trimSpace <$> values).

(** The candidate values under every spelling of the option, in key order. *)
Definition spellings (q : urlValues) (want : bytes) : list bytes :=
  let keys := merge_sort (fun s t => Is_true (leb s t)) (map_to_list q).*1 in
  concat ((fun key => if beqb (normalizeOptionKey (toLower (trimSpace key))) want
                      then default [] (q !! key) else []) <$> keys).

Definition optionValue (q : urlValues) (name : string) : option bytes :=
  let value := trimSpace (Get q (lit name)) in
  if negb (len value =? 0) then Some value
  else firstNonBlank (spellings q (normalizeOptionKey (toLower (lit name)))).

(** [strings.TrimSpace(config.RawQuery.Get(name))] when it is not empty. *)
Definition plainOption (q : urlValues) (name : string) : option bytes :=
  let value := trimSpace (Get q (lit name)) in if len value =? 0 then None else Some value.

Definition optionOr {A} (value : option bytes) (unset : A) (parse : bytes -> outcome A) : outcome A :=
  match value with Some v => parse v | None => Ret unset end.

Definition orInvalid {A} (name : string) (m : outcome A) : outcome A :=
  match m with Fail _ => Fail (invalid name 0) | r => r end.

(** [strconv.ParseBool]. *)
Definition ParseBool (value : bytes) : outcome bool :=
  if existsb (fun s => beqb value (lit s)) ["1"; "t"; "T"; "TRUE"; "true"; "True"]%string then Ret true
  else if existsb (fun s => beqb value (lit s)) ["0"; "f"; "F"; "FALSE"; "false"; "False"]%string then Ret false
  else Fail ESyntax.

Definition lookupText {A} (mappings : list (string * A)) (text : bytes) : option A :=
  snd <$> List.find (fun p => beqb text (lit p.1)) mappings.

Definition parseEnumeratedOption (value : bytes) (min max : Z) (mappings : list (string * Z)) : outcome Z :=
  let trimmed := trimSpace (toLower value) in
  if len trimmed =? 0 then Fail (EText "empty option" [])
  else
    match parseInt64 trimmed with
    | Ret parsed => if (parsed <? min) || (max <? parsed) then Fail (EText "option out of range" [parsed]) else Ret parsed
    | _ =>
        match lookupText mappings trimmed with
        | Some parsed => Ret parsed
        | None =>
            match lookupText mappings (normalizeOptionKey trimmed) with
            | Some parsed => Ret parsed
            | None => Fail (EText "unknown option" [])
            end
        end
    end.

Definition dateFormatNames : list (string * Z) :=
  [("julian", 0); ("mdy", 1); ("dmy", 2); ("ymd", 3); ("usa", 4); ("iso", 5); ("eur", 6); ("jis", 7)]%string.
Definition timeFormatNames : list (string * Z) :=
  [("hms", 0); ("usa", 1); ("iso", 2); ("eur", 3); ("jis", 4)]%string.
Definition dateSeparatorNames : list (string * Z) :=
  [("/", 0); ("slash", 0); ("-", 1); ("dash", 1); (".", 2); ("dot", 2); ("period", 2); (",", 3); ("comma", 3);
   ("space", 4)]%string.
Definition timeSeparatorNames : list (string * Z) :=
  [(":", 0); ("colon", 0); (".", 1); ("dot", 1); ("period", 1); (",", 2); ("comma", 2); ("space", 3)]%string.
Definition decimalSeparatorNames : list (string * Z) :=
  [(".", 0); ("dot", 0); ("period", 0); (",", 1); ("comma", 1)]%string.
Definition commitmentControlNames : list (string * Z) :=
  [("none", 0); ("cs", 1); ("cursorstability", 1); ("chg", 2); ("changedpage", 2); ("all", 3); ("rr", 4);
   ("repeatableread", 4)]%string.
Definition queryOptimizeGoalNames : list (string * Z) :=
  [("default", 0); ("firstio", 1); ("*firstio", 1); ("allio", 2); ("*allio", 2)]%string.
Definition roundingModeNames : list (string * Z) :=
  [("halfeven", 0); ("halfup", 1); ("down", 2); ("ceiling", 3); ("floor", 4); ("halfdown", 5); ("up", 6)]%string.

Definition parseDateFormatOption (v : bytes) := parseEnumeratedOption v 0 7 dateFormatNames.
Definition parseTimeFormatOption (v : bytes) := parseEnumeratedOption v 0 4 timeFormatNames.
Definition parseDateSeparatorOption (v : bytes) := parseEnumeratedOption v 0 4 dateSeparatorNames.
Definition parseTimeSeparatorOption (v : bytes) := parseEnumeratedOption v 0 3 timeSeparatorNames.
Definition parseDecimalSeparatorOption (v : bytes) := parseEnumeratedOption v 0 1 decimalSeparatorNames.
Definition parseCommitmentControlOption (v : bytes) := parseEnumeratedOption v 0 4 commitmentControlNames.

Definition parseTimestampPrecisionOption (v : bytes) : outcome bool :=
  match lookupText [("nanoseconds", false); ("string", true)]%string (toLower (trimSpace v)) with
  | Some asString => Ret asString
  | None => Fail (EText "invalid timestampPrecision" [])
  end.

Definition parseBidiStringTypeOption (v : bytes) : outcome Z :=
  let trimmed := toLower (trimSpace v) in
  if beqb trimmed (lit "none") || beqb trimmed (lit "notset") then Ret bidiStringTypeNotSet
  else
    parsed ← parseInt64 trimmed;
    ensure (validBidiStringType parsed) (EText "bidi string type out of range" [parsed]) (Ret parsed).

(** An integer option that must satisfy a test. *)
Definition checkedInt (name : string) (ok : Z -> bool) (v : bytes) : outcome Z :=
  orInvalid name (n ← parseInt64 v; ensure (ok n) ERange (Ret n)).

Definition boolOption (q : urlValues) (name : string) (unset : bool) : outcome bool :=
  optionOr (optionValue q name) unset (fun v => orInvalid name (ParseBool v)).

Definition choice {A} (name : string) (names : list (string * A)) (v : bytes) : outcome A :=
  match lookupText names (toLower v) with Some a => Ret a | None => Fail (invalid name 0) end.

Definition parseServerAttributeOptions (q : urlValues) : outcome serverOptions :=
  goal ← optionOr (optionValue q "queryOptimizeGoal") defaultQueryOptimizeGoal
           (fun v => orInvalid "queryOptimizeGoal" (parseEnumeratedOption v 0 2 queryOptimizeGoalNames));
  precision ← optionOr (optionValue q "decimalMaxPrecision") defaultDecimalMaxPrecision
           (checkedInt "decimalMaxPrecision" (fun n => (n =? 31) || (n =? 63)));
  scale ← optionOr (optionValue q "decimalMaxScale") defaultDecimalMaxScale (checkedInt "decimalMaxScale" (inRange 0 63));
  divide ← optionOr (optionValue q "minimumDivideScale") defaultMinimumDivideScale
           (checkedInt "minimumDivideScale" (inRange 0 9));
  threshold ← optionOr (optionValue q "lobThreshold") defaultLOBThreshold
           (checkedInt "lobThreshold" (inRange 0 maxLOBThreshold));
  blockSize ← optionOr (optionValue q "blockSize") defaultBlockSizeKB (checkedInt "blockSize" validBlockSize);
  full ← optionOr (optionValue q "errors") false
           (fun v => choice "errors" [("basic", false); ("full", true)]%string (trimSpace v));
  trueAuto ← boolOption q "trueAutocommit" false;
  block ← boolOption q "useBlockUpdate" false;
  keys ← boolOption q "returnGeneratedKeys" false;
  mode ← optionOr (optionValue q "decfloatRoundingMode") 0
           (fun v => orInvalid "decfloatRoundingMode" (parseEnumeratedOption v 0 6 roundingModeNames));
  Ret (mkServerOptions goal precision scale divide threshold blockSize full trueAuto block keys mode).

Section Durations.
(** [time.ParseDuration], in nanoseconds. *)
Variable ParseDuration : bytes -> outcome Z.

Definition parseDurationValue (value : bytes) : outcome Z :=
  match ParseDuration value with
  | Ret duration => Ret duration
  | _ => seconds ← parseInt64 value; Ret (i64 (seconds * 1000000000))
  end.

Definition parseSocketTimeoutValue (value : bytes) : outcome Z :=
  match parseInt64 value with
  | Ret millis =>
      ensure (0 <=? millis) (EText "negative socket timeout" [millis]) (Ret (i64 (millis * 1000000)))
  | _ =>
      timeout ← ParseDuration value;
      ensure (0 <=? timeout) (EText "negative socket timeout" [timeout]) (Ret timeout)
  end.

Definition optionalBool (q : urlValues) (name : string) : outcome (option bool) :=
  optionOr (optionValue q name) None (fun v => Some <$> orInvalid name (ParseBool v)).

Definition parseSocketOptions (q : urlValues) : outcome socketOptions :=
  keep ← optionalBool q "keepAlive";
  delay ← optionalBool q "tcpNoDelay";
  receive ← optionOr (optionValue q "receiveBufferSize") 0 (checkedInt "receiveBufferSize" (inRange 0 maxSocketBufferSize));
  send ← optionOr (optionValue q "sendBufferSize") 0 (checkedInt "sendBufferSize" (inRange 0 maxSocketBufferSize));
  timeout ← optionOr (optionValue q "socketTimeout") 0 (fun v => orInvalid "socketTimeout" (parseSocketTimeoutValue v));
  Ret (mkSocketOptions keep delay receive send timeout).

Definition parsePackageOptions (q : urlValues) : outcome packageOptions :=
  dynamic ← boolOption q "extendedDynamic" false;
  let name := default [] (optionValue q "package") in
  let library := match optionValue q "packageLibrary" with Some v => toUpper v | None => lit "QGPL" end in
  criteria ← optionOr (optionValue q "packageCriteria") CriteriaDefault
    (choice "packageCriteria" [("default", CriteriaDefault); ("select", CriteriaSelect)]%string);
  add ← boolOption q "packageAdd" true;
  onError ← optionOr (optionValue q "packageError") PackageErrorWarning
    (choice "packageError" [("none", PackageErrorNone); ("warning", PackageErrorWarning);
                            ("exception", PackageErrorException)]%string);
  '(ccsid, system) ← optionOr (optionValue q "packageCCSID") (defaultPackageCCSID, false)
    (fun v => if beqb (toLower v) (lit "system") then Ret (defaultPackageCCSID, true)
              else n ← checkedInt "packageCCSID" (fun n => 0 <? n) v; Ret (n, false));
  cache ← boolOption q "packageCache" false;
  clear ← boolOption q "packageClear" false;
  Ret (mkPackageOptions dynamic name library criteria (negb add) onError ccsid system cache clear).

(** A client information value of the data source name. *)
Definition clientValue (q : urlValues) (key : string) : outcome bytes :=
  optionOr (optionValue q key) [] (fun v => ensure (len v <=? clientInfoMaxBytes) (invalid key (len v)) (Ret v)).

Definition parseClientInfoOptions (q : urlValues) : outcome clientOptions :=
  app ← clientValue q "applicationName";
  user ← clientValue q "clientUser";
  accounting ← clientValue q "clientAccounting";
  hostname ← clientValue q "clientHostname";
  program ← clientValue q "clientProgramID";
  limit ← optionOr (optionValue q "queryStorageLimit") defaultQueryStorageLimit
    (fun v => orInvalid "queryStorageLimit" (parseInt64 v));
  byServer ← optionOr (optionValue q "queryTimeoutMechanism") false
    (choice "queryTimeoutMechanism" [("cancel", false); ("qqrytimlmt", true)]%string);
  Ret (mkClientOptions app user accounting hostname program limit byServer).

(** [strings.Split(value, ",")]. *)
Fixpoint splitComma (fuel : nat) (value : bytes) : list bytes :=
  match fuel, indexByte value 44 with
  | S fuel', Some i => take i value :: splitComma fuel' (drop (S i) value)
  | _, _ => [value]
  end.

Definition parseLibraries (value : bytes) : list bytes :=
  filter (fun l => negb (len l =? 0)) (trimSpace <$> splitComma (length value) value).

(** What [net/url] makes of a data source name. *)
Record parsedURL := mkURL {
  urlScheme : bytes;
  urlUser : bytes;
  urlPassword : bytes;
  urlHostname : bytes;
  urlPort : bytes;
  urlPath : bytes;
  urlQuery : urlValues;
}.

Definition parsePort (u : parsedURL) : outcome Z :=
  let q := urlQuery u in
  match plainOption q "port" with
  | Some v => orInvalid "port" (parseInt64 v)
  | None =>
      match plainOption q "portNumber" with
      | Some v => orInvalid "port" (parseInt64 v)
      | None => if len (urlPort u) =? 0 then Ret 0 else orInvalid "port" (parseInt64 (urlPort u))
      end
  end.

Definition parseSchema (u : parsedURL) : bytes :=
  let path := trimPrefix (urlPath u) [47] in
  match indexByte path 47 with Some slash => take slash path | None => path end.

Definition plainBool (q : urlValues) (name : string) (unset : bool) : outcome bool :=
  optionOr (plainOption q name) unset (fun v => orInvalid name (ParseBool v)).

Definition plainChoice (q : urlValues) (name : string) (unset : Z) (parse : bytes -> outcome Z) : outcome Z :=
  optionOr (plainOption q name) unset (fun v => orInvalid name (parse v)).

Definition parseBidiOptions (q : urlValues) : outcome bidiOptions :=
  stringType ←
    match optionValue q "bidiStringType" with
    | Some v => orInvalid "bidiStringType" (parseBidiStringTypeOption v)
    | None =>
        Ret (if bool_decide (is_Some (q !! lit "bidiStringType")) then bidiStringTypeNotSet else defaultBidiStringType)
    end;
  implicit ← plainBool q "bidiImplicitReordering" true;
  numeric ← plainBool q "bidiNumericOrdering" false;
  Ret (mkBidiOptions stringType implicit numeric).

Definition ParseURL (u : parsedURL) : outcome Config :=
  let q := urlQuery u in
  let scheme := toLower (urlScheme u) in
  ensure (beqb scheme (lit "as400") || beqb scheme (lit "as400s")) (invalid "unsupported scheme" 0) (
  ensure (negb (len (urlHostname u) =? 0)) (invalid "host is required" 0) (
    port ← parsePort u;
    tls ← plainBool q "tls" (beqb scheme (lit "as400s"));
    tls ← plainBool q "secure" tls;
    naming ← optionOr (plainOption q "naming") NamingSQL
      (choice "naming" [("sql", NamingSQL); ("system", NamingSystem)]%string);
    dateFormat ← plainChoice q "dateFormat" defaultDateFormat parseDateFormatOption;
    dateSeparator ← plainChoice q "dateSeparator" defaultDateSeparator parseDateSeparatorOption;
    timeFormat ← plainChoice q "timeFormat" defaultTimeFormat parseTimeFormatOption;
    timeSeparator ← plainChoice q "timeSeparator" defaultTimeSeparator parseTimeSeparatorOption;
    decimalSeparator ← plainChoice q "decimalSeparator" defaultDecimalSeparator parseDecimalSeparatorOption;
    commitment ← plainChoice q "commitmentControl" defaultCommitmentControl parseCommitmentControlOption;
    commitment ← plainChoice q "commitControl" commitment parseCommitmentControlOption;
    server ← parseServerAttributeOptions q;
    socket ← parseSocketOptions q;
    package ← parsePackageOptions q;
    client ← parseClientInfoOptions q;
    let libraries := match plainOption q "libraries" with Some v => parseLibraries v | None => [] end in
    cacheSize ← plainChoice q "statementCacheSize" 0 parseInt64;
    scrollable ← plainBool q "scrollableCursors" false;
    asString ← optionOr (plainOption q "timestampPrecision") false
      (fun v => orInvalid "timestampPrecision" (parseTimestampPrecisionOption v));
    bidi ← parseBidiOptions q;
    hold ← plainBool q "holdCursors" false;
    timeout ←
      match plainOption q "connectTimeout" with
      | Some v => orInvalid "connectTimeout" (parseDurationValue v)
      | None => plainChoice q "timeout" 0 parseDurationValue
      end;
    let timeout := if timeout =? 0 then 15 * 1000000000 else timeout in
    let config :=
      mkConfig (urlHostname u) port tls (urlUser u) (urlPassword u) (parseSchema u) naming dateFormat dateSeparator
        timeFormat timeSeparator decimalSeparator commitment libraries timeout cacheSize scrollable hold asString
        server socket package client bidi in
    _ ← Validate config;
    Ret config)).

(** [urlParse] is [url.Parse]. *)
Definition ParseDSN (urlParse : bytes -> option parsedURL) (dsn : bytes) : outcome Config :=
  if len (trimSpace dsn) =? 0 then Fail (invalid "empty DSN" 0)
  else match urlParse dsn with Some u => ParseURL u | None => Fail (invalid "DSN" 0) end.
End Durations.

(** * Examples *)

Definition noDuration : bytes -> outcome Z := fun _ => Fail ESyntax.

Definition timeoutURL (value : string) : parsedURL :=
  mkURL (lit "as400") [] [] (lit "host") [] [] {[lit "connectTimeout" := [lit value]]}.

(** A negative number of seconds is accepted: [openConn] then sets no bound. *)
Example negative_connect_timeout :
  ConnectTimeout <$> ParseURL noDuration (timeoutURL "-5") = Ret (-5000000000).
Proof. vm_compute. reflexivity. Qed.

(** The conversion to nanoseconds wraps: 585 years become 0.29 seconds. *)
Example connect_timeout_wraps :
  ConnectTimeout <$> ParseURL noDuration (timeoutURL "18446744074") = Ret 290448384.
Proof. vm_compute. reflexivity. Qed.
