(* ===== verification/Columns.v ===== *)
(** Column values (sql.go, boolean.go, lob_inline.go): from the bytes of a row
    to the values database/sql scans, and the Go type the driver announces for
    a column.

    The layout of right-to-left text is an interface, [BidiText]; which CCSIDs
    it applies to is the code's (internal/bidi/layout.go, bidi_settings.go). *)
From Stdlib Require Import Strings.String.
From stdpp Require Import base list numbers strings.
From S2P Require Import Prelude GoStrings Utf Ccsid Wire Reply Format Decfloat Decimal Calendar Values DateTime Describe Config.
Open Scope Z_scope.

(** ** Text with a bidirectional layout *)

Definition isConversionBidiCCSID (ccsid : Z) : bool :=
  existsb (Z.eqb ccsid)
    [420; 424; 425; 862; 864; 916; 1046; 1089; 1255; 1256; 5351; 8612; 12708; 62211; 62224; 62235; 62245; 62251].

(** The transformation of UTF-16 units of a CCSID under the settings, both ways;
    the result has as many units as the text. *)
Class BidiText := {
  toLogicalLayout : list Z -> Z -> bidiOptions -> outcome (list Z);
  toHostLayout : list Z -> Z -> bidiOptions -> outcome (list Z);
}.

Definition defaultBidiSettings : bidiOptions := mkBidiOptions defaultBidiStringType true false.

Section Columns.
Context `{TableFS} `{BidiText}.

Definition decodeTextWithBidi (data : bytes) (id : Z) (bs : bidiOptions) : outcome bytes :=
  let ccsidID := textCCSID id in
  if negb (isConversionBidiCCSID ccsidID) then decodeTextByCCSID data id
  else if len data =? 0 then Ret []
  else
    units ← DecodeUnits data ccsidID;
    layout ← toLogicalLayout units ccsidID bs;
    Ret (stringOf (utf16Decode layout)).

Definition encodeTextWithBidi (text : bytes) (id : Z) (bs : bidiOptions) : outcome bytes :=
  let ccsidID := textCCSID id in
  if negb (isConversionBidiCCSID ccsidID) then encodeTextBytes text id
  else layout ← toHostLayout (utf16Encode (runesOf text)) ccsidID bs; EncodeUnits layout ccsidID.

(** ** boolean.go and lob_inline.go *)

Definition booleanWireTrue : Z := 0xF1.
Definition booleanWireFalse : Z := 0xF0.

Definition decodeBooleanValue (raw : bytes) : outcome driverValue :=
  match raw with
  | [] => Fail (EText "BOOLEAN value requires 1 byte" [0])
  | b :: _ => Ret (VBool (negb (b =? booleanWireFalse)))
  end.

Definition inlineLOBColumnData (col : columnMeta) (raw : bytes) : outcome bytes :=
  if negb (existsb (Z.eqb (db2Type col)) [db2TypeBlob; db2TypeClob; db2TypeDbclob]) then Ret raw
  else if len raw <? 4 then Fail (EText "inline LOB value too short" [len raw])
  else
    let length := unbe (sub raw 0 4) in
    let length := if db2Type col =? db2TypeDbclob then length * 2 else length in
    if (length <? 0) || (len raw - 4 <? length) then Fail (EText "inline LOB length exceeds" [length; len raw - 4])
    else slice raw 4 (4 + length).

(** ** sql.go *)

(** A column with the attributes its decoding needs. *)
Definition withDecoding (typ length scale precision ccsid offset lobMaxSize : Z) : columnMeta :=
  mkColumn [] 0 [] [] [] [] [] [] [] typ length scale precision ccsid offset lobMaxSize 0 0 false false false false
    false false false false false false.

(** "\uFEFF". *)
Definition byteOrderMark : bytes := [0xEF; 0xBB; 0xBF].

Definition decodeLobTextValueWithBidi (raw : bytes) (col : columnMeta) (bs : bidiOptions) : outcome driverValue :=
  if colCCSID col =? 65535 then Ret (VBytes raw)
  else
    text ← decodeTextWithBidi raw (colCCSID col) bs;
    Ret (VString (if (db2Type col =? db2TypeXML) || (db2Type col =? db2TypeXMLLocator)
                  then trimPrefix text byteOrderMark else text)).

(** The data after a two-byte length, which counts units of [unit] bytes; less
    when the column is shorter. *)
Definition varyingData (unit : Z) (raw : bytes) : bytes :=
  sub raw 2 (Z.min (unbe (sub raw 0 2) * unit) (len raw - 2)).

Definition ofDateOrText (v : dateOrText) : driverValue :=
  match v with DateTime t => VTime t | PlainText s => VString s end.

Definition decodeTimestampColumn (raw : bytes) (col : columnMeta) (dt : dateTimeSettings) : outcome driverValue :=
  text ← decodeTextByCCSID raw (colCCSID col);
  let s := trimSpace text in
  if DateTime.TimestampString dt then Ret (VString s)
  else
    match parseIBMiTimestamp s with
    | Ret t => Ret (VTime t)
    | Fail _ => Ret (VString s)
    | Panic => Panic
    end.

Definition decodeFloatColumn (raw : bytes) : outcome driverValue :=
  if len raw =? 4 then Ret (VFloat64 (float64Of (unbe raw)))
  else if 8 <=? len raw then Ret (VFloat64 (unbe (sub raw 0 8)))
  else Fail (EText "floating point column too short" []).

(** A signed integer of [w] bytes. *)
Definition decodeIntegerColumn (w : Z) (raw : bytes) : outcome driverValue :=
  if len raw <? w then Fail (EText "integer column too short" [w])
  else Ret (VInt64 (wraps (8 * w) (unbe (sub raw 0 w)))).

Definition decodeDecfloatColumn (raw : bytes) : outcome driverValue :=
  if len raw =? 8 then VString <$> decodeDecfloat16 raw
  else if len raw =? 16 then VString <$> decodeDecfloat34 raw
  else Fail (EText "unexpected DECFLOAT length" [len raw]).

(** The bytes of the column in the row, cut where the row ends. *)
Definition columnBytes (col : columnMeta) (row : bytes) : outcome bytes :=
  if len row <? colOffset col then Fail (EText "row offset out of range" [])
  else
    let length := if len row <? colOffset col + colLength col then len row - colOffset col else colLength col in
    slice row (colOffset col) (colOffset col + length).

Definition oneOfTypes (typ : Z) (types : list Z) : bool := existsb (Z.eqb typ) types.

Definition decodeRaw (col : columnMeta) (raw : bytes) (dt : dateTimeSettings) (bs : bidiOptions) : outcome driverValue :=
  let typ := db2Type col in
  let has t := typ =? t in
  if has db2TypeDate then
    text ← decodeTextByCCSID raw (colCCSID col); ofDateOrText <$> decodeDateText (trimSpace text) dt
  else if has db2TypeTime then
    text ← decodeTextByCCSID raw (colCCSID col); ofDateOrText <$> decodeTimeText (trimSpace text) dt
  else if has db2TypeTimestamp then decodeTimestampColumn raw col dt
  else if has db2TypeChar then VString <$> decodeTextWithBidi raw (colCCSID col) bs
  else if oneOfTypes typ [db2TypeVarchar; db2TypeLongVarchar; db2TypeDatalink] then
    if len raw <? 2 then Ret (VString []) else VString <$> decodeTextWithBidi (varyingData 1 raw) (colCCSID col) bs
  else if oneOfTypes typ [db2TypeVarGraphic; db2TypeLongVarGraphic] then
    if len raw <? 2 then Ret (VString []) else VString <$> decodeTextByCCSID (varyingData 2 raw) (colCCSID col)
  else if has db2TypeGraphic then VString <$> decodeTextByCCSID raw (colCCSID col)
  else if has db2TypeDecimal then VString <$> decodePackedDecimalString raw (colPrecision col) (colScale col)
  else if has db2TypeNumeric then VString <$> decodeZonedDecimalString raw (colPrecision col) (colScale col)
  else if has db2TypeFloatingPoint then decodeFloatColumn raw
  else if has db2TypeBigint then decodeIntegerColumn 8 raw
  else if has db2TypeInteger then decodeIntegerColumn 4 raw
  else if has db2TypeSmallint then decodeIntegerColumn 2 raw
  else if oneOfTypes typ [db2TypeVarbinary; db2TypeRowID] then
    Ret (VBytes (if len raw <? 2 then [] else varyingData 1 raw))
  else if oneOfTypes typ [db2TypeBinary; db2TypeBlobLocator; db2TypeClobLocator; db2TypeDbclobLocator; db2TypeXMLLocator]
  then Ret (VBytes raw)
  else if has db2TypeDecfloat then decodeDecfloatColumn raw
  else if has db2TypeBoolean then decodeBooleanValue raw
  else if has db2TypeBlob then Ret (VBytes raw)
  else if oneOfTypes typ [db2TypeClob; db2TypeDbclob; db2TypeXML] then decodeLobTextValueWithBidi raw col bs
  else
    match decodeTextByCCSID raw (colCCSID col) with
    | Ret text => Ret (VString text)
    | Fail _ => Ret (VBytes raw)
    | Panic => Panic
    end.

Definition decodeColumnValueWithBidi (col : columnMeta) (row : bytes) (dt : dateTimeSettings) (bs : bidiOptions)
    : outcome driverValue :=
  data ← columnBytes col row;
  raw ← inlineLOBColumnData col data;
  decodeRaw col raw dt bs.
End Columns.

(** ** The announced types *)

Inductive scanType := ScanTypeTime | ScanTypeString | ScanTypeFloat64 | ScanTypeInt64 | ScanTypeBool | ScanTypeBytes.

Definition columnScanType (col : columnMeta) : scanType :=
  let typ := db2Type col in
  if oneOfTypes typ [db2TypeDate; db2TypeTime; db2TypeTimestamp] then ScanTypeTime
  else if oneOfTypes typ [db2TypeChar; db2TypeVarchar; db2TypeLongVarchar; db2TypeVarGraphic; db2TypeGraphic;
                          db2TypeLongVarGraphic; db2TypeDatalink] then ScanTypeString
  else if oneOfTypes typ [db2TypeDecimal; db2TypeNumeric] then ScanTypeString
  else if typ =? db2TypeFloatingPoint then ScanTypeFloat64
  else if oneOfTypes typ [db2TypeBigint; db2TypeInteger; db2TypeSmallint] then ScanTypeInt64
  else if typ =? db2TypeDecfloat then ScanTypeString
  else if typ =? db2TypeBoolean then ScanTypeBool
  else if oneOfTypes typ [db2TypeClob; db2TypeDbclob; db2TypeXML; db2TypeClobLocator; db2TypeDbclobLocator; db2TypeXMLLocator]
  then if colCCSID col =? 65535 then ScanTypeBytes else ScanTypeString
  else ScanTypeBytes.

(** [ColumnTypeScanType] of a column, under the settings of its connection. *)
Definition ColumnTypeScanType (col : columnMeta) (dt : dateTimeSettings) : scanType :=
  if (db2Type col =? db2TypeTimestamp) && DateTime.TimestampString dt then ScanTypeString else columnScanType col.

Definition ColumnTypeLength (col : columnMeta) : option Z :=
  if oneOfTypes (db2Type col)
       [db2TypeDate; db2TypeTime; db2TypeTimestamp; db2TypeChar; db2TypeVarchar; db2TypeLongVarchar;
        db2TypeVarGraphic; db2TypeGraphic; db2TypeLongVarGraphic; db2TypeDatalink; db2TypeBinary; db2TypeVarbinary;
        db2TypeRowID; db2TypeBlob; db2TypeClob; db2TypeDbclob; db2TypeXML; db2TypeBlobLocator; db2TypeClobLocator;
        db2TypeDbclobLocator; db2TypeXMLLocator]
  then
    if 0 <? colLobMaxSize col then Some (colLobMaxSize col)
    else if 0 <=? colLength col then Some (colLength col) else None
  else None.

Definition ColumnTypePrecisionScale (col : columnMeta) : option (Z * Z) :=
  if oneOfTypes (db2Type col) [db2TypeDecimal; db2TypeNumeric; db2TypeDecfloat]
  then Some (colPrecision col, colScale col) else None.

(** ** Values of the announced types *)

(** A value of a scan type. *)
Definition scansAs (v : driverValue) (t : scanType) : Prop :=
  match t, v with
  | ScanTypeTime, VTime _ | ScanTypeString, VString _ | ScanTypeFloat64, VFloat64 _
  | ScanTypeInt64, VInt64 _ | ScanTypeBool, VBool _ | ScanTypeBytes, VBytes _ => True
  | _, _ => False
  end.

Definition textLocatorTypes : list Z := [db2TypeClobLocator; db2TypeDbclobLocator; db2TypeXMLLocator].
Definition locatorTypes : list Z := db2TypeBlobLocator :: textLocatorTypes.

(** The types of columns the driver knows. *)
Definition columnTypes : list Z :=
  [db2TypeDate; db2TypeTime; db2TypeTimestamp; db2TypeChar; db2TypeVarchar; db2TypeLongVarchar; db2TypeDatalink;
   db2TypeVarGraphic; db2TypeLongVarGraphic; db2TypeGraphic; db2TypeDecimal; db2TypeNumeric; db2TypeFloatingPoint;
   db2TypeBigint; db2TypeInteger; db2TypeSmallint; db2TypeVarbinary; db2TypeRowID; db2TypeBinary; db2TypeDecfloat;
   db2TypeBoolean; db2TypeBlob; db2TypeClob; db2TypeDbclob; db2TypeXML] ++ locatorTypes.

(** The reader of the text of a date, time or timestamp. *)
Definition timeReader (typ : Z) (text : bytes) (dt : dateTimeSettings) : outcome time :=
  if typ =? db2TypeDate then parseDate text dt
  else if typ =? db2TypeTime then parseTime text dt
  else parseIBMiTimestamp text.

Section Announced.
Context `{TableFS}.

(** What a column may give for its [data] under the announced type [t]: a time
    only as what its text reads as, and the text in its place only when it is
    the blank text of a date or time or the timestamp reader fails.  A LOB
    locator that is null or cut off has no data to read. *)
Inductive announced (t : scanType) (col : columnMeta) (dt : dateTimeSettings) (data : bytes) : driverValue -> Prop :=
| OfType v :
    t <> ScanTypeTime -> scansAs v (t) -> announced t col dt data v
| ReadTime text v :
    t = ScanTypeTime -> decodeTextByCCSID data (colCCSID col) = Ret text ->
    timeReader (db2Type col) (trimSpace text) dt = Ret v -> announced t col dt data (VTime v)
| BlankTime text :
    t = ScanTypeTime -> db2Type col <> db2TypeTimestamp ->
    decodeTextByCCSID data (colCCSID col) = Ret text -> trimSpace text = [] -> announced t col dt data (VString [])
| UnreadTimestamp text e :
    t = ScanTypeTime -> db2Type col = db2TypeTimestamp ->
    decodeTextByCCSID data (colCCSID col) = Ret text -> parseIBMiTimestamp (trimSpace text) = Fail e ->
    announced t col dt data (VString (trimSpace text))
| NullLocator :
    oneOfTypes (db2Type col) textLocatorTypes = true -> 4 <= len data -> unbe (sub data 0 4) = 0 -> announced t col dt data (VString [])
| CutLocator :
    oneOfTypes (db2Type col) locatorTypes = true -> len data < 4 -> announced t col dt data (VBytes data).
End Announced.

(** * Lemmas *)

(** Evaluate the tests of a known type. *)
Ltac known_type E :=
  rewrite ?E; unfold oneOfTypes; cbn [existsb];
  repeat match goal with
  | |- context [Z.eqb ?a ?b] =>
      let r := eval vm_compute in (Z.eqb a b) in
      match r with true => idtac | false => idtac end; change (Z.eqb a b) with r
  end; cbn [orb andb negb].

Section Lemmas.
Context `{TableFS} `{BidiText}.

(** A conversion wrapped in a constructor. *)
Lemma fmap_is_Ret {A B} (f : A -> B) (m : outcome A) b : f <$> m = Ret b -> exists a, b = f a.
Proof. destruct m; cbn; [intros [= <-]; by eexists|done|done]. Qed.

Lemma lob_text_scans raw col bs v :
  decodeLobTextValueWithBidi raw col bs = Ret v -> scansAs v (if colCCSID col =? 65535 then ScanTypeBytes else ScanTypeString).
Proof.
  unfold decodeLobTextValueWithBidi. destruct (colCCSID col =? 65535); [by intros [= <-]|].
  destruct (decodeTextWithBidi raw (colCCSID col) bs); cbn; [by intros [= <-]|done|done].
Qed.

(** DATE and TIME columns. *)
Lemma decodeText_announced op col dt data text v :
  ColumnTypeScanType col dt = ScanTypeTime -> db2Type col <> db2TypeTimestamp ->
  decodeTextByCCSID data (colCCSID col) = Ret text ->
  ofDateOrText <$> decodeText op (trimSpace text) (timeReader (db2Type col) (trimSpace text) dt) = Ret v ->
  announced (ColumnTypeScanType col dt) col dt data v.
Proof.
  intros Ht Hn Hd. unfold decodeText. destruct (trimSpace text) as [|b s] eqn:E.
  - intros [= <-]. by apply (BlankTime _ _ _ _ text).
  - rewrite <- E. destruct (timeReader _ _ _) as [t|e|] eqn:Er; [|done|done]. intros [= <-]. by apply (ReadTime _ _ _ _ text).
Qed.

Lemma timestamp_announced raw col dt v :
  db2Type col = db2TypeTimestamp -> decodeTimestampColumn raw col dt = Ret v -> announced (ColumnTypeScanType col dt) col dt raw v.
Proof.
  intros Ht. unfold decodeTimestampColumn. intros (text & Hd & Hv)%bind_Ret. revert Hv.
  assert (ColumnTypeScanType col dt = if DateTime.TimestampString dt then ScanTypeString else ScanTypeTime) as Es
    by (unfold ColumnTypeScanType, columnScanType; known_type Ht; done).
  destruct (DateTime.TimestampString dt); [intros [= <-]; apply OfType; by rewrite Es|].
  destruct (parseIBMiTimestamp (trimSpace text)) as [t|e|] eqn:Er; [| |done]; intros [= <-].
  - apply (ReadTime _ _ _ _ text); [done..|]. by rewrite Ht.
  - by apply (UnreadTimestamp _ _ _ _ text e).
Qed.

(** The column decoder; the bytes of a locator are still to be resolved. *)
Lemma decoded_as_announced col row dt bs v :
  db2Type col ∈ columnTypes -> decodeColumnValueWithBidi col row dt bs = Ret v ->
  exists data, columnBytes col row = Ret data /\
    if oneOfTypes (db2Type col) locatorTypes then v = VBytes data else announced (ColumnTypeScanType col dt) col dt data v.
Proof.
  intros Ht. unfold decodeColumnValueWithBidi. intros (data & Hdata & (raw & Hraw & Hv)%bind_Ret)%bind_Ret.
  exists data. split; [done|].
  assert (forall t, ColumnTypeScanType col dt = t -> t <> ScanTypeTime -> scansAs v t -> announced (ColumnTypeScanType col dt) col dt data v) as Hof
    by (intros t <-; apply OfType).
  revert Hraw Hv Hof. unfold inlineLOBColumnData, decodeRaw, locatorTypes, textLocatorTypes.
  set (scan := ColumnTypeScanType col dt). assert (scan = ColumnTypeScanType col dt) as Hscan by done. clearbody scan.
  pose proof Hscan as Hs. revert Hscan.
  unfold ColumnTypeScanType, columnScanType.
  unfold columnTypes, locatorTypes, textLocatorTypes in Ht. cbn [app] in Ht. rewrite !elem_of_cons, elem_of_nil in Ht.
  repeat destruct Ht as [Ht|Ht]; try done; known_type Ht; intros Hscan Hraw Hv Hof;
    try (apply Ret_inj in Hraw; subst raw).
  4-25: apply (Hof scan); [done|rewrite Hscan; by repeat case_match|]; rewrite Hscan; clear Hof Hscan; revert Hv;
    try (by intros [a ->]%fmap_is_Ret); try (case_match; [by intros [= <-]|]; by intros [a ->]%fmap_is_Ret);
    try (by intros [= <-]); try apply lob_text_scans.
  1-2: apply bind_Ret in Hv as (text & Hd & Hv); rewrite Hs; eapply decodeText_announced; [| |exact Hd|];
    [unfold ColumnTypeScanType, columnScanType; known_type Ht; done|by rewrite Ht|
     unfold timeReader; known_type Ht; exact Hv].
  all: try (by injection Hv as <-).
  7: by destruct data; [|intros [= <-]].
  6: by unfold decodeDecfloatColumn; repeat case_match; try done; intros [a ->]%fmap_is_Ret.
  3-5: by unfold decodeIntegerColumn; case_match; [|intros [= <-]].
  - rewrite Hs. by apply timestamp_announced.
  - by unfold decodeFloatColumn; repeat case_match; try done; intros [= <-].
Qed.
End Lemmas.
