(* ===== verification/Encoding.v ===== *)
(** Parameter values (sql.go, numeric_param.go, boolean.go, lob_inline.go,
    decfloat_encode.go): from the arguments of a statement to the bytes of its
    parameter markers.

    [fmt.Sprint] of values that are not driver values is an interface, as the
    texts of floating-point numbers are. *)
From Stdlib Require Import Strings.String.
From stdpp Require Import base list numbers strings.
From S2P Require Import Prelude GoStrings Digits Utf Ccsid Wire Reply Format Decfloat Decimal Calendar Values DateTime Sqlca Describe Config Columns.
Open Scope Z_scope.

Class Sprint := { sprint : goAny -> bytes }.

Definition parameterFieldDB2Type (f : parameterMarkerField) : Z := db2TypeOf (SQLType f) (Format.CCSID f).

(** ** Values as texts, bytes and numbers *)

Definition hexValue (b : Z) : option Z :=
  if isDigit b then Some (b - 48)
  else if (97 <=? b) && (b <=? 102) then Some (b - 87)
  else if (65 <=? b) && (b <=? 70) then Some (b - 55)
  else None.

Definition invalidHex : goerror := EText "encoding/hex: invalid byte" [].

(** [hex.DecodeString] of a text of even length. *)
Fixpoint hexDecode (s : bytes) : outcome bytes :=
  match s with
  | hi :: lo :: s' =>
      match hexValue hi, hexValue lo with
      | Some h, Some l => rest ← hexDecode s'; Ret (h * 16 + l :: rest)
      | _, _ => Fail invalidHex
      end
  | [_] => Fail (EText "encoding/hex: odd length hex string" [])
  | [] => Ret []
  end.

(** The digits of a hex text: without a "0x" or X'...' around them. *)
Definition hexDigitsOf (s : bytes) : outcome bytes :=
  let text := trimSpace s in
  if hasPrefix text (lit "0x") || hasPrefix text (lit "0X") then Ret (drop 2 text)
  else
    match text with
    | x :: q :: _ :: _ =>
        if ((x =? 120) || (x =? 88)) && (q =? 39) then
          if hasSuffix text [39] then slice text 2 (len text - 1) else Fail (EText "invalid hex literal" s)
        else Ret text
    | _ => Ret text
    end.

Definition parameterFieldBinaryBytes (value : driverValue) : outcome bytes :=
  match value with
  | VBytes v => Ret v
  | VString v =>
      text ← hexDigitsOf v;
      let text := List.filter (fun b => negb (b =? 32)) text in
      hexDecode (if Z.odd (len text) then 48 :: text else text)
  | _ => Fail EBindingUnsupported
  end.

(** *** boolean.go *)

Definition parseBooleanString (text : bytes) : outcome bool :=
  let t := toLower (trimSpace text) in
  if beqb t (lit "true") || beqb t (lit "1") then Ret true
  else if beqb t (lit "false") || beqb t (lit "0") then Ret false
  else Fail (EText "invalid BOOLEAN parameter" text).

Definition encodeBooleanParameter (value : driverValue) : outcome bytes :=
  v ← match value with
      | VBool b => Ret b
      | VInt64 n => Ret (negb (n =? 0))
      | VString s => parseBooleanString s
      | _ => Fail EBindingUnsupported
      end;
  Ret [if v : bool then booleanWireTrue else booleanWireFalse].

(** [v] converted only when it is finite, whole and in range. *)
Definition parameterFieldFloat64ToInt64 (bits : Z) : outcome Z :=
  if isNaN binary64 bits || isInf binary64 bits then Fail (EText "parameter value is not a finite number" [])
  else
    let '(m, e) := finiteParts binary64 bits in
    if negb ((0 <=? e) || (m mod 2 ^ (- e) =? 0)) then Fail (EText "parameter value is not an integer" [])
    else
      let n := if 0 <=? e then m * 2 ^ e else m / 2 ^ (- e) in
      if (n <? - 2 ^ 63) || (2 ^ 63 <=? n) then Fail outOfRange64 else Ret n.

Definition boolNumber (b : bool) : Z := if b then 1 else 0.

Definition parameterFieldInt64 (value : driverValue) : outcome Z :=
  match value with
  | VInt64 n => Ret n
  | VFloat64 bits => parameterFieldFloat64ToInt64 bits
  | VBool b => Ret (boolNumber b)
  | VString s | VBytes s => parameterFieldDecimalFloat s
  | VNil | VTime _ => Fail EBindingUnsupported
  end.

Section Encoding.
Context `{TableFS} `{BidiText} `{FloatText} `{Sprint}.

Definition parameterFieldFloat64 (value : driverValue) : outcome Z :=
  match value with
  | VFloat64 bits => Ret bits
  | VInt64 n => Ret (float64OfInt n)
  | VBool b => Ret (float64OfInt (boolNumber b))
  | VString s | VBytes s => parseFloat (trimSpace s)
  | VNil | VTime _ => Fail EBindingUnsupported
  end.

Definition parameterFieldDecimalString (value : driverValue) : outcome bytes :=
  match value with
  | VString s | VBytes s => Ret (trimSpace s)
  | VInt64 n => Ret (formatInt n)
  | VFloat64 bits => Ret (formatFloat bits)
  | VBool b => Ret (boolText b)
  | VNil | VTime _ => Fail EBindingUnsupported
  end.

(** The error of a numeric conversion, worded for the type. *)
Definition numericParameterError (value : driverValue) (typeName : string) (e : goerror) : goerror :=
  match e with
  | EInvalidNumericText | ESyntax => EText ("parameter value is not a valid number for " ++ typeName) (parameterFieldValueString value)
  | ERange => EText ("parameter value out of range for " ++ typeName) (parameterFieldValueString value)
  | e => e
  end.

Definition worded {A} (value : driverValue) (typeName : string) (m : outcome A) : outcome A :=
  match m with Fail e => Fail (numericParameterError value typeName e) | m => m end.

(** ** Encoders *)

Definition parameterFieldNullLength (f : parameterMarkerField) : Z :=
  if 0 <? FieldLength f then FieldLength f
  else
    let typ := parameterFieldDB2Type f in
    if typ =? db2TypeBigint then 8
    else if typ =? db2TypeInteger then 4
    else if typ =? db2TypeSmallint then 2
    else if typ =? db2TypeBoolean then 1
    else if typ =? db2TypeFloatingPoint then (if FieldLength f =? 4 then 4 else 8)
    else if typ =? db2TypeDecimal then (if 0 <? Format.Precision f then (Format.Precision f + 2) / 2 else 0)
    else if typ =? db2TypeNumeric then (if 0 <? Format.Precision f then Format.Precision f else 0)
    else if typ =? db2TypeDecfloat then (if Format.Precision f =? 34 then 16 else 8)
    else 0.

(** The integer encoders: [w] bytes at the end of the field. *)
Definition encodeIntegerOf (w : Z) (typeName : string) (value : driverValue) (f : parameterMarkerField) : outcome bytes :=
  number ← worded value typeName (parameterFieldInt64 value);
  if (number <? - 2 ^ (8 * w - 1)) || (2 ^ (8 * w - 1) - 1 <? number)
  then Fail (EText ("parameter value out of range for " ++ typeName) [number])
  else
    let size := Z.max (parameterFieldNullLength f) w in
    Ret (replicate (Z.to_nat (size - w)) 0 ++ be (Z.to_nat w) number).

Definition encodeBigintParameter := encodeIntegerOf 8 "BIGINT".
Definition encodeIntegerParameter := encodeIntegerOf 4 "INTEGER".
Definition encodeSmallintParameter := encodeIntegerOf 2 "SMALLINT".

Definition encodeFloatingPointParameter (value : driverValue) (f : parameterMarkerField) : outcome bytes :=
  number ← worded value (if FieldLength f =? 4 then "REAL" else "DOUBLE") (parameterFieldFloat64 value);
  Ret (if FieldLength f =? 4 then be 4 (float32Of number) else be 8 number).

Definition encodePackedOrZonedDecimalParameter (value : driverValue) (f : parameterMarkerField) (packed : bool)
    : outcome bytes :=
  text ← parameterFieldDecimalString value;
  worded value (if packed then "DECIMAL" else "NUMERIC") (encodeDecimalText text f packed).

Definition decfloatParameterSize (f : parameterMarkerField) : outcome Z :=
  if (FieldLength f =? 8) || (FieldLength f =? 16) then Ret (FieldLength f)
  else if FieldLength f =? 0 then Ret (if 16 <? Format.Precision f then 16 else 8)
  else Fail (EText "unsupported DECFLOAT parameter length" [FieldLength f]).

Definition encodeDecfloatParameter (value : driverValue) (f : parameterMarkerField) : outcome bytes :=
  size ← decfloatParameterSize f;
  text ← match value with VFloat64 bits => Ret (formatFloatG bits) | v => parameterFieldDecimalString v end;
  match parseDecfloatText text with
  | Fail _ => Fail (numericParameterError value "DECFLOAT" EInvalidNumericText)
  | Panic => Panic
  | Ret _ => encodeDecfloat text size
  end.

Definition valueTooLong : goerror := EText "parameter value too long" [].
Definition prefixTooLong : goerror := EText "parameter value too long for 2-byte length prefix" [].

Definition encodeFixedTextBytes (text : bytes) (f : parameterMarkerField) (bs : bidiOptions) : outcome bytes :=
  raw ← encodeTextWithBidi text (Format.CCSID f) bs;
  if FieldLength f <=? 0 then Ret raw
  else if FieldLength f <? len raw then Fail valueTooLong
  else fitTextBytesToLength raw (FieldLength f) (Format.CCSID f).

Definition encodeDateParameter (value : driverValue) (f : parameterMarkerField) (bs : bidiOptions) : outcome bytes :=
  encodeFixedTextBytes
    (match value with VTime t => parameterFieldDateText t | v => parameterFieldValueString v end) f bs.

Definition encodeTimeParameter (value : driverValue) (f : parameterMarkerField) (bs : bidiOptions) : outcome bytes :=
  encodeFixedTextBytes
    (match value with VTime t => parameterFieldTimeText t | v => parameterFieldValueString v end) f bs.

Definition encodeTimestampParameter (value : driverValue) (f : parameterMarkerField) (bs : bidiOptions)
    : outcome bytes :=
  let text := match value with VTime t => parameterFieldTimestampText t | v => parameterFieldValueString v end in
  let text :=
    if (0 <? FieldLength f) && (FieldLength f <? len (runesOf text))
    then stringOf (take (Z.to_nat (FieldLength f)) (runesOf text)) else text in
  encodeFixedTextBytes text f bs.

Definition encodeFixedBinaryParameter (value : driverValue) (f : parameterMarkerField) : outcome bytes :=
  raw ← parameterFieldBinaryBytes value; Ret (fitBytesToLength raw (FieldLength f) 0).

(** Data behind a two-byte length that counts units of [unit] bytes. *)
Definition lengthPrefixed (unit : Z) (raw : bytes) (f : parameterMarkerField) : outcome bytes :=
  if (0 <? FieldLength f) && (FieldLength f <? len raw + 2) then Fail valueTooLong
  else if 0xFFFF <? len raw / unit then Fail prefixTooLong
  else Ret (be16 (len raw / unit) ++ raw).

Definition encodeVarbinaryParameter (value : driverValue) (f : parameterMarkerField) : outcome bytes :=
  raw ← parameterFieldBinaryBytes value; lengthPrefixed 1 raw f.

Definition encodeFixedTextParameter (value : driverValue) (f : parameterMarkerField) (bs : bidiOptions)
    : outcome bytes :=
  encodeFixedTextBytes (parameterFieldValueString value) f bs.

Definition encodeVarcharParameter (value : driverValue) (f : parameterMarkerField) (bs : bidiOptions) : outcome bytes :=
  raw ← encodeTextWithBidi (parameterFieldValueString value) (Format.CCSID f) bs; lengthPrefixed 1 raw f.

Definition encodeVarGraphicParameter (value : driverValue) (f : parameterMarkerField) : outcome bytes :=
  raw ← encodeTextBytes (parameterFieldValueString value) (Format.CCSID f);
  if negb (len raw mod 2 =? 0) then Fail (EText "graphic parameter must encode to an even number of bytes" [])
  else lengthPrefixed 2 raw f.

Definition encodeGraphicParameter := encodeFixedTextParameter.

Definition encodeParameterValue (f : parameterMarkerField) (value : driverValue) (isNull : bool) (bs : bidiOptions)
    : outcome bytes :=
  if isNull || match value with VNil => true | _ => false end
  then Ret (replicate (Z.to_nat (parameterFieldNullLength f)) 0)
  else
    let typ := parameterFieldDB2Type f in
    let has t := typ =? t in
    if has db2TypeBigint then encodeBigintParameter value f
    else if has db2TypeInteger then encodeIntegerParameter value f
    else if has db2TypeSmallint then encodeSmallintParameter value f
    else if has db2TypeFloatingPoint then encodeFloatingPointParameter value f
    else if has db2TypeDecimal then encodePackedOrZonedDecimalParameter value f true
    else if has db2TypeNumeric then encodePackedOrZonedDecimalParameter value f false
    else if has db2TypeDate then encodeDateParameter value f bs
    else if has db2TypeTime then encodeTimeParameter value f bs
    else if has db2TypeTimestamp then encodeTimestampParameter value f bs
    else if has db2TypeBinary then encodeFixedBinaryParameter value f
    else if oneOfTypes typ [db2TypeVarbinary; db2TypeRowID] then encodeVarbinaryParameter value f
    else if has db2TypeChar then encodeFixedTextParameter value f bs
    else if oneOfTypes typ [db2TypeVarchar; db2TypeLongVarchar; db2TypeDatalink] then encodeVarcharParameter value f bs
    else if oneOfTypes typ [db2TypeVarGraphic; db2TypeLongVarGraphic] then encodeVarGraphicParameter value f
    else if has db2TypeGraphic then encodeGraphicParameter value f bs
    else if has db2TypeDecfloat then encodeDecfloatParameter value f
    else if has db2TypeBoolean then encodeBooleanParameter value
    else if oneOfTypes typ [db2TypeBlob; db2TypeClob; db2TypeDbclob; db2TypeXML; db2TypeBlobLocator; db2TypeClobLocator;
                            db2TypeDbclobLocator; db2TypeXMLLocator] then Fail EBindingUnsupported
    else encodeFixedTextParameter value f bs.

(** ** Large objects *)

Definition isLOBParameterField (f : parameterMarkerField) : bool :=
  oneOfTypes (parameterFieldDB2Type f) [db2TypeBlob; db2TypeClob; db2TypeDbclob; db2TypeXML].

Definition isInlineLOBParameterField (f : parameterMarkerField) : bool :=
  if (0 <? LOBLocator f) || (LOBMaxSize f <=? 0) then false
  else oneOfTypes (parameterFieldDB2Type f) [db2TypeBlob; db2TypeClob; db2TypeDbclob].

Definition anyText (value : goAny) : bytes :=
  match value with Native v => parameterFieldValueString v | v => sprint v end.

Definition anyBytes (value : goAny) : outcome bytes :=
  match value with Native v => parameterFieldBinaryBytes v | _ => Fail EBindingUnsupported end.

Definition isNilValue (value : goAny) : bool := match value with Native VNil => true | _ => false end.

(** The data of a LOB value, and its length in the units of the type. *)
Definition lobDataOf (f : parameterMarkerField) (value : goAny) (bs : bidiOptions) : outcome (bytes * Z) :=
  let typ := parameterFieldDB2Type f in
  if typ =? db2TypeBlob then data ← anyBytes value; Ret (data, len data)
  else
    data ← encodeTextWithBidi (anyText value) (Format.CCSID f) bs;
    Ret (data, if typ =? db2TypeDbclob then len data / 2 else len data).

Definition encodeInlineLOBParameterValue (f : parameterMarkerField) (value : goAny) (hasInputValue isNull : bool)
    (bs : bidiOptions) : outcome bytes :=
  let size := if FieldLength f <=? 0 then LOBMaxSize f + 4 else FieldLength f in
  let zeros := replicate (Z.to_nat size) 0 in
  if negb hasInputValue || isNull || isNilValue value then Ret zeros
  else
    '(data, length) ← lobDataOf f value bs;
    if size - 4 <? len data then Fail (EText "LOB value exceeds the inline maximum" [len data; size - 4])
    else if size <? 4 then Panic
    else Ret (copyInto zeros (be32 length ++ data)).

Definition encodeLOBParameterValue (f : parameterMarkerField) (value : goAny) (hasInputValue isNull : bool)
    (bs : bidiOptions) : outcome (bytes * option lobWriteRequest) :=
  if LOBLocator f <=? 0 then
    if isInlineLOBParameterField f
    then raw ← encodeInlineLOBParameterValue f value hasInputValue isNull bs; Ret (raw, None)
    else Fail EBindingUnsupported
  else
    let raw := be32 (LOBLocator f) in
    if negb hasInputValue || isNull || isNilValue value then Ret (raw, None)
    else
      '(data, requested) ← lobDataOf f value bs;
      Ret (raw, Some (mkLobWrite (u32 (LOBLocator f)) requested data)).

(** ** Bindings *)

Definition bindingError {A} (parameter : Z) (operation : string) (m : outcome A) : outcome A :=
  match m with Fail e => Fail (EBinding (parameter + 1) operation e) | m => m end.

(** The value of an argument, its output slot, whether it is null, and whether
    there is a value to send. *)
Record argument := mkArgument { argValue : goAny; argDest : option nat; argNull : bool; hasInputValue : bool }.

Definition destinationNil : goerror := EText "sql.Out destination must not be nil" [].

Definition argumentOf (parameterType : Z) (i : Z) (value : goAny) : outcome argument :=
  match value with
  | GoOut dest isIn held =>
      match dest with
      | DestNil => bindingError i "sql.Out" (Fail destinationNil)
      | DestNotPointer => bindingError i "sql.Out" (Fail (EText "sql.Out destination must be a pointer" []))
      | DestPointer slot isNilPointer =>
          if parameterType =? 0xF0 then bindingError i "sql.Out mode" (Fail EBindingUnsupported)
          else if parameterType =? 0xF1 then Ret (mkArgument (Native VNil) (Some slot) false false)
          else if parameterType =? 0xF2 then
            if isIn then
              if isNilPointer then bindingError i "sql.Out" (Fail destinationNil)
              else Ret (mkArgument held (Some slot) false true)
            else Ret (mkArgument (Native VNil) (Some slot) true false)
          else Ret (mkArgument value (Some slot) false true)
      end
  | value => Ret (mkArgument value None false true)
  end.

Definition bindingOf (f : parameterMarkerField) (i : Z) (value : goAny) (bs : bidiOptions) : outcome parameterBinding :=
  let parameterType := ParameterType f mod 256 in
  if negb (existsb (Z.eqb parameterType) [0x00; 0xF0; 0xF1; 0xF2])
  then bindingError i "parameter mode" (Fail EBindingUnsupported)
  else
    arg ← argumentOf parameterType i value;
    if isLOBParameterField f then
      '(raw, lobWrite) ← bindingError i "LOB parameter"
        (encodeLOBParameterValue f (argValue arg) (hasInputValue arg) (argNull arg) bs);
      Ret (mkBinding f raw (argNull arg || (hasInputValue arg && isNilValue (argValue arg))) (argDest arg) lobWrite)
    else
      normalized ← (if hasInputValue arg && negb (argNull arg)
                    then bindingError i "parameter conversion" (ConvertValue (argValue arg)) else Ret VNil);
      let isNilNow := argNull arg || match normalized with VNil => true | _ => false end in
      raw ← bindingError i "parameter encoding" (encodeParameterValue f normalized isNilNow bs);
      Ret (mkBinding f raw (if hasInputValue arg then isNilNow else false) (argDest arg) None).

Fixpoint bindAll (i : Z) (fields : list parameterMarkerField) (args : list NamedValue) (bs : bidiOptions)
    : outcome (list parameterBinding) :=
  match fields, args with
  | f :: fields', arg :: args' =>
      binding ← bindingOf f i (Value arg) bs;
      rest ← bindAll (i + 1) fields' args' bs;
      Ret (binding :: rest)
  | _, _ => Ret []
  end.

Definition buildParameterBindingsWithBidi (format : option parameterMarkerFormat) (args : list NamedValue)
    (bs : bidiOptions) : outcome (list parameterBinding) :=
  if len args =? 0 then Ret []
  else
    match format with
    | None => Fail EBindingUnsupported
    | Some format =>
        if len (Fields format) =? 0 then Fail EBindingUnsupported
        else if negb (len args =? len (Fields format))
        then Fail (EText "parameter count mismatch" [len args; len (Fields format)])
        else bindAll 0 (Fields format) args bs
    end.
End Encoding.

(** ** Output parameters as columns *)

Definition parameterFieldResultLength (f : parameterMarkerField) : Z :=
  if isLOBParameterField f && (0 <? LOBLocator f) then 4 else parameterFieldNullLength f.

Definition parameterFieldResultColumnMeta (f : parameterMarkerField) (offset length : Z) : columnMeta :=
  let typ := parameterFieldDB2Type f in
  let colType :=
    if 0 <? LOBLocator f then
      if typ =? db2TypeBlob then db2TypeBlobLocator
      else if typ =? db2TypeClob then db2TypeClobLocator
      else if typ =? db2TypeDbclob then db2TypeDbclobLocator
      else if typ =? db2TypeXML then db2TypeXMLLocator
      else SQLType f
    else SQLType f in
  withDecoding colType length (Format.Scale f) (Format.Precision f) (Format.CCSID f) offset (LOBMaxSize f).

(** * Lemmas *)

(** ** What a parameter comes back as

    The value of a column that holds what was sent for a parameter, from the
    conversions of the value alone. *)
Section Received.
Context `{TableFS} `{BidiText} `{FloatText} `{Sprint}.

Definition booleanOf (value : driverValue) : outcome bool :=
  match value with
  | VBool b => Ret b
  | VInt64 n => Ret (negb (n =? 0))
  | VString s => parseBooleanString s
  | _ => Fail EBindingUnsupported
  end.

(** Text at its full length, padded with the blanks of its CCSID. *)
Definition padded (f : parameterMarkerField) (raw : bytes) : outcome bytes :=
  if FieldLength f <=? 0 then Ret raw else fitTextBytesToLength raw (FieldLength f) (Format.CCSID f).

(** The text of a DECFLOAT value. *)
Definition decfloatText (value : driverValue) : outcome bytes :=
  match value with VFloat64 bits => Ret (formatFloatG bits) | v => parameterFieldDecimalString v end.

(** The data of a large object as a value, and the bytes of a unit of its length. *)
Definition lobReceived (f : parameterMarkerField) (data : bytes) (bs : bidiOptions) : outcome driverValue :=
  if (parameterFieldDB2Type f =? db2TypeBlob) || (Format.CCSID f =? 65535) then Ret (VBytes data)
  else
    text ← decodeTextWithBidi data (Format.CCSID f) bs;
    Ret (VString (if parameterFieldDB2Type f =? db2TypeXML then trimPrefix text byteOrderMark else text)).
Definition lobUnit (f : parameterMarkerField) : Z := if parameterFieldDB2Type f =? db2TypeDbclob then 2 else 1.

Definition received (f : parameterMarkerField) (value : driverValue) (bs : bidiOptions) : outcome driverValue :=
  let typ := parameterFieldDB2Type f in
  let text := parameterFieldValueString value in
  let id := Format.CCSID f in
  if oneOfTypes typ [db2TypeBigint; db2TypeInteger; db2TypeSmallint] then VInt64 <$> parameterFieldInt64 value
  else if typ =? db2TypeFloatingPoint then
    (fun bits => VFloat64 (if FieldLength f =? 4 then float64Of (float32Of bits) else bits)) <$> parameterFieldFloat64 value
  else if typ =? db2TypeBoolean then VBool <$> booleanOf value
  else if oneOfTypes typ [db2TypeVarbinary; db2TypeRowID] then VBytes <$> parameterFieldBinaryBytes value
  else if typ =? db2TypeBinary then
    (fun data => VBytes (fitBytesToLength data (FieldLength f) 0)) <$> parameterFieldBinaryBytes value
  else if oneOfTypes typ [db2TypeVarchar; db2TypeLongVarchar; db2TypeDatalink] then
    encoded ← encodeTextWithBidi text id bs; VString <$> decodeTextWithBidi encoded id bs
  else if oneOfTypes typ [db2TypeVarGraphic; db2TypeLongVarGraphic] then
    encoded ← encodeTextBytes text id; VString <$> decodeTextByCCSID encoded id
  else if oneOfTypes typ [db2TypeDecimal; db2TypeNumeric] then
    text ← parameterFieldDecimalString value; VString <$> storedDecimal text f
  else if typ =? db2TypeDecfloat then
    size ← decfloatParameterSize f; text ← decfloatText value; VString <$> storedDecfloat text size
  else if isLOBParameterField f then
    '(data, length) ← lobDataOf f (Native value) bs; lobReceived f (sub data 0 (lobUnit f * length)) bs
  else if typ =? db2TypeChar then
    encoded ← encodeTextWithBidi text id bs; data ← padded f encoded; VString <$> decodeTextWithBidi data id bs
  else
    encoded ← encodeTextWithBidi text id bs; data ← padded f encoded; VString <$> decodeTextByCCSID data id.
End Received.

(** The types [received] is about, large objects apart. *)
Definition plainTypes : list Z :=
  [db2TypeBigint; db2TypeInteger; db2TypeSmallint; db2TypeFloatingPoint; db2TypeBoolean; db2TypeVarbinary; db2TypeRowID;
   db2TypeBinary; db2TypeVarchar; db2TypeLongVarchar; db2TypeDatalink; db2TypeVarGraphic; db2TypeLongVarGraphic;
   db2TypeChar; db2TypeGraphic; db2TypeDecimal; db2TypeNumeric; db2TypeDecfloat].
Definition lobTypes : list Z := [db2TypeBlob; db2TypeClob; db2TypeDbclob; db2TypeXML].

(** The types whose data is behind its length, so that more may follow it. *)
Definition varyingTypes : list Z :=
  [db2TypeVarbinary; db2TypeRowID; db2TypeVarchar; db2TypeLongVarchar; db2TypeDatalink; db2TypeVarGraphic;
   db2TypeLongVarGraphic].

(** The width of an integer type. *)
Definition integerWidth (typ : Z) : Z :=
  if typ =? db2TypeBigint then 8 else if typ =? db2TypeInteger then 4 else if typ =? db2TypeSmallint then 2 else 0.

Section Roundtrip.
Context `{TableFS} `{BidiText} `{FloatText} `{Sprint}.

(** The column that holds the bytes of a parameter. *)
Definition columnOf (f : parameterMarkerField) (raw : bytes) : columnMeta := parameterFieldResultColumnMeta f 0 (len raw).

Lemma columnOf_type f raw : LOBLocator f <= 0 -> db2Type (columnOf f raw) = parameterFieldDB2Type f.
Proof. intros Hl. unfold columnOf, parameterFieldResultColumnMeta. by rewrite (proj2 (Z.ltb_ge 0 _)) by lia. Qed.

Lemma whole_column f raw : columnBytes (columnOf f raw) raw = Ret raw.
Proof.
  unfold columnBytes. cbn [columnOf parameterFieldResultColumnMeta withDecoding colOffset colLength].
  pose proof (len_nonneg raw). rewrite (proj2 (Z.ltb_ge (len raw) 0)), (proj2 (Z.ltb_ge (len raw) (0 + len raw))) by lia.
  rewrite slice_ok by lia. by rewrite sub_all by lia.
Qed.

Lemma decode_whole f raw dt bs :
  LOBLocator f <= 0 -> parameterFieldDB2Type f ∈ plainTypes ->
  decodeColumnValueWithBidi (columnOf f raw) raw dt bs = decodeRaw (columnOf f raw) raw dt bs.
Proof.
  intros Hl Ht. unfold decodeColumnValueWithBidi. rewrite whole_column. cbn [mbind outcome_bind].
  unfold inlineLOBColumnData. rewrite columnOf_type by done.
  assert (existsb (Z.eqb (parameterFieldDB2Type f)) [db2TypeBlob; db2TypeClob; db2TypeDbclob] = false) as ->; [|done].
  revert Ht. unfold plainTypes. rewrite !elem_of_cons, elem_of_nil. intros Ht.
  repeat destruct Ht as [->|Ht]; done.
Qed.

Lemma decode_integer w raw n :
  0 < w -> len raw = w -> unbe raw = n mod 2 ^ (8 * w) -> - 2 ^ (8 * w - 1) <= n < 2 ^ (8 * w - 1) ->
  decodeIntegerColumn w raw = Ret (VInt64 n).
Proof.
  intros Hw Hl Hu Hn. unfold decodeIntegerColumn. rewrite (proj2 (Z.ltb_ge (len raw) w)), sub_all, Hu by lia.
  change (n mod 2 ^ (8 * w)) with (wrapu (8 * w) n). by rewrite wraps_wrapu, wraps_id by lia.
Qed.

Lemma integer_roundtrip w name value f raw :
  0 < w -> (FieldLength f <= 0 -> parameterFieldNullLength f = w) -> FieldLength f <= w ->
  encodeIntegerOf w name value f = Ret raw ->
  exists n, parameterFieldInt64 value = Ret n /\ - 2 ^ (8 * w - 1) <= n < 2 ^ (8 * w - 1) /\
    decodeIntegerColumn w raw = Ret (VInt64 n).
Proof.
  intros Hw Hn Hf. unfold encodeIntegerOf. destruct (parameterFieldInt64 value) as [n|e|]; cbn [worded mbind outcome_bind]; [|done|done].
  destruct (Z.ltb_spec n (- 2 ^ (8 * w - 1))) as [|Hlo], (Z.ltb_spec (2 ^ (8 * w - 1) - 1) n) as [|Hhi]; cbn [orb]; try done.
  intros <-%Ret_inj. exists n. split; [done|]. split; [lia|].
  replace (Z.max (parameterFieldNullLength f) w) with w.
  - rewrite Z.sub_diag. apply decode_integer; [done|by rewrite app_nil_l, len_be, Z2Nat.id by lia| |lia].
    by rewrite app_nil_l, unbe_be, Z2Nat.id by lia.
  - destruct (Z.leb_spec (FieldLength f) 0) as [Hf0|Hf0]; [rewrite Hn by done; lia|].
    unfold parameterFieldNullLength. rewrite (proj2 (Z.ltb_lt 0 _)) by lia. lia.
Qed.

(** The data behind a length prefix. *)
Lemma varying_roundtrip unit data f raw pad :
  0 < unit -> len data mod unit = 0 -> lengthPrefixed unit data f = Ret raw ->
  2 <= len (raw ++ pad) /\ varyingData unit (raw ++ pad) = data.
Proof.
  intros Hu Hm. unfold lengthPrefixed. case_match; [done|]. case_match eqn:Hl; [done|]. intros <-%Ret_inj. apply Z.ltb_ge in Hl.
  pose proof (len_nonneg data). pose proof (len_nonneg pad). pose proof (Z.div_pos (len data) unit ltac:(lia) Hu).
  rewrite <- app_assoc, !len_app, (len_be 2). split; [lia|]. unfold varyingData.
  rewrite sub_app_l by by rewrite (len_be 2). rewrite (unbe_be 2), Z.mod_small by lia.
  pose proof (Z.div_mod (len data) unit ltac:(lia)).
  rewrite !len_app, (len_be 2), Z.min_l by lia. rewrite sub_app_r by by rewrite (len_be 2).
  rewrite (len_be 2). by rewrite sub_app_l by lia.
Qed.
End Roundtrip.

Section Received_proof.
Context `{TableFS} `{BidiText} `{FloatText} `{Sprint}.

Lemma worded_Ret {A} value name (m : outcome A) a : worded value name m = Ret a -> m = Ret a.
Proof. by destruct m. Qed.

Lemma float_bits value bits :
  (forall b, value = VFloat64 b -> 0 <= b < 2 ^ 64) -> parameterFieldFloat64 value = Ret bits -> 0 <= bits < 2 ^ 64.
Proof.
  intros Hv. destruct value as [|n|b|b|s|s|t]; cbn; try done.
  - intros [= <-]. apply float64OfInt_range.
  - intros [= <-]. by apply Hv.
  - intros [= <-]. apply float64OfInt_range.
  - apply parseFloat_range.
  - apply parseFloat_range.
Qed.

Lemma float_roundtrip value f raw :
  (forall b, value = VFloat64 b -> 0 <= b < 2 ^ 64) -> encodeFloatingPointParameter value f = Ret raw ->
  decodeFloatColumn raw =
  ((fun bits => VFloat64 (if FieldLength f =? 4 then float64Of (float32Of bits) else bits)) <$> parameterFieldFloat64 value).
Proof.
  intros Hv. unfold encodeFloatingPointParameter. intros (bits & E & <-%Ret_inj)%bind_Ret. apply worded_Ret in E. rewrite E.
  cbn [fmap outcome_fmap]. apply float_bits in E; [|done]. unfold decodeFloatColumn. destruct (FieldLength f =? 4).
  - rewrite (len_be 4), (unbe_be 4). cbn [Z.eqb Z.of_nat Pos.of_succ_nat Pos.succ Pos.eqb].
    by rewrite Z.mod_small by apply float32Of_range.
  - rewrite (len_be 8). cbn [Z.eqb Z.leb Z.of_nat Pos.of_succ_nat Pos.succ Pos.eqb Z.compare Pos.compare Pos.compare_cont].
    by rewrite sub_all, (unbe_be 8), Z.mod_small by done.
Qed.

Lemma boolean_roundtrip value raw :
  encodeBooleanParameter value = Ret raw -> decodeBooleanValue raw = VBool <$> booleanOf value.
Proof. unfold encodeBooleanParameter. change (match value with VBool b => _ | _ => _ end) with (booleanOf value). intros (b & -> & [= <-])%bind_Ret. by destruct b. Qed.

(** A decoder of data behind a length. *)
Lemma varying_decoded {B} unit (m : outcome bytes) f raw pad (none : B) (g : bytes -> B) :
  0 < unit -> (forall data, m = Ret data -> len data mod unit = 0) ->
  m ≫= (fun data => lengthPrefixed unit data f) = Ret raw ->
  exists data, m = Ret data /\ (if len (raw ++ pad) <? 2 then none else g (varyingData unit (raw ++ pad))) = g data.
Proof.
  intros Hu Hm (data & E & Hl)%bind_Ret. apply (varying_roundtrip _ _ _ _ pad) in Hl as [Hr Hd]; [|done|by apply Hm].
  exists data. by rewrite (proj2 (Z.ltb_ge (len (raw ++ pad)) 2)), Hd by done.
Qed.

Lemma varchar_roundtrip value f bs raw pad :
  encodeVarcharParameter value f bs = Ret raw ->
  (if len (raw ++ pad) <? 2 then Ret (VString [])
   else VString <$> decodeTextWithBidi (varyingData 1 (raw ++ pad)) (Format.CCSID f) bs) =
  encoded ← encodeTextWithBidi (parameterFieldValueString value) (Format.CCSID f) bs;
  VString <$> decodeTextWithBidi encoded (Format.CCSID f) bs.
Proof.
  intros (data & -> & E)%(varying_decoded 1 _ _ _ pad (Ret (VString [])) (fun d => VString <$> decodeTextWithBidi d (Format.CCSID f) bs));
    [done|done|intros; apply Z.mod_1_r].
Qed.

Lemma vargraphic_roundtrip value f raw pad :
  encodeVarGraphicParameter value f = Ret raw ->
  (if len (raw ++ pad) <? 2 then Ret (VString [])
   else VString <$> decodeTextByCCSID (varyingData 2 (raw ++ pad)) (Format.CCSID f)) =
  encoded ← encodeTextBytes (parameterFieldValueString value) (Format.CCSID f);
  VString <$> decodeTextByCCSID encoded (Format.CCSID f).
Proof.
  unfold encodeVarGraphicParameter. intros (data & -> & E)%bind_Ret. destruct (len data mod 2 =? 0) eqn:Hm; [|done].
  apply Z.eqb_eq in Hm. apply (varying_decoded 2 (Ret data) _ _ pad (Ret (VString []))
    (fun d => VString <$> decodeTextByCCSID d (Format.CCSID f))) in E as (d & [= <-] & E); [done|done|by intros ? [= <-]].
Qed.

Lemma varbinary_roundtrip value f raw pad :
  encodeVarbinaryParameter value f = Ret raw ->
  Ret (VBytes (if len (raw ++ pad) <? 2 then [] else varyingData 1 (raw ++ pad))) = VBytes <$> parameterFieldBinaryBytes value.
Proof.
  intros (data & -> & Hd)%(varying_decoded 1 _ _ _ pad [] id); [by unfold id in Hd; rewrite Hd|done|intros; apply Z.mod_1_r].
Qed.

Lemma fixed_text_roundtrip text f bs raw :
  encodeFixedTextBytes text f bs = Ret raw ->
  exists encoded, encodeTextWithBidi text (Format.CCSID f) bs = Ret encoded /\ padded f encoded = Ret raw.
Proof.
  unfold encodeFixedTextBytes, padded. intros (encoded & -> & E)%bind_Ret. exists encoded. split; [done|].
  destruct (FieldLength f <=? 0); [done|]. by destruct (FieldLength f <? len encoded).
Qed.
End Received_proof.

(** The field of an integer is not longer than its type, a float64 argument is
    64 bits, a decimal field is wide enough for its precision, the exponent of a
    DECFLOAT is within 2^62 of zero, and the sizes of a large object are those of
    32-bit fields. *)
Definition parameter_ok `{FloatText} (f : parameterMarkerField) (value : driverValue) : Prop :=
  (isLOBParameterField f = false -> LOBLocator f <= 0) /\ value <> VNil /\
  (forall bits, value = VFloat64 bits -> 0 <= bits < 2 ^ 64) /\
  (0 < integerWidth (parameterFieldDB2Type f) -> FieldLength f <= integerWidth (parameterFieldDB2Type f)) /\
  (parameterFieldDB2Type f = db2TypeDecimal -> field_fits true f) /\
  (parameterFieldDB2Type f = db2TypeNumeric -> field_fits false f) /\
  (parameterFieldDB2Type f = db2TypeDecfloat -> forall text v,
     decfloatText value = Ret text -> parseDecfloatText text = Ret v -> decfloat_small v) /\
  (isLOBParameterField f = true -> FieldLength f < 2 ^ 32 /\ LOBMaxSize f < 2 ^ 32).

Lemma plain_is_no_lob f : parameterFieldDB2Type f ∈ plainTypes -> isLOBParameterField f = false.
Proof.
  unfold plainTypes, isLOBParameterField. rewrite !elem_of_cons, elem_of_nil. intros Ht.
  repeat destruct Ht as [Ht|Ht]; try done; by rewrite Ht.
Qed.

Section Received_raw.
Context `{TableFS} `{BidiText} `{FloatText} `{Sprint}.

Lemma decfloat_size f size : decfloatParameterSize f = Ret size -> size = 8 \/ size = 16.
Proof.
  unfold decfloatParameterSize. destruct (Z.eqb_spec (FieldLength f) 8), (Z.eqb_spec (FieldLength f) 16); cbn [orb].
  4: case_match; [|done].
  all: intros <-%Ret_inj; try case_match; auto.
Qed.

Lemma decfloat_value_roundtrip f value raw :
  (forall text v, decfloatText value = Ret text -> parseDecfloatText text = Ret v -> decfloat_small v) ->
  encodeDecfloatParameter value f = Ret raw ->
  decodeDecfloatColumn raw =
  (size ← decfloatParameterSize f; text ← decfloatText value; VString <$> storedDecfloat text size).
Proof.
  intros Hsmall. unfold encodeDecfloatParameter. fold (decfloatText value).
  intros (size & Hsize & (text & Htext & E)%bind_Ret)%bind_Ret. rewrite Hsize, Htext. cbn [mbind outcome_bind].
  assert (encodeDecfloat text size = Ret raw) as E' by by destruct (parseDecfloatText text).
  apply decfloat_size in Hsize. apply encoded_decfloat_decodes in E' as [Hl <-]; [|done|by intros v; apply Hsmall].
  unfold decodeDecfloatColumn. rewrite Hl. by destruct Hsize as [-> | ->].
Qed.

Lemma received_raw f value bs dt raw pad :
  parameterFieldDB2Type f ∈ plainTypes -> parameter_ok f value ->
  encodeParameterValue f value false bs = Ret raw ->
  (oneOfTypes (parameterFieldDB2Type f) varyingTypes = false -> pad = []) ->
  decodeRaw (columnOf f (raw ++ pad)) (raw ++ pad) dt bs = received f value bs.
Proof.
  intros Ht (Hl & Hn & Hf & Hw & Hdec & Hnum & Hflt & _) E Hp. specialize (Hl (plain_is_no_lob f Ht)). revert E. unfold encodeParameterValue.
  replace (false || match value with VNil => true | _ => false end) with false by by destruct value.
  unfold decodeRaw, received, isLOBParameterField. rewrite columnOf_type by done.
  change (colCCSID (columnOf f (raw ++ pad))) with (Format.CCSID f).
  unfold plainTypes in Ht. rewrite !elem_of_cons, elem_of_nil in Ht.
  repeat destruct Ht as [Ht|Ht]; try done; rewrite Ht in Hp; cbn in Hp;
    try (rewrite Hp, app_nil_r by done); clear Hp; known_type Ht;
    try apply varchar_roundtrip; try apply vargraphic_roundtrip; try apply varbinary_roundtrip;
    try (intros (encoded & -> & E)%fixed_text_roundtrip; cbn [mbind outcome_bind]; rewrite E; done).
  1-3: intros (n & -> & _ & ->)%integer_roundtrip; [done|done| |]; rewrite Ht in Hw;
    [intros Hz; unfold parameterFieldNullLength; rewrite (proj2 (Z.ltb_ge 0 _)) by lia; known_type Ht; done|by apply Hw].
  - by intros ->%float_roundtrip.
  - by intros ->%boolean_roundtrip.
  - by intros (data & -> & <-%Ret_inj)%bind_Ret.
  - intros (text & -> & E)%bind_Ret. apply worded_Ret, (encoded_decimal_decodes true) in E; [|by apply Hdec].
    cbn [mbind outcome_bind]. by rewrite <- E.
  - intros (text & -> & E)%bind_Ret. apply worded_Ret, (encoded_decimal_decodes false) in E; [|by apply Hnum].
    cbn [mbind outcome_bind]. by rewrite <- E.
  - by apply decfloat_value_roundtrip, Hflt.
Qed.

Lemma plain_locator f value : parameterFieldDB2Type f ∈ plainTypes -> parameter_ok f value -> LOBLocator f <= 0.
Proof. intros Ht Hok. by apply Hok, plain_is_no_lob. Qed.

Lemma plain_roundtrip f value bs dt raw pad :
  parameterFieldDB2Type f ∈ plainTypes -> parameter_ok f value ->
  encodeParameterValue f value false bs = Ret raw ->
  (oneOfTypes (parameterFieldDB2Type f) varyingTypes = false -> pad = []) ->
  decodeColumnValueWithBidi (columnOf f (raw ++ pad)) (raw ++ pad) dt bs = received f value bs.
Proof.
  intros Ht Hok E Hp. rewrite decode_whole by (done || by eapply plain_locator). by apply received_raw.
Qed.

(** ** Large objects *)

Lemma lobDataOf_length f value bs data length :
  lobDataOf f value bs = Ret (data, length) -> 0 <= length <= len data /\ lobUnit f * length <= len data.
Proof.
  unfold lobDataOf, lobUnit. destruct (Z.eqb_spec (parameterFieldDB2Type f) db2TypeBlob) as [E|E].
  - rewrite E. intros (d & _ & [= <- <-])%bind_Ret. cbn. pose proof (len_nonneg d). lia.
  - intros (d & _ & [= <- <-])%bind_Ret. pose proof (len_nonneg d).
    destruct (_ =? db2TypeDbclob); [|lia]. split; [|Z.div_mod_to_equations; lia].
    split; [apply Z.div_pos; lia|apply Z.div_le_upper_bound; lia].
Qed.

(** The bytes of an inline large object: its length, its data and zeros. *)
Lemma inline_lob_bytes f value bs raw :
  isNilValue value = false -> encodeInlineLOBParameterValue f value true false bs = Ret raw ->
  exists data length rest, lobDataOf f value bs = Ret (data, length) /\ raw = be32 length ++ data ++ rest /\
    len raw = if FieldLength f <=? 0 then LOBMaxSize f + 4 else FieldLength f.
Proof.
  intros Hn. unfold encodeInlineLOBParameterValue. rewrite Hn. cbn [negb orb].
  set (size := if FieldLength f <=? 0 then _ else _).
  intros ([data length] & -> & E)%bind_Ret. revert E.
  destruct (Z.ltb_spec (size - 4) (len data)) as [|Hl]; [done|]. destruct (Z.ltb_spec size 4) as [|H4]; [done|].
  intros <-%Ret_inj. eexists data, length, _. split; [done|]. unfold copyInto.
  assert (len (be32 length ++ data) = 4 + len data) as Hs by by rewrite len_app, (len_be 4).
  assert (len (replicate (Z.to_nat size) 0) = size) as Hz by by rewrite len_replicate, Z2Nat.id by lia.
  assert ((List.length (be32 length ++ data) <= List.length (replicate (Z.to_nat size) 0%Z))%nat) as Hle
    by (unfold len in *; lia).
  rewrite take_ge by done. split; [by rewrite <- app_assoc|].
  rewrite len_app. unfold len in *. rewrite length_drop. lia.
Qed.

Lemma inline_lob_roundtrip f value bs dt raw :
  isInlineLOBParameterField f = true -> isNilValue value = false -> FieldLength f < 2 ^ 32 -> LOBMaxSize f < 2 ^ 32 ->
  encodeInlineLOBParameterValue f value true false bs = Ret raw ->
  decodeColumnValueWithBidi (columnOf f raw) raw dt bs =
  ('(data, length) ← lobDataOf f value bs; lobReceived f (sub data 0 (lobUnit f * length)) bs).
Proof.
  intros Hi Hn Hf Hm E. destruct (inline_lob_bytes f value bs raw Hn E) as (data & length & rest & Hd & Hraw & Hlen).
  rewrite Hd. cbn [mbind outcome_bind]. destruct (lobDataOf_length _ _ _ _ _ Hd) as [Hl Hu].
  assert (len raw = 4 + len data + len rest) as Hr by (rewrite Hraw, !len_app, (len_be 4); lia).
  pose proof (len_nonneg data). pose proof (len_nonneg rest).
  assert (length < 2 ^ 32) as Hl32 by (change (2 ^ 32) with 4294967296 in *; case_match; lia).
  assert (LOBLocator f <= 0 /\ parameterFieldDB2Type f ∈ [db2TypeBlob; db2TypeClob; db2TypeDbclob]) as [Hloc Ht].
  { unfold isInlineLOBParameterField in Hi. destruct ((0 <? _) || _) eqn:Hc; [done|]. apply orb_false_iff in Hc as [Hc _].
    apply Z.ltb_ge in Hc. split; [done|]. apply existsb_exists in Hi as (t & Ht & ->%Z.eqb_eq). by apply list_elem_of_In. }
  unfold decodeColumnValueWithBidi. rewrite whole_column. cbn [mbind outcome_bind]. unfold inlineLOBColumnData.
  rewrite columnOf_type by done.
  assert (existsb (Z.eqb (parameterFieldDB2Type f)) [db2TypeBlob; db2TypeClob; db2TypeDbclob] = true) as ->
    by (apply existsb_exists; exists (parameterFieldDB2Type f); split; [by apply list_elem_of_In|apply Z.eqb_refl]).
  cbn [negb]. rewrite (proj2 (Z.ltb_ge (len raw) 4)) by lia.
  assert (unbe (sub raw 0 4) = length) as ->.
  { rewrite Hraw, sub_app_l by by rewrite (len_be 4). rewrite (unbe_be 4). apply Z.mod_small.
    by change (8 * Z.of_nat 4) with 32; lia. }
  assert ((if parameterFieldDB2Type f =? db2TypeDbclob then length * 2 else length) = lobUnit f * length) as ->
    by (unfold lobUnit; destruct (parameterFieldDB2Type f =? db2TypeDbclob); lia).
  assert (0 <= lobUnit f * length) by (unfold lobUnit; destruct (parameterFieldDB2Type f =? db2TypeDbclob); lia).
  rewrite (proj2 (Z.ltb_ge (lobUnit f * length) 0)), (proj2 (Z.ltb_ge (len raw - 4) _)) by lia. cbn [orb].
  rewrite slice_ok by lia. cbn [mbind outcome_bind].
  replace (4 + lobUnit f * length - 4) with (lobUnit f * length) by lia.
  assert (sub raw 4 (lobUnit f * length) = sub data 0 (lobUnit f * length)) as ->.
  { rewrite Hraw, sub_app_r by by rewrite (len_be 4). rewrite (len_be 4). change (4 - Z.of_nat 4) with 0.
    unfold sub. rewrite !drop_0. apply take_app_le. unfold len in *. lia. }
  unfold decodeRaw, lobReceived, decodeLobTextValueWithBidi. rewrite columnOf_type by done.
  change (colCCSID (columnOf f raw)) with (Format.CCSID f). unfold lobUnit.
  rewrite !elem_of_cons, elem_of_nil in Ht. repeat destruct Ht as [Ht|Ht]; try done; known_type Ht; done.
Qed.

Lemma received_lob f v bs : isLOBParameterField f = true ->
  received f v bs = ('(data, length) ← lobDataOf f (Native v) bs; lobReceived f (sub data 0 (lobUnit f * length)) bs).
Proof.
  intros Hl. unfold received. rewrite Hl. revert Hl. unfold isLOBParameterField. intros (t & Ht & E%Z.eqb_eq)%existsb_exists.
  rewrite E. cbn in Ht. by repeat destruct Ht as [<-|Ht].
Qed.

Lemma lob_not_varying f : isLOBParameterField f = true -> oneOfTypes (parameterFieldDB2Type f) varyingTypes = false.
Proof.
  unfold isLOBParameterField. intros (t & Ht & E%Z.eqb_eq)%existsb_exists. rewrite E. cbn in Ht.
  by repeat destruct Ht as [<-|Ht].
Qed.

Lemma no_lob_is_plain f :
  parameterFieldDB2Type f ∈ plainTypes ++ lobTypes -> isLOBParameterField f = false -> parameterFieldDB2Type f ∈ plainTypes.
Proof.
  intros [?|Hl]%elem_of_app Hn; [done|]. unfold isLOBParameterField, oneOfTypes in Hn.
  rewrite <- not_true_iff_false in Hn. destruct Hn. apply existsb_exists. exists (parameterFieldDB2Type f).
  split; [by apply list_elem_of_In|apply Z.eqb_refl].
Qed.

Lemma not_nil v : v <> VNil -> isNilValue (Native v) = false /\ (match v with VNil => true | _ => false end) = false.
Proof. by destruct v. Qed.

Lemma bindingError_Ret {A} i op (m : outcome A) a : bindingError i op m = Ret a -> m = Ret a.
Proof. by destruct m. Qed.

(** A large object, inline or behind its locator. *)
Lemma lob_binding f v bs dt raw w :
  parameter_ok f v -> isLOBParameterField f = true -> encodeLOBParameterValue f (Native v) true false bs = Ret (raw, w) ->
  (is_Some w <-> 0 < LOBLocator f) /\
  match w with
  | None => decodeColumnValueWithBidi (columnOf f raw) raw dt bs = received f v bs
  | Some w =>
      raw = be32 (LOBLocator f) /\ locatorHandle w = u32 (LOBLocator f) /\
      lobReceived f (sub (lobData w) 0 (lobUnit f * requestedSize w)) bs = received f v bs
  end.
Proof.
  intros (_ & Hv & _ & _ & _ & _ & _ & Hsize) Hl. destruct (not_nil v Hv) as [Hn _]. rewrite received_lob by done.
  unfold encodeLOBParameterValue. rewrite Hn. cbn [negb orb]. destruct (Z.leb_spec (LOBLocator f) 0) as [Hloc|Hloc].
  - destruct (isInlineLOBParameterField f) eqn:Hi; [|done]. intros (r & E & [= <- <-])%bind_Ret.
    split; [split; [by intros []|lia]|]. by apply inline_lob_roundtrip; try apply Hsize.
  - intros ([data length] & -> & [= <- <-])%bind_Ret. split; [split; [done|by eexists]|]. done.
Qed.
End Received_raw.

(** * Properties *)

Section Properties.
Context `{TableFS} `{BidiText} `{FloatText} `{Sprint}.

End Properties.

Section Examples.
#[local] Instance noLayout : BidiText := Build_BidiText (fun units _ _ => Ret units) (fun units _ _ => Ret units).
#[local] Instance noSprint : Sprint := Build_Sprint (fun _ => []).
#[local] Existing Instances sampleTables noFloatText.

(** A DBCLOB value of an odd number of bytes is sent with half that many
    characters, so its last byte is lost without an error; a VARGRAPHIC value is
    refused. *)
Example odd_dbclob_is_cut :
  let f typ := mkField [] typ 12 0 0 37 0 0 8 in
  encodeLOBParameterValue (f 412) (Native (VString (lit "abc"))) true false defaultBidiSettings =
    Ret ([0; 0; 0; 1] ++ lit "abc" ++ [0; 0; 0; 0; 0], None) /\
  encodeParameterValue (f 464) (VString (lit "abc")) false defaultBidiSettings =
    Fail (EText "graphic parameter must encode to an even number of bytes" []).
Proof. by vm_compute. Qed.

(** A BINARY value that is too long loses its last bytes without an error; a
    VARBINARY value is refused. *)
Example long_binary_is_cut :
  encodeParameterValue (mkField [] 912 2 0 0 65535 0 0 0) (VBytes [1; 2; 3]) false defaultBidiSettings = Ret [1; 2] /\
  encodeParameterValue (mkField [] 908 4 0 0 65535 0 0 0) (VBytes [1; 2; 3]) false defaultBidiSettings = Fail valueTooLong.
Proof. by vm_compute. Qed.

(** An INOUT parameter without an input value is sent as zeros and not null, a
    LOB one as null. *)
Example inout_without_input :
  let nothing := GoOut (DestPointer 0 false) false (Native VNil) in
  let sent f := match bindingOf f 0 nothing defaultBidiSettings with Ret b => Some (isNull b, raw b) | _ => None end in
  sent (mkField [] 496 4 0 0 0 0xF2 0 0) = Some (false, [0; 0; 0; 0]) /\
  sent (mkField [] 404 4 0 0 0 0xF2 7 0) = Some (true, [0; 0; 0; 7]).
Proof. by vm_compute. Qed.

(** 'ab' for a VARCHAR(8) of CCSID 37, with two bytes behind it; -0.0599 for a
    DECIMAL(5, 2); and two bytes for a BLOB with the locator 7. *)
Definition varcharField : parameterMarkerField := mkField (lit "NAME") 449 10 0 0 37 0 0 0.
Definition decimalField : parameterMarkerField := mkField [] 485 0 2 5 0 0 0 0.
Definition blobField : parameterMarkerField := mkField [] 405 0 0 0 65535 0 7 100.

Lemma sample_fields_ok :
  parameter_ok varcharField (VString (lit "ab")) /\ parameter_ok decimalField (VString (lit "-0.0599")) /\
  parameter_ok blobField (VBytes [1; 2]).
Proof.
  unfold parameter_ok, field_fits. split_and!; first [done | by intros E; vm_compute in E | intros _; cbn; lia | by vm_compute].
Defined.

End Examples.
