(* ===== verification/Package.v ===== *)
(** Extended dynamic support: the per-connection package state of package.go,
    the rule that decides which statements are packaged, the package name, and
    the downloaded package of package_cache.go.

    Case conversion is that of [GoStrings.toUpper]: package names and keywords
    are ASCII. *)
From Stdlib Require Import Strings.String.
From stdpp Require Import base list numbers strings gmap.
From S2P Require Import Prelude GoStrings Utf Ccsid Wire Reply Format Request Config.
Open Scope Z_scope.

Definition packageReturnAlreadyExists : Z := -601.
Definition packageReturnDefaultCollection : Z := -999999.
Definition packageInfoHeaderLength : Z := 42.
Definition packageInfoEntryLength : Z := 64.
Definition sqldaHeaderLength : Z := 16.
Definition sqldaFieldLength : Z := 80.

(** ** The package name *)

Definition packageSuffixInvariant : bytes := lit "9876543210ZYXWVUTSRQPONMLKJIHGFEDCBA".

(** Commit mode *RR does not fit its two bits: the date separator makes room. *)
Definition suffixModes (commitMode dateSeparator : Z) : Z * Z :=
  if commitMode =? 4 then
    if existsb (Z.eqb dateSeparator) [0; 1; 2] then (dateSeparator, 6)
    else if existsb (Z.eqb dateSeparator) [3; 4] then (dateSeparator - 2, 7)
    else (commitMode, dateSeparator)
  else (commitMode, dateSeparator).

(** The four characters of the settings of a connection; 0 is "character" data. *)
Definition suffixChars (commitMode dateFormat dateSeparator decimalSeparator naming timeFormat timeSeparator : Z)
    : outcome bytes :=
  let '(commitMode, dateSeparator) := suffixModes commitMode dateSeparator in
  s0 ← index packageSuffixInvariant 0;
  s1 ← index packageSuffixInvariant (Z.lor (Z.shiftl commitMode 3) dateFormat);
  s2 ← index packageSuffixInvariant (Z.lor (Z.lor (Z.shiftl decimalSeparator 4) (Z.shiftl naming 3)) dateSeparator);
  s3 ← index packageSuffixInvariant (Z.lor (Z.shiftl timeFormat 2) timeSeparator);
  Ret [s0; s1; s2; s3].

Definition namingBit (n : NamingConvention) : Z := if decide (n = NamingSystem) then 1 else 0.

Definition packageSuffix (cfg : Config) (commitMode : Z) : outcome bytes :=
  suffixChars commitMode (DateFormat cfg) (DateSeparator cfg) (DecimalSeparator cfg) (namingBit (Naming cfg))
    (TimeFormat cfg) (TimeSeparator cfg).

(** The first six characters of the name, upper-cased, blanks as underscores. *)
Definition packageNameFor (name : bytes) (cfg : Config) (commitMode : Z) : outcome bytes :=
  let normalized := (fun b => if b =? 32 then 95 else b) <$> toUpper (take 6 name) in
  suffix ← packageSuffix cfg commitMode;
  Ret (normalized ++ suffix).

(** ** Which statements are packaged *)

(** The rest of the text after a comment that nests [depth] deep. *)
Fixpoint skipComment (fuel : nat) (depth : nat) (sql : bytes) : bytes :=
  match fuel, depth with
  | S fuel', S depth' =>
      match sql with
      | [] => []
      | 47 :: 42 :: rest => skipComment fuel' (S depth) rest
      | 42 :: 47 :: rest => skipComment fuel' depth' rest
      | _ :: rest => skipComment fuel' depth rest
      end
  | _, _ => sql
  end.

Definition flush (current : bytes) : list bytes :=
  if len current =? 0 then [] else [toUpper current].

Definition isBlank (b : Z) : bool := inSet [32; 9; 10; 13; 12] b.

(** Every step consumes at least one byte: the length of the text is enough fuel. *)
Fixpoint tokensFrom (fuel : nat) (current sql : bytes) : list bytes * Z :=
  match fuel, sql with
  | S fuel', ch :: rest =>
      let next := hd 0 rest in
      let prepend ts (p : list bytes * Z) := (flush current ++ ts ++ p.1, p.2) in
      if (ch =? 47) && (next =? 42) && (0 <? len rest) then
        prepend [] (tokensFrom fuel' [] (skipComment (length rest) 1 (drop 1 rest)))
      else if (ch =? 45) && (next =? 45) && (0 <? len rest) then
        prepend [] (tokensFrom fuel' [] (dropWhile (fun b => negb (b =? 10)) rest))
      else if (ch =? 39) || (ch =? 34) then
        prepend [[39]] (tokensFrom fuel' [] (drop 1 (dropWhile (fun b => negb (b =? ch)) rest)))
      else if ch =? 40 then prepend [[40]] (tokensFrom fuel' [] rest)
      else if isBlank ch then prepend [] (tokensFrom fuel' [] rest)
      else
        let '(tokens, markers) := tokensFrom fuel' (current ++ [ch]) rest in
        (tokens, if ch =? 63 then markers + 1 else markers)
  | _, _ => (flush current, 0)
  end.

Definition packageTokens (sql : bytes) : list bytes * Z := tokensFrom (length sql) [] sql.

(** The first word, without opening parentheses, and the tokens after it. *)
Fixpoint firstWord (tokens : list bytes) : option (bytes * list bytes) :=
  match tokens with
  | [] => None
  | token :: rest =>
      let word := trimLeft token [40] in
      if len word =? 0 then firstWord rest else Some (word, rest)
  end.

(** Two adjacent tokens. *)
Fixpoint adjacent (a b : bytes) (tokens : list bytes) : bool :=
  match tokens with
  | x :: (y :: _) as rest => (beqb x a && beqb y b) || adjacent a b rest
  | _ => false
  end.

Definition packageCriteriaMatches (sql : bytes) (selectCriteria : bool) : bool :=
  let '(tokens, markers) := packageTokens sql in
  match firstWord tokens with
  | None => false
  | Some (first, rest) =>
      let isSelect := hasPrefix first (lit "SELECT") || beqb first (lit "WITH") || hasPrefix first (lit "VALUES") in
      let isInsert := beqb first (lit "INSERT") in
      let isDeclare := beqb first (lit "DECLARE") in
      let isSubSelect := isInsert && existsb (beqb (lit "SELECT")) rest in
      let isCurrentOf := adjacent (lit "CURRENT") (lit "OF") rest in
      let isForUpdate := adjacent (lit "FOR") (lit "UPDATE") rest in
      let packaged := ((0 <? markers) && negb isCurrentOf) || (isInsert && isSubSelect) ||
                      (isSelect && isForUpdate) || isDeclare in
      if selectCriteria then packaged || isSelect else packaged
  end.

(** ** The downloaded package *)

Record packageCachedStatement := mkCached {
  cachedName : bytes;
  cachedText : bytes;
  usable : bool;
  resultFields : list parameterMarkerField;
  paramFormat : option parameterMarkerFormat;
}.

Abbreviation packageCache := (list packageCachedStatement).

(** The bytes an offset and length pair refers to, when they are inside. *)
Definition packageRegion (info : bytes) (offset length : Z) : option bytes :=
  let start := i32 offset - 6 in
  let length := i32 length in
  if (start <? 0) || (length <? 0) || (len info <? start + length) then None
  else Some (sub info start length).

Definition packageRegionOK (info : bytes) (offset length : Z) : option bytes :=
  if (i32 length =? 0) || (i32 length =? 6) then None else packageRegion info offset length.

Definition sqldaIsVarType (baseType : Z) : bool := existsb (Z.eqb baseType) [448; 456; 464; 472; 908].

(** Length and precision of a field, by type. *)
Definition sqldaSizes (baseType length precision : Z) : Z * Z :=
  let length :=
    if baseType =? 484 then Z.quot precision 2 + 1
    else if baseType =? 488 then precision
    else if existsb (Z.eqb baseType) [464; 468; 472] then length * 2
    else length in
  if sqldaIsVarType baseType then (length + 2, precision + 2) else (length, precision).

Section Parse.
Context `{TableFS}.

Definition sqldaField (data : bytes) (nameCCSID : Z) (i : nat) : outcome parameterMarkerField :=
  let base := sqldaHeaderLength + Z.of_nat i * sqldaFieldLength in
  entry ← slice data base (base + sqldaFieldLength);
  sqlType ← wraps 16 <$> uint_at 2 entry 0;
  precision ← wraps 8 <$> uint_at 1 entry 2;
  length ← i16 <$> uint_at 2 entry 2;
  scale ← wraps 8 <$> uint_at 1 entry 3;
  ccsid ← uint_at 2 entry 34;
  mode ← uint_at 1 entry 48;
  nameLength ← uint_at 2 entry 64;
  let baseType := Z.land sqlType 0xFFFE in
  let '(length, precision) := sqldaSizes baseType length precision in
  let scale := if (baseType =? 496) || (baseType =? 500) then 0 else scale in
  let paramType := if mode =? 0xD6 then 0xF1 else if mode =? 0xC2 then 0xF2 else 0xF0 in
  name ← fieldName data (base + 66) nameLength nameCCSID;
  Ret (mkField name sqlType length scale precision ccsid paramType (-1) (-1)).

Definition parseSQLDAFormat (data : bytes) (nameCCSID : Z) : outcome (list parameterMarkerField) :=
  if len data <? sqldaHeaderLength then Fail (EText "SQLDA too short" [len data])
  else
    count ← uint_at 2 data 14;
    if len data <? sqldaHeaderLength + count * sqldaFieldLength then Fail (EText "SQLDA too short" [count; len data])
    else mapM (sqldaField data nameCCSID) (seq 0 (Z.to_nat count)).

Definition packageParameterFormat (fields : list parameterMarkerField) : parameterMarkerFormat :=
  mkFormat CodePointParameterMarkerFormat (foldl (fun n f => n + FieldLength f) 0 fields) fields.

(** [decodeTextByCCSID], and whether it succeeded. *)
Definition decodedOr (data : bytes) (ccsid : Z) : outcome (bytes * bool) :=
  match decodeTextByCCSID data ccsid with
  | Ret text => Ret (text, true)
  | Fail _ => Ret ([], false)
  | Panic => Panic
  end.

(** The fields of an optional format. *)
Definition sqldaAt (info : bytes) (offset length nameCCSID : Z) : outcome (option (list parameterMarkerField)) :=
  match packageRegionOK info offset length with
  | Some data => Some <$> parseSQLDAFormat data nameCCSID
  | None => Ret None
  end.

Definition packageEntry (info : bytes) (nameCCSID textCCSID : Z) (i : nat) : outcome packageCachedStatement :=
  let start := packageInfoHeaderLength + Z.of_nat i * packageInfoEntryLength in
  entry ← slice info start (start + packageInfoEntryLength);
  nameBytes ← slice entry 3 21;
  '(name, nameOK) ← decodedOr nameBytes nameCCSID;
  let name := trimRight name [32] in
  textOffset ← uint_at 4 entry 48;
  textLength ← uint_at 4 entry 52;
  let textData := packageRegion info textOffset textLength in
  '(text, textOK) ← decodedOr (default [] textData) textCCSID;
  let usable := nameOK && textOK && bool_decide (is_Some textData) && negb (len name =? 0) in
  formatOffset ← uint_at 4 entry 40;
  formatLength ← uint_at 4 entry 44;
  results ← sqldaAt info formatOffset formatLength nameCCSID;
  paramOffset ← uint_at 4 entry 56;
  paramLength ← uint_at 4 entry 60;
  params ← sqldaAt info paramOffset paramLength nameCCSID;
  Ret (mkCached name text usable (default [] results) (packageParameterFormat <$> params)).

Definition parsePackageInfoBody (s : unit) (codePoint : Z) (cpPayload : bytes) : outcome (unit + bytes) :=
  Ret (if codePoint =? CodePointPackageInfo then inr cpPayload else inl s).

Definition parsePackageInfo (payload : bytes) (nameCCSID : Z) : outcome packageCache :=
  r ← forLLCP (fun e => Fail e) parsePackageInfoBody (length payload) tt payload;
  match r with
  | inl _ => Fail (EText "package info not in reply" [])
  | inr info =>
      if len info <? packageInfoHeaderLength then Fail (EText "package info too short" [len info])
      else
        textCCSID ← i16 <$> uint_at 2 info 4;
        count ← uint_at 2 info 24;
        if len info <? packageInfoHeaderLength + count * packageInfoEntryLength
        then Fail (EText "package info too short" [count; len info])
        else mapM (packageEntry info nameCCSID textCCSID) (seq 0 (Z.to_nat count))
  end.
End Parse.

(** ** The state of a connection's package *)

Record packageState := mkState {
  enabled : bool;
  created : bool;
  name : bytes;
  library : bytes;
  errMode : packageErrorOption;
  selectOK : bool;
  cacheOn : bool;
  cache : option packageCache;
  statementPackaged : gmap Z bool;
}.

Definition packageErrorMode (cfg : Config) : packageErrorOption :=
  match PackageError (Config.Packages cfg) with PackageErrorUnset => PackageErrorWarning | mode => mode end.

Definition packageSQLStateDisabled : bytes := lit "01H11".
Definition packageSQLStateCacheDisabled : bytes := lit "01H12".

Definition missingPackageName : bytes := lit "extended dynamic support disabled: no package name was specified".

(** The state, or what to do about a missing package name. *)
Inductive newPackage := NewState (p : packageState) | NoPackage | NoPackageWarning.

Definition newPackageState (cfg : Config) : outcome newPackage :=
  let o := Config.Packages cfg in
  if negb (ExtendedDynamic o) then Ret NoPackage
  else
    let mode := packageErrorMode cfg in
    let name := trimSpace (PackageName o) in
    if len name =? 0 then
      match mode with
      | PackageErrorException => Fail (ESQL 0 packageSQLStateDisabled missingPackageName [])
      | PackageErrorWarning => Ret NoPackageWarning
      | _ => Ret NoPackage
      end
    else
      let library := toUpper (trimSpace (PackageLibrary o)) in
      let library := if len library =? 0 then lit "QGPL" else library in
      let commitMode := serverCommitmentControl cfg true (CommitmentControl cfg) in
      fullName ← packageNameFor name cfg commitMode;
      Ret (NewState (mkState true false fullName library mode
             (match PackageCriteria o with CriteriaSelect => true | _ => false end) (PackageCache o) None ∅)).

Definition withPackaged (p : packageState) (handle : Z) (packaged : bool) : packageState :=
  mkState (enabled p) (created p) (name p) (library p) (errMode p) (selectOK p) (cacheOn p) (cache p)
    (<[handle := packaged]> (statementPackaged p)).

(** A nil state is [None]. *)
Definition specForPrepare (p : option packageState) (handle : Z) (sql : bytes)
    : option packageSpec * option packageState :=
  match p with
  | Some p =>
      if enabled p then
        let packaged := packageCriteriaMatches sql (selectOK p) in
        (Some (mkPackage (name p) (library p) packaged), Some (withPackaged p handle packaged))
      else (None, Some p)
  | None => (None, None)
  end.

Definition specForImmediate (p : option packageState) (sql : bytes) : option packageSpec :=
  p ← p; if enabled p then Some (mkPackage (name p) (library p) (packageCriteriaMatches sql (selectOK p))) else None.

Definition specForLibrary (p : option packageState) : option packageSpec :=
  p ← p; if enabled p then Some (mkPackage (name p) (library p) false) else None.

Definition specForExecute (p : option packageState) (handle : Z) : option packageSpec :=
  p ← p;
  if enabled p && default false (statementPackaged p !! handle)
  then Some (mkPackage (name p) (library p) true) else None.

Definition packageFieldsHaveLOB (fields : list parameterMarkerField) : bool :=
  existsb (fun f => existsb (Z.eqb (Z.land (SQLType f) 0xFFFE)) [404; 408; 412; 960; 964; 968]) fields.

(** The first usable statement with the text, unless it has LOBs. *)
Definition cachedStatementFor (p : option packageState) (query : bytes) : option packageCachedStatement :=
  p ← p;
  c ← cache p;
  if enabled p && packageCriteriaMatches query (selectOK p) then
    s ← List.find (fun s => usable s && beqb (cachedText s) query) c;
    if packageFieldsHaveLOB (resultFields s) then None
    else if match paramFormat s with Some f => packageFieldsHaveLOB (Fields f) | None => false end then None
    else Some s
  else None.

Definition isCachedStatementName (p : option packageState) (stmt : bytes) : bool :=
  match p ≫= cache with Some c => existsb (fun s => beqb (cachedName s) stmt) c | None => false end.

Definition statementTextCCSIDFor (cfg : Config) (serverCCSID serverVRM : Z) : Z :=
  let o := Config.Packages cfg in
  if PackageCCSIDSystem o then if 0 <? serverCCSID then serverCCSID else 37
  else if PackageCCSID o <=? 0 then defaultPackageCCSID
  else if (PackageCCSID o =? 1200) && negb (serverVRM =? 0) && (serverVRM <? 0x050300) then defaultPackageCCSID
  else PackageCCSID o.

(** * Lemmas *)

Lemma inRange_true lo hi x : inRange lo hi x = true <-> lo <= x <= hi.
Proof. unfold inRange. rewrite andb_true_iff, !Z.leb_le. done. Qed.

(** The ranges [Validate] checks, of the settings the suffix depends on. *)
Lemma Validate_suffix_ranges cfg :
  Validate cfg = Ret tt ->
  0 <= DateFormat cfg <= 7 /\ 0 <= DateSeparator cfg <= 4 /\ 0 <= TimeFormat cfg <= 4 /\
  0 <= TimeSeparator cfg <= 3 /\ 0 <= DecimalSeparator cfg <= 1.
Proof.
  unfold Validate. cbv zeta. intros E. repeat (apply ensure_Ret in E as [? E]).
  repeat match goal with H : inRange _ _ _ = true |- _ => apply inRange_true in H end. done.
Qed.

(** The settings a suffix stands for. *)
Definition suffixIndex (c : Z) : Z := Z.of_nat (default 0%nat (indexByte packageSuffixInvariant c)).
Definition suffixSettings (suffix : bytes) : list Z :=
  match suffixIndex <$> suffix with
  | [_; i1; i2; i3] =>
      let ds := Z.land i2 7 in
      let cm := Z.shiftr i1 3 in
      [if 6 <=? ds then 4 else cm; Z.land i1 7;
       if ds =? 6 then cm else if ds =? 7 then cm + 2 else ds;
       Z.shiftr i2 4; Z.land (Z.shiftr i2 3) 1; Z.shiftr i3 2; Z.land i3 3]
  | _ => []
  end.

Definition upto (n : nat) : list Z := Z.of_nat <$> seq 0 n.

Lemma elem_of_upto n x : x ∈ upto n <-> 0 <= x < Z.of_nat n.
Proof.
  unfold upto. rewrite list_elem_of_fmap. setoid_rewrite elem_of_seq. split.
  - intros (k & -> & ?). lia.
  - intros. exists (Z.to_nat x). lia.
Qed.

(** All the settings there are: one bound per setting, in argument order. *)
Definition suffixDecodes (cm df ds dc nm tf ts : Z) : bool :=
  match suffixChars cm df ds dc nm tf ts with
  | Ret suffix => bool_decide (suffixSettings suffix = [cm; df; ds; dc; nm; tf; ts])
  | _ => false
  end.

Lemma suffixDecodes_all :
  forallb (fun cm => forallb (fun df => forallb (fun ds => forallb (fun dc => forallb (fun nm =>
    forallb (fun tf => forallb (fun ts => suffixDecodes cm df ds dc nm tf ts)
      (upto 4)) (upto 5)) (upto 2)) (upto 2)) (upto 5)) (upto 8)) (upto 5) = true.
Proof. vm_compute. reflexivity. Qed.

Lemma forallb_upto n f x : forallb f (upto n) = true -> 0 <= x < Z.of_nat n -> f x = true.
Proof. intros Hf Hx. apply (proj1 (forallb_forall _ _) Hf), list_elem_of_In, elem_of_upto, Hx. Qed.

Lemma suffixChars_decodes cm df ds dc nm tf ts :
  0 <= cm <= 4 -> 0 <= df <= 7 -> 0 <= ds <= 4 -> 0 <= dc <= 1 -> 0 <= nm <= 1 -> 0 <= tf <= 4 -> 0 <= ts <= 3 ->
  exists suffix, suffixChars cm df ds dc nm tf ts = Ret suffix /\
    suffixSettings suffix = [cm; df; ds; dc; nm; tf; ts].
Proof.
  intros. pose proof suffixDecodes_all as E.
  apply (forallb_upto _ _ cm) in E; [|lia]. apply (forallb_upto _ _ df) in E; [|lia].
  apply (forallb_upto _ _ ds) in E; [|lia]. apply (forallb_upto _ _ dc) in E; [|lia].
  apply (forallb_upto _ _ nm) in E; [|lia]. apply (forallb_upto _ _ tf) in E; [|lia].
  apply (forallb_upto _ _ ts) in E; [|lia].
  unfold suffixDecodes in E. destruct (suffixChars _ _ _ _ _ _ _) as [suffix| |]; [|done|done].
  apply bool_decide_eq_true in E. by exists suffix.
Qed.

Lemma namingBit_range n : 0 <= namingBit n <= 1.
Proof. by destruct n. Qed.

Lemma serverCommitmentControl_range cfg autoCommit level :
  0 <= serverCommitmentControl cfg autoCommit level <= 4.
Proof.
  unfold serverCommitmentControl, requestCommitmentControl, defaultCommitmentControl. destruct (_ && _); [lia|].
  destruct (Z.ltb_spec level 0), (Z.ltb_spec 4 level); cbn; lia.
Qed.

(** What [Validate] accepts names a package without an index out of range. *)
Lemma newPackageState_no_panic cfg : Validate cfg = Ret tt -> no_panic (newPackageState cfg).
Proof.
  intros HV. pose proof (Validate_suffix_ranges cfg HV) as (? & ? & ? & ? & ?). unfold newPackageState. cbv zeta.
  destruct (negb (ExtendedDynamic _)); [done|]. destruct (len _ =? 0); [by destruct (packageErrorMode cfg)|].
  unfold packageNameFor, packageSuffix.
  destruct (suffixChars_decodes (serverCommitmentControl cfg true (CommitmentControl cfg)) (DateFormat cfg) (DateSeparator cfg)
    (DecimalSeparator cfg) (namingBit (Naming cfg)) (TimeFormat cfg) (TimeSeparator cfg)) as (suffix & -> & _);
    [by apply serverCommitmentControl_range|done|done|done|apply namingBit_range|done|done|done].
Qed.

(** The settings of a connection that its package depends on. *)
Definition packageSettings (cfg : Config) (commitMode : Z) : list Z :=
  [commitMode; DateFormat cfg; DateSeparator cfg; DecimalSeparator cfg; namingBit (Naming cfg); TimeFormat cfg;
   TimeSeparator cfg].

(** * Properties *)

(** Every validated configuration has a package suffix (the table lookups
    stay inside the table), and two connections share a package only when they
    agree on commit mode, date and time formats and separators, decimal
    separator and naming: the four characters encode all seven settings. *)
Theorem package_suffix_injective (cfg1 cfg2 : Config) (mode1 mode2 : Z) :
  Validate cfg1 = Ret tt -> Validate cfg2 = Ret tt -> 0 <= mode1 <= 4 -> 0 <= mode2 <= 4 ->
  exists suffix1 suffix2,
    packageSuffix cfg1 mode1 = Ret suffix1 /\ packageSuffix cfg2 mode2 = Ret suffix2 /\
    (suffix1 = suffix2 <-> packageSettings cfg1 mode1 = packageSettings cfg2 mode2).
Proof.
  intros (? & ? & ? & ? & ?)%Validate_suffix_ranges (? & ? & ? & ? & ?)%Validate_suffix_ranges ? ?.
  unfold packageSuffix.
  destruct (suffixChars_decodes mode1 (DateFormat cfg1) (DateSeparator cfg1) (DecimalSeparator cfg1)
    (namingBit (Naming cfg1)) (TimeFormat cfg1) (TimeSeparator cfg1)) as (s1 & E1 & D1);
    try done; try apply namingBit_range.
  destruct (suffixChars_decodes mode2 (DateFormat cfg2) (DateSeparator cfg2) (DecimalSeparator cfg2)
    (namingBit (Naming cfg2)) (TimeFormat cfg2) (TimeSeparator cfg2)) as (s2 & E2 & D2);
    try done; try apply namingBit_range.
  exists s1, s2. split_and!; [done|done|]. unfold packageSettings. split.
  - intros ->. by rewrite <-D1, D2.
  - intros [= Em Edf Eds Edc Enm Etf Ets]. rewrite Em, Edf, Eds, Edc, Enm, Etf, Ets, E2 in E1. by injection E1.
Qed.

Definition sampleURL : parsedURL := mkURL (lit "as400") (lit "U") (lit "P") (lit "host") [] [] ∅.
Definition sampleConfig : Config :=
  Eval vm_compute in
    match ParseURL (fun _ => Fail ESyntax) sampleURL with
    | Ret c => c
    | _ => mkConfig [] 0 false [] [] [] NamingSQL 0 0 0 0 0 0 [] 0 0 false false false
             (mkServerOptions 0 0 0 0 0 0 false false false false 0) (mkSocketOptions None None 0 0 0)
             (mkPackageOptions false [] [] CriteriaUnset false PackageErrorUnset 0 false false false)
             (mkClientOptions [] [] [] [] [] 0 false) (mkBidiOptions 0 false false)
    end.

Lemma package_suffix_injective_witness :
  Validate sampleConfig = Ret tt /\
  exists suffix1 suffix2,
    packageSuffix sampleConfig 0 = Ret suffix1 /\ packageSuffix sampleConfig 4 = Ret suffix2 /\
    (suffix1 = suffix2 <-> packageSettings sampleConfig 0 = packageSettings sampleConfig 4).
Proof.
  split; [reflexivity|].
  apply (package_suffix_injective sampleConfig sampleConfig 0 4); [reflexivity|reflexivity|lia|lia].
Defined.

(** A date separator that [Validate] rejects would make the lookup panic. *)
Example unvalidated_suffix_panics : suffixChars 4 5 5 0 0 0 0 = Panic.
Proof. reflexivity. Qed.
