(* ===== verification/StatementCache.v ===== *)
(** The cache of prepared statements of driver.go: the critical sections of
    [cachedPreparedStatement] and [releaseCachedStatement] as functions on the
    shared store, and their interleavings as a step relation.

    [cachedStatement] values are shared by pointer between the cache and the
    statements in use, so they live in a heap and the cache maps a query to an
    address.  A nil [statementCache] map, which [Close] leaves behind, is
    [None]. *)
From Stdlib Require Import Strings.String.
From stdpp Require Import base list numbers strings gmap.
From S2P Require Import Prelude Format.
Open Scope Z_scope.

Record cachedStatement := mkStatement {
  cachedType : Z;
  cachedHandle : Z;
  cachedName : bytes;
  cachedFormat : option parameterMarkerFormat;
  refs : Z;
  evicted : bool;
}.

Definition withRefs (s : cachedStatement) (n : Z) : cachedStatement :=
  mkStatement (cachedType s) (cachedHandle s) (cachedName s) (cachedFormat s) n (evicted s).
Definition withEvicted (s : cachedStatement) : cachedStatement :=
  mkStatement (cachedType s) (cachedHandle s) (cachedName s) (cachedFormat s) (refs s) true.

Record stmtCache := mkCache {
  heap : gmap nat cachedStatement;
  statementCache : option (gmap bytes nat);
  statementCacheOrder : list bytes;
}.

Definition emptyCache : stmtCache := mkCache ∅ (Some ∅) [].

Definition updateHeap (c : stmtCache) (id : nat) (f : cachedStatement -> cachedStatement) : stmtCache :=
  mkCache (alter f id (heap c)) (statementCache c) (statementCacheOrder c).

(** The first occurrence of a query leaves the order. *)
Fixpoint removeFirst (query : bytes) (order : list bytes) : list bytes :=
  match order with
  | [] => []
  | key :: order' => if decide (key = query) then order' else key :: removeFirst query order'
  end.

(** The first critical section: a hit takes a reference and moves the query to
    the end of the order. *)
Definition lookupSection (query : bytes) (c : stmtCache) : option nat * stmtCache :=
  let index := default ∅ (statementCache c) in
  match index !! query with
  | Some id =>
      (Some id,
       updateHeap (mkCache (heap c) (Some index) (removeFirst query (statementCacheOrder c) ++ [query])) id
         (fun s => withRefs s (refs s + 1)))
  | None => (None, mkCache (heap c) (Some index) (statementCacheOrder c))
  end.

(** What the second section decides: the statement to use, and the statement
    to close on the server. *)
Record inserted := mkInserted { useId : nat; closeNow : option nat }.

(** The oldest entry leaves the cache; it is closed when nobody uses it. *)
Definition evictOldest (c : stmtCache) : outcome (option nat * stmtCache) :=
  match statementCacheOrder c with
  | [] => Panic
  | key :: order' =>
      match default ∅ (statementCache c) !! key with
      | None => Panic
      | Some id =>
          match heap c !! id with
          | None => Panic
          | Some victim =>
              Ret (if refs victim =? 0 then Some id else None,
                   mkCache (<[id := withEvicted victim]> (heap c)) (delete key <$> statementCache c) order')
          end
      end
  end.

(** The second critical section, after [statement] has been prepared at the
    fresh address [id]. *)
Definition insertSection (capacity : Z) (query : bytes) (id : nat) (statement : cachedStatement) (c : stmtCache)
    : outcome (inserted * stmtCache) :=
  match default ∅ (statementCache c) !! query with
  | Some existing => Ret (mkInserted existing (Some id), updateHeap
      (mkCache (<[id := statement]> (heap c)) (statementCache c) (statementCacheOrder c)) existing
      (fun s => withRefs s (refs s + 1)))
  | None =>
      '(victim, c) ← (if capacity <=? Z.of_nat (size (default ∅ (statementCache c)))
                      then evictOldest c else Ret (None, c));
      match statementCache c with
      | None => Panic
      | Some index =>
          Ret (mkInserted id victim,
               mkCache (<[id := withRefs statement 1]> (heap c)) (Some (<[query := id]> index))
                 (statementCacheOrder c ++ [query]))
      end
  end.

(** [releaseCachedStatement]: the statement to close, if any. *)
Definition releaseSection (id : nat) (c : stmtCache) : option nat * stmtCache :=
  match heap c !! id with
  | None => (None, c)
  | Some s =>
      let s' := if 0 <? refs s then withRefs s (refs s - 1) else s in
      (if evicted s' && (refs s' =? 0) then Some id else None,
       mkCache (<[id := s']> (heap c)) (statementCache c) (statementCacheOrder c))
  end.

(** The part of [Conn.Close] that drops the cache. *)
Definition closeSection (c : stmtCache) : stmtCache := mkCache (heap c) None [].

(** ** Interleavings

    [users] are the addresses in use, one entry per use; [closedIds] the
    statements closed on the server so far. *)
Record system := mkSystem { cache : stmtCache; users : list nat; closedIds : list nat }.

Definition initial : system := mkSystem emptyCache [] [].

Inductive step (capacity : Z) : system -> system -> Prop :=
| step_lookup query id c c' us cl :
    lookupSection query c = (Some id, c') -> step capacity (mkSystem c us cl) (mkSystem c' (id :: us) cl)
| step_miss query c c' us cl :
    lookupSection query c = (None, c') -> step capacity (mkSystem c us cl) (mkSystem c' us cl)
| step_insert query id statement r c c' us cl :
    heap c !! id = None -> evicted statement = false -> refs statement = 0 ->
    insertSection capacity query id statement c = Ret (r, c') ->
    step capacity (mkSystem c us cl) (mkSystem c' (useId r :: us) (option_list (closeNow r) ++ cl))
| step_release id victim c c' us1 us2 cl :
    releaseSection id c = (victim, c') ->
    step capacity (mkSystem c (us1 ++ id :: us2) cl) (mkSystem c' (us1 ++ us2) (option_list victim ++ cl)).

Definition reachable (capacity : Z) : system -> Prop := rtc (step capacity) initial.

(** How often an address is in use. *)
Definition uses (us : list nat) (id : nat) : Z := Z.of_nat (length (filter (fun u => u = id) us)).

(** ** The invariant *)

Record wf (capacity : Z) (s : system) (index : gmap bytes nat) : Prop := {
  wf_index : statementCache (cache s) = Some index;
  wf_order_nodup : NoDup (statementCacheOrder (cache s));
  wf_order : forall query, query ∈ statementCacheOrder (cache s) <-> is_Some (index !! query);
  wf_capacity : Z.of_nat (size index) <= Z.max capacity 0;
  wf_injective : forall q1 q2 id, index !! q1 = Some id -> index !! q2 = Some id -> q1 = q2;
  wf_indexed : forall query id, index !! query = Some id ->
    exists st, heap (cache s) !! id = Some st /\ evicted st = false /\ id ∉ closedIds s;
  wf_refs : forall id st, heap (cache s) !! id = Some st -> id ∉ closedIds s -> refs st = uses (users s) id;
  wf_used : forall id, id ∈ users s -> is_Some (heap (cache s) !! id) /\ id ∉ closedIds s;
  wf_closed_nodup : NoDup (closedIds s);
  wf_closed : forall id, id ∈ closedIds s -> is_Some (heap (cache s) !! id);
  wf_evicted : forall id st, heap (cache s) !! id = Some st -> id ∉ closedIds s ->
    if evicted st then 0 < refs st else exists query, index !! query = Some id;
}.

(** * Lemmas *)

Lemma uses_cons us u id : uses (u :: us) id = uses us id + (if decide (u = id) then 1 else 0).
Proof. unfold uses. rewrite filter_cons. destruct (decide (u = id)); cbn [length]; lia. Qed.

Lemma uses_app us1 us2 id : uses (us1 ++ us2) id = uses us1 id + uses us2 id.
Proof. unfold uses. rewrite filter_app, length_app. lia. Qed.

Lemma uses_nonneg us id : 0 <= uses us id.
Proof. unfold uses. lia. Qed.

Lemma uses_not_in us id : id ∉ us -> uses us id = 0.
Proof.
  induction us as [|u us IH]; intros Hn; [done|]. rewrite uses_cons.
  destruct (decide (u = id)) as [->|]; [set_solver|]. rewrite IH by set_solver. lia.
Qed.

Lemma uses_in us id : id ∈ us -> 0 < uses us id.
Proof.
  induction us as [|u us IH]; intros Hin; [set_solver|]. rewrite uses_cons.
  pose proof (uses_nonneg us id). destruct (decide (u = id)); [lia|].
  assert (id ∈ us) as Hi by set_solver. apply IH in Hi. lia.
Qed.

Lemma removeFirst_perm query order : query ∈ order -> removeFirst query order ++ [query] ≡ₚ order.
Proof.
  induction order as [|key order IH]; intros Hin; [set_solver|]. cbn [removeFirst].
  destruct (decide (key = query)) as [->|]; [by rewrite <-Permutation_cons_append|].
  cbn [app]. rewrite IH by set_solver. done.
Qed.

(** ** The invariant under the parts of a step *)

Lemma wf_initial capacity : wf capacity initial ∅.
Proof.
  constructor; cbn; try set_solver; try (intros; by simplify_map_eq).
  - constructor.
  - intros query. rewrite lookup_empty. split; [set_solver|by intros []].
  - rewrite map_size_empty. lia.
  - constructor.
Qed.

Lemma wf_reorder capacity h index order order' us cl :
  order' ≡ₚ order -> wf capacity (mkSystem (mkCache h (Some index) order) us cl) index ->
  wf capacity (mkSystem (mkCache h (Some index) order') us cl) index.
Proof.
  intros Hp []. constructor; cbn in *; try done; [by rewrite Hp|]. intros query. rewrite Hp. done.
Qed.

(** A use of an indexed statement begins. *)
Lemma wf_use capacity c us cl index query id :
  index !! query = Some id -> wf capacity (mkSystem c us cl) index ->
  wf capacity (mkSystem (updateHeap c id (fun s => withRefs s (refs s + 1))) (id :: us) cl) index.
Proof.
  intros Hq []. cbn in *. destruct (wf_indexed0 _ _ Hq) as (st & Hst & He & Hcl).
  assert (heap (updateHeap c id (fun s => withRefs s (refs s + 1))) = <[id := withRefs st (refs st + 1)]> (heap c)) as Eh.
  { cbn. apply map_eq. intros j. destruct (decide (j = id)) as [->|].
    - by rewrite lookup_alter_eq, Hst, lookup_insert_eq.
    - by rewrite lookup_alter_ne, lookup_insert_ne. }
  constructor; cbn [cache users closedIds]; try rewrite Eh; cbn; try done.
  - intros q i Hi. destruct (wf_indexed0 _ _ Hi) as (s & Hs & Hse & Hsc). destruct (decide (i = id)) as [->|].
    + rewrite lookup_insert_eq. eauto.
    + rewrite lookup_insert_ne by done. eauto.
  - intros i s Hs Hi. rewrite uses_cons. destruct (decide (id = i)) as [->|].
    + rewrite lookup_insert_eq in Hs. injection Hs as <-. cbn. rewrite (wf_refs0 _ _ Hst Hi). done.
    + rewrite lookup_insert_ne in Hs by done. rewrite (wf_refs0 _ _ Hs Hi). lia.
  - intros i [->|Hi]%elem_of_cons.
    + rewrite lookup_insert_eq. eauto.
    + destruct (wf_used0 _ Hi). split; [|done]. by apply lookup_insert_is_Some'; right.
  - intros i Hi. apply lookup_insert_is_Some'. right. auto.
  - intros i s Hs Hi. destruct (decide (i = id)) as [->|].
    + rewrite lookup_insert_eq in Hs. injection Hs as <-. cbn. rewrite He. eauto.
    + rewrite lookup_insert_ne in Hs by done. by apply wf_evicted0.
Qed.

(** A statement that lost the race is closed as soon as it is prepared. *)
Lemma wf_discard capacity c us cl index id statement :
  heap c !! id = None -> wf capacity (mkSystem c us cl) index ->
  wf capacity (mkSystem (mkCache (<[id := statement]> (heap c)) (statementCache c) (statementCacheOrder c)) us (id :: cl)) index.
Proof.
  intros Hfresh []. cbn in *.
  assert (forall i, is_Some (heap c !! i) -> i <> id) as Hne by (intros i [] ->; congruence).
  constructor; cbn; try done.
  - intros q i Hi. destruct (wf_indexed0 _ _ Hi) as (s & Hs & Hse & Hsc). exists s.
    assert (i <> id) by eauto. rewrite lookup_insert_ne by done. split_and!; [done|done|].
    by intros [->|]%elem_of_cons.
  - intros i s Hs Hi. apply not_elem_of_cons in Hi as [? Hi]. rewrite lookup_insert_ne in Hs by done. by apply wf_refs0.
  - intros i Hi. destruct (wf_used0 _ Hi) as [Hs Hc]. assert (i <> id) by eauto.
    split; [apply lookup_insert_is_Some'; by right|]. by intros [->|]%elem_of_cons.
  - constructor; [|done]. intros Hin. by apply wf_closed0, Hne in Hin.
  - intros i [->|Hi]%elem_of_cons; apply lookup_insert_is_Some'; [by left|right; auto].
  - intros i s Hs Hi. apply not_elem_of_cons in Hi as [? Hi]. rewrite lookup_insert_ne in Hs by done. by apply wf_evicted0.
Qed.

Lemma nin_app_r (i : nat) l k : i ∉ l ++ k -> i ∉ k.
Proof. rewrite elem_of_app. tauto. Qed.

Lemma elem_of_option_list_if (b : bool) (id i : nat) : i ∈ option_list (if b then Some id else None) -> i = id /\ b = true.
Proof. destruct b; cbn; [by intros ->%list_elem_of_singleton|by intros ?%elem_of_nil]. Qed.

(** The oldest entry is dropped, and closed when it is not in use. *)
Lemma wf_evict capacity c us cl index :
  0 < Z.of_nat (size index) -> wf capacity (mkSystem c us cl) index ->
  exists victim c' key,
    evictOldest c = Ret (victim, c') /\ is_Some (index !! key) /\
    (forall i, heap c' !! i = None <-> heap c !! i = None) /\
    wf capacity (mkSystem c' us (option_list victim ++ cl)) (delete key index).
Proof.
  intros Hsize Hwf. pose proof Hwf as []. cbn in *. unfold evictOldest. rewrite wf_index0. change (default ∅ (Some index)) with index.
  destruct (statementCacheOrder c) as [|key order'] eqn:Eo.
  { destruct (map_choose index) as (q & i & Hq); [intros ->; by rewrite map_size_empty in Hsize|].
    assert (q ∈ []) as []%elem_of_nil by (apply wf_order0; eauto). }
  assert (is_Some (index !! key)) as Hk by (apply wf_order0; left). destruct Hk as [id Hk].
  destruct (wf_indexed0 _ _ Hk) as (st & Hst & He & Hcl). rewrite Hk, Hst.
  do 3 eexists. split_and!; [done|eauto| |].
  { intros i. cbn. rewrite lookup_insert_None. split; [by intros []|]. intros E. split; [done|]. intros ->. congruence. }
  apply NoDup_cons in wf_order_nodup0 as [Hfresh Hnd].
  pose proof (wf_refs0 _ _ Hst Hcl) as Hrefs.
  assert (forall i, i ∈ option_list (if refs st =? 0 then Some id else None) -> i = id /\ refs st = 0) as Hv.
  { intros i [-> E]%elem_of_option_list_if. split; [done|lia]. }
  constructor; cbn; try done.
  - intros q. rewrite lookup_delete_is_Some. rewrite <-wf_order0, elem_of_cons.
    split; [intros Hin; split; [by intros <-|by right]|by intros [? [->|?]]].
  - rewrite map_size_delete_Some by eauto. lia.
  - intros q1 q2 i [_ H1]%lookup_delete_Some [_ H2]%lookup_delete_Some. eauto.
  - intros q i [Hne Hi]%lookup_delete_Some. destruct (wf_indexed0 _ _ Hi) as (s & Hs & Hse & Hsc).
    assert (i <> id) by (intros ->; eauto). exists s. rewrite lookup_insert_ne by done. split_and!; [done|done|].
    rewrite elem_of_app. by intros [[-> _]%Hv|].
  - intros i s Hs Hi. destruct (decide (i = id)) as [->|].
    + rewrite lookup_insert_eq in Hs. injection Hs as <-. done.
    + rewrite lookup_insert_ne in Hs by done. apply wf_refs0; [done|by eapply nin_app_r].
  - intros i Hi. destruct (wf_used0 _ Hi) as [Hs Hc]. split; [apply lookup_insert_is_Some'; by right|].
    rewrite elem_of_app. intros [[-> E]%Hv|]; [|done]. rewrite Hrefs in E. apply uses_in in Hi. lia.
  - destruct (Z.eqb_spec (refs st) 0); cbn; [by constructor|done].
  - intros i [[-> _]%Hv|Hi]%elem_of_app; apply lookup_insert_is_Some'; [by left|right; auto].
  - intros i s Hs Hi. destruct (decide (i = id)) as [->|Hne].
    + rewrite lookup_insert_eq in Hs. injection Hs as <-. cbn.
      pose proof (uses_nonneg us id). destruct (Z.eqb_spec (refs st) 0); cbn in Hi; [destruct Hi; left|lia].
    + rewrite lookup_insert_ne in Hs by done.
      pose proof (wf_evicted0 _ _ Hs (nin_app_r _ _ _ Hi)) as Hi'. destruct (evicted s); [done|].
      destruct Hi' as [q Hq]. exists q. apply lookup_delete_Some. split; [|done]. intros <-. congruence.
Qed.

(** A fresh statement enters the cache, in use once. *)
Lemma wf_add capacity c us cl index query id statement :
  heap c !! id = None -> index !! query = None -> evicted statement = false ->
  Z.of_nat (size index) < Z.max capacity 0 -> wf capacity (mkSystem c us cl) index ->
  wf capacity
    (mkSystem (mkCache (<[id := withRefs statement 1]> (heap c)) (Some (<[query := id]> index))
       (statementCacheOrder c ++ [query])) (id :: us) cl) (<[query := id]> index).
Proof.
  intros Hfresh Hq He Hcap []. cbn in *.
  assert (forall i, is_Some (heap c !! i) -> i <> id) as Hne by (intros i [] ->; congruence).
  assert (uses us id = 0) as Hu.
  { apply uses_not_in. intros Hin. by apply wf_used0 in Hin as [? _]; apply (Hne id). }
  constructor; cbn; try done.
  - apply NoDup_app. split_and!; [done| |apply NoDup_singleton].
    intros q Hin ->%list_elem_of_singleton. apply wf_order0 in Hin as []. congruence.
  - intros q. rewrite elem_of_app, list_elem_of_singleton, lookup_insert_is_Some', wf_order0. naive_solver.
  - rewrite map_size_insert_None by done. lia.
  - intros q1 q2 i [[<- <-]|[H1 E1]]%lookup_insert_Some [[<- Ei]|[H2 E2]]%lookup_insert_Some; try done; subst; eauto.
    + destruct (wf_indexed0 _ _ E2) as (? & ? & _). congruence.
    + destruct (wf_indexed0 _ _ E1) as (? & ? & _). congruence.
  - intros q i [[<- <-]|[H1 E1]]%lookup_insert_Some.
    + exists (withRefs statement 1). rewrite lookup_insert_eq. split_and!; [done|done|].
      intros Hin. by apply wf_closed0, Hne in Hin.
    + destruct (wf_indexed0 _ _ E1) as (s & Hs & Hse & Hsc). exists s.
      assert (i <> id) by eauto. by rewrite lookup_insert_ne by done.
  - intros i s Hs Hi. rewrite uses_cons. destruct (decide (id = i)) as [<-|].
    + rewrite lookup_insert_eq in Hs. injection Hs as <-. cbn. lia.
    + rewrite lookup_insert_ne in Hs by done. rewrite (wf_refs0 _ _ Hs Hi). lia.
  - intros i [->|Hi]%elem_of_cons.
    + split; [apply lookup_insert_is_Some'; by left|]. intros Hin. by apply wf_closed0, Hne in Hin.
    + destruct (wf_used0 _ Hi). split; [apply lookup_insert_is_Some'; by right|done].
  - intros i Hi. apply lookup_insert_is_Some'. right. auto.
  - intros i s Hs Hi. destruct (decide (i = id)) as [->|].
    + rewrite lookup_insert_eq in Hs. injection Hs as <-. cbn. rewrite He. exists query. apply lookup_insert_eq.
    + rewrite lookup_insert_ne in Hs by done. pose proof (wf_evicted0 _ _ Hs Hi) as Hi'.
      destruct (evicted s); [done|]. destruct Hi' as [q Hq']. exists q. rewrite lookup_insert_ne; [done|]. congruence.
Qed.

(** A use ends; the last use of an evicted statement closes it. *)
Lemma wf_release capacity c us1 us2 cl index id victim c' :
  releaseSection id c = (victim, c') -> wf capacity (mkSystem c (us1 ++ id :: us2) cl) index ->
  wf capacity (mkSystem c' (us1 ++ us2) (option_list victim ++ cl)) index.
Proof.
  intros E []. cbn in *. unfold releaseSection in E.
  destruct (wf_used0 id) as [[st Hst] Hcl]; [apply elem_of_app; right; left|]. rewrite Hst in E.
  pose proof (wf_refs0 _ _ Hst Hcl) as Hr. rewrite uses_app, uses_cons, decide_True in Hr by done.
  pose proof (uses_nonneg us1 id). pose proof (uses_nonneg us2 id).
  rewrite (proj2 (Z.ltb_lt 0 (refs st))) in E by lia. injection E as <- <-. cbn [evicted withRefs refs].
  assert (uses (us1 ++ us2) id = refs st - 1) as Hu by (rewrite uses_app; lia).
  assert (forall i, i ∈ option_list (if evicted st && (refs st - 1 =? 0) then Some id else None) ->
    i = id /\ evicted st = true /\ refs st = 1) as Hv.
  { intros i [-> [He E]%andb_true_iff]%elem_of_option_list_if. split_and!; [done|done|lia]. }
  assert (forall i, i <> id -> uses (us1 ++ us2) i = uses (us1 ++ id :: us2) i) as Hother.
  { intros i Hi. rewrite !uses_app, uses_cons, decide_False by done. lia. }
  constructor; cbn; try done.
  - intros q i Hi. destruct (wf_indexed0 _ _ Hi) as (s & Hs & Hse & Hsc). destruct (decide (i = id)) as [->|].
    + rewrite Hst in Hs. injection Hs as ->. exists (withRefs s (refs s - 1)). rewrite lookup_insert_eq.
      split_and!; [done|done|]. by rewrite Hse.
    + exists s. rewrite lookup_insert_ne by done. split_and!; [done|done|].
      rewrite elem_of_app. by intros [[-> _]%Hv|].
  - intros i s Hs Hi. destruct (decide (i = id)) as [->|].
    + rewrite lookup_insert_eq in Hs. injection Hs as <-. done.
    + rewrite lookup_insert_ne in Hs by done. rewrite Hother by done. apply wf_refs0; [done|by eapply nin_app_r].
  - intros i Hi. assert (i ∈ us1 ++ id :: us2) as Hi' by (rewrite elem_of_app, elem_of_cons in *; tauto).
    destruct (wf_used0 i Hi') as [Hs Hc].
    split; [apply lookup_insert_is_Some'; by right|]. rewrite elem_of_app. intros [(-> & _ & E1)%Hv|]; [|done].
    apply uses_in in Hi. lia.
  - destruct (_ && _); cbn; [by constructor|done].
  - intros i [[-> _]%Hv|Hi]%elem_of_app; apply lookup_insert_is_Some'; [by left|right; auto].
  - intros i s Hs Hi. destruct (decide (i = id)) as [->|].
    + rewrite lookup_insert_eq in Hs. injection Hs as <-. cbn. specialize (wf_evicted0 _ _ Hst Hcl).
      destruct (evicted st); [|done]. destruct (Z.eqb_spec (refs st - 1) 0); cbn in Hi; [destruct Hi; left|lia].
    + rewrite lookup_insert_ne in Hs by done. apply wf_evicted0; [done|by eapply nin_app_r].
Qed.

Lemma wf_cache_index capacity c us cl index : wf capacity (mkSystem c us cl) index -> statementCache c = Some index.
Proof. by intros []. Qed.

Lemma wf_lookup capacity query r c c' us cl index :
  lookupSection query c = (r, c') -> wf capacity (mkSystem c us cl) index ->
  wf capacity (mkSystem c' (option_list r ++ us) cl) index.
Proof.
  intros E Hwf. pose proof (wf_cache_index _ _ _ _ _ Hwf) as Ei. unfold lookupSection in E.
  destruct c as [h ix order]. cbn in *. subst ix. cbn in E. destruct (index !! query) as [id|] eqn:Eq.
  - injection E as <- <-. cbn. eapply wf_use; [done|]. eapply wf_reorder; [|done].
    apply removeFirst_perm. destruct Hwf as [_ _ Ho _ _ _ _ _ _ _ _]. apply Ho. eauto.
  - by injection E as <- <-.
Qed.

(** Inserting never panics, and keeps the invariant. *)
Lemma wf_insert capacity query id statement c us cl index :
  1 <= capacity -> heap c !! id = None -> evicted statement = false ->
  wf capacity (mkSystem c us cl) index ->
  exists r c' index', insertSection capacity query id statement c = Ret (r, c') /\
    wf capacity (mkSystem c' (useId r :: us) (option_list (closeNow r) ++ cl)) index'.
Proof.
  intros Hcap Hfresh He Hwf. pose proof (wf_cache_index _ _ _ _ _ Hwf) as Ei. unfold insertSection.
  rewrite Ei. change (default ∅ (Some index)) with index. destruct (index !! query) as [existing|] eqn:Eq.
  { do 3 eexists. split; [done|]. cbn [useId closeNow option_list app].
    eapply wf_use; [done|]. rewrite <-Ei. by apply wf_discard. }
  destruct (Z.leb_spec capacity (Z.of_nat (size index))) as [Hfull|Hroom].
  - destruct (wf_evict capacity c us cl index) as (victim & c1 & key & E & Hkey & Hheap & Hwf1); [lia|done|].
    rewrite E. cbn [mbind outcome_bind]. rewrite (wf_cache_index _ _ _ _ _ Hwf1).
    do 3 eexists. split; [done|]. cbn [useId closeNow]. apply wf_add; [by apply Hheap| |done| |done].
    + rewrite lookup_delete_None. by right.
    + rewrite map_size_delete_Some by done. destruct Hwf as [_ _ _ Hsize _ _ _ _ _ _ _]. cbn in Hsize. lia.
  - cbn [mbind outcome_bind]. rewrite Ei. do 3 eexists. split; [done|]. cbn [useId closeNow option_list app].
    apply wf_add; [done..|lia|done].
Qed.

Lemma wf_step capacity s s' index :
  1 <= capacity -> step capacity s s' -> wf capacity s index -> exists index', wf capacity s' index'.
Proof.
  intros Hcap Hstep Hwf. destruct Hstep as [query id c c' us cl E|query c c' us cl E|query id st r c c' us cl Hf He Hr E|id victim c c' us1 us2 cl E].
  - exists index. by apply (wf_lookup _ _ (Some id) _ _ _ _ _ E).
  - exists index. by apply (wf_lookup _ _ None _ _ _ _ _ E).
  - destruct (wf_insert capacity query id st c us cl index) as (r' & c1 & index' & E' & Hwf'); [done..|].
    rewrite E in E'. injection E' as <- <-. eauto.
  - exists index. by eapply wf_release.
Qed.

Lemma wf_reachable capacity s : 1 <= capacity -> reachable capacity s -> exists index, wf capacity s index.
Proof.
  intros Hcap. unfold reachable. apply (rtc_ind_r (fun s => exists index, wf capacity s index)).
  - exists ∅. apply wf_initial.
  - intros s1 s2 _ Hstep [index Hwf]. by eapply wf_step.
Qed.

(** * Properties *)

(** C4: However lookups, inserts and releases of cached statements interleave,
    no statement is closed on the server while somebody uses it or the cache
    still offers it, none is closed twice, every prepared statement is in use,
    in the cache or closed (none leaks), the cache stays within its capacity,
    and inserting a freshly prepared statement never panics. *)
Theorem cache_closes_exactly_unused (capacity : Z) (s : system) :
  1 <= capacity -> reachable capacity s ->
  NoDup (closedIds s) /\
  (forall id, id ∈ users s -> id ∉ closedIds s) /\
  (exists index, statementCache (cache s) = Some index /\ Z.of_nat (size index) <= capacity /\
    (forall query id, index !! query = Some id -> id ∉ closedIds s) /\
    (forall id, is_Some (heap (cache s) !! id) ->
       id ∈ closedIds s \/ id ∈ users s \/ exists query, index !! query = Some id)) /\
  (forall query id statement, heap (cache s) !! id = None -> evicted statement = false ->
     no_panic (insertSection capacity query id statement (cache s))).
Proof.
  intros Hcap Hr. destruct (wf_reachable _ _ Hcap Hr) as [index Hwf]. destruct s as [c us cl]. split_and!.
  - by destruct Hwf.
  - intros id Hin. by destruct (wf_used _ _ _ Hwf id Hin).
  - exists index. destruct Hwf. cbn in *. split_and!; [done|lia| |].
    + intros query id Hq. by destruct (wf_indexed0 _ _ Hq) as (? & _ & _ & ?).
    + intros id [st Hst]. destruct (decide (id ∈ cl)) as [|Hn]; [by left|right].
      specialize (wf_evicted0 _ _ Hst Hn). destruct (evicted st); [left|by right].
      rewrite (wf_refs0 _ _ Hst Hn) in wf_evicted0. destruct (decide (id ∈ us)); [done|].
      rewrite uses_not_in in wf_evicted0 by done. lia.
  - intros query id st Hf He.
    destruct (wf_insert capacity query id st c us cl index) as (r & c' & index' & E & _); [done..|].
    cbn. by rewrite E.
Qed.

Definition sampleStatement (handle : Z) : cachedStatement := mkStatement 1 handle (lit "STMT") None 0 false.

(** A cache of one: the second statement evicts the first, which is in use and
    closed by its release. *)
Definition evictedInUse : system :=
  Eval vm_compute in
    match insertSection 1 [65] 0 (sampleStatement 1) emptyCache with
    | Ret (r1, c1) =>
        match insertSection 1 [66] 1 (sampleStatement 2) c1 with
        | Ret (r2, c2) => mkSystem (releaseSection 0 c2).2 [1%nat] [0%nat]
        | _ => initial
        end
    | _ => initial
    end.

Lemma evictedInUse_reachable : reachable 1 evictedInUse.
Proof.
  eapply rtc_l; [eapply (step_insert 1 [65] 0 (sampleStatement 1)); reflexivity|].
  eapply rtc_l; [eapply (step_insert 1 [66] 1 (sampleStatement 2)); reflexivity|].
  eapply rtc_l; [|apply rtc_refl].
  apply (step_release 1 0 (Some 0%nat) _ _ [1%nat] [] []). vm_compute. reflexivity.
Qed.

Lemma cache_closes_exactly_unused_witness :
  NoDup (closedIds evictedInUse) /\ (forall id, id ∈ users evictedInUse -> id ∉ closedIds evictedInUse).
Proof.
  destruct (cache_closes_exactly_unused 1 evictedInUse) as (H1 & H2 & _); [lia|apply evictedInUse_reachable|].
  exact (conj H1 H2).
Defined.

(** [Close] between the two sections leaves a nil map, and the insert panics. *)
Example insert_after_close_panics :
  insertSection 4 [65] 0 (sampleStatement 1) (closeSection emptyCache) = Panic.
Proof. reflexivity. Qed.
