(* ===== verification/Attributes.v ===== *)
(** Server attributes (dbconn.go) and client information (clientinfo.go): what
    a connection tells the server about itself, the library list it asks for,
    and what it reads back.

    Identifiers are compared without regard to case as ASCII text. *)
From Stdlib Require Import Strings.String.
From stdpp Require Import base list numbers strings gmap.
From S2P Require Import Prelude GoStrings Utf Ccsid Wire Reply Format Request Config.
Open Scope Z_scope.

Record SystemInfo := mkSystemInfo {
  System : bytes;
  ServerVersion : Z;
  ServerLevel : Z;
  ServerCCSID : Z;
  ServerFunctionalLevel : Z;
  ServerJobIdentifier : bytes;
  PasswordLevel : Z;
  JobName : bytes;
}.

Definition withFunctionalLevel (s : SystemInfo) (level : Z) : SystemInfo :=
  mkSystemInfo (System s) (ServerVersion s) (ServerLevel s) (ServerCCSID s) level (ServerJobIdentifier s) (PasswordLevel s) (JobName s).
Definition withJobIdentifier (s : SystemInfo) (id : bytes) : SystemInfo :=
  mkSystemInfo (System s) (ServerVersion s) (ServerLevel s) (ServerCCSID s) (ServerFunctionalLevel s) id (PasswordLevel s) (JobName s).
Definition withJobName (s : SystemInfo) (name : bytes) : SystemInfo :=
  mkSystemInfo (System s) (ServerVersion s) (ServerLevel s) (ServerCCSID s) (ServerFunctionalLevel s) (ServerJobIdentifier s) (PasswordLevel s) name.

(** ** Identifiers and the library list *)

Definition EqualFold (s t : bytes) : bool := beqb (toLower (toUpper s)) (toLower (toUpper t)).

Definition normalizeServerIdentifier (value : bytes) : bytes :=
  let trimmed := trimSpace value in
  if len trimmed =? 0 then []
  else if hasPrefix trimmed [34] then trimmed
  else toUpper trimmed.

Definition containsNormalizedIdentifier (values : list bytes) (want : bytes) : bool :=
  existsb (fun value => EqualFold value want) values.

Definition isLibl (token : bytes) : bool := EqualFold token (lit "*LIBL").

Definition defaultSQLLibrary (cfg : Config) : bytes :=
  let schema := normalizeServerIdentifier (Schema cfg) in
  if negb (len schema =? 0) then schema
  else if decide (Naming cfg = NamingSQL) then
    default [] (List.find (fun normalized => negb (len normalized =? 0) && negb (isLibl normalized))
      (normalizeServerIdentifier <$> Libraries cfg))
  else [].

(** The normalised tokens, the schema first when it is not among them. *)
Definition libraryTokens (cfg : Config) : list bytes :=
  let tokens := filter (fun t => negb (len t =? 0)) (normalizeServerIdentifier <$> Libraries cfg) in
  let schema := normalizeServerIdentifier (Schema cfg) in
  if negb (len schema =? 0) && (len schema <=? 10) && negb (containsNormalizedIdentifier tokens schema)
  then schema :: tokens else tokens.

(** The number of libraries in front of the first *LIBL, or -1. *)
Fixpoint liblPosition (frontCount : Z) (tokens : list bytes) : Z :=
  match tokens with
  | [] => -1
  | token :: tokens' => if isLibl token then frontCount else liblPosition (frontCount + 1) tokens'
  end.

(** The indicator of each library, in order. *)
Fixpoint indicatorsOf (liblIndex nonLiblIndex : Z) (libraries : list bytes) : bytes :=
  match libraries with
  | [] => []
  | _ :: libraries' =>
      (if 0 <=? liblIndex then if nonLiblIndex <? liblIndex then 70 else 76
       else if 0 <? nonLiblIndex then 76 else 67) :: indicatorsOf liblIndex (nonLiblIndex + 1) libraries'
  end.

(** The first [n] elements in reverse order, swapped pairwise from both ends. *)
Definition reverseFront {A} (n : Z) (l : list A) : list A :=
  if 1 <? n then reverse (take (Z.to_nat n) l) ++ drop (Z.to_nat n) l else l.

Definition configuredLibraryList (cfg : Config) : bytes * list bytes :=
  let tokens := libraryTokens cfg in
  let liblIndex := liblPosition 0 tokens in
  let libraries := filter (fun t => negb (isLibl t)) tokens in
  (reverseFront liblIndex (indicatorsOf liblIndex 0 libraries), reverseFront liblIndex libraries).

(** ** Values of the attributes *)

Definition namingConventionValue (n : NamingConvention) : Z := if decide (n = NamingSystem) then 1 else 0.

Definition decimalPrecisionIndicators (cfg : Config) : bytes :=
  let precision := if DecimalMaxPrecision (Server cfg) =? 63 then 63 else defaultDecimalMaxPrecision in
  let precision := if 31 <? DecimalMaxScale (Server cfg) then 63 else precision in
  be16 precision ++ be16 (DecimalMaxScale (Server cfg)) ++ be16 (MinimumDivideScale (Server cfg)).

Definition queryOptimizeGoalValue (goal : Z) : Z :=
  if goal =? 1 then 0xC6 else if goal =? 2 then 0xC1 else 0.

Definition clientFunctionalLevel : bytes := lit "V7R2M01   ".
Definition interfaceName : bytes := lit "jtopenlite".
Definition interfaceLevel : bytes := lit "20230219".
Definition interfaceType : bytes := lit "JDBC".
Definition closeOnEOFMinVRM : Z := 0x060100.
Definition clientInfoMinVRM : Z := 0x060100.
Definition codePointPackageAddStatement : Z := 0x3812.
Definition codePointClientAccounting : Z := 0x3837.
Definition codePointApplicationName : Z := 0x3838.
Definition codePointClientUser : Z := 0x3839.
Definition codePointClientHostname : Z := 0x383A.
Definition codePointClientProgramID : Z := 0x383B.
Definition codePointQueryStorageLimit : Z := 0x3834.
Definition codePointQueryTimeout : Z := 0x3817.

(** The client information keys, with their code point and configured value. *)
Definition clientInfoAttributes : list (bytes * (Z * (clientOptions -> bytes))) :=
  [(lit "ApplicationName", (codePointApplicationName, ApplicationName));
   (lit "ClientUser", (codePointClientUser, ClientUser));
   (lit "ClientAccounting", (codePointClientAccounting, ClientAccounting));
   (lit "ClientHostname", (codePointClientHostname, ClientHostname));
   (lit "ClientProgramID", (codePointClientProgramID, ClientProgramID))].

Definition clientInfoAttribute (key : bytes) : option (Z * (clientOptions -> bytes)) :=
  snd <$> List.find (fun p => beqb p.1 key) clientInfoAttributes.

Definition clientInfoCodePoint (key : bytes) : option Z := fst <$> clientInfoAttribute key.

Definition clientInfoDSNValue (cfg : Config) (key : bytes) : bytes :=
  match clientInfoAttribute key with Some (_, value) => value (Client cfg) | None => [] end.

Definition clampQueryStorageLimit (limit : Z) : Z :=
  if limit <? -1 then -1 else if maxQueryStorageLimit <? limit then maxQueryStorageLimit else limit.

(** ** Requests and replies *)

Section Attributes.
Context `{TableFS}.

Definition appendClientInfoAttribute (dst : bytes) (codePoint : Z) (value : bytes) : outcome bytes :=
  encoded ← EncodeEBCDIC37 value;
  ensure (len encoded <=? clientInfoMaxBytes) (EText "client info value too long" [clientInfoMaxBytes])
    (Ret (dst ++ be32 (10 + len encoded) ++ be16 codePoint ++ be16 37 ++ be16 (len encoded) ++ encoded)).

(** The set client information values, in order, with their number. *)
Fixpoint appendClientInfos (dst : bytes) (count : Z) (attrs : list (Z * bytes)) : outcome (bytes * Z) :=
  match attrs with
  | [] => Ret (dst, count)
  | (cp, value) :: attrs' =>
      if len value =? 0 then appendClientInfos dst count attrs'
      else dst ← appendClientInfoAttribute dst cp value; appendClientInfos dst (count + 1) attrs'
  end.

Definition appendVRMOptionAttributes (dst : bytes) (cfg : Config) (serverVRM : Z) : outcome (bytes * Z) :=
  if serverVRM <? clientInfoMinVRM then Ret (dst, 0)
  else
    '(dst, count) ← appendClientInfos dst 0 ((fun p => (p.2.1, p.2.2 (Client cfg))) <$> clientInfoAttributes);
    Ret (if QueryStorageLimit (Client cfg) =? defaultQueryStorageLimit then (dst, count)
         else (appendIntAttribute dst codePointQueryStorageLimit
                 (u32 (i32 (clampQueryStorageLimit (QueryStorageLimit (Client cfg))))), count + 1)).

Definition buildSetClientInfoRequest (codePoint : Z) (value : bytes) : outcome bytes :=
  body ← appendClientInfoAttribute [] codePoint value;
  Ret (finishRequest DatabaseServerID FunctionSetAttributes (Z.lor orsSendReplyImmediately 0x01000000) 0 0 (body, 1)).

Definition buildChangeRPBQueryTimeoutRequest (statementHandle seconds : Z) : bytes :=
  finishRequest DatabaseServerID FunctionChangeRPB 0 statementHandle 0
    (appendIntAttribute [] codePointQueryTimeout (u32 seconds), 1).

(** One attribute more, counted. *)
Definition counted1 (f : bytes -> bytes) (b : body) : body := (f b.1, b.2 + 1).

(** A text attribute, counted. *)
Definition textAttribute (cp : Z) (value : bytes) (b : body) : outcome body :=
  body ← appendEBCDIC37StringAttribute b.1 cp value; Ret (body, b.2 + 1).

Definition fixedAttributes (cfg : Config) (autoCommit : bool) (commitmentControl serverVRM : Z) (b : body) : body :=
  let short cp v := counted1 (fun d => appendShortAttribute d cp v) in
  let byte cp v := counted1 (fun d => appendByteAttribute d cp v) in
  let s := Server cfg in
  let b := short CodePointNamingConvention (namingConventionValue (Naming cfg)) b in
  let b := short CodePointCommitmentControlLevel (serverCommitmentControl cfg autoCommit commitmentControl) b in
  let b := byte CodePointTrueAutoCommitIndicator (autoCommitIndicator autoCommit) b in
  let b := byte 0x3821 0xF2 b in
  let b := short codePointPackageAddStatement (if PackageAddDisabled (Packages cfg) then 0 else 1) b in
  let b := short CodePointDateFormat (DateFormat cfg) b in
  let b := short CodePointDateSeparator (DateSeparator cfg) b in
  let b := short CodePointTimeFormat (TimeFormat cfg) b in
  let b := short CodePointTimeSeparator (TimeSeparator cfg) b in
  let b := short CodePointDecimalSeparator (DecimalSeparator cfg) b in
  let b := counted1 (fun d => appendRawAttribute d CodePointDecimalPrecision (decimalPrecisionIndicators cfg)) b in
  let b := counted1 (fun d => appendIntAttribute d CodePointLOBFieldThreshold (lobThresholdValue cfg)) b in
  let goal := queryOptimizeGoalValue (QueryOptimizeGoal s) in
  let b := if goal =? 0 then b else byte CodePointQueryOptimizeGoal goal b in
  let b := if DecfloatRoundingMode s =? 0 then b
           else short CodePointDecfloatRoundingMode (DecfloatRoundingMode s) b in
  if closeOnEOFMinVRM <=? serverVRM then byte CodePointCloseOnEOF 0xE8 b else b.

Definition buildSetServerAttributesRequestVRM (cfg : Config) (autoCommit : bool) (commitmentControl serverVRM : Z)
    : outcome bytes :=
  let b := counted1 (fun d => appendShortAttribute d CodePointMessageID 13488) ([], 0) in
  b ← textAttribute CodePointClientFunctionalLevel clientFunctionalLevel b;
  let b := fixedAttributes cfg autoCommit commitmentControl serverVRM b in
  '(body, optionCount) ← appendVRMOptionAttributes b.1 cfg serverVRM;
  let b := (body, b.2 + optionCount) in
  let b := counted1 (fun d => appendByteAttribute d 0x3805 0xF0) b in
  let b := counted1 (fun d => appendShortAttribute d 0x3806 1) b in
  let b := counted1 (fun d => appendIntAttribute d 0x3825 0xF6000000) b in
  b ← textAttribute 0x383C interfaceType b;
  b ← textAttribute 0x383D interfaceName b;
  b ← textAttribute 0x383E interfaceLevel b;
  let schema := defaultSQLLibrary cfg in
  b ← (if len schema =? 0 then Ret b else textAttribute CodePointDefaultSQLLibrary schema b);
  Ret (finishRequest DatabaseServerID FunctionSetAttributes (Z.lor orsSendReplyImmediately 0x01000000) 0 0 b).

(** The part of a text that decodes, when it does. *)
Definition decoded37 (data : bytes) : outcome (option bytes) :=
  match DecodeEBCDIC37 data with
  | Ret text => Ret (Some text)
  | Fail _ => Ret None
  | Panic => Panic
  end.

(** The level is the number from the seventh character on. *)
Definition functionalLevelOf (text : bytes) : option Z :=
  let trimmed := trimSpace text in
  if 7 <=? len trimmed then
    match parseInt64 (trimSpace (drop 6 trimmed)) with Ret level => Some level | _ => None end
  else None.

Definition parseServerAttributesBlock (data : bytes) (info : SystemInfo) : outcome SystemInfo :=
  if len data <? 90 + 26 then Fail (EText "server attributes too short" [len data])
  else
    levelData ← slice data 52 (52 + 10);
    level ← decoded37 levelData;
    let info :=
      match level ≫= functionalLevelOf with Some n => withFunctionalLevel info n | None => info end in
    jobData ← slice data 90 (90 + 26);
    job ← decoded37 jobData;
    Ret (match job with Some id => withJobIdentifier info id | None => info end).

Definition serverAttributesBody (info : SystemInfo) (codePoint : Z) (cpPayload : bytes)
    : outcome (SystemInfo + SystemInfo) :=
  if codePoint =? CodePointServerAttributes then inl <$> parseServerAttributesBlock cpPayload info
  else Ret (inl info).

(** A nil [info] is [None]. *)
Definition parseServerAttributesPayload (payload : bytes) (info : option SystemInfo) : outcome (option SystemInfo) :=
  match info with
  | None => Ret None
  | Some info =>
      r ← forLLCP (fun e => Fail e) serverAttributesBody (length payload) info payload;
      Ret (Some (match r with inl info | inr info => info end))
  end.
End Attributes.
