(* ===== verification/Session.v ===== *)
(** A connection: the state of [Conn] (driver.go), the exchange of requests and
    replies with the server (sql.go), transactions aside.

    Go code that reads and changes the connection is a computation [M A]: it
    takes the connection and returns the outcome and the connection it leaves.
    A connection is used by one goroutine at a time, as database/sql does; the
    critical sections of [mu], [opMu] and [nameMu] are then plain reads and
    writes.

    The network is an environment: the n-th exchange says whether the writes
    succeed, which bytes arrive before the read ends, the error it ends with,
    and how long each part takes.  A socket deadline is part of the environment
    too: a read that a deadline interrupts is an exchange whose bytes end with
    an error.  A native cancel runs on a connection of its own, so that it only
    shows here through the exchange it interrupts. *)
From Stdlib Require Import Strings.String.
From stdpp Require Import base list numbers strings gmap.
From S2P Require Import Prelude GoStrings Values Utf Ccsid Wire Reply Format Request Sqlca Config Package StatementCache Attributes.
Open Scope Z_scope.

(** ** Contexts

    The moment a context is done, with its error, and its deadline.  The timer
    of the context may fire after the deadline. *)
Record context := mkCtx { ctxDone : option (Z * goerror); ctxDeadline : option Z }.

Definition Background : context := mkCtx None None.

(** [ctx.Err()] at a time. *)
Definition ctxErr (ctx : context) (now : Z) : option goerror :=
  '(t, e) ← ctxDone ctx; if t <=? now then Some e else None.

(** What [context] promises about its values. *)
Definition ctx_ok (ctx : context) : Prop :=
  match ctxDone ctx with
  | None => True
  | Some (t, ECanceled) => True
  | Some (t, EDeadlineExceeded) => exists d, ctxDeadline ctx = Some d /\ d <= t
  | Some _ => False
  end.

Definition isContextError (e : goerror) : bool :=
  match e with ECanceled | EDeadlineExceeded => true | _ => false end.

Definition ctxIOError (ctx : context) (now : Z) : option goerror :=
  match ctxErr ctx now with
  | Some e => Some e
  | None =>
      match ctxDeadline ctx with
      | Some deadline => if deadline <=? now then Some EDeadlineExceeded else None
      | None => None
      end
  end.

Definition nativeCancelTimeout : Z := 10 * 1000000000.

Definition cleanupContext (ctx : context) (now : Z) : context :=
  match ctxErr ctx now with
  | None => ctx
  | Some _ => mkCtx (Some (now + nativeCancelTimeout, EDeadlineExceeded)) (Some (now + nativeCancelTimeout))
  end.

(** ** The connection

    [clock], [exchanges] and [trace] are what the environment has done so far;
    [destinations] is the caller's memory, which the output parameters of a CALL
    are assigned to. *)

Inductive event :=
| EvWrite (packet : bytes)
| EvWriteFailed (packet : bytes)
| EvClose.

Record Conn := mkConn {
  cfg : Config;
  systemInfo : option SystemInfo;
  netConn : option bytes;
  closed : bool;
  closeErr : option goerror;
  autoCommit : bool;
  currentCommitmentControl : Z;
  lastWarning : list SQLWarning;
  stmtCaching : stmtCache;
  pkg : option packageState;
  usedStatementHandles : gset Z;
  descriptorSeq : Z;
  cursorSeq : Z;
  defaultCursorBusy : gset Z;
  clientInfo : gmap bytes bytes;
  rpbTimeouts : gmap Z Z;
  clock : Z;
  exchanges : nat;
  trace : list event;
  destinations : gmap nat destination;
}.

Definition set_netConn (c : Conn) (v : option bytes) : Conn :=
  mkConn (cfg c) (systemInfo c) v (closed c) (closeErr c) (autoCommit c) (currentCommitmentControl c)
    (lastWarning c) (stmtCaching c) (pkg c) (usedStatementHandles c) (descriptorSeq c) (cursorSeq c)
    (defaultCursorBusy c) (clientInfo c) (rpbTimeouts c) (clock c) (exchanges c) (trace c) (destinations c).

Definition set_closed (c : Conn) (v : bool) : Conn :=
  mkConn (cfg c) (systemInfo c) (netConn c) v (closeErr c) (autoCommit c) (currentCommitmentControl c)
    (lastWarning c) (stmtCaching c) (pkg c) (usedStatementHandles c) (descriptorSeq c) (cursorSeq c)
    (defaultCursorBusy c) (clientInfo c) (rpbTimeouts c) (clock c) (exchanges c) (trace c) (destinations c).

Definition set_closeErr (c : Conn) (v : option goerror) : Conn :=
  mkConn (cfg c) (systemInfo c) (netConn c) (closed c) v (autoCommit c) (currentCommitmentControl c)
    (lastWarning c) (stmtCaching c) (pkg c) (usedStatementHandles c) (descriptorSeq c) (cursorSeq c)
    (defaultCursorBusy c) (clientInfo c) (rpbTimeouts c) (clock c) (exchanges c) (trace c) (destinations c).

Definition set_autoCommit (c : Conn) (v : bool) : Conn :=
  mkConn (cfg c) (systemInfo c) (netConn c) (closed c) (closeErr c) v (currentCommitmentControl c)
    (lastWarning c) (stmtCaching c) (pkg c) (usedStatementHandles c) (descriptorSeq c) (cursorSeq c)
    (defaultCursorBusy c) (clientInfo c) (rpbTimeouts c) (clock c) (exchanges c) (trace c) (destinations c).

Definition set_currentCommitmentControl (c : Conn) (v : Z) : Conn :=
  mkConn (cfg c) (systemInfo c) (netConn c) (closed c) (closeErr c) (autoCommit c) v (lastWarning c)
    (stmtCaching c) (pkg c) (usedStatementHandles c) (descriptorSeq c) (cursorSeq c) (defaultCursorBusy c)
    (clientInfo c) (rpbTimeouts c) (clock c) (exchanges c) (trace c) (destinations c).

Definition set_lastWarning (c : Conn) (v : list SQLWarning) : Conn :=
  mkConn (cfg c) (systemInfo c) (netConn c) (closed c) (closeErr c) (autoCommit c) (currentCommitmentControl c)
    v (stmtCaching c) (pkg c) (usedStatementHandles c) (descriptorSeq c) (cursorSeq c) (defaultCursorBusy c)
    (clientInfo c) (rpbTimeouts c) (clock c) (exchanges c) (trace c) (destinations c).

Definition set_stmtCaching (c : Conn) (v : stmtCache) : Conn :=
  mkConn (cfg c) (systemInfo c) (netConn c) (closed c) (closeErr c) (autoCommit c) (currentCommitmentControl c)
    (lastWarning c) v (pkg c) (usedStatementHandles c) (descriptorSeq c) (cursorSeq c) (defaultCursorBusy c)
    (clientInfo c) (rpbTimeouts c) (clock c) (exchanges c) (trace c) (destinations c).

Definition set_pkg (c : Conn) (v : option packageState) : Conn :=
  mkConn (cfg c) (systemInfo c) (netConn c) (closed c) (closeErr c) (autoCommit c) (currentCommitmentControl c)
    (lastWarning c) (stmtCaching c) v (usedStatementHandles c) (descriptorSeq c) (cursorSeq c)
    (defaultCursorBusy c) (clientInfo c) (rpbTimeouts c) (clock c) (exchanges c) (trace c) (destinations c).

Definition set_usedStatementHandles (c : Conn) (v : gset Z) : Conn :=
  mkConn (cfg c) (systemInfo c) (netConn c) (closed c) (closeErr c) (autoCommit c) (currentCommitmentControl c)
    (lastWarning c) (stmtCaching c) (pkg c) v (descriptorSeq c) (cursorSeq c) (defaultCursorBusy c)
    (clientInfo c) (rpbTimeouts c) (clock c) (exchanges c) (trace c) (destinations c).

Definition set_descriptorSeq (c : Conn) (v : Z) : Conn :=
  mkConn (cfg c) (systemInfo c) (netConn c) (closed c) (closeErr c) (autoCommit c) (currentCommitmentControl c)
    (lastWarning c) (stmtCaching c) (pkg c) (usedStatementHandles c) v (cursorSeq c) (defaultCursorBusy c)
    (clientInfo c) (rpbTimeouts c) (clock c) (exchanges c) (trace c) (destinations c).

Definition set_cursorSeq (c : Conn) (v : Z) : Conn :=
  mkConn (cfg c) (systemInfo c) (netConn c) (closed c) (closeErr c) (autoCommit c) (currentCommitmentControl c)
    (lastWarning c) (stmtCaching c) (pkg c) (usedStatementHandles c) (descriptorSeq c) v (defaultCursorBusy c)
    (clientInfo c) (rpbTimeouts c) (clock c) (exchanges c) (trace c) (destinations c).

Definition set_defaultCursorBusy (c : Conn) (v : gset Z) : Conn :=
  mkConn (cfg c) (systemInfo c) (netConn c) (closed c) (closeErr c) (autoCommit c) (currentCommitmentControl c)
    (lastWarning c) (stmtCaching c) (pkg c) (usedStatementHandles c) (descriptorSeq c) (cursorSeq c) v
    (clientInfo c) (rpbTimeouts c) (clock c) (exchanges c) (trace c) (destinations c).

Definition set_clientInfo (c : Conn) (v : gmap bytes bytes) : Conn :=
  mkConn (cfg c) (systemInfo c) (netConn c) (closed c) (closeErr c) (autoCommit c) (currentCommitmentControl c)
    (lastWarning c) (stmtCaching c) (pkg c) (usedStatementHandles c) (descriptorSeq c) (cursorSeq c)
    (defaultCursorBusy c) v (rpbTimeouts c) (clock c) (exchanges c) (trace c) (destinations c).

Definition set_rpbTimeouts (c : Conn) (v : gmap Z Z) : Conn :=
  mkConn (cfg c) (systemInfo c) (netConn c) (closed c) (closeErr c) (autoCommit c) (currentCommitmentControl c)
    (lastWarning c) (stmtCaching c) (pkg c) (usedStatementHandles c) (descriptorSeq c) (cursorSeq c)
    (defaultCursorBusy c) (clientInfo c) v (clock c) (exchanges c) (trace c) (destinations c).

Definition set_clock (c : Conn) (v : Z) : Conn :=
  mkConn (cfg c) (systemInfo c) (netConn c) (closed c) (closeErr c) (autoCommit c) (currentCommitmentControl c)
    (lastWarning c) (stmtCaching c) (pkg c) (usedStatementHandles c) (descriptorSeq c) (cursorSeq c)
    (defaultCursorBusy c) (clientInfo c) (rpbTimeouts c) v (exchanges c) (trace c) (destinations c).

Definition set_exchanges (c : Conn) (v : nat) : Conn :=
  mkConn (cfg c) (systemInfo c) (netConn c) (closed c) (closeErr c) (autoCommit c) (currentCommitmentControl c)
    (lastWarning c) (stmtCaching c) (pkg c) (usedStatementHandles c) (descriptorSeq c) (cursorSeq c)
    (defaultCursorBusy c) (clientInfo c) (rpbTimeouts c) (clock c) v (trace c) (destinations c).

Definition set_trace (c : Conn) (v : list event) : Conn :=
  mkConn (cfg c) (systemInfo c) (netConn c) (closed c) (closeErr c) (autoCommit c) (currentCommitmentControl c)
    (lastWarning c) (stmtCaching c) (pkg c) (usedStatementHandles c) (descriptorSeq c) (cursorSeq c)
    (defaultCursorBusy c) (clientInfo c) (rpbTimeouts c) (clock c) (exchanges c) v (destinations c).

Definition set_destinations (c : Conn) (v : gmap nat destination) : Conn :=
  mkConn (cfg c) (systemInfo c) (netConn c) (closed c) (closeErr c) (autoCommit c) (currentCommitmentControl c)
    (lastWarning c) (stmtCaching c) (pkg c) (usedStatementHandles c) (descriptorSeq c) (cursorSeq c)
    (defaultCursorBusy c) (clientInfo c) (rpbTimeouts c) (clock c) (exchanges c) (trace c) v.

(** ** Computations on a connection *)

Definition M (A : Type) : Type := Conn -> outcome A * Conn.

#[export] Instance M_ret : MRet M := fun _ a c => (Ret a, c).
#[export] Instance M_bind : MBind M := fun _ _ f m c =>
  match m c with
  | (Ret a, c') => f a c'
  | (Fail e, c') => (Fail e, c')
  | (Panic, c') => (Panic, c')
  end.

#[export] Instance M_fmap : FMap M := fun _ _ f m => m ≫= fun a => mret (f a).

Definition get : M Conn := fun c => (Ret c, c).
Definition modify (f : Conn -> Conn) : M unit := fun c => (Ret tt, f c).
Definition lift {A} (m : outcome A) : M A := fun c => (m, c).
Definition fail {A} (e : goerror) : M A := fun c => (Fail e, c).

(** The returned error as a value; a panic still propagates. *)
Definition attempt {A} (m : M A) : M (A + goerror) := fun c =>
  match m c with
  | (Ret a, c') => (Ret (inl a), c')
  | (Fail e, c') => (Ret (inr e), c')
  | (Panic, c') => (Panic, c')
  end.

(** [_ = m]: the result and the error are dropped. *)
Definition ignore {A} (m : M A) : M unit := _ ← attempt m; mret tt.

(** [defer cleanup; m]: the cleanup runs whatever [m] does, and does not change
    its result. *)
Definition deferring {A} (cleanup : M unit) (m : M A) : M A := fun c =>
  let '(r, c1) := m c in
  let '(r2, c2) := cleanup c1 in
  (match r2 with Panic => Panic | _ => r end, c2).

(** ** The environment *)

Record exchange := mkExchange {
  preambleWritten : bool;
  requestWritten : bool;
  arriving : bytes;
  arrivalEnd : goerror;
  preambleTime : Z;
  requestTime : Z;
  replyTime : Z;
  arriving_bytes : is_bytes arriving;
}.

Class Environment := {
  exchangeAt : nat -> exchange;
  cancelTime : nat -> Z;
}.

(** The layout of right-to-left text (bidi_settings.go): what the statement
    text and the names of columns go through, and whether it applies is in the
    configuration. *)
Class BidiLayout := {
  bidiStatementText : Conn -> bytes -> outcome bytes;
  bidiColumnName : Conn -> bytes -> Z -> outcome bytes;
}.

Section Session.
Context `{TableFS} `{Environment} `{BidiLayout}.

Definition IsValid (c : Conn) : bool := negb (closed c) && bool_decide (is_Some (netConn c)).

Definition log (ev : event) : M unit := modify (fun c => set_trace c (trace c ++ [ev])).
Definition spend (time : Z) : M unit := modify (fun c => set_clock c (clock c + Z.max time 0)).

(** ** sql.go: requests *)

Definition invalidateConnection (err : goerror) : M unit :=
  modify (fun c =>
    let conn := netConn c in
    let c := if closed c then c else set_netConn (set_closed c true) None in
    let c := match closeErr c with None => set_closeErr c (Some err) | Some _ => c end in
    match conn with Some _ => set_trace c (trace c ++ [EvClose]) | None => c end).

(** A failed write or read: the context explains it, or the connection is bad. *)
Definition ioFailed {A} (ctx : context) : M A :=
  c ← get;
  match ctxIOError ctx (clock c) with
  | Some e => invalidateConnection e;; fail e
  | None => invalidateConnection EBadConn;; fail EBadConn
  end.

(** [conn.Write(packet)]. *)
Definition writePacket (ctx : context) (written : bool) (time : Z) (packet : bytes) : M unit :=
  spend time;;
  if written then log (EvWrite packet) else log (EvWriteFailed packet);; ioFailed ctx.

(** The socket keeps what the read left. *)
Definition leaveUnread (rest : bytes) (c : Conn) : Conn :=
  match netConn c with Some _ => set_netConn c (Some rest) | None => c end.

(** [readPacket(conn)] of what is left unread and what arrives. *)
Definition receivePacket (ctx : context) (ex : exchange) : M bytes :=
  spend (replyTime ex);;
  c ← get;
  match readPacket (mkInbound (default [] (netConn c) ++ arriving ex) (arrivalEnd ex)) with
  | (Ret packet, rest) => modify (leaveUnread (pending rest));; mret packet
  | (Fail _, _) => ioFailed ctx
  | (Panic, _) => lift Panic
  end.

(** The environment's next exchange. *)
Definition nextExchange : M exchange := fun c => (Ret (exchangeAt (exchanges c)), set_exchanges c (S (exchanges c))).

Definition doRequestWithPreamble (ctx : context) (preamble request : bytes) : M (replyEnvelope * bytes) :=
  c ← get;
  match ctxErr ctx (clock c) with
  | Some e => invalidateConnection e;; fail e
  | None =>
      if negb (IsValid c) then fail EBadConn
      else
        ex ← nextExchange;
        (if 0 <? len preamble then writePacket ctx (preambleWritten ex) (preambleTime ex) preamble else mret tt);;
        writePacket ctx (requestWritten ex) (requestTime ex) request;;
        packet ← receivePacket ctx ex;
        lift (readReplyEnvelope packet)
  end.

Definition doRequest (ctx : context) (request : bytes) : M (replyEnvelope * bytes) :=
  doRequestWithPreamble ctx [] request.

(** [sendWithoutReply] of package_cache.go and [sendRequestNoReply] of
    clientinfo.go: a request the server does not answer. *)
Definition sendWithoutReply (ctx : context) (request : bytes) : M unit :=
  c ← get;
  match ctxErr ctx (clock c) with
  | Some e => invalidateConnection e;; fail e
  | None =>
      if negb (IsValid c) then fail EBadConn
      else
        ex ← nextExchange;
        spend (requestTime ex);;
        if requestWritten ex then log (EvWrite request)
        else
          log (EvWriteFailed request);;
          c ← get;
          match ctxErr ctx (clock c) with
          | Some e => invalidateConnection e;; fail e
          | None => invalidateConnection EBadConn;; fail EBadConn
          end
  end.

Definition canCancelNatively (c : Conn) : bool :=
  match systemInfo c with
  | None => false
  | Some info => (5 <=? ServerFunctionalLevel info) && negb (len (trimSpace (ServerJobIdentifier info)) =? 0)
  end.

(** With native cancel the socket gets no deadline, and a reply that arrives
    after the context is done is consumed: the connection stays valid. *)
Definition doStatementRequest (ctx : context) (request : bytes) : M (replyEnvelope * bytes) :=
  c ← get;
  if negb (canCancelNatively c) then doRequest ctx request
  else
    match ctxErr ctx (clock c) with
    | Some e => fail e
    | None =>
        if negb (IsValid c) then fail EBadConn
        else
          ex ← nextExchange;
          writePacket ctx (requestWritten ex) (requestTime ex) request;;
          packet ← receivePacket ctx ex;
          match readReplyEnvelope packet with
          | Ret reply =>
              c ← get;
              match ctxErr ctx (clock c) with Some e => fail e | None => mret reply end
          | Fail _ => ioFailed ctx
          | Panic => lift Panic
          end
    end.

(** [_ = c.cancelStatement(context.Background(), handle)]: another connection;
    only its time shows here. *)
Definition cancelStatement : M unit := c ← get; spend (cancelTime (exchanges c)).

(** ** driver.go and reply_error.go: warnings and errors *)

Definition ClearWarnings : M unit := modify (fun c => set_lastWarning c []).

(** A nil warning is the empty chain. *)
Definition recordWarning (w : list SQLWarning) : M unit :=
  modify (fun c => set_lastWarning c (lastWarning c ++ cloneSQLWarningChain w)).

Definition sqlFailure (e : SQLError) : goerror := ESQL (errCode e) (errState e) (sqlErrorText e) (errTokens e).

Definition newSQLError (ctx : context) (statementHandle : Z) (info : sqlcaInfo) : M goerror :=
  c ← get;
  r ← attempt (doRequest ctx (buildSendResultsSetRequest statementHandle (sqlMessageBitmap (ErrorsFull (Server (cfg c))))));
  e ← lift (sqlErrorWithText info (match r with inl (_, payload) => Ret payload | inr err => Fail err end));
  mret (sqlFailure e).

Definition checkReplyOf (ctx : context) (statementHandle : Z) (operation : string) (reply : replyEnvelope * bytes)
    : M unit :=
  verdict ← lift (checkReply operation reply.1 reply.2);
  match verdict with
  | ReplyOK => mret tt
  | ReplyWarning w => recordWarning [w]
  | ReplyProtocolError op class code => fail (EProtocol op class code)
  | SQLFailure info => e ← newSQLError ctx statementHandle info; fail e
  end.

(** The SQLCA of a reply that passed [checkReply]; a negative code is an error. *)
Definition replySQLCA (ctx : context) (statementHandle : Z) (payload : bytes) : M sqlcaInfo :=
  info ← lift (parseSQLCAFromPayload payload);
  if SQLCode info <? 0 then e ← newSQLError ctx statementHandle info; fail e
  else recordWarning (Warning info);; mret info.

(** The variant that records the warning before it looks at the code. *)
Definition replySQLCA' (ctx : context) (statementHandle : Z) (payload : bytes) : M sqlcaInfo :=
  info ← lift (parseSQLCAFromPayload payload);
  recordWarning (Warning info);;
  if SQLCode info <? 0 then e ← newSQLError ctx statementHandle info; fail e else mret info.

Definition recordDeleteDescriptorFailure (reply : (replyEnvelope * bytes) + goerror) : M unit :=
  match reply with
  | inr _ => recordWarning [mkWarning 0 [] (lit "delete descriptor request failed")]
  | inl (envelope, _) =>
      if hasError envelope
      then recordWarning [mkWarning (RCCode envelope) [] (lit "delete descriptor request failed")] else mret tt
  end.
End Session.

(** * Lemmas *)

(** ** Computations that keep a relation *)

Definition preserves {A} (R : Conn -> Conn -> Prop) (m : M A) : Prop :=
  forall c r c', m c = (r, c') -> R c c'.

Section Preserves.
Context (R : Conn -> Conn -> Prop) `{!PreOrder R}.

Lemma preserves_ret {A} (a : A) : preserves R (mret a).
Proof. intros c r c' [= <- <-]. reflexivity. Qed.
Lemma preserves_lift {A} (m : outcome A) : preserves R (lift m).
Proof. intros c r c' [= <- <-]. reflexivity. Qed.
Lemma preserves_fail {A} e : preserves R (@fail A e).
Proof. intros c r c' [= <- <-]. reflexivity. Qed.
Lemma preserves_get : preserves R get.
Proof. intros c r c' [= <- <-]. reflexivity. Qed.

Lemma preserves_bind {A B} (m : M A) (f : A -> M B) :
  preserves R m -> (forall a, preserves R (f a)) -> preserves R (m ≫= f).
Proof.
  intros Hm Hf c r c' E. unfold mbind, M_bind in E. destruct (m c) as [[a|e|] c1] eqn:Em.
  - transitivity c1; [by eapply Hm|by eapply Hf].
  - injection E as <- <-. by eapply Hm.
  - injection E as <- <-. by eapply Hm.
Qed.

Lemma preserves_fmap {A B} (f : A -> B) (m : M A) : preserves R m -> preserves R (f <$> m).
Proof. intros Hm. apply preserves_bind; [done|]. intros a. apply preserves_ret. Qed.

(** Reading the state first: what it read may be used. *)
Lemma preserves_get_bind {B} (f : Conn -> M B) :
  (forall c r c', f c c = (r, c') -> R c c') -> preserves R (get ≫= f).
Proof. intros Hf c r c' E. by apply Hf in E. Qed.

Lemma preserves_attempt {A} (m : M A) : preserves R m -> preserves R (attempt m).
Proof. intros Hm c r c' E. unfold attempt in E. destruct (m c) as [[] c1] eqn:Em; injection E as <- <-; by eapply Hm. Qed.

Lemma preserves_ignore {A} (m : M A) : preserves R m -> preserves R (ignore m).
Proof. intros Hm. apply preserves_bind; [by apply preserves_attempt|]. intros []; apply preserves_ret. Qed.

Lemma preserves_deferring {A} cleanup (m : M A) :
  preserves R cleanup -> preserves R m -> preserves R (deferring cleanup m).
Proof.
  intros Hc Hm c r c' E. unfold deferring in E. destruct (m c) as [r1 c1] eqn:Em.
  destruct (cleanup c1) as [r2 c2] eqn:Ec. injection E as _ <-. transitivity c1; [by eapply Hm|by eapply Hc].
Qed.
End Preserves.

Create HintDb steady.
#[export] Hint Resolve preserves_ret preserves_lift preserves_fail preserves_get preserves_attempt
  preserves_ignore preserves_deferring : steady.

(** Take a [preserves] goal apart. *)
Ltac preserve :=
  repeat match goal with
  | |- forall _, preserves _ _ => intros ?
  | |- preserves _ (_ ≫= _) => apply preserves_bind; [apply _| |]
  | |- preserves _ (let _ := _ in _) => cbv zeta
  | |- preserves _ (deferring _ _) => apply preserves_deferring; [apply _| |]
  | |- preserves _ (_ <$> _) => apply preserves_fmap; [apply _|]
  | |- preserves _ (attempt _) => apply preserves_attempt
  | |- preserves _ (ignore _) => apply preserves_ignore; [apply _|]
  | |- preserves _ (if ?b then _ else _) => destruct b
  | |- preserves _ (match ?x with _ => _ end) => destruct x
  | |- preserves _ _ => solve [eauto with steady typeclass_instances]
  end.

(** What a run [E : m c = (r, c')] keeps, added as a hypothesis. *)
Tactic Notation "kept" constr(R) "in" hyp(E) "as" simple_intropattern(K) :=
  match type of E with
  | ?m ?c = (_, ?c') =>
      let H := fresh in
      assert (H : preserves R m) by preserve; specialize (H _ _ _ E); revert H; intros K
  end.

(** What a [Ret] of a sequence says about its parts. *)
Lemma run_bind_Ret {A B} (m : M A) (f : A -> M B) c b c' :
  (m ≫= f) c = (Ret b, c') -> exists a c1, m c = (Ret a, c1) /\ f a c1 = (Ret b, c').
Proof. unfold mbind, M_bind. destruct (m c) as [[a|e|] c1]; [|done|done]. by exists a, c1. Qed.

(** ** What every exchange leaves alone

    [keeps] holds of every exchange, [steady] adds what a dead connection does:
    nothing more is written, and it stays dead. *)

(** A closed connection has no socket. *)
Definition conn_ok (c : Conn) : Prop := closed c = true -> netConn c = None.

(** What the socket has left unread are bytes. *)
Definition unread_ok (c : Conn) : Prop := is_bytes (default [] (netConn c)).

Record keeps (c c' : Conn) : Prop := {
  kp_cfg : cfg c' = cfg c;
  kp_systemInfo : systemInfo c' = systemInfo c;
  kp_handles : usedStatementHandles c' = usedStatementHandles c;
  kp_busy : defaultCursorBusy c' = defaultCursorBusy c;
  kp_autoCommit : autoCommit c' = autoCommit c;
  kp_commitment : currentCommitmentControl c' = currentCommitmentControl c;
  kp_caching : stmtCaching c' = stmtCaching c;
  kp_clock : clock c <= clock c';
  kp_trace : exists events, trace c' = trace c ++ events;
  kp_ok : conn_ok c -> conn_ok c';
  kp_unread : unread_ok c -> unread_ok c';
}.

Definition silent (c c' : Conn) : Prop := IsValid c' = false /\ trace c' = trace c.

Definition steady (c c' : Conn) : Prop :=
  keeps c c' /\ (conn_ok c -> IsValid c = false -> silent c c').

#[export] Instance keeps_preorder : PreOrder keeps.
Proof.
  split.
  - intros c. constructor; try done. exists []. by rewrite app_nil_r.
  - intros c1 c2 c3 [] []. constructor; try congruence; try lia; try tauto.
    destruct kp_trace0 as [l1 E1], kp_trace1 as [l2 E2]. exists (l1 ++ l2). by rewrite E2, E1, app_assoc.
Qed.

#[export] Instance steady_preorder : PreOrder steady.
Proof.
  split.
  - intros c. split; [reflexivity|]. intros _ ?. by split.
  - intros c1 c2 c3 [K1 D1] [K2 D2]. split; [by transitivity c2|]. intros Hok Hdead.
    destruct (D1 Hok Hdead) as [Hd E]. destruct (D2 (kp_ok _ _ K1 Hok) Hd) as [? E2].
    split; [done|by rewrite E2].
Qed.

Lemma steady_keeps {A} (m : M A) : preserves steady m -> preserves keeps m.
Proof. intros Hm c r c' E. by apply Hm in E as [? _]. Qed.

(** A guard on a live connection leaves only [keeps] to show. *)
Lemma steady_live c c' : IsValid c = true -> keeps c c' -> steady c c'.
Proof. intros Hv K. split; [done|]. intros _ Hd. by rewrite Hv in Hd. Qed.

Lemma dead_netConn c : conn_ok c -> IsValid c = false -> netConn c = None.
Proof. unfold IsValid, conn_ok. destruct (closed c), (netConn c); naive_solver. Qed.

#[export] Hint Resolve steady_keeps : steady.

(** A step of the state that writes none of the fields in question. *)
Ltac steady_fields := split; [constructor; cbn; try done; try lia; exists []; by rewrite app_nil_r|by intros _ ?].
Ltac steady_step := intros ? ? ? [= _ <-]; steady_fields.

Section Steady.
Context `{TableFS} `{Environment} `{BidiLayout}.

Lemma steady_spend t : preserves steady (spend t).
Proof. steady_step. Qed.
Lemma steady_nextExchange : preserves steady nextExchange.
Proof. steady_step. Qed.
Lemma steady_recordWarning w : preserves steady (recordWarning w).
Proof. steady_step. Qed.
Lemma steady_ClearWarnings : preserves steady ClearWarnings.
Proof. steady_step. Qed.
Lemma steady_cancelStatement : preserves steady cancelStatement.
Proof. intros c r c' E. by apply steady_spend in E. Qed.
Lemma keeps_log ev : preserves keeps (log ev).
Proof. intros c r c' [= _ <-]. constructor; cbn; try done. by eexists. Qed.

Lemma invalidate_dead e c r c' : invalidateConnection e c = (r, c') -> IsValid c' = false.
Proof.
  intros [= _ <-]. unfold IsValid. destruct (closed c) eqn:E; destruct (closeErr c) eqn:Ee, (netConn c) eqn:En;
    cbn; rewrite ?E, ?En; cbn; rewrite ?Ee; cbn; rewrite ?E; done.
Qed.

Lemma steady_invalidate e : preserves steady (invalidateConnection e).
Proof.
  intros c r c' E. pose proof (invalidate_dead _ _ _ _ E) as Hdead. revert E. intros [= _ <-].
  unfold steady, silent. destruct (netConn c) eqn:En.
  - split; [|intros Hok Hv; by rewrite (dead_netConn _ Hok Hv) in En].
    destruct (closed c) eqn:Ecl; destruct (closeErr c) eqn:Ee; constructor; unfold conn_ok, unread_ok; cbn;
      rewrite ?Ee; cbn; rewrite ?Ecl, ?En; cbn; try done; try (by eexists); intros Hok; first [constructor|by specialize (Hok eq_refl)].
  - split; [|intros _ _; split; [done|]; destruct (closed c), (closeErr c) eqn:Ee; cbn; by rewrite ?Ee].
    destruct (closed c) eqn:Ecl; destruct (closeErr c) eqn:Ee; constructor; unfold conn_ok, unread_ok; cbn;
      rewrite ?Ee; cbn; rewrite ?Ecl, ?En; cbn; try done; exists []; by rewrite app_nil_r.
Qed.

#[local] Hint Resolve steady_spend steady_nextExchange steady_recordWarning steady_invalidate
  steady_cancelStatement keeps_log : steady.

Lemma steady_ioFailed {A} ctx : preserves steady (@ioFailed A ctx).
Proof. unfold ioFailed. preserve. Qed.

Lemma steady_leaveUnread c rest : (unread_ok c -> is_bytes rest) -> steady c (leaveUnread rest c).
Proof.
  intros Hrest. unfold leaveUnread. destruct (netConn c) eqn:En; [|reflexivity].
  split; [split; cbn; try done; [exists []; by rewrite app_nil_r|]|].
  - unfold conn_ok; cbn. intros Hok Hc. by rewrite (Hok Hc) in En.
  - intros Hok Hv. by rewrite (dead_netConn _ Hok Hv) in En.
Qed.

#[local] Hint Resolve steady_ioFailed : steady.

Lemma keeps_writePacket ctx w t packet : preserves keeps (writePacket ctx w t packet).
Proof. unfold writePacket. preserve. Qed.

(** The bytes of a read: what was left unread, then what arrives. *)
Lemma inbound_bytes c ex : unread_ok c -> is_bytes (pending (mkInbound (default [] (netConn c) ++ arriving ex) (arrivalEnd ex))).
Proof. intros Hu. apply is_bytes_app. split; [done|apply arriving_bytes]. Qed.

Lemma steady_receivePacket ctx ex : preserves steady (receivePacket ctx ex).
Proof.
  unfold receivePacket. apply preserves_bind; [apply _|by eauto with steady|]. intros _. apply preserves_get_bind.
  intros c r c'. cbv beta. pose proof (fun Hu => readPacket_bytes _ (inbound_bytes c ex Hu)) as Hb.
  destruct (readPacket _) as [[packet|e|] rest]; [|by apply steady_ioFailed|by intros [= _ <-]].
  intros [= _ <-]. apply steady_leaveUnread. intros Hu. by destruct (Hb Hu).
Qed.
#[local] Hint Resolve keeps_writePacket steady_receivePacket : steady.

(** The guard of every request: the context and the connection are looked at
    before anything is written. *)
Lemma steady_guarded {A} ctx (late : goerror -> M A) (m : M A) :
  (forall e, preserves steady (late e)) -> preserves keeps m ->
  preserves steady (c ← get;
    match ctxErr ctx (clock c) with
    | Some e => late e
    | None => if negb (IsValid c) then fail EBadConn else m
    end).
Proof.
  intros Hl Hm. apply preserves_get_bind. intros c r c'. destruct (ctxErr ctx (clock c)); [apply Hl|].
  destruct (IsValid c) eqn:Hv; cbn; [|by intros [= _ <-]]. intros E. apply steady_live; [done|by eapply Hm].
Qed.

Lemma steady_doRequestWithPreamble ctx preamble request : preserves steady (doRequestWithPreamble ctx preamble request).
Proof. apply steady_guarded; preserve. Qed.
Lemma steady_doRequest ctx request : preserves steady (doRequest ctx request).
Proof. apply steady_doRequestWithPreamble. Qed.
Lemma steady_sendWithoutReply ctx request : preserves steady (sendWithoutReply ctx request).
Proof. apply steady_guarded; preserve. Qed.
#[local] Hint Resolve steady_doRequestWithPreamble steady_doRequest steady_sendWithoutReply : steady.

Lemma steady_doStatementRequest ctx request : preserves steady (doStatementRequest ctx request).
Proof.
  unfold doStatementRequest. apply preserves_get_bind. intros c r c'.
  destruct (canCancelNatively c); cbn [negb]; [|by apply steady_doRequest].
  apply (steady_guarded ctx fail); preserve.
Qed.

Lemma steady_newSQLError ctx h info : preserves steady (newSQLError ctx h info).
Proof. unfold newSQLError. preserve. Qed.
#[local] Hint Resolve steady_newSQLError steady_ClearWarnings : steady.

Lemma steady_checkReplyOf ctx h op reply : preserves steady (checkReplyOf ctx h op reply).
Proof. unfold checkReplyOf. preserve. Qed.
Lemma steady_replySQLCA ctx h payload : preserves steady (replySQLCA ctx h payload).
Proof. unfold replySQLCA. preserve. Qed.
Lemma steady_replySQLCA' ctx h payload : preserves steady (replySQLCA' ctx h payload).
Proof. unfold replySQLCA'. preserve. Qed.
Lemma steady_recordDeleteDescriptorFailure reply : preserves steady (recordDeleteDescriptorFailure reply).
Proof. unfold recordDeleteDescriptorFailure. preserve. Qed.
End Steady.

#[export] Hint Resolve steady_spend steady_nextExchange steady_recordWarning steady_invalidate steady_cancelStatement
  steady_ClearWarnings steady_ioFailed keeps_log keeps_writePacket steady_receivePacket steady_doRequestWithPreamble steady_doRequest steady_sendWithoutReply
  steady_doStatementRequest steady_newSQLError steady_checkReplyOf steady_replySQLCA steady_replySQLCA'
  steady_recordDeleteDescriptorFailure : steady.

(** ** Replies are bytes *)

Section Replies.
Context `{TableFS} `{Environment}.

Lemma ioFailed_not_Ret {A} ctx c (a : A) c' : ioFailed ctx c <> (Ret a, c').
Proof. unfold ioFailed, mbind, M_bind, get. by destruct (ctxIOError ctx (clock c)). Qed.

Lemma receivePacket_bytes ctx ex c packet c' :
  unread_ok c -> receivePacket ctx ex c = (Ret packet, c') -> is_bytes packet.
Proof.
  intros Hu (? & c1 & E1 & E)%run_bind_Ret. pose proof (kp_unread _ _ (proj1 (steady_spend _ _ _ _ E1)) Hu) as Hu1.
  apply run_bind_Ret in E as (c2 & ? & [= -> <-] & E). pose proof (readPacket_bytes _ (inbound_bytes c2 ex Hu1)) as [_ Hb].
  destruct (readPacket _) as [[packet'|e|] rest]; [|by apply ioFailed_not_Ret in E|done].
  injection E as <- _. by apply Hb.
Qed.

Lemma doRequestWithPreamble_bytes ctx preamble request c reply c' :
  unread_ok c -> doRequestWithPreamble ctx preamble request c = (Ret reply, c') -> is_bytes reply.2.
Proof.
  intros Hu (c0 & ? & [= -> <-] & E)%run_bind_Ret. destruct (ctxErr ctx (clock c0)); [done|]. destruct (IsValid c0); [|done]. cbn in E.
  apply run_bind_Ret in E as (ex & c1 & E1 & E). kept keeps in E1 as K1.
  apply run_bind_Ret in E as ([] & c2 & E2 & E). kept keeps in E2 as K2.
  apply run_bind_Ret in E as ([] & c3 & E3 & E). kept keeps in E3 as K3.
  apply run_bind_Ret in E as (packet & c4 & E4 & E). apply receivePacket_bytes in E4.
  - injection E as E _. destruct reply as [envelope payload]. by eapply readReplyEnvelope_bytes.
  - by apply K3, K2, K1.
Qed.

Lemma doStatementRequest_bytes ctx request c reply c' :
  unread_ok c -> doStatementRequest ctx request c = (Ret reply, c') -> is_bytes reply.2.
Proof.
  intros Hu (c0 & ? & [= -> <-] & E)%run_bind_Ret. destruct (canCancelNatively c0); cbn in E; [|by eapply doRequestWithPreamble_bytes].
  cbn in E. destruct (ctxErr ctx (clock c0)); [done|]. destruct (IsValid c0); [|done]. cbn in E.
  apply run_bind_Ret in E as (ex & c1 & E1 & E). kept keeps in E1 as K1.
  apply run_bind_Ret in E as ([] & c2 & E2 & E). kept keeps in E2 as K2.
  apply run_bind_Ret in E as (packet & c3 & E3 & E). apply receivePacket_bytes in E3; [|by apply K2, K1].
  destruct (readReplyEnvelope packet) as [[envelope payload]|e|] eqn:Er; [|by apply ioFailed_not_Ret in E|done].
  apply run_bind_Ret in E as (c4 & ? & _ & E). destruct (ctxErr ctx (clock c4)); [done|]. injection E as <- _.
  by eapply readReplyEnvelope_bytes.
Qed.
End Replies.

(** ** What every operation keeps

    Operations that hand out statement ids, cursor names or the state of a
    transaction still only append to the trace, keep the configuration, and
    write nothing on a dead connection. *)
Record calm (c c' : Conn) : Prop := {
  cm_cfg : cfg c' = cfg c;
  cm_clock : clock c <= clock c';
  cm_trace : exists events, trace c' = trace c ++ events;
  cm_ok : conn_ok c -> conn_ok c';
  cm_silent : conn_ok c -> IsValid c = false -> silent c c';
}.

#[export] Instance calm_preorder : PreOrder calm.
Proof.
  split.
  - intros c. constructor; try done. exists []. by rewrite app_nil_r.
  - intros c1 c2 c3 [] []. constructor; try congruence; try lia; try tauto.
    + destruct cm_trace0 as [l1 E1], cm_trace1 as [l2 E2]. exists (l1 ++ l2). by rewrite E2, E1, app_assoc.
    + intros Hok Hdead. destruct (cm_silent0 Hok Hdead) as [Hd E]. destruct (cm_silent1 (cm_ok0 Hok) Hd) as [? E2].
      split; [done|by rewrite E2].
Qed.

Lemma steady_calm {A} (m : M A) : preserves steady m -> preserves calm m.
Proof. intros Hm c r c' E. apply Hm in E as [[] Hs]. by constructor. Qed.

(** The statement ids in use, and the busy default cursor names. *)
Definition same_handles (c c' : Conn) : Prop := usedStatementHandles c' = usedStatementHandles c.
Definition same_busy (c c' : Conn) : Prop := defaultCursorBusy c' = defaultCursorBusy c.

#[export] Instance same_handles_preorder : PreOrder same_handles.
Proof. split; [done|]. unfold same_handles. intros ?????. congruence. Qed.
#[export] Instance same_busy_preorder : PreOrder same_busy.
Proof. split; [done|]. unfold same_busy. intros ?????. congruence. Qed.

Lemma steady_handles {A} (m : M A) : preserves steady m -> preserves same_handles m.
Proof. intros Hm c r c' E. by apply Hm in E as [[] _]. Qed.
Lemma steady_busy {A} (m : M A) : preserves steady m -> preserves same_busy m.
Proof. intros Hm c r c' E. by apply Hm in E as [[] _]. Qed.

(** The statement cache, and the configuration that bounds it. *)
Definition same_caching (c c' : Conn) : Prop := stmtCaching c' = stmtCaching c /\ cfg c' = cfg c.

#[export] Instance same_caching_preorder : PreOrder same_caching.
Proof. split; [done|]. unfold same_caching. intros c1 c2 c3 [] []. split; congruence. Qed.

Lemma steady_same_caching {A} (m : M A) : preserves steady m -> preserves same_caching m.
Proof. intros Hm c r c' E. by apply Hm in E as [[] _]. Qed.

#[export] Hint Resolve steady_calm steady_handles steady_busy steady_same_caching : steady.

(** The package of the connection, which only preparing changes. *)
Definition same_pkg (c c' : Conn) : Prop := pkg c' = pkg c.

#[export] Instance same_pkg_preorder : PreOrder same_pkg.
Proof. split; [done|]. unfold same_pkg. intros ?????. congruence. Qed.

Section Same_package.
Context `{TableFS} `{Environment} `{BidiLayout}.

Ltac same_step := by intros ? ? ? [= _ <-].

Lemma same_pkg_spend t : preserves same_pkg (spend t).
Proof. same_step. Qed.
Lemma same_pkg_nextExchange : preserves same_pkg nextExchange.
Proof. same_step. Qed.
Lemma same_pkg_recordWarning w : preserves same_pkg (recordWarning w).
Proof. same_step. Qed.
Lemma same_pkg_cancelStatement : preserves same_pkg cancelStatement.
Proof. intros c r c' E. by apply same_pkg_spend in E. Qed.
Lemma same_pkg_log ev : preserves same_pkg (log ev).
Proof. same_step. Qed.
Lemma same_pkg_invalidate e : preserves same_pkg (invalidateConnection e).
Proof.
  intros c r c' [= _ <-]. unfold same_pkg. destruct (netConn c), (closed c), (closeErr c) eqn:Ee; cbn; rewrite ?Ee; done.
Qed.
#[local] Hint Resolve same_pkg_spend same_pkg_nextExchange same_pkg_recordWarning same_pkg_cancelStatement same_pkg_log
  same_pkg_invalidate : steady.

Lemma same_pkg_ioFailed {A} ctx : preserves same_pkg (@ioFailed A ctx).
Proof. unfold ioFailed. preserve. Qed.
#[local] Hint Resolve same_pkg_ioFailed : steady.
Lemma same_pkg_writePacket ctx w t packet : preserves same_pkg (writePacket ctx w t packet).
Proof. unfold writePacket. preserve. Qed.
Lemma same_pkg_receivePacket ctx ex : preserves same_pkg (receivePacket ctx ex).
Proof.
  unfold receivePacket. apply preserves_bind; [apply _|by eauto with steady|]. intros _. apply preserves_get_bind.
  intros c r c'. destruct (readPacket _) as [[packet|e|] rest]; [|by apply same_pkg_ioFailed|by intros [= _ <-]].
  intros [= _ <-]. unfold same_pkg, leaveUnread. by destruct (netConn c).
Qed.
#[local] Hint Resolve same_pkg_writePacket same_pkg_receivePacket : steady.
Lemma same_pkg_doRequestWithPreamble ctx preamble request : preserves same_pkg (doRequestWithPreamble ctx preamble request).
Proof. unfold doRequestWithPreamble. preserve. Qed.
Lemma same_pkg_doRequest ctx request : preserves same_pkg (doRequest ctx request).
Proof. apply same_pkg_doRequestWithPreamble. Qed.
Lemma same_pkg_sendWithoutReply ctx request : preserves same_pkg (sendWithoutReply ctx request).
Proof. unfold sendWithoutReply. preserve. Qed.
#[local] Hint Resolve same_pkg_doRequest same_pkg_sendWithoutReply : steady.
Lemma same_pkg_doStatementRequest ctx request : preserves same_pkg (doStatementRequest ctx request).
Proof. unfold doStatementRequest. preserve. Qed.
Lemma same_pkg_newSQLError ctx h info : preserves same_pkg (newSQLError ctx h info).
Proof. unfold newSQLError. preserve. Qed.
#[local] Hint Resolve same_pkg_newSQLError : steady.
Lemma same_pkg_checkReplyOf ctx h op reply : preserves same_pkg (checkReplyOf ctx h op reply).
Proof. unfold checkReplyOf. preserve. Qed.
Lemma same_pkg_replySQLCA ctx h payload : preserves same_pkg (replySQLCA ctx h payload).
Proof. unfold replySQLCA. preserve. Qed.
Lemma same_pkg_replySQLCA' ctx h payload : preserves same_pkg (replySQLCA' ctx h payload).
Proof. unfold replySQLCA'. preserve. Qed.
Lemma same_pkg_recordDeleteDescriptorFailure reply : preserves same_pkg (recordDeleteDescriptorFailure reply).
Proof. unfold recordDeleteDescriptorFailure. preserve. Qed.
End Same_package.

#[export] Hint Resolve same_pkg_doRequestWithPreamble same_pkg_doRequest same_pkg_sendWithoutReply
  same_pkg_doStatementRequest same_pkg_checkReplyOf same_pkg_replySQLCA same_pkg_replySQLCA' same_pkg_recordWarning
  same_pkg_recordDeleteDescriptorFailure same_pkg_cancelStatement same_pkg_newSQLError : steady.

(** ** Who answers for [driver.ErrBadConn]

    [honest look ctx m]: on a live connection [m] either returns with the
    connection still live, or drops it and fails with what [look] says of the
    context at that moment, which is [driver.ErrBadConn] when it says nothing,
    or fails with another error and leaves the connection live.  [look] is
    [ctxIOError] where the code asks for the deadline and [ctxErr] where it does
    not. *)
Definition lost (look : context -> Z -> option goerror) (ctx : context) (e : goerror) (c' : Conn) : Prop :=
  IsValid c' = false /\ e = default EBadConn (look ctx (clock c')).

Definition honest {A} (look : context -> Z -> option goerror) (ctx : context) (m : M A) : Prop := forall c r c',
  IsValid c = true -> m c = (r, c') ->
  match r with
  | Ret _ => IsValid c' = true
  | Fail e => lost look ctx e c' \/ IsValid c' = true /\ e <> EBadConn
  | Panic => True
  end.

Lemma honest_ret {A} look ctx (a : A) : honest look ctx (mret a).
Proof. by intros c r c' Hv [= <- <-]. Qed.
Lemma honest_lift {A} look ctx (m : outcome A) : m <> Fail EBadConn -> honest look ctx (lift m).
Proof. intros Hm c r c' Hv [= <- <-]. destruct m as [|e|]; [done| |done]. right. split; [done|congruence]. Qed.
Lemma honest_fail {A} look ctx e : e <> EBadConn -> honest look ctx (@fail A e).
Proof. intros He. apply (honest_lift look ctx (Fail e)). congruence. Qed.

Lemma honest_bind {A B} look ctx (m : M A) (f : A -> M B) :
  honest look ctx m -> (forall a, honest look ctx (f a)) -> honest look ctx (m ≫= f).
Proof.
  intros Hm Hf c r c' Hv E. unfold mbind, M_bind in E. destruct (m c) as [[a|e|] c1] eqn:Em.
  - exact (Hf a _ _ _ (Hm _ _ _ Hv Em) E).
  - injection E as <- <-. exact (Hm _ _ _ Hv Em).
  - by injection E as <- <-.
Qed.

Lemma honest_get {B} look ctx (f : Conn -> M B) :
  (forall c r c', IsValid c = true -> f c c = (r, c') ->
     match r with
     | Ret _ => IsValid c' = true
     | Fail e => lost look ctx e c' \/ IsValid c' = true /\ e <> EBadConn
     | Panic => True
     end) -> honest look ctx (get ≫= f).
Proof. intros Hf c r c' Hv E. by apply (Hf c). Qed.

Ltac honest_step := by intros c r c' ? [= <- <-].

Section Honest.
Context `{TableFS} `{Environment} `{BidiLayout}.

Lemma honest_spend look ctx t : honest look ctx (spend t).
Proof. honest_step. Qed.
Lemma honest_nextExchange look ctx : honest look ctx nextExchange.
Proof. honest_step. Qed.
Lemma honest_log look ctx ev : honest look ctx (log ev).
Proof. honest_step. Qed.
Lemma honest_leaveUnread look ctx rest : honest look ctx (modify (leaveUnread rest)).
Proof.
  intros c r c' Hv [= <- <-]. revert Hv. unfold leaveUnread, IsValid. destruct (netConn c) eqn:En; cbn.
  - by destruct (closed c).
  - rewrite andb_false_r. done.
Qed.

(** A context that is done has a deadline behind it, or was cancelled: never
    with [driver.ErrBadConn] as its error. *)
Lemma ctxErr_not_bad ctx t e : ctx_ok ctx -> ctxErr ctx t = Some e -> e <> EBadConn.
Proof.
  unfold ctx_ok, ctxErr. destruct (ctxDone ctx) as [[t' e']|]; cbn; [|done]. intros Hok.
  destruct (t' <=? t); [|done]. intros [= <-] ->. done.
Qed.
Lemma ctxIOError_not_bad ctx t e : ctx_ok ctx -> ctxIOError ctx t = Some e -> e <> EBadConn.
Proof.
  intros Hok. unfold ctxIOError. destruct (ctxErr ctx t) as [e'|] eqn:E; [intros [= <-]; by eapply ctxErr_not_bad|].
  destruct (ctxDeadline ctx) as [d|]; [|done]. destruct (d <=? t); [by intros [= <-]|done].
Qed.

Lemma ctxErr_ioError ctx t e : ctxErr ctx t = Some e -> ctxIOError ctx t = Some e.
Proof. unfold ctxIOError. by intros ->. Qed.

(** Dropping the connection spends no time. *)
Lemma invalidate_lost {A} look ctx e c (r : outcome A) c' :
  default EBadConn (look ctx (clock c)) = e -> (invalidateConnection e;; @fail A e) c = (r, c') ->
  r = Fail e /\ lost look ctx e c'.
Proof.
  intros He E. change ((Fail e, (invalidateConnection e c).2) = (r, c')) in E. injection E as <- <-. split; [done|].
  split; [exact (invalidate_dead e c _ _ eq_refl)|]. rewrite <-He. do 2 f_equal.
  cbn. destruct (closed c); destruct (closeErr _); cbn; by destruct (netConn c).
Qed.

Lemma honest_ioFailed {A} ctx : honest ctxIOError ctx (@ioFailed A ctx).
Proof.
  apply honest_get. intros c r c' _. destruct (ctxIOError ctx (clock c)) as [e|] eqn:Ee; intros E;
    apply (invalidate_lost ctxIOError ctx) in E as [-> E]; rewrite ?Ee; try done; by left.
Qed.

Lemma honest_writePacket ctx w t packet : honest ctxIOError ctx (writePacket ctx w t packet).
Proof.
  apply honest_bind; [apply honest_spend|intros _]. destruct w; [apply honest_log|].
  apply honest_bind; [apply honest_log|intros _; by apply honest_ioFailed].
Qed.

Lemma honest_receivePacket ctx ex : honest ctxIOError ctx (receivePacket ctx ex).
Proof.
  apply honest_bind; [apply honest_spend|intros _]. apply honest_get. intros c r c' Hv.
  destruct (readPacket _) as [[packet|e|] rest]; [|by apply honest_ioFailed|by apply honest_lift].
  apply (honest_bind ctxIOError ctx); [apply honest_leaveUnread|intros _; apply honest_ret|done].
Qed.

Lemma bind_avoids {A B} (m : outcome A) (f : A -> outcome B) e :
  m <> Fail e -> (forall a, f a <> Fail e) -> m ≫= f <> Fail e.
Proof. destruct m; cbn; [auto|congruence|done]. Qed.
Lemma uint_at_avoids n bs off e : uint_at n bs off <> Fail e.
Proof. unfold uint_at, slice. by case_match. Qed.
Lemma slice_avoids bs lo hi e : slice bs lo hi <> Fail e.
Proof. unfold slice. by case_match. Qed.

Lemma readReplyEnvelope_not_bad packet : readReplyEnvelope packet <> Fail EBadConn.
Proof.
  unfold readReplyEnvelope, ParseHeader, ensure.
  repeat first
    [ apply uint_at_avoids | apply slice_avoids | done | apply bind_avoids | match goal with |- forall _, _ <> _ => intros ? end
    | match goal with |- (if ?b then _ else _) <> _ => destruct b end ].
Qed.

(** The guard of a request: a context that is done costs the connection or
    not, a dead connection is not there. *)
Lemma honest_guarded {A} (look : context -> Z -> option goerror) ctx (m : M A) :
  (forall t e, ctxErr ctx t = Some e -> look ctx t = Some e) -> honest look ctx m ->
  honest look ctx (c ← get;
    match ctxErr ctx (clock c) with
    | Some e => invalidateConnection e;; fail e
    | None => if negb (IsValid c) then fail EBadConn else m
    end).
Proof.
  intros Hlook Hm. apply honest_get. intros c r c' Hv. destruct (ctxErr ctx (clock c)) as [e|] eqn:Ee; intros E.
  - apply (invalidate_lost look ctx) in E as [-> E]; [by left|by rewrite (Hlook _ _ Ee)].
  - rewrite Hv in E. by apply Hm in E.
Qed.

Lemma honest_doRequestWithPreamble ctx preamble request :
  honest ctxIOError ctx (doRequestWithPreamble ctx preamble request).
Proof.
  apply honest_guarded; [apply ctxErr_ioError|]. apply honest_bind; [apply honest_nextExchange|intros ex].
  apply honest_bind; [case_match; [by apply honest_writePacket|apply honest_ret]|intros _].
  apply honest_bind; [by apply honest_writePacket|intros _].
  apply honest_bind; [by apply honest_receivePacket|intros packet]. apply honest_lift, readReplyEnvelope_not_bad.
Qed.

Lemma honest_doStatementRequest ctx request : ctx_ok ctx -> honest ctxIOError ctx (doStatementRequest ctx request).
Proof.
  intros Hok. apply honest_get. intros c r c' Hv. destruct (canCancelNatively c); [|by apply honest_doRequestWithPreamble].
  cbn [negb]. destruct (ctxErr ctx (clock c)) as [e|] eqn:Ee; [apply honest_fail; [by eapply ctxErr_not_bad|done]|].
  rewrite Hv. refine (honest_bind ctxIOError ctx _ _ _ _ c r c' Hv); [apply honest_nextExchange|intros ex].
  apply honest_bind; [by apply honest_writePacket|intros _].
  apply honest_bind; [by apply honest_receivePacket|intros packet].
  destruct (readReplyEnvelope packet); [|by apply honest_ioFailed|by apply honest_lift].
  apply honest_get. intros c1 r1 c1' Hv1. destruct (ctxErr ctx (clock c1)) as [e|] eqn:Ee'; intros E; [|by injection E as <- <-].
  refine (honest_fail ctxIOError ctx _ _ _ _ _ Hv1 E). by eapply ctxErr_not_bad.
Qed.

Lemma honest_sendWithoutReply ctx request : honest ctxErr ctx (sendWithoutReply ctx request).
Proof.
  apply honest_guarded; [done|]. apply honest_bind; [apply honest_nextExchange|intros ex].
  apply honest_bind; [apply honest_spend|intros _]. destruct (requestWritten ex); [apply honest_log|].
  apply honest_bind; [apply honest_log|intros _]. apply honest_get. intros c r c' _.
  destruct (ctxErr ctx (clock c)) as [e|] eqn:Ee; intros E;
    apply (invalidate_lost ctxErr ctx) in E as [-> E]; rewrite ?Ee; try done; by left.
Qed.
End Honest.

(** * Properties *)

(** C3: a request that costs a live connection fails with what the context says
    at the moment the connection is dropped, and with [driver.ErrBadConn] only
    when the context says nothing then; any other failure leaves the connection
    live and is not [driver.ErrBadConn].  So an expired or cancelled context is
    always reported as itself, on the plain path and on the one with native
    cancel, where the context has also expired once its deadline has passed.  A
    request without a reply does the same but does not look at the deadline. *)
Theorem bad_conn_is_honest `{TableFS} `{Environment} (ctx : context) (preamble request : bytes) (c : Conn) :
  ctx_ok ctx -> IsValid c = true ->
  let honest_end {A} look (result : outcome A * Conn) :=
    match result.1 with
    | Ret _ => IsValid result.2 = true
    | Fail e =>
        IsValid result.2 = false /\ e = default EBadConn (look ctx (clock result.2)) \/
        IsValid result.2 = true /\ e <> EBadConn
    | Panic => True
    end in
  honest_end ctxIOError (doRequestWithPreamble ctx preamble request c) /\
  honest_end ctxIOError (doStatementRequest ctx request c) /\
  honest_end ctxErr (sendWithoutReply ctx request c).
Proof.
  intros Hok Hv honest_end. unfold honest_end. split_and!.
  - exact (honest_doRequestWithPreamble ctx preamble request c _ _ Hv (surjective_pairing _)).
  - exact (honest_doStatementRequest ctx request Hok c _ _ Hv (surjective_pairing _)).
  - exact (honest_sendWithoutReply ctx request c _ _ Hv (surjective_pairing _)).
Qed.

(** ** A connection to try things on *)

Definition sampleConn : Conn :=
  mkConn sampleConfig None (Some []) false None true 0 [] emptyCache None ∅ 0 0 ∅ ∅ ∅ 0 0 [] ∅.

(** A reply with nothing to say. *)
Definition okReply : bytes := buildHeader 40 0 DatabaseServerID 20 0x2800 ++ replicate 20 0.
Lemma okReply_bytes : is_bytes okReply.
Proof. apply (bool_decide_unpack _). vm_compute. exact I. Defined.
Definition answered (time : Z) : exchange := mkExchange true true okReply EEOF 0 0 time okReply_bytes.
(** A socket that fails after [time]. *)
Definition failing (time : Z) : exchange := mkExchange false false [] EEOF time time time (Forall_nil_2 _).

Definition always (ex : exchange) : Environment := {| exchangeAt _ := ex; cancelTime _ := 0 |}.
Definition noTables : TableFS := fun _ => NoFile.
Definition noBidi : BidiLayout := {| bidiStatementText _ t := Ret t; bidiColumnName _ n _ := Ret n |}.

(** A deadline at 10 whose timer fires at 11. *)
Definition lateTimer : context := mkCtx (Some (11, EDeadlineExceeded)) (Some 10).

Lemma bad_conn_is_honest_witness :
  let _ := always (failing 10) in
  (doRequestWithPreamble lateTimer [] [] sampleConn).1 = Fail EDeadlineExceeded /\
  match (doStatementRequest lateTimer [] sampleConn).1 with
  | Fail e => e = EDeadlineExceeded
  | _ => False
  end.
Proof.
  intros env. split; [by vm_compute|].
  destruct (@bad_conn_is_honest noTables env lateTimer [] [] sampleConn) as (_ & Hs & _);
    [by exists 10|reflexivity|]. revert Hs. vm_compute. intros [[_ Hs]|[Hs _]]; [exact Hs|discriminate Hs].
Defined.

(** The socket's deadline can pass before the timer of the context fires: a
    request that gets a reply reports the deadline, one that gets none reports
    a bad connection. *)
Example deadline_of_a_request :
  (@doRequest (always (failing 10)) lateTimer [] sampleConn).1 = Fail EDeadlineExceeded.
Proof. by vm_compute. Qed.
Example deadline_without_reply :
  (@sendWithoutReply (always (failing 10)) lateTimer [] sampleConn).1 = Fail EBadConn.
Proof. by vm_compute. Qed.

(** The whole request was written, the reply was lost: [driver.ErrBadConn]. *)
Example reply_lost :
  let '(r, c) := @doRequest (always (mkExchange true true [] EEOF 0 0 0 (Forall_nil_2 _))) Background [1] sampleConn in
  r = Fail EBadConn /\ trace c = [EvWrite [1]; EvClose].
Proof. by vm_compute. Qed.
