(* ===== verification/Statements.v ===== *)
(** Statements of a connection (sql.go, package.go, package_cache.go,
    clientinfo.go, call_result_sets.go): statement ids, descriptor handles and
    cursor names, the package a statement is prepared in, preparing, executing,
    opening, fetching and closing.

    The encoding of the arguments and the output parameters of a CALL are an
    interface, [Parameters]. *)
From Stdlib Require Import Strings.String.
From stdpp Require Import base list numbers strings gmap.
From S2P Require Import Prelude GoStrings Digits Utf Ccsid Wire Reply Format Request Sqlca Describe Config Package StatementCache Attributes Session.
Open Scope Z_scope.

(** What the statement operations ask of the parameter code: the bindings of the
    arguments, and the assignment of the output parameters of a CALL, which may
    retrieve large objects but leaves the statements of the connection alone. *)
Class Parameters := {
  namedValue : Type;
  buildParameterBindingsWithBidi : Conn -> option parameterMarkerFormat -> list namedValue -> outcome (list parameterBinding);
  assignCallOutputParameters : context -> bytes -> list parameterBinding -> M unit;
  steady_assignCallOutputParameters ctx payload bindings :
    preserves steady (assignCallOutputParameters ctx payload bindings);
  same_pkg_assignCallOutputParameters ctx payload bindings :
    preserves same_pkg (assignCallOutputParameters ctx payload bindings);
}.

(** ** Statement ids, descriptor handles and cursor names *)

Definition maxStatements : Z := 9999.

(** The ids 1, 2, ... *)
Fixpoint lowestUnused (fuel : nat) (id : Z) (used : gset Z) : option Z :=
  match fuel with
  | O => None
  | S fuel' => if decide (id ∈ used) then lowestUnused fuel' (id + 1) used else Some id
  end.

Definition statementNameOf (id : Z) : bytes := lit "STMT" ++ padHex 8 id.

Definition nextStatementName : M (bytes * Z) :=
  c ← get;
  match lowestUnused (Z.to_nat (maxStatements - 1)) 1 (usedStatementHandles c) with
  | Some id =>
      modify (fun c => set_usedStatementHandles c ({[id]} ∪ usedStatementHandles c));; mret (statementNameOf id, id)
  | None => fail EMaxStatements
  end.

Definition releaseStatementHandle (handle : Z) : M unit :=
  if handle =? 0 then mret tt
  else modify (fun c => set_usedStatementHandles c (usedStatementHandles c ∖ {[handle]})).

(** The counter has 32 bits and the handle its low 16, which are never 0. *)
Definition nextDescriptorHandle : M Z :=
  modify (fun c =>
    let seq := u32 (descriptorSeq c + 1) in
    set_descriptorSeq c (if u16 seq =? 0 then u32 (seq + 1) else seq));;
  c ← get; mret (u16 (descriptorSeq c)).

Definition extraCursorName (seq : Z) : bytes := lit "XCRSR" ++ padHex 8 seq.

Definition openCursorName (statementHandle : Z) : M (bytes * bool) :=
  c ← get;
  if decide (statementHandle ∈ defaultCursorBusy c) then
    let seq := u32 (cursorSeq c + 1) in
    let seq := if seq =? 0 then 1 else seq in
    modify (fun c => set_cursorSeq c seq);; mret (extraCursorName seq, false)
  else
    modify (fun c => set_defaultCursorBusy c ({[statementHandle]} ∪ defaultCursorBusy c));;
    mret (cursorNameForStatement statementHandle, true).

Definition releaseDefaultCursor (statementHandle : Z) : M unit :=
  modify (fun c => set_defaultCursorBusy c (defaultCursorBusy c ∖ {[statementHandle]})).

Definition releaseOpenCursorName (statementHandle : Z) (defaultCursor : bool) : M unit :=
  if defaultCursor then releaseDefaultCursor statementHandle else mret tt.

Definition cursorReuseNo : Z := 0xF0.
Definition cursorReuseYes : Z := 0xF1.
Definition cursorReuseResultSet : Z := 0xF2.

(** ** Parts of the package state *)

Definition withEnabled (p : packageState) (v : bool) : packageState :=
  mkState v (created p) (name p) (library p) (errMode p) (selectOK p) (cacheOn p) (Package.cache p) (statementPackaged p).
Definition withCreated (p : packageState) (v : bool) : packageState :=
  mkState (enabled p) v (name p) (library p) (errMode p) (selectOK p) (cacheOn p) (Package.cache p) (statementPackaged p).
Definition withCacheOn (p : packageState) (v : bool) : packageState :=
  mkState (enabled p) (created p) (name p) (library p) (errMode p) (selectOK p) v (Package.cache p) (statementPackaged p).
Definition withCache (p : packageState) (v : packageCache) : packageState :=
  mkState (enabled p) (created p) (name p) (library p) (errMode p) (selectOK p) (cacheOn p) (Some v) (statementPackaged p).

Definition modifyPackage (f : packageState -> packageState) : M unit := modify (fun c => set_pkg c (f <$> pkg c)).

(** ** Rows

    What an open statement leaves behind; the connection is the one the
    operations run on. *)

(** Who is told that the rows are closed: the [Stmt], or the statement cache. *)
Inductive owner := ReleaseStmt | ReleaseCached (id : nat).

Record queryRows := mkRows {
  rowsCtx : context;
  meta : resultSetMeta;
  statementHandle : Z;
  statementName : bytes;
  cursorName : bytes;
  defaultCursor : bool;
  fetchBufferSize : Z;
  resultSetCount : Z;
  resultSetIndex : Z;
  block : option fetchBlock;
  rowIndex : Z;
  currentRow : Z;
  currentResultSetDone : bool;
  storedProcResult : bool;
  scrollable : bool;
  ownStatement : bool;
  releaseStmt : option owner;
  rowsClosed : bool;
  serverClosed : bool;
  rowsEndOfData : bool;
}.

(** The rows of a fresh open. *)
Definition openedRows (ctx : context) (meta : resultSetMeta) (handle : Z) (name cursor : bytes) (default : bool)
    (bufferSize count : Z) (scrollable : bool) : queryRows :=
  mkRows ctx meta handle name cursor default bufferSize count 1 None 0 0 (len (columns meta) =? 0) false scrollable
    false None false false false.

Definition withResultSetCount (r : queryRows) (v : Z) : queryRows :=
  mkRows (rowsCtx r) (meta r) (statementHandle r) (statementName r) (cursorName r) (defaultCursor r) (fetchBufferSize r)
    v (resultSetIndex r) (block r) (rowIndex r) (currentRow r) (currentResultSetDone r) (storedProcResult r)
    (scrollable r) (ownStatement r) (releaseStmt r) (rowsClosed r) (serverClosed r) (rowsEndOfData r).
Definition withStoredProc (r : queryRows) (v : bool) : queryRows :=
  mkRows (rowsCtx r) (meta r) (statementHandle r) (statementName r) (cursorName r) (defaultCursor r) (fetchBufferSize r)
    (resultSetCount r) (resultSetIndex r) (block r) (rowIndex r) (currentRow r) (currentResultSetDone r) v
    (scrollable r) (ownStatement r) (releaseStmt r) (rowsClosed r) (serverClosed r) (rowsEndOfData r).
Definition withOwner (r : queryRows) (own : bool) (release : option owner) : queryRows :=
  mkRows (rowsCtx r) (meta r) (statementHandle r) (statementName r) (cursorName r) (defaultCursor r) (fetchBufferSize r)
    (resultSetCount r) (resultSetIndex r) (block r) (rowIndex r) (currentRow r) (currentResultSetDone r) (storedProcResult r)
    (scrollable r) own release (rowsClosed r) (serverClosed r) (rowsEndOfData r).

Definition withColumnName (c : columnMeta) (name : bytes) : columnMeta :=
  mkColumn
    name (colNameCCSID c) (colLabel c) (colBaseColumnName c) (colBaseTableName c) (colBaseSchemaName c)
    (colSQLFromTable c) (colSQLFromSchema c) (colUDTName c) (colType_ c) (colLength c) (colScale c)
    (colPrecision c) (colCCSID c) (colOffset c) (colLobMaxSize c) (colUpdateable c) (colSearchable c)
    (colIsIdentity c) (colIsAlwaysGenerated c) (colIsPartOfAnyIndex c) (colIsLoneUniqueIndex c)
    (colIsPartOfUniqueIndex c) (colIsExpression c) (colIsPrimaryKey c) (colIsNamed c) (colIsRowID c)
    (colIsRowChangeTimestamp c).

(** [meta.RowSize == 0] is filled in from the columns. *)
Definition sizedMeta (m : resultSetMeta) : resultSetMeta :=
  if metaRowSize m =? 0 then withRowSize m (sumColumnLengths (columns m)) else m.

Section Statements.
Context `{TableFS} `{Environment} `{BidiLayout} `{Parameters}.

(** ** Closing *)

Definition closeCursor (ctx : context) (cursorName : bytes) (reuseIndicator : Z) : M unit :=
  if len (trimSpace cursorName) =? 0 then mret tt
  else
    request ← lift (buildCloseCursorRequest cursorName reuseIndicator);
    reply ← doRequest ctx request;
    checkReplyOf ctx 0 "close cursor" reply.

Definition closeResultSetCursorNoReply (ctx : context) (statementHandle : Z) (cursorName : bytes)
    (reuseIndicator : Z) : M unit :=
  request ← lift (buildCloseResultSetCursorRequest statementHandle cursorName reuseIndicator);
  sendWithoutReply ctx request.

Definition closePreparedStatement (ctx : context) (statementName : bytes) (statementHandle : Z) : M unit :=
  if len (trimSpace statementName) =? 0 then mret tt
  else
    deferring (releaseStatementHandle statementHandle) (
      c ← get;
      if isCachedStatementName (pkg c) statementName then mret tt
      else
        reply ← doRequest ctx (buildDeleteRPBRequest statementHandle);
        checkReplyOf ctx 0 "delete RPB" reply).

(** A computation under the cleanup context of [ctx]. *)
Definition cleaningUp {A} (ctx : context) (m : context -> M A) : M A := c ← get; m (cleanupContext ctx (clock c)).

Definition discardStatement (ctx : context) (statementName : bytes) (statementHandle : Z) : M unit :=
  cleaningUp ctx (fun ctx => ignore (closePreparedStatement ctx statementName statementHandle)).

Definition closeInterruptedCursor (ctx : context) (cursorName : bytes) (openErr : goerror) : M unit :=
  c ← get;
  if negb (IsValid c) then mret tt
  else if negb (isContextError openErr) then mret tt
  else cleaningUp ctx (fun ctx => ignore (closeCursor ctx cursorName cursorReuseNo)).

(** ** The package *)

(** The messages that name a package; the one for unreadable info ends with the
    error's own text, which is left out. *)
Definition packageMessage (name : bytes) (problem : string) (class code : Z) (effect : string) : bytes :=
  lit "SQL package " ++ name ++ lit problem ++ lit " (class " ++ formatInt class ++ lit ", code " ++ formatInt code ++
  lit "); " ++ lit effect.

Definition packageError (mode : packageErrorOption) (state message : bytes) : M unit :=
  match mode with
  | PackageErrorException => fail (ESQL 0 state message [])
  | PackageErrorWarning => recordWarning [mkWarning 0 state message]
  | _ => mret tt
  end.

Definition packageNameCCSID (c : Conn) : Z :=
  match systemInfo c with None => 0 | Some info => ServerCCSID info end.

Definition cachePackage (ctx : context) (p : packageState) : M unit :=
  request ← lift (buildReturnPackageRequest (name p) (library p));
  reply ← doRequest ctx request;
  let '(envelope, payload) := reply in
  if negb (RCClass envelope =? 0) then
    modifyPackage (fun p => withCacheOn p false);;
    packageError (errMode p) packageSQLStateCacheDisabled
      (packageMessage (name p) " could not be read" (RCClass envelope) (RCCode envelope) "package cache disabled")
  else
    c ← get;
    match parsePackageInfo payload (packageNameCCSID c) with
    | Ret cache => modifyPackage (fun p => withCache p cache)
    | Fail _ =>
        modifyPackage (fun p => withCacheOn p false);;
        packageError (errMode p) packageSQLStateCacheDisabled
          (lit "SQL package " ++ name p ++ lit " info could not be read; package cache disabled")
    | Panic => lift Panic
    end.

Definition ensurePackage (ctx : context) : M unit :=
  c ← get;
  match pkg c with
  | None => mret tt
  | Some p =>
      if created p then mret tt
      else if negb (enabled p) then modifyPackage (fun p => withCreated p true)
      else
        request ← lift (buildCreatePackageRequest (name p) (library p));
        reply ← doRequest ctx request;
        let envelope := reply.1 in
        (if (RCClass envelope =? 1) && (RCCode envelope =? packageReturnAlreadyExists) then
           if cacheOn p then cachePackage ctx p else mret tt
         else if RCCode envelope =? packageReturnDefaultCollection then
           failure ← attempt (packageError (errMode p) packageSQLStateDisabled
             (lit "extended dynamic support disabled: the package default collection does not match the connection"));
           modifyPackage (fun p => withEnabled p false);;
           match failure with inl _ => mret tt | inr e => fail e end
         else if negb (RCClass envelope =? 0) then
           modifyPackage (fun p => withEnabled p false);;
           match errMode p with
           | PackageErrorException => fail (EProtocol "create package" (RCClass envelope) (RCCode envelope))
           | PackageErrorWarning =>
               recordWarning [mkWarning (RCCode envelope) []
                 (packageMessage (name p) " could not be created" (RCClass envelope) (RCCode envelope)
                    "extended dynamic support disabled")]
           | _ => mret tt
           end
         else mret tt);;
        modifyPackage (fun p => withCreated p true)
  end.

(** [c.pkg.specForPrepare], which notes whether the statement is packaged. *)
Definition specForPrepareOf (statementHandle : Z) (query : bytes) : M (option packageSpec) :=
  c ← get;
  let '(spec, p) := specForPrepare (pkg c) statementHandle query in
  modify (fun c => set_pkg c p);; mret spec.

(** The CCSID of statement text. *)
Definition statementTextCCSID (c : Conn) : Z := 
  match systemInfo c with
  | None => statementTextCCSIDFor (cfg c) 0 0
  | Some info => statementTextCCSIDFor (cfg c) (ServerCCSID info) (ServerVersion info)
  end.

(** ** Preparing *)

Definition prepareAndDescribe (ctx : context) (statementHandle : Z) (statementName query : bytes)
    : M (sqlcaInfo * option parameterMarkerFormat) :=
  ensurePackage ctx;;
  c ← get;
  creatRPBReq ← lift (buildCreateRPBRequest statementHandle statementName (specForLibrary (pkg c)));
  text ← lift (bidiStatementText c query);
  spec ← specForPrepareOf statementHandle query;
  c ← get;
  request ← lift (buildPrepareAndDescribeRequestCCSID statementHandle statementName text spec (statementTextCCSID c));
  r ← attempt (doRequestWithPreamble ctx creatRPBReq request);
  match r with
  | inr err => (if isContextError err then cancelStatement else mret tt);; fail err
  | inl reply =>
      checkReplyOf ctx statementHandle "prepare" reply;;
      info ← replySQLCA ctx statementHandle reply.2;
      parameterFormat ← lift (parseParameterMarkerFormatFromPayload reply.2);
      mret (info, parameterFormat)
  end.

Definition prepareOrReuse (ctx : context) (statementHandle : Z) (statementName query : bytes)
    : M (bytes * option parameterMarkerFormat) :=
  ensurePackage ctx;;
  c ← get;
  match cachedStatementFor (pkg c) query with
  | None =>
      '(_, format) ← prepareAndDescribe ctx statementHandle statementName query;
      mret (statementName, format)
  | Some cached =>
      specForPrepareOf statementHandle query;;
      c ← get;
      request ← lift (buildCreateRPBRequest statementHandle (Package.cachedName cached) (specForLibrary (pkg c)));
      sendWithoutReply ctx request;;
      mret (Package.cachedName cached, paramFormat cached)
  end.

(** The statement type, the handle, the name and the format. *)
Definition prepareTransientStatement (ctx : context) (query : bytes)
    : M (Z * Z * bytes * option parameterMarkerFormat) :=
  let statementType := classifySQLStatement query in
  '(statementName, statementHandle) ← nextStatementName;
  r ← attempt (prepareOrReuse ctx statementHandle statementName query);
  match r with
  | inr err => discardStatement ctx statementName statementHandle;; fail err
  | inl (preparedName, parameterFormat) => mret (statementType, statementHandle, preparedName, parameterFormat)
  end.

(** ** Executing *)

(** Whole seconds, rounded up, at least 1. *)
Definition remainingSeconds (d : Z) : Z :=
  let secs := - ((- d) / 1000000000) in
  if secs <? 1 then 1 else if 2 ^ 31 - 1 <? secs then 2 ^ 31 - 1 else secs.

Definition syncQueryTimeoutRPB (ctx : context) (statementHandle : Z) : M unit :=
  c ← get;
  if negb (TimeoutByServer (Client (cfg c))) then mret tt
  else
    let want := match ctxDeadline ctx with Some deadline => remainingSeconds (deadline - clock c) | None => -1 end in
    let previous := rpbTimeouts c !! statementHandle in
    if bool_decide (ctxDeadline ctx = None) && bool_decide (default (-1) previous = -1) then mret tt
    else if bool_decide (previous = Some want) then mret tt
    else
      sendWithoutReply ctx (buildChangeRPBQueryTimeoutRequest statementHandle want);;
      modify (fun c => set_rpbTimeouts c (<[statementHandle := want]> (rpbTimeouts c))).

Definition writeLOBData (ctx : context) (write : lobWriteRequest) : M unit :=
  reply ← doRequest ctx (buildWriteLOBDataRequest write);
  checkReplyOf ctx 0 "write LOB data" reply.

Fixpoint writeLOBs (ctx : context) (requests : list lobWriteRequest) : M unit :=
  match requests with
  | [] => mret tt
  | request :: requests' => writeLOBData ctx request;; writeLOBs ctx requests'
  end.

Definition writeLOBDataRequests (ctx : context) (bindings : list parameterBinding) : M unit :=
  writeLOBs ctx (collectLOBWriteRequests bindings).

Definition returnedResultSets : goerror := EText "statement returned result sets; use QueryContext" [].

Definition execContext (ctx : context) (query : bytes) : M execResult :=
  ClearWarnings;;
  let statementType := classifySQLStatement query in
  if statementType =? sqlStatementTypeSelect
  then fail (EUnsupported "ExecContext cannot execute query statements")
  else
    ensurePackage ctx;;
    c ← get;
    text ← lift (bidiStatementText c query);
    request ← lift (buildExecuteImmediateRequestCCSID text statementType
                      (specForImmediate (pkg c) query) (statementTextCCSID c));
    reply ← doRequest ctx request;
    checkReplyOf ctx 0 "execute" reply;;
    info ← replySQLCA' ctx 0 reply.2;
    if 0 <? ResultSetsCount info then fail returnedResultSets else mret (execResultOf info).

(** The descriptor of the bindings, set before the statement runs; what is left
    of it is deleted afterwards, with the context of the statement. *)
Definition changeDescriptor (ctx : context) (statementHandle : Z) (changeRequest : bytes)
    (bindings : list parameterBinding) : M unit :=
  reply ← doRequest ctx changeRequest;
  checkReplyOf ctx statementHandle "change descriptor" reply;;
  replySQLCA ctx statementHandle reply.2;;
  writeLOBDataRequests ctx bindings.

Definition deleteDescriptor (ctx : context) (statementHandle descriptorHandle : Z) : M unit :=
  reply ← attempt (doRequest ctx (buildDeleteDescriptorRequest statementHandle descriptorHandle));
  recordDeleteDescriptorFailure reply.

Definition executeStatement (ctx : context) (statementHandle statementType : Z)
    (format : option parameterMarkerFormat) (bindings : list parameterBinding) (descriptorHandle : Z) : M execResult :=
  c ← get;
  request ← lift (buildExecutePreparedRequest statementHandle descriptorHandle statementType format bindings
                    (specForExecute (pkg c) statementHandle));
  reply ← doStatementRequest ctx request;
  checkReplyOf ctx statementHandle "execute" reply;;
  info ← replySQLCA' ctx statementHandle reply.2;
  (if statementType =? sqlStatementTypeCall then assignCallOutputParameters ctx reply.2 bindings else mret tt);;
  if 0 <? ResultSetsCount info then fail returnedResultSets else mret (execResultOf info).

Definition execPrepared (ctx : context) (statementHandle statementType : Z)
    (format : option parameterMarkerFormat) (args : list namedValue) : M execResult :=
  if statementType =? sqlStatementTypeSelect
  then fail (EUnsupported "ExecContext cannot execute query statements")
  else
    c ← get;
    bindings ← lift (buildParameterBindingsWithBidi c format args);
    syncQueryTimeoutRPB ctx statementHandle;;
    if 0 <? len bindings then
      descriptorHandle ← nextDescriptorHandle;
      let changeRequest := buildChangeDescriptorRequest statementHandle descriptorHandle format bindings in
      deferring (deleteDescriptor ctx statementHandle descriptorHandle) (
        changeDescriptor ctx statementHandle changeRequest bindings;;
        executeStatement ctx statementHandle statementType format bindings descriptorHandle)
    else executeStatement ctx statementHandle statementType format bindings 0.

Definition execPreparedTransient (ctx : context) (query : bytes) (args : list namedValue) : M execResult :=
  '(statementType, statementHandle, statementName, parameterFormat) ← prepareTransientStatement ctx query;
  deferring (ignore (closePreparedStatement Background statementName statementHandle))
    (execPrepared ctx statementHandle statementType parameterFormat args).

(** ** Opening *)

(** The names of the columns in the client's bidirectional layout. *)
Definition layoutNames (c : Conn) (m : resultSetMeta) : outcome resultSetMeta :=
  withColumns m <$> mapM (fun col => withColumnName col <$> bidiColumnName c (colName col) (colNameCCSID col)) (columns m).

(** A request of a statement that the deadline interrupts: when the connection
    was lost, the server is told to stop the statement. *)
Definition statementRequest (ctx : context) (request : bytes) : M (replyEnvelope * bytes) :=
  r ← attempt (doStatementRequest ctx request);
  match r with
  | inl reply => mret reply
  | inr err =>
      c ← get;
      (if isContextError err && negb (IsValid c) then cancelStatement else mret tt);; fail err
  end.

Definition openAndDescribe (ctx : context) (statementHandle : Z) (statementName cursorName : bytes)
    (descriptorHandle : Z) (format : option parameterMarkerFormat) (bindings : list parameterBinding)
    : M (resultSetMeta * sqlcaInfo) :=
  syncQueryTimeoutRPB ctx statementHandle;;
  c ← get;
  request ← lift (buildOpenDescribePreparedRequest statementHandle descriptorHandle statementName cursorName format
                    bindings (ScrollableCursors (cfg c)) (HoldCursors (cfg c)) (specForExecute (pkg c) statementHandle));
  reply ← statementRequest ctx request;
  checkReplyOf ctx statementHandle "open" reply;;
  info ← lift (parseSQLCAFromPayload reply.2);
  if SQLCode info <? 0 then e ← newSQLError ctx statementHandle info; fail e
  else
    meta ← lift (parseDescribePayload reply.2);
    c ← get;
    meta ← lift (layoutNames c meta);
    mret (meta, info).

Definition noResultSet : goerror := EText "query did not return a result set" [].

(** [keepName] is what the variant with bindings does: it does not give the
    cursor name back when the query had no result set. *)
Definition openRows (keepName : bool) (ctx : context) (statementHandle : Z) (statementName : bytes)
    (descriptorHandle : Z) (format : option parameterMarkerFormat) (bindings : list parameterBinding) : M queryRows :=
  '(cursorName, defaultCursor) ← openCursorName statementHandle;
  r ← attempt (openAndDescribe ctx statementHandle statementName cursorName descriptorHandle format bindings);
  match r with
  | inr err =>
      closeInterruptedCursor ctx cursorName err;;
      releaseOpenCursorName statementHandle defaultCursor;;
      fail err
  | inl (meta, sqlca) =>
      recordWarning (Warning sqlca);;
      let resultSetCount := if 0 <? ResultSetsCount sqlca then ResultSetsCount sqlca else 1 in
      if (len (columns meta) =? 0) && (resultSetCount =? 1) then
        (if keepName then mret tt else releaseOpenCursorName statementHandle defaultCursor);; fail noResultSet
      else
        c ← get;
        mret (openedRows ctx (sizedMeta meta) statementHandle statementName cursorName defaultCursor
                (fetchBufferBytes (cfg c)) resultSetCount (ScrollableCursors (cfg c)))
  end.

Definition queryRowsForStatement (ctx : context) (statementHandle : Z) (statementName : bytes) : M queryRows :=
  openRows false ctx statementHandle statementName 0 None [].

Definition queryRowsForStatementWithBindings (ctx : context) (statementHandle : Z) (statementName : bytes)
    (descriptorHandle : Z) (format : option parameterMarkerFormat) (bindings : list parameterBinding) : M queryRows :=
  openRows true ctx statementHandle statementName descriptorHandle format bindings.

Definition queryPrepared (ctx : context) (statementHandle : Z) (statementName : bytes) : M queryRows :=
  if len (trimSpace statementName) =? 0 then fail EBadConn
  else ClearWarnings;; queryRowsForStatement ctx statementHandle statementName.

(** Changing the descriptor of a query: an interrupted request also cancels the
    statement. *)
Definition changeDescriptorOfQuery (ctx : context) (statementHandle : Z) (changeRequest : bytes)
    (bindings : list parameterBinding) : M unit :=
  r ← attempt (doRequest ctx changeRequest);
  match r with
  | inr err => (if isContextError err then cancelStatement else mret tt);; fail err
  | inl reply =>
      checkReplyOf ctx statementHandle "change descriptor" reply;;
      replySQLCA ctx statementHandle reply.2;;
      writeLOBDataRequests ctx bindings
  end.

Definition queryPreparedWithArgs (ctx : context) (statementHandle : Z) (statementName : bytes)
    (format : option parameterMarkerFormat) (args : list namedValue) : M queryRows :=
  if len (trimSpace statementName) =? 0 then fail EBadConn
  else
    c ← get;
    bindings ← lift (buildParameterBindingsWithBidi c format args);
    if len bindings =? 0 then queryPrepared ctx statementHandle statementName
    else
      descriptorHandle ← nextDescriptorHandle;
      let changeRequest := buildChangeDescriptorRequest statementHandle descriptorHandle format bindings in
      deferring (deleteDescriptor ctx statementHandle descriptorHandle) (
        changeDescriptorOfQuery ctx statementHandle changeRequest bindings;;
        queryRowsForStatementWithBindings ctx statementHandle statementName descriptorHandle format bindings).

Definition queryCallRows (ctx : context) (statementHandle : Z) (statementName : bytes) : M queryRows :=
  if len (trimSpace statementName) =? 0 then fail EBadConn
  else
    syncQueryTimeoutRPB ctx statementHandle;;
    c ← get;
    request ← lift (buildExecuteCallNoParamsRequest statementHandle (specForExecute (pkg c) statementHandle));
    reply ← doStatementRequest ctx request;
    checkReplyOf ctx statementHandle "execute" reply;;
    info ← replySQLCA' ctx statementHandle reply.2;
    rows ← queryRowsForStatement ctx statementHandle statementName;
    let rows := if 0 <? ResultSetsCount info then withResultSetCount rows (ResultSetsCount info) else rows in
    mret (withStoredProc rows true).

(** The query of a [queryContext]: until the rows own the statement a failure
    releases its id and, once the RPB exists, deletes the RPB. *)
Definition openQuery (ctx : context) (statementType statementHandle : Z) (statementName : bytes)
    (creatRPBReq prepareRequest : bytes) : M queryRows :=
  reply ← doRequestWithPreamble ctx creatRPBReq prepareRequest;
  checkReplyOf ctx statementHandle "prepare" reply;;
  replySQLCA ctx statementHandle reply.2;;
  rows ← (if statementType =? sqlStatementTypeCall then queryCallRows ctx statementHandle statementName
          else queryRowsForStatement ctx statementHandle statementName);
  let rows := withOwner rows true (releaseStmt rows) in
  mret (if statementType =? sqlStatementTypeCall then withStoredProc rows true else rows).

(** The requests are built before the RPB exists on the server. *)
Definition buildQuery (ctx : context) (statementHandle : Z) (statementName query : bytes) : M (bytes * bytes) :=
  ensurePackage ctx;;
  c ← get;
  creatRPBReq ← lift (buildCreateRPBRequest statementHandle statementName (specForLibrary (pkg c)));
  text ← lift (bidiStatementText c query);
  spec ← specForPrepareOf statementHandle query;
  c ← get;
  prepareRequest ← lift (buildPrepareAndDescribeRequestCCSID statementHandle statementName text
                           spec (statementTextCCSID c));
  mret (creatRPBReq, prepareRequest).

(** [m], and [cleanup] when it fails. *)
Definition onFailure {A} (cleanup : M unit) (m : M A) : M A :=
  r ← attempt m;
  match r with inl a => mret a | inr err => cleanup;; fail err end.

Definition queryContext (ctx : context) (query : bytes) : M queryRows :=
  ClearWarnings;;
  let statementType := classifySQLStatement query in
  if negb (statementType =? sqlStatementTypeSelect) && negb (statementType =? sqlStatementTypeCall)
  then fail (EUnsupported "QueryContext only supports SELECT, VALUES, WITH, or CALL statements")
  else
    '(statementName, statementHandle) ← nextStatementName;
    '(creatRPBReq, prepareRequest) ←
      onFailure (releaseStatementHandle statementHandle) (buildQuery ctx statementHandle statementName query);
    onFailure (discardStatement ctx statementName statementHandle)
      (openQuery ctx statementType statementHandle statementName creatRPBReq prepareRequest).

Definition markStoredProcResult (rows : queryRows) (statementType : Z) : queryRows :=
  if statementType =? sqlStatementTypeCall then withStoredProc rows true else rows.

Definition queryPreparedTransient (ctx : context) (query : bytes) (args : list namedValue) : M queryRows :=
  '(statementType, statementHandle, statementName, parameterFormat) ← prepareTransientStatement ctx query;
  rows ← onFailure (ignore (closePreparedStatement Background statementName statementHandle))
    (queryPreparedWithArgs ctx statementHandle statementName parameterFormat args);
  let rows := markStoredProcResult rows statementType in
  mret (withOwner rows true (releaseStmt rows)).

(** ** Fetching *)

Definition markBlock (b : fetchBlock) (envelope : replyEnvelope) : fetchBlock :=
  let done code := (RCClass envelope =? 2) && (RCCode envelope =? code) in
  mkBlock (RowCount b) (ColumnCount b) (IndicatorSize b) (RowSize b) (Nulls b) (Data b)
    (cursorClosed b || done 700) (endOfData b || done 701).

Definition fetchRows (ctx : context) (statementHandle : Z) (cursorName : bytes)
    (fetchBufferSize option relative : Z) : M fetchBlock :=
  request ← lift (buildFetchRequestForStatement statementHandle cursorName fetchBufferSize option relative);
  reply ← statementRequest ctx request;
  checkReplyOf ctx statementHandle "fetch" reply;;
  block ← lift (parseFetchPayload reply.2);
  mret (markBlock block reply.1).
End Statements.

(** * Lemmas *)

(** ** What leaves the statements of the connection alone *)

Section Steady.
Context `{TableFS} `{Environment} `{BidiLayout} `{Parameters}.

Lemma steady_modifyPackage f : preserves steady (modifyPackage f).
Proof. steady_step. Qed.
Lemma steady_specForPrepareOf h query : preserves steady (specForPrepareOf h query).
Proof. apply preserves_get_bind. intros c. destruct (specForPrepare (pkg c) h query). intros r c' [= _ <-]. steady_fields. Qed.
Lemma steady_nextDescriptorHandle : preserves steady nextDescriptorHandle.
Proof. steady_step. Qed.
Lemma steady_set_rpbTimeouts f : preserves steady (modify (fun c => set_rpbTimeouts c (f c))).
Proof. steady_step. Qed.
#[local] Hint Resolve steady_modifyPackage steady_specForPrepareOf steady_nextDescriptorHandle steady_set_rpbTimeouts
  steady_assignCallOutputParameters : steady.

Lemma steady_closeCursor ctx name reuse : preserves steady (closeCursor ctx name reuse).
Proof. unfold closeCursor. preserve. Qed.
Lemma steady_closeResultSetCursorNoReply ctx h name reuse : preserves steady (closeResultSetCursorNoReply ctx h name reuse).
Proof. unfold closeResultSetCursorNoReply. preserve. Qed.
Lemma steady_packageError mode state message : preserves steady (packageError mode state message).
Proof. unfold packageError. preserve. Qed.
#[local] Hint Resolve steady_closeCursor steady_packageError : steady.
Lemma steady_closeInterruptedCursor ctx name e : preserves steady (closeInterruptedCursor ctx name e).
Proof. unfold closeInterruptedCursor, cleaningUp. preserve. Qed.
Lemma steady_cachePackage ctx p : preserves steady (cachePackage ctx p).
Proof. unfold cachePackage. preserve. Qed.
#[local] Hint Resolve steady_cachePackage : steady.
Lemma steady_ensurePackage ctx : preserves steady (ensurePackage ctx).
Proof. unfold ensurePackage. preserve. Qed.
#[local] Hint Resolve steady_ensurePackage : steady.
Lemma steady_prepareAndDescribe ctx h name query : preserves steady (prepareAndDescribe ctx h name query).
Proof. unfold prepareAndDescribe. preserve. Qed.
#[local] Hint Resolve steady_prepareAndDescribe : steady.
Lemma steady_prepareOrReuse ctx h name query : preserves steady (prepareOrReuse ctx h name query).
Proof. unfold prepareOrReuse. preserve. Qed.
Lemma steady_syncQueryTimeoutRPB ctx h : preserves steady (syncQueryTimeoutRPB ctx h).
Proof. unfold syncQueryTimeoutRPB. preserve. Qed.
Lemma steady_writeLOBDataRequests ctx bindings : preserves steady (writeLOBDataRequests ctx bindings).
Proof.
  unfold writeLOBDataRequests. generalize (collectLOBWriteRequests bindings) as l.
  induction l as [|w l IH]; cbn [writeLOBs]; [apply preserves_ret, _|]. unfold writeLOBData. preserve.
Qed.
#[local] Hint Resolve steady_syncQueryTimeoutRPB steady_writeLOBDataRequests : steady.
Lemma steady_execContext ctx query : preserves steady (execContext ctx query).
Proof. unfold execContext. preserve. Qed.
Lemma steady_changeDescriptor ctx h request bindings : preserves steady (changeDescriptor ctx h request bindings).
Proof. unfold changeDescriptor. preserve. Qed.
Lemma steady_changeDescriptorOfQuery ctx h request bindings :
  preserves steady (changeDescriptorOfQuery ctx h request bindings).
Proof. unfold changeDescriptorOfQuery. preserve. Qed.
Lemma steady_deleteDescriptor ctx h d : preserves steady (deleteDescriptor ctx h d).
Proof. unfold deleteDescriptor. preserve. Qed.
Lemma steady_executeStatement ctx h type format bindings d :
  preserves steady (executeStatement ctx h type format bindings d).
Proof. unfold executeStatement. preserve. Qed.
#[local] Hint Resolve steady_changeDescriptor steady_deleteDescriptor steady_executeStatement : steady.
Lemma steady_execPrepared ctx h type format args : preserves steady (execPrepared ctx h type format args).
Proof. unfold execPrepared. preserve. Qed.
Lemma steady_statementRequest ctx request : preserves steady (statementRequest ctx request).
Proof. unfold statementRequest. preserve. Qed.
#[local] Hint Resolve steady_statementRequest : steady.
Lemma steady_openAndDescribe ctx h name cursor d format bindings :
  preserves steady (openAndDescribe ctx h name cursor d format bindings).
Proof. unfold openAndDescribe. preserve. Qed.
Lemma steady_fetchRows ctx h cursor size option relative :
  preserves steady (fetchRows ctx h cursor size option relative).
Proof. unfold fetchRows. preserve. Qed.
Lemma steady_buildQuery ctx h name query : preserves steady (buildQuery ctx h name query).
Proof. unfold buildQuery. preserve. Qed.
End Steady.

#[export] Hint Resolve steady_modifyPackage steady_specForPrepareOf steady_nextDescriptorHandle steady_set_rpbTimeouts
  steady_assignCallOutputParameters steady_closeCursor steady_closeResultSetCursorNoReply steady_packageError
  steady_closeInterruptedCursor steady_cachePackage steady_ensurePackage steady_prepareAndDescribe
  steady_prepareOrReuse steady_syncQueryTimeoutRPB steady_writeLOBDataRequests steady_execContext
  steady_changeDescriptor steady_changeDescriptorOfQuery steady_deleteDescriptor steady_executeStatement
  steady_execPrepared steady_statementRequest steady_openAndDescribe steady_fetchRows steady_buildQuery : steady.

(** ** What leaves the package alone *)

Section Same_package.
Context `{TableFS} `{Environment} `{BidiLayout} `{Parameters}.

Lemma same_pkg_modify f : (forall c, pkg (f c) = pkg c) -> preserves same_pkg (modify f).
Proof. intros Hf ? ? ? [= _ <-]. apply Hf. Qed.
#[local] Hint Resolve same_pkg_modify same_pkg_assignCallOutputParameters : steady.
Lemma same_pkg_nextDescriptorHandle : preserves same_pkg nextDescriptorHandle.
Proof. unfold nextDescriptorHandle. preserve. Qed.
Lemma same_pkg_syncQueryTimeoutRPB ctx h : preserves same_pkg (syncQueryTimeoutRPB ctx h).
Proof. unfold syncQueryTimeoutRPB. preserve. Qed.
Lemma same_pkg_writeLOBDataRequests ctx bindings : preserves same_pkg (writeLOBDataRequests ctx bindings).
Proof.
  unfold writeLOBDataRequests. generalize (collectLOBWriteRequests bindings) as l.
  induction l as [|w l IH]; cbn [writeLOBs]; [apply preserves_ret, _|]. unfold writeLOBData. preserve.
Qed.
#[local] Hint Resolve same_pkg_nextDescriptorHandle same_pkg_syncQueryTimeoutRPB same_pkg_writeLOBDataRequests : steady.
Lemma same_pkg_changeDescriptor ctx h request bindings : preserves same_pkg (changeDescriptor ctx h request bindings).
Proof. unfold changeDescriptor. preserve. Qed.
Lemma same_pkg_deleteDescriptor ctx h d : preserves same_pkg (deleteDescriptor ctx h d).
Proof. unfold deleteDescriptor. preserve. Qed.
Lemma same_pkg_executeStatement ctx h type format bindings d :
  preserves same_pkg (executeStatement ctx h type format bindings d).
Proof. unfold executeStatement. preserve. Qed.
#[local] Hint Resolve same_pkg_changeDescriptor same_pkg_deleteDescriptor same_pkg_executeStatement : steady.
Lemma same_pkg_execPrepared ctx h type format args : preserves same_pkg (execPrepared ctx h type format args).
Proof. unfold execPrepared. preserve. Qed.
Lemma same_pkg_closePrepared ctx name h : preserves same_pkg (closePreparedStatement ctx name h).
Proof. unfold closePreparedStatement, releaseStatementHandle. preserve. Qed.
#[local] Hint Resolve same_pkg_closePrepared : steady.
Lemma same_pkg_closePreparedStatement name h c r c' :
  closePreparedStatement Background name h c = (r, c') -> same_pkg c c'.
Proof. by apply same_pkg_closePrepared. Qed.

Lemma same_pkg_openCursorName h : preserves same_pkg (openCursorName h).
Proof. unfold openCursorName. preserve. Qed.
Lemma same_pkg_releaseDefaultCursor h : preserves same_pkg (releaseDefaultCursor h).
Proof. by apply same_pkg_modify. Qed.
Lemma same_pkg_closeCursor ctx name reuse : preserves same_pkg (closeCursor ctx name reuse).
Proof. unfold closeCursor. preserve. Qed.
Lemma same_pkg_closeResultSetCursorNoReply ctx h name reuse : preserves same_pkg (closeResultSetCursorNoReply ctx h name reuse).
Proof. unfold closeResultSetCursorNoReply. preserve. Qed.
#[local] Hint Resolve same_pkg_openCursorName same_pkg_releaseDefaultCursor same_pkg_closeCursor : steady.
Lemma same_pkg_statementRequest ctx request : preserves same_pkg (statementRequest ctx request).
Proof. unfold statementRequest. preserve. Qed.
#[local] Hint Resolve same_pkg_statementRequest : steady.
Lemma same_pkg_closeInterruptedCursor ctx name e : preserves same_pkg (closeInterruptedCursor ctx name e).
Proof. unfold closeInterruptedCursor, cleaningUp. preserve. Qed.
#[local] Hint Resolve same_pkg_closeInterruptedCursor : steady.
Lemma same_pkg_openAndDescribe ctx h name cursor d format bindings :
  preserves same_pkg (openAndDescribe ctx h name cursor d format bindings).
Proof. unfold openAndDescribe. preserve. Qed.
#[local] Hint Resolve same_pkg_openAndDescribe : steady.
Lemma same_pkg_fetchRows ctx h cursor size option relative :
  preserves same_pkg (fetchRows ctx h cursor size option relative).
Proof. unfold fetchRows. preserve. Qed.
Lemma same_pkg_openRows keep ctx h name d format bindings : preserves same_pkg (openRows keep ctx h name d format bindings).
Proof. unfold openRows, releaseOpenCursorName. preserve. Qed.
#[local] Hint Resolve same_pkg_openRows : steady.
Lemma same_pkg_queryPreparedWithArgs ctx h name format args : preserves same_pkg (queryPreparedWithArgs ctx h name format args).
Proof.
  unfold queryPreparedWithArgs, changeDescriptorOfQuery, queryPrepared, queryRowsForStatement, queryRowsForStatementWithBindings,
    ClearWarnings. preserve.
Qed.
End Same_package.

#[export] Hint Resolve same_pkg_nextDescriptorHandle same_pkg_deleteDescriptor same_pkg_execPrepared same_pkg_closePrepared
  same_pkg_releaseDefaultCursor same_pkg_closeCursor same_pkg_closeResultSetCursorNoReply same_pkg_openAndDescribe
  same_pkg_fetchRows same_pkg_openRows same_pkg_queryPreparedWithArgs : steady.

(** ** Operations that hand out ids and names *)

Section Calm.
Context `{TableFS} `{Environment} `{BidiLayout} `{Parameters}.

Ltac calm_step := intros ? ? ? [= _ <-]; constructor; cbn; try done; exists []; by rewrite app_nil_r.

Lemma calm_nextStatementName : preserves calm nextStatementName.
Proof.
  apply preserves_get_bind. intros c r c'. destruct (lowestUnused _ _ _); intros [= _ <-]; [|reflexivity].
  constructor; cbn; try done; exists []; by rewrite app_nil_r.
Qed.
Lemma calm_releaseStatementHandle h : preserves calm (releaseStatementHandle h).
Proof. unfold releaseStatementHandle. destruct (h =? 0); [apply preserves_ret, _|calm_step]. Qed.
Lemma calm_releaseDefaultCursor h : preserves calm (releaseDefaultCursor h).
Proof. calm_step. Qed.
Lemma calm_openCursorName h : preserves calm (openCursorName h).
Proof.
  apply preserves_get_bind. intros c r c'. destruct (decide _); intros [= _ <-];
    constructor; cbn; try done; exists []; by rewrite app_nil_r.
Qed.
Lemma same_handles_openCursorName h : preserves same_handles (openCursorName h).
Proof. apply preserves_get_bind. intros c r c'. destruct (decide _); by intros [= _ <-]. Qed.
Lemma same_handles_releaseDefaultCursor h : preserves same_handles (releaseDefaultCursor h).
Proof. by intros ? ? ? [= _ <-]. Qed.
#[local] Hint Resolve calm_nextStatementName calm_releaseStatementHandle calm_releaseDefaultCursor
  calm_openCursorName same_handles_openCursorName same_handles_releaseDefaultCursor : steady.

Lemma same_busy_releaseStatementHandle h : preserves same_busy (releaseStatementHandle h).
Proof. unfold releaseStatementHandle. destruct (h =? 0); [apply preserves_ret, _|by intros ? ? ? [= _ <-]]. Qed.
Lemma same_busy_nextStatementName : preserves same_busy nextStatementName.
Proof. apply preserves_get_bind. intros c r c'. destruct (lowestUnused _ _ _); by intros [= _ <-]. Qed.
#[local] Hint Resolve same_busy_releaseStatementHandle same_busy_nextStatementName : steady.

Lemma same_caching_nextStatementName : preserves same_caching nextStatementName.
Proof. apply preserves_get_bind. intros c r c'. by destruct (lowestUnused _ _ _); intros [= _ <-]. Qed.
Lemma same_caching_releaseStatementHandle h : preserves same_caching (releaseStatementHandle h).
Proof. unfold releaseStatementHandle. destruct (h =? 0); by intros ? ? ? [= _ <-]. Qed.
Lemma same_caching_openCursorName h : preserves same_caching (openCursorName h).
Proof. apply preserves_get_bind. intros c r c'. destruct (decide _); by intros [= _ <-]. Qed.
Lemma same_caching_releaseDefaultCursor h : preserves same_caching (releaseDefaultCursor h).
Proof. by intros ? ? ? [= _ <-]. Qed.
#[local] Hint Resolve same_caching_nextStatementName same_caching_releaseStatementHandle same_caching_openCursorName
  same_caching_releaseDefaultCursor : steady.
Lemma same_caching_closePreparedStatement ctx name h : preserves same_caching (closePreparedStatement ctx name h).
Proof. unfold closePreparedStatement. preserve. Qed.
#[local] Hint Resolve same_caching_closePreparedStatement : steady.
Lemma same_caching_prepareTransientStatement ctx query : preserves same_caching (prepareTransientStatement ctx query).
Proof. unfold prepareTransientStatement, discardStatement, cleaningUp. preserve. Qed.

Lemma same_busy_closePreparedStatement ctx name h : preserves same_busy (closePreparedStatement ctx name h).
Proof. unfold closePreparedStatement. preserve. Qed.
#[local] Hint Resolve same_busy_closePreparedStatement : steady.
Lemma same_busy_discardStatement ctx name h : preserves same_busy (discardStatement ctx name h).
Proof. unfold discardStatement, cleaningUp. preserve. Qed.
Lemma calm_closePreparedStatement ctx name h : preserves calm (closePreparedStatement ctx name h).
Proof. unfold closePreparedStatement. preserve. Qed.
#[local] Hint Resolve calm_closePreparedStatement : steady.
Lemma calm_discardStatement ctx name h : preserves calm (discardStatement ctx name h).
Proof. unfold discardStatement, cleaningUp. preserve. Qed.
Lemma same_busy_prepareTransientStatement ctx query : preserves same_busy (prepareTransientStatement ctx query).
Proof. unfold prepareTransientStatement, discardStatement, cleaningUp. preserve. Qed.
#[local] Hint Resolve calm_discardStatement same_busy_prepareTransientStatement : steady.
Lemma calm_openRows keep ctx h name d format bindings : preserves calm (openRows keep ctx h name d format bindings).
Proof. unfold openRows, releaseOpenCursorName. preserve. Qed.
Lemma same_handles_openRows keep ctx h name d format bindings :
  preserves same_handles (openRows keep ctx h name d format bindings).
Proof. unfold openRows, releaseOpenCursorName. preserve. Qed.
#[local] Hint Resolve calm_openRows same_handles_openRows : steady.
Lemma same_caching_openRows keep ctx h name d format bindings :
  preserves same_caching (openRows keep ctx h name d format bindings).
Proof. unfold openRows, releaseOpenCursorName. preserve. Qed.
#[local] Hint Resolve same_caching_openRows same_caching_prepareTransientStatement : steady.
Lemma same_caching_queryPreparedWithArgs ctx h name format args :
  preserves same_caching (queryPreparedWithArgs ctx h name format args).
Proof.
  unfold queryPreparedWithArgs, queryPrepared, queryRowsForStatement, queryRowsForStatementWithBindings. preserve.
Qed.
#[local] Hint Resolve same_caching_queryPreparedWithArgs : steady.
Lemma same_caching_execPreparedTransient ctx query args : preserves same_caching (execPreparedTransient ctx query args).
Proof. unfold execPreparedTransient. preserve. Qed.
Lemma same_caching_queryPreparedTransient ctx query args : preserves same_caching (queryPreparedTransient ctx query args).
Proof. unfold queryPreparedTransient, onFailure. preserve. Qed.
Lemma same_caching_queryContext ctx query : preserves same_caching (queryContext ctx query).
Proof.
  unfold queryContext, onFailure, discardStatement, cleaningUp, openQuery, queryCallRows, queryRowsForStatement. preserve.
Qed.
Lemma calm_queryPrepared ctx h name : preserves calm (queryPrepared ctx h name).
Proof. unfold queryPrepared, queryRowsForStatement. preserve. Qed.
Lemma same_handles_queryPrepared ctx h name : preserves same_handles (queryPrepared ctx h name).
Proof. unfold queryPrepared, queryRowsForStatement. preserve. Qed.
#[local] Hint Resolve calm_queryPrepared same_handles_queryPrepared : steady.
Lemma calm_queryPreparedWithArgs ctx h name format args : preserves calm (queryPreparedWithArgs ctx h name format args).
Proof. unfold queryPreparedWithArgs, queryRowsForStatementWithBindings. preserve. Qed.
Lemma same_handles_queryPreparedWithArgs ctx h name format args :
  preserves same_handles (queryPreparedWithArgs ctx h name format args).
Proof. unfold queryPreparedWithArgs, queryRowsForStatementWithBindings. preserve. Qed.
Lemma calm_queryCallRows ctx h name : preserves calm (queryCallRows ctx h name).
Proof. unfold queryCallRows, queryRowsForStatement. preserve. Qed.
Lemma same_handles_queryCallRows ctx h name : preserves same_handles (queryCallRows ctx h name).
Proof. unfold queryCallRows, queryRowsForStatement. preserve. Qed.
#[local] Hint Resolve calm_queryPreparedWithArgs same_handles_queryPreparedWithArgs calm_queryCallRows
  same_handles_queryCallRows : steady.
Lemma calm_openQuery ctx type h name rpb request : preserves calm (openQuery ctx type h name rpb request).
Proof. unfold openQuery, queryRowsForStatement. preserve. Qed.
Lemma same_handles_openQuery ctx type h name rpb request :
  preserves same_handles (openQuery ctx type h name rpb request).
Proof. unfold openQuery, queryRowsForStatement. preserve. Qed.
#[local] Hint Resolve calm_openQuery : steady.
Lemma calm_queryContext ctx query : preserves calm (queryContext ctx query).
Proof. unfold queryContext, onFailure. preserve. Qed.
Lemma calm_prepareTransientStatement ctx query : preserves calm (prepareTransientStatement ctx query).
Proof. unfold prepareTransientStatement. preserve. Qed.
#[local] Hint Resolve calm_prepareTransientStatement : steady.
Lemma calm_execPreparedTransient ctx query args : preserves calm (execPreparedTransient ctx query args).
Proof. unfold execPreparedTransient. preserve. Qed.
Lemma calm_queryPreparedTransient ctx query args : preserves calm (queryPreparedTransient ctx query args).
Proof. unfold queryPreparedTransient, onFailure. preserve. Qed.
End Calm.

#[export] Hint Resolve same_caching_nextStatementName same_caching_releaseStatementHandle same_caching_openCursorName
  same_caching_releaseDefaultCursor same_caching_closePreparedStatement same_caching_prepareTransientStatement
  same_caching_openRows same_caching_queryPreparedWithArgs same_caching_execPreparedTransient
  same_caching_queryPreparedTransient same_caching_queryContext : steady.
#[export] Hint Resolve calm_nextStatementName calm_releaseStatementHandle calm_releaseDefaultCursor calm_openCursorName
  same_handles_openCursorName same_handles_releaseDefaultCursor calm_closePreparedStatement calm_discardStatement
  calm_openRows same_handles_openRows calm_queryPrepared same_handles_queryPrepared calm_queryPreparedWithArgs
  same_handles_queryPreparedWithArgs calm_queryCallRows same_handles_queryCallRows calm_openQuery
  same_handles_openQuery calm_queryContext calm_prepareTransientStatement calm_execPreparedTransient
  calm_queryPreparedTransient same_busy_releaseStatementHandle same_busy_nextStatementName
  same_busy_closePreparedStatement same_busy_discardStatement same_busy_prepareTransientStatement : steady.

(** ** Statement ids *)

Lemma lowestUnused_Some fuel id used k :
  lowestUnused fuel id used = Some k ->
  id <= k < id + Z.of_nat fuel /\ (k ∉ used) /\ (forall j, id <= j < k -> j ∈ used).
Proof.
  revert id. induction fuel as [|fuel IH]; intros id; cbn [lowestUnused]; [done|]. destruct (decide (id ∈ used)) as [Hin|Hin].
  - intros (? & ? & Hj)%IH. split_and!; [lia|lia|done|]. intros j ?. destruct (decide (j = id)) as [->|]; [done|apply Hj; lia].
  - intros [= <-]. split_and!; [lia|lia|done|lia].
Qed.

Lemma lowestUnused_None fuel id used :
  lowestUnused fuel id used = None -> forall j, id <= j < id + Z.of_nat fuel -> j ∈ used.
Proof.
  revert id. induction fuel as [|fuel IH]; intros id; cbn [lowestUnused]; [lia|].
  destruct (decide (id ∈ used)); [|done]. intros E j ?. destruct (decide (j = id)) as [->|]; [done|].
  apply (IH (id + 1)); [done|lia].
Qed.

Lemma nextStatementName_Ret c name id c' :
  nextStatementName c = (Ret (name, id), c') ->
  name = statementNameOf id /\ 1 <= id < maxStatements /\ (id ∉ usedStatementHandles c) /\
  c' = set_usedStatementHandles c ({[id]} ∪ usedStatementHandles c).
Proof.
  unfold nextStatementName, mbind, M_bind, get. destruct (lowestUnused _ _ _) as [k|] eqn:E; [|done].
  apply lowestUnused_Some in E as (? & ? & _). intros [= <- <- <-].
  change (Z.of_nat (Z.to_nat (maxStatements - 1))) with 9998 in *. unfold maxStatements. split_and!; (done || lia).
Qed.

Lemma nextStatementName_Fail c e c' :
  nextStatementName c = (Fail e, c') ->
  e = EMaxStatements /\ c' = c /\ (forall j, 1 <= j < maxStatements -> j ∈ usedStatementHandles c).
Proof.
  unfold nextStatementName, mbind, M_bind, get. destruct (lowestUnused _ _ _) as [k|] eqn:E; [done|]. intros [= <- <-].
  split_and!; [done|done|]. intros j ?. eapply lowestUnused_None; [done|].
  change (Z.of_nat (Z.to_nat (maxStatements - 1))) with 9998. unfold maxStatements in *. lia.
Qed.

Definition blank (name : bytes) : Prop := len (trimSpace name) = 0.

Lemma statementNameOf_not_blank id : ~ blank (statementNameOf id).
Proof.
  unfold blank, statementNameOf. rewrite trimSpace_forall; [rewrite len_app|apply Forall_app; split; [|apply padHex_plain]].
  - pose proof (len_nonneg (padHex 8 id)). change (len (lit "STMT")) with 4. lia.
  - by repeat constructor.
Qed.

(** The statements of the downloaded package that can stand for a prepare. *)
Definition packageStatements (c : Conn) : packageCache := default [] (pkg c ≫= Package.cache).

(** The name a statement runs under: its own, or that of a statement of the
    package. *)
Definition runs_as (c : Conn) (own name : bytes) : Prop :=
  name = own \/ exists s, s ∈ packageStatements c /\ usable s = true /\ name = Package.cachedName s.

(** The server named a statement of the package so that only white space is left
    of its name, which is more than the blanks that are cut off. *)
Definition blank_in_package (c : Conn) : Prop :=
  exists s, s ∈ packageStatements c /\ usable s = true /\ blank (Package.cachedName s).

Lemma cachedStatementFor_usable p query s :
  cachedStatementFor p query = Some s -> s ∈ default [] (p ≫= Package.cache) /\ usable s = true.
Proof.
  unfold cachedStatementFor. destruct p as [p|]; cbn; [|done]. destruct (Package.cache p) as [l|]; cbn; [|done].
  case_match; [|done]. destruct (List.find _ l) as [s'|] eqn:E; cbn; [|done]. apply find_some in E as [Hin%list_elem_of_In E].
  repeat (case_match; try done); intros [= <-]; by apply andb_true_iff in E as [? _].
Qed.

Lemma specForPrepareOf_cache h query c r c' :
  specForPrepareOf h query c = (r, c') -> packageStatements c' = packageStatements c.
Proof.
  unfold specForPrepareOf, packageStatements, mbind, M_bind, get. destruct (pkg c) as [p|] eqn:Ep; cbn [specForPrepare].
  - destruct (enabled p); intros [= _ <-]; done.
  - by intros [= _ <-].
Qed.

Lemma same_pkg_statements c c' : same_pkg c c' -> packageStatements c' = packageStatements c.
Proof. unfold same_pkg, packageStatements. by intros ->. Qed.

Section Ids.
Context `{TableFS} `{Environment} `{BidiLayout} `{Parameters}.

Lemma prepareOrReuse_name ctx h own query c name format c' :
  prepareOrReuse ctx h own query c = (Ret (name, format), c') -> runs_as c' own name.
Proof.
  unfold prepareOrReuse. intros (? & c1 & _ & E)%run_bind_Ret. apply run_bind_Ret in E as (c1' & c2 & [= -> ->] & E).
  destruct (cachedStatementFor (pkg c2) query) as [s|] eqn:Es.
  - apply cachedStatementFor_usable in Es as [Hin Hu]. apply run_bind_Ret in E as (? & c3 & E3 & E). apply specForPrepareOf_cache in E3.
    apply run_bind_Ret in E as (? & c4 & [= _ <-] & E). apply run_bind_Ret in E as (request & c5 & [= _ <-] & E).
    apply run_bind_Ret in E as (? & c6 & E6 & E). kept same_pkg in E6 as K. injection E as <- _ <-.
    right. exists s. by rewrite (same_pkg_statements _ _ K), E3.
  - apply run_bind_Ret in E as ([] & ? & _ & E). injection E as <- _ _. by left.
Qed.

Lemma deferring_state {A} cleanup (m : M A) c r c' :
  deferring cleanup m c = (r, c') -> exists r1 c1 r2, m c = (r1, c1) /\ cleanup c1 = (r2, c') /\
    (r = r1 \/ r = Panic).
Proof.
  unfold deferring. destruct (m c) as [r1 c1]. destruct (cleanup c1) as [r2 c2] eqn:E. intros [= <- <-].
  exists r1, c1, r2. split_and!; [done|done|]. destruct r2; auto.
Qed.

Lemma closePreparedStatement_releases ctx name h c r c' :
  closePreparedStatement ctx name h c = (r, c') -> 1 <= h -> ~ blank name ->
  usedStatementHandles c' = usedStatementHandles c ∖ {[h]}.
Proof.
  unfold closePreparedStatement, blank. intros E Hh Hb. rewrite (proj2 (Z.eqb_neq _ _) Hb) in E.
  apply deferring_state in E as (r1 & c1 & r2 & Em & Ec & _).
  kept same_handles in Em as Hm.
  unfold releaseStatementHandle in Ec. destruct (Z.eqb_spec h 0); [lia|]. injection Ec as _ <-. cbn. by rewrite Hm.
Qed.

Lemma ignore_state {A} (m : M A) c r c' : ignore m c = (r, c') -> exists r1, m c = (r1, c').
Proof.
  unfold ignore, attempt, mbind, M_bind. destruct (m c) as [[] c1]; cbn; intros [= _ <-]; by eexists.
Qed.

Lemma discardStatement_releases ctx name h c r c' :
  discardStatement ctx name h c = (r, c') -> 1 <= h -> ~ blank name ->
  usedStatementHandles c' = usedStatementHandles c ∖ {[h]}.
Proof.
  intros E ? ?. unfold discardStatement, cleaningUp in E. change (ignore (closePreparedStatement (cleanupContext ctx (clock c)) name h) c = (r, c')) in E.
  apply ignore_state in E as [r1 E]. by eapply closePreparedStatement_releases.
Qed.

Lemma take_and_release (id : Z) (used : gset Z) : id ∉ used -> ({[id]} ∪ used) ∖ {[id]} = used.
Proof. set_solver. Qed.

(** A prepared statement has an id of its own, and a failed prepare gives it
    back. *)
Lemma prepareTransientStatement_ids ctx query c r c' :
  prepareTransientStatement ctx query c = (r, c') ->
  match r with
  | Ret (_, h, name, _) =>
      1 <= h < maxStatements /\ (h ∉ usedStatementHandles c) /\
      usedStatementHandles c' = {[h]} ∪ usedStatementHandles c /\ runs_as c' (statementNameOf h) name
  | Fail _ => usedStatementHandles c' = usedStatementHandles c
  | Panic => True
  end.
Proof.
  unfold prepareTransientStatement. unfold mbind at 1, M_bind.
  destruct (nextStatementName c) as [[[own h]|e|] c1] eqn:En; [|by apply nextStatementName_Fail in En as (_ & -> & _); intros [= <- <-]|by intros [= <- _]].
  apply nextStatementName_Ret in En as (-> & Hh & Hfree & E1). unfold mbind, M_bind, attempt.
  destruct (prepareOrReuse ctx h (statementNameOf h) query c1) as [[[name format]|e|] c2] eqn:Ep; cbn; [| |by intros [= <- _]].
  - apply prepareOrReuse_name in Ep as Hname. kept same_handles in Ep as Hs. intros [= <- <-].
    split_and!; [lia|lia|done|by rewrite Hs, E1|done].
  - kept same_handles in Ep as Hs. destruct (discardStatement _ _ _ c2) as [r3 c3] eqn:Ed.
    assert (usedStatementHandles c3 = usedStatementHandles c) as Hc3.
    { apply discardStatement_releases in Ed; [|lia|apply statementNameOf_not_blank].
      rewrite Ed, Hs, E1. by apply take_and_release. }
    by destruct r3; intros [= <- <-].
Qed.

(** A statement that is closed on the way out gives its id back, unless it has
    the blank name of a packaged statement. *)
Lemma closing_releases {A} (m : M A) h name c c1 r c2 :
  1 <= h < maxStatements -> h ∉ usedStatementHandles c -> usedStatementHandles c1 = {[h]} ∪ usedStatementHandles c ->
  runs_as c1 (statementNameOf h) name -> preserves same_handles m -> preserves same_pkg m ->
  deferring (ignore (closePreparedStatement Background name h)) m c1 = (r, c2) ->
  usedStatementHandles c2 = usedStatementHandles c \/ blank_in_package c2.
Proof.
  intros Hh Hfree Hc1 Hname Hm Hp Ed. apply deferring_state in Ed as (r1 & c3 & r2 & Ee & Ec & _).
  specialize (Hm _ _ _ Ee). specialize (Hp _ _ _ Ee). apply ignore_state in Ec as [r3 Ec].
  destruct (decide (len (trimSpace name) = 0)) as [Hb|Hb].
  - right. destruct Hname as [->|(s & Hin & Hu & ->)]; [by apply statementNameOf_not_blank in Hb|].
    assert (same_pkg c3 c2) as K by (by eapply same_pkg_closePreparedStatement).
    exists s. by rewrite (same_pkg_statements _ _ K), (same_pkg_statements _ _ Hp).
  - left. apply closePreparedStatement_releases in Ec; [|lia|done]. rewrite Ec, Hm, Hc1. by apply take_and_release.
Qed.

Lemma execPreparedTransient_ids ctx query args c :
  match execPreparedTransient ctx query args c with
  | (Panic, _) => True
  | (_, c') => usedStatementHandles c' = usedStatementHandles c \/ blank_in_package c'
  end.
Proof.
  unfold execPreparedTransient. unfold mbind, M_bind.
  destruct (prepareTransientStatement ctx query c) as [[[[[type h] name] format]|e|] c1] eqn:Ep;
    apply prepareTransientStatement_ids in Ep; [|by left|done].
  destruct Ep as (Hh & Hfree & Hc1 & Hname).
  destruct (deferring _ _ c1) as [r c2] eqn:Ed. apply (closing_releases _ _ _ c) in Ed; [|done..|preserve|preserve]. by destruct r.
Qed.
End Ids.

(** ** Rows belong to the statement they were opened on *)

Definition rows_of (h : Z) (name : bytes) (rows : queryRows) : Prop :=
  statementHandle rows = h /\ statementName rows = name /\ rowsClosed rows = false.

(** Whatever [m] returns satisfies [P]. *)
Definition gives {A} (P : A -> Prop) (m : M A) : Prop := forall c a c', m c = (Ret a, c') -> P a.

Lemma gives_ret {A} (P : A -> Prop) a : P a -> gives P (mret a).
Proof. by intros ? ? ? ? [= <- _]. Qed.
Lemma gives_fail {A} (P : A -> Prop) e : gives P (fail e).
Proof. by intros ? ? ?. Qed.
Lemma gives_bind {A B} (P : B -> Prop) (m : M A) (f : A -> M B) : (forall a, gives P (f a)) -> gives P (m ≫= f).
Proof. intros Hf c b c' (a & c1 & _ & E)%run_bind_Ret. by eapply Hf. Qed.
Lemma gives_bind_with {A B} (Q : A -> Prop) (P : B -> Prop) (m : M A) (f : A -> M B) :
  gives Q m -> (forall a, Q a -> gives P (f a)) -> gives P (m ≫= f).
Proof. intros Hm Hf c b c' (a & c1 & Ea & E)%run_bind_Ret. eapply Hf; [by eapply Hm|done]. Qed.
Lemma gives_deferring {A} (P : A -> Prop) cleanup (m : M A) : gives P m -> gives P (deferring cleanup m).
Proof.
  intros Hm c a c' (r1 & c1 & r2 & Em & _ & [<-|?])%deferring_state; [by eapply Hm|done].
Qed.
Lemma gives_onFailure {A} (P : A -> Prop) cleanup (m : M A) : gives P m -> gives P (onFailure cleanup m).
Proof.
  intros Hm. unfold onFailure. apply (gives_bind_with (fun r => match r with inl a => P a | inr _ => True end)).
  - intros c r c'. unfold attempt. destruct (m c) as [[a|e|] c1] eqn:E; [|by intros [= <- _]|done].
    intros [= <- _]. by eapply Hm.
  - intros [a|e] HP; [by apply gives_ret|]. apply gives_bind. intros ?. apply gives_fail.
Qed.

Lemma onFailure_run {A} cleanup (m : M A) c r c' :
  onFailure cleanup m c = (r, c') ->
  match r with
  | Ret a => m c = (Ret a, c')
  | Fail _ => exists e c1 r2, m c = (Fail e, c1) /\ cleanup c1 = (r2, c')
  | Panic => True
  end.
Proof.
  unfold onFailure, attempt, mbind, M_bind. destruct (m c) as [[a|e|] c1]; cbn; [by intros [= <- <-]| |by intros [= <- _]].
  destruct (cleanup c1) as [[] c2] eqn:Ec; intros [= <- <-]; [| |done]; by exists e, c1; eexists.
Qed.

Section Rows.
Context `{TableFS} `{Environment} `{BidiLayout} `{Parameters}.

Lemma openRows_of keep ctx h name d format bindings : gives (rows_of h name) (openRows keep ctx h name d format bindings).
Proof.
  unfold openRows. apply gives_bind. intros [cursor own]. apply gives_bind. intros [[m info]|e]; apply gives_bind; intros _.
  - case_match; [apply gives_bind; intros; apply gives_fail|]. apply gives_bind. intros c. by apply gives_ret.
  - apply gives_bind. intros _. apply gives_fail.
Qed.

Lemma queryPrepared_of ctx h name : gives (rows_of h name) (queryPrepared ctx h name).
Proof. unfold queryPrepared. case_match; [apply gives_fail|]. apply gives_bind. intros _. apply openRows_of. Qed.

Lemma queryPreparedWithArgs_of ctx h name format args :
  gives (rows_of h name) (queryPreparedWithArgs ctx h name format args).
Proof.
  unfold queryPreparedWithArgs. case_match; [apply gives_fail|]. do 2 (apply gives_bind; intros ?).
  case_match; [apply queryPrepared_of|]. apply gives_bind. intros d. cbv zeta. apply gives_deferring.
  apply gives_bind. intros _. apply openRows_of.
Qed.

Lemma queryCallRows_of ctx h name : gives (rows_of h name) (queryCallRows ctx h name).
Proof.
  unfold queryCallRows. case_match; [apply gives_fail|]. do 6 (apply gives_bind; intros ?).
  eapply gives_bind_with; [apply openRows_of|]. intros rows Hr. apply gives_ret. by case_match.
Qed.

(** Rows that neither close their statement nor release anything, yet. *)
Definition unowned (rows : queryRows) : Prop := ownStatement rows = false /\ releaseStmt rows = None.

Lemma openRows_unowned keep ctx h name d format bindings : gives unowned (openRows keep ctx h name d format bindings).
Proof.
  unfold openRows. apply gives_bind. intros [cursor own]. apply gives_bind. intros [[m info]|e]; apply gives_bind; intros _.
  - case_match; [apply gives_bind; intros; apply gives_fail|]. apply gives_bind. intros c. by apply gives_ret.
  - apply gives_bind. intros _. apply gives_fail.
Qed.

Lemma queryPreparedWithArgs_unowned ctx h name format args : gives unowned (queryPreparedWithArgs ctx h name format args).
Proof.
  unfold queryPreparedWithArgs. case_match; [apply gives_fail|]. do 2 (apply gives_bind; intros ?). case_match.
  - unfold queryPrepared. case_match; [apply gives_fail|]. apply gives_bind. intros _. apply openRows_unowned.
  - apply gives_bind. intros d. cbv zeta. apply gives_deferring. apply gives_bind. intros _. apply openRows_unowned.
Qed.

Lemma queryCallRows_unowned ctx h name : gives unowned (queryCallRows ctx h name).
Proof.
  unfold queryCallRows. case_match; [apply gives_fail|]. do 6 (apply gives_bind; intros ?).
  eapply gives_bind_with; [apply openRows_unowned|]. intros rows Hr. apply gives_ret. by case_match.
Qed.

Lemma queryContext_unreleased ctx query : gives (fun rows => releaseStmt rows = None) (queryContext ctx query).
Proof.
  unfold queryContext. apply gives_bind. intros _. cbv zeta. case_match; [apply gives_fail|].
  apply gives_bind. intros [own h]. apply gives_bind. intros [rpb request]. apply gives_onFailure.
  unfold openQuery. do 3 (apply gives_bind; intros ?). apply (gives_bind_with unowned).
  - case_match; [apply queryCallRows_unowned|apply openRows_unowned].
  - intros rows [_ Hr]. apply gives_ret. by case_match.
Qed.

Lemma queryPreparedTransient_unreleased ctx query args :
  gives (fun rows => releaseStmt rows = None) (queryPreparedTransient ctx query args).
Proof.
  unfold queryPreparedTransient. apply gives_bind. intros [[[type h] name] format].
  eapply gives_bind_with; [apply gives_onFailure, queryPreparedWithArgs_unowned|]. intros rows [_ Hr].
  apply gives_ret. unfold markStoredProcResult. by case_match.
Qed.

(** Rows that close their statement. *)
Definition owning_rows (h : Z) (name : bytes) (rows : queryRows) : Prop := rows_of h name rows /\ ownStatement rows = true.

Lemma openQuery_of ctx type h name rpb request : gives (owning_rows h name) (openQuery ctx type h name rpb request).
Proof.
  unfold openQuery. do 3 (apply gives_bind; intros ?). apply (gives_bind_with (rows_of h name)).
  - case_match; [apply queryCallRows_of|apply openRows_of].
  - intros rows Hr. apply gives_ret. by case_match.
Qed.
End Rows.

(** ** Cursor names

    The cursors of a connection that are open, with the statement of each and
    whether the name is the statement's own.  Names are given back by whoever
    holds them, so the default name of a statement is busy exactly while one
    open cursor has it. *)
Record openCursor := mkCursor { cursorStatement : Z; openName : bytes; isDefault : bool }.

Inductive cursorStep : Conn * list openCursor -> Conn * list openCursor -> Prop :=
| cursor_open c live h name default c' :
    0 <= h < 2 ^ 16 -> cursorSeq c < 2 ^ 32 - 1 ->
    openCursorName h c = (Ret (name, default), c') ->
    cursorStep (c, live) (c', live ++ [mkCursor h name default])
| cursor_close c live1 live2 k c' r :
    releaseOpenCursorName (cursorStatement k) (isDefault k) c = (r, c') ->
    cursorStep (c, live1 ++ k :: live2) (c', live1 ++ live2).

Definition cursors_ok (s : Conn * list openCursor) : Prop :=
  let '(c, live) := s in
  0 <= cursorSeq c < 2 ^ 32 /\
  NoDup (openName <$> live) /\
  (forall k, k ∈ live ->
     if isDefault k
     then 0 <= cursorStatement k < 2 ^ 16 /\ openName k = cursorNameForStatement (cursorStatement k) /\
          cursorStatement k ∈ defaultCursorBusy c
     else exists n, 1 <= n <= cursorSeq c /\ openName k = extraCursorName n) /\
  (forall h, h ∈ defaultCursorBusy c -> exists k, k ∈ live /\ isDefault k = true /\ cursorStatement k = h).

Lemma default_name_inj h1 h2 :
  0 <= h1 < 2 ^ 16 -> 0 <= h2 < 2 ^ 16 -> cursorNameForStatement h1 = cursorNameForStatement h2 -> h1 = h2.
Proof.
  unfold cursorNameForStatement. intros ?? E%app_inv_head. rewrite !wrapu_id in E by lia.
  apply padHex_inj in E; [done|change (16 ^ Z.of_nat 8) with (2 ^ 32); lia..].
Qed.

Lemma extra_name_inj n1 n2 :
  0 <= n1 < 2 ^ 32 -> 0 <= n2 < 2 ^ 32 -> extraCursorName n1 = extraCursorName n2 -> n1 = n2.
Proof.
  unfold extraCursorName. intros ?? E%app_inv_head. apply padHex_inj in E; [done|change (16 ^ Z.of_nat 8) with (2 ^ 32); lia..].
Qed.

Lemma default_not_extra h n : cursorNameForStatement h <> extraCursorName n.
Proof. done. Qed.

Lemma openCursorName_run h c name default c' :
  0 <= cursorSeq c < 2 ^ 32 - 1 -> openCursorName h c = (Ret (name, default), c') ->
  if default
  then (h ∉ defaultCursorBusy c) /\ name = cursorNameForStatement h /\
       c' = set_defaultCursorBusy c ({[h]} ∪ defaultCursorBusy c)
  else h ∈ defaultCursorBusy c /\ name = extraCursorName (cursorSeq c + 1) /\ c' = set_cursorSeq c (cursorSeq c + 1).
Proof.
  intros Hseq. unfold openCursorName, mbind, M_bind, get. rewrite wrapu_id by lia.
  rewrite (proj2 (Z.eqb_neq (cursorSeq c + 1) 0)) by lia. destruct (decide _); by intros [= <- <- <-].
Qed.

Lemma cursors_ok_open c live h name default c' :
  0 <= h < 2 ^ 16 -> cursorSeq c < 2 ^ 32 - 1 -> openCursorName h c = (Ret (name, default), c') ->
  cursors_ok (c, live) -> cursors_ok (c', live ++ [mkCursor h name default]).
Proof.
  intros Hh Hlt E (Hseq & Hnd & Hlive & Hbusy). apply openCursorName_run in E; [|lia].
  assert (forall k, k ∈ live -> openName k <> name) as Hfresh.
  { intros k Hk En. specialize (Hlive k Hk). destruct default; destruct E as (Hb & -> & _); destruct (isDefault k).
    - destruct Hlive as (? & Hn & Hbk). rewrite Hn in En. apply default_name_inj in En; [|lia..]. by rewrite En in Hbk.
    - destruct Hlive as (n & _ & Hn). rewrite Hn in En. symmetry in En. by apply default_not_extra in En.
    - destruct Hlive as (_ & Hn & _). rewrite Hn in En. by apply default_not_extra in En.
    - destruct Hlive as (n & ? & Hn). rewrite Hn in En. apply extra_name_inj in En; lia. }
  split; [|split; [|split]].
  - destruct default; destruct E as (_ & _ & ->); cbn; lia.
  - rewrite fmap_app. apply NoDup_app. split_and!; [done| |apply NoDup_singleton].
    intros n Hn Hn'%list_elem_of_singleton. cbn in Hn'. subst n. apply list_elem_of_fmap in Hn as (k & Ek & Hk).
    by eapply Hfresh.
  - intros k [Hk|Hk%list_elem_of_singleton]%elem_of_app.
    + specialize (Hlive k Hk). destruct default; destruct E as (_ & _ & ->), (isDefault k); [|exact Hlive|exact Hlive|].
      * destruct Hlive as (? & ? & ?). split; [done|]. split; [done|]. by apply elem_of_union_r.
      * destruct Hlive as (n & ? & ?). exists n. split; [cbn [cursorSeq set_cursorSeq]; lia|done].
    + subst k. cbn [isDefault cursorStatement openName]. destruct default; destruct E as (_ & -> & ->).
      * split; [done|]. split; [done|]. by apply elem_of_union_l, elem_of_singleton.
      * exists (cursorSeq c + 1). split; [cbn [cursorSeq set_cursorSeq]; lia|done].
  - intros j Hj. destruct default; destruct E as (_ & _ & ->); cbn [defaultCursorBusy set_defaultCursorBusy set_cursorSeq] in Hj.
    + apply elem_of_union in Hj as [->%elem_of_singleton|Hj].
      * eexists. split; [apply elem_of_app; right; by apply list_elem_of_singleton|done].
      * destruct (Hbusy j Hj) as (k & Hk & ?). exists k. split; [by apply elem_of_app; left|done].
    + destruct (Hbusy j Hj) as (k & Hk & ?). exists k. split; [by apply elem_of_app; left|done].
Qed.

Lemma cursors_ok_close c live1 live2 k c' r :
  releaseOpenCursorName (cursorStatement k) (isDefault k) c = (r, c') ->
  cursors_ok (c, live1 ++ k :: live2) -> cursors_ok (c', live1 ++ live2).
Proof.
  intros E (Hseq & Hnd & Hlive & Hbusy).
  assert (forall k', k' ∈ live1 ++ live2 -> k' ∈ live1 ++ k :: live2) as Hsub.
  { intros k' [?|?]%elem_of_app; apply elem_of_app; [by left|right; by apply elem_of_cons; right]. }
  rewrite fmap_app, fmap_cons in Hnd.
  assert (forall k', k' ∈ live1 ++ live2 -> openName k' <> openName k) as Hother.
  { intros k' Hk' En. apply NoDup_app in Hnd as (_ & Hd & [Hn _]%NoDup_cons).
    apply elem_of_app in Hk' as [Hk'|Hk']; apply (list_elem_of_fmap_2 openName) in Hk'; rewrite En in Hk'; [|done].
    eapply Hd; [done|]. by apply elem_of_cons; left. }
  assert (NoDup (openName <$> live1 ++ live2)) as Hnd'.
  { rewrite fmap_app. eapply sublist_NoDup; [done|]. apply sublist_app; [done|]. by constructor. }
  assert (k ∈ live1 ++ k :: live2) as Hin by (apply elem_of_app; right; by apply elem_of_cons; left).
  pose proof (Hlive k Hin) as Hk. destruct (isDefault k) eqn:Ek.
  - injection E as _ <-. destruct Hk as (Hr & Hname & _). split; [done|]. split; [done|]. split.
    + intros k' Hk'. specialize (Hlive k' (Hsub k' Hk')). destruct (isDefault k'); [|exact Hlive].
      destruct Hlive as (? & Hn' & ?). split; [done|]. split; [done|]. apply elem_of_difference. split; [done|].
      intros Es%elem_of_singleton. apply (Hother k' Hk'). by rewrite Hn', Hname, Es.
    + intros j [Hj Hne]%elem_of_difference. destruct (Hbusy j Hj) as (k' & Hk' & Hd & <-).
      exists k'. split; [|done]. apply elem_of_app in Hk' as [?|[->|?]%elem_of_cons]; [apply elem_of_app; by left| |apply elem_of_app; by right].
      by destruct Hne; apply elem_of_singleton.
  - injection E as _ <-. split; [done|]. split; [done|]. split; [intros k' Hk'; exact (Hlive k' (Hsub k' Hk'))|].
    intros j Hj. destruct (Hbusy j Hj) as (k' & Hk' & Hd & Es). exists k'. split; [|done].
    apply elem_of_app in Hk' as [?|[->|?]%elem_of_cons]; [apply elem_of_app; by left|congruence|apply elem_of_app; by right].
Qed.

Section Query.
Context `{TableFS} `{Environment} `{BidiLayout} `{Parameters}.

(** The ids in use after an operation that may return rows: none more, but for
    the statement the rows own. *)
Definition ids_owned (c : Conn) (result : outcome queryRows * Conn) : Prop :=
  match result with
  | (Ret rows, c') =>
      ownStatement rows = true /\ 1 <= statementHandle rows < maxStatements /\
      (statementHandle rows ∉ usedStatementHandles c) /\
      usedStatementHandles c' = {[statementHandle rows]} ∪ usedStatementHandles c
  | (Fail _, c') => usedStatementHandles c' = usedStatementHandles c
  | (Panic, _) => True
  end.

(** [queryContext] never leaks a statement id: when it fails, at whatever step,
    the ids in use are those it started with; when it returns rows, one id that
    was free is in use, and the rows own it. *)
Lemma queryContext_ids (ctx : context) (query : bytes) (c : Conn) : ids_owned c (queryContext ctx query c).
Proof.
  unfold queryContext. unfold mbind at 1, M_bind. cbn [ClearWarnings modify].
  set (c0 := set_lastWarning c []). change (usedStatementHandles c) with (usedStatementHandles c0).
  case_match; [done|]. unfold mbind at 1, M_bind.
  destruct (nextStatementName c0) as [[[own h]|e|] c1] eqn:En; [|by apply nextStatementName_Fail in En as (_ & -> & _)|done].
  apply nextStatementName_Ret in En as (-> & Hh & Hfree & E1).
  assert (usedStatementHandles c1 = {[h]} ∪ usedStatementHandles c) as Hc1 by by rewrite E1.
  unfold mbind at 1, M_bind.
  destruct (onFailure (releaseStatementHandle h) _ c1) as [[[rpb request]|e|] c2] eqn:Eb; apply onFailure_run in Eb; [| |done].
  - kept same_handles in Eb as Hs.
    destruct (onFailure _ _ c2) as [[rows|e|] c3] eqn:Eq; apply onFailure_run in Eq; [| |done].
    + apply openQuery_of in Eq as Hr. destruct Hr as [(Hh' & _ & _) Hown]. kept same_handles in Eq as Hs3.
      unfold ids_owned. rewrite Hh', Hs3, Hs. by split_and!; try lia.
    + destruct Eq as (e' & c' & r2 & Eq & Ed). kept same_handles in Eq as Hs3.
      apply discardStatement_releases in Ed; [|lia|apply statementNameOf_not_blank].
      unfold ids_owned. rewrite Ed, Hs3, Hs, Hc1. by apply take_and_release.
  - destruct Eb as (e' & c' & r2 & Eb & Er). kept same_handles in Eb as Hs.
    unfold releaseStatementHandle in Er. destruct (Z.eqb_spec h 0); [lia|]. injection Er as _ <-.
    cbn. rewrite Hs, Hc1. by apply take_and_release.
Qed.
End Query.

(** * Properties *)

Section Properties.
Context `{TableFS} `{Environment} `{BidiLayout} `{Parameters}.

(** C6: an argument list that is run once ([execPreparedTransient]) takes a
    statement id only for the time it runs: whatever it returns, the ids in use
    are those it started with.  The one exception is a downloaded package in
    which the server has named a statement with nothing but white space. *)
Theorem exec_releases_its_id (ctx : context) (query : bytes) (args : list namedValue) (c : Conn) :
  match execPreparedTransient ctx query args c with
  | (Panic, _) => True
  | (_, c') =>
      usedStatementHandles c' = usedStatementHandles c \/ blank_in_package c'
  end.
Proof. exact (execPreparedTransient_ids ctx query args c). Qed.
End Properties.

(** C5: the cursors of a connection that are open at the same time have
    different names, whatever the order in which statements open and close
    them, as long as fewer than 2^32 second cursors were opened. *)
Theorem open_cursor_names_distinct (c c' : Conn) (live : list openCursor) :
  defaultCursorBusy c = ∅ -> cursorSeq c = 0 -> rtc cursorStep (c, []) (c', live) -> NoDup (openName <$> live).
Proof.
  intros Hb Hs Hsteps. assert (cursors_ok (c, [])) as Hok.
  { split; [lia|]. split; [by apply NoDup_nil|]. split; [by intros k ?%elem_of_nil|].
    rewrite Hb. intros h ?%elem_of_empty. done. }
  assert (cursors_ok (c', live)) as (_ & Hnd & _); [|done]. revert Hsteps Hok. clear.
  generalize (c', live). intros s' Hsteps. induction Hsteps as [|s1 s2 s3 Hstep _ IH]; [done|]. intros Hok. apply IH.
  destruct Hstep; [by eapply cursors_ok_open|by eapply cursors_ok_close].
Qed.

Lemma open_cursor_names_distinct_witness :
  exists live, rtc cursorStep (sampleConn, []) ((openCursorName 7 (openCursorName 7 sampleConn).2).2, live) /\
    NoDup (openName <$> live).
Proof.
  exists [mkCursor 7 (cursorNameForStatement 7) true; mkCursor 7 (extraCursorName 1) false].
  assert (rtc cursorStep (sampleConn, []) ((openCursorName 7 (openCursorName 7 sampleConn).2).2,
    [mkCursor 7 (cursorNameForStatement 7) true; mkCursor 7 (extraCursorName 1) false])) as Hr.
  { apply (rtc_l _ _ ((openCursorName 7 sampleConn).2, [mkCursor 7 (cursorNameForStatement 7) true])).
    - apply (cursor_open _ [] 7 (cursorNameForStatement 7) true); [lia|vm_compute; reflexivity|vm_compute; reflexivity].
    - apply rtc_once.
      apply (cursor_open _ [mkCursor 7 (cursorNameForStatement 7) true] 7 (extraCursorName 1) false);
        [lia|vm_compute; reflexivity|vm_compute; reflexivity]. }
  split; [exact Hr|]. eapply open_cursor_names_distinct; [| |exact Hr]; reflexivity.
Defined.

(** ** Behaviours worth knowing *)

(** The same bindings for every argument list. *)
#[refine] Definition bound (bindings : list parameterBinding) : Parameters := {|
  namedValue := unit;
  buildParameterBindingsWithBidi _ _ _ := Ret bindings;
  assignCallOutputParameters _ _ _ := mret tt;
|}.
Proof. all: intros; apply preserves_ret, _. Defined.

(** Native cancel is available. *)
Definition cancelConn : Conn :=
  mkConn sampleConfig (Some (mkSystemInfo [] 0x070500 5 37 10 (lit "123456/U/QZDASOINIT") 0 []))
    (Some []) false None true 0 [] emptyCache None {[1]} 0 0 ∅ ∅ ∅ 0 0 [] ∅.

(** The second exchange outlasts the deadline. *)
Definition slowExecute : Environment :=
  {| exchangeAt n := answered (if (n =? 1)%nat then 20 else 0); cancelTime _ := 0 |}.
Definition deadline10 : context := mkCtx (Some (10, EDeadlineExceeded)) (Some 10).

(** A statement that its deadline interrupts: native cancel keeps the
    connection, but the descriptor is then deleted under the expired context,
    and that request drops it. *)
Example interrupted_exec_keeps_connection :
  let '(r, c) := @doStatementRequest (always (answered 20)) deadline10 [] cancelConn in
  r = Fail EDeadlineExceeded /\ IsValid c = true.
Proof. by vm_compute. Qed.
Example interrupted_exec_drops_connection :
  let '(r, c) := @execPrepared noTables slowExecute (bound (hd [] sampleRows)) deadline10 1 1 None [] cancelConn in
  r = Fail EDeadlineExceeded /\ IsValid c = false /\ closeErr c = Some EDeadlineExceeded.
Proof. by vm_compute. Qed.

(** Without bindings there is no descriptor, and the connection is kept. *)
Example interrupted_exec_without_bindings :
  let '(r, c) := @execPrepared noTables (always (answered 20)) (bound []) deadline10 1 1 None [] cancelConn in
  r = Fail EDeadlineExceeded /\ IsValid c = true.
Proof. by vm_compute. Qed.

(** The query timeout of a closed statement is remembered under its id: the
    next statement with the id is not told the same timeout again. *)
Definition timeoutConfig : Config :=
  mkConfig [] 0 false [] [] [] NamingSQL 0 0 0 0 0 0 [] 0 0 false false false
    (Server sampleConfig) (Socket sampleConfig) (Config.Packages sampleConfig)
    (mkClientOptions [] [] [] [] [] (-1) true) (Bidi sampleConfig).
Definition timeoutConn : Conn :=
  mkConn timeoutConfig None (Some []) false None true 0 [] emptyCache None {[1]} 0 0 ∅ ∅ ∅ 0 0 [] ∅.
Definition in30s : context := mkCtx (Some (30000000000, EDeadlineExceeded)) (Some 30000000000).

Example stale_query_timeout :
  let env := always (answered 0) in
  let '(_, c1) := @syncQueryTimeoutRPB env in30s 1 timeoutConn in
  let '(_, c2) := @closePreparedStatement noTables env Background (statementNameOf 1) 1 c1 in
  let '(r, c3) := nextStatementName c2 in
  let '(_, c4) := @syncQueryTimeoutRPB env in30s 1 c3 in
  trace c1 = [EvWrite (buildChangeRPBQueryTimeoutRequest 1 30)] /\
  trace c2 = trace c1 ++ [EvWrite (buildDeleteRPBRequest 1)] /\
  r = Ret (statementNameOf 1, 1) /\ trace c4 = trace c2.
Proof. by vm_compute. Qed.
