(* ===== verification/Transaction.v ===== *)
(** Transactions (tx.go) and the life of a connection: ping, reset for the
    pool, client information and close (driver.go, clientinfo.go).

    A [Tx] is finished under its own lock: the first call takes the connection
    out of it, and every other call finds it done. *)
From Stdlib Require Import Strings.String.
From stdpp Require Import base list numbers strings gmap.
From S2P Require Import Prelude GoStrings Utf Ccsid Wire Reply Format Request Sqlca Config Package StatementCache Attributes Session Statements.
Open Scope Z_scope.

(** ** Isolation levels

    The levels of database/sql, by their numbers. *)
Definition LevelDefault : Z := 0.
Definition LevelReadUncommitted : Z := 1.
Definition LevelReadCommitted : Z := 2.
Definition LevelRepeatableRead : Z := 4.
Definition LevelSerializable : Z := 6.

(** The default level has no mode. *)
Definition transactionIsolationMode (level : Z) : outcome (option bytes) :=
  if level =? LevelDefault then Ret None
  else if level =? LevelReadUncommitted then Ret (Some (lit "CHG"))
  else if level =? LevelReadCommitted then Ret (Some (lit "CS"))
  else if level =? LevelRepeatableRead then Ret (Some (lit "ALL"))
  else if level =? LevelSerializable then Ret (Some (lit "RR"))
  else Fail (EUnsupported "isolation level").

Definition transactionCommitmentControl (level : Z) : Z :=
  if level =? LevelReadUncommitted then 2
  else if level =? LevelReadCommitted then 1
  else if level =? LevelRepeatableRead then 3
  else if level =? LevelSerializable then 4
  else defaultCommitmentControl.

Definition commitmentControlForAutoCommit (enabled : bool) (commitmentControl : Z) : Z :=
  if enabled then 0
  else if (commitmentControl <? 0) || (4 <? commitmentControl) then defaultCommitmentControl
  else commitmentControl.

Definition currentCommitmentMode (c : Conn) : Z :=
  if (currentCommitmentControl c <? 0) || (4 <? currentCommitmentControl c) then defaultCommitmentControl
  else currentCommitmentControl c.

Definition serverVRMAtLeast (min : Z) (c : Conn) : bool :=
  match systemInfo c with
  | None => false
  | Some info => negb (ServerVersion info =? 0) && (min <=? ServerVersion info)
  end.

Record Tx := mkTx { txConn : bool; txCtx : context; done : bool }.

Section Transaction.
Context `{TableFS} `{Environment} `{BidiLayout} `{Parameters}.

(** ** tx.go *)

Definition setCurrentCommitmentControl (mode : Z) : M unit := modify (fun c => set_currentCommitmentControl c mode).

Definition setTransactionIsolationLevel (ctx : context) (mode : bytes) : M unit :=
  execContext ctx (lit "SET TRANSACTION ISOLATION LEVEL " ++ mode);; mret tt.

Definition autoCommitRequest (c : Conn) (enabled : bool) : bytes :=
  buildAutoCommitRequestLevel enabled
    (serverCommitmentControl (cfg c) enabled (commitmentControlForAutoCommit false (currentCommitmentMode c))).

Definition setAutoCommitState (ctx : context) (enabled : bool) : M unit :=
  c ← get;
  if Bool.eqb (autoCommit c) enabled then mret tt
  else
    reply ← doRequest ctx (autoCommitRequest c enabled);
    checkReplyOf ctx 0 "set auto commit" reply;;
    modify (fun c => set_autoCommit c enabled).

Definition commitTransaction (ctx : context) : M unit :=
  reply ← doRequest ctx buildCommitRequest; checkReplyOf ctx 0 "commit" reply.

Definition rollbackTransaction (ctx : context) : M unit :=
  reply ← doRequest ctx buildRollbackRequest; checkReplyOf ctx 0 "rollback" reply.

Definition transactionActive : goerror := EText "transaction already active" [].

(** The isolation level is set, and its commitment control returned. *)
Definition chooseIsolation (ctx : context) (isolation : Z) (c : Conn) : M Z :=
  mode ← lift (transactionIsolationMode isolation);
  match mode with
  | None => mret (CommitmentControl (cfg c))
  | Some m => setTransactionIsolationLevel ctx m;; mret (transactionCommitmentControl isolation)
  end.

Definition BeginTx (ctx : context) (isolation : Z) : M Tx :=
  c ← get;
  match ctxErr ctx (clock c) with
  | Some e => fail e
  | None =>
      if negb (IsValid c) then fail EBadConn
      else if negb (autoCommit c) then fail transactionActive
      else
        commitmentControl ← chooseIsolation ctx isolation c;
        setCurrentCommitmentControl commitmentControl;;
        setAutoCommitState ctx false;;
        mret (mkTx true ctx false)
  end.

(** What [finish] does with the connection it took out of the transaction. *)
Definition finishOn (commit : bool) (ctx : context) : M unit :=
  c ← get;
  if negb (IsValid c) then fail EBadConn
  else
    (if commit then commitTransaction ctx else rollbackTransaction ctx);;
    setAutoCommitState ctx true;;
    c ← get;
    setCurrentCommitmentControl (CommitmentControl (cfg c)).

(** The result, the transaction and the connection that are left. *)
Definition finish (commit : bool) (t : Tx) (c : Conn) : outcome unit * (Tx * Conn) :=
  if done t then (Fail ETxDone, (t, c))
  else
    let t' := mkTx false (txCtx t) true in
    if negb (txConn t) then (Fail ETxDone, (t', c))
    else let '(r, c') := finishOn commit (txCtx t) c in (r, (t', c')).

Definition Commit : Tx -> Conn -> outcome unit * (Tx * Conn) := finish true.
Definition Rollback : Tx -> Conn -> outcome unit * (Tx * Conn) := finish false.

(** ** driver.go and clientinfo.go *)

Definition Ping (ctx : context) : M unit :=
  c ← get;
  match ctxErr ctx (clock c) with
  | Some e => fail e
  | None =>
      if negb (IsValid c) then fail EBadConn
      else
        r ← attempt (doRequest ctx buildTestConnectionRequest);
        match r with
        | inr e => if isContextError e then fail e else fail EBadConn
        | inl (envelope, _) =>
            if (RCClass envelope =? 7) && (RCCode envelope =? -201) then mret tt else fail EBadConn
        end
  end.

(** The version of an unknown system is zero. *)
Definition serverVRM (c : Conn) : Z := match systemInfo c with None => 0 | Some info => ServerVersion info end.

Definition setServerAttributes (ctx : context) (autoCommit : bool) : M unit :=
  c ← get;
  request ← lift (buildSetServerAttributesRequestVRM (cfg c) autoCommit (currentCommitmentMode c) (serverVRM c));
  reply ← doRequest ctx request;
  if hasError reply.1 then fail (EText "database server attributes failed" [RCClass reply.1; u32 (RCCode reply.1)])
  else modify (fun c => set_autoCommit c autoCommit).

Definition addConfiguredLibraries (ctx : context) : M unit :=
  c ← get;
  let '(indicators, libraries) := configuredLibraryList (cfg c) in
  request ← lift (buildAddLibraryListRequest indicators libraries);
  match request with
  | None => mret tt
  | Some request =>
      reply ← doRequest ctx request;
      if hasError reply.1 then fail (EText "database add library list failed" [RCClass reply.1; u32 (RCCode reply.1)])
      else mret tt
  end.

Definition ClientInfo (c : Conn) (name : bytes) : bytes :=
  match clientInfoCodePoint name with
  | None => []
  | Some _ => match clientInfo c !! name with Some value => value | None => clientInfoDSNValue (cfg c) name end
  end.

Definition unknownClientInfo : goerror := EText "unknown client info name" [].

(** An error of the exchange is returned after the value is put back. *)
Definition SetClientInfo (ctx : context) (name value : bytes) : M unit :=
  match clientInfoCodePoint name with
  | None => fail unknownClientInfo
  | Some codePoint =>
      c ← get;
      request ← (if serverVRMAtLeast clientInfoMinVRM c then
                   if negb (IsValid c) then fail EBadConn
                   else Some <$> lift (buildSetClientInfoRequest codePoint value)
                 else mret None);
      let previous := clientInfo c !! name in
      modify (fun c => set_clientInfo c (<[name := value]> (clientInfo c)));;
      let restore := modify (fun c =>
        set_clientInfo c (match previous with Some v => <[name := v]> (clientInfo c) | None => delete name (clientInfo c) end)) in
      match request with
      | None => mret tt
      | Some request =>
          r ← attempt (reply ← doRequest ctx request; checkReplyOf ctx 0 "set client info" reply);
          match r with inl _ => mret tt | inr e => restore;; fail e end
      end
  end.

(** The keys of [attrs] that were changed get their configured value back. *)
Fixpoint restoreKeys (ctx : context) (changed : gmap bytes bytes) (attrs : list (bytes * Z)) : M unit :=
  match attrs with
  | [] => mret tt
  | (name, codePoint) :: attrs' =>
      match changed !! name with
      | None => restoreKeys ctx changed attrs'
      | Some _ =>
          c ← get;
          request ← lift (buildSetClientInfoRequest codePoint (clientInfoDSNValue (cfg c) name));
          reply ← doRequest ctx request;
          checkReplyOf ctx 0 "restore client info" reply;;
          restoreKeys ctx changed attrs'
      end
  end.

Definition clientInfoKeys : list (bytes * Z) := (fun p => (p.1, p.2.1)) <$> clientInfoAttributes.

Definition restoreClientInfo (ctx : context) : M unit :=
  c ← get;
  let changed := clientInfo c in
  modify (fun c => set_clientInfo c ∅);;
  if bool_decide (changed = ∅) || negb (serverVRMAtLeast clientInfoMinVRM c) then mret tt
  else restoreKeys ctx changed clientInfoKeys.

Definition ResetSession (ctx : context) : M unit :=
  c ← get;
  match ctxErr ctx (clock c) with
  | Some e => fail e
  | None =>
      if negb (IsValid c) then fail EBadConn
      else
        ClearWarnings;;
        (if negb (autoCommit c) then rollbackTransaction ctx else mret tt);;
        setCurrentCommitmentControl (CommitmentControl (cfg c));;
        setServerAttributes ctx true;;
        restoreClientInfo ctx;;
        addConfiguredLibraries ctx
  end.

(** [sendEndJobRequest]: its error is dropped. *)
Definition sendEndJobRequest : M unit :=
  ex ← nextExchange;
  log (if requestWritten ex then EvWrite buildEndJobRequest else EvWriteFailed buildEndJobRequest).

(** Closing twice gives the first error again; [closing] is what closing the
    socket returns. *)
Definition CloseConn (closing : option goerror) : M unit :=
  let returned (e : option goerror) : M unit := match e with Some e => fail e | None => mret tt end in
  c ← get;
  if closed c then returned (closeErr c)
  else
    let conn := netConn c in
    modify (fun c => set_netConn (set_closed c true) None);;
    closeErr ←
      match conn with
      | None => mret None
      | Some _ => sendEndJobRequest;; log EvClose;; mret closing
      end;
    modify (fun c => set_closeErr (set_stmtCaching c (closeSection (stmtCaching c))) closeErr);;
    returned closeErr.
End Transaction.

(** * Lemmas *)

(** ** What a request that is answered does

    [wrote ps c c']: the connection is as live as it was, the packets [ps] went
    out, and the session state is what it was. *)
Record wrote (ps : list bytes) (c c' : Conn) : Prop := {
  wr_cfg : cfg c' = cfg c;
  wr_systemInfo : systemInfo c' = systemInfo c;
  wr_valid : IsValid c' = IsValid c;
  wr_trace : trace c' = trace c ++ (EvWrite <$> ps);
  wr_autoCommit : autoCommit c' = autoCommit c;
  wr_commitment : currentCommitmentControl c' = currentCommitmentControl c;
  wr_clientInfo : clientInfo c' = clientInfo c;
  wr_clock : clock c <= clock c';
}.

Lemma wrote_nothing c : wrote [] c c.
Proof. constructor; try done. cbn. by rewrite app_nil_r. Qed.

Lemma wrote_app ps qs c1 c2 c3 : wrote ps c1 c2 -> wrote qs c2 c3 -> wrote (ps ++ qs) c1 c3.
Proof.
  intros [] []. constructor; try congruence; [|lia]. rewrite fmap_app, app_assoc. by rewrite <- wr_trace0.
Qed.

(** A run that returns and has written [ps]. *)
Definition answers {A} (ps : list bytes) (m : M A) : Prop := forall c a c', m c = (Ret a, c') -> wrote ps c c'.

Lemma answers_bind {A B} ps qs (m : M A) (f : A -> M B) :
  answers ps m -> (forall a, answers qs (f a)) -> answers (ps ++ qs) (m ≫= f).
Proof. intros Hm Hf c b c' (a & c1 & E1 & E2)%run_bind_Ret. eapply wrote_app; [by eapply Hm|by eapply Hf]. Qed.

Ltac wrote_step := intros ? ? ? [= _ <-]; constructor; cbn; try done; try lia; by rewrite app_nil_r.

Section Answers.
Context `{TableFS} `{Environment} `{BidiLayout} `{Parameters}.

Lemma answers_ret {A} (a : A) : answers [] (mret a).
Proof. intros c r c' [= _ <-]. apply wrote_nothing. Qed.
Lemma answers_lift {A} (m : outcome A) : answers [] (lift m).
Proof. intros c r c' [= _ <-]. apply wrote_nothing. Qed.
Lemma answers_fail {A} ps e : answers ps (@fail A e).
Proof. by intros c r c' [=]. Qed.
Lemma answers_spend t : answers [] (spend t).
Proof. wrote_step. Qed.
Lemma answers_nextExchange : answers [] nextExchange.
Proof. wrote_step. Qed.
Lemma answers_recordWarning w : answers [] (recordWarning w).
Proof. wrote_step. Qed.
Lemma answers_ClearWarnings : answers [] ClearWarnings.
Proof. wrote_step. Qed.
Lemma answers_ioFailed {A} ps ctx : answers ps (@ioFailed A ctx).
Proof. intros c r c' E. by apply ioFailed_not_Ret in E. Qed.
Lemma answers_leaveUnread rest : answers [] (modify (leaveUnread rest)).
Proof.
  intros c r c' [= _ <-]. unfold leaveUnread. destruct (netConn c) eqn:En; [|apply wrote_nothing].
  constructor; cbn; try done; [|by rewrite app_nil_r]. unfold IsValid. cbn. by rewrite En, !bool_decide_true by by eexists.
Qed.
Lemma answers_get {B} ps (f : Conn -> M B) : (forall c, answers ps (f c)) -> answers ps (get ≫= f).
Proof. intros Hf c r c' E. by eapply (Hf c). Qed.

Lemma answers_writePacket ctx w t packet : answers [packet] (writePacket ctx w t packet).
Proof.
  apply (answers_bind []); [apply answers_spend|intros _]. destruct w.
  - intros c r c' [= _ <-]. by constructor.
  - intros c r c' ([] & c1 & _ & E)%run_bind_Ret. by apply ioFailed_not_Ret in E.
Qed.

Lemma answers_receivePacket ctx ex : answers [] (receivePacket ctx ex).
Proof.
  apply (answers_bind [] []); [apply answers_spend|intros _]. apply answers_get. intros c.
  destruct (readPacket _) as [[packet|e|] rest]; [|apply answers_ioFailed|apply answers_lift].
  apply (answers_bind [] []); [apply answers_leaveUnread|intros _; apply answers_ret].
Qed.

Lemma answers_doRequest ctx request : answers [request] (doRequest ctx request).
Proof.
  apply answers_get. intros c. destruct (ctxErr ctx (clock c)).
  - intros c1 r c' (? & ? & _ & E)%run_bind_Ret. done.
  - destruct (IsValid c); cbn [negb]; [|apply answers_fail].
    apply (answers_bind []); [apply answers_nextExchange|intros ex].
    apply (answers_bind []); [apply answers_ret|intros _].
    apply (answers_bind [request]); [apply answers_writePacket|intros _].
    apply (answers_bind [] []); [apply answers_receivePacket|intros packet; apply answers_lift].
Qed.

Lemma answers_checkReplyOf ctx h op reply : answers [] (checkReplyOf ctx h op reply).
Proof.
  apply (answers_bind [] []); [apply answers_lift|]. intros [|w| |info].
  - apply answers_ret.
  - apply answers_recordWarning.
  - apply answers_fail.
  - intros c r c' (e & c1 & _ & E)%run_bind_Ret. done.
Qed.

(** A request and the check of its reply. *)
Lemma answers_checked ctx h op request :
  answers [request] (reply ← doRequest ctx request; checkReplyOf ctx h op reply).
Proof. apply (answers_bind [request] []); [apply answers_doRequest|intros reply; apply answers_checkReplyOf]. Qed.

(** An answered request had a live connection, and a context that had not ended. *)
Lemma doRequest_live ctx request c reply c' : doRequest ctx request c = (Ret reply, c') -> IsValid c = true.
Proof.
  intros (c0 & ? & [= -> <-] & E)%run_bind_Ret. destruct (ctxErr ctx (clock c0)); [done|].
  by destruct (IsValid c0).
Qed.

Lemma checked_live ctx h op request c r c' :
  (reply ← doRequest ctx request; checkReplyOf ctx h op reply) c = (Ret r, c') -> IsValid c = true.
Proof. intros (reply & c1 & E & _)%run_bind_Ret. by eapply doRequest_live. Qed.
End Answers.

(** ** What a request may send

    The packets given to the socket, whether the write succeeded or not. *)
Definition sentPacket (ev : event) : option bytes :=
  match ev with EvWrite p | EvWriteFailed p => Some p | EvClose => None end.

(** [sends ps m c]: run from [c], [m] sends some of the packets [ps], in order,
    each at most once. *)
Definition sends {A} (ps : list bytes) (m : M A) (c : Conn) : Prop := forall r c', m c = (r, c') ->
  exists events, trace c' = trace c ++ events /\ sublist (omap sentPacket events) ps.

(** The request for the message of an SQL error. *)
Definition messageRequest (c : Conn) (h : Z) : bytes :=
  buildSendResultsSetRequest h (sqlMessageBitmap (ErrorsFull (Server (cfg c)))).

Section Sends.
Context `{TableFS} `{Environment} `{BidiLayout} `{Parameters}.

Lemma sends_none {A} (m : M A) c ps : (forall r c', m c = (r, c') -> trace c' = trace c) -> sends ps m c.
Proof. intros Hm r c' E. exists []. rewrite app_nil_r. split; [by eapply Hm|apply sublist_nil_l]. Qed.

Lemma sends_bind {A B} ps qs (m : M A) (f : A -> M B) c :
  sends ps m c -> (forall a c1, m c = (Ret a, c1) -> sends qs (f a) c1) -> sends (ps ++ qs) (m ≫= f) c.
Proof.
  intros Hm Hf r c' E. unfold mbind, M_bind in E. destruct (m c) as [[a|e|] c1] eqn:Em.
  - destruct (Hm _ _ Em) as (l1 & T1 & S1). destruct (Hf _ _ eq_refl _ _ E) as (l2 & T2 & S2).
    exists (l1 ++ l2). rewrite omap_app, T2, T1, app_assoc. split; [done|by apply sublist_app].
  - destruct (Hm _ _ Em) as (l1 & T1 & S1). injection E as _ <-. exists l1. split; [done|by apply sublist_inserts_r].
  - destruct (Hm _ _ Em) as (l1 & T1 & S1). injection E as _ <-. exists l1. split; [done|by apply sublist_inserts_r].
Qed.

Lemma sends_more {A} ps qs (m : M A) c : sublist ps qs -> sends ps m c -> sends qs m c.
Proof. intros Hs Hm r c' E. destruct (Hm _ _ E) as (l & ? & ?). exists l. split; [done|by etrans]. Qed.

Lemma sends_attempt {A} ps (m : M A) c : sends ps m c -> sends ps (attempt m) c.
Proof. intros Hm r c' E. unfold attempt in E. destruct (m c) as [[] c1] eqn:Em; injection E as _ <-; by eapply Hm. Qed.

Lemma sends_invalidate {A} ps e (m : M A) c :
  (forall c, sends [] m c) -> sends ps (invalidateConnection e;; m) c.
Proof.
  intros Hm. apply (sends_more []); [apply sublist_nil_l|]. apply (sends_bind [] []); [|intros; apply Hm].
  intros r c' [= _ <-]. destruct (netConn c); [exists [EvClose]|exists []; rewrite app_nil_r];
    (split; [|constructor]); destruct (closed c); cbn; by destruct (closeErr c).
Qed.

Lemma sends_ioFailed {A} ps ctx c : sends ps (@ioFailed A ctx) c.
Proof. intros r c' E. unfold ioFailed, mbind, M_bind, get in E. destruct (ctxIOError ctx (clock c));
  eapply sends_invalidate; try exact E; intros c1; apply sends_none; by intros ?? [= _ <-]. Qed.

Lemma sends_writePacket ctx w t packet c : sends [packet] (writePacket ctx w t packet) c.
Proof.
  apply (sends_bind []); [apply sends_none; by intros ?? [= _ <-]|intros [] c1 _]. destruct w.
  - intros r c' [= _ <-]. by exists [EvWrite packet].
  - apply (sends_bind [packet] []); [|intros; apply sends_ioFailed]. intros r c' [= _ <-]. by exists [EvWriteFailed packet].
Qed.

Lemma sends_receivePacket ctx ex c : sends [] (receivePacket ctx ex) c.
Proof.
  apply (sends_bind [] []); [apply sends_none; by intros ?? [= _ <-]|intros [] c1 _]. intros r c' E.
  unfold mbind, M_bind, get in E. destruct (readPacket _) as [[packet|e|] rest].
  - injection E as _ <-. exists []. rewrite app_nil_r. split; [|constructor]. unfold leaveUnread. by destruct (netConn c1).
  - by eapply sends_ioFailed.
  - eapply sends_none, E. by intros ?? [= _ <-].
Qed.

(** A request is sent at most once. *)
Lemma sends_doRequest ctx request c : sends [request] (doRequest ctx request) c.
Proof.
  intros r c' E. unfold doRequest, doRequestWithPreamble in E. unfold mbind at 1, M_bind at 1, get in E.
  destruct (ctxErr ctx (clock c)).
  - eapply sends_invalidate, E. intros c1. apply sends_none. by intros ?? [= _ <-].
  - destruct (IsValid c); cbn [negb] in E; [|eapply sends_none, E; by intros ?? [= _ <-]].
    revert r c' E. fold (sends [request] (ex ← nextExchange;
      mret tt;; writePacket ctx (requestWritten ex) (requestTime ex) request;;
      packet ← receivePacket ctx ex; lift (readReplyEnvelope packet)) c).
    apply (sends_bind []); [apply sends_none; by intros ?? [= _ <-]|intros ex c1 _].
    apply (sends_bind []); [apply sends_none; by intros ?? [= _ <-]|intros [] c2 _].
    apply (sends_bind [request]); [apply sends_writePacket|intros [] c3 _].
    apply (sends_bind [] []); [apply sends_receivePacket|intros packet c4 _]. apply sends_none. by intros ?? [= _ <-].
Qed.

Lemma sends_checkReplyOf ctx h op reply c : sends [messageRequest c h] (checkReplyOf ctx h op reply) c.
Proof.
  apply (sends_bind []); [apply sends_none; by intros ?? [= _ <-]|intros verdict c1 [= _ <-]].
  destruct verdict as [|w| |info]; try (apply sends_none; by intros ?? [= _ <-]).
  apply (sends_bind [_] []); [|intros; apply sends_none; by intros ?? [= _ <-]].
  intros r c' E. unfold newSQLError in E. unfold mbind at 1, M_bind at 1, get in E. revert r c' E.
  match goal with |- forall r c', ?m c = (r, c') -> _ => change (sends [messageRequest c h] m c) end.
  apply (sends_bind [_] []); [apply sends_attempt, sends_doRequest|intros reply' c1 _].
  apply sends_none. intros r c' E. unfold mbind, M_bind, lift in E. destruct (sqlErrorWithText _ _); by injection E as _ <-.
Qed.

Lemma sends_checked ctx h op request c :
  sends [request; messageRequest c h] (reply ← doRequest ctx request; checkReplyOf ctx h op reply) c.
Proof.
  apply (sends_bind [request] [_]); [apply sends_doRequest|]. intros reply c1 E. apply answers_doRequest in E as [].
  unfold messageRequest. rewrite <- wr_cfg0. apply sends_checkReplyOf.
Qed.
End Sends.

(** ** The session state *)

Lemma wrote_set_autoCommit ps c c' v : wrote ps c c' -> wrote ps (set_autoCommit c v) (set_autoCommit c' v).
Proof. intros []. by constructor. Qed.
Lemma wrote_set_commitment ps c c' v :
  wrote ps c c' -> wrote ps (set_currentCommitmentControl c v) (set_currentCommitmentControl c' v).
Proof. intros []. by constructor. Qed.
Lemma wrote_set_clientInfo ps c c' v : wrote ps c c' -> wrote ps (set_clientInfo c v) (set_clientInfo c' v).
Proof. intros []. by constructor. Qed.

(** A connection as it is handed out by the pool. *)
Definition settled (c : Conn) : Conn :=
  set_currentCommitmentControl (set_autoCommit c true) (CommitmentControl (cfg c)).

(** The autocommit request of a transaction that ends, when one is needed. *)
Definition autoCommitRequests (c : Conn) (enabled : bool) : list bytes :=
  if Bool.eqb (autoCommit c) enabled then [] else [autoCommitRequest c enabled].

Lemma autoCommitRequests_wrote ps c c' enabled : wrote ps c c' -> autoCommitRequests c' enabled = autoCommitRequests c enabled.
Proof.
  intros []. unfold autoCommitRequests, autoCommitRequest, currentCommitmentMode.
  by rewrite wr_cfg0, wr_autoCommit0, wr_commitment0.
Qed.

Section Operations.
Context `{TableFS} `{Environment} `{BidiLayout} `{Parameters}.

Lemma setAutoCommitState_wrote ctx enabled c c' :
  setAutoCommitState ctx enabled c = (Ret tt, c') ->
  wrote (autoCommitRequests c enabled) (set_autoCommit c enabled) c'.
Proof.
  unfold setAutoCommitState, autoCommitRequests. intros (c0 & ? & [= -> <-] & E)%run_bind_Ret.
  destruct (Bool.eqb (autoCommit c0) enabled) eqn:Eb.
  - apply Bool.eqb_prop in Eb as <-. injection E as <-. constructor; try done. cbn. by rewrite app_nil_r.
  - apply run_bind_Ret in E as (reply & c1 & E1 & E). apply run_bind_Ret in E as ([] & c2 & E2 & [= <-]).
    apply (wrote_set_autoCommit [_]).
    apply (wrote_app [_] [] _ _ _ (answers_doRequest _ _ _ _ _ E1) (answers_checkReplyOf _ _ _ _ _ _ _ E2)).
Qed.

Definition finishRequestOf (commit : bool) : bytes := if commit then buildCommitRequest else buildRollbackRequest.

Lemma commit_or_rollback (commit : bool) ctx :
  (if commit then commitTransaction ctx else rollbackTransaction ctx) =
  (reply ← doRequest ctx (finishRequestOf commit); checkReplyOf ctx 0 (if commit then "commit" else "rollback") reply).
Proof. by destruct commit. Qed.

Lemma finishOn_wrote commit ctx c c' :
  finishOn commit ctx c = (Ret tt, c') ->
  IsValid c = true /\ wrote (finishRequestOf commit :: autoCommitRequests c true) (settled c) c'.
Proof.
  unfold finishOn. rewrite commit_or_rollback. intros (c0 & ? & [= -> <-] & E)%run_bind_Ret.
  destruct (IsValid c0); [|done]. split; [done|]. apply run_bind_Ret in E as ([] & c1 & E1 & E).
  apply answers_checked in E1. apply run_bind_Ret in E as ([] & c2 & E2 & E). apply setAutoCommitState_wrote in E2.
  rewrite (autoCommitRequests_wrote _ _ _ _ E1) in E2. injection E as <-.
  pose proof (wrote_app _ _ _ _ _ (wrote_set_autoCommit _ _ _ true E1) E2) as W. rewrite (wr_cfg _ _ _ W).
  apply (wrote_set_commitment _ _ _ _ W).
Qed.

Lemma finishOn_sends commit ctx c :
  sends ([finishRequestOf commit; messageRequest c 0] ++ autoCommitRequests c true ++ [messageRequest c 0]) (finishOn commit ctx) c.
Proof.
  unfold finishOn. rewrite commit_or_rollback. intros r c'. unfold mbind at 1, M_bind at 1, get.
  destruct (IsValid c); cbn [negb]; [|by eapply sends_none; intros ?? [= _ <-]]. revert r c'.
  apply (sends_bind [_; _]); [apply sends_checked|]. intros [] c1 E1. apply answers_checked in E1 as W.
  rewrite <- (autoCommitRequests_wrote _ _ _ true W), <- (app_nil_r (autoCommitRequests c1 true ++ [messageRequest c 0])). apply sends_bind.
  - intros r c'. unfold setAutoCommitState, autoCommitRequests. unfold mbind at 1, M_bind at 1, get.
    destruct (Bool.eqb (autoCommit c1) true); [eapply sends_none; by intros ?? [= _ <-]|]. revert r c'.
    apply (sends_bind [_]); [apply sends_doRequest|]. intros reply c2 E2. rewrite <- (app_nil_r [messageRequest c 0]). apply sends_bind.
    + replace (messageRequest c 0) with (messageRequest c2 0); [apply sends_checkReplyOf|].
      unfold messageRequest. by rewrite (wr_cfg _ _ _ (answers_doRequest _ _ _ _ _ E2)), (wr_cfg _ _ _ W).
    + intros [] c3 _. apply sends_none. by intros ?? [= _ <-].
  - intros [] c2 _. apply sends_none. by intros ?? [= _ <-].
Qed.
End Operations.

(** ** The reset of a session *)

(** The client information keys that were changed and that the server knows. *)
Definition changedKeys (c : Conn) : list (bytes * Z) :=
  if serverVRMAtLeast clientInfoMinVRM c
  then filter (fun key => is_Some (clientInfo c !! key.1)) clientInfoKeys else [].

Section Reset.
Context `{TableFS} `{Environment} `{BidiLayout} `{Parameters}.

(** [restores c keys packets]: each packet sets its key to the configured value. *)
Definition restores (c : Conn) (keys : list (bytes * Z)) (packets : list bytes) : Prop :=
  Forall2 (fun key p => buildSetClientInfoRequest key.2 (clientInfoDSNValue (cfg c) key.1) = Ret p) keys packets.

Lemma restoreKeys_wrote ctx changed attrs c c' :
  restoreKeys ctx changed attrs c = (Ret tt, c') ->
  exists packets, restores c (filter (fun key => is_Some (changed !! key.1)) attrs) packets /\ wrote packets c c'.
Proof.
  revert c. induction attrs as [|[name codePoint] attrs IH]; intros c E.
  - injection E as <-. exists []. split; [constructor|apply wrote_nothing].
  - cbn [restoreKeys] in E. destruct (changed !! name) as [v|] eqn:El.
    + rewrite filter_cons_True by (cbn; rewrite El; by eexists).
      apply run_bind_Ret in E as (c0 & ? & [= -> <-] & E).
      apply run_bind_Ret in E as (request & ? & [= Er <-] & E).
      apply run_bind_Ret in E as (reply & c1 & E1 & E). apply answers_doRequest in E1.
      apply run_bind_Ret in E as ([] & c2 & E2 & E). apply answers_checkReplyOf in E2.
      pose proof (wrote_app _ _ _ _ _ E1 E2) as W. destruct (IH _ E) as (packets & Hr & Wr).
      exists (request :: packets). split; [|apply (wrote_app [request] _ _ _ _ W Wr)].
      constructor; [done|]. unfold restores in Hr. by rewrite (wr_cfg _ _ _ W) in Hr.
    + rewrite filter_cons_False by (cbn; rewrite El; by intros []). by apply IH.
Qed.

Lemma filter_none {A} (P : A -> Prop) `{!forall x, Decision (P x)} l : (forall x, ~ P x) -> filter P l = [].
Proof. intros Hn. induction l as [|x l IH]; [done|]. by rewrite filter_cons_False. Qed.

Lemma restoreClientInfo_wrote ctx c c' :
  restoreClientInfo ctx c = (Ret tt, c') ->
  exists packets, restores c (changedKeys c) packets /\ wrote packets (set_clientInfo c ∅) c'.
Proof.
  unfold restoreClientInfo, changedKeys. intros (c0 & ? & [= -> <-] & E)%run_bind_Ret.
  apply run_bind_Ret in E as ([] & ? & [= <-] & E).
  destruct (serverVRMAtLeast clientInfoMinVRM c0); [|rewrite orb_true_r in E].
  - case_bool_decide as Hc; [|by apply restoreKeys_wrote in E]. injection E as <-. exists []. rewrite Hc, filter_none.
    + split; [constructor|apply wrote_nothing].
    + intros key. rewrite lookup_empty. by intros [].
  - injection E as <-. exists []. split; [constructor|apply wrote_nothing].
Qed.

Lemma setServerAttributes_wrote ctx on c c' :
  setServerAttributes ctx on c = (Ret tt, c') ->
  exists request,
    buildSetServerAttributesRequestVRM (cfg c) on (currentCommitmentMode c) (serverVRM c) = Ret request /\
    wrote [request] (set_autoCommit c on) c'.
Proof.
  unfold setServerAttributes. intros (c0 & ? & [= -> <-] & E)%run_bind_Ret.
  apply run_bind_Ret in E as (request & ? & [= Er <-] & E). exists request. split; [done|].
  apply run_bind_Ret in E as (reply & c1 & E1 & E). destruct (hasError reply.1); [done|]. injection E as <-.
  apply answers_doRequest in E1. by apply wrote_set_autoCommit.
Qed.

Lemma addConfiguredLibraries_wrote ctx c c' :
  addConfiguredLibraries ctx c = (Ret tt, c') ->
  exists request,
    buildAddLibraryListRequest (configuredLibraryList (cfg c)).1 (configuredLibraryList (cfg c)).2 = Ret request /\
    wrote (option_list request) c c'.
Proof.
  unfold addConfiguredLibraries. intros (c0 & ? & [= -> <-] & E)%run_bind_Ret.
  destruct (configuredLibraryList (cfg c0)) as [indicators libraries]. cbn [fst snd].
  apply run_bind_Ret in E as (request & ? & [= Er <-] & E). exists request. split; [done|].
  destruct request as [request|]; [|injection E as <-; apply wrote_nothing].
  apply run_bind_Ret in E as (reply & c1 & E1 & E). destruct (hasError reply.1); [done|]. injection E as <-.
  by apply answers_doRequest in E1.
Qed.

(** The packets of a reset. *)
Definition resets (c : Conn) (packets : list bytes) : Prop :=
  exists attributes infos libraries,
    packets = (if autoCommit c then [] else [buildRollbackRequest]) ++ [attributes] ++ infos ++ option_list libraries /\
    buildSetServerAttributesRequestVRM (cfg c) true (currentCommitmentMode (settled c)) (serverVRM c) = Ret attributes /\
    restores c (changedKeys c) infos /\
    buildAddLibraryListRequest (configuredLibraryList (cfg c)).1 (configuredLibraryList (cfg c)).2 = Ret libraries.

Lemma ResetSession_wrote ctx c c' :
  ResetSession ctx c = (Ret tt, c') ->
  IsValid c = true /\ exists packets, resets c packets /\ wrote packets (set_clientInfo (settled c) ∅) c'.
Proof.
  unfold ResetSession. intros (c0 & ? & [= -> <-] & E)%run_bind_Ret.
  destruct (ctxErr ctx (clock c0)); [done|]. destruct (IsValid c0); [|done]. split; [done|]. cbn [negb] in E.
  apply run_bind_Ret in E as ([] & c1 & E1 & E). apply answers_ClearWarnings in E1.
  apply run_bind_Ret in E as ([] & c2 & E2 & E).
  assert (W2 : wrote (if autoCommit c0 then [] else [buildRollbackRequest]) c0 c2).
  { apply (wrote_app [] _ _ _ _ E1). destruct (autoCommit c0); [injection E2 as <-; apply wrote_nothing|by apply answers_checked in E2]. }
  apply run_bind_Ret in E as ([] & c3 & [= <-] & E).
  apply run_bind_Ret in E as ([] & c4 & E4 & E). apply setServerAttributes_wrote in E4 as (attributes & Ha & W4).
  apply run_bind_Ret in E as ([] & c5 & E5 & E). apply restoreClientInfo_wrote in E5 as (infos & Hi & W5).
  apply addConfiguredLibraries_wrote in E as (libraries & Hl & W6).
  apply (wrote_set_commitment _ _ _ (CommitmentControl (cfg c0))) in W2.
  apply (wrote_set_autoCommit _ _ _ true) in W2. pose proof (wrote_app _ _ _ _ _ W2 W4) as W.
  pose proof (wrote_set_clientInfo _ _ _ ∅ W) as W'.
  pose proof (wrote_app _ _ _ _ _ (wrote_app _ _ _ _ _ W' W5) W6) as Wall. rewrite <- !app_assoc in Wall.
  eexists. split; [|exact Wall].
  exists attributes, infos, libraries. split; [done|]. split; [|split].
  - destruct W2. rewrite <- Ha. unfold serverVRM. cbn in *. by rewrite wr_cfg0, wr_systemInfo0.
  - destruct W. unfold restores, changedKeys, serverVRMAtLeast in *. cbn in *. by rewrite wr_cfg0, wr_systemInfo0, wr_clientInfo0 in Hi.
  - pose proof (wrote_app _ _ _ _ _ W' W5) as W''. destruct W''. cbn in *. by rewrite wr_cfg0 in Hl.
Qed.
End Reset.

Section Begin.
Context `{TableFS} `{Environment} `{BidiLayout} `{Parameters}.

(** The commitment control of a transaction with an isolation level. *)
Definition commitmentControlOf (c : Conn) (isolation : Z) : Z :=
  if isolation =? LevelDefault then CommitmentControl (cfg c) else transactionCommitmentControl isolation.

Definition supportedLevel (isolation : Z) : bool :=
  match transactionIsolationMode isolation with Ret _ => true | _ => false end.

Lemma mode_of_level isolation :
  match transactionIsolationMode isolation with
  | Ret None => isolation = LevelDefault
  | Ret (Some _) => isolation <> LevelDefault
  | Fail e => e = EUnsupported "isolation level"
  | Panic => False
  end.
Proof. unfold transactionIsolationMode, LevelDefault. repeat case_match; simplify_eq; try lia; done. Qed.

Lemma steady_setTransactionIsolationLevel ctx mode : preserves steady (setTransactionIsolationLevel ctx mode).
Proof. unfold setTransactionIsolationLevel. preserve. Qed.
#[local] Hint Resolve steady_setTransactionIsolationLevel : steady.

Lemma setAutoCommitState_failed ctx c r c' :
  setAutoCommitState ctx false c = (r, c') -> r <> Ret tt -> autoCommit c' = autoCommit c.
Proof.
  unfold setAutoCommitState, mbind at 1, M_bind at 1, get. intros E Hr. destruct (Bool.eqb _ _); [by injection E as <-|].
  revert E. unfold mbind, M_bind. destruct (doRequest _ _ c) as [[reply|e|] c1] eqn:E1.
  - pose proof (kp_autoCommit _ _ (proj1 (steady_doRequest _ _ _ _ _ E1))) as K1.
    destruct (checkReplyOf _ _ _ _ c1) as [[[]|e|] c2] eqn:E2;
      pose proof (kp_autoCommit _ _ (proj1 (steady_checkReplyOf _ _ _ _ _ _ _ E2))) as K2; intros [= <- <-]; congruence.
  - intros [= _ <-]. by apply steady_doRequest in E1 as [[] _].
  - intros [= _ <-]. by apply steady_doRequest in E1 as [[] _].
Qed.

(** The level is chosen before anything about the transaction changes. *)
Lemma chooseIsolation_run ctx isolation c :
  forall r c', chooseIsolation ctx isolation c c = (r, c') ->
  steady c c' /\
  match r with Ret v => v = commitmentControlOf c isolation /\ supportedLevel isolation = true | _ => True end /\
  (supportedLevel isolation = false -> r = Fail (EUnsupported "isolation level") /\ c' = c).
Proof.
  intros r c' E. pose proof (mode_of_level isolation) as Hm. unfold chooseIsolation, supportedLevel, commitmentControlOf in *.
  unfold mbind at 1, M_bind at 1, lift in E. destruct (transactionIsolationMode isolation) as [[m|]|e|].
  - rewrite (proj2 (Z.eqb_neq _ _) Hm). change ((setTransactionIsolationLevel ctx m;; mret (transactionCommitmentControl isolation)) c = (r, c')) in E.
    kept steady in E as K. split; [done|]. split; [|done].
    destruct r as [v| |]; [|done|done]. by apply run_bind_Ret in E as ([] & c1 & _ & [= <- <-]).
  - subst isolation. injection E as <- <-. by split.
  - injection E as <- <-. subst e. by split.
  - done.
Qed.
End Begin.

(** * Properties *)

Section Properties.
Context `{TableFS} `{Environment} `{BidiLayout} `{Parameters}.

(** [BeginTx] gives a transaction only on a live connection in autocommit,
    and leaves autocommit off, the commitment control of the level in force and
    the autocommit request as the last packet sent.  When it fails, autocommit
    stays as it was; an unsupported level is refused before anything is sent or
    changed. *)
Theorem begin_turns_autocommit_off (ctx : context) (isolation : Z) (c : Conn) :
  let '(r, c') := BeginTx ctx isolation c in
  match r with
  | Ret t =>
      t = mkTx true ctx false /\ IsValid c = true /\ autoCommit c = true /\ autoCommit c' = false /\
      currentCommitmentControl c' = commitmentControlOf c isolation /\
      exists before, trace c' = trace c ++ before ++ [EvWrite (autoCommitRequest (set_currentCommitmentControl c (commitmentControlOf c isolation)) false)]
  | _ => autoCommit c' = autoCommit c
  end /\
  (supportedLevel isolation = false -> c' = c).
Proof.
  destruct (BeginTx ctx isolation c) as [r c'] eqn:E. unfold BeginTx in E. unfold mbind at 1, M_bind at 1, get in E.
  destruct (ctxErr ctx (clock c)) as [e|]; [by injection E as <- <-|].
  destruct (IsValid c) eqn:Hv; [|by injection E as <- <-]. destruct (autoCommit c) eqn:Ha; [|by injection E as <- <-].
  cbn [negb] in E. unfold mbind at 1, M_bind at 1 in E.
  destruct (chooseIsolation ctx isolation c c) as [[v|e|] c1] eqn:Ec; apply chooseIsolation_run in Ec as ([K _] & Hr & Hu).
  2, 3: injection E as <- <-; rewrite (kp_autoCommit _ _ K); split; [done|by intros [_ ->]%Hu].
  destruct Hr as [-> Hs]. split; [|by rewrite Hs]. unfold mbind at 1, M_bind at 1, setCurrentCommitmentControl, modify in E.
  set (v := commitmentControlOf c isolation) in *. set (c2 := set_currentCommitmentControl c1 v) in *.
  assert (Ha2 : autoCommit c2 = true) by (cbn; by rewrite (kp_autoCommit _ _ K)).
  unfold mbind, M_bind in E. destruct (setAutoCommitState ctx false c2) as [[[]|e|] c3] eqn:E3; injection E as <- <-.
  - apply setAutoCommitState_wrote in E3 as [? ? ? Wt Wa Wc ? ?]. do 3 (split; [done|]). split; [by rewrite Wa|]. split; [by rewrite Wc|].
    destruct (kp_trace _ _ K) as [before Ht]. exists before. rewrite Wt. unfold autoCommitRequests. rewrite Ha2.
    cbn [Bool.eqb fmap list_fmap]. change (trace (set_autoCommit c2 false)) with (trace c1).
    rewrite Ht, <- app_assoc. by do 2 f_equal.
  - by rewrite (setAutoCommitState_failed _ _ _ _ E3).
  - by rewrite (setAutoCommitState_failed _ _ _ _ E3).
Qed.

(** Calls of [Commit] and [Rollback] on one transaction, in turn. *)
Fixpoint finishes (calls : list bool) (t : Tx) (c : Conn) : list (outcome unit) * (Tx * Conn) :=
  match calls with
  | [] => ([], (t, c))
  | commit :: calls' =>
      let '(r, (t1, c1)) := finish commit t c in
      let '(rs, final) := finishes calls' t1 c1 in (r :: rs, final)
  end.

(** C7: a transaction is finished once.  Of all the calls of [Commit] and
    [Rollback] on it only the first reaches the server; the others return
    [sql.ErrTxDone] and change nothing.  The first sends some of: its one commit
    or rollback, the autocommit request, and after each the request for an
    error's message.  When it succeeds it sent exactly the first two (the second
    unless autocommit was on), and autocommit and the configured commitment
    control are back. *)
Theorem tx_finishes_once (ctx : context) (commit : bool) (later : list bool) (c : Conn) :
  let '(r, (t, c1)) := finish commit (mkTx true ctx false) c in
  finishes later t c1 = (replicate (length later) (Fail ETxDone), (t, c1)) /\
  (exists events, trace c1 = trace c ++ events /\
    sublist (omap sentPacket events)
      ([finishRequestOf commit; messageRequest c 0] ++ autoCommitRequests c true ++ [messageRequest c 0])) /\
  (r = Ret tt -> IsValid c1 = true /\ wrote (finishRequestOf commit :: autoCommitRequests c true) (settled c) c1).
Proof.
  unfold finish. cbn [done txConn txCtx negb]. destruct (finishOn commit ctx c) as [r c1] eqn:E.
  split; [|split].
  - induction later as [|b later IH]; [done|]. cbn. by rewrite IH.
  - by eapply finishOn_sends.
  - intros ->. apply finishOn_wrote in E as [Hv W]. split; [|done]. rewrite (wr_valid _ _ _ W). done.
Qed.

(** C8: a reset that succeeds had a live connection and hands it on settled:
    autocommit on, the configured commitment control, no client information of
    the previous user.  What it sent is exactly a rollback when a transaction
    was open, the server attributes, the configured value of every key the
    previous user had changed, and the library list. *)
Theorem reset_session_settles (ctx : context) (c c' : Conn) :
  ResetSession ctx c = (Ret tt, c') ->
  IsValid c = true /\ exists packets, resets c packets /\ wrote packets (set_clientInfo (settled c) ∅) c'.
Proof. apply ResetSession_wrote. Qed.
End Properties.

(** A pooled connection with an open transaction, whose previous user changed the
    application name, on a V7R5 system. *)
Definition pooledConn : Conn :=
  set_clientInfo (set_autoCommit
    (mkConn sampleConfig (Some (mkSystemInfo [] 0x070500 5 37 10 [] 4 [])) (Some []) false None true 0 [] emptyCache None ∅ 0 0 ∅ ∅ ∅ 0 0 [] ∅)
    false) {[lit "ApplicationName" := lit "REPORT"]}.

Lemma reset_session_settles_witness :
  let env := always (answered 1) in
  let c' := (@ResetSession sampleTables env Background pooledConn).2 in
  (@ResetSession sampleTables env Background pooledConn).1 = Ret tt /\
  exists packets, @resets sampleTables pooledConn packets /\ wrote packets (set_clientInfo (settled pooledConn) ∅) c'.
Proof.
  intros env c'. split; [by vm_compute|]. apply (@reset_session_settles sampleTables env Background pooledConn c'). by vm_compute.
Defined.

(** A reply that reports an error of the host server. *)
Definition refusal : bytes := buildHeader 40 0 DatabaseServerID 0 0x2800 ++ replicate 14 0 ++ be16 2 ++ be32 0xFFFFFF9C.
Lemma refusal_bytes : is_bytes refusal.
Proof. apply (bool_decide_unpack _). vm_compute. exact I. Defined.

(** The server refuses one request, the [n]-th, and answers the others. *)
Definition refusing (n : nat) : Environment :=
  {| exchangeAt k := if Nat.eqb k n then mkExchange true true refusal EEOF 0 0 0 refusal_bytes else answered 0; cancelTime _ := 0 |}.

(** A reset whose restore is refused keeps the connection, and has forgotten
    what to restore: the next reset succeeds, and the application name of the
    previous user stays on the server. *)
Example refused_restore_is_forgotten :
  let '(r1, c1) := @ResetSession sampleTables (refusing 2) Background pooledConn in
  let '(r2, c2) := @ResetSession sampleTables (refusing 2) Background c1 in
  (exists class code, r1 = Fail (EProtocol "restore client info" class code)) /\ IsValid c1 = true /\
  r2 = Ret tt /\ changedKeys c1 = [] /\ length (trace c2) = 4%nat.
Proof. vm_compute. split; [by do 2 eexists|done]. Qed.

(** A committed transaction, and the calls that come after. *)
Lemma tx_finishes_once_witness :
  let env := always (answered 1) in
  let out := @finish sampleTables env true (mkTx true Background false) pooledConn in
  out.1 = Ret tt /\ @finishes sampleTables env [false; true] out.2.1 out.2.2 = ([Fail ETxDone; Fail ETxDone], out.2) /\
  wrote [buildCommitRequest; autoCommitRequest pooledConn true] (settled pooledConn) out.2.2.
Proof.
  intros env out. assert (E : out.1 = Ret tt) by (by vm_compute). split; [done|].
  pose proof (@tx_finishes_once sampleTables env Background true [false; true] pooledConn) as P.
  subst out. destruct (@finish sampleTables env true (mkTx true Background false) pooledConn) as [r [t c1]].
  destruct P as (P1 & _ & P3). split; [exact P1|]. by destruct (P3 E) as [_ W].
Defined.

(** A level that IBM i does not have. *)
Lemma begin_turns_autocommit_off_witness :
  let env := always (answered 1) in
  (@BeginTx sampleTables env noBidi Background 5 sampleConn).2 = sampleConn.
Proof.
  intros env. pose proof (@begin_turns_autocommit_off sampleTables env noBidi Background 5 sampleConn) as P.
  destruct (@BeginTx sampleTables env noBidi Background 5 sampleConn) as [r c']. by apply (proj2 P).
Defined.
