(* ===== verification/Rows.v ===== *)
(** The rows of a query ([queryRows] of sql.go): reading them one at a time in
    blocks, scrolling, the next result set of a CALL, large objects behind
    locators, and closing.

    An operation takes the rows and returns them changed, with its result or its
    error; [releaseStmt] going from [Some] to [None] is the call of the release
    function. *)
From Stdlib Require Import Strings.String.
From stdpp Require Import base list numbers strings gmap.
From S2P Require Import Prelude GoStrings Digits Utf Ccsid Wire Reply Format Request Sqlca Describe Config Package StatementCache Attributes Session Statements.
Open Scope Z_scope.

(** The decoding of one column of a row: the values, which of them are bytes,
    and the text of a large object.  The date and time settings it uses depend
    on the rows. *)
Class ColumnDecoding := {
  colValue : Type;
  decodeColumnValueWithBidi : Conn -> queryRows -> columnMeta -> bytes -> outcome colValue;
  bytesOf : colValue -> option bytes;
  ofBytes : bytes -> colValue;
  emptyText : colValue;
  decodeLobTextValueWithBidi : Conn -> bytes -> columnMeta -> outcome colValue;
}.

(** What an operation on rows gives: a result or an error, and the rows. *)
Definition rowsResult (A : Type) : Type := ((A + goerror) * queryRows)%type.

(** io.EOF, which [Next] and [NextResultSet] end with. *)
Definition ended {A} (r : queryRows) : M (rowsResult A) := mret (inr EEOF, r).

(** ** Changes of the rows *)

Definition withBlock (r : queryRows) (b : option fetchBlock) (index : Z) : queryRows :=
  mkRows (rowsCtx r) (meta r) (statementHandle r) (statementName r) (cursorName r) (defaultCursor r) (fetchBufferSize r)
    (resultSetCount r) (resultSetIndex r) b index (currentRow r) (currentResultSetDone r) (storedProcResult r)
    (scrollable r) (ownStatement r) (releaseStmt r) (rowsClosed r) (serverClosed r) (rowsEndOfData r).
Definition withCurrentRow (r : queryRows) (row : Z) : queryRows :=
  mkRows (rowsCtx r) (meta r) (statementHandle r) (statementName r) (cursorName r) (defaultCursor r) (fetchBufferSize r)
    (resultSetCount r) (resultSetIndex r) (block r) (rowIndex r) row (currentResultSetDone r) (storedProcResult r)
    (scrollable r) (ownStatement r) (releaseStmt r) (rowsClosed r) (serverClosed r) (rowsEndOfData r).
Definition withDone (r : queryRows) (v : bool) : queryRows :=
  mkRows (rowsCtx r) (meta r) (statementHandle r) (statementName r) (cursorName r) (defaultCursor r) (fetchBufferSize r)
    (resultSetCount r) (resultSetIndex r) (block r) (rowIndex r) (currentRow r) v (storedProcResult r)
    (scrollable r) (ownStatement r) (releaseStmt r) (rowsClosed r) (serverClosed r) (rowsEndOfData r).
Definition withClosed (r : queryRows) : queryRows :=
  mkRows (rowsCtx r) (meta r) (statementHandle r) (statementName r) (cursorName r) (defaultCursor r) (fetchBufferSize r)
    (resultSetCount r) (resultSetIndex r) (block r) (rowIndex r) (currentRow r) (currentResultSetDone r)
    (storedProcResult r) (scrollable r) (ownStatement r) (releaseStmt r) true (serverClosed r) (rowsEndOfData r).
(** What the last fetch said of the cursor. *)
Definition withEnd (r : queryRows) (closed ended : bool) : queryRows :=
  mkRows (rowsCtx r) (meta r) (statementHandle r) (statementName r) (cursorName r) (defaultCursor r) (fetchBufferSize r)
    (resultSetCount r) (resultSetIndex r) (block r) (rowIndex r) (currentRow r) (currentResultSetDone r)
    (storedProcResult r) (scrollable r) (ownStatement r) (releaseStmt r) (rowsClosed r) closed ended.
(** The next result set takes the place of the current one. *)
Definition withResultSet (r : queryRows) (m : resultSetMeta) : queryRows :=
  mkRows (rowsCtx r) m (statementHandle r) (statementName r) (cursorName r) (defaultCursor r) (fetchBufferSize r)
    (resultSetCount r) (resultSetIndex r + 1) None 0 (currentRow r) (len (columns m) =? 0)
    (storedProcResult r) (scrollable r) (ownStatement r) (releaseStmt r) (rowsClosed r) false false.

(** No result set after the current one is known of. *)
Definition lastResultSet (r : queryRows) : bool := (resultSetCount r <=? 0) || (resultSetCount r <=? resultSetIndex r).

Definition Row (r : queryRows) : Z := if rowsClosed r then 0 else currentRow r.

Definition HasNextResultSet (r : queryRows) : bool :=
  if rowsClosed r then false
  else if resultSetCount r <=? 0 then false
  else resultSetIndex r <? resultSetCount r.

Definition Columns (r : queryRows) : list bytes := columnNames (meta r).

Definition columnMetaAt (r : queryRows) (index : Z) : option columnMeta :=
  if index <? 0 then None else columns (meta r) !! Z.to_nat index.

Definition ColumnTypeDatabaseTypeName (r : queryRows) (index : Z) : string :=
  match columnMetaAt r index with Some col => databaseTypeName col | None => EmptyString end.

Definition ColumnTypeNullable (r : queryRows) (index : Z) : bool * bool :=
  match columnMetaAt r index with Some col => (nullable col, true) | None => (false, false) end.

Section Rows.
Context `{TableFS} `{Environment} `{BidiLayout} `{Parameters} `{ColumnDecoding}.

(** ** Large objects *)

Definition maxInt32 : Z := 2 ^ 31 - 1.

Definition retrieveLobData (ctx : context) (locatorHandle : Z) : M bytes :=
  reply ← doRequest ctx (buildRetrieveLobDataRequest locatorHandle 0);
  checkReplyOf ctx 0 "retrieve LOB length" reply;;
  currentLength ← lift (parseCurrentLobLengthFromPayload reply.2);
  if currentLength <=? 0 then mret []
  else
    let currentLength := if maxInt32 <? currentLength then maxInt32 else currentLength in
    reply ← doRequest ctx (buildRetrieveLobDataRequest locatorHandle currentLength);
    checkReplyOf ctx 0 "retrieve LOB data" reply;;
    match parseLobDataFromPayload reply.2 with
    | Ret data => mret data
    | Fail e => fail (EWire "parse LOB data" e)
    | Panic => lift Panic
    end.

Definition freeLob (ctx : context) (locatorHandle : Z) : M unit :=
  if locatorHandle =? 0 then mret tt
  else
    reply ← doRequest ctx (buildFreeLobRequest locatorHandle);
    checkReplyOf ctx 0 "free LOB" reply.

Definition isLobLocator (col : columnMeta) : bool :=
  existsb (Z.eqb (db2Type col)) [db2TypeBlobLocator; db2TypeClobLocator; db2TypeDbclobLocator; db2TypeXMLLocator].
Definition isTextLocator (col : columnMeta) : bool :=
  existsb (Z.eqb (db2Type col)) [db2TypeClobLocator; db2TypeDbclobLocator; db2TypeXMLLocator].

(** The locator is freed whether or not its data could be read. *)
Definition resolveLobLocatorValue (ctx : context) (col : columnMeta) (value : colValue) : M colValue :=
  if negb (isLobLocator col) then mret value
  else
    match bytesOf value with
    | None => mret value
    | Some raw =>
        if len raw <? 4 then mret value
        else
          let locatorHandle := unbe (sub raw 0 4) in
          if locatorHandle =? 0 then mret (if isTextLocator col then emptyText else ofBytes [])
          else
            data ← attempt (retrieveLobData ctx locatorHandle);
            freed ← attempt (freeLob ctx locatorHandle);
            match data with
            | inr err => fail err
            | inl data =>
                match freed with
                | inr freeErr => fail freeErr
                | inl _ =>
                    c ← get;
                    if isTextLocator col then lift (decodeLobTextValueWithBidi c data col) else mret (ofBytes data)
                end
            end
    end.

(** ** One row *)

(** The columns from the [i]-th on; a null is [None]. *)
Fixpoint decodeColumns (r : queryRows) (b : fetchBlock) (row : bytes) (i : Z) (cols : list columnMeta)
    : M (list (option colValue)) :=
  match cols with
  | [] => mret []
  | col :: cols' =>
      let at_ := rowIndex r * len (columns (meta r)) + i in
      null ← lift (match (if at_ <? 0 then None else Nulls b !! Z.to_nat at_) with Some v => Ret v | None => Panic end);
      value ←
        (if null : bool then mret None
         else
           c ← get;
           value ← lift (decodeColumnValueWithBidi c r col row);
           Some <$> resolveLobLocatorValue (rowsCtx r) col value);
      values ← decodeColumns r b row (i + 1) cols';
      mret (value :: values)
  end.

Definition decodeCurrentRow (r : queryRows) (b : fetchBlock) : M (list (option colValue)) :=
  let rowOffset := i64 (rowIndex r * RowSize b) in
  let rowEnd := i64 (rowOffset + RowSize b) in
  if (rowOffset <? 0) || (len (Data b) <? rowEnd) then fail (EText "row offset out of range" [])
  else
    row ← lift (slice (Data b) rowOffset rowEnd);
    decodeColumns r b row 0 (columns (meta r)).

(** ** Closing *)

Definition notBlank (text : bytes) : bool := negb (len (trimSpace text) =? 0).

Definition errorOf {A} (result : A + goerror) : option goerror := match result with inl _ => None | inr e => Some e end.

Definition closeServerCursor (ctx : context) (r : queryRows) : M unit :=
  if serverClosed r then mret tt
  else if rowsEndOfData r && notBlank (cursorName r)
  then closeResultSetCursorNoReply ctx (statementHandle r) (cursorName r) cursorReuseYes
  else closeCursor ctx (cursorName r) cursorReuseYes.

(** The error of the close, and the rows. *)
Definition Close (r : queryRows) : M (option goerror * queryRows) :=
  if rowsClosed r then mret (None, r)
  else
    let r := withClosed r in
    c ← get;
    let ctx := cleanupContext (rowsCtx r) (clock c) in
    closeErr ← attempt (closeServerCursor ctx r);
    (if ownStatement r && notBlank (statementName r)
     then ignore (closePreparedStatement ctx (statementName r) (statementHandle r)) else mret tt);;
    (if defaultCursor r then releaseDefaultCursor (statementHandle r) else mret tt);;
    mret (errorOf closeErr, withOwner r (ownStatement r) None).

(** [_ = r.Close()] on the way out with an error. *)
Definition closeWith {A} (r : queryRows) (e : goerror) : M (rowsResult A) := '(_, r) ← Close r; mret (inr e, r).

(** The end of a result set: the last one closes the rows. *)
Definition endResultSet {A} (r : queryRows) : M (rowsResult A) := if lastResultSet r then closeWith r EEOF else ended r.

(** ** Next *)

(** One turn of the loop: a row, the end, or another block to look at. *)
Definition deliver (r : queryRows) (b : fetchBlock) : M (rowsResult (list (option colValue))) :=
  values ← attempt (decodeCurrentRow r b);
  match values with
  | inr e => closeWith r e
  | inl values =>
      let index := rowIndex r + 1 in
      let r := withCurrentRow r (currentRow r + 1) in
      mret (inl values, if RowCount b <=? index then withBlock r None 0 else withBlock r (Some b) index)
  end.

Definition fetchBlockOf (r : queryRows) : M (rowsResult (option fetchBlock)) :=
  if serverClosed r || rowsEndOfData r then mret (inl None, r)
  else
    fetched ← attempt (fetchRows (rowsCtx r) (statementHandle r) (cursorName r) (fetchBufferSize r) fetchNext 0);
    match fetched with
    | inr e => closeWith r e
    | inl b => mret (inl (Some b), withEnd r (serverClosed r || (cursorClosed b && negb (scrollable r)))
                                     (rowsEndOfData r || endOfData b))
    end.

(** The loop of [Next].  A turn that does not end it leaves a block with rows,
    so the next turn delivers one: two turns are enough
    ([next_loop_terminates]).  Out of fuel is [None]. *)
Fixpoint nextLoop (fuel : nat) (r : queryRows) : M (option (rowsResult (list (option colValue)))) :=
  match fuel with
  | O => mret None
  | S fuel' =>
      let fetch :=
        fetched ← fetchBlockOf r;
        match fetched with
        | (inr e, r) => mret (Some (inr e, r))
        | (inl b, r) =>
            match b with
            | Some b => if RowCount b =? 0 then Some <$> endResultSet (withBlock (withDone r true) None 0)
                        else nextLoop fuel' (withBlock r (Some b) 0)
            | None => Some <$> endResultSet (withBlock (withDone r true) None 0)
            end
        end in
      match block r with
      | Some b =>
          if rowIndex r <? RowCount b then Some <$> deliver r b
          else if RowCount b =? 0 then Some <$> endResultSet (withDone r true)
          else fetch
      | None => fetch
      end
  end.

Definition Next (destLength : Z) (r : queryRows) : M (option (rowsResult (list (option colValue)))) :=
  if rowsClosed r then Some <$> ended r
  else if negb (destLength =? len (columns (meta r)))
  then mret (Some (inr (EText "destination column count mismatch" [destLength; len (columns (meta r))]), r))
  else if len (columns (meta r)) =? 0 then
    if currentResultSetDone r then Some <$> ended r else Some <$> endResultSet (withDone r true)
  else if currentResultSetDone r then Some <$> ended r
  else nextLoop 2 r.

(** ** Scrolling *)

Definition scroll (option_ relative : Z) (r : queryRows) : M (rowsResult unit) :=
  if rowsClosed r then ended r
  else if negb (scrollable r) then mret (inr (EUnsupported "scrollable cursor"), r)
  else
    fetched ← attempt (fetchRows (rowsCtx r) (statementHandle r) (cursorName r) (fetchBufferSize r) option_ (u32 relative));
    match fetched with
    | inr e => closeWith r e
    | inl b =>
        let row :=
          if (option_ =? fetchBeforeFirst) || (option_ =? fetchAfterLast) || (option_ =? fetchFirst) then 0
          else if option_ =? fetchDirect then relative - 1
          else if option_ =? fetchRelative then currentRow r + relative
          else currentRow r in
        mret (inl tt, withDone (withCurrentRow (withBlock r (Some b) 0) row) (RowCount b =? 0))
    end.

Definition First : queryRows -> M (rowsResult unit) := scroll fetchFirst 0.
Definition Last : queryRows -> M (rowsResult unit) := scroll fetchLast 0.
Definition BeforeFirst : queryRows -> M (rowsResult unit) := scroll fetchBeforeFirst 0.
Definition AfterLast : queryRows -> M (rowsResult unit) := scroll fetchAfterLast 0.
Definition Current : queryRows -> M (rowsResult unit) := scroll fetchCurrent 0.
Definition Absolute (row : Z) (r : queryRows) : M (rowsResult unit) :=
  if row <? 1 then mret (inr (EText "absolute row must be positive" [row]), r) else scroll fetchDirect row r.
Definition Relative (rows : Z) : queryRows -> M (rowsResult unit) := scroll fetchRelative rows.

(** ** The next result set *)

(** A failure marks the rows closed without closing them. *)
Definition NextResultSet (r : queryRows) : M (rowsResult unit) :=
  if rowsClosed r then ended r
  else if negb (HasNextResultSet r) then
    '(closeErr, r) ← Close r;
    mret (inr (default EEOF closeErr), r)
  else
    c ← get;
    sent ← attempt
      (if negb (serverClosed r) && notBlank (cursorName r)
       then closeResultSetCursorNoReply (cleanupContext (rowsCtx r) (clock c)) (statementHandle r) (cursorName r)
              cursorReuseResultSet
       else mret tt);
    match sent with
    | inr e => mret (inr e, withClosed r)
    | inl _ =>
        opened ← attempt (openAndDescribe (rowsCtx r) (statementHandle r) (statementName r) (cursorName r) 0 None []);
        match opened with
        | inr e => mret (inr e, withClosed r)
        | inl (m, sqlca) =>
            recordWarning (Warning sqlca);;
            mret (inl tt, withResultSet r (sizedMeta m))
        end
    end.
End Rows.

(** * Lemmas *)

(** ** What reading rows leaves alone *)

Section Steady.
Context `{TableFS} `{Environment} `{BidiLayout} `{Parameters} `{ColumnDecoding}.

Lemma steady_retrieveLobData ctx locator : preserves steady (retrieveLobData ctx locator).
Proof. unfold retrieveLobData. preserve. Qed.
Lemma steady_freeLob ctx locator : preserves steady (freeLob ctx locator).
Proof. unfold freeLob. preserve. Qed.
#[local] Hint Resolve steady_retrieveLobData steady_freeLob : steady.
Lemma steady_resolveLobLocatorValue ctx col value : preserves steady (resolveLobLocatorValue ctx col value).
Proof. unfold resolveLobLocatorValue. preserve. Qed.
#[local] Hint Resolve steady_resolveLobLocatorValue : steady.
Lemma steady_decodeColumns r b row i cols : preserves steady (decodeColumns r b row i cols).
Proof. revert i. induction cols as [|col cols IH]; intros i; cbn [decodeColumns]; [apply preserves_ret, _|]. preserve; apply IH. Qed.
#[local] Hint Resolve steady_decodeColumns : steady.
Lemma steady_decodeCurrentRow r b : preserves steady (decodeCurrentRow r b).
Proof. unfold decodeCurrentRow. preserve. Qed.
Lemma steady_closeServerCursor ctx r : preserves steady (closeServerCursor ctx r).
Proof. unfold closeServerCursor. preserve. Qed.

Lemma same_pkg_retrieveLobData ctx locator : preserves same_pkg (retrieveLobData ctx locator).
Proof. unfold retrieveLobData. preserve. Qed.
Lemma same_pkg_freeLob ctx locator : preserves same_pkg (freeLob ctx locator).
Proof. unfold freeLob. preserve. Qed.
#[local] Hint Resolve same_pkg_retrieveLobData same_pkg_freeLob : steady.
Lemma same_pkg_resolveLobLocatorValue ctx col value : preserves same_pkg (resolveLobLocatorValue ctx col value).
Proof. unfold resolveLobLocatorValue. preserve. Qed.
#[local] Hint Resolve same_pkg_resolveLobLocatorValue : steady.
Lemma same_pkg_decodeColumns r b row i cols : preserves same_pkg (decodeColumns r b row i cols).
Proof. revert i. induction cols as [|col cols IH]; intros i; cbn [decodeColumns]; [apply preserves_ret, _|]. preserve; apply IH. Qed.
#[local] Hint Resolve same_pkg_decodeColumns : steady.
Lemma same_pkg_decodeCurrentRow r b : preserves same_pkg (decodeCurrentRow r b).
Proof. unfold decodeCurrentRow. preserve. Qed.
Lemma same_pkg_closeServerCursor ctx r : preserves same_pkg (closeServerCursor ctx r).
Proof. unfold closeServerCursor. preserve. Qed.
End Steady.

#[export] Hint Resolve steady_retrieveLobData steady_freeLob steady_resolveLobLocatorValue steady_decodeCurrentRow
  steady_closeServerCursor same_pkg_decodeCurrentRow same_pkg_closeServerCursor : steady.

(** ** What an operation does to its rows

    Rows keep their statement and their cursor.  An operation on them leaves the
    ids and the cursor names of the connection alone, or it closes the rows and
    gives back what they hold. *)

(** The ids and the busy names without those of the rows. *)
Definition idsWithout (r : queryRows) (used : gset Z) : gset Z :=
  if ownStatement r && notBlank (statementName r) && negb (statementHandle r =? 0)
  then used ∖ {[statementHandle r]} else used.
Definition namesWithout (r : queryRows) (busy : gset Z) : gset Z :=
  if defaultCursor r then busy ∖ {[statementHandle r]} else busy.

Record same_rows (r r' : queryRows) : Prop := {
  sr_handle : statementHandle r' = statementHandle r;
  sr_name : statementName r' = statementName r;
  sr_default : defaultCursor r' = defaultCursor r;
  sr_own : ownStatement r' = ownStatement r;
}.

#[export] Instance same_rows_preorder : PreOrder same_rows.
Proof. split; [done|]. intros r1 r2 r3 [] []. split; congruence. Qed.

Lemma idsWithout_same r r' used : same_rows r r' -> idsWithout r' used = idsWithout r used.
Proof. intros [E1 E2 E3 E4]. unfold idsWithout. by rewrite E1, E2, E4. Qed.
Lemma namesWithout_same r r' busy : same_rows r r' -> namesWithout r' busy = namesWithout r busy.
Proof. intros [E1 E2 E3 E4]. unfold namesWithout. by rewrite E1, E3. Qed.

(** What neither touches ids and names nor the package. *)
Record quiet (c c' : Conn) : Prop := { quiet_steady : steady c c'; quiet_pkg : same_pkg c c' }.

Lemma quiet_of {A} (m : M A) : preserves steady m -> preserves same_pkg m -> preserves quiet m.
Proof. intros Hs Hp c r c' E. split; [by eapply Hs|by eapply Hp]. Qed.

Record moved (s s' : queryRows * Conn) : Prop := {
  mv_rows : same_rows s.1 s'.1;
  mv_caching : same_caching s.2 s'.2;
  mv_pkg : same_pkg s.2 s'.2;
  mv_fate :
    rowsClosed s'.1 = rowsClosed s.1 /\ releaseStmt s'.1 = releaseStmt s.1 /\ same_handles s.2 s'.2 /\ same_busy s.2 s'.2 \/
    rowsClosed s.1 = false /\ rowsClosed s'.1 = true /\ releaseStmt s'.1 = None /\
      usedStatementHandles s'.2 = idsWithout s.1 (usedStatementHandles s.2) /\
      defaultCursorBusy s'.2 = namesWithout s.1 (defaultCursorBusy s.2);
}.

#[export] Instance moved_preorder : PreOrder moved.
Proof.
  split; [intros s; split; [done..|by left]|]. intros [r1 c1] [r2 c2] [r3 c3] [R1 C1 P1 F1] [R2 C2 P2 F2].
  cbn in *. unfold same_handles, same_busy in *. split; cbn; [by transitivity r2|by transitivity c2|by transitivity c2|].
  destruct F1 as [(E1 & L1 & H1 & B1)|(O1 & E1 & L1 & H1 & B1)], F2 as [(E2 & L2 & H2 & B2)|(O2 & E2 & L2 & H2 & B2)].
  - left. split_and!; congruence.
  - right. rewrite (idsWithout_same r1 r2) in H2 by done. rewrite (namesWithout_same r1 r2) in B2 by done. split_and!; congruence.
  - right. split_and!; congruence.
  - congruence.
Qed.

Lemma quiet_moved r c c' : quiet c c' -> moved (r, c) (r, c').
Proof. intros [[K _] Hp]. split; cbn; [done|by split; apply K|done|]. left. split_and!; [done|done|apply K|apply K]. Qed.

(** A computation that moves rows [r] to the rows its results carry. *)
Definition moving {A} (r : queryRows) (carried : A -> option queryRows) (m : M A) : Prop :=
  forall c a c', m c = (Ret a, c') -> forall r', carried a = Some r' -> moved (r, c) (r', c').

Definition rowsOf {A} (result : rowsResult A) : option queryRows := Some result.2.
Definition rowsOfOption {A} (result : option (rowsResult A)) : option queryRows := snd <$> result.

Lemma moving_ret {A} r (carried : A -> option queryRows) a :
  (forall c r', carried a = Some r' -> moved (r, c) (r', c)) -> moving r carried (mret a).
Proof. intros Hr c ? c' [= <- <-] r' E. by apply Hr. Qed.

(** A change of the rows that neither closes them nor releases anything. *)
Lemma moving_inl {A} r (a : A) r' :
  same_rows r r' -> rowsClosed r' = rowsClosed r -> releaseStmt r' = releaseStmt r -> moving r rowsOf (mret (inl a, r')).
Proof. intros. apply moving_ret. intros c ? [= <-]. split; [done..|]. by left. Qed.

Lemma moving_quiet {A B} r (carried : B -> option queryRows) (m : M A) (f : A -> M B) :
  preserves steady m -> preserves same_pkg m -> (forall a, moving r carried (f a)) -> moving r carried (m ≫= f).
Proof.
  intros Hm Hp Hf c b c' (a & c1 & Ea & E)%run_bind_Ret r' Er. transitivity (r, c1); [|by eapply Hf].
  apply quiet_moved. by eapply quiet_of.
Qed.

Lemma moving_bind {A B} r (carried : A -> option queryRows) (carried' : B -> option queryRows) (m : M A) (f : A -> M B) :
  moving r carried m ->
  (forall a, exists r1, carried a = Some r1 /\ moving r1 carried' (f a)) -> moving r carried' (m ≫= f).
Proof.
  intros Hm Hf c b c' (a & c1 & Ea & E)%run_bind_Ret r' Er. destruct (Hf a) as (r1 & Ec & Hk).
  transitivity (r1, c1); [by eapply Hm|by eapply Hk].
Qed.

Lemma moving_fmap {A B} r (carried : A -> option queryRows) (carried' : B -> option queryRows) (g : A -> B) (m : M A) :
  (forall a, carried' (g a) = carried a) -> moving r carried m -> moving r carried' (g <$> m).
Proof. intros Hg Hm c b c' (a & c1 & Ea & [= <- <-])%run_bind_Ret r' E. rewrite Hg in E. by eapply Hm. Qed.

Lemma moving_from {A} (carried : A -> option queryRows) r r1 m :
  same_rows r r1 -> rowsClosed r1 = rowsClosed r -> releaseStmt r1 = releaseStmt r -> moving r1 carried m -> moving r carried m.
Proof. intros Hr Hc Hl Hm c a c' E r' Er. transitivity (r1, c); [|by eapply Hm]. split; [done..|]. by left. Qed.

Section Operations.
Context `{TableFS} `{Environment} `{BidiLayout} `{Parameters} `{ColumnDecoding}.

Lemma closePreparedStatement_ids ctx name h c r c' :
  closePreparedStatement ctx name h c = (r, c') -> notBlank name = true ->
  usedStatementHandles c' = if negb (h =? 0) then usedStatementHandles c ∖ {[h]} else usedStatementHandles c.
Proof.
  unfold closePreparedStatement, notBlank. intros E Hb. apply negb_true_iff in Hb. rewrite Hb in E.
  apply deferring_state in E as (r1 & c1 & r2 & Em & Ec & _). kept same_handles in Em as Hm.
  unfold releaseStatementHandle in Ec. destruct (h =? 0); injection Ec as _ <-; [exact Hm|cbn; by rewrite Hm].
Qed.

(** Closing gives back the statement id and the default cursor name. *)
Lemma moving_Close r : moving r (fun x => Some x.2) (Close r).
Proof.
  intros c [closeErr r'] c' E r'' [= <-]. unfold Close in E. destruct (rowsClosed r) eqn:Ec; [by injection E as <- <- <-|].
  apply run_bind_Ret in E as (c1 & ? & [= -> <-] & E).
  apply run_bind_Ret in E as (e & c2 & E2 & E). kept steady in E2 as [K2 _]. kept same_pkg in E2 as P2.
  apply run_bind_Ret in E as ([] & c3 & E3 & E). kept same_busy in E3 as B3. kept same_pkg in E3 as P3. kept same_caching in E3 as C3.
  apply run_bind_Ret in E as ([] & c4 & E4 & E). kept same_handles in E4 as H4. kept same_pkg in E4 as P4. kept same_caching in E4 as C4.
  injection E as <- <- <-. cbn [withClosed ownStatement statementName statementHandle defaultCursor] in *.
  split; cbn [fst snd]; [done| |by transitivity c3; [transitivity c2|]|right].
  - transitivity c3; [transitivity c2|]; [by split; apply K2|done..].
  - split_and!; [done..| |].
    + rewrite H4. unfold idsWithout. destruct (ownStatement r && notBlank (statementName r)) eqn:Eo.
      * apply andb_true_iff in Eo as [_ Hn]. apply ignore_state in E3 as [r3 E3]. apply closePreparedStatement_ids in E3 as ->; [|done].
        by rewrite (kp_handles _ _ K2).
      * injection E3 as <-. cbn [andb]. apply K2.
    + unfold namesWithout. unfold same_busy in B3. destruct (defaultCursor r); injection E4 as <-; cbn; rewrite B3; by rewrite (kp_busy _ _ K2).
Qed.

Lemma moving_closeWith {A} r e : moving r rowsOf (@closeWith _ _ A r e).
Proof.
  unfold closeWith. eapply moving_bind; [apply moving_Close|]. intros [x r1]. exists r1. split; [done|].
  apply moving_ret. by intros c r' [= <-].
Qed.

Lemma moving_ended {A} r : moving r rowsOf (@ended A r).
Proof. apply moving_ret. by intros c r' [= <-]. Qed.

Lemma moving_endResultSet {A} r : moving r rowsOf (@endResultSet _ _ A r).
Proof. unfold endResultSet. destruct (lastResultSet r); [apply moving_closeWith|apply moving_ended]. Qed.

Lemma moving_deliver r b : moving r rowsOf (deliver r b).
Proof.
  unfold deliver. apply moving_quiet; [preserve..|]. intros [values|e]; [|apply moving_closeWith].
  apply moving_inl; by case_match.
Qed.

Lemma moving_fetchBlockOf r : moving r rowsOf (fetchBlockOf r).
Proof.
  unfold fetchBlockOf. case_match; [by apply moving_inl|]. apply moving_quiet; [preserve..|].
  intros [b|e]; [by apply moving_inl|apply moving_closeWith].
Qed.

Lemma moving_some {A} r (m : M (rowsResult A)) : moving r rowsOf m -> moving r rowsOfOption (Some <$> m).
Proof. by apply moving_fmap. Qed.

Lemma moving_nextLoop fuel r : moving r rowsOfOption (nextLoop fuel r).
Proof.
  revert r. induction fuel as [|fuel IH]; intros r; cbn [nextLoop]; [by apply moving_ret|].
  assert (moving r rowsOfOption (
    fetched ← fetchBlockOf r;
    match fetched with
    | (inr e, r) => mret (Some (inr e, r))
    | (inl b, r) =>
        match b with
        | Some b => if RowCount b =? 0 then Some <$> endResultSet (withBlock (withDone r true) None 0)
                    else nextLoop fuel (withBlock r (Some b) 0)
        | None => Some <$> endResultSet (withBlock (withDone r true) None 0)
        end
    end)) as Hfetch.
  { eapply moving_bind; [apply moving_fetchBlockOf|]. intros [[[b|]|e] r1]; exists r1; (split; [done|]).
    - case_match; [apply moving_some, (moving_from _ _ (withBlock (withDone r1 true) None 0)); [done..|apply moving_endResultSet]|].
      by apply (moving_from _ _ (withBlock r1 (Some b) 0)).
    - apply moving_some, (moving_from _ _ (withBlock (withDone r1 true) None 0)); [done..|apply moving_endResultSet].
    - apply moving_ret. by intros c r' [= <-]. }
  destruct (block r) as [b|]; [|done]. case_match; [apply moving_some, moving_deliver|]. case_match; [|done].
  apply moving_some, (moving_from _ _ (withDone r true)); [done..|apply moving_endResultSet].
Qed.

Lemma moving_Next n r : moving r rowsOfOption (Next n r).
Proof.
  unfold Next. case_match; [apply moving_some, moving_ended|]. case_match; [by apply moving_ret; intros c r' [= <-]|].
  case_match; case_match; try apply moving_some, moving_ended; [|apply moving_nextLoop].
  apply moving_some, (moving_from _ _ (withDone r true)); [done..|apply moving_endResultSet].
Qed.

Lemma moving_scroll option_ relative r : moving r rowsOf (scroll option_ relative r).
Proof.
  unfold scroll. case_match; [apply moving_ended|]. case_match; [by apply moving_ret; intros c r' [= <-]|].
  apply moving_quiet; [preserve..|]. intros [b|e]; [by apply moving_inl|apply moving_closeWith].
Qed.

(** A result set that could not be opened: the rows count as closed, but nothing
    is given back. *)
Definition abandoned {A} (r : queryRows) (result : A + goerror) : bool :=
  HasNextResultSet r && match result with inl _ => false | inr _ => true end.

Lemma NextResultSet_moved r c result r' c' :
  NextResultSet r c = (Ret (result, r'), c') ->
  if abandoned r result
  then same_rows r r' /\ quiet c c' /\ rowsClosed r = false /\ rowsClosed r' = true /\ releaseStmt r' = releaseStmt r
  else moved (r, c) (r', c').
Proof.
  intros E. unfold NextResultSet in E. destruct (rowsClosed r) eqn:Ec.
  { injection E as <- <- <-. unfold abandoned, HasNextResultSet. rewrite Ec. cbn [andb]. reflexivity. }
  unfold abandoned. destruct (HasNextResultSet r) eqn:Hn; cbn [negb andb] in *.
  - apply run_bind_Ret in E as (? & ? & [= <- <-] & E).
    apply run_bind_Ret in E as (sent & c2 & E2 & E).
    kept steady in E2 as K2. kept same_pkg in E2 as P2. assert (quiet c c2) as Q2 by by split.
    destruct sent as [[]|e]; [|by injection E as <- <- <-].
    apply run_bind_Ret in E as (opened & c3 & E3 & E).
    assert (quiet c c3) as Q3.
    { kept steady in E3 as K3. kept same_pkg in E3 as P3. split; by transitivity c2. }
    destruct opened as [[m info]|e]; [|by injection E as <- <- <-].
    apply run_bind_Ret in E as ([] & c4 & E4 & E). kept steady in E4 as K4. kept same_pkg in E4 as P4. injection E as <- <- <-.
    transitivity (r, c4).
    + apply quiet_moved. destruct Q3. split; by transitivity c3.
    + split; [done..|]. by left.
  - apply run_bind_Ret in E as ([closeErr r1] & c1 & E1 & E). injection E as <- <- <-. by apply (moving_Close r _ _ _ E1 r1).
Qed.

(** What a client does with rows; the flag notes that a result set could not
    be opened. *)
Inductive rowsStep : bool * queryRows * Conn -> bool * queryRows * Conn -> Prop :=
| step_next f n r c result r' c' : Next n r c = (Ret (Some (result, r')), c') -> rowsStep (f, r, c) (f, r', c')
| step_scroll f option_ relative r c result r' c' :
    scroll option_ relative r c = (Ret (result, r'), c') -> rowsStep (f, r, c) (f, r', c')
| step_result_set f r c result r' c' :
    NextResultSet r c = (Ret (result, r'), c') -> rowsStep (f, r, c) (f || abandoned r result, r', c')
| step_close f r c e r' c' : Close r c = (Ret (e, r'), c') -> rowsStep (f, r, c) (f, r', c').

Lemma rowsStep_moved f r c f' r' c' :
  rowsStep (f, r, c) (f', r', c') ->
  f' = f /\ moved (r, c) (r', c') \/
  f' = true /\ same_rows r r' /\ quiet c c' /\ rowsClosed r = false /\ rowsClosed r' = true /\ releaseStmt r' = releaseStmt r.
Proof.
  intros Hs. inversion Hs as [? n ? ? x ? ? E|? o v ? ? x ? ? E|? ? ? x ? ? E|? ? ? x ? ? E]; subst.
  - left. split; [done|]. by apply (moving_Next n r _ _ _ E r').
  - left. split; [done|]. by apply (moving_scroll o v r _ _ _ E r').
  - apply NextResultSet_moved in E. destruct (abandoned r x); [right; rewrite orb_true_r; by split|left; rewrite orb_false_r; by split].
  - left. split; [done|]. by apply (moving_Close r _ _ _ E r').
Qed.
End Operations.

(** Rows that a query opened on [c0]: while they are open the connection has
    their statement id and perhaps their default cursor name more than [c0],
    once they are closed it has the same; abandoned rows keep both. *)
Definition held (c0 : Conn) (r : queryRows) (c : Conn) : Prop :=
  usedStatementHandles c = {[statementHandle r]} ∪ usedStatementHandles c0 /\
  defaultCursorBusy c = (if defaultCursor r then {[statementHandle r]} else ∅) ∪ defaultCursorBusy c0.

Record owning (c0 : Conn) (s : bool * queryRows * Conn) : Prop := {
  ow_own : ownStatement s.1.2 = true;
  ow_id : 1 <= statementHandle s.1.2 < maxStatements;
  ow_name : notBlank (statementName s.1.2) = true;
  ow_free : statementHandle s.1.2 ∉ usedStatementHandles c0;
  ow_default : defaultCursor s.1.2 = true -> statementHandle s.1.2 ∉ defaultCursorBusy c0;
  ow_abandoned : s.1.1 = true -> rowsClosed s.1.2 = true;
  ow_holds :
    if rowsClosed s.1.2 && negb s.1.1
    then usedStatementHandles s.2 = usedStatementHandles c0 /\ defaultCursorBusy s.2 = defaultCursorBusy c0
    else held c0 s.1.2 s.2;
}.

Section Owning.
Context `{TableFS} `{Environment} `{BidiLayout} `{Parameters} `{ColumnDecoding}.

Lemma owning_step c0 s s' : rowsStep s s' -> owning c0 s -> owning c0 s'.
Proof.
  destruct s as [[f r] c], s' as [[f' r'] c']. intros Hs [Ho Hi Hn Hf Hd Ha Hh]. cbn in *.
  apply rowsStep_moved in Hs as [[-> [R _ _ F]]|(-> & R & [[K _] _] & Hc & Hc' & _)]; cbn in *; destruct R as [R1 R2 R3 R4].
  - assert (if rowsClosed r' && negb f then usedStatementHandles c' = usedStatementHandles c0 /\ defaultCursorBusy c' = defaultCursorBusy c0
      else held c0 r c') as Hh'.
    { destruct F as [(Ec & _ & Fu & Fb)|(Eo & Ec & _ & Fu & Fb)]; rewrite Ec.
      - unfold same_handles, same_busy, held in *. destruct (rowsClosed r && negb f); by rewrite Fu, Fb.
      - rewrite Eo in *. destruct f; [by specialize (Ha eq_refl)|]. cbn [andb negb] in *. destruct Hh as [Hh Hb].
        rewrite Fu, Fb, Hh, Hb. unfold idsWithout, namesWithout. rewrite Ho, Hn, (proj2 (Z.eqb_neq _ 0)) by lia. cbn [andb negb].
        split; [by apply take_and_release|]. destruct (defaultCursor r); [apply take_and_release; auto|apply union_empty_l_L]. }
    constructor; cbn; rewrite ?R1, ?R2, ?R3, ?R4; try done.
    + intros ->. specialize (Ha eq_refl). destruct F as [(-> & _)|(? & ? & _)]; congruence.
    + destruct (rowsClosed r' && negb f); [done|]. unfold held in *. by rewrite R1, R3.
  - constructor; cbn; rewrite ?R1, ?R2, ?R3, ?R4; try done. rewrite Hc, Hc' in *. cbn in *. destruct f; [by specialize (Ha eq_refl)|].
    unfold held in *. rewrite R1, R3, (kp_handles _ _ K), (kp_busy _ _ K). done.
Qed.

Lemma owning_steps c0 s s' : rtc rowsStep s s' -> owning c0 s -> owning c0 s'.
Proof. induction 1 as [|s1 s2 s3 Hs _ IH]; [done|]. intros Ho. apply IH. by eapply owning_step. Qed.
End Owning.

(** ** What a query opens

    [leaks] is the statement whose cursor name the variant with bindings keeps
    when the query had no result set. *)
Definition opening (leaks : option Z) (m : M queryRows) : Prop := forall c r c', m c = (r, c') ->
  match r with
  | Ret rows =>
      if defaultCursor rows
      then (statementHandle rows ∉ defaultCursorBusy c) /\
           defaultCursorBusy c' = {[statementHandle rows]} ∪ defaultCursorBusy c
      else defaultCursorBusy c' = defaultCursorBusy c
  | Fail e =>
      defaultCursorBusy c' = defaultCursorBusy c \/
      exists h : Z, leaks = Some h /\ e = noResultSet /\ defaultCursorBusy c' = {[h]} ∪ defaultCursorBusy c
  | Panic => True
  end.

Lemma opening_fail leaks e : opening leaks (fail e).
Proof. intros c r c' [= <- <-]. by left. Qed.

Lemma opening_weaken leaks m : opening None m -> opening leaks m.
Proof. intros Hm c r c' E. apply Hm in E. destruct r; [done| |done]. destruct E as [|(h & ? & _)]; [by left|done]. Qed.

Lemma opening_bind {A} leaks (m : M A) (f : A -> M queryRows) :
  preserves same_busy m -> (forall a, opening leaks (f a)) -> opening leaks (m ≫= f).
Proof.
  intros Hm Hf c r c' E. unfold mbind, M_bind in E. destruct (m c) as [[a|e|] c1] eqn:Em.
  - apply Hm in Em. apply Hf in E. by rewrite Em in E.
  - apply Hm in Em. injection E as <- <-. by left.
  - by injection E as <- _.
Qed.

(** A change of the rows that keeps their statement and their cursor. *)
Lemma opening_then leaks (m : M queryRows) (f : queryRows -> queryRows) :
  (forall rows, statementHandle (f rows) = statementHandle rows /\ defaultCursor (f rows) = defaultCursor rows) ->
  opening leaks m -> opening leaks (rows ← m; mret (f rows)).
Proof.
  intros Hf Hm c r c' E. unfold mbind, M_bind in E. destruct (m c) as [[rows|e|] c1] eqn:Em; apply Hm in Em;
    injection E as <- <-; [|done..]. by destruct (Hf rows) as [-> ->].
Qed.

Lemma opening_deferring leaks cleanup m : preserves same_busy cleanup -> opening leaks m -> opening leaks (deferring cleanup m).
Proof.
  intros Hc Hm c r c' E. apply deferring_state in E as (r1 & c1 & r2 & E1 & E2 & Hr). apply Hm in E1. apply Hc in E2.
  unfold same_busy in E2. destruct Hr as [->| ->]; [|done]. destruct r1; by rewrite ?E2.
Qed.

Section Opening.
Context `{TableFS} `{Environment} `{BidiLayout} `{Parameters}.

(** Closing the cursor of an interrupted open ignores its own errors. *)
Lemma ignore_not_Fail {A} (m : M A) c e c' : ignore m c <> (Fail e, c').
Proof. unfold ignore, attempt, mbind, M_bind. by destruct (m c) as [[] c1]. Qed.
Lemma closeInterruptedCursor_not_Fail ctx cursor e c e' c' : closeInterruptedCursor ctx cursor e c <> (Fail e', c').
Proof.
  unfold closeInterruptedCursor, cleaningUp, mbind, M_bind, get. destruct (negb (IsValid c)); [done|].
  destruct (negb (isContextError e)); [done|]. apply ignore_not_Fail.
Qed.

Lemma opening_openRows (keep : bool) ctx (h : Z) name d format bindings :
  opening (if keep then Some h else None) (openRows keep ctx h name d format bindings).
Proof.
  intros c r c' E. unfold openRows, mbind, M_bind in E.
  destruct (openCursorName h c) as [[[cursor own]|e|] c1] eqn:Eo; [|by unfold openCursorName, mbind, M_bind, get in Eo; destruct (decide _)..].
  assert (if own then (h ∉ defaultCursorBusy c) /\ defaultCursorBusy c1 = {[h]} ∪ defaultCursorBusy c
          else defaultCursorBusy c1 = defaultCursorBusy c) as Hc1.
  { unfold openCursorName, mbind, M_bind, get in Eo. destruct (decide _); by injection Eo as _ <- <-. }
  assert (forall c2 c3 r3, defaultCursorBusy c2 = defaultCursorBusy c1 -> releaseOpenCursorName h own c2 = (r3, c3) ->
            defaultCursorBusy c3 = defaultCursorBusy c) as Hrelease.
  { intros c2 c3 r3 E2. destruct own; intros [= _ <-]; cbn; rewrite E2; [|done].
    destruct Hc1 as [? ->]. by apply take_and_release. }
  destruct (attempt _ c1) as [[[[m info]|e]|e|] c2] eqn:Ea; kept same_busy in Ea as Kb; [| |by unfold attempt in Ea; destruct (openAndDescribe _ _ _ _ _ _ _ c1) as [[]]|by injection E as <- _].
  - cbn [recordWarning modify] in E. set (c3 := set_lastWarning c2 _) in E.
    assert (defaultCursorBusy c3 = defaultCursorBusy c1) as K3 by exact Kb.
    destruct ((len (columns m) =? 0) && _).
    + destruct keep.
      * injection E as <- <-. rewrite K3. destruct own; [right; exists h; by split_and!; try apply Hc1|by left].
      * destruct (releaseOpenCursorName h own c3) as [[[]|e'|] c4] eqn:Er; injection E as <- <-; [| |done]; left; by eapply Hrelease.
    + injection E as <- <-. cbn [openedRows defaultCursor statementHandle]. destruct own; by rewrite K3.
  - destruct (closeInterruptedCursor ctx cursor e c2) as [[[]|e'|] c3] eqn:Ec; kept same_busy in Ec as Kc.
    + destruct (releaseOpenCursorName h own c3) as [[[]|e'|] c4] eqn:Er; injection E as <- <-; [| |done];
        (left; eapply Hrelease; [|done]; by rewrite Kc).
    + by apply closeInterruptedCursor_not_Fail in Ec.
    + by injection E as <- _.
Qed.

Lemma opening_queryRowsForStatement ctx h name : opening None (queryRowsForStatement ctx h name).
Proof. apply (opening_openRows false). Qed.

Lemma opening_queryCallRows ctx h name : opening None (queryCallRows ctx h name).
Proof.
  unfold queryCallRows. case_match; [apply opening_fail|].
  apply opening_bind; [preserve|intros _]. apply opening_bind; [preserve|intros c].
  apply opening_bind; [preserve|intros request]. apply opening_bind; [preserve|intros reply].
  apply opening_bind; [preserve|intros _]. apply opening_bind; [preserve|intros info].
  apply (opening_then _ _ (fun rows => withStoredProc (if 0 <? ResultSetsCount info
    then withResultSetCount rows (ResultSetsCount info) else rows) true)); [|apply opening_queryRowsForStatement].
  intros rows. by destruct (0 <? ResultSetsCount info).
Qed.

Lemma opening_openQuery ctx type h name rpb request : opening None (openQuery ctx type h name rpb request).
Proof.
  unfold openQuery. apply opening_bind; [preserve|intros reply]. apply opening_bind; [preserve|intros _].
  apply opening_bind; [preserve|intros _].
  apply (opening_then _ _ (fun rows => let rows := withOwner rows true (releaseStmt rows) in
    if type =? sqlStatementTypeCall then withStoredProc rows true else rows)).
  - intros rows. by destruct (type =? sqlStatementTypeCall).
  - case_match; [apply opening_queryCallRows|apply opening_queryRowsForStatement].
Qed.

Lemma opening_onFailure leaks cleanup m :
  preserves same_busy cleanup -> (forall c e c', cleanup c <> (Fail e, c')) -> opening leaks m -> opening leaks (onFailure cleanup m).
Proof.
  intros Hc Hnf Hm c r c' E. unfold onFailure, attempt, mbind, M_bind in E.
  destruct (m c) as [[rows|e|] c1] eqn:Em; apply Hm in Em; cbn in E; [by injection E as <- <-| |by injection E as <- _].
  destruct (cleanup c1) as [r2 c2] eqn:Ec. pose proof (Hc _ _ _ Ec) as Kc. unfold same_busy in Kc.
  destruct r2; injection E as <- <-; [by rewrite Kc|by apply Hnf in Ec|done].
Qed.

Lemma opening_queryContext ctx query : opening None (queryContext ctx query).
Proof.
  unfold queryContext. apply opening_bind; [preserve|intros _]. cbv zeta. case_match; [apply opening_fail|].
  apply opening_bind; [preserve|intros [own h]].
  apply opening_bind; [unfold onFailure; preserve|intros [rpb request]].
  apply opening_onFailure; [preserve|intros; apply ignore_not_Fail|apply opening_openQuery].
Qed.

(** With bindings a query without a result set keeps its cursor name. *)
Lemma opening_queryPreparedWithArgs ctx h name format args : opening (Some h) (queryPreparedWithArgs ctx h name format args).
Proof.
  unfold queryPreparedWithArgs. case_match; [apply opening_fail|]. apply opening_bind; [preserve|intros c].
  apply opening_bind; [preserve|intros bindings]. case_match.
  - apply opening_weaken. unfold queryPrepared. case_match; [apply opening_fail|].
    apply opening_bind; [preserve|intros _]. apply opening_queryRowsForStatement.
  - apply opening_bind; [preserve|intros d]. cbv zeta. apply opening_deferring; [preserve|].
    apply opening_bind; [preserve|intros _]. apply (opening_openRows true).
Qed.

Lemma queryContext_name ctx query c rows c' :
  queryContext ctx query c = (Ret rows, c') -> notBlank (statementName rows) = true /\ rowsClosed rows = false.
Proof.
  intros E. unfold queryContext in E. apply run_bind_Ret in E as (? & c1 & _ & E). cbv zeta in E. destruct (_ && _); [done|].
  apply run_bind_Ret in E as ([own h] & c2 & En & E). apply nextStatementName_Ret in En as (-> & _).
  apply run_bind_Ret in E as ([rpb request] & c3 & _ & E). apply onFailure_run in E.
  apply openQuery_of in E as [(_ & Hn & Hc) _]. rewrite Hn. split; [|done].
  unfold notBlank. destruct (len _ =? 0) eqn:Eb; [|done]. bool_facts. by apply statementNameOf_not_blank in Eb.
Qed.

(** The rows of a query hold what it opened. *)
Lemma opened_owning c rows c' :
  rowsClosed rows = false -> ownStatement rows = true -> 1 <= statementHandle rows < maxStatements ->
  notBlank (statementName rows) = true -> statementHandle rows ∉ usedStatementHandles c ->
  usedStatementHandles c' = {[statementHandle rows]} ∪ usedStatementHandles c ->
  (if defaultCursor rows
   then (statementHandle rows ∉ defaultCursorBusy c) /\ defaultCursorBusy c' = {[statementHandle rows]} ∪ defaultCursorBusy c
   else defaultCursorBusy c' = defaultCursorBusy c) ->
  owning c (false, rows, c').
Proof.
  intros Hc Ho Hi Hn Hf Hu Hb. constructor; cbn; [done..| |done|].
  - intros Hd. rewrite Hd in Hb. apply Hb.
  - rewrite Hc. cbn. split; [done|]. destruct (defaultCursor rows); [apply Hb|]. by rewrite Hb, union_empty_l_L.
Qed.

Lemma queryContext_owning ctx query c rows c' :
  queryContext ctx query c = (Ret rows, c') -> owning c (false, rows, c').
Proof.
  intros E. pose proof (queryContext_ids ctx query c) as Hids. rewrite E in Hids. destruct Hids as (Hown & Hh & Hf & Hu).
  pose proof (opening_queryContext ctx query _ _ _ E) as Hb. cbn in Hb.
  apply queryContext_name in E as [Hn Hc]. by apply opened_owning.
Qed.

(** A prepared query that fails gives its statement id back, but for a
    statement the server named with blanks; and its cursor name, but for a query
    without a result set. *)
Lemma queryPreparedTransient_outcome ctx query args c r c' :
  queryPreparedTransient ctx query args c = (r, c') ->
  match r with
  | Ret rows => owning c (false, rows, c')
  | Fail e =>
      (usedStatementHandles c' = usedStatementHandles c \/ blank_in_package c') /\
      (defaultCursorBusy c' = defaultCursorBusy c \/
       e = noResultSet /\ exists h : Z, (h ∉ usedStatementHandles c) /\ defaultCursorBusy c' = {[h]} ∪ defaultCursorBusy c)
  | Panic => True
  end.
Proof.
  unfold queryPreparedTransient. unfold mbind, M_bind.
  destruct (prepareTransientStatement ctx query c) as [[[[[type h] name] format]|e|] c1] eqn:Ep;
    kept same_busy in Ep as Kb; apply prepareTransientStatement_ids in Ep; [| |by intros [= <- _]].
  2:{ intros [= <- <-]. split; [by left|]. left. exact Kb. }
  destruct Ep as (Hh & Hfree & Hc1 & Hname).
  set (m := queryPreparedWithArgs ctx h name format args). set (cleanup := ignore _).
  assert (preserves same_busy cleanup) as Hclean by (unfold cleanup; preserve).
  pose proof (opening_onFailure (Some h) cleanup m Hclean (ignore_not_Fail _) (opening_queryPreparedWithArgs ctx h name format args)) as Hop.
  destruct (onFailure cleanup m c1) as [[rows|e|] c2] eqn:Eq; [| |by intros [= <- _]]; intros [= <- <-].
  - specialize (Hop _ _ _ Eq). apply onFailure_run in Eq. apply queryPreparedWithArgs_of in Eq as Hr. destruct Hr as (Er & En & Ecl).
    kept same_handles in Eq as Kh. unfold same_handles, same_busy in *.
    assert (notBlank name = true) as Hn.
    { unfold m, queryPreparedWithArgs in Eq. unfold notBlank. by destruct (len (trimSpace name) =? 0). }
    apply opened_owning; unfold markStoredProcResult; destruct (type =? sqlStatementTypeCall);
      cbn [withOwner withStoredProc rowsClosed ownStatement statementHandle statementName defaultCursor];
      rewrite ?Er, ?En, ?Kh in *; try done; by rewrite <- Kb.
  - specialize (Hop _ _ _ Eq). cbn in Hop. unfold same_busy in Kb. rewrite Kb in Hop. split.
    + apply onFailure_run in Eq as (e' & c3 & r3 & Em & Ec). kept same_handles in Em as Kh. kept same_pkg in Em as Kp.
      unfold cleanup in Ec. apply ignore_state in Ec as [r4 Ec].
      destruct (decide (len (trimSpace name) = 0)) as [Hb|Hb].
      * right. destruct Hname as [->|(s & Hin & Hu & ->)]; [by apply statementNameOf_not_blank in Hb|].
        assert (same_pkg c3 c2) as K by (by eapply same_pkg_closePreparedStatement).
        exists s. by rewrite (same_pkg_statements _ _ K), (same_pkg_statements _ _ Kp).
      * left. apply closePreparedStatement_releases in Ec; [|lia|done]. rewrite Ec, Kh, Hc1. by apply take_and_release.
    + destruct Hop as [|(h' & [= <-] & -> & ->)]; [by left|]. right. split; [done|]. by exists h.
Qed.
End Opening.

(** ** Blocks have a count of rows *)

Lemma parseResultDataBlock_rows r n columns indicator size b :
  parseResultDataBlock r n columns indicator size = Ret b -> RowCount b = n.
Proof.
  unfold parseResultDataBlock. intros E. do 3 apply bind_Ret in E as (? & _ & E).
  apply bind_Ret in E as ([? ?] & _ & E). apply bind_Ret in E as ([? ?] & _ & E). by injection E as <-.
Qed.

Lemma readU32_nonneg r v r' : is_bytes (rdata r) -> readU32 r = Ret (v, r') -> 0 <= v /\ rdata r' = rdata r.
Proof.
  unfold readU32. destruct (remaining r <? 4); [done|]. intros Hb (w & Hw & [= <- <-])%bind_Ret.
  split; [|done]. by apply uint_at_range in Hw as [? _]; [|done|lia].
Qed.

(** What the body of the loop makes of the bytes of a parameter. *)
Lemma forLLCP_found {S R} (Q : R -> Prop) onErr (body : S -> Z -> bytes -> outcome (S + R)) fuel s data r :
  (forall e, onErr e = Fail e) ->
  (forall s cp p r, is_bytes p -> body s cp p = Ret (inr r) -> Q r) ->
  is_bytes data -> forLLCP onErr body fuel s data = Ret (inr r) -> Q r.
Proof.
  intros He Hbody. revert s data. induction fuel as [|fuel IH]; intros s data Hd E.
  - by destruct data.
  - destruct data as [|b data]; [done|]. cbn [forLLCP] in E.
    destruct (ParseLLCP (b :: data)) as [[[cp p] rest]|e|] eqn:Ep; [|by rewrite He in E|done].
    apply ParseLLCP_is_bytes in Ep as [Hp Hrest]; [|done].
    apply bind_Ret in E as ([s'|r'] & Eb & E); [by apply IH in E|]. injection E as ->. eapply Hbody; [exact Hp|exact Eb].
Qed.

Lemma parseResult_rows (original : bool) payload b :
  is_bytes payload ->
  (if original then parseOriginalResultDataPayload payload else parseResultDataPayload payload) = Ret b -> 0 <= RowCount b.
Proof.
  intros Hb E. assert (is_bytes (rdata (newSliceReader payload))) as Hr by done.
  destruct original; apply bind_Ret in E as ([v1 r1] & E1 & E); apply (readU32_nonneg _ _ _ Hr) in E1 as [_ Hr1];
    rewrite <-Hr1 in Hr; apply bind_Ret in E as ([v2 r2] & E2 & E); apply (readU32_nonneg _ _ _ Hr) in E2 as [Hv _];
    [do 3 apply bind_Ret in E as ([? ?] & _ & E)|do 4 apply bind_Ret in E as ([? ?] & _ & E)];
    by apply parseResultDataBlock_rows in E as ->.
Qed.

Lemma parseFetchPayload_rows payload b : is_bytes payload -> parseFetchPayload payload = Ret b -> 0 <= RowCount b.
Proof.
  intros Hb (x & Ex & E)%bind_Ret. destruct x as [|b']; injection E as <-; [done|].
  revert Ex. apply (forLLCP_found (fun b => 0 <= RowCount b)); [done| |done]. intros s cp p r Hp. unfold parseFetchBody.
  case_match; [intros (b1 & Eb & [= <-])%fmap_Ret; by apply (parseResult_rows false) in Eb|].
  case_match; [intros (b1 & Eb & [= <-])%fmap_Ret; by apply (parseResult_rows true) in Eb|done].
Qed.

Section Blocks.
Context `{TableFS} `{Environment} `{BidiLayout} `{Parameters} `{ColumnDecoding}.

Lemma fetchRows_rows ctx h cursor size option_ relative c b c' :
  unread_ok c -> fetchRows ctx h cursor size option_ relative c = (Ret b, c') -> 0 <= RowCount b.
Proof.
  intros Hu (request & c1 & [= _ <-] & E)%run_bind_Ret. apply run_bind_Ret in E as (reply & c2 & E2 & E).
  apply run_bind_Ret in E as ([] & c3 & _ & E). apply run_bind_Ret in E as (b' & c4 & [= Eb <-] & E).
  injection E as <- _. cbn [markBlock RowCount]. revert Eb. apply parseFetchPayload_rows.
  unfold statementRequest in E2. apply run_bind_Ret in E2 as (r & c5 & E5 & E2). destruct r as [reply'|e].
  - injection E2 as -> _. unfold attempt in E5. destruct (doStatementRequest ctx request c) as [[]] eqn:Ed; [|done..].
    injection E5 as -> _. by apply doStatementRequest_bytes in Ed.
  - apply run_bind_Ret in E2 as (? & ? & _ & E2). apply run_bind_Ret in E2 as (? & ? & _ & E2). done.
Qed.

(** The block of rows being read has a count that is not negative. *)
Definition block_ok (r : queryRows) : Prop := match block r with Some b => 0 <= RowCount b | None => True end.

(** A turn with rows to read delivers one. *)
Lemma nextLoop_full k r b : 0 < RowCount b ->
  nextLoop (S k) (withBlock r (Some b) 0) = (Some <$> deliver (withBlock r (Some b) 0) b).
Proof. intros Hb. cbn [nextLoop withBlock block rowIndex]. by rewrite (proj2 (Z.ltb_lt _ _) Hb). Qed.

(** What a fetch gives: a block to look at, or nothing. *)
Lemma fetchBlockOf_rows r c b r' c' :
  unread_ok c -> fetchBlockOf r c = (Ret (inl (Some b), r'), c') -> 0 <= RowCount b.
Proof.
  intros Hu E. unfold fetchBlockOf in E. destruct (serverClosed r || rowsEndOfData r); [done|].
  apply run_bind_Ret in E as (fetched & c1 & E1 & E). destruct fetched as [b1|e].
  - injection E as -> _ _. unfold attempt in E1. destruct (fetchRows _ _ _ _ _ _ c) as [[]] eqn:Ef; [|done..].
    injection E1 as -> _. by apply fetchRows_rows in Ef.
  - apply run_bind_Ret in E as ([? ?] & ? & _ & E). done.
Qed.

(** More than two turns do what two do, and two are enough. *)
Lemma nextLoop_two k r c :
  unread_ok c -> nextLoop (S (S k)) r c = nextLoop 2 r c /\ (nextLoop 2 r c).1 <> Ret None.
Proof.
  intros Hu. assert (forall A (m : M (rowsResult A)) c1, ((Some <$> m) c1).1 <> Ret None) as Hsome.
  { intros A m c1. unfold fmap, M_fmap, mbind, M_bind. by destruct (m c1) as [[]]. }
  assert (forall n, nextLoop (S n) r = match block r with
    | Some b => if rowIndex r <? RowCount b then Some <$> deliver r b
                else if RowCount b =? 0 then Some <$> endResultSet (withDone r true)
                else (fetchBlockOf r ≫= fun fetched => match fetched with
                  | (inr e, r) => mret (Some (inr e, r))
                  | (inl (Some b), r) =>
                      if RowCount b =? 0 then Some <$> endResultSet (withBlock (withDone r true) None 0)
                      else nextLoop n (withBlock r (Some b) 0)
                  | (inl None, r) => Some <$> endResultSet (withBlock (withDone r true) None 0)
                  end)
    | None => fetchBlockOf r ≫= fun fetched => match fetched with
                  | (inr e, r) => mret (Some (inr e, r))
                  | (inl (Some b), r) =>
                      if RowCount b =? 0 then Some <$> endResultSet (withBlock (withDone r true) None 0)
                      else nextLoop n (withBlock r (Some b) 0)
                  | (inl None, r) => Some <$> endResultSet (withBlock (withDone r true) None 0)
                  end
    end) as Hunfold by done.
  assert (forall n, (fetchBlockOf r ≫= fun fetched => match fetched with
      | (inr e, r) => mret (Some (inr e, r))
      | (inl (Some b), r) =>
          if RowCount b =? 0 then Some <$> endResultSet (withBlock (withDone r true) None 0)
          else nextLoop (S n) (withBlock r (Some b) 0)
      | (inl None, r) => Some <$> endResultSet (withBlock (withDone r true) None 0)
      end) c = (fetchBlockOf r ≫= fun fetched => match fetched with
      | (inr e, r) => mret (Some (inr e, r))
      | (inl (Some b), r) =>
          if RowCount b =? 0 then Some <$> endResultSet (withBlock (withDone r true) None 0)
          else Some <$> deliver (withBlock r (Some b) 0) b
      | (inl None, r) => Some <$> endResultSet (withBlock (withDone r true) None 0)
      end) c) as Hfetch.
  { intros n. unfold mbind, M_bind. destruct (fetchBlockOf r c) as [[[[[b|]|e] r1]|e|] c1] eqn:Ef; try done.
    apply fetchBlockOf_rows in Ef; [|done]. destruct (Z.eqb_spec (RowCount b) 0); [done|].
    by rewrite nextLoop_full by lia. }
  assert (forall (f : rowsResult (option fetchBlock) -> M (option (rowsResult (list (option colValue))))),
    (forall x c1, (f x c1).1 <> Ret None) -> ((fetchBlockOf r ≫= f) c).1 <> Ret None) as Hbind.
  { intros f Hf. unfold mbind, M_bind. destruct (fetchBlockOf r c) as [[x|e|] c1]; [apply Hf|done|done]. }
  rewrite !Hunfold. destruct (block r) as [b|]; [destruct (rowIndex r <? RowCount b); [done|]; destruct (RowCount b =? 0); [done|]|];
    (split; [by rewrite !Hfetch|rewrite Hfetch; apply Hbind; intros [[[b'|]|e] r1] c1; [case_match; apply Hsome|apply Hsome|done]]).
Qed.
End Blocks.

(** ** Rows at their end *)

Definition finished (r r' : queryRows) : Prop :=
  rowsClosed r' = true \/ (currentResultSetDone r' = true /\ meta r' = meta r).

Section Finished.
Context `{TableFS} `{Environment} `{BidiLayout} `{Parameters} `{ColumnDecoding}.

Lemma Close_closed r c e r' c' : Close r c = (Ret (e, r'), c') -> rowsClosed r' = true.
Proof.
  unfold Close. destruct (rowsClosed r) eqn:Ec; [by intros [= _ <- _]|]. intros E.
  do 4 apply run_bind_Ret in E as (? & ? & _ & E). by injection E as _ <- _.
Qed.

(** An error of [m] leaves rows that are at their end. *)
Definition stops {A} (r : queryRows) (m : M (rowsResult A)) : Prop :=
  forall c e r' c', m c = (Ret (inr e, r'), c') -> finished r r'.

Lemma stops_closeWith {A} r r1 e : stops r (@closeWith _ _ A r1 e).
Proof. intros c e' r' c' ([x r2] & c1 & E1 & [= _ <- <-])%run_bind_Ret. left. by eapply Close_closed. Qed.

Lemma stops_endResultSet {A} r r1 :
  currentResultSetDone r1 = true -> meta r1 = meta r -> stops r (@endResultSet _ _ A r1).
Proof. intros Hd Hm. unfold endResultSet. case_match; [apply stops_closeWith|]. intros c e r' c' [= _ <- _]. by right. Qed.

Lemma stops_deliver r r1 b : stops r (deliver r1 b).
Proof.
  intros c e r' c' (values & c1 & E1 & E)%run_bind_Ret. destruct values as [values|e1]; [done|by eapply stops_closeWith].
Qed.

Lemma fetchBlockOf_keeps_meta r c x r' c' : fetchBlockOf r c = (Ret (inl x, r'), c') -> meta r' = meta r.
Proof.
  unfold fetchBlockOf. case_match; [by intros [= _ <- _]|]. intros (fetched & c1 & E1 & E)%run_bind_Ret.
  destruct fetched as [b|e]; [by injection E as _ <- _|]. apply run_bind_Ret in E as ([? ?] & ? & _ & E). done.
Qed.

Definition stopsOption {A} (r : queryRows) (m : M (option (rowsResult A))) : Prop :=
  forall c e r' c', m c = (Ret (Some (inr e, r')), c') -> finished r r'.

Lemma stops_some {A} r (m : M (rowsResult A)) : stops r m -> stopsOption r (Some <$> m).
Proof. intros Hm c e r' c' (a & c1 & Ea & [= -> <-])%run_bind_Ret. by eapply Hm. Qed.

Lemma stops_nextLoop fuel r r1 : meta r1 = meta r -> stopsOption r (nextLoop fuel r1).
Proof.
  revert r1. induction fuel as [|fuel IH]; intros r1 Hm; [done|]. cbn [nextLoop].
  assert (stopsOption r (
    fetched ← fetchBlockOf r1;
    match fetched with
    | (inr e, r) => mret (Some (inr e, r))
    | (inl b, r) =>
        match b with
        | Some b => if RowCount b =? 0 then Some <$> endResultSet (withBlock (withDone r true) None 0)
                    else nextLoop fuel (withBlock r (Some b) 0)
        | None => Some <$> endResultSet (withBlock (withDone r true) None 0)
        end
    end)) as Hfetch.
  { intros c e r' c' ([x r2] & c1 & E1 & E)%run_bind_Ret. destruct x as [b|e1].
    - apply fetchBlockOf_keeps_meta in E1. assert (meta r2 = meta r) as Hm2 by congruence.
      destruct b as [b|]; [destruct (RowCount b =? 0)|]; [|by eapply (IH (withBlock r2 (Some b) 0))|];
        (eapply stops_some in E; [exact E|by apply stops_endResultSet]).
    - injection E as _ <- _. unfold fetchBlockOf in E1. destruct (serverClosed r1 || _); [done|].
      apply run_bind_Ret in E1 as (fetched & c2 & _ & E1). destruct fetched as [b|e2]; [done|].
      apply run_bind_Ret in E1 as ([? ?] & c3 & Ec & E1). injection E1 as _ <- _. left. by eapply Close_closed. }
  destruct (block r1) as [b|]; [|done]. case_match; [apply stops_some, stops_deliver|]. case_match; [|done].
  by apply stops_some, stops_endResultSet.
Qed.

(** The rows after an error of [Next], other than a wrong number of columns. *)
Lemma Next_finished n r c e r' c' :
  Next n r c = (Ret (Some (inr e, r')), c') -> n = len (columns (meta r)) \/ rowsClosed r = true -> finished r r'.
Proof.
  unfold Next. intros E Hn. destruct (rowsClosed r) eqn:Ec; [injection E as _ <- _; by left|].
  destruct Hn as [->|]; [|done]. rewrite Z.eqb_refl in E. cbn [negb] in E.
  destruct (len (columns (meta r)) =? 0); destruct (currentResultSetDone r) eqn:Ed; try (injection E as _ <- _; by right).
  - eapply stops_some in E; [exact E|by apply stops_endResultSet].
  - by eapply stops_nextLoop.
Qed.
End Finished.

(** * Properties *)

Section Properties.
Context `{TableFS} `{Environment} `{BidiLayout} `{Parameters} `{ColumnDecoding}.

(** C2: a query leaves nothing behind on its connection, but in two cases.
    When [queryContext] fails, the statement ids in use and the busy cursor
    names are those it started with.  So it is for a query with arguments
    ([queryPreparedTransient]), except that it keeps the cursor name of its
    statement when the query has no result set, and the id when the server named
    a statement of the package with blanks.  When a query returns rows, ids and
    names are again those it started with once the rows are closed, by whatever
    sequence of [Next], scrolls, result sets and [Close] they got there (the
    last row, an error, or the client), except that the rows keep exactly their
    own id and cursor name when a further result set could not be opened. *)
Theorem query_leaves_nothing (ctx : context) (query : bytes) (args : list namedValue) (c : Conn) :
  let same c' := usedStatementHandles c' = usedStatementHandles c /\ defaultCursorBusy c' = defaultCursorBusy c in
  (forall e c', queryContext ctx query c = (Fail e, c') -> same c') /\
  (forall e c', queryPreparedTransient ctx query args c = (Fail e, c') ->
     (usedStatementHandles c' = usedStatementHandles c \/ blank_in_package c') /\
     (defaultCursorBusy c' = defaultCursorBusy c \/
      e = noResultSet /\ exists h : Z, (h ∉ usedStatementHandles c) /\ defaultCursorBusy c' = {[h]} ∪ defaultCursorBusy c)) /\
  (forall rows c1 abandoned rows' c',
     queryContext ctx query c = (Ret rows, c1) \/ queryPreparedTransient ctx query args c = (Ret rows, c1) ->
     rtc rowsStep (false, rows, c1) (abandoned, rows', c') -> rowsClosed rows' = true ->
     if abandoned then (statementHandle rows' ∉ usedStatementHandles c) /\ held c rows' c' else same c').
Proof.
  intros same. split_and!.
  - intros e c' E. pose proof (queryContext_ids ctx query c) as Hids. rewrite E in Hids.
    split; [done|]. apply opening_queryContext in E as [|(h & ? & _)]; done.
  - intros e c' E. exact (queryPreparedTransient_outcome ctx query args c _ _ E).
  - intros rows c1 abandoned rows' c' E Hsteps Hclosed.
    assert (owning c (false, rows, c1)) as Ho.
    { destruct E as [E|E]; [by eapply queryContext_owning|exact (queryPreparedTransient_outcome ctx query args c _ _ E)]. }
    eapply owning_steps in Ho as [_ _ _ Hf _ _ Hh]; [|exact Hsteps]. cbn in Hf, Hh. rewrite Hclosed in Hh. by destruct abandoned.
Qed.

(** C16: the loop of [Next] ends: on any bytes the server may send it takes at
    most two turns, so it never runs out of them, and allowing it more turns
    changes nothing. *)
Theorem next_loop_terminates (n : Z) (r : queryRows) (c : Conn) (k : nat) :
  unread_ok c -> (Next n r c).1 <> Ret None /\ nextLoop (S (S k)) r c = nextLoop 2 r c.
Proof.
  intros Hu. destruct (nextLoop_two k r c Hu) as [Hk Htwo]. split; [|done].
  assert (forall A (m : M (rowsResult A)), ((Some <$> m) c).1 <> Ret None) as Hsome.
  { intros A m. unfold fmap, M_fmap, mbind, M_bind. by destruct (m c) as [[]]. }
  unfold Next. repeat (case_match; try apply Hsome; try done).
Qed.

(** The end is final: once [Next] has reported io.EOF, calling it again
    reports io.EOF, changes nothing and sends nothing. *)
Theorem next_end_is_final (n : Z) (r r' : queryRows) (c c' : Conn) :
  Next n r c = (Ret (Some (inr EEOF, r')), c') -> Next n r' c' = (Ret (Some (inr EEOF, r')), c').
Proof.
  intros E. assert (n = len (columns (meta r)) \/ rowsClosed r = true) as Hn.
  { unfold Next in E. destruct (rowsClosed r); [by right|]. destruct (Z.eqb_spec n (len (columns (meta r)))); [by left|done]. }
  apply Next_finished in E as Hf; [|done]. unfold Next. destruct (rowsClosed r') eqn:Ec; [done|].
  destruct Hf as [|[Hd Hm]]; [congruence|]. rewrite Hm. destruct Hn as [->|Hc].
  - rewrite Z.eqb_refl. cbn [negb]. rewrite Hd. by destruct (_ =? 0).
  - unfold Next in E. rewrite Hc in E. injection E as <- _. congruence.
Qed.
End Properties.

(** ** Behaviours worth knowing *)

(** When the next result set cannot be opened the rows are marked closed, but
    not closed: [Close] then does nothing, so the statement is not released,
    its cursor name stays busy and its id in use. *)
Lemma failed_result_set_leaks `{TableFS} `{Environment} `{BidiLayout} `{Parameters} r c e r' c' :
  HasNextResultSet r = true -> NextResultSet r c = (Ret (inr e, r'), c') ->
  rowsClosed r' = true /\ releaseStmt r' = releaseStmt r /\
  usedStatementHandles c' = usedStatementHandles c /\ defaultCursorBusy c' = defaultCursorBusy c /\
  Close r' c' = (Ret (None, r'), c').
Proof.
  intros Hn E. unfold NextResultSet in E. assert (rowsClosed r = false) as Ho by (unfold HasNextResultSet in Hn; by destruct (rowsClosed r)).
  rewrite Ho, Hn in E. cbn [negb] in E. apply run_bind_Ret in E as (c1 & ? & [= -> <-] & E).
  apply run_bind_Ret in E as (sent & c2 & E2 & E). kept steady in E2 as [[] _].
  destruct sent as [[]|e1]; [|by injection E as _ <- <-].
  apply run_bind_Ret in E as (opened & c3 & E3 & E). kept steady in E3 as [[] _]. destruct opened as [[m info]|e1].
  - by apply run_bind_Ret in E as ([] & c4 & E4 & E).
  - injection E as _ <- <-. split_and!; [done|done|congruence|congruence|done].
Qed.

(** ** Witnesses *)

(** Columns as their row of bytes. *)
Definition rawColumns : ColumnDecoding := {|
  colValue := bytes; decodeColumnValueWithBidi _ _ _ row := Ret row; bytesOf := Some; ofBytes data := data;
  emptyText := []; decodeLobTextValueWithBidi _ data _ := Ret data;
|}.

Definition replyWith (payload : bytes) : bytes :=
  buildHeader (40 + len payload) 0 DatabaseServerID 20 0x2800 ++ replicate 20 0 ++ payload.
Definition openReply : bytes :=
  replyWith (AppendLLCP [] CodePointSuperExtendedDataFormat (serverFormat 9 1 2 45 58 0 sampleColumns)).
Lemma openReply_bytes : is_bytes openReply.
Proof. apply (bool_decide_unpack _). vm_compute. exact I. Defined.

(** A query with two columns and no rows. *)
Definition emptyResult : Environment :=
  {| exchangeAt n := if (n =? 1)%nat then mkExchange true true openReply EEOF 0 0 0 openReply_bytes else answered 0;
     cancelTime _ := 0 |}.

Definition noArguments : Parameters := bound [].

Section Witnesses.
#[local] Existing Instances sampleTables emptyResult noBidi rawColumns noArguments.

Definition sampleQuery : outcome queryRows * Conn :=
  queryContext Background (lit "SELECT ID FROM T") sampleConn.
Definition noRows : queryRows := openedRows Background emptyMeta 0 [] [] false 0 0 false.
Definition sampleRows1 : queryRows := match sampleQuery.1 with Ret rows => rows | _ => noRows end.
Definition sampleNext : outcome (option (rowsResult (list (option bytes)))) * Conn :=
  Next 2 sampleRows1 sampleQuery.2.
Definition sampleRows2 : queryRows := match sampleNext.1 with Ret (Some (_, rows)) => rows | _ => noRows end.

Lemma query_leaves_nothing_witness :
  usedStatementHandles sampleQuery.2 = {[1]} /\ defaultCursorBusy sampleQuery.2 = {[1]} /\
  usedStatementHandles sampleNext.2 = usedStatementHandles sampleConn /\
  defaultCursorBusy sampleNext.2 = defaultCursorBusy sampleConn.
Proof.
  split; [by vm_compute|]. split; [by vm_compute|].
  apply (proj2 (proj2 (query_leaves_nothing Background (lit "SELECT ID FROM T") [] sampleConn)) sampleRows1 sampleQuery.2 false
    sampleRows2 sampleNext.2).
  - left. vm_compute. reflexivity.
  - apply rtc_once. apply (step_next false 2 sampleRows1 sampleQuery.2 (inr EEOF)). vm_compute. reflexivity.
  - vm_compute. reflexivity.
Defined.

Lemma next_loop_terminates_witness :
  (Next 2 sampleRows1 sampleConn).1 <> Ret None /\
  nextLoop 7 sampleRows1 sampleConn =
  nextLoop 2 sampleRows1 sampleConn.
Proof.
  apply (next_loop_terminates 2 sampleRows1 sampleConn 5).
  constructor.
Defined.

Lemma next_end_is_final_witness :
  Next 2 sampleRows2 sampleNext.2 =
  (Ret (Some (inr EEOF, sampleRows2)), sampleNext.2).
Proof.
  apply (next_end_is_final 2 sampleRows1 sampleRows2
    sampleQuery.2 sampleNext.2). vm_compute. reflexivity.
Defined.

End Witnesses.

(** The result set of a CALL that cannot be opened, with the rows of a [Stmt]:
    nothing is released, and [Close] does not do it either. *)
Definition callRows : queryRows := withOwner (withResultSetCount sampleRows1 2) false (Some ReleaseStmt).
Example failed_result_set_is_not_released :
  let '(r, c) := @NextResultSet sampleTables (always (failing 0)) noBidi callRows sampleQuery.2 in
  match r with
  | Ret (inr EBadConn, rows) => rowsClosed rows = true /\ releaseStmt rows = Some ReleaseStmt /\ defaultCursorBusy c = {[1]}
  | _ => False
  end.
Proof. by vm_compute. Qed.
