(* ===== verification/Binding.v ===== *)
(** The values of statements (sql.go, datetime_format.go, bidi_settings.go): the
    output parameters of a CALL, and the implementations of the two interfaces
    the statements and the rows are written against, [Parameters] and
    [ColumnDecoding], by the encoders and decoders of parameters and columns.

    The [Scan] methods of destinations, and what Go makes of the conversion of a
    float that does not fit an int64, are an interface. *)
From Stdlib Require Import Strings.String.
From stdpp Require Import base list numbers strings gmap.
From S2P Require Import Prelude GoStrings Digits Calendar Values Utf Ccsid Wire Reply Format Sqlca DateTime Describe Config Columns Encoding Session Statements Transaction Rows.
Open Scope Z_scope.

(** [Scan] gives what its destination holds afterwards and its error. *)
Class CallerMemory := {
  Scan : goAny -> driverValue -> goAny * option goerror;
  int64OfFloat : Z -> Z;
  int64OfFloat_range bits : - 2 ^ 63 <= int64OfFloat bits < 2 ^ 63;
}.

(** ** The settings of a connection *)

Definition dateTimeSettingsForConn (c : Conn) : dateTimeSettings :=
  mkSettings (Config.DateFormat (cfg c)) (Config.DateSeparator (cfg c)) (Config.TimeFormat (cfg c))
    (Config.TimeSeparator (cfg c)) (Config.TimestampString (cfg c)).

Definition storedProcDateTimeMinVRM : Z := 0x060100.

(** The formats the server sent override those of the connection for the rows
    of a stored procedure. *)
Definition dateTimeSettingsFor (m : resultSetMeta) (c : Conn) (storedProc : bool) : dateTimeSettings :=
  let dt := dateTimeSettingsForConn c in
  if storedProc && hasDataFormat m && serverVRMAtLeast storedProcDateTimeMinVRM c
  then mkSettings (metaDateFormat m) (DateTime.DateSeparator dt) (metaTimeFormat m) (DateTime.TimeSeparator dt)
         (DateTime.TimestampString dt)
  else dt.

(** [bidiSettingsForConn]. *)
Definition bidiSettingsForConn (c : Conn) : bidiOptions := Bidi (cfg c).

(** ** Columns of rows *)

#[export] Instance columnDecoding `{TableFS} `{BidiText} : ColumnDecoding := {|
  colValue := driverValue;
  Rows.decodeColumnValueWithBidi c r col row :=
    Columns.decodeColumnValueWithBidi col row (dateTimeSettingsFor (meta r) c (storedProcResult r)) (bidiSettingsForConn c);
  bytesOf v := match v with VBytes data => Some data | _ => None end;
  ofBytes := VBytes;
  emptyText := VString [];
  Rows.decodeLobTextValueWithBidi c data col := Columns.decodeLobTextValueWithBidi data col (bidiSettingsForConn c);
|}.

(** ** Output values *)

Definition cannotConvert (target : string) : goerror := EText ("cannot convert value to " ++ target) [].

(** [strconv.ParseBool]. *)
Definition parseBool (text : bytes) : outcome bool :=
  if existsb (beqb text) [lit "1"; lit "t"; lit "T"; lit "TRUE"; lit "true"; lit "True"] then Ret true
  else if existsb (beqb text) [lit "0"; lit "f"; lit "F"; lit "FALSE"; lit "false"; lit "False"] then Ret false
  else Fail ESyntax.

Definition outputValueBool (value : driverValue) : outcome bool :=
  match value with
  | VBool b => Ret b
  | VInt64 n => Ret (negb (n =? 0))
  | VString s | VBytes s => parseBool (trimSpace s)
  | _ => Fail (cannotConvert "bool")
  end.

Definition outputValueBytes (value : driverValue) : outcome bytes :=
  match value with VBytes s | VString s => Ret s | _ => Fail (cannotConvert "[]byte") end.

Section Output.
Context `{FloatText} `{CallerMemory}.

Definition outputValueString (value : driverValue) : outcome bytes :=
  match value with
  | VString s | VBytes s => Ret s
  | VInt64 n => Ret (formatInt n)
  | VFloat64 bits => Ret (formatFloat bits)
  | VBool b => Ret (lit (if b then "true" else "false"))
  | VNil | VTime _ => Fail (cannotConvert "string")
  end.

(** [int64(v)]: the fraction is dropped. *)
Definition truncateFloat (bits : Z) : Z :=
  if isNaN binary64 bits || isInf binary64 bits then int64OfFloat bits
  else
    let '(m, e) := finiteParts binary64 bits in
    let n := if 0 <=? e then m * 2 ^ e else Z.quot m (2 ^ (- e)) in
    if (- 2 ^ 63 <=? n) && (n <? 2 ^ 63) then n else int64OfFloat bits.

Definition outputValueInt64 (value : driverValue) : outcome Z :=
  match value with
  | VInt64 n => Ret n
  | VFloat64 bits => Ret (truncateFloat bits)
  | VString s | VBytes s => parseInt64 (trimSpace s)
  | _ => Fail (cannotConvert "int64")
  end.

Definition outputValueFloat64 (value : driverValue) : outcome Z :=
  match value with
  | VFloat64 bits => Ret bits
  | VInt64 n => Ret (float64OfInt n)
  | VString s | VBytes s => parseFloat (trimSpace s)
  | _ => Fail (cannotConvert "float64")
  end.

(** [reflect.Zero]. *)
Definition zeroOf (k : destinationKind) : goAny :=
  match k with
  | KindScanner | KindInterface _ => Native VNil
  | KindString => Native (VString [])
  | KindBool => Native (VBool false)
  | KindInt _ => GoInt 0
  | KindUint _ => GoUint 0
  | KindFloat32 => GoFloat32 0
  | KindFloat64 => Native (VFloat64 0)
  | KindBytes => Native (VBytes [])
  | KindOther _ zero => zero
  end.

(** What a destination that is not a scanner holds once it is assigned a value
    that is not nil; [SetInt] and [SetUint] keep the low bits, and [Set] panics when
    the value does not implement the interface type. *)
Definition setTo (k : destinationKind) (value : driverValue) : outcome goAny :=
  match k with
  | KindScanner => Ret (Native value)
  | KindInterface implements => if implements value then Ret (Native value) else Panic
  | KindString => (fun text => Native (VString text)) <$> outputValueString value
  | KindBool => (fun b => Native (VBool b)) <$> outputValueBool value
  | KindInt size => (fun n => GoInt (wraps size n)) <$> outputValueInt64 value
  | KindUint size => (fun n => GoUint (wrapu size n)) <$> outputValueInt64 value
  | KindFloat32 => (fun bits => GoFloat32 (float32Of bits)) <$> outputValueFloat64 value
  | KindFloat64 => (fun bits => Native (VFloat64 bits)) <$> outputValueFloat64 value
  | KindBytes => (fun data => Native (VBytes data)) <$> outputValueBytes value
  | KindOther convert _ =>
      match convert value with Some v => Ret v | None => Fail (EText "unsupported sql.Out destination type" []) end
  end.

Definition isNil (value : driverValue) : bool := match value with VNil => true | _ => false end.

(** The destination after the assignment, and the error. *)
Definition assigned (d : destination) (value : driverValue) : destination * outcome unit :=
  match kind d with
  | KindScanner =>
      let '(held, err) := Scan (Values.held d) value in
      (mkDestination KindScanner held, match err with None => Ret tt | Some e => Fail e end)
  | k =>
      match (if isNil value then Ret (zeroOf k) else setTo k value) with
      | Ret held => (mkDestination k held, Ret tt)
      | Fail e => (d, Fail e)
      | Panic => (d, Panic)
      end
  end.

(** A slot without memory is a nil pointer. *)
Definition assignOutDestination (slot : nat) (value : driverValue) : M unit :=
  c ← get;
  match destinations c !! slot with
  | None => fail (EText "sql.Out destination must be a non-nil pointer" [])
  | Some d =>
      let '(d, result) := assigned d value in
      modify (fun c => set_destinations c (<[slot := d]> (destinations c)));; lift result
  end.

Definition isOutputParameterField (f : parameterMarkerField) : bool :=
  existsb (Z.eqb (ParameterType f mod 256)) [0xF1; 0xF2].

(** The parameters a reply of so many columns is about: the output parameters,
    or all of them. *)
Definition replyParameters (columnCount : Z) (bindings : list parameterBinding) : outcome (list parameterBinding) :=
  let outputs := List.filter (fun b => isOutputParameterField (field b)) bindings in
  if columnCount =? len outputs then Ret outputs
  else if columnCount =? len bindings then Ret bindings
  else Fail (EText "unexpected output parameter column count" [columnCount; len outputs; len bindings]).

Section Assign.
Context `{TableFS} `{Environment} `{BidiText}.

(** [decodeColumnValueWithContext]: the bidirectional settings are the default
    ones. *)
Definition decodeColumnValueWithContext (ctx : context) (col : columnMeta) (row : bytes) : M driverValue :=
  c ← get;
  value ← lift (Columns.decodeColumnValueWithBidi col row (dateTimeSettingsForConn c) defaultBidiSettings);
  resolveLobLocatorValue ctx col value.

Fixpoint assignOutputs (ctx : context) (nulls : list bool) (row : bytes) (offset : Z) (bindings : list parameterBinding)
    : M unit :=
  match bindings with
  | [] => mret tt
  | b :: bindings' =>
      let length := parameterFieldResultLength (field b) in
      if len row <? offset + length then fail (EText "output parameter row too short" [])
      else
        (match outDest b with
         | None => mret tt
         | Some slot =>
             value ← (if default false (head nulls) then mret VNil
                      else decodeColumnValueWithContext ctx (parameterFieldResultColumnMeta (field b) offset length) row);
             assignOutDestination slot value
         end);;
        assignOutputs ctx (tail nulls) row (offset + length) bindings'
  end.

Definition assignCallOutputParameters (ctx : context) (payload : bytes) (bindings : list parameterBinding) : M unit :=
  if negb (hasOutputBindings bindings) then mret tt
  else
    block ← lift (parseFetchPayload payload);
    if (RowCount block =? 0) || (ColumnCount block =? 0) then mret tt
    else
      parameters ← lift (replyParameters (ColumnCount block) bindings);
      if len (Data block) <? RowSize block then fail (EText "output parameter row size out of range" [])
      else
        row ← lift (slice (Data block) 0 (RowSize block));
        assignOutputs ctx (Nulls block) row 0 parameters.
End Assign.
End Output.

(** * Lemmas *)

Section Steady.
Context `{FloatText} `{CallerMemory} `{TableFS} `{Environment} `{BidiText}.

Lemma steady_set_destinations f : preserves steady (modify (fun c => set_destinations c (f c))).
Proof. steady_step. Qed.
#[local] Hint Resolve steady_set_destinations : steady.

Lemma steady_assignOutDestination slot value : preserves steady (assignOutDestination slot value).
Proof.
  unfold assignOutDestination. preserve.
Qed.
#[local] Hint Resolve steady_assignOutDestination : steady.

Lemma steady_assignOutputs ctx nulls row offset bindings : preserves steady (assignOutputs ctx nulls row offset bindings).
Proof.
  revert nulls offset. induction bindings as [|b bindings IH]; intros nulls offset; cbn [assignOutputs]; [apply preserves_ret, _|].
  unfold decodeColumnValueWithContext. preserve; apply IH.
Qed.
#[local] Hint Resolve steady_assignOutputs : steady.

Lemma steady_assignCallOutputs ctx payload bindings : preserves steady (assignCallOutputParameters ctx payload bindings).
Proof. unfold assignCallOutputParameters. preserve. Qed.

Lemma same_pkg_set_destinations f : preserves same_pkg (modify (fun c => set_destinations c (f c))).
Proof. by intros ? ? ? [= _ <-]. Qed.
#[local] Hint Resolve same_pkg_set_destinations : steady.

Lemma same_pkg_assignOutputs ctx nulls row offset bindings : preserves same_pkg (assignOutputs ctx nulls row offset bindings).
Proof.
  revert nulls offset. induction bindings as [|b bindings IH]; intros nulls offset; cbn [assignOutputs]; [apply preserves_ret, _|].
  unfold decodeColumnValueWithContext, resolveLobLocatorValue, retrieveLobData, freeLob, assignOutDestination. preserve; apply IH.
Qed.
#[local] Hint Resolve same_pkg_assignOutputs : steady.

Lemma same_pkg_assignCallOutputs ctx payload bindings : preserves same_pkg (assignCallOutputParameters ctx payload bindings).
Proof. unfold assignCallOutputParameters. preserve. Qed.
End Steady.

(** ** The parameters of statements *)

#[export] Instance parameters `{FloatText} `{CallerMemory} `{TableFS} `{Environment} `{BidiText} `{Sprint} : Parameters := {|
  namedValue := NamedValue;
  Statements.buildParameterBindingsWithBidi c format args :=
    Encoding.buildParameterBindingsWithBidi format args (bidiSettingsForConn c);
  Statements.assignCallOutputParameters := assignCallOutputParameters;
  steady_assignCallOutputParameters := steady_assignCallOutputs;
  same_pkg_assignCallOutputParameters := same_pkg_assignCallOutputs;
|}.

(** ** The values of a row *)

Section RowValues.
Context `{FloatText} `{CallerMemory} `{TableFS} `{Environment} `{BidiText} `{BidiLayout} `{Sprint}.

(** The null flag of a column of the current row. *)
Definition nullFlag (r : queryRows) (b : fetchBlock) (k : nat) : option bool :=
  let at_ := rowIndex r * len (columns (meta r)) + Z.of_nat k in
  if at_ <? 0 then None else Nulls b !! Z.to_nat at_.

(** What [Next] gives for a column: nothing for a null, else a value of the type
    that is announced for the column. *)
Definition given (c : Conn) (r : queryRows) (row : bytes) (null : option bool) (col : columnMeta)
    (v : option driverValue) : Prop :=
  match v with
  | None => null = Some true
  | Some x =>
      null = Some false /\
      (db2Type col ∈ columnTypes ->
       exists data, columnBytes col row = Ret data /\
         announced (ColumnTypeScanType col (dateTimeSettingsForConn c)) col
           (dateTimeSettingsFor (meta r) c (storedProcResult r)) data x)
  end.

Lemma announced_by_connection col m c storedProc :
  ColumnTypeScanType col (dateTimeSettingsFor m c storedProc) = ColumnTypeScanType col (dateTimeSettingsForConn c).
Proof. unfold dateTimeSettingsFor. by case_match. Qed.

Lemma settings_kept m c c' storedProc : keeps c c' ->
  dateTimeSettingsFor m c' storedProc = dateTimeSettingsFor m c storedProc.
Proof.
  intros K. unfold dateTimeSettingsFor, dateTimeSettingsForConn, serverVRMAtLeast.
  by rewrite (kp_cfg _ _ K), (kp_systemInfo _ _ K).
Qed.

(** The scan type of a locator is that of its data. *)
Lemma locator_scan_type col dt : oneOfTypes (db2Type col) locatorTypes = true ->
  ColumnTypeScanType col dt =
  if oneOfTypes (db2Type col) textLocatorTypes
  then if colCCSID col =? 65535 then ScanTypeBytes else ScanTypeString else ScanTypeBytes.
Proof.
  intros (typ & Ht & E%Z.eqb_eq)%existsb_exists. unfold ColumnTypeScanType, columnScanType.
  cbn in Ht. repeat destruct Ht as [<-|Ht]; try done; by rewrite E.
Qed.

Lemma resolved_as_announced ctx col dt data c v c' :
  oneOfTypes (db2Type col) locatorTypes = true ->
  resolveLobLocatorValue ctx col (VBytes data : colValue) c = (Ret v, c') ->
  announced (ColumnTypeScanType col dt) col dt data v.
Proof.
  intros Hl. unfold resolveLobLocatorValue. change (isLobLocator col) with (oneOfTypes (db2Type col) locatorTypes).
  rewrite Hl. cbn [negb bytesOf columnDecoding].
  change (isTextLocator col) with (oneOfTypes (db2Type col) textLocatorTypes).
  pose proof (locator_scan_type col dt Hl) as Hs.
  destruct (Z.ltb_spec (len data) 4) as [Hc|Hc]; [intros [= <- _]; by apply CutLocator|].
  destruct (Z.eqb_spec (unbe (sub data 0 4)) 0) as [Hz|Hz].
  - destruct (oneOfTypes (db2Type col) textLocatorTypes) eqn:Ht; intros [= <- _]; [by apply NullLocator|].
    apply OfType; by rewrite Hs.
  - intros (fetched & c1 & _ & E)%run_bind_Ret. apply run_bind_Ret in E as (freed & c2 & _ & E).
    destruct fetched as [bytes|]; [|done]. destruct freed; [|done]. revert E.
    destruct (oneOfTypes (db2Type col) textLocatorTypes); [|intros [= <- _]; apply OfType; by rewrite Hs].
    intros (c3 & c4 & _ & [= E _])%run_bind_Ret. apply lob_text_scans in E. apply OfType; rewrite Hs; [by case_match|done].
Qed.

(** A column that is not null. *)
Lemma column_given r row col c0 c x c' :
  keeps c0 c ->
  (value ← lift (Rows.decodeColumnValueWithBidi c r col row); resolveLobLocatorValue (rowsCtx r) col value) c = (Ret x, c') ->
  given c0 r row (Some false) col (Some x).
Proof.
  intros K (v & c1 & [= E <-] & Hr)%run_bind_Ret. split; [done|]. intros Ht.
  cbn [Rows.decodeColumnValueWithBidi columnDecoding] in E. rewrite (settings_kept _ c0) in E by done.
  apply decoded_as_announced in E as (data & Hd & Hv); [|done]. exists data. split; [done|].
  rewrite <- (announced_by_connection col (meta r) c0 (storedProcResult r)). revert Hv.
  destruct (oneOfTypes (db2Type col) locatorTypes) eqn:Hl; [intros ->; by eapply resolved_as_announced|].
  unfold resolveLobLocatorValue in Hr. change (isLobLocator col) with (oneOfTypes (db2Type col) locatorTypes) in Hr.
  rewrite Hl in Hr. by injection Hr as <- _.
Qed.

Lemma columns_given r b row c0 cols : forall i c values c', keeps c0 c ->
  decodeColumns r b row (Z.of_nat i) cols c = (Ret values, c') ->
  length values = length cols /\
  forall k col v, cols !! k = Some col -> values !! k = Some v -> given c0 r row (nullFlag r b (i + k)) col v.
Proof.
  induction cols as [|col cols IH]; intros i c values c' K; cbn [decodeColumns]; [by intros [= <- _]|].
  intros (null & c1 & [= Hn <-] & E)%run_bind_Ret. apply run_bind_Ret in E as (v & c2 & Hv & E).
  apply run_bind_Ret in E as (vs & c3 & Hvs & [= <- _]).
  assert (nullFlag r b (i + 0) = Some null) as Hnull.
  { rewrite Nat.add_0_r. unfold nullFlag. by destruct (if _ <? 0 then None else _) as [?|]; [injection Hn as ->|]. }
  assert (given c0 r row (nullFlag r b (i + 0)) col v /\ keeps c0 c2) as [Hg K2].
  { rewrite Hnull. destruct null; [by injection Hv as <- <-|]. apply run_bind_Ret in Hv as (? & ? & [= <- <-] & Hv).
    apply run_bind_Ret in Hv as (x & c4 & Hd & Hv). apply run_bind_Ret in Hv as (y & c5 & Hy & [= <- <-]).
    split.
    - eapply (column_given _ _ _ _ _ _ c5); [exact K|]. unfold mbind, M_bind. rewrite Hd. exact Hy.
    - injection Hd as _ <-. apply steady_resolveLobLocatorValue in Hy as [Hk _]. by etransitivity. }
  replace (Z.of_nat i + 1) with (Z.of_nat (S i)) in Hvs by lia.
  destruct (IH _ _ _ _ K2 Hvs) as [Hl Hr]. split; [exact (f_equal S Hl)|].
  intros [|k] col' v'; cbn; [by intros [= <-] [= <-]|]. intros Hc Hval. replace (i + S k)%nat with (S i + k)%nat by lia. by apply Hr.
Qed.
End RowValues.

(** ** The output parameters of a reply *)

Section Outputs.
Context `{FloatText} `{CallerMemory} `{TableFS} `{Environment} `{BidiText} `{Sprint}.

(** An output parameter as the server sends it: its value, null or not, and the
    bytes of its column. *)
Record output := mkOutput { outBinding : parameterBinding; outValue : driverValue; image : bytes }.

(** The bytes are those of a parameter with that value, with what may follow the
    data of a varying type. *)
Definition output_ok (o : output) : Prop :=
  let f := field (outBinding o) in
  len (image o) = parameterFieldResultLength f /\
  (isNil (outValue o) = false ->
    parameterFieldDB2Type f ∈ plainTypes /\ parameter_ok f (outValue o) /\
    exists raw pad, image o = raw ++ pad /\ encodeParameterValue f (outValue o) false defaultBidiSettings = Ret raw /\
      (oneOfTypes (parameterFieldDB2Type f) varyingTypes = false -> pad = [])).

(** The value the driver gets. *)
Definition arrived (o : output) : outcome driverValue :=
  if isNil (outValue o) then Ret VNil else received (field (outBinding o)) (outValue o) defaultBidiSettings.

(** Its destination, if it has one, can hold it. *)
Definition deliverable (mem : gmap nat destination) (o : output) : Prop :=
  forall slot, outDest (outBinding o) = Some slot ->
    exists d v, mem !! slot = Some d /\ arrived o = Ret v /\ (assigned d v).2 = Ret tt.

(** What the memory holds afterwards. *)
Definition delivered (mem mem' : gmap nat destination) (os : list output) : Prop :=
  (forall o slot d v, o ∈ os -> outDest (outBinding o) = Some slot -> mem !! slot = Some d -> arrived o = Ret v ->
     mem' !! slot = Some (assigned d v).1) /\
  (forall slot, (forall o, o ∈ os -> outDest (outBinding o) <> Some slot) -> mem' !! slot = mem !! slot).

Record carries (block : fetchBlock) (os : list output) : Prop := {
  carries_row : RowCount block <> 0;
  carries_some : os <> [];
  carries_columns : ColumnCount block = len os;
  carries_nulls : exists rest, Nulls block = ((fun o => isNil (outValue o)) <$> os) ++ rest;
  carries_size : RowSize block = len (concat (image <$> os));
  carries_data : exists rest, Data block = concat (image <$> os) ++ rest;
}.

Lemma decode_output f value dt raw pad pre post :
  parameterFieldDB2Type f ∈ plainTypes -> parameter_ok f value ->
  encodeParameterValue f value false defaultBidiSettings = Ret raw ->
  (oneOfTypes (parameterFieldDB2Type f) varyingTypes = false -> pad = []) ->
  Columns.decodeColumnValueWithBidi (parameterFieldResultColumnMeta f (len pre) (len (raw ++ pad)))
    (pre ++ (raw ++ pad) ++ post) dt defaultBidiSettings = received f value defaultBidiSettings.
Proof.
  intros Ht Hok E Hp. rewrite <- (received_raw f value defaultBidiSettings dt raw pad) by done.
  rewrite <- (decode_whole f (raw ++ pad)) by (done || by eapply plain_locator). unfold Columns.decodeColumnValueWithBidi.
  assert (columnBytes (parameterFieldResultColumnMeta f (len pre) (len (raw ++ pad))) (pre ++ (raw ++ pad) ++ post) =
          columnBytes (columnOf f (raw ++ pad)) (raw ++ pad)) as ->; [|done].
  generalize (raw ++ pad) as image. intros image. unfold columnBytes.
  cbn [columnOf parameterFieldResultColumnMeta withDecoding colOffset colLength].
  pose proof (len_nonneg pre). pose proof (len_nonneg image). pose proof (len_nonneg post). rewrite !len_app.
  rewrite (proj2 (Z.ltb_ge (len pre + _) (len pre))), (proj2 (Z.ltb_ge (len pre + (_ + _)) (len pre + len image))) by lia.
  rewrite (proj2 (Z.ltb_ge (len image) 0)), (proj2 (Z.ltb_ge (len image) (0 + len image))) by lia.
  rewrite !slice_ok by (rewrite ?len_app; lia). rewrite sub_app_r by lia.
  rewrite Z.sub_diag. by rewrite sub_app_l, sub_all' by lia.
Qed.

Lemma not_a_locator f off l : LOBLocator f <= 0 -> parameterFieldDB2Type f ∈ plainTypes ->
  isLobLocator (parameterFieldResultColumnMeta f off l) = false.
Proof.
  intros Hl Ht. unfold isLobLocator.
  replace (db2Type (parameterFieldResultColumnMeta f off l)) with (parameterFieldDB2Type f) by by rewrite <- (columnOf_type f []).
  revert Ht. unfold plainTypes. rewrite !elem_of_cons, elem_of_nil. intros Ht. repeat destruct Ht as [->|Ht]; done.
Qed.

(** The column of an output parameter. *)
Lemma output_column ctx o pre post c :
  output_ok o -> isNil (outValue o) = false -> forall v, arrived o = Ret v ->
  decodeColumnValueWithContext ctx
    (parameterFieldResultColumnMeta (field (outBinding o)) (len pre) (parameterFieldResultLength (field (outBinding o))))
    (pre ++ image o ++ post) c = (Ret v, c).
Proof.
  intros [<- Ho] Hn v Ha. unfold arrived in Ha. rewrite Hn in Ha. destruct (Ho Hn) as (Ht & Hok & raw & pad & -> & E & Hp).
  unfold decodeColumnValueWithContext, mbind, M_bind, get, lift. rewrite (decode_output _ (outValue o)) by done. rewrite Ha.
  unfold resolveLobLocatorValue. by rewrite not_a_locator by (done || by eapply plain_locator).
Qed.

Lemma assignOutDestination_ok slot value c d :
  destinations c !! slot = Some d -> (assigned d value).2 = Ret tt ->
  assignOutDestination slot value c = (Ret tt, set_destinations c (<[slot := (assigned d value).1]> (destinations c))).
Proof.
  intros Hd Ha. unfold assignOutDestination, mbind, M_bind, get. rewrite Hd. destruct (assigned d value) as [d' r].
  cbn [snd] in Ha. by subst r.
Qed.

(** The slots of the output parameters. *)
Definition slots (os : list output) : list nat := omap (fun o => outDest (outBinding o)) os.

Lemma slots_spec os slot : slot ∈ slots os <-> exists o, o ∈ os /\ outDest (outBinding o) = Some slot.
Proof. apply list_elem_of_omap. Qed.

Lemma slots_free o os : NoDup (slots (o :: os)) ->
  forall slot, outDest (outBinding o) = Some slot -> forall o', o' ∈ os -> outDest (outBinding o') <> Some slot.
Proof.
  intros Hnd slot Es o' Ho' Es'. unfold slots in Hnd. cbn [omap list_omap] in Hnd. rewrite Es in Hnd.
  apply NoDup_cons in Hnd as [Hn _]. apply Hn, slots_spec. by exists o'.
Qed.

Lemma slots_tail o os : NoDup (slots (o :: os)) -> NoDup (slots os).
Proof. unfold slots. cbn [omap list_omap]. destruct (outDest (outBinding o)); [|done]. by intros [_ ?]%NoDup_cons. Qed.

Lemma delivered_cons mem mem1 mem2 o os :
  NoDup (slots (o :: os)) -> delivered mem mem1 [o] -> delivered mem1 mem2 os -> delivered mem mem2 (o :: os).
Proof.
  intros Hnd [D1 K1] [D2 K2]. pose proof (slots_free _ _ Hnd) as Hfree. split.
  - intros o' slot d v [->|Ho']%elem_of_cons Es Ed Ea.
    + rewrite K2 by by apply Hfree. eapply D1; [|done..]. by apply list_elem_of_singleton.
    + eapply D2; [done..| |done]. rewrite K1; [done|]. intros o'' ->%list_elem_of_singleton E. by eapply Hfree.
  - intros slot Hs. rewrite K2, K1; [done| |].
    + intros o' ->%list_elem_of_singleton. apply Hs. by left.
    + intros o' Ho'. apply Hs. by right.
Qed.

(** One output parameter. *)
Definition outputStep (ctx : context) (o : output) (row : bytes) (offset : Z) : M unit :=
  match outDest (outBinding o) with
  | None => mret tt
  | Some slot =>
      value ← (if isNil (outValue o) then mret VNil
               else decodeColumnValueWithContext ctx (parameterFieldResultColumnMeta (field (outBinding o)) offset
                      (parameterFieldResultLength (field (outBinding o)))) row);
      assignOutDestination slot value
  end.

Lemma outputStep_ok ctx o pre post c :
  output_ok o -> deliverable (destinations c) o ->
  exists mem, outputStep ctx o (pre ++ image o ++ post) (len pre) c = (Ret tt, set_destinations c mem) /\
    delivered (destinations c) mem [o].
Proof.
  intros Ho Hd. unfold outputStep. destruct (outDest (outBinding o)) as [slot|] eqn:Es.
  - destruct (Hd slot Es) as (d & v & Ed & Ea & Er). exists (<[slot := (assigned d v).1]> (destinations c)). split.
    + unfold mbind at 1, M_bind.
      assert ((if isNil (outValue o) then mret VNil else decodeColumnValueWithContext ctx
        (parameterFieldResultColumnMeta (field (outBinding o)) (len pre) (parameterFieldResultLength (field (outBinding o))))
        (pre ++ image o ++ post)) c = (Ret v, c)) as ->; [|by apply assignOutDestination_ok].
      destruct (isNil (outValue o)) eqn:En; [|by apply output_column]. unfold arrived in Ea. rewrite En in Ea. by injection Ea as <-.
    + split.
      * intros o' slot' d' v' ->%list_elem_of_singleton Es' Ed' Ea'. rewrite Es in Es'. injection Es' as <-.
        rewrite Ed in Ed'. injection Ed' as <-. rewrite Ea in Ea'. apply Ret_inj in Ea' as <-. apply lookup_insert_eq.
      * intros slot' Hs. apply lookup_insert_ne. intros ->. by eapply Hs; [apply list_elem_of_singleton|].
  - exists (destinations c). split; [by destruct c|]. split; [|done].
    intros o' slot d v ->%list_elem_of_singleton Es' _ _. congruence.
Qed.

Lemma assignOutputs_ok ctx os : forall c pre rest post,
  Forall output_ok os -> NoDup (slots os) -> Forall (deliverable (destinations c)) os ->
  exists mem, assignOutputs ctx (((fun o => isNil (outValue o)) <$> os) ++ rest) (pre ++ concat (image <$> os) ++ post) (len pre)
      (outBinding <$> os) c = (Ret tt, set_destinations c mem) /\
    delivered (destinations c) mem os.
Proof.
  induction os as [|o os IH]; intros c pre rest post Hok Hnd Hd.
  { exists (destinations c). split; [by destruct c|]. split; [by intros ? ? ? ? ?%elem_of_nil|done]. }
  apply Forall_cons in Hok as [Ho Hok]. apply Forall_cons in Hd as [Hdo Hd].
  destruct (outputStep_ok ctx o pre (concat (image <$> os) ++ post) c Ho Hdo) as (mem1 & E1 & D1).
  destruct (IH (set_destinations c mem1) (pre ++ image o) rest post Hok) as (mem2 & E2 & D2); [by eapply slots_tail| |].
  { apply Forall_forall. intros o' Ho' slot Es. rewrite Forall_forall in Hd. destruct (Hd o' Ho' slot Es) as (d & v & Ed & ?).
    exists d, v. split; [|done]. cbn [set_destinations destinations]. rewrite (proj2 D1); [done|].
    intros o'' ->%list_elem_of_singleton E. by eapply slots_free. }
  exists mem2. split; [|by eapply delivered_cons].
  cbn [fmap list_fmap concat assignOutputs app head tail default]. rewrite <- !app_assoc.
  rewrite <- (proj1 Ho). pose proof (len_nonneg pre). pose proof (len_nonneg (concat (image <$> os))). pose proof (len_nonneg post).
  rewrite (proj2 (Z.ltb_ge _ _)) by (rewrite !len_app; lia). rewrite (proj1 Ho).
  change (match outDest (outBinding o) with Some _ => _ | None => _ end) with
    (outputStep ctx o (pre ++ image o ++ concat (image <$> os) ++ post) (len pre)).
  unfold mbind, M_bind. rewrite E1. rewrite <- (proj1 Ho), <- len_app. rewrite <- !app_assoc in E2. exact E2.
Qed.

Lemma replyParameters_subset count bindings parameters :
  replyParameters count bindings = Ret parameters -> forall b, b ∈ parameters -> b ∈ bindings.
Proof.
  unfold replyParameters. repeat case_match; [|intros <-%Ret_inj; done|done].
  intros <-%Ret_inj b. rewrite !list_elem_of_In, filter_In. by intros [? _].
Qed.

Lemma no_destinations bindings : hasOutputBindings bindings = false -> forall b, b ∈ bindings -> outDest b = None.
Proof.
  unfold hasOutputBindings. intros Hn b Hb%list_elem_of_In. destruct (outDest b) as [slot|] eqn:E; [|done].
  rewrite <- not_true_iff_false in Hn. destruct Hn. apply existsb_exists. exists b. by rewrite E.
Qed.

(** * Properties *)

Section RowProperty.
Context `{FloatText} `{CallerMemory} `{TableFS} `{Environment} `{BidiText} `{BidiLayout} `{Sprint}.

End RowProperty.

End Outputs.

Section Examples.
#[local] Instance noLayout : BidiText := Build_BidiText (fun units _ _ => Ret units) (fun units _ _ => Ret units).
#[local] Instance noSprint : Sprint := Build_Sprint (fun _ => []).
#[local] Existing Instances sampleTables noFloatText.

(** No destination is a scanner. *)
#[refine, local] Instance plainMemory : CallerMemory := {| Scan held _ := (held, None); int64OfFloat _ := 0 |}.
Proof. done. Defined.

(** An INTEGER output parameter of value -300 and a null VARCHAR one. *)
Definition integerOutput : output :=
  mkOutput (mkBinding (mkField [] 497 4 0 0 0 0xF1 0 0) [0; 0; 0; 0] false (Some 0%nat) None) (VInt64 (-300))
    [0xFF; 0xFF; 0xFE; 0xD4].
Definition varcharOutput : output :=
  mkOutput (mkBinding (mkField [] 449 4 0 0 37 0xF1 0 0) [0; 0; 0; 0] false (Some 1%nat) None) VNil [0; 0; 0; 0].
Definition outputReply : bytes :=
  AppendLLCP [] CodePointExtendedResultData
    (be32 1 ++ be32 1 ++ be16 2 ++ be16 2 ++ be32 0 ++ be32 8 ++ [0; 0; 0xFF; 0xFF] ++ image integerOutput ++ image varcharOutput).

Definition outputConn (k : destinationKind) : Conn :=
  set_destinations sampleConn
    {[ 0%nat := mkDestination k (Native VNil); 1%nat := mkDestination KindString (Native (VString (lit "old"))) ]}.

(** The low byte of -300 is 0xD4, which an int8 destination holds without an
    error. *)
Example output_value_wraps :
  let env : Environment := always (failing 0) in
  let '(r, c) := assignCallOutputParameters Background outputReply [outBinding integerOutput; outBinding varcharOutput]
                   (outputConn (KindInt 8)) in
  r = Ret tt /\ (Values.held <$> destinations c !! 0%nat) = Some (GoInt (-44)).
Proof. by vm_compute. Qed.

(** A row of a SMALLINT, a DATE, a null INTEGER and a null CLOB locator of CCSID
    65535. *)
Definition mixedRows : queryRows :=
  openedRows Background
    (mkMeta [withDecoding db2TypeSmallint 2 0 0 0 0 0; withDecoding db2TypeDate 10 0 0 37 2 0;
             withDecoding db2TypeInteger 4 0 0 0 12 0; withDecoding db2TypeClobLocator 4 0 0 65535 16 0]
       20 0 0 0 0 false) 0 [] [] false 0 0 false.
Definition mixedBlock : fetchBlock :=
  mkBlock 1 4 2 20 [false; false; true; false] ([1; 44] ++ lit "2024-02-29" ++ [0; 0; 0; 0] ++ [0; 0; 0; 0]) false false.

Example null_locator_is_text :
  let env : Environment := always (failing 0) in
  (decodeCurrentRow mixedRows mixedBlock sampleConn).1 =
    Ret [Some (VInt64 300); Some (VTime (mkTime 1709164800 0)); None; Some (VString [])] /\
  columnScanType (withDecoding db2TypeClobLocator 4 0 0 65535 16 0) = ScanTypeBytes.
Proof. by vm_compute. Qed.


End Examples.
