(* ===== verification/GeneratedKeys.v ===== *)
(** The texts and values of generated keys (generatedkeys.go): which statements
    are inserts, the statement that reads the keys of an insert, and the key of
    a column value.  Running it is in Stmt. *)
From Stdlib Require Import Strings.String.
From stdpp Require Import base list numbers strings.
From S2P Require Import Prelude GoStrings Digits Calendar Values Request.
Open Scope Z_scope.

(** [strings.EqualFold] with an upper-case ASCII text of the same length in
    bytes, without K or S, which other runes fold to. *)
Definition equalFoldUpper (s upper : bytes) : bool := beqb (upperByte <$> s) upper.

Definition isSQLDelimiter (b : Z) : bool := existsb (Z.eqb b) [32; 9; 13; 10; 40; 47; 45].

(** A turn of the loop drops at least a comment opener, so [length s] turns are
    enough. *)
Fixpoint skipNoise (fuel : nat) (s : bytes) : bytes :=
  match fuel with
  | O => s
  | S fuel' =>
      let s := trimLeftSpace s in
      if hasPrefix s (lit "--") then
        match indexByte s 10 with None => [] | Some i => skipNoise fuel' (drop (S i) s) end
      else if hasPrefix s (lit "/*") then
        match indexOf (drop 2 s) (lit "*/") with None => [] | Some i => skipNoise fuel' (drop (2 + i + 2) s) end
      else s
  end.

Definition skipLeadingSQLNoise (query : bytes) : bytes := skipNoise (S (length query)) query.

Definition isInsertStatement (query : bytes) : bool :=
  let text := skipLeadingSQLNoise query in
  (6 <=? len text) && equalFoldUpper (take 6 text) (lit "INSERT") &&
  match drop 6 text with [] => true | b :: _ => isSQLDelimiter b end.

Definition wrapInsertForGeneratedKeys (query : bytes) : outcome bytes :=
  if negb (isInsertStatement query) then Fail (EUnsupported "returnGeneratedKeys applies only to INSERT statements")
  else
    let body := trimRightSpace (trimLeftSpace query) in
    let body := trimRightSpace (trimSuffix body (lit ";")) in
    Ret (lit "SELECT *SQLGENCOLUMNS FROM NEW TABLE(" ++ [10] ++ body ++ [10] ++ lit ")").

Definition parseGeneratedKeyText (text : bytes) : outcome Z :=
  match parseInt64 (trimSpace text) with
  | Ret key => Ret key
  | Fail _ => Fail (EText "generated key is not an integer" text)
  | Panic => Panic
  end.

Definition generatedKeyInt64 (v : driverValue) : outcome Z :=
  match v with
  | VInt64 n => Ret n
  | VBytes s | VString s => parseGeneratedKeyText s
  | VNil => Fail (EText "generated key is NULL" [])
  | VFloat64 _ | VBool _ | VTime _ => Fail (EText "generated key has unsupported type" [])
  end.

Example insert_behind_comments :
  isInsertStatement (lit "-- new" ++ [10] ++ lit " /* row */ insert/**/into t values(1)") = true /\
  isInsertStatement (lit "INSERTED") = false.
Proof. by vm_compute. Qed.
