(* ===== verification/Batch.v ===== *)
(** Batches (batch.go): one statement run for many rows of values, row by row
    or in blocks of rows of the same shape.

    An operation on a batch returns the rows affected so far next to its
    error. *)
From Stdlib Require Import Strings.String.
From stdpp Require Import base list numbers strings gmap.
From S2P Require Import Prelude GoStrings Values Utf Ccsid Wire Reply Format Request Sqlca Config Package Columns Encoding Placeholders Session Statements Transaction Rows Binding GeneratedKeys.
Open Scope Z_scope.

Definition maxBlockRows : Z := 32000.
Definition maxBlockBytes : Z := 1048576.
Definition blockUpdateMinVRM : Z := 0x070100.

(** ** Which statements are sent in blocks *)

Definition lastIndexByte (s : bytes) (c : Z) : option nat :=
  (fun i => (length s - S i)%nat) <$> indexByte (reverse s) c.

(** What is left of a VALUES clause besides its parameter markers. *)
Definition onlyMarkers (values : bytes) : bool :=
  let values := match lastIndexByte values 41 with Some last => take last values | None => values end in
  forallb (inSet (lit ", ?()" ++ [10; 13; 9])) values.

Definition isBlockableStatement (text : bytes) : bool :=
  let upper := toUpper (trimSpace text) in
  if hasPrefix upper (lit "UPDATE") || hasPrefix upper (lit "DELETE") then true
  else if hasPrefix upper (lit "INSERT") then
    match indexOf upper (lit "VALUES") with
    | None => false
    | Some m => onlyMarkers (drop (m + 6) upper)
    end
  else false.

Definition batchBlockable (c : Conn) (query : bytes) (format : option parameterMarkerFormat) : bool :=
  match format with
  | None => false
  | Some format =>
      if negb (UseBlockUpdate (Server (cfg c))) || (len (Fields format) =? 0) then false
      else if negb (isBlockableStatement query) then false
      else if negb (isInsertStatement query) && negb (serverVRMAtLeast blockUpdateMinVRM c) then false
      else forallb (fun field => negb (isLOBParameterField field || (0 <? LOBLocator field))) (Fields format)
  end.

(** ** Blocks *)

(** How many of the rows after the first [count] join a block of the shape of
    [first]. *)
Fixpoint blockLength (first : list parameterBinding) (count : Z) (rows : list (list parameterBinding)) : Z :=
  match rows with
  | [] => count
  | row :: rows' =>
      if maxBlockRows <=? count then count
      else if negb (sameBindingShape first row) then count
      else if maxBlockBytes <? (count + 1) * bindingRowBytes first then count
      else blockLength first (count + 1) rows'
  end.

(** [blockEnd]: the rows of the next block and the rows after it. *)
Definition nextBlock (first : list parameterBinding) (rows : list (list parameterBinding))
    : list (list parameterBinding) * list (list parameterBinding) :=
  let n := Z.to_nat (blockLength first 1 rows) in
  (take n (first :: rows), drop n (first :: rows)).

(** The blocks of a batch.  A block has at least one row, so there are at most as
    many blocks as rows. *)
Fixpoint blocksOf (fuel : nat) (rows : list (list parameterBinding)) : list (list (list parameterBinding)) :=
  match fuel, rows with
  | S fuel', first :: rows' => let '(block, rest) := nextBlock first rows' in block :: blocksOf fuel' rest
  | _, _ => []
  end.

(** ** Executing *)

(** The error of one row, or of the batch. *)
Inductive batchError :=
| AtRow (row : Z) (err : goerror)
| AtColumn (row column : Z) (err : goerror)
| OfBatch (err : goerror).

Definition batchResult : Type := (Z * option batchError)%type.

Definition affected (total : Z) : M batchResult := mret (total, None).
Definition batchFails (total : Z) (e : batchError) : M batchResult := mret (total, Some e).

Definition batchOut : goerror := EText "sql.Out is not supported in ExecBatch" [].

Definition isErrSkip (e : goerror) : bool :=
  match e, ErrSkip with EText s [], EText t [] => String.eqb s t | _, _ => false end.

(** One value; one that [CheckNamedValue] skips stays as it is. *)
Definition namedColumn (row column : Z) (value : goAny) : outcome (NamedValue + batchError) :=
  match value with
  | GoOut _ _ _ => Ret (inr (AtRow row batchOut))
  | _ =>
      let arg := mkNamedValue [] (column + 1) value in
      match CheckNamedValue arg with
      | Ret arg => Ret (inl arg)
      | Fail e => Ret (if isErrSkip e then inl arg else inr (AtColumn row (column + 1) e))
      | Panic => Panic
      end
  end.

Fixpoint namedRow (row column : Z) (values : list goAny) : outcome (list NamedValue + batchError) :=
  match values with
  | [] => Ret (inl [])
  | value :: values' =>
      arg ← namedColumn row column value;
      match arg with
      | inr e => Ret (inr e)
      | inl arg => args ← namedRow row (column + 1) values'; Ret (match args with inl args => inl (arg :: args) | e => e end)
      end
  end.

Fixpoint batchNamedRows (row : Z) (rows : list (list goAny)) : outcome (list (list NamedValue) + batchError) :=
  match rows with
  | [] => Ret (inl [])
  | values :: rows' =>
      args ← namedRow row 0 values;
      match args with
      | inr e => Ret (inr e)
      | inl args =>
          rest ← batchNamedRows (row + 1) rows'; Ret (match rest with inl rest => inl (args :: rest) | e => e end)
      end
  end.

Section Batch.
Context `{FloatText} `{CallerMemory} `{TableFS} `{Environment} `{BidiLayout} `{BidiText} `{Sprint}.

Fixpoint execBatchRowByRow (ctx : context) (statementHandle statementType : Z) (format : option parameterMarkerFormat)
    (row total : Z) (rows : list (list NamedValue)) : M batchResult :=
  match rows with
  | [] => affected total
  | args :: rows' =>
      result ← attempt (execPrepared ctx statementHandle statementType format args);
      match result with
      | inr e => batchFails total (AtRow row e)
      | inl result =>
          execBatchRowByRow ctx statementHandle statementType format (row + 1) (i64 (total + rowsAffected result)) rows'
      end
  end.

(** One block: the descriptor, the execution, the update count. *)
Definition runBlock (ctx : context) (statementHandle descriptorHandle statementType : Z)
    (format : option parameterMarkerFormat) (rows : list (list parameterBinding)) (changeRequest : bytes) : M Z :=
  reply ← doRequest ctx changeRequest;
  checkReplyOf ctx statementHandle "change descriptor" reply;;
  replySQLCA ctx statementHandle reply.2;;
  c ← get;
  request ← lift (buildBlockExecuteRequest statementHandle descriptorHandle statementType format rows
                    (specForExecute (pkg c) statementHandle));
  reply ← doStatementRequest ctx request;
  checkReplyOf ctx statementHandle "block execute" reply;;
  info ← replySQLCA' ctx statementHandle reply.2;
  if 0 <? ResultSetsCount info then fail returnedResultSets
  else mret (if UpdateCount info <? 0 then 0 else UpdateCount info).

Definition execBlock (ctx : context) (statementHandle statementType : Z) (format : option parameterMarkerFormat)
    (rows : list (list parameterBinding)) : M Z :=
  descriptorHandle ← nextDescriptorHandle;
  let changeRequest := buildChangeDescriptorRequest statementHandle descriptorHandle format (hd [] rows) in
  deferring (deleteDescriptor ctx statementHandle descriptorHandle)
    (runBlock ctx statementHandle descriptorHandle statementType format rows changeRequest).

(** Every row is bound before the first block is sent. *)
Fixpoint bindRows (row : Z) (format : option parameterMarkerFormat) (bs : bidiOptions) (rows : list (list NamedValue))
    : outcome (list (list parameterBinding) + batchError) :=
  match rows with
  | [] => Ret (inl [])
  | args :: rows' =>
      match Encoding.buildParameterBindingsWithBidi format args bs with
      | Fail e => Ret (inr (AtRow row e))
      | Panic => Panic
      | Ret bindings =>
          rest ← bindRows (row + 1) format bs rows';
          Ret (match rest with inl rest => inl (bindings :: rest) | e => e end)
      end
  end.

Fixpoint execBlocks (ctx : context) (statementHandle statementType : Z) (format : option parameterMarkerFormat)
    (total : Z) (blocks : list (list (list parameterBinding))) : M batchResult :=
  match blocks with
  | [] => affected total
  | block :: blocks' =>
      n ← attempt (execBlock ctx statementHandle statementType format block);
      match n with
      | inr e => batchFails total (OfBatch e)
      | inl n => execBlocks ctx statementHandle statementType format (i64 (total + n)) blocks'
      end
  end.

Definition execBatchBlocks (ctx : context) (statementHandle statementType : Z) (format : option parameterMarkerFormat)
    (rows : list (list NamedValue)) : M batchResult :=
  c ← get;
  bound ← lift (bindRows 0 format (bidiSettingsForConn c) rows);
  match bound with
  | inr e => batchFails 0 e
  | inl bound => execBlocks ctx statementHandle statementType format 0 (blocksOf (length bound) bound)
  end.

Definition execBatchPrepared (ctx : context) (query : bytes) (statementHandle statementType : Z)
    (format : option parameterMarkerFormat) (rows : list (list goAny)) : M batchResult :=
  if statementType =? sqlStatementTypeSelect
  then batchFails 0 (OfBatch (EUnsupported "ExecBatch cannot execute query statements"))
  else
    named ← lift (batchNamedRows 0 rows);
    match named with
    | inr e => batchFails 0 e
    | inl named =>
        c ← get;
        if batchBlockable c query format
        then execBatchBlocks ctx statementHandle statementType format named
        else execBatchRowByRow ctx statementHandle statementType format 0 0 named
    end.

(** [Conn.ExecBatch]. *)
Definition ExecBatch (ctx : context) (query : bytes) (rows : list (list goAny)) : M batchResult :=
  c ← get;
  if negb (IsValid c) then batchFails 0 (OfBatch EBadConn)
  else if len rows =? 0 then affected 0
  else
    rewritten ← attempt (lift (rewriteNamedParams query));
    match rewritten with
    | inr e => batchFails 0 (OfBatch e)
    | inl (rewritten, _) =>
        prepared ← attempt (prepareTransientStatement ctx rewritten);
        match prepared with
        | inr e => batchFails 0 (OfBatch e)
        | inl (statementType, statementHandle, statementName, format) =>
            deferring (ignore (closePreparedStatement Background statementName statementHandle))
              (execBatchPrepared ctx rewritten statementHandle statementType format rows)
        end
    end.
End Batch.

(** * Lemmas *)

Lemma sameBindingShape_refl row : sameBindingShape row row = true.
Proof.
  unfold sameBindingShape. rewrite Z.eqb_refl. cbn [andb]. induction row as [|b row IH]; [done|].
  cbn [zip zip_with forallb fst snd]. by rewrite Z.eqb_refl, IH.
Qed.

(** A row may join a block of [count] rows of the shape of [first]. *)
Definition joins (first : list parameterBinding) (count : Z) (row : list parameterBinding) : bool :=
  (count <? maxBlockRows) && sameBindingShape first row && ((count + 1) * bindingRowBytes first <=? maxBlockBytes).

Lemma blockLength_cons first count row rows :
  blockLength first count (row :: rows) = if joins first count row then blockLength first (count + 1) rows else count.
Proof.
  cbn [blockLength]. unfold joins.
  destruct (Z.leb_spec maxBlockRows count), (Z.ltb_spec count maxBlockRows); try lia; [done|]. cbn [andb].
  destruct (sameBindingShape first row); [|done]. cbn [andb negb].
  destruct (Z.ltb_spec maxBlockBytes ((count + 1) * bindingRowBytes first)),
    (Z.leb_spec ((count + 1) * bindingRowBytes first) maxBlockBytes); try lia; done.
Qed.

(** The rows that join, one after the other, and the one that does not. *)
Lemma blockLength_spec first rows : forall count,
  exists k, (k <= length rows)%nat /\ blockLength first count rows = count + Z.of_nat k /\
    (forall i row, (i < k)%nat -> rows !! i = Some row -> joins first (count + Z.of_nat i) row = true) /\
    (forall row, rows !! k = Some row -> joins first (count + Z.of_nat k) row = false).
Proof.
  induction rows as [|row rows IH]; intros count.
  { exists 0%nat. split_and!; [done|cbn; lia|intros; lia|done]. }
  rewrite blockLength_cons. destruct (joins first count row) eqn:Ej.
  - destruct (IH (count + 1)) as (k & Hk & -> & Hin & Hout). exists (S k). split_and!; [cbn; lia|lia| |].
    + intros [|i] row' Hi; cbn; [intros [= <-]; by rewrite Z.add_0_r|]. intros E.
      replace (count + Z.of_nat (S i)) with (count + 1 + Z.of_nat i) by lia. apply Hin; [lia|done].
    + intros row' E. replace (count + Z.of_nat (S k)) with (count + 1 + Z.of_nat k) by lia. by apply Hout.
  - exists 0%nat. split_and!; [lia|lia|intros; lia|]. intros row' [= <-]. by rewrite Z.add_0_r.
Qed.

(** A block: rows of one shape, within the limits on rows and bytes. *)
Definition block_ok (block : list (list parameterBinding)) : Prop :=
  exists first rest, block = first :: rest /\ len block <= maxBlockRows /\
    forallb (sameBindingShape first) block = true /\
    (len block * bindingRowBytes first <= maxBlockBytes \/ rest = []).

(** The first row of the next block could not join this one. *)
Definition block_full (block next : list (list parameterBinding)) : Prop :=
  exists first row, head block = Some first /\ head next = Some row /\ joins first (len block) row = false.

Lemma nextBlock_spec first rows :
  exists block rest, nextBlock first rows = (block, rest) /\ first :: rows = block ++ rest /\ block_ok block /\
    (length rest <= length rows)%nat /\ (forall row rest', rest = row :: rest' -> joins first (len block) row = false) /\
    head block = Some first.
Proof.
  unfold nextBlock. destruct (blockLength_spec first rows 1) as (k & Hk & -> & Hin & Hout).
  replace (Z.to_nat (1 + Z.of_nat k)) with (S k) by lia. rewrite firstn_cons, skipn_cons.
  exists (first :: take k rows), (drop k rows). split; [done|]. split; [cbn; by rewrite take_drop|].
  assert (len (first :: take k rows) = 1 + Z.of_nat k) as Hlen by (unfold len; cbn [length]; rewrite length_take; lia).
  rewrite Hlen. split_and!; [|rewrite length_drop; lia| |done].
  - exists first, (take k rows). split; [done|]. rewrite Hlen.
    assert (forall i row, take k rows !! i = Some row -> (i < k)%nat /\ joins first (1 + Z.of_nat i) row = true) as Hj.
    { intros i row Hi. apply lookup_take_Some in Hi as [Hi Hlt]. split; [done|by apply Hin]. }
    split_and!.
    + destruct k as [|k]; [unfold maxBlockRows; lia|]. destruct (lookup_lt_is_Some_2 rows k ltac:(lia)) as [row Hrow].
      pose proof (Hin k row ltac:(lia) Hrow) as Ej. unfold joins in Ej. bool_facts. lia.
    + cbn [forallb]. rewrite sameBindingShape_refl. apply forallb_forall. intros row Hr%list_elem_of_In.
      apply list_elem_of_lookup_1 in Hr as [i Hi]. apply Hj in Hi as [_ Ej]. unfold joins in Ej. by bool_facts.
    + destruct k as [|k]; [by right; destruct rows|left]. destruct (lookup_lt_is_Some_2 rows k ltac:(lia)) as [row Hrow].
      pose proof (Hin k row ltac:(lia) Hrow) as Ej. unfold joins in Ej. bool_facts. lia.
  - intros row rest' E. apply Hout.
    replace (rows !! k) with (drop k rows !! 0%nat) by (by rewrite lookup_drop, Nat.add_0_r). by rewrite E.
Qed.

(** ** Batches leave the statements of the connection alone *)

Section Steady.
Context `{FloatText} `{CallerMemory} `{TableFS} `{Environment} `{BidiLayout} `{BidiText} `{Sprint}.

Lemma steady_execBatchRowByRow ctx h type format row total rows :
  preserves steady (execBatchRowByRow ctx h type format row total rows).
Proof.
  revert row total. induction rows as [|args rows IH]; intros row total; cbn [execBatchRowByRow]; unfold affected, batchFails;
    [apply preserves_ret, _|]. preserve; apply IH.
Qed.

Lemma steady_execBlock ctx h type format rows : preserves steady (execBlock ctx h type format rows).
Proof. unfold execBlock, runBlock. preserve. Qed.
#[local] Hint Resolve steady_execBlock steady_execBatchRowByRow : steady.

Lemma steady_execBlocks ctx h type format total blocks : preserves steady (execBlocks ctx h type format total blocks).
Proof.
  revert total. induction blocks as [|block blocks IH]; intros total; cbn [execBlocks]; unfold affected, batchFails;
    [apply preserves_ret, _|]. preserve; apply IH.
Qed.
#[local] Hint Resolve steady_execBlocks : steady.

Lemma steady_execBatchPrepared ctx query h type format rows : preserves steady (execBatchPrepared ctx query h type format rows).
Proof. unfold execBatchPrepared, execBatchBlocks, batchFails. preserve. Qed.
End Steady.

#[export] Hint Resolve steady_execBatchPrepared : steady.

Section Same_package.
Context `{FloatText} `{CallerMemory} `{TableFS} `{Environment} `{BidiLayout} `{BidiText} `{Sprint}.

Lemma same_pkg_execBatchRowByRow ctx h type format row total rows :
  preserves same_pkg (execBatchRowByRow ctx h type format row total rows).
Proof.
  revert row total. induction rows as [|args rows IH]; intros row total; cbn [execBatchRowByRow]; unfold affected, batchFails;
    [apply preserves_ret, _|]. preserve; apply IH.
Qed.
Lemma same_pkg_execBlocks ctx h type format total blocks : preserves same_pkg (execBlocks ctx h type format total blocks).
Proof.
  revert total. induction blocks as [|block blocks IH]; intros total; cbn [execBlocks]; unfold affected, batchFails, execBlock, runBlock;
    [apply preserves_ret, _|]. preserve; apply IH.
Qed.
#[local] Hint Resolve same_pkg_execBatchRowByRow same_pkg_execBlocks : steady.
Lemma same_pkg_execBatchPrepared ctx query h type format rows : preserves same_pkg (execBatchPrepared ctx query h type format rows).
Proof. unfold execBatchPrepared, execBatchBlocks, batchFails. preserve. Qed.
End Same_package.

#[export] Hint Resolve same_pkg_execBatchPrepared : steady.

Lemma blocksOf_head fuel rows block : blocksOf fuel rows !! 0%nat = Some block -> head block = head rows.
Proof.
  destruct fuel as [|fuel], rows as [|first rows]; try done. cbn [blocksOf].
  destruct (nextBlock_spec first rows) as (b & rest & -> & _ & _ & _ & _ & Hh). by intros [= <-].
Qed.

Lemma blocksOf_spec fuel : forall rows, (length rows <= fuel)%nat ->
  concat (blocksOf fuel rows) = rows /\ Forall block_ok (blocksOf fuel rows) /\
  (forall i block next, blocksOf fuel rows !! i = Some block -> blocksOf fuel rows !! S i = Some next -> block_full block next).
Proof.
  induction fuel as [|fuel IH]; intros [|first rows] Hf; cbn [length] in Hf; try (split_and!; [done|by constructor|done]); [lia|].
  cbn [blocksOf]. destruct (nextBlock_spec first rows) as (b & rest & -> & Ecat & Hok & Hlen & Hstop & Hh).
  destruct (IH rest ltac:(lia)) as (Hc & Hall & Hadj). split_and!.
  - cbn [concat]. by rewrite Hc, Ecat.
  - by constructor.
  - intros [|i] block next Eb En; cbn in Eb, En; [|by eapply Hadj]. injection Eb as <-.
    apply blocksOf_head in En as Hn. destruct rest as [|row rest]; [by destruct fuel|].
    exists first, row. split_and!; [done|done|by eapply Hstop].
Qed.

(** * Properties *)

(** The blocks of a batch are its rows, in order.  Every block holds at
    least one row, only rows of one shape, at most 32000 of them and, unless
    it is a single row, at most 1 MiB of values; no block could take the first
    row of the next one; and the payload of a block can always be built. *)
Theorem batch_blocks_cover (rows : list (list parameterBinding)) :
  let blocks := blocksOf (length rows) rows in
  concat blocks = rows /\ Forall block_ok blocks /\
  (forall i block next, blocks !! i = Some block -> blocks !! S i = Some next -> block_full block next) /\
  (forall format block, block ∈ blocks -> len (hd [] block) <= 0xFFFF ->
     exists payload, buildBlockParameterMarkerData format block = Ret payload).
Proof.
  cbv zeta. destruct (blocksOf_spec (length rows) rows) as (Hc & Hall & Hadj); [done|]. split_and!; [done..|].
  intros format block Hb Hcols. rewrite Forall_forall in Hall. destruct (Hall _ Hb) as (first & rest & -> & _ & Hs & _).
  cbn [hd] in Hcols. unfold buildBlockParameterMarkerData, ensure. rewrite Hs, (proj2 (Z.leb_le _ _)) by done.
  case_match; by eexists.
Qed.

Section Properties.
Context `{FloatText} `{CallerMemory} `{TableFS} `{Environment} `{BidiLayout} `{BidiText} `{Sprint}.

(** A batch takes a statement id only for the time it runs, whatever it
    returns and however far it came, as [exec_releases_its_id] says of one
    execution. *)
Theorem exec_batch_releases_its_id (ctx : context) (query : bytes) (rows : list (list goAny)) (c : Conn) :
  match ExecBatch ctx query rows c with
  | (Panic, _) => True
  | (_, c') =>
      usedStatementHandles c' = usedStatementHandles c \/ blank_in_package c'
  end.
Proof.
  unfold ExecBatch. unfold mbind at 1, M_bind. cbn [get]. destruct (IsValid c); cbn [negb]; [|by left].
  destruct (len rows =? 0); [by left|]. unfold mbind at 1, M_bind, attempt at 1, lift.
  destruct (rewriteNamedParams query) as [[rewritten names]|e|]; [|by left|done].
  unfold mbind, M_bind, attempt.
  destruct (prepareTransientStatement ctx rewritten c) as [[[[[type h] name] format]|e|] c1] eqn:Ep;
    apply prepareTransientStatement_ids in Ep; [|by left|done].
  destruct Ep as (Hh & Hfree & Hc1 & Hname).
  destruct (deferring _ _ c1) as [r c2] eqn:Ed. apply (closing_releases _ _ _ c) in Ed; [|done..|preserve|preserve]. by destruct r.
Qed.
End Properties.
