(* ===== verification/Stmt.v ===== *)
(** Prepared statements and the entry points of a connection (stmt.go,
    driver.go, generatedkeys.go): the life of a [Stmt], the statements the cache
    hands out, [ExecContext] and [QueryContext] of connections and statements,
    and the key of an insert.

    The mutex and the condition variable of a [Stmt] appear as the steps of a
    transition system; the operations on the connection are computations that
    take the [Stmt] and return it.  The goroutine that closes an evicted
    statement runs where it is started. *)
From Stdlib Require Import Strings.String.
From stdpp Require Import base list numbers strings gmap relations.
From S2P Require Import Prelude GoStrings Values Utf Ccsid Wire Reply Format Request Sqlca Describe Config Package StatementCache Columns Encoding Placeholders Session Statements Transaction Rows Binding GeneratedKeys Batch.
Open Scope Z_scope.

(** ** The statement *)

Record Stmt := mkStmt {
  stmtQuery : bytes;
  stmtName : bytes;
  stmtHandle : Z;
  stmtType : Z;
  stmtFormat : option parameterMarkerFormat;
  paramNames : list bytes;
  stmtClosed : bool;
  active : Z;
}.

Definition newStmt (query name : bytes) (handle type : Z) (format : option parameterMarkerFormat) (names : list bytes) : Stmt :=
  mkStmt query name handle type format names false 0.

Definition withActive (s : Stmt) (n : Z) : Stmt :=
  mkStmt (stmtQuery s) (stmtName s) (stmtHandle s) (stmtType s) (stmtFormat s) (paramNames s) (stmtClosed s) n.
Definition withStmtClosed (s : Stmt) : Stmt :=
  mkStmt (stmtQuery s) (stmtName s) (stmtHandle s) (stmtType s) (stmtFormat s) (paramNames s) true (active s).

Definition acquire (s : Stmt) : outcome Stmt :=
  if stmtClosed s then Fail EConnectionClosed else Ret (withActive s (active s + 1)).

Definition release (s : Stmt) : Stmt := if 0 <? active s then withActive s (active s - 1) else s.

(** [Close] up to the wait: a statement that is already closed is left alone. *)
Definition beginClose (s : Stmt) : option Stmt := if stmtClosed s then None else Some (withStmtClosed s).

(** The condition that ends the wait. *)
Definition closeMayFinish (s : Stmt) : bool := negb (0 <? active s).

Definition checkClosed (s : Stmt) : outcome unit := if stmtClosed s then Fail EConnectionClosed else Ret tt.

Definition NumInput (s : Stmt) : Z :=
  match stmtFormat s with
  | Some format => parameterCount (Some format)
  | None => match countSQLPlaceholders (stmtQuery s) with Ret n => n | _ => -1 end
  end.

(** ** Uses and closes in any order

    [holders] are the uses that have not been released: an execution that runs,
    or rows that are open.  [waiting] is a [Close] in its wait, [finished] how
    often the statement was closed on the server. *)
Record lifecycle := mkLifecycle { stmt : Stmt; holders : nat; waiting : bool; finished : nat }.

Inductive lifeStep : lifecycle -> lifecycle -> Prop :=
| life_acquire s s' n w k : acquire s = Ret s' -> lifeStep (mkLifecycle s n w k) (mkLifecycle s' (S n) w k)
| life_refused s e n w k : acquire s = Fail e -> lifeStep (mkLifecycle s n w k) (mkLifecycle s n w k)
| life_release s n w k : lifeStep (mkLifecycle s (S n) w k) (mkLifecycle (release s) n w k)
| life_close s s' n w k : beginClose s = Some s' -> lifeStep (mkLifecycle s n w k) (mkLifecycle s' n true k)
| life_close_again s n w k : beginClose s = None -> lifeStep (mkLifecycle s n w k) (mkLifecycle s n w k)
| life_finish s n k : closeMayFinish s = true -> lifeStep (mkLifecycle s n true k) (mkLifecycle s n false (S k)).

Definition born (l : lifecycle) : Prop :=
  stmtClosed (stmt l) = false /\ active (stmt l) = 0 /\ holders l = 0%nat /\ waiting l = false /\ finished l = 0%nat.

Section Operations.
Context `{FloatText} `{CallerMemory} `{TableFS} `{Environment} `{BidiLayout} `{BidiText} `{Sprint}.

(** The end of [Stmt.Close]. *)
Definition finishClose (s : Stmt) : M unit :=
  c ← get;
  if (len (stmtName s) =? 0) || negb (IsValid c) then mret tt
  else closePreparedStatement Background (stmtName s) (stmtHandle s).

Definition prepareStmt (ctx : context) (query : bytes) : M Stmt :=
  c ← get;
  match ctxErr ctx (clock c) with
  | Some e => fail e
  | None =>
      if negb (IsValid c) then fail EBadConn
      else
        '(rewritten, names) ← lift (rewriteNamedParams query);
        '(statementName, statementHandle) ← nextStatementName;
        let statementType := classifySQLStatement rewritten in
        '(preparedName, format) ←
          onFailure (discardStatement ctx statementName statementHandle)
            (prepareOrReuse ctx statementHandle statementName rewritten);
        mret (newStmt rewritten preparedName statementHandle statementType format names)
  end.

(** ** The statements of the cache *)

Definition modifyCache (f : stmtCache -> stmtCache) : M unit := modify (fun c => set_stmtCaching c (f (stmtCaching c))).

Definition cachedAt (id : nat) : M (option cachedStatement) := c ← get; mret (heap (stmtCaching c) !! id).

Definition closeCached (id : nat) : M unit :=
  st ← cachedAt id;
  match st with
  | None => mret tt
  | Some st => ignore (closePreparedStatement Background (cachedName st) (cachedHandle st))
  end.

(** The statement a critical section left to close. *)
Definition closeVictim (victim : option nat) : M unit :=
  match victim with Some id => closeCached id | None => mret tt end.

(** A new [cachedStatement] is a fresh address. *)
Definition freshAddress (cache : stmtCache) : nat := fresh (dom (heap cache)).

Definition insertPrepared (query : bytes) (prepared : cachedStatement) : M nat :=
  c ← get;
  let id := freshAddress (stmtCaching c) in
  '(r, cache) ← lift (insertSection (StatementCacheSize (cfg c)) query id prepared (stmtCaching c));
  modifyCache (fun _ => cache);;
  closeVictim (closeNow r);;
  mret (useId r).

Definition cachedPreparedStatement (ctx : context) (query : bytes) : M nat :=
  c ← get;
  let '(hit, cache) := lookupSection query (stmtCaching c) in
  modifyCache (fun _ => cache);;
  match hit with
  | Some id => mret id
  | None =>
      '(type, handle, name, format) ← prepareTransientStatement ctx query;
      insertPrepared query (mkStatement type handle name format 0 false)
  end.

Definition releaseCachedStatement (id : nat) : M unit :=
  c ← get;
  let '(victim, cache) := releaseSection id (stmtCaching c) in
  modifyCache (fun _ => cache);;
  closeVictim victim.

(** The statement behind an address the cache gave out. *)
Definition usingCached {A} (id : nat) (use : cachedStatement -> M A) : M A :=
  st ← cachedAt id;
  match st with None => lift Panic | Some st => use st end.

Definition execPreparedCached (ctx : context) (query : bytes) (args : list NamedValue) : M execResult :=
  c ← get;
  if StatementCacheSize (cfg c) <=? 0 then execPreparedTransient ctx query args
  else
    id ← cachedPreparedStatement ctx query;
    deferring (releaseCachedStatement id)
      (usingCached id (fun st => execPrepared ctx (cachedHandle st) (cachedType st) (cachedFormat st) args)).

Definition queryPreparedCached (ctx : context) (query : bytes) (args : list NamedValue) : M queryRows :=
  c ← get;
  if StatementCacheSize (cfg c) <=? 0 then queryPreparedTransient ctx query args
  else
    id ← cachedPreparedStatement ctx query;
    usingCached id (fun st =>
      rows ← onFailure (releaseCachedStatement id)
        (queryPreparedWithArgs ctx (cachedHandle st) (cachedName st) (cachedFormat st) args);
      let rows := markStoredProcResult rows (cachedType st) in
      mret (withOwner rows (ownStatement rows) (Some (ReleaseCached id)))).

(** ** Entry points of the connection *)

Definition QueryContext (ctx : context) (query : bytes) (args : list NamedValue) : M queryRows :=
  c ← get;
  if negb (IsValid c) then fail EBadConn
  else if len args =? 0 then queryContext ctx query
  else
    '(rewritten, names) ← lift (rewriteNamedParams query);
    ordered ← lift (reorderNamedArgs names args);
    queryPreparedCached ctx rewritten ordered.

(** Rows of the cache give their statement back when they are closed. *)
Definition releaseRows (before after : queryRows) : M unit :=
  match releaseStmt before, releaseStmt after with
  | Some (ReleaseCached id), None => releaseCachedStatement id
  | _, _ => mret tt
  end.

Definition NextRow (r : queryRows) : M (option (rowsResult (list (option driverValue)))) :=
  next ← Next (len (columns (meta r))) r;
  match next with
  | None => mret None
  | Some (result, r') => releaseRows r r';; mret (Some (result, r'))
  end.

Definition CloseRows (r : queryRows) : M (option goerror) :=
  '(e, r') ← Close r;
  releaseRows r r';; mret e.

Definition noKeyColumns : goerror := EText "generated keys: wrapped INSERT returned no columns" [].

(** The loop of [readGeneratedKeyRows], which takes one turn more than there are
    rows; out of fuel is [None].  The text in front of the error of a key is left
    out. *)
Fixpoint readKeys (fuel : nat) (result : execResult) (r : queryRows) : M (option (rowsResult execResult)) :=
  match fuel with
  | O => mret None
  | S fuel' =>
      next ← NextRow r;
      match next with
      | None => mret None
      | Some (inr EEOF, r) => mret (Some (inl result, r))
      | Some (inr e, r) => mret (Some (inr e, r))
      | Some (inl values, r) =>
          match generatedKeyInt64 (default VNil (default None (head values))) with
          | Ret key => readKeys fuel' (mkResult (rowsAffected result + 1) key true) r
          | Fail e => mret (Some (inr e, r))
          | Panic => lift Panic
          end
      end
  end.

Definition readGeneratedKeyRows (fuel : nat) (r : queryRows) : M (option (rowsResult execResult)) :=
  if len (Columns r) =? 0 then mret (Some (inr noKeyColumns, r)) else readKeys fuel (mkResult 0 0 false) r.

Definition execInsertWithGeneratedKey (fuel : nat) (ctx : context) (query : bytes) (args : list NamedValue)
    : M (option execResult) :=
  wrapped ← lift (wrapInsertForGeneratedKeys query);
  rows ← QueryContext ctx wrapped args;
  keys ← readGeneratedKeyRows fuel rows;
  match keys with
  | None => mret None
  | Some (result, rows) =>
      ignore (CloseRows rows);;
      match result with inl result => mret (Some result) | inr e => fail e end
  end.

Definition ExecContext (fuel : nat) (ctx : context) (query : bytes) (args : list NamedValue) : M (option execResult) :=
  c ← get;
  if negb (IsValid c) then fail EBadConn
  else if ReturnGeneratedKeys (Server (cfg c)) && isInsertStatement query then execInsertWithGeneratedKey fuel ctx query args
  else if len args =? 0 then Some <$> execContext ctx query
  else
    '(rewritten, names) ← lift (rewriteNamedParams query);
    ordered ← lift (reorderNamedArgs names args);
    Some <$> execPreparedCached ctx rewritten ordered.

(** ** Entry points of a statement *)

(** The result of an operation on a statement, and the statement. *)
Definition stmtResult (A : Type) : Type := ((A + goerror) * Stmt)%type.

Definition execOn (fuel : nat) (ctx : context) (s : Stmt) (args : list NamedValue) : M (option execResult) :=
  c ← get;
  if negb (IsValid c) then fail EBadConn
  else if ReturnGeneratedKeys (Server (cfg c)) && (len (paramNames s) =? 0) && isInsertStatement (stmtQuery s)
  then execInsertWithGeneratedKey fuel ctx (stmtQuery s) args
  else if negb (len (stmtName s) =? 0) && bool_decide (is_Some (stmtFormat s)) then
    ordered ← lift (reorderNamedArgs (paramNames s) args);
    Some <$> execPrepared ctx (stmtHandle s) (stmtType s) (stmtFormat s) ordered
  else if len args =? 0 then Some <$> execContext ctx (stmtQuery s)
  else fail EBindingUnsupported.

Definition StmtExecContext (fuel : nat) (ctx : context) (s : Stmt) (args : list NamedValue)
    : M (stmtResult (option execResult)) :=
  match acquire s with
  | Ret s => result ← attempt (execOn fuel ctx s args); mret (result, release s)
  | Fail e => mret (inr e, s)
  | Panic => lift Panic
  end.

Definition stmtRows (s : Stmt) (rows : queryRows) : queryRows :=
  let rows := markStoredProcResult rows (stmtType s) in withOwner rows (ownStatement rows) (Some ReleaseStmt).

(** The rows hold the statement until they are closed; a failure gives it
    back. *)
Definition holdingStmt (s : Stmt) (m : M queryRows) : M (stmtResult queryRows) :=
  rows ← attempt m;
  match rows with
  | inr e => mret (inr e, release s)
  | inl rows => mret (inl (stmtRows s rows), s)
  end.

Definition StmtQueryContext (ctx : context) (s : Stmt) (args : list NamedValue) : M (stmtResult queryRows) :=
  match acquire s with
  | Fail e => mret (inr e, s)
  | Panic => lift Panic
  | Ret s =>
      c ← get;
      if negb (IsValid c) then mret (inr EBadConn, release s)
      else if negb (len (stmtName s) =? 0) && (len args =? 0) then
        holdingStmt s (if stmtType s =? sqlStatementTypeCall then queryCallRows ctx (stmtHandle s) (stmtName s)
                       else queryPrepared ctx (stmtHandle s) (stmtName s))
      else if negb (len (stmtName s) =? 0) && bool_decide (is_Some (stmtFormat s)) && (0 <? len args) then
        match reorderNamedArgs (paramNames s) args with
        | Fail e => mret (inr e, s)
        | Panic => lift Panic
        | Ret ordered => holdingStmt s (queryPreparedWithArgs ctx (stmtHandle s) (stmtName s) (stmtFormat s) ordered)
        end
      else mret (inr EBindingUnsupported, release s)
  end.

(** [Stmt.ExecBatch]. *)
Definition StmtExecBatch (ctx : context) (s : Stmt) (rows : list (list goAny)) : M (batchResult * Stmt) :=
  match acquire s with
  | Fail e => mret ((0, Some (OfBatch e)), s)
  | Panic => lift Panic
  | Ret s =>
      c ← get;
      result ←
        (if negb (IsValid c) then batchFails 0 (OfBatch EBadConn)
         else if (len (stmtName s) =? 0) || bool_decide (stmtFormat s = None) then batchFails 0 (OfBatch EBindingUnsupported)
         else if len rows =? 0 then affected 0
         else execBatchPrepared ctx (stmtQuery s) (stmtHandle s) (stmtType s) (stmtFormat s) rows);
      mret (result, release s)
  end.

(** The arguments of the deprecated [Exec] and [Query]. *)
Fixpoint positional (ordinal : Z) (args : list driverValue) : list NamedValue :=
  match args with
  | [] => []
  | v :: args' => mkNamedValue [] ordinal (Native v) :: positional (ordinal + 1) args'
  end.

Definition Exec (fuel : nat) (s : Stmt) (args : list driverValue) : M (stmtResult (option execResult)) :=
  StmtExecContext fuel Background s (positional 1 args).
Definition Query (s : Stmt) (args : list driverValue) : M (stmtResult queryRows) :=
  StmtQueryContext Background s (positional 1 args).
End Operations.

(** * Lemmas *)

(** ** The life of a statement *)

Record life_ok (l : lifecycle) : Prop := {
  life_active : active (stmt l) = Z.of_nat (holders l);
  life_closes : (finished l + (if waiting l then 1 else 0) = if stmtClosed (stmt l) then 1 else 0)%nat;
  life_done : finished l = 1%nat -> holders l = 0%nat;
}.

Lemma life_ok_born l : born l -> life_ok l.
Proof. intros (Hc & Ha & Hh & Hw & Hf). constructor; rewrite ?Hh, ?Hw, ?Hf, ?Hc; done. Qed.

Lemma life_ok_step l l' : lifeStep l l' -> life_ok l -> life_ok l'.
Proof.
  intros Hstep [Ha Hc Hd]. destruct Hstep as [s s' n w k E|s e n w k E|s n w k|s s' n w k E|s n w k E|s n k E]; cbn in *; try done.
  - unfold acquire in E. destruct (stmtClosed s) eqn:Es; [done|]. injection E as <-. constructor; cbn; [lia|by rewrite Es|].
    intros ->. by destruct w.
  - unfold release. rewrite Ha. destruct (Z.ltb_spec 0 (Z.of_nat (S n))); [|lia]. constructor; cbn; [lia|done|]. intros Hk. by apply Hd in Hk.
  - unfold beginClose in E. destruct (stmtClosed s) eqn:Es; [done|]. injection E as <-. constructor; cbn; [done|destruct w; lia|].
    intros ->. by destruct w.
  - unfold closeMayFinish in E. rewrite Ha in E. destruct (Z.ltb_spec 0 (Z.of_nat n)); [done|]. constructor; cbn; [done| |lia].
    destruct (stmtClosed s); lia.
Qed.

(** The releases that end a wait. *)
Lemma releases_finish s n k :
  active s = Z.of_nat n -> exists s', nsteps lifeStep (S n) (mkLifecycle s n true k) (mkLifecycle s' 0 false (S k)).
Proof.
  revert s. induction n as [|n IH]; intros s Ha.
  - exists s. eapply nsteps_l; [|by apply nsteps_O]. apply life_finish. unfold closeMayFinish. by rewrite Ha.
  - destruct (IH (release s)) as [s' Hs].
    { unfold release. rewrite Ha. destruct (Z.ltb_spec 0 (Z.of_nat (S n))); [cbn; lia|lia]. }
    exists s'. eapply nsteps_l; [apply life_release|exact Hs].
Qed.

(** ** The statements of the cache and their ids *)

(** What the server knows a cached statement by. *)
Definition identity (s : cachedStatement) : Z * bytes := (cachedHandle s, cachedName s).
Definition identityAt (cache : stmtCache) (i : nat) : option (Z * bytes) := identity <$> heap cache !! i.

Lemma identity_updateHeap cache id f i :
  (forall s, identity (f s) = identity s) -> identityAt (updateHeap cache id f) i = identityAt cache i.
Proof.
  intros Hf. unfold identityAt, updateHeap. cbn [heap]. destruct (decide (i = id)) as [->|].
  - rewrite lookup_alter_eq. destruct (heap cache !! id); cbn; [by rewrite Hf|done].
  - by rewrite lookup_alter_ne.
Qed.

Lemma identity_insert h i id s : identity <$> (<[id := s]> h : gmap nat cachedStatement) !! i =
  if decide (i = id) then Some (identity s) else identity <$> h !! i.
Proof. destruct (decide (i = id)) as [->|]; [by rewrite lookup_insert_eq|by rewrite lookup_insert_ne]. Qed.

Lemma identity_lookup query r cache cache' i :
  lookupSection query cache = (r, cache') -> identityAt cache' i = identityAt cache i.
Proof. unfold lookupSection. destruct (_ !! query); intros [= <- <-]; [by rewrite identity_updateHeap|done]. Qed.

Lemma identity_release id r cache cache' i :
  releaseSection id cache = (r, cache') -> identityAt cache' i = identityAt cache i.
Proof.
  unfold releaseSection. destruct (heap cache !! id) as [s|] eqn:Es; intros [= <- <-]; [|done]. unfold identityAt. cbn [heap].
  rewrite identity_insert. destruct (decide (i = id)) as [->|]; [|done]. rewrite Es. cbn. by destruct (0 <? refs s).
Qed.

Lemma identity_evict cache r cache' i : evictOldest cache = Ret (r, cache') -> identityAt cache' i = identityAt cache i.
Proof.
  unfold evictOldest. destruct (statementCacheOrder cache) as [|key order]; [done|]. destruct (_ !! key) as [id|]; [|done].
  destruct (heap cache !! id) as [s|] eqn:Es; [|done]. intros [= _ <-]. unfold identityAt. cbn [heap]. rewrite identity_insert.
  destruct (decide (i = id)) as [->|]; [|done]. by rewrite Es.
Qed.

Lemma identity_insertSection capacity query id st cache r cache' i :
  insertSection capacity query id st cache = Ret (r, cache') ->
  identityAt cache' i = if decide (i = id) then Some (identity st) else identityAt cache i.
Proof.
  unfold insertSection. destruct (_ !! query) as [existing|].
  - intros [= _ <-]. rewrite identity_updateHeap by done. unfold identityAt. cbn [heap]. apply identity_insert.
  - destruct (if capacity <=? _ then _ else _) as [[victim cache1]|e|] eqn:Ev; cbn [mbind outcome_bind]; [|done|done].
    destruct (statementCache cache1); [|done]. intros [= _ <-]. unfold identityAt. cbn [heap]. rewrite identity_insert.
    destruct (decide (i = id)); [done|]. change (identityAt cache1 i = identityAt cache i).
    destruct (capacity <=? _); [by eapply identity_evict|by injection Ev as _ <-].
Qed.

(** [base] are the ids in use for other things than the cache; the ids of the
    statements that are not closed, [known] by their ids and names, are in use
    besides, each for one statement. *)
Record ids_ok (base : gset Z) (cl : list nat) (known : nat -> option (Z * bytes)) (used : gset Z) : Prop := {
  ids_live : forall i h name, i ∉ cl -> known i = Some (h, name) -> 1 <= h /\ (h ∉ base) /\ ~ blank name /\ h ∈ used;
  ids_inj : forall i j h n1 n2, i ∉ cl -> j ∉ cl -> known i = Some (h, n1) -> known j = Some (h, n2) -> i = j;
  ids_used : forall h, h ∈ used -> h ∈ base \/ exists i name, (i ∉ cl) /\ known i = Some (h, name);
  ids_base : base ⊆ used;
}.

Lemma ids_ok_ext base cl known known' used :
  (forall i, known' i = known i) -> ids_ok base cl known used -> ids_ok base cl known' used.
Proof. intros E []. constructor; try setoid_rewrite E; done. Qed.

(** An id becomes that of a new statement. *)
Lemma ids_ok_add base cl known used h name id :
  id ∉ cl -> known id = None -> h ∉ base -> 1 <= h -> ~ blank name ->
  ids_ok ({[h]} ∪ base) cl known used ->
  ids_ok base cl (fun i => if decide (i = id) then Some (h, name) else known i) used.
Proof.
  intros Hid Hnew Hfree Hh Hn [Hl Hi Hu Hb].
  assert (forall i n, i ∉ cl -> known i = Some (h, n) -> False) as Hno.
  { intros i n Hni E. destruct (Hl i h n Hni E) as (_ & Hf & _). apply Hf. by apply elem_of_union_l, elem_of_singleton. }
  constructor.
  - intros i h' n Hni. destruct (decide (i = id)) as [->|]; [intros [= <- <-]|intros E].
    + split_and!; [done..|]. apply Hb. by apply elem_of_union_l, elem_of_singleton.
    + destruct (Hl i h' n Hni E) as (? & Hf & ? & ?). split_and!; [done| |done|done]. intros Hin. apply Hf. by apply elem_of_union_r.
  - intros i j h' n1 n2 Hni Hnj. destruct (decide (i = id)) as [->|], (decide (j = id)) as [->|]; try done.
    + intros [= <- <-] E. by destruct (Hno j n2).
    + intros E [= <- <-]. by destruct (Hno i n1).
    + by apply Hi.
  - intros h' Hin. destruct (Hu h' Hin) as [[->%elem_of_singleton|]%elem_of_union|(i & n & Hni & E)].
    + right. exists id, name. by rewrite decide_True.
    + by left.
    + right. exists i, n. rewrite decide_False; [done|]. intros ->. congruence.
  - intros h' Hin. apply Hb. by apply elem_of_union_r.
Qed.

(** The id of a statement that the cache gives up is in use until it is closed. *)
Lemma ids_ok_retire base cl known used v h name :
  v ∉ cl -> known v = Some (h, name) -> ids_ok base cl known used -> ids_ok ({[h]} ∪ base) (v :: cl) known used.
Proof.
  intros Hv Ev [Hl Hi Hu Hb]. destruct (Hl _ _ _ Hv Ev) as (_ & _ & _ & Hused). constructor.
  - intros i h' n [Hne Hni]%not_elem_of_cons E. destruct (Hl i h' n Hni E) as (? & ? & ? & ?).
    split_and!; [done| |done|done]. intros [->%elem_of_singleton|]%elem_of_union; [|done]. apply Hne. by eapply Hi.
  - intros i j h' n1 n2 [_ Hni]%not_elem_of_cons [_ Hnj]%not_elem_of_cons. by apply Hi.
  - intros h' Hh. destruct (Hu h' Hh) as [Hin|(i & n & Hni & E)]; [left; by apply elem_of_union_r|].
    destruct (decide (i = v)) as [->|Hne]; [|right; exists i, n; by rewrite not_elem_of_cons].
    left. rewrite Ev in E. injection E as <- _. by apply elem_of_union_l, elem_of_singleton.
  - intros h' [->%elem_of_singleton|Hin]%elem_of_union; [done|by apply Hb].
Qed.

(** An id that was free is in use for something new. *)
Lemma ids_ok_take base cl known used h :
  h ∉ used -> ids_ok base cl known used -> ids_ok ({[h]} ∪ base) cl known ({[h]} ∪ used).
Proof.
  intros Hfree [Hl Hi Hu Hb]. constructor; [|done| |by apply union_mono_l].
  - intros i h' n Hni E. destruct (Hl i h' n Hni E) as (? & ? & ? & ?). split_and!; [done| |done|by apply elem_of_union_r].
    by intros [->%elem_of_singleton|]%elem_of_union.
  - intros h' [Hin|Hin]%elem_of_union; [left; by apply elem_of_union_l|]. destruct (Hu h' Hin); [left; by apply elem_of_union_r|by right].
Qed.

(** Closing gives an id back. *)
Lemma ids_ok_close base cl known used h :
  h ∉ base -> ids_ok ({[h]} ∪ base) cl known used -> ids_ok base cl known (used ∖ {[h]}).
Proof.
  intros Hfree [Hl Hi Hu Hb]. constructor; [|done| |].
  - intros i h' n Hni E. destruct (Hl i h' n Hni E) as (? & Hf & ? & ?).
    split_and!; [done| |done|]; [intros Hin; apply Hf; by apply elem_of_union_r|].
    apply elem_of_difference. split; [done|]. intros ->%elem_of_singleton. apply Hf. by apply elem_of_union_l, elem_of_singleton.
  - intros h' [Hin Hne]%elem_of_difference. destruct (Hu h' Hin) as [[|]%elem_of_union|]; [done|by left|by right].
  - intros h' Hin. apply elem_of_difference. split; [apply Hb; by apply elem_of_union_r|]. by intros ->%elem_of_singleton.
Qed.

(** The cache of a connection, its uses and the statements closed so far. *)
Record owned (base : gset Z) (us cl : list nat) (c : Conn) : Prop := {
  own_wf : exists index, wf (StatementCacheSize (cfg c)) (mkSystem (stmtCaching c) us cl) index;
  own_ids : ids_ok base cl (identityAt (stmtCaching c)) (usedStatementHandles c);
}.

Lemma owned_same base us cl c c' :
  same_caching c c' -> same_handles c c' -> owned base us cl c -> owned base us cl c'.
Proof. unfold same_handles. intros [Ec Eg] Eh []. by constructor; rewrite ?Ec, ?Eg, ?Eh. Qed.

Lemma owned_lookup base us cl c query r cache :
  lookupSection query (stmtCaching c) = (r, cache) -> owned base us cl c ->
  owned base (option_list r ++ us) cl (set_stmtCaching c cache).
Proof.
  intros E [[index Hwf] Hids]. split; [exists index; by eapply wf_lookup|].
  eapply ids_ok_ext; [|exact Hids]. intros i. by eapply identity_lookup.
Qed.

(** The victim of a critical section still has to be closed. *)
Definition owned_but (victim : option nat) (base : gset Z) (us cl : list nat) (c : Conn) : Prop :=
  match victim with
  | None => owned base us cl c
  | Some v => exists h name, identityAt (stmtCaching c) v = Some (h, name) /\ 1 <= h /\ (h ∉ base) /\ ~ blank name /\
      owned ({[h]} ∪ base) us (v :: cl) c
  end.

Lemma owned_section base us cl c cache victim index :
  wf (StatementCacheSize (cfg c)) (mkSystem cache us (option_list victim ++ cl)) index ->
  ids_ok base cl (identityAt cache) (usedStatementHandles c) ->
  owned_but victim base us cl (set_stmtCaching c cache).
Proof.
  intros Hwf Hids. destruct victim as [v|]; cbn [option_list app owned_but] in *; [|split; [by exists index|done]].
  assert (v ∉ cl) as Hv by by destruct Hwf as [_ _ _ _ _ _ _ _ [Hv _]%NoDup_cons _ _].
  assert (is_Some (heap cache !! v)) as [s Hs] by by destruct Hwf as [_ _ _ _ _ _ _ _ _ Hc _]; apply Hc; left.
  assert (identityAt cache v = Some (cachedHandle s, cachedName s)) as Ev by (unfold identityAt; by rewrite Hs).
  destruct (ids_live _ _ _ _ Hids _ _ _ Hv Ev) as (L1 & L2 & L3 & _).
  exists (cachedHandle s), (cachedName s). split_and!; [done..|]. split; [by exists index|]. by eapply ids_ok_retire.
Qed.

Lemma freshAddress_new cache : heap cache !! freshAddress cache = None.
Proof. apply not_elem_of_dom. unfold freshAddress. apply is_fresh. Qed.

Lemma owned_insert base us cl c query st :
  1 <= StatementCacheSize (cfg c) -> evicted st = false -> cachedHandle st ∉ base ->
  1 <= cachedHandle st -> ~ blank (cachedName st) -> owned ({[cachedHandle st]} ∪ base) us cl c ->
  exists r cache,
    insertSection (StatementCacheSize (cfg c)) query (freshAddress (stmtCaching c)) st (stmtCaching c) = Ret (r, cache) /\
    owned_but (closeNow r) base (useId r :: us) cl (set_stmtCaching c cache).
Proof.
  intros Hcap He Hfree Hh Hn [[index Hwf] Hids]. pose proof (freshAddress_new (stmtCaching c)) as Hnew.
  destruct (wf_insert _ query _ st _ _ _ _ Hcap Hnew He Hwf) as (r & cache & index' & E & Hwf'). exists r, cache. split; [done|].
  eapply owned_section; [exact Hwf'|]. eapply ids_ok_ext; [intros i; by eapply identity_insertSection|].
  apply ids_ok_add; try done.
  - intros Hin. destruct Hwf as [_ _ _ _ _ _ _ _ _ Hc _]. destruct (Hc _ Hin) as [s Hs]. cbn in Hs. congruence.
  - unfold identityAt. by rewrite Hnew.
Qed.

Lemma owned_release base us1 us2 cl c id victim cache :
  releaseSection id (stmtCaching c) = (victim, cache) -> owned base (us1 ++ id :: us2) cl c ->
  owned_but victim base (us1 ++ us2) cl (set_stmtCaching c cache).
Proof.
  intros E [[index Hwf] Hids]. eapply owned_section; [by eapply wf_release|].
  eapply ids_ok_ext; [|exact Hids]. intros i. by eapply identity_release.
Qed.

Lemma size_list_to_set_le (l : list Z) : (size (list_to_set l : gset Z) <= length l)%nat.
Proof.
  induction l as [|x l IH]; [done|]. rewrite list_to_set_cons, size_union_alt, size_singleton.
  assert ((list_to_set l : gset Z) ∖ {[x]} ⊆ list_to_set l) as Hsub by set_solver.
  apply subseteq_size in Hsub. cbn [length]. lia.
Qed.

(** The ids that a connection uses besides [base] are at most as many as the
    cache holds and as there are uses of cached statements. *)
Lemma owned_size base us cl c :
  owned base us cl c ->
  Z.of_nat (size (usedStatementHandles c)) <= Z.of_nat (size base) + len us + Z.max (StatementCacheSize (cfg c)) 0.
Proof.
  intros [[index Hwf] [_ _ Hu _]]. pose proof (wf_capacity _ _ _ Hwf) as Hsize. cbn [cache] in Hsize.
  set (ids := (snd <$> map_to_list index) ++ us).
  set (handles := (fun id => from_option fst 0 (identityAt (stmtCaching c) id)) <$> ids).
  assert (usedStatementHandles c ⊆ base ∪ list_to_set handles) as Hsub.
  { intros h Hh. destruct (Hu h Hh) as [Hin|(i & name & Hni & E)]; [by apply elem_of_union_l|]. apply elem_of_union_r.
    apply elem_of_list_to_set, list_elem_of_fmap. exists i. split; [by rewrite E|].
    unfold identityAt in E. destruct (heap (stmtCaching c) !! i) as [s|] eqn:Es; [|done].
    pose proof (wf_evicted _ _ _ Hwf i s Es Hni) as Hev. pose proof (wf_refs _ _ _ Hwf i s Es Hni) as Hr.
    cbn in Hr. apply elem_of_app. destruct (evicted s).
    - right. destruct (decide (i ∈ us)) as [|Hn]; [done|]. apply uses_not_in in Hn. lia.
    - left. destruct Hev as [query Hq]. apply list_elem_of_fmap. exists (query, i). split; [done|]. by apply elem_of_map_to_list. }
  apply subseteq_size in Hsub. pose proof (size_list_to_set_le handles) as Hle.
  assert (length handles = (size index + length us)%nat) as Hlen
    by (unfold handles, ids; by rewrite length_fmap, length_app, length_fmap, fin_maps.length_map_to_list).
  rewrite size_union_alt in Hsub. unfold len.
  assert ((list_to_set handles : gset Z) ∖ base ⊆ list_to_set handles) as Hd%subseteq_size by set_solver. lia.
Qed.

Section Caching.
Context `{FloatText} `{CallerMemory} `{TableFS} `{Environment} `{BidiLayout} `{BidiText} `{Sprint}.

Lemma same_pkg_modifyCache f : preserves same_pkg (modifyCache f).
Proof. by intros ? ? ? [= _ <-]. Qed.
Lemma same_pkg_closeVictim victim : preserves same_pkg (closeVictim victim).
Proof. unfold closeVictim, closeCached, cachedAt. preserve. Qed.
#[local] Hint Resolve same_pkg_modifyCache same_pkg_closeVictim : steady.
Lemma same_pkg_insertPrepared query st : preserves same_pkg (insertPrepared query st).
Proof. unfold insertPrepared. preserve. Qed.
Lemma same_pkg_releaseCachedStatement id : preserves same_pkg (releaseCachedStatement id).
Proof. unfold releaseCachedStatement. preserve. Qed.
#[local] Hint Resolve same_pkg_insertPrepared same_pkg_releaseCachedStatement : steady.

(** Closing the victim of a section. *)
Lemma owned_closing victim base us cl c r c' :
  owned_but victim base us cl c -> closeVictim victim c = (r, c') ->
  exists cl', owned base us cl' c'.
Proof.
  destruct victim as [v|]; cbn [owned_but closeVictim]; [|intros Ho [= _ <-]; by exists cl].
  intros (h & name & Ev & Hh & Hfree & Hn & Ho) E. exists (v :: cl). unfold closeCached, cachedAt, mbind, M_bind, get in E.
  unfold identityAt in Ev. cbn in E. destruct (heap (stmtCaching c) !! v) as [st|]; [|done]. injection Ev as <- <-.
  apply ignore_state in E as [r1 E]. kept same_caching in E as K. apply closePreparedStatement_releases in E; [|done..].
  destruct Ho as [[index Hwf] Hids], K as [Ec Eg]. split; rewrite Ec, ?Eg; [by exists index|]. rewrite E. by apply ids_ok_close.
Qed.

Lemma insertPrepared_owned query st base us cl c r c' :
  1 <= StatementCacheSize (cfg c) -> evicted st = false -> cachedHandle st ∉ base ->
  1 <= cachedHandle st -> ~ blank (cachedName st) -> owned ({[cachedHandle st]} ∪ base) us cl c ->
  insertPrepared query st c = (r, c') ->
  match r with Ret id => exists cl', owned base (id :: us) cl' c' | Fail _ => False | Panic => True end.
Proof.
  intros Hcap He Hfree Hh Hn Ho E. destruct (owned_insert base us cl c query st) as (res & cache & Ei & Hb); [done..|].
  unfold insertPrepared in E. unfold mbind at 1, M_bind at 1, get at 1, lift, mbind at 1, M_bind at 1 in E. rewrite Ei in E.
  unfold modifyCache, modify, mbind at 1, M_bind at 1 in E. unfold mbind, M_bind in E.
  destruct (closeVictim (closeNow res) _) as [[u|e|] c2] eqn:Ec.
  - injection E as <- <-. by eapply owned_closing.
  - destruct (closeNow res) as [v|]; [|done]. unfold closeVictim, closeCached, cachedAt, mbind, M_bind, get in Ec. cbn in Ec.
    destruct (heap cache !! v); [|done]. unfold ignore, attempt, mbind, M_bind in Ec. by destruct (closePreparedStatement _ _ _ _) as [[]].
  - by injection E as <- <-.
Qed.

Lemma cachedPreparedStatement_owned ctx query base us cl c r c' :
  1 <= StatementCacheSize (cfg c) -> owned base us cl c -> cachedPreparedStatement ctx query c = (r, c') ->
  match r with
  | Ret id => blank_in_package c' \/ exists cl', owned base (id :: us) cl' c'
  | Fail _ => blank_in_package c' \/ exists cl', owned base us cl' c'
  | Panic => True
  end.
Proof.
  intros Hcap Ho E. unfold cachedPreparedStatement in E. unfold mbind at 1, M_bind at 1, get at 1 in E.
  destruct (lookupSection query (stmtCaching c)) as [hit cache] eqn:El. apply (owned_lookup base us cl c) in El; [|done].
  set (c1 := set_stmtCaching c cache) in *. unfold modifyCache, modify, mbind at 1, M_bind at 1 in E. fold c1 in E.
  destruct hit as [id|]; [injection E as <- <-; right; by exists cl|]. cbn [option_list app] in El.
  unfold mbind at 1, M_bind at 1 in E.
  destruct (prepareTransientStatement ctx query c1) as [[[[[type h] name] format]|e|] c2] eqn:Ep; [| |by injection E as <- <-];
    kept same_caching in Ep as K; apply prepareTransientStatement_ids in Ep.
  - destruct Ep as (Hh & Hfree & Hc2 & Hname). kept same_pkg in E as Kp. destruct (decide (blank name)) as [Hb|Hb].
    { assert (blank_in_package c') as Hbl; [|by destruct r; [left|left|]].
      destruct Hname as [->|(s & Hin & Hu & ->)]; [by apply statementNameOf_not_blank in Hb|].
      exists s. by rewrite (same_pkg_statements _ _ Kp). }
    destruct K as [Ec Eg], El as [[index Hwf] Hids].
    assert (h ∉ base) as Hnb by (intros Hin; by apply Hfree, (ids_base _ _ _ _ Hids)).
    apply (insertPrepared_owned _ _ base us cl) in E; [by destruct r; [right|right|]|by rewrite Eg|done|done|cbn; lia|done|].
    split; rewrite Ec, ?Eg; [by exists index|]. rewrite Hc2. by apply ids_ok_take.
  - injection E as <- <-. right. exists cl. eapply owned_same; [done|done|exact El].
Qed.
Lemma releaseCachedStatement_owned base us1 us2 cl id c r c' :
  owned base (us1 ++ id :: us2) cl c -> releaseCachedStatement id c = (r, c') -> exists cl', owned base (us1 ++ us2) cl' c'.
Proof.
  intros Ho E. unfold releaseCachedStatement, mbind at 1, M_bind at 1, get at 1 in E.
  destruct (releaseSection id (stmtCaching c)) as [victim cache] eqn:Er. apply (owned_release base us1 us2 cl) in Er; [|done].
  unfold modifyCache, modify, mbind, M_bind in E. by eapply owned_closing.
Qed.

(** Running a statement of the cache and giving it back. *)
Lemma execCached_owned base us cl id ctx args c r c' :
  owned base (id :: us) cl c ->
  deferring (releaseCachedStatement id)
    (usingCached id (fun st => execPrepared ctx (cachedHandle st) (cachedType st) (cachedFormat st) args)) c = (r, c') ->
  exists cl', owned base us cl' c'.
Proof.
  intros Ho E. apply deferring_state in E as (r1 & c1 & r2 & E1 & E2 & _). unfold usingCached, cachedAt in E1.
  kept same_caching in E1 as K. kept same_handles in E1 as Kh.
  eapply (releaseCachedStatement_owned base [] us cl id); [|exact E2]. by eapply owned_same.
Qed.

Lemma calm_modifyCache f : preserves calm (modifyCache f).
Proof. intros ? ? ? [= _ <-]. constructor; cbn; try done; exists []; by rewrite app_nil_r. Qed.
#[local] Hint Resolve calm_modifyCache : steady.

Lemma calm_releaseCachedStatement id : preserves calm (releaseCachedStatement id).
Proof. unfold releaseCachedStatement, closeVictim, closeCached, cachedAt. preserve. Qed.
#[local] Hint Resolve calm_releaseCachedStatement : steady.
Lemma calm_cachedPreparedStatement ctx query : preserves calm (cachedPreparedStatement ctx query).
Proof. unfold cachedPreparedStatement, insertPrepared, closeVictim, closeCached, cachedAt. preserve. Qed.
#[local] Hint Resolve calm_cachedPreparedStatement : steady.
Lemma calm_execPreparedCached ctx query args : preserves calm (execPreparedCached ctx query args).
Proof. unfold execPreparedCached, usingCached, cachedAt. preserve. Qed.

Lemma same_pkg_execCached id ctx args :
  preserves same_pkg (deferring (releaseCachedStatement id)
    (usingCached id (fun st => execPrepared ctx (cachedHandle st) (cachedType st) (cachedFormat st) args))).
Proof. unfold usingCached, cachedAt. preserve. Qed.

#[local] Hint Resolve calm_execPreparedCached : steady.

(** An execution, with a cache or without. *)
Lemma execPreparedCached_owned ctx query args base us cl c r c' :
  owned base us cl c -> execPreparedCached ctx query args c = (r, c') ->
  r = Panic \/ blank_in_package c' \/ exists cl', owned base us cl' c'.
Proof.
  intros Ho E. unfold execPreparedCached, mbind at 1, M_bind at 1, get at 1 in E.
  destruct (Z.leb_spec (StatementCacheSize (cfg c)) 0).
  - kept same_caching in E as K. pose proof (execPreparedTransient_ids ctx query args c) as Hids. rewrite E in Hids.
    destruct r; [| |by left]; (destruct Hids as [Hids|]; right; [right; exists cl; by eapply owned_same|by left]).
  - unfold mbind, M_bind in E. destruct (cachedPreparedStatement ctx query c) as [[id|e|] c1] eqn:Ec;
      [|apply (cachedPreparedStatement_owned _ _ base us cl) in Ec; [|lia|done]; by injection E as <- <-; right|by left; injection E as <-].
    right. apply (cachedPreparedStatement_owned _ _ base us cl) in Ec as [(s & Hin & Hu & Hb)|[cl1 Ho1]]; [| |lia|done].
    + left. apply same_pkg_execCached in E. exists s. by rewrite (same_pkg_statements _ _ E).
    + right. by eapply execCached_owned.
Qed.

End Caching.

#[export] Hint Resolve calm_releaseCachedStatement calm_cachedPreparedStatement calm_execPreparedCached
  same_pkg_releaseCachedStatement : steady.

(** * Properties *)

Section Properties.
Context `{FloatText} `{CallerMemory} `{TableFS} `{Environment} `{BidiLayout} `{BidiText} `{Sprint}.

(** The statement cache leaks no statement ids.  When the ids in use are
    those of the statements in an idle cache and [base] others, they are again
    after [execPreparedCached], whatever it returns: on a hit, a miss, an
    eviction, a failed prepare or execution.  So the cache never accounts for more
    ids than it has room for.  The exception is that of [exec_releases_its_id]. *)
Theorem cached_exec_keeps_ids (ctx : context) (query : bytes) (args : list NamedValue) (base : gset Z) (cl : list nat)
    (c : Conn) :
  1 <= StatementCacheSize (cfg c) -> owned base [] cl c ->
  match execPreparedCached ctx query args c with
  | (Panic, _) => True
  | (_, c') =>
      blank_in_package c' \/
      (exists cl', owned base [] cl' c') /\
      Z.of_nat (size (usedStatementHandles c')) <= Z.of_nat (size base) + StatementCacheSize (cfg c)
  end.
Proof.
  intros Hcap Ho. destruct (execPreparedCached ctx query args c) as [r c'] eqn:E.
  pose proof (execPreparedCached_owned _ _ _ base [] cl _ _ _ Ho E) as Hgoal.
  assert (cfg c' = cfg c) as Eg.
  { kept calm in E as K. by apply cm_cfg in K. }
  assert (forall cl', owned base [] cl' c' ->
    Z.of_nat (size (usedStatementHandles c')) <= Z.of_nat (size base) + StatementCacheSize (cfg c)) as Hsize.
  { intros cl' Ho'. apply owned_size in Ho'. rewrite Eg in Ho'. unfold len in Ho'. cbn [length] in Ho'. lia. }
  destruct r; [| |done]; (destruct Hgoal as [|[|[cl' Ho']]]; [done|by left|]); right; (split; [by exists cl'|by eapply Hsize]).
Qed.
End Properties.


(** C32: a statement is closed once, when nobody uses it, and its [Close] does
    not wait for ever.  However uses, releases and closes of a statement follow
    each other, it counts its uses, it is closed on the server at most once, and
    then no use is left and none can begin; while a [Close] waits no use can
    begin either, and releasing the uses that are left is enough for it to
    finish. *)
Theorem statement_closes_once (l0 l : lifecycle) :
  born l0 -> rtc lifeStep l0 l ->
  active (stmt l) = Z.of_nat (holders l) /\ (finished l <= 1)%nat /\
  (finished l = 1%nat -> holders l = 0%nat /\ acquire (stmt l) = Fail EConnectionClosed) /\
  (waiting l = true ->
     (forall l', lifeStep l l' -> (holders l' <= holders l)%nat) /\
     exists l', nsteps lifeStep (S (holders l)) l l' /\ finished l' = 1%nat).
Proof.
  intros Hb Hsteps. assert (life_ok l) as [Ha Hc Hd].
  { apply life_ok_born in Hb. revert Hb. induction Hsteps as [|l1 l2 l3 Hs _ IH]; [done|]. intros Hok. apply IH. by eapply life_ok_step. }
  split; [done|]. split; [destruct (stmtClosed (stmt l)); lia|]. split.
  - intros Hf. split; [by apply Hd|]. unfold acquire. destruct (stmtClosed (stmt l)); [done|]. destruct (waiting l); lia.
  - intros Hw. destruct l as [s n w k]. cbn in *. subst w. destruct (stmtClosed s) eqn:Es; [|lia]. split.
    + intros l' Hstep. inversion Hstep as [? ? ? ? ? E|?|?|?|?|?]; subst; cbn; try lia. unfold acquire in E. by rewrite Es in E.
    + destruct (releases_finish s n k Ha) as [s' Hs]. exists (mkLifecycle s' 0 false (S k)). split; [done|cbn; lia].
Qed.

(** A statement with two uses whose [Close] waits. *)
Definition freshStmt : Stmt := newStmt (lit "SELECT 1") (statementNameOf 1) 1 sqlStatementTypeSelect None [].
Definition inUse : lifecycle :=
  mkLifecycle (withStmtClosed (withActive (withActive freshStmt 1) 2)) 2 true 0.

Lemma statement_closes_once_witness :
  rtc lifeStep (mkLifecycle freshStmt 0 false 0) inUse /\
  exists l', nsteps lifeStep 3 inUse l' /\ finished l' = 1%nat.
Proof.
  assert (rtc lifeStep (mkLifecycle freshStmt 0 false 0) inUse) as Hr.
  { eapply rtc_l; [by apply life_acquire|]. eapply rtc_l; [by apply life_acquire|]. eapply rtc_l; [by apply life_close|apply rtc_refl]. }
  split; [exact Hr|].
  destruct (statement_closes_once (mkLifecycle freshStmt 0 false 0) inUse) as (_ & _ & _ & Hw); [by split_and!|exact Hr|].
  destruct (Hw eq_refl) as [_ Hl]. exact Hl.
Defined.

Section Examples.
#[local] Instance noLayout : BidiText := Build_BidiText (fun units _ _ => Ret units) (fun units _ _ => Ret units).
#[local] Instance noSprint : Sprint := Build_Sprint (fun _ => []).
#[local] Existing Instances sampleTables noFloatText noBidi.
#[refine, local] Instance plainMemory : CallerMemory := {| Scan held _ := (held, None); int64OfFloat _ := 0 |}.
Proof. done. Defined.

(** A connection with one statement of its own and room for two in its cache. *)
Definition cachingConn : Conn :=
  mkConn
    (mkConfig [] 0 false [] [] [] NamingSQL 0 0 0 0 0 0 [] 0 2 false false false
       (Server sampleConfig) (Socket sampleConfig) (Config.Packages sampleConfig) (Client sampleConfig) (Bidi sampleConfig))
    None (Some []) false None true 0 [] emptyCache None {[1]} 0 0 ∅ ∅ ∅ 0 0 [] ∅.

Lemma cached_exec_keeps_ids_witness :
  let env : Environment := always (failing 0) in
  let '(r, c') := execPreparedCached Background (lit "UPDATE T SET A = 1") [] cachingConn in
  r <> Panic /\
  (blank_in_package c' \/ (exists cl', owned {[1]} [] cl' c') /\ Z.of_nat (size (usedStatementHandles c')) <= 1 + 2).
Proof.
  intros env. assert (owned {[1]} [] [] cachingConn) as Ho.
  { split; [exists ∅; apply wf_initial|]. constructor; try done. intros h Hh. by left. }
  assert (1 <= StatementCacheSize (cfg cachingConn)) as Hcap by (cbn; lia).
  pose proof (cached_exec_keeps_ids Background (lit "UPDATE T SET A = 1") [] {[1]} [] cachingConn Hcap Ho) as Hids.
  assert (match fst (execPreparedCached Background (lit "UPDATE T SET A = 1") [] cachingConn) with Panic => False | _ => True end)
    as Hr by (vm_compute; exact I).
  destruct (execPreparedCached Background (lit "UPDATE T SET A = 1") [] cachingConn) as [r c']. cbn [fst] in Hr.
  destruct r as [n|e|]; [| |destruct Hr]; (split; [discriminate|exact Hids]).
Defined.

(** A query with a name too few for its arguments: the statement stays in use. *)
Example stmt_query_leaks_use :
  let env : Environment := always (failing 0) in
  let s := newStmt (lit "SELECT ?") (statementNameOf 1) 1 sqlStatementTypeSelect (Some (mkFormat 0 0 [])) [lit "a"] in
  let '(r, _) := StmtQueryContext Background s [mkNamedValue (lit "b") 1 (Native (VInt64 1))] sampleConn in
  match r with Ret (inr _, s') => active s' = 1 | _ => False end.
Proof. by vm_compute. Qed.
End Examples.
