(* ===== verification/Usage.v ===== *)
(** A connection in use (driver.go): executions, queries and the rows they
    return, in any order, and the statement ids they hold.

    The rows that a client has are listed with the connection; each keeps the id
    of its statement, or a use of a statement of the cache, until it is closed. *)
From Stdlib Require Import Strings.String.
From stdpp Require Import base list numbers strings gmap relations.
From S2P Require Import Prelude GoStrings Values Utf Ccsid Wire Reply Format Request Sqlca Config Package StatementCache.
From S2P Require Import Session Columns Encoding Placeholders Statements Rows Binding GeneratedKeys Stmt.
Open Scope Z_scope.

(** * Definitions *)

(** Rows a client has, and whether a result set of theirs could not be
    opened. *)
Definition clientRows : Type := bool * queryRows.

(** Rows that were not closed, or only count as closed. *)
Definition unreleased (p : clientRows) : bool := negb (rowsClosed p.2) || p.1.

Section Use.
Context `{FloatText} `{CallerMemory} `{TableFS} `{Environment} `{BidiLayout} `{BidiText} `{Sprint}.

(** An execution or a query, whatever it returns, or an operation on rows a
    query returned; rows that are closed give the cache its statement back.  No
    statement of the package is named with blanks. *)
Inductive useStep : Conn * list clientRows -> Conn * list clientRows -> Prop :=
| use_exec c live fuel ctx query args r c' :
    ExecContext fuel ctx query args c = (r, c') -> r <> Panic -> r <> Ret None -> ~ blank_in_package c' ->
    useStep (c, live) (c', live)
| use_query_failed c live ctx query args e c' :
    QueryContext ctx query args c = (Fail e, c') -> ~ blank_in_package c' -> useStep (c, live) (c', live)
| use_query c live ctx query args rows c' :
    QueryContext ctx query args c = (Ret rows, c') -> ~ blank_in_package c' ->
    useStep (c, live) (c', (false, rows) :: live)
| use_rows c live1 live2 f r c1 f' r' c' :
    rowsStep (f, r, c) (f', r', c1) -> releaseRows r r' c1 = (Ret tt, c') ->
    useStep (c, live1 ++ (f, r) :: live2) (c', live1 ++ (f', r') :: live2).
End Use.

(** ** The invariant *)

(** What rows hold: the id of a statement of their own, or a use of a statement
    of the cache. *)
Definition ownedId (p : clientRows) : option Z :=
  if ownStatement p.2 && unreleased p then Some (statementHandle p.2) else None.
Definition cachedId (p : clientRows) : option nat :=
  match releaseStmt p.2 with Some (ReleaseCached id) => Some id | _ => None end.

Record row_ok (p : clientRows) : Prop := {
  ro_abandoned : p.1 = true -> rowsClosed p.2 = true;
  ro_own : ownStatement p.2 = true -> notBlank (statementName p.2) = true /\ 1 <= statementHandle p.2 /\ cachedId p = None;
  ro_released : unreleased p = false -> cachedId p = None;
}.

Record in_use (cl : list nat) (s : Conn * list clientRows) : Prop := {
  iu_rows : Forall row_ok s.2;
  iu_ids : NoDup (omap ownedId s.2);
  iu_owned : owned (list_to_set (omap ownedId s.2)) (omap cachedId s.2) cl s.1;
}.

(** * Lemmas *)

Lemma omap_middle {A B} (f : A -> option B) l1 x l2 : omap f (l1 ++ x :: l2) = omap f l1 ++ option_list (f x) ++ omap f l2.
Proof. rewrite omap_app. cbn. by destruct (f x). Qed.

(** Rows hold one id at most. *)
Lemma in_use_size cl s :
  in_use cl s ->
  Z.of_nat (size (usedStatementHandles s.1)) <=
    Z.of_nat (length (filter (fun p => unreleased p = true) s.2)) + Z.max (StatementCacheSize (cfg s.1)) 0.
Proof.
  intros [Hr Hd Ho]. apply owned_size in Ho. rewrite size_list_to_set in Ho by done.
  assert (Z.of_nat (length (omap ownedId s.2)) + len (omap cachedId s.2) <=
    Z.of_nat (length (filter (fun p => unreleased p = true) s.2))) as Hle; [|lia].
  clear -Hr. unfold len. induction Hr as [|p live [_ Hown Hrel] _ IH]; [done|]. cbn [omap list_omap]. rewrite filter_cons.
  destruct (decide (unreleased p = true)) as [Hu|Hu]; cbn [length].
  - destruct (ownedId p) eqn:Eo, (cachedId p) eqn:Ec; cbn [length]; try lia.
    unfold ownedId in Eo. rewrite Hu, andb_true_r in Eo. destruct (ownStatement p.2); [|done]. by destruct (Hown eq_refl) as (_ & _ & ?).
  - apply not_true_is_false in Hu. rewrite (Hrel Hu). unfold ownedId. by rewrite Hu, andb_false_r.
Qed.

Lemma ids_ok_base base base' cl known used : base' ≡ base -> ids_ok base cl known used -> ids_ok base' cl known used.
Proof. intros ->%leibniz_equiv. done. Qed.

Lemma owned_base base base' us cl c : base' ≡ base -> owned base us cl c -> owned base' us cl c.
Proof. intros ->%leibniz_equiv. done. Qed.

(** The configuration does not change. *)
Section Calm.
Context `{FloatText} `{CallerMemory} `{TableFS} `{Environment} `{BidiLayout} `{BidiText} `{Sprint}.

Lemma calm_Close r : preserves calm (Close r).
Proof. unfold Close. preserve. Qed.
#[local] Hint Resolve calm_Close : steady.
Lemma calm_endResultSet {A} r : preserves calm (@endResultSet _ _ A r).
Proof. unfold endResultSet, closeWith, ended. preserve. Qed.
Lemma calm_fetchBlockOf r : preserves calm (fetchBlockOf r).
Proof. unfold fetchBlockOf, closeWith. preserve. Qed.
Lemma calm_deliver r b : preserves calm (deliver r b).
Proof. unfold deliver, closeWith. preserve. Qed.
#[local] Hint Resolve @calm_endResultSet calm_fetchBlockOf calm_deliver : steady.
Lemma calm_nextLoop fuel r : preserves calm (nextLoop fuel r).
Proof. revert r. induction fuel as [|fuel IH]; intros r; cbn [nextLoop]; preserve; apply IH. Qed.
#[local] Hint Resolve calm_nextLoop : steady.
Lemma calm_Next n r : preserves calm (Next n r).
Proof. unfold Next, ended. preserve. Qed.
Lemma calm_releaseRows r r' : preserves calm (releaseRows r r').
Proof. unfold releaseRows. preserve. Qed.
#[local] Hint Resolve calm_Next calm_releaseRows : steady.
Lemma calm_readKeys fuel result r : preserves calm (readKeys fuel result r).
Proof. revert result r. induction fuel as [|fuel IH]; intros result r; cbn [readKeys]; unfold NextRow; preserve; apply IH. Qed.
#[local] Hint Resolve calm_readKeys : steady.
Lemma calm_QueryContext ctx query args : preserves calm (QueryContext ctx query args).
Proof. unfold QueryContext, queryPreparedCached, usingCached, cachedAt, onFailure. preserve. Qed.
#[local] Hint Resolve calm_QueryContext : steady.
Lemma calm_ExecContext fuel ctx query args : preserves calm (ExecContext fuel ctx query args).
Proof. unfold ExecContext, execInsertWithGeneratedKey, readGeneratedKeyRows, CloseRows. preserve. Qed.

Lemma useStep_cfg s s' : useStep s s' -> cfg s'.1 = cfg s.1.
Proof.
  intros [c live fuel ctx query args r c' E _ _ _|c live ctx query args e c' E _|c live ctx query args rows c' E _|c live1 live2 f r c1 f' r' c' E El];
    cbn [fst]; try (apply calm_ExecContext in E as [->]; done); try (apply calm_QueryContext in E as [->]; done).
  apply calm_releaseRows in El as [-> _ _ _ _].
  apply rowsStep_moved in E as [[_ [_ [_ K] _ _]]|(_ & _ & [[K _] _] & _)]; [done|by apply K].
Qed.

Lemma useSteps_cfg s s' : rtc useStep s s' -> cfg s'.1 = cfg s.1.
Proof. induction 1 as [s|s1 s2 s3 Hs _ IH]; [done|]. by rewrite IH, (useStep_cfg _ _ Hs). Qed.
End Calm.

Section Steps.
Context `{FloatText} `{CallerMemory} `{TableFS} `{Environment} `{BidiLayout} `{BidiText} `{Sprint}.

(** Closing an owned statement is what [owned] says of its id. *)
Lemma owned_without base us cl c c' h :
  h ∉ base -> same_caching c c' -> usedStatementHandles c' = usedStatementHandles c ∖ {[h]} ->
  owned ({[h]} ∪ base) us cl c -> owned base us cl c'.
Proof.
  intros Hf [Ec Eg] Eu [[index Hwf] Hids]. split; rewrite Ec, ?Eg; [by exists index|]. rewrite Eu. by apply ids_ok_close.
Qed.

Lemma owned_with base us cl c c' h :
  h ∉ usedStatementHandles c -> same_caching c c' -> usedStatementHandles c' = {[h]} ∪ usedStatementHandles c ->
  owned base us cl c -> owned ({[h]} ∪ base) us cl c'.
Proof.
  intros Hf [Ec Eg] Eu [[index Hwf] Hids]. split; rewrite Ec, ?Eg; [by exists index|]. rewrite Eu. by apply ids_ok_take.
Qed.

(** The rows change, and what they hold does not. *)
Lemma in_use_same cl c c' live1 live2 p p' :
  row_ok p' -> ownedId p' = ownedId p -> cachedId p' = cachedId p -> same_caching c c' -> same_handles c c' ->
  in_use cl (c, live1 ++ p :: live2) -> in_use cl (c', live1 ++ p' :: live2).
Proof.
  intros Hp Eo Ec Kc Kh [Hr Hd Ho]. cbn in *. apply Forall_app in Hr as [Hr1 [_ Hr2]%Forall_cons].
  rewrite !omap_middle in *. split; cbn [fst snd]; rewrite ?omap_middle, ?Eo, ?Ec; [|done|by eapply owned_same].
  apply Forall_app. by rewrite Forall_cons.
Qed.

Lemma in_use_rows cl c live1 live2 f r c1 f' r' c' :
  rowsStep (f, r, c) (f', r', c1) -> releaseRows r r' c1 = (Ret tt, c') -> in_use cl (c, live1 ++ (f, r) :: live2) ->
  exists cl', in_use cl' (c', live1 ++ (f', r') :: live2).
Proof.
  intros Hs El Hu. pose proof Hu as [Hr Hd Ho]. cbn in *. apply Forall_app in Hr as [Hr1 [[Ha Hown Hrel] Hr2]%Forall_cons]. cbn in *.
  apply rowsStep_moved in Hs as [[-> [[R1 R2 R3 R4] K _ F]]|(-> & [R1 R2 R3 R4] & [[K _] _] & Ec & Ec' & El')]; cbn in *.
  - destruct F as [(Ec & El' & Fu & _)|(Eo & Ec & El' & Fu & _)].
    + assert (c' = c1) as ->.
      { unfold releaseRows in El. rewrite El' in El. by destruct (releaseStmt r) as [[]|]; injection El as <-. }
      exists cl. eapply in_use_same; [| | |exact K|exact Fu|exact Hu]; unfold ownedId, cachedId, unreleased in *; cbn in *;
        [split; cbn; unfold cachedId, unreleased; cbn|..]; by rewrite ?R1, ?R2, ?R4, ?Ec, ?El'.
    + assert (f = false) as -> by (destruct f; [by specialize (Ha eq_refl); congruence|done]).
      assert (Forall row_ok (live1 ++ (false, r') :: live2)) as Hrows.
      { apply Forall_app. rewrite Forall_cons. split_and!; [done| |done]. split; cbn; unfold cachedId; cbn; rewrite ?El'; [done| |done].
        rewrite R2, R1, R4. intros Ho'. by destruct (Hown Ho') as (? & ? & _). }
      unfold idsWithout in Fu. unfold releaseRows in El. rewrite El' in El.
      rewrite !omap_middle in *.
      assert (ownedId (false, r) = if ownStatement r then Some (statementHandle r) else None) as E3
        by (unfold ownedId, unreleased; cbn; by rewrite Eo, andb_true_r).
      rewrite E3 in Hd, Ho. change (cachedId (false, r)) with
        (match releaseStmt r with Some (ReleaseCached id) => Some id | _ => None end) in Ho.
      assert (ownedId (false, r') = None) as E1 by (unfold ownedId, unreleased; cbn; by rewrite Ec, andb_false_r).
      assert (cachedId (false, r') = None) as E2 by (unfold cachedId; cbn; by rewrite El').
      destruct (ownStatement r) eqn:Eown.
      * destruct (Hown eq_refl) as (Hn & Hh & Hc). rewrite Hn, (proj2 (Z.eqb_neq _ 0)) in Fu by lia. cbn [andb negb] in Fu.
        unfold cachedId in Hc. cbn [snd] in Hc.
        assert (c' = c1) as -> by (destruct (releaseStmt r) as [[]|]; try done; by injection El as <-).
        exists cl. split; cbn [fst snd]; rewrite ?omap_middle, ?E1, ?E2; cbn [option_list option_rect app] in *; [done| |].
        -- by apply NoDup_app in Hd as (? & Hd & [_ ?]%NoDup_cons); apply NoDup_app; split_and!; [|intros x Hx Hx'; eapply Hd; [done|by right]|].
        -- eapply owned_without; [|exact K|exact Fu|].
           ++ intros Hin%elem_of_list_to_set. apply NoDup_app in Hd as (_ & Hd & [Hd' _]%NoDup_cons).
              apply elem_of_app in Hin as [Hin|Hin]; [by apply (Hd _ Hin); left|done].
           ++ destruct (releaseStmt r) as [[]|]; try done;
                (eapply owned_base; [|exact Ho]; intros x; rewrite ?elem_of_union, ?elem_of_singleton, ?elem_of_list_to_set, ?elem_of_app, ?elem_of_cons; tauto).
      * cbn [andb option_list option_rect app] in *.
        assert (owned (list_to_set (omap ownedId live1 ++ omap ownedId live2))
          (omap cachedId live1 ++ option_list match releaseStmt r with Some (ReleaseCached id) => Some id | _ => None end ++ omap cachedId live2) cl c1)
          as Ho1 by (eapply owned_same; [exact K|exact Fu|exact Ho]).
        destruct (releaseStmt r) as [[|id]|] eqn:Er; cbn [option_list option_rect app] in *.
        -- injection El as <-. exists cl. split; cbn [fst snd]; rewrite ?omap_middle, ?E1, ?E2; done.
        -- apply releaseCachedStatement_owned with (us1 := omap cachedId live1) (us2 := omap cachedId live2) (base := list_to_set (omap ownedId live1 ++ omap ownedId live2)) (cl := cl) in El as [cl' Ho']; [|done].
           exists cl'. split; cbn [fst snd]; rewrite ?omap_middle, ?E1, ?E2; done.
        -- injection El as <-. exists cl. split; cbn [fst snd]; rewrite ?omap_middle, ?E1, ?E2; done.
  - assert (c' = c1) as ->.
    { unfold releaseRows in El. rewrite El' in El. by destruct (releaseStmt r) as [[]|]; injection El as <-. }
    assert (f = false) as -> by (destruct f; [by specialize (Ha eq_refl); congruence|done]).
    exists cl. eapply in_use_same; [| | | |apply K|exact Hu]; [| | |split; apply K]; unfold ownedId, cachedId, unreleased in *; cbn in *;
      [split; cbn; unfold cachedId, unreleased; cbn|..]; rewrite ?R1, ?R2, ?R4, ?Ec, ?Ec', ?El'; try done; by rewrite orb_true_r.
Qed.

(** New rows that own their statement, and rows of a statement of the cache. *)
Lemma in_use_own cl c c' live rows :
  owning c (false, rows, c') -> releaseStmt rows = None -> rowsClosed rows = false -> same_caching c c' ->
  in_use cl (c, live) -> in_use cl (c', (false, rows) :: live).
Proof.
  intros [Ho Hi Hn Hf _ _ Hh] Hrel Hc K [Hr Hd Hown]. cbn [fst snd] in *. rewrite Hc in Hh. destruct Hh as [Hu _].
  assert (ownedId (false, rows) = Some (statementHandle rows)) as E1 by (unfold ownedId, unreleased; cbn; by rewrite Ho, Hc).
  assert (cachedId (false, rows) = None) as E2 by (unfold cachedId; cbn; by rewrite Hrel).
  split; cbn [fst snd omap list_omap]; rewrite ?E1, ?E2.
  - constructor; [|done]. split; cbn [fst snd]; [done|intros _; split_and!; [done|lia|done]|done].
  - constructor; [|done]. intros Hin. apply Hf, (ids_base _ _ _ _ (own_ids _ _ _ _ Hown)). by apply elem_of_list_to_set.
  - rewrite list_to_set_cons. by eapply owned_with.
Qed.

Lemma in_use_cached cl c live rows id :
  ownStatement rows = false -> releaseStmt rows = Some (ReleaseCached id) -> rowsClosed rows = false ->
  Forall row_ok live -> NoDup (omap ownedId live) ->
  owned (list_to_set (omap ownedId live)) (id :: omap cachedId live) cl c -> in_use cl (c, (false, rows) :: live).
Proof.
  intros Ho Hrel Hc Hr Hd Hown.
  assert (ownedId (false, rows) = None) as E1 by (unfold ownedId; cbn; by rewrite Ho).
  assert (cachedId (false, rows) = Some id) as E2 by (unfold cachedId; cbn; by rewrite Hrel).
  split; cbn [fst snd omap list_omap]; rewrite ?E1, ?E2; [|done|done].
  constructor; [|done]. split; cbn [fst snd]; [done|congruence|]. unfold unreleased. cbn. by rewrite Hc.
Qed.

Lemma in_use_handles cl c c' live : same_caching c c' -> same_handles c c' -> in_use cl (c, live) -> in_use cl (c', live).
Proof. intros Kc Kh [Hr Hd Ho]. split; [done|done|by eapply owned_same]. Qed.

Lemma queryPreparedCached_in_use ctx query args cl c live r c' :
  in_use cl (c, live) -> queryPreparedCached ctx query args c = (r, c') ->
  match r with
  | Ret rows => blank_in_package c' \/ exists cl', in_use cl' (c', (false, rows) :: live)
  | Fail _ => blank_in_package c' \/ exists cl', in_use cl' (c', live)
  | Panic => True
  end.
Proof.
  intros Hu E. unfold queryPreparedCached, mbind at 1, M_bind at 1, get at 1 in E.
  destruct (Z.leb_spec (StatementCacheSize (cfg c)) 0).
  - kept same_caching in E as K. pose proof (queryPreparedTransient_outcome ctx query args c _ _ E) as Ho. destruct r as [rows|e|]; [| |done].
    + right. exists cl. apply in_use_own with (c := c); [done|by eapply queryPreparedTransient_unreleased| |done|done].
      unfold queryPreparedTransient in E. apply run_bind_Ret in E as ([[[type h] name] format] & c1 & _ & E).
      apply run_bind_Ret in E as (rows1 & c2 & E2 & [= <- _]). apply onFailure_run in E2. apply queryPreparedWithArgs_of in E2 as (_ & _ & Hc).
      unfold markStoredProcResult. by case_match.
    + destruct Ho as [[Hs|Hb] _]; [right; exists cl; by eapply in_use_handles|by left].
  - unfold mbind at 1, M_bind at 1 in E. destruct Hu as [Hr Hd Ho].
    destruct (cachedPreparedStatement ctx query c) as [[id|e|] c1] eqn:Ec;
      (eapply cachedPreparedStatement_owned in Ec as Hc1; [|lia|exact Ho]);
      [|injection E as <- <-; destruct Hc1 as [|[cl1 Ho1]]; [by left|right; by exists cl1]|by injection E as <- <-].
    unfold usingCached, cachedAt, mbind at 1, M_bind at 1, mbind at 1, M_bind at 1, get at 1 in E. cbn [mret M_ret] in E.
    destruct (heap (stmtCaching c1) !! id) as [st|]; [|by injection E as <- _]. unfold mbind, M_bind in E.
    destruct (onFailure _ _ c1) as [[rows|e|] c2] eqn:Eq; apply onFailure_run in Eq; [| |by injection E as <- _].
    + injection E as <- <-. kept same_caching in Eq as K. kept same_handles in Eq as Kh. kept same_pkg in Eq as Kp.
      destruct Hc1 as [(s & Hin & Hus & Hb)|[cl1 Ho1]]; [left; exists s; by rewrite (same_pkg_statements _ _ Kp)|].
      right. exists cl1. apply queryPreparedWithArgs_of in Eq as Hof. destruct Hof as (_ & _ & Hcl). apply queryPreparedWithArgs_unowned in Eq as [Hun _].
      eapply in_use_cached; [| | |exact Hr|exact Hd|by eapply owned_same];
        unfold markStoredProcResult; by destruct (cachedType st =? sqlStatementTypeCall).
    + destruct Eq as (e' & c3 & r3 & Eq & Er). injection E as <- <-.
      kept same_caching in Eq as K. kept same_handles in Eq as Kh. kept same_pkg in Eq as Kp. kept same_pkg in Er as Kp2.
      destruct Hc1 as [(s & Hin & Hus & Hb)|[cl1 Ho1]].
      { left. exists s. by rewrite (same_pkg_statements _ _ Kp2), (same_pkg_statements _ _ Kp). }
      apply (releaseCachedStatement_owned (list_to_set (omap ownedId live)) [] (omap cachedId live) cl1) in Er as [cl2 Ho2]; [|by eapply owned_same].
      right. by exists cl2.
Qed.

Lemma QueryContext_in_use ctx query args cl c live r c' :
  in_use cl (c, live) -> QueryContext ctx query args c = (r, c') ->
  match r with
  | Ret rows => blank_in_package c' \/ exists cl', in_use cl' (c', (false, rows) :: live)
  | Fail _ => blank_in_package c' \/ exists cl', in_use cl' (c', live)
  | Panic => True
  end.
Proof.
  intros Hu E. unfold QueryContext, mbind at 1, M_bind at 1, get at 1 in E.
  destruct (negb (IsValid c)); [injection E as <- <-; right; by exists cl|]. destruct (len args =? 0).
  - kept same_caching in E as K. destruct r as [rows|e|]; [| |done]; right; exists cl.
    + apply in_use_own with (c := c); [by eapply queryContext_owning|by eapply queryContext_unreleased|by eapply queryContext_name|done|done].
    + pose proof (queryContext_ids ctx query c) as Hids. rewrite E in Hids. by eapply in_use_handles.
  - unfold mbind at 1, M_bind at 1, lift at 1 in E.
    destruct (rewriteNamedParams query) as [[rewritten names]|e|]; [|injection E as <- <-; right; by exists cl|by injection E as <- _].
    unfold mbind at 1, M_bind at 1, lift at 1 in E.
    destruct (reorderNamedArgs names args) as [ordered|e|]; [|injection E as <- <-; right; by exists cl|by injection E as <- _].
    by apply (queryPreparedCached_in_use _ _ _ cl c live) in E.
Qed.

(** *** The rows of generated keys

    Reading and closing rows reports errors in its result. *)
Definition reports {A} (m : M A) : Prop := forall c e c', m c <> (Fail e, c').

Lemma reports_ret {A} (a : A) : reports (mret a).
Proof. done. Qed.
Lemma reports_panic {A} : reports (@lift A Panic).
Proof. done. Qed.
Lemma reports_modify f : reports (modify f).
Proof. done. Qed.
Lemma reports_attempt {A} (m : M A) : reports (attempt m).
Proof. intros c e c'. unfold attempt. by destruct (m c) as [[] c1]. Qed.
Lemma reports_bind {A B} (m : M A) (f : A -> M B) : reports m -> (forall a, reports (f a)) -> reports (m ≫= f).
Proof.
  intros Hm Hf c e c'. unfold mbind, M_bind. destruct (m c) as [[a|e1|] c1] eqn:E; [apply Hf|by apply Hm in E|done].
Qed.
Lemma reports_fmap {A B} (f : A -> B) (m : M A) : reports m -> reports (f <$> m).
Proof. intros Hm. apply reports_bind; [done|]. intros a. apply reports_ret. Qed.
Lemma reports_get {B} (f : Conn -> M B) : (forall c, reports (f c)) -> reports (get ≫= f).
Proof. intros Hf c e c'. apply Hf. Qed.
Lemma reports_ignore {A} (m : M A) : reports (ignore m).
Proof. apply reports_bind; [apply reports_attempt|intros; apply reports_ret]. Qed.

Ltac reporting :=
  repeat match goal with
  | |- forall _, reports _ => intros ?
  | |- reports (get ≫= _) => apply reports_get
  | |- reports (_ ≫= _) => apply reports_bind
  | |- reports (let _ := _ in _) => cbv zeta
  | |- reports (_ <$> _) => apply reports_fmap
  | |- reports (attempt _) => apply reports_attempt
  | |- reports (ignore _) => apply reports_ignore
  | |- reports (if ?b then _ else _) => destruct b
  | |- reports (match ?x with _ => _ end) => destruct x
  | |- reports _ => solve [apply reports_ret|apply reports_panic|apply reports_modify|eauto]
  end.

Lemma Close_reports r : reports (Close r).
Proof. unfold Close, releaseDefaultCursor. reporting. Qed.
Lemma closeWith_reports {A} r e : reports (@closeWith _ _ A r e).
Proof. pose proof Close_reports. unfold closeWith. reporting. Qed.
Lemma endResultSet_reports {A} r : reports (@endResultSet _ _ A r).
Proof. pose proof (@closeWith_reports A). unfold endResultSet, ended. reporting. Qed.
Lemma fetchBlockOf_reports r : reports (fetchBlockOf r).
Proof. pose proof (@closeWith_reports (option fetchBlock)). unfold fetchBlockOf. reporting. Qed.
Lemma deliver_reports r b : reports (deliver r b).
Proof. pose proof (@closeWith_reports (list (option colValue))). unfold deliver. reporting. Qed.
Lemma nextLoop_reports fuel r : reports (nextLoop fuel r).
Proof.
  pose proof fetchBlockOf_reports. pose proof (@endResultSet_reports (list (option colValue))). pose proof deliver_reports.
  revert r. induction fuel as [|fuel IH]; intros r; cbn [nextLoop]; [apply reports_ret|]. reporting.
Qed.
Lemma releaseRows_reports r r' : reports (releaseRows r r').
Proof. unfold releaseRows, releaseCachedStatement, modifyCache, closeVictim, closeCached, cachedAt. reporting. Qed.
Lemma NextRow_reports r : reports (NextRow r).
Proof.
  pose proof nextLoop_reports. pose proof (@endResultSet_reports (list (option colValue))). pose proof releaseRows_reports.
  unfold NextRow, Next, ended. reporting.
Qed.
Lemma readKeys_reports fuel result r : reports (readKeys fuel result r).
Proof.
  pose proof NextRow_reports. revert result r. induction fuel as [|fuel IH]; intros result r; cbn [readKeys]; reporting.
Qed.

Record stays (c c' : Conn) : Prop := { st_cfg : cfg c' = cfg c; st_pkg : same_pkg c c' }.
#[local] Instance stays_preorder : PreOrder stays.
Proof. split; [done|]. intros c1 c2 c3 [] []. split; [congruence|by transitivity c2]. Qed.

Lemma releaseRows_stays r r' c x c' : releaseRows r r' c = (x, c') -> stays c c'.
Proof.
  unfold releaseRows. intros E. destruct (releaseStmt r) as [[|id]|], (releaseStmt r'); try (injection E as <- <-; done).
  kept calm in E as K. kept same_pkg in E as P. split; [by apply K|done].
Qed.

(** Rows that are read or closed stay among the rows of the client. *)
Lemma rows_step_in_use r c r' c1 x c' cl live :
  rowsStep (false, r, c) (false, r', c1) -> releaseRows r r' c1 = (x, c') -> x <> Panic ->
  stays c c' /\ (in_use cl (c, (false, r) :: live) -> exists cl', in_use cl' (c', (false, r') :: live)).
Proof.
  intros Hs El Hx. assert (x = Ret tt) as -> by (destruct x as [[]|e|]; [done|by apply releaseRows_reports in El|done]). split.
  - apply releaseRows_stays in El. transitivity c1; [|done].
    by apply rowsStep_moved in Hs as [[_ [_ [_ K] P _]]|[? _]].
  - intros Hu. by eapply (in_use_rows cl c [] live).
Qed.

Lemma NextRow_in_use r c x r' c' cl live :
  NextRow r c = (Ret (Some (x, r')), c') ->
  stays c c' /\ (in_use cl (c, (false, r) :: live) -> exists cl', in_use cl' (c', (false, r') :: live)).
Proof.
  unfold NextRow. intros (n & c2 & E2 & E)%run_bind_Ret. destruct n as [[v2 r2]|]; [|done].
  apply run_bind_Ret in E as (y & c3 & E3 & E). injection E as <- <- <-.
  eapply rows_step_in_use; [by eapply step_next|exact E3|done].
Qed.

Lemma readKeys_in_use fuel result r c x r' c' cl live :
  readKeys fuel result r c = (Ret (Some (x, r')), c') ->
  stays c c' /\ (in_use cl (c, (false, r) :: live) -> exists cl', in_use cl' (c', (false, r') :: live)).
Proof.
  revert result r c cl. induction fuel as [|fuel IH]; intros result r c cl E; cbn [readKeys] in E; [done|].
  apply run_bind_Ret in E as (next & c1 & En & E).
  destruct next as [[[values|e] r1]|]; [| |done]; apply (NextRow_in_use _ _ _ _ _ cl live) in En as [K Hu].
  - destruct (generatedKeyInt64 _) as [key|e|]; [|injection E as <- <- <-; by split|done]. split.
    + apply (IH _ _ _ cl) in E as [K' _]. by transitivity c1.
    + intros Hu0. destruct (Hu Hu0) as [cl1 Hu1]. apply (IH _ _ _ cl1) in E as [_ E]. by apply E.
  - assert (r' = r1 /\ c' = c1) as [-> ->] by (destruct e; injection E; intros; by subst). by split.
Qed.

(** Rows that were closed hold nothing. *)
Lemma in_use_drop cl c r live : rowsClosed r = true -> in_use cl (c, (false, r) :: live) -> in_use cl (c, live).
Proof.
  intros Hc [[[_ _ Hrel] Hr]%Forall_cons Hd Ho]. cbn [fst snd] in *. unfold unreleased in Hrel. cbn in Hrel. rewrite Hc in Hrel.
  assert (ownedId (false, r) = None) as E1 by (unfold ownedId, unreleased; cbn; by rewrite Hc, andb_false_r).
  cbn [omap list_omap] in Hd, Ho. rewrite E1 in Hd, Ho. rewrite Hrel in Ho by done. by split.
Qed.

(** The insert itself, and the rows of its keys, which are closed whatever they
    are. *)
Lemma execInsert_in_use fuel ctx query args cl c live r c' :
  in_use cl (c, live) -> execInsertWithGeneratedKey fuel ctx query args c = (r, c') ->
  r = Panic \/ r = Ret None \/ blank_in_package c' \/ exists cl', in_use cl' (c', live).
Proof.
  intros Hu E. unfold execInsertWithGeneratedKey in E. unfold mbind at 1, M_bind at 1, lift at 1 in E.
  destruct (wrapInsertForGeneratedKeys query) as [wrapped|e|]; [|injection E as <- <-; do 3 right; by exists cl|injection E as <- _; by left].
  unfold mbind at 1, M_bind at 1 in E. destruct (QueryContext ctx wrapped args c) as [[rows|e|] c1] eqn:Eq;
    apply (QueryContext_in_use _ _ _ cl c live) in Eq as Hq; try exact Hu; [|injection E as <- <-; by do 2 right|injection E as <- _; by left].
  unfold mbind at 1, M_bind at 1 in E. destruct (readGeneratedKeyRows fuel rows c1) as [[keys|e|] c2] eqn:Ek; [| |injection E as <- _; by left].
  2:{ exfalso. unfold readGeneratedKeyRows in Ek. destruct (len _ =? 0); [done|]. by apply readKeys_reports in Ek. }
  destruct keys as [[result rows1]|]; [|injection E as <- _; by right; left].
  unfold mbind at 1, M_bind at 1 in E. destruct (ignore (CloseRows rows1) c2) as [[[]|e|] c3] eqn:Ec; [|by apply reports_ignore in Ec|injection E as <- _; by left].
  assert (c' = c3) as -> by (destruct result; by injection E as _ <-). clear E.
  assert (stays c2 c3 /\ forall cl2, in_use cl2 (c2, (false, rows1) :: live) -> exists cl', in_use cl' (c3, live)) as [K3 Hclose].
  { unfold ignore, attempt, mbind at 1, M_bind at 1 in Ec. unfold CloseRows, mbind at 1, M_bind at 1 in Ec.
    destruct (Close rows1 c2) as [[[e1 rows2]|e1|] c4] eqn:E1; [|by apply Close_reports in E1|done].
    unfold mbind at 1, M_bind at 1 in Ec. destruct (releaseRows rows1 rows2 c4) as [[[]|e2|] c5] eqn:E2; [|by apply releaseRows_reports in E2|done].
    injection Ec as <-. split.
    - apply releaseRows_stays in E2. pose proof (moving_Close rows1 _ _ _ E1 rows2 eq_refl) as [_ [_ K] P _].
      transitivity c4; [by split|done].
    - intros cl2 Hu2.
      destruct (rows_step_in_use rows1 c2 rows2 c4 (Ret tt) c5 cl2 live (step_close false _ _ _ _ _ E1) E2 ltac:(done)) as [_ Hstep].
      destruct (Hstep Hu2) as [cl3 Hu3]. exists cl3. eapply in_use_drop; [|exact Hu3]. by eapply Close_closed. }
  assert (stays c1 c2 /\ forall cl1, in_use cl1 (c1, (false, rows) :: live) -> exists cl', in_use cl' (c2, (false, rows1) :: live)) as [K2 Hread].
  { unfold readGeneratedKeyRows in Ek. destruct (len _ =? 0); [injection Ek as <- <- <-; split; [done|intros cl1 ?; by exists cl1]|].
    split; [by apply (readKeys_in_use _ _ _ _ _ _ _ [] []) in Ek as [? _]|]. intros cl1. by apply (readKeys_in_use _ _ _ _ _ _ _ cl1 live) in Ek as [_ Ek]. }
  do 2 right. destruct Hq as [(s & Hin & Hus & Hb)|[cl1 Hu1]].
  - left. exists s. by rewrite (same_pkg_statements _ _ (st_pkg _ _ K3)), (same_pkg_statements _ _ (st_pkg _ _ K2)).
  - right. destruct (Hread cl1 Hu1) as [cl2 Hu2]. by eapply Hclose.
Qed.

(** [ExecContext], with or without generated keys, with a cache or without. *)
Lemma ExecContext_in_use fuel ctx query args cl c live r c' :
  in_use cl (c, live) -> ExecContext fuel ctx query args c = (r, c') ->
  r = Panic \/ r = Ret None \/ blank_in_package c' \/ exists cl', in_use cl' (c', live).
Proof.
  intros Hu E. unfold ExecContext, mbind at 1, M_bind at 1, get at 1 in E.
  destruct (negb (IsValid c)); [injection E as <- <-; do 3 right; by exists cl|].
  destruct (_ && _); [by eapply execInsert_in_use|]. destruct (len args =? 0).
  - kept same_caching in E as K. kept same_handles in E as Kh. do 3 right. exists cl. by eapply in_use_handles.
  - unfold mbind at 1, M_bind at 1, lift at 1 in E.
    destruct (rewriteNamedParams query) as [[rewritten names]|e|]; [|injection E as <- <-; do 3 right; by exists cl|injection E as <- <-; by left].
    unfold mbind at 1, M_bind at 1, lift at 1 in E.
    destruct (reorderNamedArgs names args) as [ordered|e|]; [|injection E as <- <-; do 3 right; by exists cl|injection E as <- <-; by left].
    unfold fmap, M_fmap, mbind, M_bind in E. destruct Hu as [Hr Hd Ho].
    destruct (execPreparedCached ctx rewritten ordered c) as [r1 c1] eqn:Ec.
    apply (execPreparedCached_owned _ _ _ _ _ _ _ _ _ Ho) in Ec as [->|[Hb|[cl' Ho']]]; [injection E as <- _; by left|..].
    + destruct r1; injection E as <- <-; [do 2 right; by left..|by left].
    + destruct r1; injection E as <- <-; [do 3 right; by exists cl'..|by left].
Qed.

Lemma useStep_in_use s s' cl : useStep s s' -> in_use cl s -> exists cl', in_use cl' s'.
Proof.
  intros [c live fuel ctx query args r c' E Hp Hn Hb|c live ctx query args e c' E Hb|c live ctx query args rows c' E Hb|c live1 live2 f r c1 f' r' c' E El] Hu.
  - by apply (ExecContext_in_use _ _ _ _ _ _ _ _ _ Hu) in E as [|[|[|]]].
  - by apply (QueryContext_in_use _ _ _ _ _ _ _ _ Hu) in E as [|].
  - by apply (QueryContext_in_use _ _ _ _ _ _ _ _ Hu) in E as [|].
  - by eapply in_use_rows.
Qed.

Lemma useSteps_in_use s s' cl : rtc useStep s s' -> in_use cl s -> exists cl', in_use cl' s'.
Proof.
  intros Hs. revert cl. induction Hs as [s|s1 s2 s3 Hs _ IH]; intros cl Hu; [by exists cl|].
  destruct (useStep_in_use _ _ _ Hs Hu) as [cl' Hu']. by eapply IH.
Qed.
End Steps.
