(* ===== verification/Arrays.v ===== *)
(** Go slices as lists, and counted loops: indexing and assignment that panic
    out of range, loops over an interval, and rules to prove that a computation
    returns and what holds of its result. *)
From stdpp Require Import base list numbers.
From S2P Require Import Prelude.
Open Scope Z_scope.

Section Operations.
Context {A : Type}.

(** [l[i]] and [l[i] = a]. *)
Definition at_ (l : list A) (i : Z) : outcome A :=
  if 0 <=? i then match l !! Z.to_nat i with Some a => Ret a | None => Panic end else Panic.

Definition put (l : list A) (i : Z) (a : A) : outcome (list A) :=
  if (0 <=? i) && (i <? len l) then Ret (<[Z.to_nat i := a]> l) else Panic.

(** [l[lo:hi]]. *)
Definition cut (l : list A) (lo hi : Z) : outcome (list A) :=
  if (0 <=? lo) && (lo <=? hi) && (hi <=? len l) then Ret (take (Z.to_nat (hi - lo)) (drop (Z.to_nat lo) l)) else Panic.

(** [copy(l[lo:hi], src)]. *)
Definition blit (l : list A) (lo hi : Z) (src : list A) : outcome (list A) :=
  if (0 <=? lo) && (lo <=? hi) && (hi <=? len l) then
    let n := Z.to_nat (Z.min (hi - lo) (len src)) in
    Ret (take (Z.to_nat lo) l ++ take n src ++ drop (Z.to_nat lo + n) l)
  else Panic.

(** [make([]T, n)]. *)
Definition makeSlice (n : Z) (zero : A) : outcome (list A) :=
  if 0 <=? n then Ret (replicate (Z.to_nat n) zero) else Panic.
End Operations.

(** [for i := lo; i < hi; i++ { body }]. *)
Fixpoint turns {S} (n : nat) (i : Z) (body : Z -> S -> outcome S) (s : S) : outcome S :=
  match n with O => Ret s | Datatypes.S n' => s ← body i s; turns n' (i + 1) body s end.
Definition forRange {S} (lo hi : Z) (body : Z -> S -> outcome S) (s : S) : outcome S :=
  turns (Z.to_nat (hi - lo)) lo body s.

(** [for i := hi; i > lo; i-- { body }]. *)
Fixpoint turnsDown {S} (n : nat) (i : Z) (body : Z -> S -> outcome S) (s : S) : outcome S :=
  match n with O => Ret s | Datatypes.S n' => s ← body i s; turnsDown n' (i - 1) body s end.
Definition forDown {S} (hi lo : Z) (body : Z -> S -> outcome S) (s : S) : outcome S :=
  turnsDown (Z.to_nat (hi - lo)) hi body s.

(** * Total correctness *)

(** The computation returns, and [Q] holds of what it returns. *)
Definition yields {A} (m : outcome A) (Q : A -> Prop) : Prop := exists a, m = Ret a /\ Q a.

Lemma yields_Ret {A} (a : A) (Q : A -> Prop) : Q a -> yields (Ret a) Q.
Proof. by exists a. Qed.

Lemma yields_mret {A} (a : A) (Q : A -> Prop) : Q a -> yields (mret a) Q.
Proof. apply yields_Ret. Qed.

Lemma yields_bind {A B} (m : outcome A) (f : A -> outcome B) (Q : B -> Prop) :
  yields m (fun a => yields (f a) Q) -> yields (m ≫= f) Q.
Proof. intros (a & -> & Ha). exact Ha. Qed.

Lemma yields_weaken {A} (m : outcome A) (P Q : A -> Prop) :
  yields m P -> (forall a, P a -> Q a) -> yields m Q.
Proof. intros (a & -> & Ha) HPQ. exists a. auto. Qed.

Lemma at_Some {A} (l : list A) i a : 0 <= i -> l !! Z.to_nat i = Some a -> at_ l i = Ret a.
Proof. intros Hi Ha. unfold at_. by rewrite (proj2 (Z.leb_le 0 i)), Ha. Qed.

Lemma at_Ret {A} (l : list A) i a : at_ l i = Ret a -> 0 <= i < len l /\ l !! Z.to_nat i = Some a.
Proof.
  unfold at_, len. destruct (Z.leb_spec 0 i); [|done]. destruct (l !! Z.to_nat i) eqn:E; [|done]. intros [= <-].
  apply lookup_lt_Some in E as ?. split; [lia|done].
Qed.

Lemma at_middle {A} (l : list A) a r i : i = len l -> at_ (l ++ a :: r) i = Ret a.
Proof. intros ->. apply at_Some; [apply len_nonneg|]. unfold len. rewrite Nat2Z.id. by apply list_lookup_middle. Qed.

Lemma put_middle {A} (l : list A) a b r i : i = len l -> put (l ++ a :: r) i b = Ret (l ++ b :: r).
Proof.
  intros ->. unfold put. rewrite len_app, len_cons. pose proof (len_nonneg l). pose proof (len_nonneg r).
  rewrite (proj2 (Z.leb_le _ _)), (proj2 (Z.ltb_lt _ _)) by lia. unfold len. rewrite Nat2Z.id.
  by rewrite insert_app_r_alt, Nat.sub_diag by lia.
Qed.

Lemma yields_at {A} (l : list A) i (Q : A -> Prop) :
  0 <= i < len l -> (forall a, l !! Z.to_nat i = Some a -> Q a) -> yields (at_ l i) Q.
Proof.
  intros Hi HQ. unfold at_. rewrite (proj2 (Z.leb_le 0 i)) by lia.
  destruct (lookup_lt_is_Some_2 l (Z.to_nat i)) as [a Ha]; [unfold len in Hi; lia|]. rewrite Ha. apply yields_Ret. auto.
Qed.

Lemma yields_put {A} (l : list A) i a (Q : list A -> Prop) :
  0 <= i < len l -> Q (<[Z.to_nat i := a]> l) -> yields (put l i a) Q.
Proof.
  intros Hi HQ. unfold put. rewrite (proj2 (Z.leb_le 0 i)), (proj2 (Z.ltb_lt i (len l))) by lia. by apply yields_Ret.
Qed.

Lemma yields_cut {A} (l : list A) lo hi (Q : list A -> Prop) :
  0 <= lo <= hi -> hi <= len l -> Q (take (Z.to_nat (hi - lo)) (drop (Z.to_nat lo) l)) -> yields (cut l lo hi) Q.
Proof. intros ???. unfold cut. rewrite !(proj2 (Z.leb_le _ _)) by lia. by apply yields_Ret. Qed.

Lemma cut_all {A} (l : list A) hi : hi = len l -> cut l 0 hi = Ret l.
Proof.
  intros ->. unfold cut. pose proof (len_nonneg l). rewrite !(proj2 (Z.leb_le _ _)) by lia. cbn [andb].
  rewrite take_ge; [done|]. rewrite length_drop. unfold len. lia.
Qed.

Lemma yields_make {A} n (zero : A) (Q : list A -> Prop) :
  0 <= n -> Q (replicate (Z.to_nat n) zero) -> yields (makeSlice n zero) Q.
Proof. intros ??. unfold makeSlice. rewrite (proj2 (Z.leb_le _ _)) by lia. by apply yields_Ret. Qed.

Lemma yields_if {A} (b : bool) (m1 m2 : outcome A) (Q : A -> Prop) :
  (b = true -> yields m1 Q) -> (b = false -> yields m2 Q) -> yields (if b then m1 else m2) Q.
Proof. destruct b; auto. Qed.

(** A loop with an invariant. *)
Lemma yields_for {S} lo hi (body : Z -> S -> outcome S) (I : Z -> S -> Prop) s (Q : S -> Prop) :
  lo <= hi -> I lo s ->
  (forall i s, lo <= i < hi -> I i s -> yields (body i s) (I (i + 1))) ->
  (forall s, I hi s -> Q s) -> yields (forRange lo hi body s) Q.
Proof.
  intros Hle Hs Hbody HQ. unfold forRange.
  assert (forall n i s, i + Z.of_nat n = hi -> lo <= i -> I i s -> yields (turns n i body s) (I hi)) as Hturns.
  { induction n as [|n IH]; intros i t Hi Hlo Ht; cbn [turns].
    - apply yields_Ret. replace hi with i by lia. done.
    - apply yields_bind. eapply yields_weaken; [apply Hbody; [lia|done]|]. intros t' Ht'. apply IH; [lia|lia|done]. }
  eapply yields_weaken; [apply Hturns; [lia|lia|done]|done].
Qed.

Lemma yields_for_empty {S} lo hi (body : Z -> S -> outcome S) s (Q : S -> Prop) :
  hi <= lo -> Q s -> yields (forRange lo hi body s) Q.
Proof. intros H HQ. unfold forRange. replace (Z.to_nat (hi - lo)) with O by lia. by apply yields_Ret. Qed.

Lemma yields_down {S} hi lo (body : Z -> S -> outcome S) (I : Z -> S -> Prop) s (Q : S -> Prop) :
  lo <= hi -> I hi s ->
  (forall i s, lo < i <= hi -> I i s -> yields (body i s) (I (i - 1))) ->
  (forall s, I lo s -> Q s) -> yields (forDown hi lo body s) Q.
Proof.
  intros Hle Hs Hbody HQ. unfold forDown.
  assert (forall n i s, i - Z.of_nat n = lo -> i <= hi -> I i s -> yields (turnsDown n i body s) (I lo)) as Hturns.
  { induction n as [|n IH]; intros i t Hi Hhi Ht; cbn [turnsDown].
    - apply yields_Ret. replace lo with i by lia. done.
    - apply yields_bind. eapply yields_weaken; [apply Hbody; [lia|done]|]. intros t' Ht'. apply IH; [lia|lia|done]. }
  eapply yields_weaken; [apply Hturns; [lia|lia|done]|done].
Qed.

Lemma yields_down_empty {S} hi lo (body : Z -> S -> outcome S) s (Q : S -> Prop) :
  hi <= lo -> Q s -> yields (forDown hi lo body s) Q.
Proof. intros H HQ. unfold forDown. replace (Z.to_nat (hi - lo)) with O by lia. by apply yields_Ret. Qed.

(** A loop whose turns change nothing. *)
Lemma forRange_same {S} lo hi (body : Z -> S -> outcome S) s :
  (forall i, lo <= i < hi -> body i s = Ret s) -> forRange lo hi body s = Ret s.
Proof.
  intros H. destruct (decide (lo <= hi)).
  - assert (yields (forRange lo hi body s) (fun t => t = s)) as (t & -> & ->); [|done].
    apply yields_for with (I := fun _ t => t = s); [done|done| |done].
    intros i t Hi ->. rewrite (H i Hi). by apply yields_Ret.
  - assert (yields (forRange lo hi body s) (fun t => t = s)) as (t & -> & ->); [|done]. apply yields_for_empty; [lia|done].
Qed.

(** The element there, and what holds of all elements. *)
Lemma at_Forall {A} (P : A -> Prop) (l : list A) i : Forall P l -> 0 <= i < len l -> exists a, at_ l i = Ret a /\ P a.
Proof.
  intros HP Hi. destruct (lookup_lt_is_Some_2 l (Z.to_nat i)) as [a Ha]; [unfold len in Hi; lia|].
  exists a. split; [apply at_Some; [lia|done]|]. by apply (Forall_lookup_1 _ _ _ _ HP Ha).
Qed.

Lemma len_insert {A} (l : list A) i a : len (<[i := a]> l) = len l.
Proof. unfold len. by rewrite length_insert. Qed.

#[export] Hint Rewrite @len_insert : golen.

(** One step of a total correctness proof; bounds are arithmetic. *)
Ltac yield_step :=
  lazymatch goal with
  | |- yields (Ret _) _ => apply yields_Ret
  | |- yields (mret _) _ => apply yields_mret
  | |- yields (_ ≫= _) _ => apply yields_bind
  | |- yields (at_ _ _) _ => apply yields_at; [rewrite ?len_insert; lia|intros ? ?]
  | |- yields (put _ _ _) _ => apply yields_put; [rewrite ?len_insert; lia|]
  | |- yields (if _ then _ else _) _ => apply yields_if; intros ?
  end.
