(* ===== verification/BidiFlags.v ===== *)
(** Attributes of bidirectional text (internal/bidi/flags.go, arabicoptions.go,
    stringtype.go, properties.go and the tables of as400transform.go): the five
    attributes of a layout and the four options of Arabic shaping as fields of a
    32-bit word, their texts, and the layout a CCSID stands for. *)
From Stdlib Require Import Strings.String.
From stdpp Require Import base list numbers strings sorting.
From S2P Require Import Prelude GoStrings.
Open Scope Z_scope.

(** ** flags.go *)

Record BidiFlag := mkFlag { flagValue : Z; flagMask : Z }.

#[export] Instance BidiFlag_eq_dec : EqDecision BidiFlag.
Proof. solve_decision. Defined.

Definition typeMask : Z := 0x03000000.
Definition orientationMask : Z := 0x00700000.
Definition swapMask : Z := 0x00030000.
Definition numeralsMask : Z := 0x00000700.
Definition textMask : Z := 0x0000000F.

Definition typeImplicit : BidiFlag := mkFlag 0x01000000 typeMask.
Definition typeVisual : BidiFlag := mkFlag 0x03000000 typeMask.
Definition orientationLTR : BidiFlag := mkFlag 0x00100000 orientationMask.
Definition orientationRTL : BidiFlag := mkFlag 0x00300000 orientationMask.
Definition orientationContextLTR : BidiFlag := mkFlag 0x00500000 orientationMask.
Definition orientationContextRTL : BidiFlag := mkFlag 0x00700000 orientationMask.
Definition swapYes : BidiFlag := mkFlag 0x00010000 swapMask.
Definition swapNo : BidiFlag := mkFlag 0x00030000 swapMask.
Definition numeralsNominal : BidiFlag := mkFlag 0x00000100 numeralsMask.
Definition numeralsNational : BidiFlag := mkFlag 0x00000300 numeralsMask.
Definition numeralsContextual : BidiFlag := mkFlag 0x00000500 numeralsMask.
Definition numeralsAny : BidiFlag := mkFlag 0x00000700 numeralsMask.
Definition textNominal : BidiFlag := mkFlag 0x00000001 textMask.
Definition textShaped : BidiFlag := mkFlag 0x00000003 textMask.
Definition textInitial : BidiFlag := mkFlag 0x00000005 textMask.
Definition textMiddle : BidiFlag := mkFlag 0x00000007 textMask.
Definition textFinal : BidiFlag := mkFlag 0x00000009 textMask.
Definition textIsolated : BidiFlag := mkFlag 0x0000000B textMask.

Definition bidiFlagSetDefault : Z := 0x01110101.

(** A flag set is its word, an int32. *)
Definition BidiFlagSet : Type := Z.

Definition NewBidiFlagSet : BidiFlagSet := bidiFlagSetDefault.
Definition NewBidiFlagSetFromFlag (flag : BidiFlag) : BidiFlagSet := Z.lor (flagValue flag) bidiFlagSetDefault.

Definition illegalArgument : goerror := EText "bidi: illegal argument" [].

(** The flags joined from the left, each disjoint from those before it. *)
Fixpoint joinFlags (v : Z) (values : list Z) : outcome Z :=
  match values with
  | [] => Ret v
  | w :: values' => if negb (Z.land v w =? 0) then Fail illegalArgument else joinFlags (Z.lor v w) values'
  end.

(** With five flags the default is not joined. *)
Definition NewBidiFlagSetFromFlags (flags : list BidiFlag) : outcome BidiFlagSet :=
  match flagValue <$> flags with
  | [a] => Ret (Z.lor a bidiFlagSetDefault)
  | a :: rest =>
      if (length rest <=? 3)%nat then v ← joinFlags a rest; Ret (Z.lor v bidiFlagSetDefault)
      else if (length rest =? 4)%nat then joinFlags a rest
      else Fail illegalArgument
  | [] => Fail illegalArgument
  end.

(** One attribute of a word replaced. *)
Definition setField (v : Z) (flag : BidiFlag) : Z := Z.lor (Z.land v (Z.lnot (flagMask flag))) (flagValue flag).

Definition SetOneFlag (f : BidiFlagSet) (newFlag : BidiFlag) : BidiFlagSet := setField f newFlag.

(** The flag whose value the field of [v] holds, or the one for every other
    value. *)
Fixpoint fieldOf (v : Z) (flags : list BidiFlag) (otherwise : BidiFlag) : BidiFlag :=
  match flags with
  | [] => otherwise
  | flag :: flags' => if Z.land v (flagMask flag) =? flagValue flag then flag else fieldOf v flags' otherwise
  end.

Definition GetNumerals (f : BidiFlagSet) : BidiFlag :=
  fieldOf f [numeralsNominal; numeralsNational; numeralsContextual; numeralsAny] numeralsNominal.
Definition GetOrientation (f : BidiFlagSet) : BidiFlag :=
  fieldOf f [orientationLTR; orientationRTL; orientationContextLTR; orientationContextRTL] orientationLTR.
Definition GetSwap (f : BidiFlagSet) : BidiFlag := fieldOf f [swapYes; swapNo] swapYes.
Definition GetText (f : BidiFlagSet) : BidiFlag :=
  fieldOf f [textNominal; textShaped; textInitial; textMiddle; textFinal; textIsolated] textNominal.
Definition GetType (f : BidiFlagSet) : BidiFlag := fieldOf f [typeImplicit; typeVisual] typeImplicit.

Definition FlagSetEquals (f : BidiFlagSet) (other : option BidiFlagSet) : bool :=
  match other with None => false | Some g => f =? g end.
Definition FlagSetHashCode (f : BidiFlagSet) : Z := f.

(** The flag a character selects, by position. *)
Definition charFlag (choices : list (Z * BidiFlag)) (c : Z) (v : Z) : Z :=
  match find (fun p => p.1 =? c) choices with Some (_, flag) => setField v flag | None => v end.

Definition flagChars : list (list (Z * BidiFlag)) :=
  [ [(86, typeVisual); (73, typeImplicit)];
    [(76, orientationLTR); (82, orientationRTL); (67, orientationContextLTR); (68, orientationContextRTL)];
    [(89, swapYes); (78, swapNo)];
    [(78, textNominal); (83, textShaped); (73, textInitial); (77, textMiddle); (70, textFinal); (66, textIsolated)];
    [(78, numeralsNominal); (72, numeralsNational); (67, numeralsContextual); (65, numeralsAny)] ].

Fixpoint charFlags (positions : list (list (Z * BidiFlag))) (chars : list Z) (v : Z) : Z :=
  match positions, chars with
  | choices :: positions', c :: chars' => charFlags positions' chars' (charFlag choices c v)
  | _, _ => v
  end.

Definition NewBidiFlagSetFromChars (chars : list Z) : BidiFlagSet := charFlags flagChars chars bidiFlagSetDefault.

(** [strings.FieldsFunc] for separators that are bytes. *)
Fixpoint fieldsBy (sep : Z -> bool) (word s : bytes) : list bytes :=
  match s with
  | [] => if len word =? 0 then [] else [word]
  | b :: s' =>
      if sep b then (if len word =? 0 then fieldsBy sep [] s' else word :: fieldsBy sep [] s')
      else fieldsBy sep (word ++ [b]) s'
  end.

Definition isField (v : Z) (flag : BidiFlag) : bool := Z.land v (flagMask flag) =? flagValue flag.

(** One word: the value and keyword that follow it, or [None] when it is out of
    place. *)
Definition flagWord (v : Z) (keyword token : bytes) : option (Z * bytes) :=
  let word s := beqb token (lit s) in
  let under s := beqb keyword (lit s) in
  let set flag := Some (setField v flag, keyword) in
  let only s flag := if under s then set flag else None in
  if word "@ls"%string then Some (v, keyword)
  else if word "implicitalg"%string || word "checkmode"%string || word "shapcharset"%string then Some (v, lit "allowed")
  else if word "typeoftext"%string || word "orientation"%string || word "context"%string || word "swapping"%string
          || word "numerals"%string || word "shaping"%string then Some (v, token)
  else if word "visual"%string then only "typeoftext"%string typeVisual
  else if word "implicit"%string then only "typeoftext"%string typeImplicit
  else if word "ltr"%string then
    if under "orientation"%string then set orientationLTR
    else if under "context"%string then
      if negb (isField v orientationLTR) && negb (isField v orientationRTL) then set orientationContextLTR
      else Some (v, keyword)
    else None
  else if word "rtl"%string then
    if under "orientation"%string then set orientationRTL
    else if under "context"%string then
      if negb (isField v orientationLTR) && negb (isField v orientationRTL) then set orientationContextRTL
      else Some (v, keyword)
    else None
  else if word "contextual"%string then
    if under "orientation"%string then
      if isField v orientationContextRTL then Some (v, keyword) else set orientationContextLTR
    else only "numerals"%string numeralsContextual
  else if word "yes"%string then only "swapping"%string swapYes
  else if word "no"%string then only "swapping"%string swapNo
  else if word "nominal"%string then
    if under "numerals"%string then set numeralsNominal else only "shaping"%string textNominal
  else if word "national"%string then only "numerals"%string numeralsNational
  else if word "any"%string then only "numerals"%string numeralsAny
  else if word "shaped"%string then only "shaping"%string textShaped
  else if word "shform1"%string then only "shaping"%string textInitial
  else if word "shform2"%string then only "shaping"%string textMiddle
  else if word "shform3"%string then only "shaping"%string textFinal
  else if word "shform4"%string then only "shaping"%string textIsolated
  else if under "allowed"%string then Some (v, keyword)
  else None.

Fixpoint flagWords (v counter : Z) (keyword : bytes) (tokens : list bytes) : Z :=
  match tokens with
  | [] => Z.lor v bidiFlagSetDefault
  | token :: tokens' =>
      let counter := i32 (counter - 1) in
      match flagWord v keyword token with
      | Some (v, keyword) => flagWords v counter keyword tokens'
      | None => counter
      end
  end.

Definition parseBidiFlagSet (str : bytes) : Z := flagWords 0 0 [] (fieldsBy (inSet (9 :: lit " ,=")) [] str).

Definition NewBidiFlagSetFromString (str : bytes) : outcome BidiFlagSet :=
  let n := parseBidiFlagSet str in if n <? 0 then Fail illegalArgument else Ret n.

(** A failure leaves the set as it was. *)
Definition SetAllFlagsFromString (f : BidiFlagSet) (str : bytes) : BidiFlagSet * option goerror :=
  let n := parseBidiFlagSet str in if n <? 0 then (f, Some illegalArgument) else (n, None).

Fixpoint tokenizeKeepDelims (delims word s : bytes) : list bytes :=
  match s with
  | [] => if len word =? 0 then [] else [word]
  | b :: s' =>
      if inSet delims b
      then (if len word =? 0 then [] else [word]) ++ [b] :: tokenizeKeepDelims delims [] s'
      else tokenizeKeepDelims delims (word ++ [b]) s'
  end.

(** The two texts of a "source:target" text. *)
Fixpoint splitFlagTexts (sb1 sb2 : bytes) (sb2Length : nat) (colon : bool) (tokens : list bytes) : bytes * bytes :=
  match tokens with
  | [] => (sb1, sb2)
  | token :: tokens' =>
      if beqb token (lit " ") || beqb token [9] then splitFlagTexts (sb1 ++ token) (sb2 ++ token) sb2Length colon tokens'
      else if beqb token (lit ",") || beqb token (lit "=")
      then splitFlagTexts (sb1 ++ token) (sb2 ++ token) sb2Length false tokens'
      else if beqb token (lit ":") then splitFlagTexts sb1 (take sb2Length sb2) sb2Length true tokens'
      else splitFlagTexts (if colon then sb1 else sb1 ++ token) (sb2 ++ token) (length sb2) false tokens'
  end.

Definition Set2AllFlags (flags1 flags2 : BidiFlagSet) (str : bytes) : BidiFlagSet * BidiFlagSet * option goerror :=
  let '(sb1, sb2) := splitFlagTexts [] [] 0 false (tokenizeKeepDelims (9 :: lit " ,=:") [] str) in
  match SetAllFlagsFromString flags1 sb1 with
  | (flags1, Some err) => (flags1, flags2, Some err)
  | (flags1, None) => let '(flags2, err) := SetAllFlagsFromString flags2 sb2 in (flags1, flags2, err)
  end.

Definition nthText (texts : list string) (i : Z) : bytes := lit (nth (Z.to_nat i) texts EmptyString).

Definition bidiFlagSetString (value : Z) : bytes :=
  let field mask shift := Z.shiftr (Z.land value mask) shift in
  lit "typeoftext=" ++ nthText ["implicit"; "visual"]%string (field typeMask 25)
  ++ lit ", orientation="
  ++ nthText ["ltr"; "rtl"; "contextual, context=ltr"; "contextual, context=rtl"]%string (field orientationMask 21)
  ++ lit ", swapping=" ++ nthText ["yes"; "no"]%string (field swapMask 17)
  ++ lit ", numerals=" ++ nthText ["nominal"; "national"; "contextual"; "any"]%string (field numeralsMask 9)
  ++ lit ", shaping="
  ++ nthText ["nominal"; "shaped"; "shform1"; "shform2"; "shform3"; "shform4"; "invalid"; "invalid"]%string (field textMask 1).

(** ** arabicoptions.go

    An option is a value of one field of its word, like a flag. *)

Definition ArabicOption : Type := BidiFlag.
Definition ArabicOptionSet : Type := Z.

Definition lamalefMask : Z := 0x0F000000.
Definition seenMask : Z := 0x00700000.
Definition yehhamzaMask : Z := 0x000F0000.
Definition tashkeelMask : Z := 0x00000F00.

Definition LamAlefAuto : ArabicOption := mkFlag 0x01000000 lamalefMask.
Definition LamAlefNear : ArabicOption := mkFlag 0x03000000 lamalefMask.
Definition LamAlefAtBegin : ArabicOption := mkFlag 0x05000000 lamalefMask.
Definition LamAlefAtEnd : ArabicOption := mkFlag 0x07000000 lamalefMask.
Definition LamAlefResizeBuffer : ArabicOption := mkFlag 0x09000000 lamalefMask.
Definition SeenAuto : ArabicOption := mkFlag 0x00100000 seenMask.
Definition SeenAtBegin : ArabicOption := mkFlag 0x00300000 seenMask.
Definition SeenAtEnd : ArabicOption := mkFlag 0x00500000 seenMask.
Definition SeenNear : ArabicOption := mkFlag 0x00700000 seenMask.
Definition YehHamzaAuto : ArabicOption := mkFlag 0x00010000 yehhamzaMask.
Definition YehHamzaTwoCellAtBegin : ArabicOption := mkFlag 0x00030000 yehhamzaMask.
Definition YehHamzaTwoCellAtEnd : ArabicOption := mkFlag 0x00050000 yehhamzaMask.
Definition YehHamzaTwoCellNear : ArabicOption := mkFlag 0x00070000 yehhamzaMask.
Definition YehHamzaOneCell : ArabicOption := mkFlag 0x00090000 yehhamzaMask.
Definition TashkeelAuto : ArabicOption := mkFlag 0x00000100 tashkeelMask.
Definition TashkeelCustomizedWithZeroWidth : ArabicOption := mkFlag 0x00000300 tashkeelMask.
Definition TashkeelCustomizedWithWidth : ArabicOption := mkFlag 0x00000500 tashkeelMask.
Definition TashkeelCustomizedAtBegin : ArabicOption := mkFlag 0x00000700 tashkeelMask.
Definition TashkeelCustomizedAtEnd : ArabicOption := mkFlag 0x00000900 tashkeelMask.
Definition TashkeelKeep : ArabicOption := mkFlag 0x00000B00 tashkeelMask.

Definition arabicOptionSetDefault : Z := 0x01110100.

Definition NewArabicOptionSet : ArabicOptionSet := arabicOptionSetDefault.
Definition NewArabicOptionSetFromOption (option : ArabicOption) : ArabicOptionSet :=
  Z.lor (flagValue option) arabicOptionSetDefault.

(** With four options the default is not joined. *)
Definition NewArabicOptionSetFromOptions (options : list ArabicOption) : outcome ArabicOptionSet :=
  match flagValue <$> options with
  | [a] => Ret (Z.lor a arabicOptionSetDefault)
  | a :: rest =>
      if (length rest <=? 2)%nat then v ← joinFlags a rest; Ret (Z.lor v arabicOptionSetDefault)
      else if (length rest =? 3)%nat then joinFlags a rest
      else Fail illegalArgument
  | [] => Fail illegalArgument
  end.

Definition optionChars : list (list (Z * BidiFlag)) :=
  [ [(82, LamAlefResizeBuffer); (78, LamAlefNear); (66, LamAlefAtBegin); (69, LamAlefAtEnd); (65, LamAlefAuto)];
    [(78, SeenNear); (66, SeenAtBegin); (69, SeenAtEnd); (65, SeenAuto)];
    [(79, YehHamzaOneCell); (78, YehHamzaTwoCellNear); (66, YehHamzaTwoCellAtBegin); (69, YehHamzaTwoCellAtEnd);
     (65, YehHamzaAuto)];
    [(75, TashkeelKeep); (90, TashkeelCustomizedWithZeroWidth); (87, TashkeelCustomizedWithWidth);
     (66, TashkeelCustomizedAtBegin); (69, TashkeelCustomizedAtEnd); (65, TashkeelAuto)] ].

(** Characters 7 to 10 select the modes. *)
Definition NewArabicOptionSetFromChars (chars : list Z) : ArabicOptionSet :=
  charFlags optionChars (drop 6 chars) arabicOptionSetDefault.

Definition GetLamAlefMode (s : ArabicOptionSet) : ArabicOption :=
  fieldOf s [LamAlefResizeBuffer; LamAlefNear; LamAlefAtBegin; LamAlefAtEnd; LamAlefAuto] LamAlefAtBegin.
Definition GetSeenMode (s : ArabicOptionSet) : ArabicOption :=
  fieldOf s [SeenNear; SeenAtBegin; SeenAtEnd; SeenAuto] SeenNear.
Definition GetYehHamzaMode (s : ArabicOptionSet) : ArabicOption :=
  fieldOf s [YehHamzaTwoCellNear; YehHamzaTwoCellAtBegin; YehHamzaTwoCellAtEnd; YehHamzaOneCell; YehHamzaAuto]
    YehHamzaTwoCellNear.
Definition GetTashkeelMode (s : ArabicOptionSet) : ArabicOption :=
  fieldOf s [TashkeelKeep; TashkeelCustomizedWithZeroWidth; TashkeelCustomizedWithWidth; TashkeelCustomizedAtBegin;
             TashkeelCustomizedAtEnd; TashkeelAuto] TashkeelKeep.

Definition OptionSetEquals (s : ArabicOptionSet) (other : option ArabicOptionSet) : bool :=
  match other with
  | None => false
  | Some t =>
      bool_decide (GetLamAlefMode s = GetLamAlefMode t) && bool_decide (GetSeenMode s = GetSeenMode t)
      && bool_decide (GetYehHamzaMode s = GetYehHamzaMode t) && bool_decide (GetTashkeelMode s = GetTashkeelMode t)
  end.
Definition OptionSetHashCode (s : ArabicOptionSet) : Z := s.

Definition SetOneOption (s : ArabicOptionSet) (newOption : ArabicOption) : ArabicOptionSet := setField s newOption.

(** ** String types *)

Definition StringTypeDefault : Z := 0.
Definition StringTypeNone : Z := -1.

Definition ccsidTable : list (Z * Z) :=
  [ (420, 4); (424, 4); (425, 5); (856, 5); (862, 4); (864, 5); (867, 4); (916, 5); (1046, 5); (1089, 5); (1255, 5);
    (1256, 5); (5012, 5); (5351, 5); (5352, 5); (8612, 5); (8616, 10); (9238, 5); (12708, 7); (12712, 10);
    (13488, 10); (16804, 4); (17248, 5); (61952, 10); (62208, 4); (62209, 10); (62210, 4); (62211, 5); (62212, 10);
    (62213, 5); (62214, 5); (62215, 4); (62216, 6); (62217, 8); (62218, 4); (62219, 11); (62220, 6); (62221, 6);
    (62222, 6); (62223, 6); (62224, 6); (62225, 6); (62226, 6); (62227, 6); (62228, 6); (62229, 8); (62230, 8);
    (62231, 8); (62232, 8); (62233, 8); (62234, 9); (62235, 6); (62236, 10); (62237, 8); (62238, 10); (62239, 10);
    (62240, 11); (62241, 11); (62242, 11); (62243, 11); (62244, 11); (62245, 10); (62251, 6) ].

Definition tableRow (table : list (Z * Z)) (i : Z) : Z * Z := nth (Z.to_nat i) table (0, 0).

(** The search halves what is left, so [length ccsidTable] turns are enough. *)
Fixpoint stringTypeSearch (fuel : nat) (ccsid low high : Z) : Z :=
  let found := if (low =? high) && (ccsid =? (tableRow ccsidTable low).1) then (tableRow ccsidTable low).2 else 0 in
  match fuel with
  | O => found
  | S fuel' =>
      if low <? high then
        let mid := Z.shiftr (low + high) 1 in
        let '(c, t) := tableRow ccsidTable mid in
        if ccsid <? c then stringTypeSearch fuel' ccsid low (mid - 1)
        else if c <? ccsid then stringTypeSearch fuel' ccsid (mid + 1) high
        else t
      else found
  end.

Definition StringTypeForCCSID (ccsid : Z) : Z :=
  stringTypeSearch (length ccsidTable) ccsid 0 (len ccsidTable - 1).

(** A failure of the constructor, which would be a panic, is the default set: the
    flags of a string type are disjoint. *)
Definition mustFlagSet (flags : list BidiFlag) : BidiFlagSet :=
  match NewBidiFlagSetFromFlags flags with Ret f => f | _ => bidiFlagSetDefault end.

Definition initFlagSet (stringType : Z) : BidiFlagSet :=
  if stringType =? 4 then mustFlagSet [typeVisual; numeralsNominal; orientationLTR; textShaped; swapNo]
  else if stringType =? 5 then mustFlagSet [typeImplicit; numeralsNominal; orientationLTR; textNominal; swapYes]
  else if stringType =? 6 then mustFlagSet [typeImplicit; numeralsNominal; orientationRTL; textNominal; swapYes]
  else if stringType =? 7 then mustFlagSet [typeVisual; numeralsNominal; orientationContextLTR; textNominal; swapNo]
  else if stringType =? 8 then mustFlagSet [typeVisual; numeralsNominal; orientationRTL; textShaped; swapNo]
  else if stringType =? 9 then mustFlagSet [typeVisual; numeralsNominal; orientationRTL; textShaped; swapYes]
  else if stringType =? 10 then mustFlagSet [typeImplicit; numeralsNominal; orientationContextLTR; textNominal; swapYes]
  else if stringType =? 11 then mustFlagSet [typeImplicit; numeralsNominal; orientationContextRTL; textNominal; swapYes]
  else mustFlagSet [typeImplicit; numeralsNominal; orientationLTR; textNominal; swapYes].

(** ** properties.go *)

Record Properties := mkProperties {
  StringType : Z;
  NoImplicitReordering : bool;
  NumericOrderingRoundTrip : bool;
  PropWinCompatible : bool;
  PropInsertMarkers : bool;
  PropRemoveMarkers : bool;
  RemoveMarksOnImplicitToVisual : bool;
  PropWordBreak : bool;
  NumeralShaping : Z;
  ExpandLamAlef : bool;
}.

Definition DefaultProperties : Properties :=
  mkProperties StringTypeDefault false false false false false false false 0 false.

(** The numerals of the destination; the default and unknown values keep them. *)
Definition shapedNumerals (p : Properties) (f : BidiFlagSet) : BidiFlagSet :=
  if NumeralShaping p =? 1 then SetOneFlag f numeralsNominal
  else if NumeralShaping p =? 2 then SetOneFlag f numeralsNational
  else if NumeralShaping p =? 3 then SetOneFlag f numeralsContextual
  else if NumeralShaping p =? 4 then SetOneFlag f numeralsAny
  else f.

(** * Lemmas *)

(** ** Fields of a word *)

Lemma setField_same v flag :
  Z.land (flagValue flag) (flagMask flag) = flagValue flag -> Z.land (setField v flag) (flagMask flag) = flagValue flag.
Proof.
  intros Hv. unfold setField. rewrite Z.land_lor_distr_l, Hv, <-Z.land_assoc, (Z.land_comm (Z.lnot _)), Z.land_lnot_diag.
  by rewrite Z.land_0_r.
Qed.

Lemma setField_other v flag mask :
  Z.land (flagMask flag) mask = 0 -> Z.land (flagValue flag) (flagMask flag) = flagValue flag ->
  Z.land (setField v flag) mask = Z.land v mask.
Proof.
  intros Hm Hv. unfold setField. rewrite Z.land_lor_distr_l, <-Hv, <-(Z.land_assoc (flagValue flag)), Hm, Z.land_0_r, Z.lor_0_r.
  rewrite <-Z.land_assoc. f_equal. apply Z.bits_inj'. intros n Hn. apply (f_equal (fun z => Z.testbit z n)) in Hm.
  rewrite Z.land_spec, Z.bits_0 in Hm. rewrite Z.land_spec, Z.lnot_spec by done. by destruct (Z.testbit (flagMask flag) n).
Qed.

(** The flags of one attribute: they share its mask and have different values
    within it. *)
Definition attribute (mask : Z) (flags : list BidiFlag) : bool :=
  forallb (fun flag => (flagMask flag =? mask) && (Z.land (flagValue flag) mask =? flagValue flag)) flags &&
  bool_decide (NoDup (flagValue <$> flags)).

Lemma attribute_flag mask flags flag :
  attribute mask flags = true -> flag ∈ flags -> flagMask flag = mask /\ Z.land (flagValue flag) mask = flagValue flag.
Proof.
  unfold attribute. rewrite andb_true_iff, forallb_forall. intros [Hf _] Hin%list_elem_of_In. apply Hf in Hin.
  apply andb_true_iff in Hin as [?%Z.eqb_eq ?%Z.eqb_eq]. done.
Qed.

Lemma fieldOf_value v mask flags flag d :
  attribute mask flags = true -> flag ∈ flags -> Z.land v mask = flagValue flag -> fieldOf v flags d = flag.
Proof.
  intros Ha Hin Hv. assert (forall f, f ∈ flags -> flagMask f = mask) as Hm by (intros f Hf; by apply (attribute_flag mask flags)).
  apply andb_true_iff in Ha as [_ Hnd%bool_decide_eq_true].
  revert Hnd Hm. induction Hin as [flag flags|flag other flags Hin IH]; cbn [fmap list_fmap fieldOf]; intros Hnd Hm.
  - rewrite Hm by (by left). by rewrite Hv, Z.eqb_refl.
  - rewrite (Hm other) by (by left). apply NoDup_cons in Hnd as [Hn Hnd]. destruct (Z.eqb_spec (Z.land v mask) (flagValue other)) as [E|_].
    + rewrite Hv in E. destruct Hn. rewrite <-E. apply list_elem_of_fmap. by exists flag.
    + apply IH; [done|done|]. intros f Hf. apply Hm. by right.
Qed.

Lemma fieldOf_same v w mask flags d :
  attribute mask flags = true -> Z.land v mask = Z.land w mask -> fieldOf v flags d = fieldOf w flags d.
Proof.
  intros Ha Hvw. assert (forall f, f ∈ flags -> flagMask f = mask) as Hm by (intros f Hf; by apply (attribute_flag mask flags)).
  clear Ha. induction flags as [|flag flags IH]; [done|]. cbn [fieldOf]. rewrite (Hm flag) by (by left). rewrite Hvw.
  case_match; [done|]. apply IH. intros f Hf. apply Hm. by right.
Qed.

Lemma fieldOf_set_same v mask flags flag d :
  attribute mask flags = true -> flag ∈ flags -> fieldOf (setField v flag) flags d = flag.
Proof.
  intros Ha Hin. destruct (attribute_flag mask flags flag Ha Hin) as [Hm Hv]. apply (fieldOf_value _ mask); [done..|].
  rewrite <-Hm. apply setField_same. by rewrite Hm.
Qed.

Lemma fieldOf_set_other v mask flags flag mask' flags' d :
  attribute mask flags = true -> attribute mask' flags' = true -> Z.land mask mask' = 0 -> flag ∈ flags ->
  fieldOf (setField v flag) flags' d = fieldOf v flags' d.
Proof.
  intros Ha Ha' Hd Hin. destruct (attribute_flag mask flags flag Ha Hin) as [Hm Hv]. apply (fieldOf_same _ _ mask'); [done|].
  apply setField_other; by rewrite Hm.
Qed.

Definition maskOf (flags : list BidiFlag) : Z := default 0 (flagMask <$> head flags).

Lemma reads_set v flags flag d :
  attribute (maskOf flags) flags = true -> flag ∈ flags -> fieldOf (setField v flag) flags d = flag.
Proof. apply fieldOf_set_same. Qed.
Lemma reads_other v flags flag flags' d :
  flag ∈ flags -> attribute (maskOf flags) flags = true -> attribute (maskOf flags') flags' = true ->
  Z.land (maskOf flags) (maskOf flags') = 0 -> fieldOf (setField v flag) flags' d = fieldOf v flags' d.
Proof. intros. by apply (fieldOf_set_other _ (maskOf flags) flags _ (maskOf flags')). Qed.

Definition typeFlags : list BidiFlag := [typeImplicit; typeVisual].
Definition orientationFlags : list BidiFlag := [orientationLTR; orientationRTL; orientationContextLTR; orientationContextRTL].
Definition swapFlags : list BidiFlag := [swapYes; swapNo].
Definition numeralsFlags : list BidiFlag := [numeralsNominal; numeralsNational; numeralsContextual; numeralsAny].
Definition textFlags : list BidiFlag := [textNominal; textShaped; textInitial; textMiddle; textFinal; textIsolated].

(** What a word reads as. *)
Definition attributes (f : BidiFlagSet) : BidiFlag * BidiFlag * BidiFlag * BidiFlag * BidiFlag :=
  (GetType f, GetOrientation f, GetSwap f, GetNumerals f, GetText f).

(** The five attributes of a flag set are independent fields of its word.
    Whatever the word held, setting a flag makes its attribute read as that flag
    and leaves the other four as they were. *)
Theorem one_flag_set (f : BidiFlagSet) (flag : BidiFlag) :
  let g := SetOneFlag f flag in
  (flag ∈ typeFlags -> attributes g = (flag, GetOrientation f, GetSwap f, GetNumerals f, GetText f)) /\
  (flag ∈ orientationFlags -> attributes g = (GetType f, flag, GetSwap f, GetNumerals f, GetText f)) /\
  (flag ∈ swapFlags -> attributes g = (GetType f, GetOrientation f, flag, GetNumerals f, GetText f)) /\
  (flag ∈ numeralsFlags -> attributes g = (GetType f, GetOrientation f, GetSwap f, flag, GetText f)) /\
  (flag ∈ textFlags -> attributes g = (GetType f, GetOrientation f, GetSwap f, GetNumerals f, flag)).
Proof.
  cbv zeta. unfold attributes, SetOneFlag, GetType, GetOrientation, GetSwap, GetNumerals, GetText.
  split_and!; intros Hin;
    repeat match goal with |- (_, _) = (_, _) => f_equal end;
    first [ apply reads_set; [by vm_compute|exact Hin] | eapply reads_other; [exact Hin|..]; by vm_compute ].
Qed.

(** ** Texts of flag sets *)

Definition allFlagSets : list BidiFlagSet :=
  t ← typeFlags; o ← orientationFlags; s ← swapFlags; n ← numeralsFlags; x ← textFlags;
  [Z.lor (flagValue t) (Z.lor (flagValue o) (Z.lor (flagValue s) (Z.lor (flagValue n) (flagValue x))))].

(** The text of a flag set is one the parser reads back as the same set,
    for each of the 384 sets. *)
Theorem flag_text_roundtrip (f : BidiFlagSet) :
  f ∈ allFlagSets -> NewBidiFlagSetFromString (bidiFlagSetString f) = Ret f.
Proof.
  assert (Forall (fun f => parseBidiFlagSet (bidiFlagSetString f) = f /\ (f <? 0) = false) allFlagSets) as Hall.
  { apply (bool_decide_unpack _). by vm_compute. }
  intros Hin. rewrite Forall_forall in Hall. apply Hall in Hin as [Hp Hn]. unfold NewBidiFlagSetFromString. by rewrite Hp, Hn.
Qed.

Lemma flag_text_roundtrip_witness :
  (0x03730709 : BidiFlagSet) ∈ allFlagSets /\
  NewBidiFlagSetFromString
    (lit "typeoftext=visual, orientation=contextual, context=rtl, swapping=no, numerals=any, shaping=shform3") = Ret 0x03730709.
Proof.
  assert ((0x03730709 : BidiFlagSet) ∈ allFlagSets) as H by (apply (bool_decide_unpack _); by vm_compute).
  split; [exact H|]. exact (flag_text_roundtrip 0x03730709 H).
Defined.

(** ** The search for a string type *)

Definition rowsBelow (c low : Z) : Prop := forall i, 0 <= i < low -> (tableRow ccsidTable i).1 < c.
Definition rowsAbove (c high : Z) : Prop := forall i, high < i < len ccsidTable -> c < (tableRow ccsidTable i).1.

Lemma ccsidTable_sorted i j : 0 <= i < j -> j < len ccsidTable -> (tableRow ccsidTable i).1 < (tableRow ccsidTable j).1.
Proof.
  assert (StronglySorted Z.lt ccsidTable.*1) as Hs.
  { apply Sorted_StronglySorted; [apply _|]. apply (bool_decide_unpack _). by vm_compute. }
  intros Hij Hj. unfold tableRow, len in *.
  assert (forall k, (k < length ccsidTable)%nat -> ccsidTable.*1 !! k = Some (nth k ccsidTable (0, 0)).1) as Hk.
  { intros k Hk. rewrite list_lookup_fmap. destruct (lookup_lt_is_Some_2 _ _ Hk) as [p Hp]. rewrite Hp.
    cbn [fmap option_fmap option_map]. by rewrite (nth_lookup_Some _ _ _ _ Hp). }
  eapply (StronglySorted_app_1_elem_of _ (take (Z.to_nat j) ccsidTable.*1) (drop (Z.to_nat j) ccsidTable.*1));
    [by rewrite take_drop| |].
  - apply list_elem_of_lookup. exists (Z.to_nat i). rewrite lookup_take_lt by lia. apply Hk. lia.
  - apply list_elem_of_lookup. exists 0%nat. rewrite lookup_drop, Nat.add_0_r. apply Hk. lia.
Qed.

Lemma tableRow_in i : 0 <= i < len ccsidTable -> tableRow ccsidTable i ∈ ccsidTable.
Proof. intros Hi. apply list_elem_of_In, nth_In. unfold len in Hi. lia. Qed.

Lemma find_row c i : 0 <= i < len ccsidTable -> (tableRow ccsidTable i).1 = c ->
  find (fun p => p.1 =? c) ccsidTable = Some (tableRow ccsidTable i).
Proof.
  intros Hi Hc. destruct (find _ ccsidTable) as [p|] eqn:E.
  - apply find_some in E as [Hin Hp%Z.eqb_eq]. apply list_elem_of_In, list_elem_of_lookup in Hin as [j Hj].
    pose proof (lookup_lt_Some _ _ _ Hj) as Hl. assert (p = tableRow ccsidTable (Z.of_nat j)) as ->.
    { unfold tableRow. rewrite Nat2Z.id. symmetry. by apply nth_lookup_Some. }
    f_equal. destruct (Z.lt_trichotomy i (Z.of_nat j)) as [Hlt|[->|Hlt]]; [|done|].
    + pose proof (ccsidTable_sorted i (Z.of_nat j)). unfold len in *. lia.
    + pose proof (ccsidTable_sorted (Z.of_nat j) i). unfold len in *. lia.
  - eapply find_none in E; [|by apply list_elem_of_In, (tableRow_in i)]. by rewrite Hc, Z.eqb_refl in E.
Qed.

Lemma find_no_row c low high : rowsBelow c low -> rowsAbove c high -> high < low ->
  find (fun p => p.1 =? c) ccsidTable = None.
Proof.
  intros Hb Ha Hlt. destruct (find _ ccsidTable) as [p|] eqn:E; [|done].
  apply find_some in E as [Hin Hp%Z.eqb_eq]. apply list_elem_of_In, list_elem_of_lookup in Hin as [j Hj].
  pose proof (lookup_lt_Some _ _ _ Hj) as Hl. assert ((tableRow ccsidTable (Z.of_nat j)).1 = c) as Hc.
  { unfold tableRow. rewrite Nat2Z.id. by rewrite (nth_lookup_Some _ _ _ _ Hj). }
  destruct (Z.lt_ge_cases (Z.of_nat j) low) as [H|H]; [specialize (Hb (Z.of_nat j))|specialize (Ha (Z.of_nat j))]; unfold len in *; lia.
Qed.

Definition stringTypeOf (c : Z) : Z := match find (fun p => p.1 =? c) ccsidTable with Some p => p.2 | None => 0 end.

Lemma stringTypeSearch_spec fuel c low high :
  0 <= low -> high < len ccsidTable -> high - low < Z.of_nat fuel -> rowsBelow c low -> rowsAbove c high ->
  stringTypeSearch fuel c low high = stringTypeOf c.
Proof.
  revert low high. induction fuel as [|fuel IH]; intros low high Hlow Hhigh Hfuel Hb Ha.
  { cbn. destruct (Z.eqb_spec low high); [lia|]. unfold stringTypeOf. by rewrite (find_no_row c low high) by (done || lia). }
  cbn [stringTypeSearch]. destruct (Z.ltb_spec low high) as [Hlt|Hge].
  - assert (low <= Z.shiftr (low + high) 1 < high) as Hmid by (rewrite Z.shiftr_div_pow2 by lia; change (2 ^ 1) with 2; Z.to_euclidean_division_equations; lia).
    set (mid := Z.shiftr (low + high) 1) in *. destruct (tableRow ccsidTable mid) as [k t] eqn:Et.
    destruct (Z.ltb_spec c k); [|destruct (Z.ltb_spec k c)].
    + apply IH; try lia; [done|]. intros i Hi. destruct (decide (i = mid)) as [->|]; [by rewrite Et|].
      pose proof (ccsidTable_sorted mid i). rewrite Et in *. cbn [fst] in *. lia.
    + apply IH; try lia; [|done]. intros i Hi. destruct (decide (i = mid)) as [->|]; [by rewrite Et|].
      pose proof (ccsidTable_sorted i mid). rewrite Et in *. cbn [fst] in *. lia.
    + unfold stringTypeOf. rewrite (find_row c mid), Et by (try rewrite Et; cbn [fst]; lia). done.
  - destruct (Z.eqb_spec low high) as [->|]; cbn [andb].
    + destruct (Z.eqb_spec c (tableRow ccsidTable high).1) as [->|Hne].
      * unfold stringTypeOf. by rewrite (find_row _ high) by lia.
      * unfold stringTypeOf. destruct (find _ ccsidTable) eqn:E; [|done]. exfalso.
        destruct (Z.lt_trichotomy c (tableRow ccsidTable high).1) as [H|[H|H]]; [|done|].
        -- rewrite (find_no_row c high (high - 1)) in E; [done|done| |lia]. intros i Hi. destruct (decide (i = high)) as [->|]; [done|].
           apply Ha. lia.
        -- rewrite (find_no_row c (high + 1) high) in E; [done| |done|lia]. intros i Hi. destruct (decide (i = high)) as [->|]; [done|].
           apply Hb. lia.
    + unfold stringTypeOf. by rewrite (find_no_row c low high) by (done || lia).
Qed.

(** The binary search for the string type of a CCSID finds what is in the
    table: it agrees with a search of the rows in order, for every number. *)
Theorem string_type_is_table_row (ccsid : Z) :
  StringTypeForCCSID ccsid = match find (fun p => p.1 =? ccsid) ccsidTable with Some p => p.2 | None => 0 end.
Proof. apply stringTypeSearch_spec; [lia|lia|unfold len; lia|intros ??; lia|intros ??; lia]. Qed.
