(* ===== verification/BidiOrder.v ===== *)
(** The reordering of bidirectional text (internal/bidi/order.go, text.go,
    transform.go): the classes of characters, the embedding levels that the
    implicit tables give them, and the order in which they are displayed.

    [order] works on a state of its own, which a [BidiTransform] keeps between
    calls; every field of it is set before it is read, except the insertion
    points, which are part of the transform here. *)
From Stdlib Require Import Strings.String.
From stdpp Require Import base list numbers sorting.
From S2P Require Import Prelude Arrays BidiFlags.
Open Scope Z_scope.

(** ** Texts and transforms *)

(** [Data] is [None] for a nil slice. *)
Record bidiText := mkText { textAttrs : BidiFlagSet; Data : option (list Z); Offset : Z; Count : Z }.

Definition units (t : bidiText) : list Z := default [] (Data t).

Definition NewBidiText : bidiText := mkText NewBidiFlagSet None 0 0.

Definition NewBidiTextFromRange (flags : BidiFlagSet) (initData : list Z) (offset length capacity : Z) : outcome bidiText :=
  if capacity <? length then Panic
  else
    data ← makeSlice capacity 0;
    source ← cut initData offset (offset + length);
    data ← blit data 0 capacity source;
    Ret (mkText flags (Some data) 0 length).
Definition NewBidiTextFromData (flags : BidiFlagSet) (initData : list Z) : outcome bidiText :=
  NewBidiTextFromRange flags initData 0 (len initData) (len initData).

Definition ToCharArray (t : bidiText) : outcome (list Z) :=
  out ← makeSlice (Count t) 0;
  source ← cut (units t) (Offset t) (Offset t + Count t);
  blit out 0 (Count t) source.

(** Comparing stops at the first difference. *)
Fixpoint sameUnits (n : nat) (a : list Z) (i : Z) (b : list Z) (j : Z) : outcome bool :=
  match n with
  | O => Ret true
  | S n' => x ← at_ a i; y ← at_ b j; if x =? y then sameUnits n' a (i + 1) b (j + 1) else Ret false
  end.

Definition TextEquals (t : bidiText) (other : option bidiText) : outcome bool :=
  match other with
  | None => Ret false
  | Some u =>
      if negb (Count t =? Count u) || negb (textAttrs t =? textAttrs u) then Ret false
      else sameUnits (Z.to_nat (Count t)) (units t) (Offset t) (units u) (Offset u)
  end.

Record transformOptions := mkOptions {
  ImpToImp : bool;
  RoundTrip : bool;
  WinCompatible : bool;
  InsertMarkers : bool;
  RemoveMarkers : bool;
  Delimiters : list Z;
  Options : option ArabicOptionSet;
  WordBreak : bool;
  SrcToDstMapRequired : bool;
  DstToSrcMapRequired : bool;
  PropertyMapRequired : bool;
}.

(** The outputs of a transform; a nil map is empty. *)
Record transformMaps := mkMaps {
  InpCount : Z;
  OutCount : Z;
  SrcToDstMap : list Z;
  DstToSrcMap : list Z;
  PropertyMap : list Z;
  insertPoints : option (list Z);
}.

Record BidiTransform := mkTransform { Flags : BidiFlagSet; options : transformOptions; maps : transformMaps }.

Definition defaultOptions : transformOptions :=
  mkOptions true false false false false [] None false false false false.
Definition emptyMaps : transformMaps := mkMaps 0 0 [] [] [] None.
Definition NewBidiTransform : BidiTransform := mkTransform NewBidiFlagSet defaultOptions emptyMaps.

(** ** Classes of characters *)

Definition ubatB : Z := 0.
Definition ubatS : Z := 1.
Definition ubatL : Z := 2.
Definition ubatR : Z := 3.
Definition ubatEN : Z := 4.
Definition ubatAN : Z := 5.
Definition ubatW : Z := 6.
Definition ubatN : Z := 7.
Definition ubatBD : Z := 8.
Definition ubatAL : Z := 9.
Definition ubatET : Z := 10.
Definition ubatES : Z := 11.
Definition ubatCS : Z := 12.
Definition ubatNSM : Z := 13.
Definition ubatNSwap : Z := -7.

Definition lrm : Z := 0x200E.
Definition rlm : Z := 0x200F.
Definition before : Z := 0.
Definition after : Z := 65536.
Definition noDelim : Z := 0xFFFF.

Definition inRanges (x : Z) (ranges : list (Z * Z)) : bool := existsb (fun r => (r.1 <=? x) && (x <=? r.2)) ranges.

Definition getChType (x : Z) : Z :=
  if inRanges x [(0x0A, 0x0A); (0x0D, 0x0D); (0x1C, 0x1E); (0x85, 0x85); (0x2029, 0x2029)] then ubatB
  else if inRanges x [(0x09, 0x09); (0x0B, 0x0B); (0x1F, 0x1F)] then ubatS
  else if inRanges x
    [(0x0041, 0x005A); (0x0061, 0x007A); (0x00C0, 0x00D6); (0x00D8, 0x00F6); (0x00F8, 0x058F); (0x0900, 0x10FF);
     (0x200E, 0x200E); (0x20D0, 0x20FF); (0x2160, 0x2182); (0x3040, 0x9FFF); (0xF900, 0xFB17); (0xFE60, 0xFE60);
     (0xFE6B, 0xFE6B); (0xFF06, 0xFF06); (0xFF20, 0xFF3A); (0xFF41, 0xFF5A); (0xFF60, 0xFFDF)] then ubatL
  else if inRanges x [(0x0591, 0x05FF); (0x200F, 0x200F); (0xFB1D, 0xFB4F)] then ubatR
  else if inRanges x [(0x0600, 0x065F); (0x066E, 0x06EF); (0x06FA, 0x08FF); (0xFB50, 0xFDFF); (0xFE70, 0xFEFC)] then ubatAL
  else if inRanges x
    [(0x0030, 0x0039); (0x00B2, 0x00B3); (0x00B9, 0x00B9); (0x06F0, 0x06F9); (0x2070, 0x2070); (0x2074, 0x2079);
     (0x2080, 0x2089); (0x2460, 0x249B); (0x24EA, 0x24EA); (0xFF10, 0xFF19)] then ubatEN
  else if inRanges x [(0x0660, 0x0669); (0x066B, 0x066C)] then ubatAN
  else if inRanges x
    [(0x0023, 0x0025); (0x00A2, 0x00A5); (0x00B0, 0x00B1); (0x066A, 0x066A); (0x09F2, 0x09F3); (0x0AF1, 0x0AF1);
     (0x0BF9, 0x0BF9); (0x0E3F, 0x0E3F); (0x17DB, 0x17DB); (0x2030, 0x2034); (0x207A, 0x207B); (0x208A, 0x208B);
     (0x20A0, 0x20B1); (0x212E, 0x212E); (0x2212, 0x2213); (0xFB29, 0xFB29); (0xFE5F, 0xFE5F); (0xFE62, 0xFE63);
     (0xFE69, 0xFE6A); (0xFF03, 0xFF05); (0xFF0B, 0xFF0B); (0xFF0D, 0xFF0D); (0xFFE0, 0xFFE1); (0xFFE5, 0xFFE6)] then ubatET
  else if inRanges x [(0x2B, 0x2B); (0x2D, 0x2D); (0x2F, 0x2F); (0xFF0F, 0xFF0F)] then ubatES
  else if inRanges x
    [(0x2C, 0x2C); (0x2E, 0x2E); (0x3A, 0x3A); (0xA0, 0xA0); (0x060C, 0x060C); (0xFE50, 0xFE50); (0xFE52, 0xFE52);
     (0xFE55, 0xFE55); (0xFF0C, 0xFF0C); (0xFF0E, 0xFF0E); (0xFF1A, 0xFF1A)] then ubatCS
  else if inRanges x
    [(0x0C, 0x0C); (0x20, 0x20); (0x1680, 0x1680); (0x180E, 0x180E); (0x2000, 0x200A); (0x2028, 0x2028);
     (0x202F, 0x202F); (0x205F, 0x205F); (0x3000, 0x3000)] then ubatW
  else if inRanges x [(0x202A, 0x202E); (0x206C, 0x206F)] then ubatBD
  else ubatN.

Definition getChTypeWB (x : Z) (wordBreak : bool) : Z := if wordBreak && (x =? 0x20) then ubatS else getChType x.

(** The class of the first strong character of units given in the order they
    are looked at. *)
Fixpoint strongOf (us : list Z) : Z :=
  match us with
  | [] => ubatN
  | u :: us' =>
      let t := getChType u in
      if t =? ubatL then ubatL else if (t =? ubatR) || (t =? ubatAL) then ubatR else strongOf us'
  end.
Definition firstStrong (src : list Z) : Z := strongOf src.
Definition lastStrong (src : list Z) : Z := strongOf (reverse src).

(** The symmetric counterparts, searched by halves: 24 rows take five turns. *)
Definition symPairs : list (Z * Z) :=
  [ (40, 41); (41, 40); (60, 62); (62, 60); (91, 93); (93, 91); (123, 125); (125, 123); (171, 187); (187, 171);
    (8317, 8318); (8318, 8317); (8333, 8334); (8334, 8333); (9001, 9002); (9002, 9001); (65113, 65114); (65114, 65113);
    (65115, 65116); (65116, 65115); (65117, 65118); (65118, 65117); (65124, 65125); (65125, 65124) ].

Fixpoint symSearch (fuel : nat) (x low high : Z) : Z :=
  match fuel with
  | O => x
  | S fuel' =>
      if low <=? high then
        let mid := (low + high) / 2 in
        let '(c, counterpart) := tableRow symPairs mid in
        if x <? c then symSearch fuel' x low (mid - 1)
        else if c <? x then symSearch fuel' x (mid + 1) high
        else counterpart
      else x
  end.
Definition ucqsymm (x : Z) : Z := symSearch 5 x 0 23.

(** ** The implicit tables

    A row per state, a column per class up to N; an entry is the next state in its
    low four bits and an action in the others.  Columns 8 and 9 are the level
    increment and whether the level is conditional. *)

Definition impTabLTR : list (list Z) :=
  [ [0; 0; 0; 3; 0; 1; 0; 0; 0; 0];
    [0; 0; 0; 3; 0; 1; 2; 2; 2; 0];
    [0; 0; 0; 3; 0; 17; 2; 2; 0; 1];
    [0; 0; 0; 3; 5; 5; 4; 4; 1; 0];
    [0; 0; 0; 3; 21; 21; 4; 4; 0; 1];
    [0; 0; 0; 3; 5; 5; 4; 4; 2; 0] ].

Definition impTabRTL : list (list Z) :=
  [ [0; 0; 2; 0; 1; 1; 0; 0; 0; 0];
    [0; 0; 2; 0; 1; 1; 0; 0; 1; 0];
    [0; 0; 2; 0; 2; 1; 3; 3; 1; 0];
    [0; 0; 2; 0; 2; 33; 3; 3; 0; 1] ].

Definition impTabLTRr : list (list Z) :=
  [ [0; 0; 0; 2; 0; 1; 0; 0; 0; 0];
    [0; 0; 0; 2; 0; 1; 3; 3; 2; 0];
    [0; 0; 0; 2; 4; 1; 3; 3; 1; 0];
    [0; 0; 0; 34; 4; 4; 3; 3; 1; 1];
    [0; 0; 0; 34; 4; 4; 3; 3; 2; 1] ].

Definition impTabRTLr : list (list Z) :=
  [ [0; 0; 3; 0; 1; 2; 0; 0; 0; 0];
    [32; 32; 3; 32; 1; 34; 5; 5; 1; 1];
    [0; 0; 3; 0; 1; 2; 0; 0; 1; 0];
    [0; 0; 3; 0; 3; 2; 4; 4; 1; 0];
    [0; 0; 3; 0; 3; 34; 4; 4; 0; 1];
    [32; 32; 3; 32; 1; 34; 5; 5; 0; 1] ].

Definition impTabLTRw : list (list Z) :=
  [ [0; 0; 0; 2; 1; 1; 0; 0; 0; 0];
    [0; 0; 0; 2; 1; 1; 0; 0; 2; 0];
    [0; 0; 0; 2; 4; 4; 3; 3; 1; 0];
    [0; 0; 0; 2; 20; 20; 3; 3; 0; 1];
    [0; 0; 0; 2; 4; 4; 3; 3; 2; 0] ].

Definition impTabLTRm : list (list Z) :=
  [ [0; 0; 0; 99; 0; 1; 0; 0; 0; 0];
    [0; 0; 0; 99; 0; 1; 2; 2; 2; 0];
    [0; 0; 0; 99; 0; 33; 2; 2; 1; 1];
    [0; 0; 0; 99; 85; 86; 4; 4; 1; 0];
    [48; 48; 48; 67; 85; 86; 4; 4; 1; 1];
    [48; 48; 48; 67; 5; 86; 4; 4; 2; 0];
    [48; 48; 48; 67; 85; 6; 4; 4; 2; 0] ].

Definition impTabRTLm : list (list Z) :=
  [ [0; 0; 3; 0; 1; 1; 0; 0; 0; 0];
    [0; 0; 115; 0; 1; 1; 2; 2; 1; 0];
    [0; 0; 115; 0; 1; 1; 2; 2; 0; 0];
    [0; 0; 3; 0; 3; 134; 4; 4; 1; 0];
    [144; 144; 163; 144; 5; 134; 4; 4; 0; 1];
    [144; 144; 163; 144; 5; 134; 4; 4; 1; 1];
    [144; 144; 163; 144; 6; 6; 4; 4; 1; 1] ].

Definition impTabLTRwm : list (list Z) :=
  [ [0; 0; 0; 98; 1; 1; 0; 0; 0; 0];
    [0; 0; 0; 98; 1; 1; 0; 0; 2; 0];
    [0; 0; 0; 98; 84; 84; 3; 3; 1; 0];
    [48; 48; 48; 66; 84; 84; 3; 3; 1; 1];
    [48; 48; 48; 66; 4; 4; 3; 3; 2; 0] ].

Definition itil : Z := 8.
Definition itcond : Z := 9.

(** ** Levels *)

(** What changes while the levels are computed: a pair of types per position
    (original, and after the weak and neutral rules), the bytes of the property
    map, and the state of the automaton. *)
Record levelState := mkLevels {
  origTypes : list Z;
  finalTypes : list Z;
  propertyMap : list Z;
  points : option (list Z);
  ucbImpSta : Z;
  ucbCondPos : Z;
  startL2EN : Z;
  lastStrongRTL : Z;
  insertCnt : Z;
}.

Definition setOrig (s : levelState) (l : list Z) : levelState :=
  mkLevels l (finalTypes s) (propertyMap s) (points s) (ucbImpSta s) (ucbCondPos s) (startL2EN s) (lastStrongRTL s) (insertCnt s).
Definition setFinal (s : levelState) (l : list Z) : levelState :=
  mkLevels (origTypes s) l (propertyMap s) (points s) (ucbImpSta s) (ucbCondPos s) (startL2EN s) (lastStrongRTL s) (insertCnt s).
Definition setProperty (s : levelState) (l : list Z) : levelState :=
  mkLevels (origTypes s) (finalTypes s) l (points s) (ucbImpSta s) (ucbCondPos s) (startL2EN s) (lastStrongRTL s) (insertCnt s).
Definition setPoints (s : levelState) (p : option (list Z)) : levelState :=
  mkLevels (origTypes s) (finalTypes s) (propertyMap s) p (ucbImpSta s) (ucbCondPos s) (startL2EN s) (lastStrongRTL s) (insertCnt s).
Definition setImpSta (s : levelState) (n : Z) : levelState :=
  mkLevels (origTypes s) (finalTypes s) (propertyMap s) (points s) n (ucbCondPos s) (startL2EN s) (lastStrongRTL s) (insertCnt s).
Definition setCondPos (s : levelState) (n : Z) : levelState :=
  mkLevels (origTypes s) (finalTypes s) (propertyMap s) (points s) (ucbImpSta s) n (startL2EN s) (lastStrongRTL s) (insertCnt s).
Definition setStartL2EN (s : levelState) (n : Z) : levelState :=
  mkLevels (origTypes s) (finalTypes s) (propertyMap s) (points s) (ucbImpSta s) (ucbCondPos s) n (lastStrongRTL s) (insertCnt s).
Definition setLastStrongRTL (s : levelState) (n : Z) : levelState :=
  mkLevels (origTypes s) (finalTypes s) (propertyMap s) (points s) (ucbImpSta s) (ucbCondPos s) (startL2EN s) n (insertCnt s).
Definition setInsertCnt (s : levelState) (n : Z) : levelState :=
  mkLevels (origTypes s) (finalTypes s) (propertyMap s) (points s) (ucbImpSta s) (ucbCondPos s) (startL2EN s) (lastStrongRTL s) n.

(** What does not change. *)
Record levelRun := mkRun {
  impTab : list (list Z);
  ucbCurLev : Z;
  icsSymmetric : bool;
  impToImpPhase : Z;
  dstToSrc : list Z;
  icsSize : Z;
  winCompatible : bool;
}.

Abbreviation i8 := (wraps 8).

Definition abs8 (x : Z) : Z := if x <? 0 then i8 (- x) else x.

(** [setVectorSize]. *)
Definition setVectorSize (v : list Z) (n : Z) : outcome (list Z) :=
  if n <=? len v then cut v 0 n else Ret (v ++ replicate (Z.to_nat (n - len v)) 0).

Definition truncatePoints (s : levelState) (n : Z) : outcome levelState :=
  match points s with None => Ret s | Some v => v ← setVectorSize v n; Ret (setPoints s (Some v)) end.

(** The key of an insertion point is packed in 32 bits. *)
Definition addPoint (s : levelState) (pos aft insert : Z) : levelState :=
  setPoints s (Some (default [] (points s) ++ [i32 (i32 (Z.shiftl (i32 pos) 17) + aft + insert)])).

(** The positions after and before a run of digits. *)
Fixpoint afterClasses (fuel : nat) (classes : list Z) (final : list Z) (size i : Z) : outcome Z :=
  match fuel with
  | O => Ret i
  | S fuel' =>
      if i <? size then
        t ← at_ final i;
        if existsb (Z.eqb t) classes then afterClasses fuel' classes final size (i + 1) else Ret i
      else Ret i
  end.
Fixpoint beforeClasses (fuel : nat) (classes : list Z) (final : list Z) (i : Z) : outcome Z :=
  match fuel with
  | O => Ret i
  | S fuel' =>
      if 0 <=? i then
        t ← at_ final i;
        if existsb (Z.eqb t) classes then beforeClasses fuel' classes final (i - 1) else Ret i
      else Ret i
  end.
Definition afterAN (r : levelRun) (s : levelState) (i : Z) : outcome Z :=
  afterClasses (Z.to_nat (icsSize r)) [ubatAN] (finalTypes s) (icsSize r) i.
Definition afterENAN (r : levelRun) (s : levelState) (i : Z) : outcome Z :=
  afterClasses (Z.to_nat (icsSize r)) [ubatEN; ubatAN] (finalTypes s) (icsSize r) i.
Definition beforeENAN (s : levelState) (i : Z) : outcome Z :=
  beforeClasses (S (Z.to_nat i)) [ubatEN; ubatAN] (finalTypes s) i.

Definition symmetricSwap (r : levelRun) (i oldLevel level : Z) (s : levelState) : outcome levelState :=
  if icsSymmetric r && Z.odd (Z.lxor oldLevel level) then
    pos ← (if impToImpPhase r =? 2 then at_ (dstToSrc r) i else Ret i);
    t ← at_ (origTypes s) pos;
    if t =? ubatN then l ← put (origTypes s) pos ubatNSwap; Ret (setOrig s l)
    else if t =? ubatNSwap then l ← put (origTypes s) pos ubatN; Ret (setOrig s l)
    else Ret s
  else Ret s.

(** The conditional run from [from] to [ix] at a level. *)
Definition setRun (r : levelRun) (from ix level : Z) (s : levelState) : outcome levelState :=
  forRange from ix (fun i s =>
    oldLevel ← at_ (propertyMap s) i;
    l ← put (propertyMap s) i (u8 level);
    symmetricSwap r i (i8 oldLevel) level (setProperty s l)) s.

Definition pointCount (s : levelState) : Z := len (default [] (points s)).

(** The actions of an entry. *)
Definition act (r : levelRun) (special ix xType newLevel : Z) (s : levelState) : outcome levelState :=
  match special with
  | 1 => s ← setRun r (ucbCondPos s) ix (i8 (ucbCurLev r + 1)) s; Ret (setCondPos s (-1))
  | 2 => Ret (setCondPos s (-1))
  | 3 =>
      let s := if 0 <=? startL2EN s then addPoint s (startL2EN s) before lrm else s in
      let s := setStartL2EN s (-1) in
      if bool_decide (points s = None) || (pointCount s <=? insertCnt s) then Ret (setLastStrongRTL s (-1))
      else
        s ← forRange (lastStrongRTL s + 1) ix (fun i s =>
              l ← put (propertyMap s) i (u8 newLevel);
              t ← at_ (origTypes s) i;
              o ← put (origTypes s) i (abs8 t);
              Ret (setOrig (setProperty s l) o)) s;
        Ret (setLastStrongRTL (setInsertCnt s (pointCount s)) (-1))
  | 4 => s ← truncatePoints s (insertCnt s); Ret (setLastStrongRTL (setStartL2EN s (-1)) ix)
  | 5 =>
      let s := setCondPos s (-1) in
      arabic ← (if xType =? ubatAN then t ← at_ (origTypes s) ix; Ret ((t =? ubatAN) && negb (winCompatible r)) else Ret false);
      if arabic : bool then
        if startL2EN s =? -1 then i ← afterAN r s ix; Ret (setLastStrongRTL s (i - 1))
        else
          let s := if 0 <=? startL2EN s then setStartL2EN (addPoint s (startL2EN s) before lrm) (-2) else s in
          Ret (addPoint s ix before lrm)
      else Ret (if startL2EN s =? -1 then setStartL2EN s ix else s)
  | 6 => Ret (setLastStrongRTL s ix)
  | 7 =>
      i ← beforeENAN s (ix - 1);
      if i <? 0 then Ret s else let s := addPoint s i before rlm in Ret (setInsertCnt s (pointCount s))
  | 8 =>
      pos ← afterENAN r s ix;
      i ← beforeENAN s ix;
      closed ← (if icsSize r <=? pos then Ret true
                else t ← at_ (finalTypes s) pos; Ret ((t =? ubatL) || (t =? ubatR)));
      opened ← (if closed && (0 <=? i) then t ← at_ (finalTypes s) i; Ret (t =? ubatL) else Ret false);
      if opened : bool then Ret s else Ret (addPoint (addPoint s (pos - 1) after lrm) (i + 1) before lrm)
  | 9 => s ← truncatePoints s (insertCnt s); Ret (setCondPos s (-1))
  | 10 => Ret (match points s with None => s | Some v => setInsertCnt s (len v) end)
  | _ => Panic
  end.

Definition implicitProcessing (r : levelRun) (ix xType : Z) (s : levelState) : outcome (levelState * Z) :=
  row ← at_ (impTab r) (ucbImpSta s);
  entry ← at_ row xType;
  let special := Z.shiftr entry 4 in
  let newIS := Z.land entry 15 in
  newRow ← at_ (impTab r) newIS;
  newIL ← at_ newRow itil;
  let newLevel := i8 (ucbCurLev r + newIL) in
  s ← (if 0 <? special then act r special ix xType newLevel s else Ret s);
  sCond ← at_ newRow itcond;
  s ← (if sCond =? 0 then
         if -1 <? ucbCondPos s then s ← setRun r (ucbCondPos s) ix newLevel s; Ret (setCondPos s (-1)) else Ret s
       else Ret (if ucbCondPos s =? -1 then setCondPos s ix else s));
  Ret (setImpSta s newIS, if xType =? ubatB then 0 else newLevel).

(** ** Types after the weak and neutral rules

    [p] gives the position in the type arrays of a position of the text: the
    identity, or in the second phase of an implicit to implicit transformation
    the position in the source.  A pair is the original and the final types. *)

Definition typePair : Type := (list Z * list Z)%type.

Definition origAt (p : Z -> outcome Z) (ta : typePair) (i : Z) : outcome Z := k ← p i; at_ ta.1 k.
Definition finalAt (p : Z -> outcome Z) (ta : typePair) (i : Z) : outcome Z := k ← p i; at_ ta.2 k.
Definition setFinalAt (p : Z -> outcome Z) (ta : typePair) (i t : Z) : outcome typePair :=
  k ← p i; l ← put ta.2 k t; Ret (ta.1, l).

(** [i >= 2], the class before [i] is [a] and the one before that is [b]. *)
Definition follows (p : Z -> outcome Z) (secondAt : Z -> outcome Z) (ta : typePair) (i a b : Z) : outcome bool :=
  if 2 <=? i then
    t ← origAt p ta (i - 1);
    if t =? a then u ← secondAt (i - 2); Ret (u =? b) else Ret false
  else Ret false.

(** The terminators before a number become part of it. *)
Fixpoint terminators (fuel : nat) (p : Z -> outcome Z) (ta : typePair) (prev : Z) : outcome typePair :=
  match fuel with
  | O => Ret ta
  | S fuel' =>
      if 0 <=? prev then
        t ← origAt p ta prev;
        if t =? ubatET then ta ← setFinalAt p ta prev ubatEN; terminators fuel' p ta (prev - 1) else Ret ta
      else Ret ta
  end.

Definition europeanNumber (p : Z -> outcome Z) (isArabic : bool) (i : Z) (ta : typePair) : outcome typePair :=
  let wType := if isArabic then ubatAN else ubatEN in
  ta ← (if isArabic then Ret ta
        else
          separated ← follows p (origAt p ta) ta i ubatES ubatEN;
          ta ← (if separated : bool then setFinalAt p ta (i - 1) ubatEN else Ret ta);
          terminators (Z.to_nat i) p ta (i - 1));
  separated ← follows p (origAt p ta) ta i ubatCS ubatEN;
  ta ← (if separated : bool then setFinalAt p ta (i - 1) wType else Ret ta);
  setFinalAt p ta i wType.

Definition classStep (p : Z -> outcome Z) (second isArabic : bool) (i cType : Z) (ta : typePair)
    : outcome (bool * typePair) :=
  if cType =? ubatB then ta ← setFinalAt p ta i ubatB; Ret (false, ta)
  else if cType =? ubatS then ta ← setFinalAt p ta i ubatS; Ret (isArabic, ta)
  else if cType =? ubatL then ta ← setFinalAt p ta i ubatL; Ret (false, ta)
  else if cType =? ubatR then ta ← setFinalAt p ta i ubatR; Ret (false, ta)
  else if cType =? ubatAL then ta ← setFinalAt p ta i ubatR; Ret (true, ta)
  else if cType =? ubatEN then ta ← europeanNumber p isArabic i ta; Ret (isArabic, ta)
  else if cType =? ubatAN then
    separated ← follows p (if second then origAt p ta else finalAt p ta) ta i ubatCS ubatAN;
    ta ← (if separated : bool then setFinalAt p ta (i - 1) ubatAN else Ret ta);
    ta ← setFinalAt p ta i ubatAN; Ret (isArabic, ta)
  else if cType =? ubatW then ta ← setFinalAt p ta i ubatW; Ret (isArabic, ta)
  else if cType =? ubatET then
    if 0 <? i then
      t ← finalAt p ta (i - 1);
      if t =? ubatEN then ta ← setFinalAt p ta i ubatEN; Ret (isArabic, ta) else Ret (isArabic, ta)
    else Ret (isArabic, ta)
  else if (cType =? ubatNSM) && negb second && (0 <? i) then
    t ← finalAt p ta (i - 1); ta ← setFinalAt p ta i t; Ret (isArabic, ta)
  else Ret (isArabic, ta).

(** The delimiters: text is transformed between [delim1] and a single [delim2].
    The next state, and whether the position counts as a separator. *)
Definition delimStep (delim1 delim2 delimState c : Z) (next : option Z) : Z * bool :=
  if delim1 =? noDelim then (delimState, false)
  else if delimState =? 0 then (if c =? delim1 then 1 else 0, true)
  else if delimState =? 1 then
    if c =? delim2 then if bool_decide (next = Some delim2) then (2, false) else (0, true)
    else (1, false)
  else (1, false).

Definition fillTypeArray (icsBufferIn : list Z) (wordBreak visToVis : bool) (delim1 delim2 : Z) (ta : typePair)
    : outcome typePair :=
  state ← forRange 0 (len icsBufferIn) (fun i '(isArabic, delimState, ta) =>
    c ← at_ icsBufferIn i;
    let cType := getChTypeWB c wordBreak in
    orig ← put ta.1 i cType;
    final ← put ta.2 i ubatN;
    let '(delimState, separator) := delimStep delim1 delim2 delimState c (icsBufferIn !! Z.to_nat (i + 1)) in
    let cType := if separator then ubatB else cType in
    if visToVis : bool then Ret (isArabic, delimState, (orig, final))
    else '(isArabic, ta) ← classStep Ret false isArabic i cType (orig, final); Ret (isArabic, delimState, ta))
    (false, 0, ta);
  Ret state.2.

Definition fillTypeArray2 (d2s : list Z) (size delim1 : Z) (ta : typePair) : outcome typePair :=
  state ← forRange 0 size (fun i '(isArabic, ta) =>
    k ← at_ d2s i;
    cType ← at_ ta.1 k;
    t ← at_ ta.2 k;
    if negb (delim1 =? noDelim) && (t =? ubatB) then classStep (at_ d2s) true isArabic i ubatB ta
    else final ← put ta.2 k ubatN; classStep (at_ d2s) true isArabic i cType (ta.1, final))
    (false, ta);
  Ret state.2.

(** ** Order *)

(** [buffer[lower..upper]] reversed in place. *)
Fixpoint invertLoop (fuel : nat) (buffer : list Z) (lower upper : Z) : outcome (list Z) :=
  match fuel with
  | O => Ret buffer
  | S fuel' =>
      if lower <? upper then
        a ← at_ buffer lower;
        b ← at_ buffer upper;
        buffer ← put buffer lower b;
        buffer ← put buffer upper a;
        invertLoop fuel' buffer (lower + 1) (upper - 1)
      else Ret buffer
  end.
Definition invertInts (buffer : list Z) (lower upper : Z) : outcome (list Z) :=
  invertLoop (Z.to_nat (upper - lower)) buffer lower upper.

(** The end of the run of levels from [workLevel] that [i] is in. *)
Fixpoint runEnd (fuel : nat) (levels : list Z) (size workLevel i : Z) : outcome Z :=
  match fuel with
  | O => Ret i
  | S fuel' =>
      if i <? size then
        l ← at_ levels i;
        if workLevel <=? i8 l then runEnd fuel' levels size workLevel (i + 1) else Ret i
      else Ret i
  end.

Fixpoint flipRuns (fuel : nat) (levels : list Z) (size workLevel i : Z) (map : list Z) : outcome (list Z) :=
  match fuel with
  | O => Ret map
  | S fuel' =>
      if i <? size then
        l ← at_ levels i;
        if i8 l <? workLevel then flipRuns fuel' levels size workLevel (i + 1) map
        else
          stop ← runEnd (Z.to_nat size) levels size workLevel (i + 1);
          map ← invertInts map i (stop - 1);
          flipRuns fuel' levels size workLevel stop map
      else Ret map
  end.

(** [reset] starts from the identity; [skip] keeps the map as it is. *)
Definition pass2 (levels : list Z) (size : Z) (reset skip rtlOut : bool) (map : list Z) : outcome (list Z) :=
  '(lowest, highest, map) ← forRange 0 size (fun i '(lowest, highest, map) =>
    map ← (if reset then put map i i else Ret map);
    l ← at_ levels i;
    Ret (Z.min lowest (i8 l), Z.max highest (i8 l), map)) (100, 0, map);
  if skip : bool then Ret map
  else
    let lowest := if rtlOut then i8 (Z.land (lowest + 1) (Z.lnot 1)) else Z.lor lowest 1 in
    forDown highest (lowest - 1) (fun workLevel map => flipRuns (Z.to_nat size) levels size workLevel 0 map) map.

Definition nationalOffset : Z := 0x0660 - 0x0030.

(** The output character of a position. *)
Definition outputChar (numFlag : BidiFlag) (xchar orig final : Z) : Z :=
  if orig =? ubatEN then
    if bool_decide (numFlag = numeralsNational) || (bool_decide (numFlag = numeralsContextual) && (final =? ubatAN))
    then u16 (xchar + nationalOffset) else xchar
  else if orig =? ubatAN then
    if bool_decide (numFlag = numeralsNominal) then u16 (xchar - nationalOffset) else xchar
  else if orig =? ubatNSwap then ucqsymm xchar
  else xchar.

Definition pass3 (icsBufferIn d2s : list Z) (numFlag : BidiFlag) (ta : typePair) : outcome (list Z) :=
  forRange 0 (len icsBufferIn) (fun i out =>
    logPos ← at_ d2s i;
    xchar ← at_ icsBufferIn logPos;
    orig ← at_ ta.1 logPos;
    final ← at_ ta.2 logPos;
    put out i (outputChar numFlag xchar orig final)) (replicate (length icsBufferIn) 0).

(** ** order *)

(** What [order] settles before it computes levels. *)
Record orderPlan := mkPlan {
  orientIn : BidiFlag;
  orientOut : BidiFlag;
  typeIn : BidiFlag;
  typeOut : BidiFlag;
  impToImpOrient : Z;
  reqImpToImp : bool;
  delim1 : Z;
  delim2 : Z;
  insertMarkers : bool;
  invertInput : bool;
  bufferIn : list Z;
  numFlag : BidiFlag;
  swapIn : BidiFlag;
  swapOut : BidiFlag;
}.

Definition impLTR : Z := 4.
Definition impRTL : Z := 8.

Definition isContextual (o : BidiFlag) : bool :=
  bool_decide (o = orientationContextLTR) || bool_decide (o = orientationContextRTL).

(** A contextual orientation is that of the text, or its own default. *)
Definition resolveIn (o : BidiFlag) (text : list Z) : BidiFlag :=
  if isContextual o then
    let strong := firstStrong text in
    if strong =? ubatL then orientationLTR
    else if strong =? ubatR then orientationRTL
    else if bool_decide (o = orientationContextRTL) then orientationRTL else orientationLTR
  else o.
Definition resolveOut (o : BidiFlag) (text : list Z) : BidiFlag :=
  if isContextual o then
    let strong := firstStrong text in
    if strong =? ubatL then (if lastStrong text =? ubatR then orientationRTL else orientationLTR)
    else if strong =? ubatR then orientationRTL
    else if bool_decide (o = orientationContextRTL) then orientationRTL else orientationLTR
  else o.

Definition planOrder (text : list Z) (srcFlags dstFlags : BidiFlagSet) (x : transformOptions) : orderPlan :=
  let oIn := resolveIn (GetOrientation srcFlags) text in
  let oOut := resolveOut (GetOrientation dstFlags) text in
  let tIn := GetType srcFlags in
  let tOut := GetType dstFlags in
  let req := bool_decide (tIn = typeImplicit) && bool_decide (tOut = typeImplicit) in
  let impOrient :=
    if ImpToImp x && req && negb (bool_decide (oIn = oOut))
    then (if bool_decide (oIn = orientationLTR) then impLTR else impRTL) else 0 in
  let '(d1, d2) :=
    match Delimiters x with [] => (noDelim, noDelim) | [d] => (d, d) | d :: e :: _ => (d, e) end in
  let visualToImplicit := bool_decide (tIn = typeVisual) && bool_decide (tOut = typeImplicit) in
  let invert :=
    visualToImplicit &&
    ((InsertMarkers x && bool_decide (oIn = orientationRTL)) || (negb (InsertMarkers x) && negb (bool_decide (oIn = oOut)))) in
  let oIn := if invert then (if InsertMarkers x then orientationLTR else oOut) else oIn in
  let insert := InsertMarkers x && visualToImplicit && negb (RemoveMarkers x) in
  let '(oIn, oOut) :=
    if insert && bool_decide (oOut = orientationRTL) then (orientationRTL, orientationLTR) else (oIn, oOut) in
  mkPlan oIn oOut tIn tOut impOrient req d1 d2 insert invert (if invert then reverse text else text)
    (GetNumerals dstFlags) (GetSwap srcFlags) (GetSwap dstFlags).

(** The table and the base levels of [baseLvl]; the third says that the
    insertion points start afresh. *)
Definition implicitTable (roundTrip winCompatible insertMarkers rtl : bool) : list (list Z) * bool :=
  if roundTrip then (if rtl then impTabRTLr else impTabLTRr, false)
  else if winCompatible then
    if insertMarkers then (if rtl then impTabRTLm else impTabLTRwm, true) else (if rtl then impTabRTL else impTabLTRw, false)
  else if insertMarkers then (if rtl then impTabRTLm else impTabLTRm, true)
  else (if rtl then impTabRTL else impTabLTR, false).

Definition baseLevel (orientIn : BidiFlag) : Z := if bool_decide (orientIn = orientationRTL) then 1 else 0.
Definition currentLevel (orientIn orientOut : BidiFlag) : Z :=
  if (baseLevel orientIn =? 0) && bool_decide (orientOut = orientationRTL) then 2 else baseLevel orientIn.

Definition baseRun (x : transformOptions) (insertMarkers : bool) (oIn oOut : BidiFlag) (symmetric : bool) (phase : Z)
    (d2s : list Z) (size : Z) : levelRun :=
  mkRun (implicitTable (RoundTrip x) (WinCompatible x) insertMarkers (bool_decide (oIn = orientationRTL))).1
    (currentLevel oIn oOut) symmetric phase d2s size (WinCompatible x).

(** The state [baseLvl] leaves.  The two positions are set only for the tables
    that insert markers, and only those read them. *)
Definition baseState (x : transformOptions) (insertMarkers : bool) (oIn : BidiFlag) (ta : typePair) (property : list Z)
    (pts : option (list Z)) : levelState :=
  let fresh := (implicitTable (RoundTrip x) (WinCompatible x) insertMarkers (bool_decide (oIn = orientationRTL))).2 in
  mkLevels ta.1 ta.2 property (if fresh then (fun v => take 0 v) <$> pts else pts) 0 (-1) (-1) (-1) 0.

(** The loop over the text.  In the second phase the types are those of the
    position in the source. *)
Definition levelLoop (r : levelRun) (s : levelState) : outcome levelState :=
  let second := impToImpPhase r =? 2 in
  s ← forRange 0 (icsSize r) (fun ix s =>
        ipos ← (if second then at_ (dstToSrc r) ix else Ret ix);
        xType ← at_ (finalTypes s) ipos;
        '(s, wTarget) ← implicitProcessing r ix xType s;
        l ← put (propertyMap s) ix (u8 wTarget);
        let s := setProperty s l in
        t ← at_ (origTypes s) ipos;
        let neutral := if second then abs8 t =? ubatN else t =? ubatN in
        if neutral && icsSymmetric r && Z.odd wTarget
        then o ← put (origTypes s) ipos (if second then i8 (- t) else ubatNSwap); Ret (setOrig s o)
        else Ret s) s;
  '(s, _) ← implicitProcessing r (icsSize r) ubatB s;
  Ret s.

(** The levels and the map; a new type array is zero. *)
Definition onePhase (p : orderPlan) (x : transformOptions) (m : transformMaps) (size : Z) : outcome (levelState * list Z) :=
  let symmetric := negb (reqImpToImp p) && negb (bool_decide (swapOut p = swapIn p)) in
  let zeros := replicate (Z.to_nat size) 0 in
  let visToVis := bool_decide (typeIn p = typeVisual) && bool_decide (typeOut p = typeVisual) in
  ta ← fillTypeArray (bufferIn p) (WordBreak x) visToVis (delim1 p) (delim2 p) (zeros, zeros);
  let r := baseRun x (insertMarkers p) (orientIn p) (orientOut p) symmetric 0 (DstToSrcMap m) size in
  s ← levelLoop r (baseState x (insertMarkers p) (orientIn p) ta (PropertyMap m) (insertPoints m));
  map ← pass2 (propertyMap s) size true (reqImpToImp p) (bool_decide (orientOut p = orientationRTL)) (DstToSrcMap m);
  Ret (s, map).

(** Implicit to implicit with different orientations: to left-to-right visual
    text and from there to the destination. *)
Definition twoPhases (p : orderPlan) (x : transformOptions) (m : transformMaps) (size : Z) : outcome (levelState * list Z) :=
  let zeros := replicate (Z.to_nat size) 0 in
  ta ← fillTypeArray (bufferIn p) (WordBreak x) false (delim1 p) (delim2 p) (zeros, zeros);
  let r := baseRun x (insertMarkers p) (orientIn p) orientationLTR (bool_decide (swapIn p = swapYes)) 1 (DstToSrcMap m) size in
  s ← levelLoop r (baseState x (insertMarkers p) (orientIn p) ta (PropertyMap m) (insertPoints m));
  map ← pass2 (propertyMap s) size true false false (DstToSrcMap m);
  let ltr := impToImpOrient p =? impLTR in
  map ← (if ltr then invertInts map 0 (size - 1) else Ret map);
  let oIn := if ltr then orientationRTL else orientationLTR in
  ta ← fillTypeArray2 map size (delim1 p) (origTypes s, finalTypes s);
  let r := baseRun x (insertMarkers p) oIn (orientOut p) (bool_decide (swapOut p = swapYes)) 2 map size in
  s ← levelLoop r (baseState x (insertMarkers p) oIn ta (propertyMap s) (points s));
  map ← pass2 (propertyMap s) size false false (bool_decide (orientOut p = orientationRTL)) map;
  Ret (s, map).

(** The markers taken out in place: the buffer and the map, and how many. *)
Definition removeMarkers (size : Z) (out map : list Z) : outcome (list Z * list Z * Z) :=
  forRange 0 size (fun pos '(out, map, removed) =>
    c ← at_ out pos;
    if (c =? lrm) || (c =? rlm) then Ret (out, map, removed + 1)
    else if 0 <? removed then
      out ← put out (pos - removed) c;
      d ← at_ map pos;
      map ← put map (pos - removed) d;
      Ret (out, map, removed)
    else Ret (out, map, removed)) (out, map, 0).

(** The parts of the key of an insertion point. *)
Definition pointPos (key : Z) : Z := i32 (Z.shiftr key 17).
Definition pointAfter (key : Z) : Z := Z.land key 0x10000.
Definition pointChar (key : Z) : Z := u16 key.

(** The position in the destination of a source position. *)
Fixpoint destinationOf (map : list Z) (pos ipos : Z) : Z :=
  match map with [] => ipos | d :: map' => if ipos =? d then pos else destinationOf map' (pos + 1) ipos end.

Definition rtlPoints (size : Z) (insertCnt : Z) (map pts : list Z) : outcome (list Z) :=
  pts ← forRange 0 insertCnt (fun i pts =>
    key ← at_ pts i;
    searched ← cut map 0 size;
    let ipos := destinationOf searched 0 (pointPos key) in
    put pts i (i32 (i32 (Z.shiftl (i32 ipos) 17) + pointAfter key + pointChar key))) pts;
  Ret (merge_sort Z.le pts).

(** The destination with the markers put in, and the map with -1 for them. *)
Definition insertAll (size count offset insertCnt : Z) (mapRequired : bool) (out map pts data : list Z)
    : outcome (list Z * list Z) :=
  tempMap ← (if mapRequired then makeSlice count 0 else Ret []);
  '(pos, data, tempMap) ← forRange 0 insertCnt (fun i '(pos, data, tempMap) =>
    key ← at_ pts i;
    let ipos := pointPos key + Z.shiftr (pointAfter key) 16 in
    part ← cut out pos ipos;
    data ← blit data (offset + pos + i) (offset + ipos + i) part;
    data ← put data (offset + ipos + i) (pointChar key);
    tempMap ← (if mapRequired : bool then
                 part ← cut map pos ipos;
                 tempMap ← blit tempMap (pos + i) (pos + i + (ipos - pos)) part;
                 put tempMap (ipos + i) (-1)
               else Ret tempMap);
    Ret (ipos, data, tempMap)) (0, data, tempMap);
  let n := count - pos - insertCnt in
  part ← cut out pos (pos + n);
  data ← blit data (offset + pos + insertCnt) (offset + pos + insertCnt + n) part;
  if mapRequired then
    part ← cut map pos (pos + n);
    tempMap ← blit tempMap (pos + insertCnt) (pos + insertCnt + n) part;
    Ret (data, tempMap)
  else Ret (data, map).

Definition sourceMap (size count removed : Z) (map s2d : list Z) : outcome (list Z) :=
  s2d ← (if len s2d <? size then makeSlice size 0 else Ret s2d);
  s2d ← (if 0 <? removed then forRange 0 size (fun i s2d => put s2d i (-1)) s2d else Ret s2d);
  forRange 0 count (fun i s2d =>
    pos ← at_ map i;
    if 0 <=? pos then put s2d pos i else Ret s2d) s2d.

(** The property map of the caller: the levels with the new-cell bit. *)
Definition cellMap (size : Z) (inverted : bool) (orig property : list Z) : outcome (list Z) :=
  property ← forRange 0 size (fun i property =>
    t ← at_ orig i;
    if t =? ubatNSM then Ret property else b ← at_ property i; put property i (Z.lor b 0x80)) property;
  if inverted then invertInts property 0 (size - 1) else Ret property.

(** The destination array: the output buffer itself, or one with room for the
    offset and the count. *)
Definition destinationData (dst : bidiText) (count : Z) (insertCnt : Z) (out : list Z) : outcome (list Z) :=
  let fresh := bool_decide (Data dst = None) in
  if fresh && (Offset dst =? 0) && (insertCnt =? 0) then Ret out
  else
    data ← (if fresh then makeSlice (Offset dst + count) 0 else Ret (units dst));
    if len data <? Offset dst + count then
      temp ← makeSlice (Offset dst + count) 0;
      if 0 <? Offset dst then head ← cut data 0 (Offset dst); blit temp 0 (len temp) head else Ret temp
    else Ret data.

(** [order src dst bdx]: the destination and the outputs of the transform.  The
    destination of [Transform] has no data; when it does, it is not the array of
    the source. *)
Definition order (src dst : bidiText) (x : transformOptions) (m : transformMaps) : outcome (bidiText * transformMaps) :=
  if Count src <? 1 then
    Ret (mkText (textAttrs dst) (Some (units dst)) (Offset dst) (Count dst),
         mkMaps 0 0 (SrcToDstMap m) (DstToSrcMap m) (PropertyMap m) (insertPoints m))
  else
    let size := Count src in
    text ← cut (units src) (Offset src) (Offset src + size);
    let p := planOrder text (textAttrs src) (textAttrs dst) x in
    let zeros := replicate (Z.to_nat size) 0 in
    let m := mkMaps (InpCount m) (OutCount m) (SrcToDstMap m)
               (if len (DstToSrcMap m) <? size then zeros else DstToSrcMap m)
               (if len (PropertyMap m) <? size then zeros else PropertyMap m) (insertPoints m) in
    '(s, map) ← (if 0 <? impToImpOrient p then twoPhases p x m size else onePhase p x m size);
    out ← pass3 (bufferIn p) map (numFlag p) (origTypes s, finalTypes s);
    let mapRequired := DstToSrcMapRequired x || SrcToDstMapRequired x in
    map ← (if mapRequired && invertInput p
           then forRange 0 size (fun i map => d ← at_ map i; put map i (size - d - 1)) map else Ret map);
    '(out, map, removed) ← (if RemoveMarkers x then removeMarkers size out map else Ret (out, map, 0));
    let count := size - removed + insertCnt s in
    data ← destinationData dst count (insertCnt s) out;
    '(data, map, pts) ←
      (if 0 <? insertCnt s then
         let pts := default [] (points s) in
         let rtlBase := bool_decide (orientIn p = orientationRTL) in
         pts ← (if rtlBase then rtlPoints size (insertCnt s) map pts else Ret pts);
         '(data, map) ← insertAll size count (Offset dst) (insertCnt s) mapRequired out map pts data;
         Ret (data, map, Some pts)
       else if bool_decide (Data dst = None) && (Offset dst =? 0) then Ret (data, map, points s)
       else part ← cut out 0 count; data ← blit data (Offset dst) (Offset dst + count) part; Ret (data, map, points s));
    s2d ← (if SrcToDstMapRequired x then sourceMap size count removed map (SrcToDstMap m) else Ret (SrcToDstMap m));
    property ← (if PropertyMapRequired x then cellMap size (invertInput p) (origTypes s) (propertyMap s)
                else Ret (propertyMap s));
    Ret (mkText (textAttrs dst) (Some data) (Offset dst) count, mkMaps size count s2d map property pts).

(** * Lemmas *)

(** ** Levels *)

(** A table without insertion of markers: its entries lead to rows of the table,
    its actions are the first two, and the first only leaves conditional rows;
    levels grow by at most two. *)
Definition closedRow (rows : Z) (row : list Z) : bool :=
  (len row =? 10) &&
  forallb (fun entry =>
    (0 <=? entry) && (Z.land entry 15 <? rows) && (Z.shiftr entry 4 <=? 2) &&
    (negb (Z.shiftr entry 4 =? 1) || negb (nth 9 row 0 =? 0))) (take 8 row) &&
  (0 <=? nth 8 row 0) && (nth 8 row 0 <=? 2).
Definition closedTable (table : list (list Z)) : bool :=
  (0 <? len table) && forallb (closedRow (len table)) table && (nth 9 (hd [] table) 1 =? 0).

Lemma implicitTable_closed rt wc rtl : closedTable (implicitTable rt wc false rtl).1 = true.
Proof. by destruct rt, wc, rtl. Qed.

Definition isClass (t : Z) : Prop := 0 <= t <= 7.
Definition isLevel (l : Z) : Prop := 0 <= l <= 4.

(** The original type of a character of class [c]: neutral characters are marked
    for symmetric swapping. *)
Definition swappable (c t : Z) : Prop := 0 <= c /\ (t = c \/ (c = ubatN /\ t = ubatNSwap)).

Lemma swappable_insert cls l i t u :
  Forall2 swappable cls l -> l !! i = Some t -> (forall c, swappable c t -> swappable c u) ->
  Forall2 swappable cls (<[i := u]> l).
Proof.
  intros Hl Ht Hu. destruct (Forall2_lookup_r _ _ _ _ _ Hl Ht) as (c & Hc & Hct).
  rewrite <-(list_insert_id cls i c) by done. by apply Forall2_insert; auto.
Qed.

Section Levels.
Context (r : levelRun) (size : nat) (cls : list Z).
Context (Htab : closedTable (impTab r) = true) (Hcur : 0 <= ucbCurLev r <= 2) (Hsize : icsSize r = Z.of_nat size).
Context (Hmap : impToImpPhase r = 2 -> Forall (fun d => 0 <= d < Z.of_nat size) (dstToSrc r) /\ (size <= length (dstToSrc r))%nat).

Definition rowCond (s : levelState) : Z := nth 9 (nth (Z.to_nat (ucbImpSta s)) (impTab r) []) 0.

(** The arrays before position [ix]. *)
Record levelBase (ix : Z) (s : levelState) : Prop := {
  lb_orig : length (origTypes s) = size;
  lb_swappable : Forall2 swappable cls (origTypes s);
  lb_final : length (finalTypes s) = size;
  lb_classes : Forall isClass (finalTypes s);
  lb_property : (size <= length (propertyMap s))%nat;
  lb_levels : Forall isLevel (take (Z.to_nat ix) (propertyMap s));
  lb_cond : -1 <= ucbCondPos s <= ix;
  lb_insert : insertCnt s = 0;
}.

(** The whole state: a conditional row of the table has a conditional run. *)
Definition levelInv (ix : Z) (s : levelState) : Prop :=
  levelBase ix s /\ 0 <= ucbImpSta s < len (impTab r) /\ (rowCond s <> 0 -> 0 <= ucbCondPos s).

(** What setting levels keeps. *)
Record levelKeep (s s' : levelState) : Prop := {
  lk_orig : length (origTypes s') = length (origTypes s);
  lk_swappable : Forall2 swappable cls (origTypes s) -> Forall2 swappable cls (origTypes s');
  lk_final : finalTypes s' = finalTypes s;
  lk_property : length (propertyMap s') = length (propertyMap s);
  lk_state : ucbImpSta s' = ucbImpSta s;
  lk_cond : ucbCondPos s' = ucbCondPos s;
  lk_points : points s' = points s;
  lk_insert : insertCnt s' = insertCnt s;
}.

Lemma levelKeep_refl s : levelKeep s s.
Proof. done. Qed.
Lemma levelKeep_trans s1 s2 s3 : levelKeep s1 s2 -> levelKeep s2 s3 -> levelKeep s1 s3.
Proof. intros [] []. constructor; try congruence; auto. Qed.

Lemma symmetricSwap_ok i old new s :
  length (origTypes s) = size -> 0 <= i < Z.of_nat size ->
  yields (symmetricSwap r i old new s) (fun s' => levelKeep s s' /\ propertyMap s' = propertyMap s).
Proof.
  intros Ho Hi. unfold symmetricSwap. yield_step; [|by yield_step]. yield_step.
  assert (yields (if impToImpPhase r =? 2 then at_ (dstToSrc r) i else Ret i) (fun pos => 0 <= pos < Z.of_nat size)) as (pos & -> & Hpos).
  { destruct (Z.eqb_spec (impToImpPhase r) 2) as [E|_]; [|by yield_step]. destruct (Hmap E) as [Hf Hl].
    apply yields_at; [unfold len; lia|]. intros d Hd. by rewrite Forall_lookup in Hf; eapply Hf. }
  apply yields_Ret. yield_step. apply yields_at; [unfold len; lia|]. intros t Ht.
  assert (forall u, (forall c, swappable c t -> swappable c u) ->
    yields (l ← put (origTypes s) pos u; Ret (setOrig s l)) (fun s' => levelKeep s s' /\ propertyMap s' = propertyMap s)) as Hput.
  { intros u Hu. yield_step. apply yields_put; [unfold len; lia|]. apply yields_Ret. split; [|done].
    constructor; cbn; rewrite ?length_insert; try done. intros Hsw. by apply (swappable_insert _ _ _ t). }
  apply yields_if; intros E1; [|apply yields_if; intros E2; [|by apply yields_Ret]].
  - apply Z.eqb_eq in E1 as ->. apply Hput. intros c [Hc [<-|[-> ?]]]; (split; [done|]); by right.
  - apply Z.eqb_eq in E2 as ->. apply Hput. intros c [Hc [<-|[-> _]]]; [done|]. split; [done|by left].
Qed.

Lemma take_insert_level n l i v :
  Forall isLevel (take n l) -> isLevel v -> Forall isLevel (take n (<[i := v]> l)).
Proof.
  intros Hl Hv. destruct (decide (i < n)%nat).
  - rewrite take_insert_lt by done. by apply Forall_insert.
  - rewrite take_insert_ge by lia. done.
Qed.

Lemma setRun_ok from ix level s :
  length (origTypes s) = size -> (size <= length (propertyMap s))%nat -> 0 <= from <= ix -> ix <= Z.of_nat size ->
  isLevel level -> Forall isLevel (take (Z.to_nat ix) (propertyMap s)) ->
  yields (setRun r from ix level s) (fun s' => levelKeep s s' /\ Forall isLevel (take (Z.to_nat ix) (propertyMap s'))).
Proof.
  intros Ho Hp Hfrom Hix Hl Hlev. unfold setRun.
  apply (yields_for _ _ _ (fun _ s' => levelKeep s s' /\ Forall isLevel (take (Z.to_nat ix) (propertyMap s')))); [lia|by split| |done].
  intros i s1 Hi [Hk Hlev1]. pose proof Hk as [Ho1 _ _ Hp1 _ _ _ _]. yield_step. apply yields_at; [unfold len; lia|]. intros old Hold.
  yield_step. apply yields_put; [unfold len; lia|].
  eapply yields_weaken; [apply symmetricSwap_ok; cbn; lia|].
  intros s2 [Hk2 Hp2]. split.
  - eapply levelKeep_trans; [exact Hk|]. eapply levelKeep_trans; [|exact Hk2]. constructor; cbn; by rewrite ?length_insert.
  - rewrite Hp2. cbn [propertyMap setProperty]. apply take_insert_level; [done|].
    unfold isLevel in *. rewrite wrapu_id; lia.
Qed.

Lemma closed_row i : 0 <= i < len (impTab r) ->
  exists row, impTab r !! Z.to_nat i = Some row /\ nth (Z.to_nat i) (impTab r) [] = row /\ closedRow (len (impTab r)) row = true.
Proof.
  intros Hi. destruct (lookup_lt_is_Some_2 (impTab r) (Z.to_nat i)) as [row Hr]; [unfold len in Hi; lia|].
  exists row. split_and!; [done|by apply nth_lookup_Some|].
  unfold closedTable in Htab. rewrite !andb_true_iff, forallb_forall in Htab. apply Htab, list_elem_of_In.
  by eapply list_elem_of_lookup_2.
Qed.

Lemma closedRow_entry rows row x : closedRow rows row = true -> isClass x ->
  exists e, row !! Z.to_nat x = Some e /\ 0 <= Z.land e 15 < rows /\ 0 <= Z.shiftr e 4 <= 2 /\
            (Z.shiftr e 4 = 1 -> nth 9 row 0 <> 0).
Proof.
  unfold closedRow. rewrite !andb_true_iff, forallb_forall. intros [[[Hl%Z.eqb_eq Hf] _] _] Hx.
  assert (length row = 10%nat) as Hlen by (unfold len in Hl; lia). unfold isClass in Hx.
  destruct (lookup_lt_is_Some_2 row (Z.to_nat x)) as [e He]; [lia|]. exists e. split; [done|].
  specialize (Hf e). rewrite !andb_true_iff in Hf. destruct Hf as [[[H0 H1] H2] H3].
  { apply list_elem_of_In, list_elem_of_lookup. exists (Z.to_nat x). rewrite lookup_take_lt by lia. done. }
  apply Z.leb_le in H0, H2. apply Z.ltb_lt in H1. pose proof (proj2 (Z.land_nonneg e 15)) as Hn.
  pose proof (proj2 (Z.shiftr_nonneg e 4)) as Hs. split_and!; [auto with lia|done|auto|done|].
  intros E. apply orb_true_iff in H3 as [H3|H3]; apply negb_true_iff, Z.eqb_neq in H3; lia.
Qed.

Lemma closedRow_level rows row : closedRow rows row = true ->
  exists l c, row !! 8%nat = Some l /\ row !! 9%nat = Some c /\ nth 9 row 0 = c /\ 0 <= l <= 2.
Proof.
  unfold closedRow. rewrite !andb_true_iff. intros [[[Hl%Z.eqb_eq _] H8%Z.leb_le] H8'%Z.leb_le].
  assert (length row = 10%nat) as Hlen by (unfold len in Hl; lia).
  destruct (lookup_lt_is_Some_2 row 8) as [l H]; [lia|]. destruct (lookup_lt_is_Some_2 row 9) as [c Hc]; [lia|].
  exists l, c. rewrite (nth_lookup_Some _ _ _ _ H) in *. by rewrite (nth_lookup_Some _ _ _ _ Hc).
Qed.

Lemma levelBase_run ix s s' :
  levelBase ix s -> levelKeep s s' -> Forall isLevel (take (Z.to_nat ix) (propertyMap s')) -> levelBase ix (setCondPos s' (-1)).
Proof. intros [] [Ho Hs Hf Hp _ Hc _ Hi] Hl. constructor; cbn; rewrite ?Ho, ?Hf, ?Hp, ?Hi; auto; lia. Qed.

Lemma act_ok ix special xType newLevel s :
  levelBase ix s -> 0 <= ix <= Z.of_nat size -> 0 < special <= 2 -> (special = 1 -> 0 <= ucbCondPos s) ->
  yields (act r special ix xType newLevel s) (fun s' =>
    levelBase ix s' /\ finalTypes s' = finalTypes s /\ ucbCondPos s' = -1 /\ points s' = points s).
Proof.
  intros Hb Hix Hsp Hopen. assert (special = 1 \/ special = 2) as [-> | ->] by lia; cbn [act].
  - yield_step. pose proof Hb as []. eapply yields_weaken; [apply (setRun_ok _ ix); try done; try lia|].
    + unfold isLevel. rewrite wraps_id; lia.
    + intros s' [Hk Hl]. yield_step. split; [by apply (levelBase_run ix s)|]. by destruct Hk.
  - yield_step. split; [|done]. destruct Hb. constructor; cbn; try done; lia.
Qed.

Lemma implicitProcessing_ok ix xType s :
  levelInv ix s -> 0 <= ix <= Z.of_nat size -> isClass xType ->
  yields (implicitProcessing r ix xType s) (fun '(s', w) =>
    levelInv ix s' /\ isLevel w /\ finalTypes s' = finalTypes s /\ points s' = points s).
Proof.
  intros (Hb & Hst & Hopen) Hix Hx. destruct (closed_row _ Hst) as (row & Hrow & Hnth & Hcl).
  destruct (closedRow_entry _ _ _ Hcl Hx) as (e & He & His & Hsp & Hcond). unfold implicitProcessing.
  rewrite (at_Some _ _ _ (proj1 Hst) Hrow). cbn [mbind outcome_bind].
  rewrite (at_Some _ _ _ (proj1 Hx) He). cbn [mbind outcome_bind].
  destruct (closed_row _ His) as (row' & Hrow' & Hnth' & Hcl'). destruct (closedRow_level _ _ Hcl') as (l & c & H8 & H9 & Hc & Hl).
  rewrite (at_Some _ _ _ (proj1 His) Hrow'). cbn [mbind outcome_bind].
  change (at_ row' itil) with (match row' !! 8%nat with Some a => Ret a | None => Panic end). rewrite H8. cbn [mbind outcome_bind].
  change (at_ row' itcond) with (match row' !! 9%nat with Some a => Ret a | None => Panic end).
  assert (isLevel (i8 (ucbCurLev r + l))) as Hlevel by (unfold isLevel; rewrite wraps_id; lia).
  yield_step. assert (yields (if 0 <? Z.shiftr e 4 then act r (Z.shiftr e 4) ix xType (i8 (ucbCurLev r + l)) s else Ret s)
    (fun s' => levelBase ix s' /\ finalTypes s' = finalTypes s /\ points s' = points s)) as (s1 & -> & Hb1 & Hf1 & Hp1).
  { apply yields_if; intros H; [apply Z.ltb_lt in H|by apply yields_Ret].
    eapply yields_weaken; [apply act_ok; try done; [lia|intros E; apply Hopen; unfold rowCond; rewrite Hnth; auto]|].
    intros s' (? & ? & ? & ?). done. }
  apply yields_Ret. rewrite H9. cbn [mbind outcome_bind]. yield_step.
  assert (yields (if c =? 0 then if -1 <? ucbCondPos s1 then s ← setRun r (ucbCondPos s1) ix (i8 (ucbCurLev r + l)) s1; Ret (setCondPos s (-1)) else Ret s1
                  else Ret (if ucbCondPos s1 =? -1 then setCondPos s1 ix else s1))
    (fun s' => levelBase ix s' /\ finalTypes s' = finalTypes s /\ points s' = points s /\ (c <> 0 -> 0 <= ucbCondPos s'))) as (s2 & -> & Hb2 & Hf2 & Hp2 & Ho2).
  { apply yields_if; intros H.
    - apply Z.eqb_eq in H. apply yields_if; intros H'; [apply Z.ltb_lt in H'|by apply yields_Ret].
      pose proof Hb1 as []. yield_step. eapply yields_weaken; [apply (setRun_ok _ ix); try done; lia|].
      intros s' [Hk Hl']. yield_step. split; [by apply (levelBase_run ix s1)|]. destruct Hk. cbn. split_and!; congruence.
    - apply Z.eqb_neq in H. yield_step. destruct Hb1. destruct (Z.eqb_spec (ucbCondPos s1) (-1)); (split; [constructor; cbn; try done; lia|]);
        cbn; split_and!; try done; intros; lia. }
  yield_step. yield_step. split; [|by split; [destruct (xType =? ubatB); [unfold isLevel; lia|done]|]].
  split; [|split]; [|done|].
  - destruct Hb2. by constructor.
  - unfold rowCond. cbn. rewrite Hnth', Hc. exact Ho2.
Qed.
End Levels.

(** ** Types *)

(** The types that text without right-to-left characters and Arabic digits can
    end up with. *)
Definition isPlainClass (t : Z) : Prop :=
  t = ubatB \/ t = ubatS \/ t = ubatL \/ t = ubatEN \/ t = ubatW \/ t = ubatN.

Section Types.
Context (P : Z -> Prop) (HP : forall t, isPlainClass t -> P t) (size : nat) (p : Z -> outcome Z).
Context (Hp : forall i, 0 <= i < Z.of_nat size -> yields (p i) (fun k => 0 <= k < Z.of_nat size)).

Record typesOk (ta : typePair) : Prop := {
  to_orig : length ta.1 = size;
  to_final : length ta.2 = size;
  to_classes : Forall P ta.2;
}.

(** What setting final types keeps. *)
Definition retyped (ta ta' : typePair) : Prop := typesOk ta' /\ ta'.1 = ta.1.

Lemma retyped_refl ta : typesOk ta -> retyped ta ta.
Proof. done. Qed.

Lemma origAt_ok ta i : typesOk ta -> 0 <= i < Z.of_nat size -> yields (origAt p ta i) (fun _ => True).
Proof.
  intros [] Hi. unfold origAt. yield_step. eapply yields_weaken; [by apply Hp|]. intros k Hk. cbn beta in Hk. by apply yields_at; [unfold len; lia|].
Qed.

Lemma finalAt_ok ta i : typesOk ta -> 0 <= i < Z.of_nat size -> yields (finalAt p ta i) P.
Proof.
  intros [_ Hf Hc] Hi. unfold finalAt. yield_step. eapply yields_weaken; [by apply Hp|]. intros k Hk. cbn beta in Hk.
  apply yields_at; [unfold len; lia|]. intros t Ht. rewrite Forall_lookup in Hc. by eapply Hc.
Qed.

Lemma setFinalAt_ok ta i t : typesOk ta -> 0 <= i < Z.of_nat size -> P t ->
  yields (setFinalAt p ta i t) (retyped ta).
Proof.
  intros [Ho Hf Hc] Hi Ht. unfold setFinalAt. yield_step. eapply yields_weaken; [by apply Hp|]. intros k Hk. cbn beta in Hk. yield_step.
  apply yields_put; [unfold len; lia|]. yield_step. split; [|done]. constructor; cbn; rewrite ?length_insert; try done.
  by apply Forall_insert.
Qed.

Lemma setFinalIf_ok (b : bool) ta i t : typesOk ta -> (b = true -> 0 <= i < Z.of_nat size) -> P t ->
  yields (if b then setFinalAt p ta i t else Ret ta) (retyped ta).
Proof. intros Hta Hi Ht. apply yields_if; intros Hb; [by apply setFinalAt_ok; auto|]. apply yields_Ret. by apply retyped_refl. Qed.

Lemma follows_ok second ta i a b : typesOk ta -> i < Z.of_nat size ->
  (forall k, 0 <= k < Z.of_nat size -> yields (second k) (fun _ => True)) ->
  yields (follows p second ta i a b) (fun c => c = true -> 2 <= i).
Proof.
  intros Hta Hi Hs. unfold follows. apply yields_if; intros H2; [apply Z.leb_le in H2|by apply yields_Ret].
  yield_step. eapply yields_weaken; [apply origAt_ok; [done|lia]|]. intros t _. apply yields_if; intros _; [|by apply yields_Ret].
  yield_step. eapply yields_weaken; [apply Hs; lia|]. intros u _. by apply yields_Ret.
Qed.

Lemma plain_EN : P ubatEN.
Proof. apply HP. unfold isPlainClass. tauto. Qed.

Lemma terminators_ok fuel ta prev : typesOk ta -> prev < Z.of_nat size -> yields (terminators fuel p ta prev) (retyped ta).
Proof.
  revert ta prev. induction fuel as [|fuel IH]; intros ta prev Hta Hprev; cbn [terminators]; [by apply yields_Ret|].
  apply yields_if; intros H; [apply Z.leb_le in H|by apply yields_Ret]. yield_step.
  eapply yields_weaken; [apply origAt_ok; [done|lia]|]. intros t _. apply yields_if; intros _; [|by apply yields_Ret].
  yield_step. eapply yields_weaken; [apply setFinalAt_ok; [done|lia|apply plain_EN]|]. intros ta1 [H1 E1].
  eapply yields_weaken; [apply IH; [done|lia]|]. intros ta2 [H2 E2]. split; congruence.
Qed.

Lemma europeanNumber_ok isArabic i ta : typesOk ta -> 0 <= i < Z.of_nat size -> (isArabic = true -> P ubatAN) ->
  yields (europeanNumber p isArabic i ta) (retyped ta).
Proof.
  intros Hta Hi Har. assert (P (if isArabic then ubatAN else ubatEN)) as Hw by (destruct isArabic; [auto|apply plain_EN]).
  pose proof plain_EN. unfold europeanNumber. yield_step.
  assert (yields (if isArabic then Ret ta
        else separated ← follows p (origAt p ta) ta i ubatES ubatEN;
             ta ← (if separated : bool then setFinalAt p ta (i - 1) ubatEN else Ret ta);
             terminators (Z.to_nat i) p ta (i - 1)) (retyped ta)) as (ta1 & -> & H1 & E1).
  { apply yields_if; intros _; [by apply yields_Ret|]. yield_step.
    eapply yields_weaken; [apply follows_ok; [done|lia|intros; by apply origAt_ok]|]. intros c Hc. cbn beta in Hc. yield_step.
    eapply yields_weaken; [apply setFinalIf_ok; [done|intros ?%Hc; lia|done]|]. intros ta1 [H1 E1].
    eapply yields_weaken; [apply terminators_ok; [done|lia]|]. intros ta2 [H2 E2]. split; congruence. }
  yield_step. yield_step. eapply yields_weaken; [apply follows_ok; [done|lia|intros; by apply origAt_ok]|]. intros c Hc. cbn beta in Hc. yield_step.
  eapply yields_weaken; [apply setFinalIf_ok; [done|intros ?%Hc; lia|done]|]. intros ta2 [H2 E2].
  eapply yields_weaken; [apply setFinalAt_ok; [done|lia|done]|]. intros ta3 [H3 E3]. split; congruence.
Qed.

(** The step keeps [isArabic] unless it sees a letter. *)
Lemma classStep_ok second isArabic i cType ta : typesOk ta -> 0 <= i < Z.of_nat size ->
  (cType = ubatR \/ cType = ubatAL -> P ubatR) -> (isArabic = true \/ cType = ubatAN -> P ubatAN) ->
  yields (classStep p second isArabic i cType ta) (fun '(b, ta') => retyped ta ta' /\ (b = true -> isArabic = true \/ cType = ubatAL)).
Proof.
  intros Hta Hi HR HA. unfold classStep.
  assert (forall (b : bool) t, P t -> (b = true -> isArabic = true \/ cType = ubatAL) ->
    yields (ta ← setFinalAt p ta i t; Ret (b, ta)) (fun '(b, ta') => retyped ta ta' /\ (b = true -> isArabic = true \/ cType = ubatAL))) as Hset.
  { intros b t Ht Hb. yield_step. eapply yields_weaken; [by apply setFinalAt_ok|]. intros ta' H. by apply yields_Ret. }
  do 3 (apply yields_if; intros _; [apply Hset; [apply HP; unfold isPlainClass; tauto|first [done|auto]]|]).
  apply yields_if; intros E; [apply Z.eqb_eq in E; apply Hset; [auto|done]|].
  apply yields_if; intros E'; [apply Z.eqb_eq in E'; apply Hset; auto|].
  apply yields_if; intros _.
  { yield_step. eapply yields_weaken; [apply europeanNumber_ok; auto|]. intros ta' H. apply yields_Ret. split; [done|auto]. }
  apply yields_if; intros EA; [apply Z.eqb_eq in EA|].
  { yield_step. eapply yields_weaken; [apply follows_ok; [done|lia|]|].
    { intros k Hk. destruct second; [by apply origAt_ok|]. eapply yields_weaken; [by apply finalAt_ok|done]. }
    intros c Hc. cbn beta in Hc. yield_step. eapply yields_weaken; [apply setFinalIf_ok; [done|intros ?%Hc; lia|auto]|]. intros ta1 [H1 E1]. yield_step.
    eapply yields_weaken; [apply setFinalAt_ok; [done|lia|auto]|]. intros ta2 [H2 E2]. apply yields_Ret.
    split; [split; congruence|auto]. }
  apply yields_if; intros _; [apply Hset; [apply HP; unfold isPlainClass; tauto|auto]|].
  apply yields_if; intros _.
  { apply yields_if; intros H; [apply Z.ltb_lt in H|apply yields_Ret; split; [done|auto]]. yield_step.
    eapply yields_weaken; [apply finalAt_ok; [done|lia]|]. intros t Ht.
    apply yields_if; intros _; [apply Hset; [apply plain_EN|auto]|apply yields_Ret; split; [done|auto]]. }
  apply yields_if; intros H; [|apply yields_Ret; split; [done|auto]]. apply andb_true_iff in H as [_ H%Z.ltb_lt]. yield_step.
  eapply yields_weaken; [apply finalAt_ok; [done|lia]|]. intros t Ht. apply Hset; auto.
Qed.
End Types.

Definition classesOf (wordBreak : bool) (buffer : list Z) : list Z := (fun c => getChTypeWB c wordBreak) <$> buffer.

(** The final types stay within [P] when it has those of right-to-left letters if
    the text has some, and that of Arabic digits if it has those or Arabic
    letters. *)
Lemma fillTypeArray_ok (P : Z -> Prop) buffer wordBreak visToVis delim1 delim2 ta :
  (forall t, isPlainClass t -> P t) ->
  (forall c, c ∈ classesOf wordBreak buffer -> c = ubatR \/ c = ubatAL -> P ubatR) ->
  (forall c, c ∈ classesOf wordBreak buffer -> c = ubatAL \/ c = ubatAN -> P ubatAN) ->
  typesOk P (length buffer) ta ->
  yields (fillTypeArray buffer wordBreak visToVis delim1 delim2 ta)
    (fun ta' => typesOk P (length buffer) ta' /\ ta'.1 = classesOf wordBreak buffer).
Proof.
  intros HP HR HA Hta. unfold fillTypeArray. yield_step.
  apply (yields_for _ _ _ (fun i state => typesOk P (length buffer) state.2 /\ (state.1.1 = true -> P ubatAN) /\
    state.2.1 = classesOf wordBreak (take (Z.to_nat i) buffer) ++ drop (Z.to_nat i) ta.1)); [apply len_nonneg|done| |].
  2: { intros s (Hs & _ & E). apply yields_Ret. split; [done|]. etransitivity; [exact E|]. unfold len. rewrite Nat2Z.id, take_ge, drop_ge by (destruct Hta; lia).
       by rewrite app_nil_r. }
  intros i [[isArabic delimState] ta1] Hi ([Ho Hf Hc] & Har & E). cbn [fst snd] in *. unfold len in Hi. yield_step.
  apply yields_at; [unfold len; lia|]. intros c Hci. yield_step.
  destruct (drop (Z.to_nat i) ta.1) as [|d rest] eqn:Ed.
  { apply (f_equal length) in Ed. rewrite length_drop in Ed. destruct Hta. cbn in Ed. lia. }
  rewrite E, put_middle by (unfold classesOf, len; rewrite length_fmap, length_take; lia). apply yields_Ret. yield_step.
  apply yields_put; [unfold len; lia|]. destruct (delimStep _ _ _ _ _) as [state separator].
  assert (classesOf wordBreak (take (Z.to_nat i) buffer) ++ getChTypeWB c wordBreak :: rest =
          classesOf wordBreak (take (Z.to_nat (i + 1)) buffer) ++ drop (Z.to_nat (i + 1)) ta.1) as Enext.
  { replace (Z.to_nat (i + 1)) with (S (Z.to_nat i)) by lia. rewrite (take_S_r _ _ _ Hci). unfold classesOf.
    rewrite fmap_app, <-app_assoc. cbn [fmap list_fmap app]. do 2 f_equal. rewrite (drop_S _ d) in Ed; [by injection Ed|].
    rewrite <-(Nat.add_0_r (Z.to_nat i)), <-lookup_drop, Ed. done. }
  assert (typesOk P (length buffer) (classesOf wordBreak (take (Z.to_nat i) buffer) ++ getChTypeWB c wordBreak :: rest,
            <[Z.to_nat i:=ubatN]> ta1.2)) as Hta1.
  { constructor; cbn; rewrite ?length_insert; try done; [|apply Forall_insert; [done|apply HP; unfold isPlainClass; tauto]].
    rewrite E in Ho. rewrite length_app in *. cbn in *. lia. }
  assert (getChTypeWB c wordBreak ∈ classesOf wordBreak buffer) as Hin.
  { apply list_elem_of_lookup. exists (Z.to_nat i). unfold classesOf. by rewrite list_lookup_fmap, Hci. }
  apply yields_if; intros _; [by apply yields_Ret|]. yield_step.
  eapply yields_weaken; [apply (classStep_ok P); [done|intros k Hk; by apply yields_Ret|done|lia| |]|].
  - destruct separator; [by intros [?|?]|]. intros Hc'. by apply (HR _ Hin).
  - destruct separator; [by intros [?|?]; auto|]. intros [?|?]; [auto|]. apply (HA _ Hin). by right.
  - intros [b ta2] [[H2 E2] Hb]. apply yields_Ret. split; [done|]. cbn [fst snd]. split; [|rewrite E2; exact Enext].
    intros [?|Hal]%Hb; [auto|]. destruct separator; [done|]. apply (HA _ Hin). by left.
Qed.

Lemma plain_isClass t : isPlainClass t -> isClass t.
Proof. unfold isPlainClass, isClass, ubatB, ubatS, ubatL, ubatEN, ubatW, ubatN. lia. Qed.

Definition validMap (size : nat) (map : list Z) : Prop :=
  length map = size /\ Forall (fun d => 0 <= d < Z.of_nat size) map.

Lemma validMap_at size map i : validMap size map -> 0 <= i < Z.of_nat size ->
  yields (at_ map i) (fun k => 0 <= k < Z.of_nat size).
Proof. intros [Hl Hf] Hi. apply yields_at; [unfold len; lia|]. intros k Hk. rewrite Forall_lookup in Hf. by eapply Hf. Qed.

Lemma fillTypeArray2_ok size map delim1 ta :
  validMap size map -> typesOk isClass size ta ->
  yields (fillTypeArray2 map (Z.of_nat size) delim1 ta) (retyped isClass size ta).
Proof.
  intros Hm Hta. unfold fillTypeArray2. yield_step.
  apply (yields_for _ _ _ (fun _ state => retyped isClass size ta state.2)); [lia|done| |by intros s Hs; apply yields_Ret].
  intros i [isArabic ta1] Hi [Hta1 E1]. cbn [snd] in *. pose proof Hta1 as [Ho Hf Hc]. yield_step.
  eapply yields_weaken; [by apply (validMap_at size)|]. intros k Hk. cbn beta in Hk. yield_step. apply yields_at; [unfold len; lia|]. intros cType _.
  yield_step. apply yields_at; [unfold len; lia|]. intros t _.
  apply yields_if; intros _.
  - eapply yields_weaken; [apply (classStep_ok isClass plain_isClass size); [intros; by apply (validMap_at size)|done|lia|done|done]|].
    intros [b ta2] [[H2 E2] _]. split; [done|]. cbn [snd] in *. congruence.
  - yield_step. apply yields_put; [unfold len; lia|].
    eapply yields_weaken; [apply (classStep_ok isClass plain_isClass size); [intros; by apply (validMap_at size)| |lia|done|done]|].
    + constructor; cbn; rewrite ?length_insert; try done. by apply Forall_insert.
    + intros [b ta2] [[H2 E2] _]. split; [done|]. cbn [fst snd] in *. congruence.
Qed.

(** ** Reversal *)

Lemma invertLoop_spec fuel pre mid post :
  (length mid <= S fuel)%nat ->
  invertLoop fuel (pre ++ mid ++ post) (len pre) (len pre + len mid - 1) = Ret (pre ++ reverse mid ++ post).
Proof.
  revert pre mid post. induction fuel as [|fuel IH]; intros pre mid post Hl.
  { destruct mid as [|a [|]]; [done|done|cbn in Hl; lia]. }
  cbn [invertLoop]. destruct mid as [|a mid]; [rewrite len_nil; by rewrite (proj2 (Z.ltb_ge _ _)) by lia|].
  destruct mid as [|b mid _] using rev_ind; [by rewrite (proj2 (Z.ltb_ge _ _)) by (rewrite len_cons, len_nil; lia)|].
  cbn [app length] in *. rewrite length_app in Hl. cbn [length] in Hl. rewrite <-app_assoc. cbn [app].
  rewrite len_cons, len_app, len_cons, len_nil. pose proof (len_nonneg mid). rewrite (proj2 (Z.ltb_lt _ _)) by lia.
  rewrite (at_middle pre a _ (len pre)) by reflexivity. cbn [mbind outcome_bind].
  assert (len pre + (1 + (len mid + (1 + 0))) - 1 = len (pre ++ a :: mid)) as -> by (rewrite len_app, len_cons; lia).
  change (pre ++ a :: mid ++ b :: post) with (pre ++ (a :: mid) ++ b :: post). rewrite (app_assoc pre), (at_middle (pre ++ a :: mid) b _ (len (pre ++ a :: mid))) by reflexivity.
  cbn [mbind outcome_bind]. rewrite <-app_assoc. cbn [app]. rewrite (put_middle pre _ _ _ (len pre)) by reflexivity. cbn [mbind outcome_bind].
  change (pre ++ b :: mid ++ b :: post) with (pre ++ (b :: mid) ++ b :: post).
  rewrite (app_assoc pre), (put_middle (pre ++ b :: mid) _ _ _ (len (pre ++ a :: mid))) by (by rewrite !len_app, !len_cons). cbn [mbind outcome_bind].
  specialize (IH (pre ++ [b]) mid (a :: post)). rewrite <-!app_assoc in *. cbn [app] in *.
  assert (len pre + 1 = len (pre ++ [b])) as -> by (rewrite len_app, len_cons, len_nil; lia).
  assert (len (pre ++ a :: mid) - 1 = len (pre ++ [b]) + len mid - 1) as -> by (rewrite !len_app, !len_cons, len_nil; lia).
  rewrite IH by lia. by rewrite reverse_cons, reverse_app, <-!app_assoc.
Qed.

Lemma invertInts_spec pre mid post :
  invertInts (pre ++ mid ++ post) (len pre) (len pre + len mid - 1) = Ret (pre ++ reverse mid ++ post).
Proof. apply invertLoop_spec. unfold len. lia. Qed.

(** ** Rule L2 *)

(** The maximal runs of elements with [P] reversed; [run] is the current run,
    reversed. *)
Fixpoint reverseRuns {A} (P : A -> bool) (run l : list A) : list A :=
  match l with
  | [] => run
  | x :: l' => if P x then reverseRuns P (x :: run) l' else run ++ x :: reverseRuns P [] l'
  end.

Lemma reverseRuns_perm {A} (P : A -> bool) run l : reverseRuns P run l ≡ₚ run ++ l.
Proof.
  revert run. induction l as [|x l IH]; intros run; cbn; [by rewrite app_nil_r|].
  destruct (P x); [rewrite IH; by rewrite <-Permutation_middle|]. by rewrite IH.
Qed.

Lemma reverseRuns_fmap {A B} (g : A -> B) (P : A -> bool) (Q : B -> bool) run l :
  (forall x, P x = Q (g x)) -> g <$> reverseRuns P run l = reverseRuns Q (g <$> run) (g <$> l).
Proof.
  intros HPQ. revert run. induction l as [|x l IH]; intros run; [done|]. cbn [reverseRuns fmap list_fmap]. rewrite HPQ.
  destruct (Q (g x)); [apply IH|]. by rewrite fmap_app, fmap_cons, IH.
Qed.

Lemma reverseRuns_run {A} (P : A -> bool) run acc l :
  forallb P run = true -> match l with [] => True | x :: _ => P x = false end ->
  reverseRuns P acc (run ++ l) = (reverse run ++ acc) ++ reverseRuns P [] l.
Proof.
  intros Hr Hl. revert acc Hr. induction run as [|x run IH]; intros acc Hr; cbn [app].
  - destruct l as [|x l]; cbn; [by rewrite app_nil_r|]. by rewrite Hl.
  - cbn [forallb] in Hr. apply andb_true_iff in Hr as [Hx Hr]. cbn [reverseRuns]. rewrite Hx, IH by done.
    by rewrite reverse_cons, <-!app_assoc.
Qed.

(** A property that all elements of runs share stays in its place. *)
Lemma reverseRuns_const {A B} (P : A -> bool) (h : A -> B) c run l :
  (forall x, P x = true -> h x = c) -> forallb P run = true -> h <$> reverseRuns P run l = (h <$> run) ++ (h <$> l).
Proof.
  intros Hc. revert run. induction l as [|x l IH]; intros run Hr; cbn [reverseRuns].
  - by rewrite app_nil_r.
  - destruct (P x) eqn:Hx.
    + rewrite IH by (cbn; by rewrite Hx). rewrite !fmap_cons. cbn [app].
      change (h x :: (h <$> run) ++ (h <$> l)) with ((h x :: (h <$> run)) ++ (h <$> l)). rewrite cons_middle, app_assoc. f_equal.
      rewrite Hc by done. clear IH. induction run as [|y run IHr]; [done|]. cbn [forallb] in Hr. apply andb_true_iff in Hr as [Hy Hr].
      rewrite fmap_cons, (Hc y) by done. cbn [app]. f_equal. by apply IHr.
    + rewrite fmap_app, fmap_cons, IH by done. done.
Qed.

Lemma reverseRuns_none {A} (P : A -> bool) l : forallb (fun x => negb (P x)) l = true -> reverseRuns P [] l = l.
Proof.
  induction l as [|x l IH]; [done|]. cbn [forallb]. intros [Hx%negb_true_iff Hl]%andb_true_iff. cbn. by rewrite Hx, IH.
Qed.

(** Rule L2 of the Unicode bidirectional algorithm on pairs of a level and an
    element: from the highest level down to [lowest], the runs of at least that
    level are reversed, each pair taking its level along. *)
Definition atLeast {A} (k : Z) (p : Z * A) : bool := k <=? p.1.
Fixpoint ruleL2 {A} (n : nat) (k : Z) (l : list (Z * A)) : list (Z * A) :=
  match n with O => l | S n' => ruleL2 n' (k - 1) (reverseRuns (atLeast k) [] l) end.

Lemma ruleL2_perm {A} n k (l : list (Z * A)) : ruleL2 n k l ≡ₚ l.
Proof. revert k l. induction n as [|n IH]; intros k l; [done|]. cbn. by rewrite IH, reverseRuns_perm. Qed.

Lemma runEnd_spec fuel levels size k i :
  (size <= length levels)%nat -> 0 <= i <= Z.of_nat size -> Z.of_nat size - i <= Z.of_nat fuel ->
  exists n, (Z.to_nat i + n <= size)%nat /\
    runEnd fuel levels (Z.of_nat size) k i = Ret (i + Z.of_nat n) /\
    forallb (Z.leb k) (take n (drop (Z.to_nat i) (take size (i8 <$> levels)))) = true /\
    match drop (Z.to_nat i + n) (take size (i8 <$> levels)) with [] => True | l :: _ => (k <=? l) = false end.
Proof.
  intros Hsize. revert i. induction fuel as [|fuel IH]; intros i Hi Hf; cbn [runEnd].
  - exists 0%nat. assert (i = Z.of_nat size) as -> by lia. split_and!; [lia|f_equal; lia|done|].
    rewrite drop_ge; [done|]. rewrite length_take, length_fmap. lia.
  - destruct (Z.ltb_spec i (Z.of_nat size)) as [Hlt|Hge].
    2: { exists 0%nat. split_and!; [lia|f_equal; lia|done|]. rewrite drop_ge; [done|]. rewrite length_take, length_fmap. lia. }
    destruct (lookup_lt_is_Some_2 levels (Z.to_nat i)) as [l Hl]; [lia|]. rewrite (at_Some _ _ l) by (lia || done).
    cbn [mbind outcome_bind].
    assert (drop (Z.to_nat i) (take size (i8 <$> levels)) = i8 l :: drop (S (Z.to_nat i)) (take size (i8 <$> levels))) as Hd.
    { apply drop_S. rewrite lookup_take_lt by lia. by rewrite list_lookup_fmap, Hl. }
    destruct (Z.leb_spec k (i8 l)) as [Hk|Hk].
    + destruct (IH (i + 1)) as (n & Hn & Hr & Hall & Hnext); [lia|lia|]. replace (Z.to_nat (i + 1)) with (S (Z.to_nat i)) in * by lia.
      exists (S n). split_and!; [lia|rewrite Hr; f_equal; lia| |].
      * rewrite Hd. cbn [take forallb]. rewrite Hall. by rewrite (proj2 (Z.leb_le _ _)).
      * replace (Z.to_nat i + S n)%nat with (S (Z.to_nat i) + n)%nat by lia. done.
    + exists 0%nat. split_and!; [lia|f_equal; lia|done|]. rewrite Nat.add_0_r, Hd. by apply Z.leb_gt.
Qed.

Lemma reverseRuns_head {A} (P : A -> bool) x l : P x = false -> reverseRuns P [] (x :: l) = x :: reverseRuns P [] l.
Proof. intros Hx. cbn. by rewrite Hx. Qed.

Lemma flipRuns_spec fuel levels size k pre rest :
  (size <= length levels)%nat -> (length pre + length rest = size)%nat -> (length rest <= fuel)%nat ->
  flipRuns fuel levels (Z.of_nat size) k (len pre) (pre ++ rest) =
    Ret (pre ++ (reverseRuns (atLeast k) [] (zip (drop (length pre) (take size (i8 <$> levels))) rest)).*2).
Proof.
  intros Hsize. revert pre rest. induction fuel as [|fuel IH]; intros pre rest Hl Hf; cbn [flipRuns].
  { destruct rest; [|cbn in Hf; lia]. by rewrite zip_with_nil_r. }
  destruct rest as [|d rest].
  { rewrite (proj2 (Z.ltb_ge _ _)) by (cbn in Hl; unfold len; lia). by rewrite zip_with_nil_r. }
  cbn [length] in Hl, Hf. rewrite (proj2 (Z.ltb_lt _ _)) by (unfold len; lia).
  destruct (lookup_lt_is_Some_2 levels (length pre)) as [l Hlev]; [lia|].
  rewrite (at_Some _ _ l); [|apply len_nonneg|unfold len; by rewrite Nat2Z.id]. cbn [mbind outcome_bind].
  assert (take size (i8 <$> levels) !! length pre = Some (i8 l)) as Hlv.
  { rewrite lookup_take_lt by lia. by rewrite list_lookup_fmap, Hlev. }
  rewrite (drop_S _ _ _ Hlv). cbn [zip zip_with]. destruct (Z.ltb_spec (i8 l) k) as [Hk|Hk].
  - rewrite reverseRuns_head by (unfold atLeast; cbn; by apply Z.leb_gt). specialize (IH (pre ++ [d]) rest).
    rewrite len_app, len_cons, len_nil, length_app, <-!app_assoc in IH. cbn [app length] in IH.
    replace (len pre + (1 + 0)) with (len pre + 1) in IH by lia. rewrite IH by lia.
    by replace (length pre + 1)%nat with (S (length pre)) by lia.
  - rewrite Nat2Z.id. destruct (runEnd_spec size levels size k (len pre + 1)) as (n & Hn & -> & Hall & Hnext);
      [done|unfold len; lia|unfold len; lia|]. cbn [mbind outcome_bind].
    replace (Z.to_nat (len pre + 1)) with (S (length pre)) in * by (unfold len; lia).
    set (lv := take size (i8 <$> levels)) in *. assert (length lv = size) as Hlv' by (unfold lv; rewrite length_take, length_fmap; lia).
    assert (n <= length rest)%nat as Hnr by lia.
    replace (pre ++ d :: rest) with (pre ++ (d :: take n rest) ++ drop n rest) by (cbn; by rewrite take_drop).
    replace (len pre + 1 + Z.of_nat n - 1) with (len pre + len (d :: take n rest) - 1)
      by (rewrite len_cons; unfold len; rewrite length_take_le by lia; lia).
    rewrite invertInts_spec. cbn [mbind outcome_bind].
    set (mid := reverse (d :: take n rest)). assert (length mid = S n) as Hmid by (unfold mid; rewrite length_reverse; cbn; rewrite length_take_le; lia).
    specialize (IH (pre ++ mid) (drop n rest)). rewrite length_app, length_drop, Hmid in IH. rewrite app_assoc.
    replace (len pre + 1 + Z.of_nat n) with (len (pre ++ mid)) by (rewrite len_app; unfold len; rewrite Hmid; lia).
    rewrite IH by lia. rewrite <-app_assoc. f_equal. f_equal.
    replace (length pre + S n)%nat with (S (length pre) + n)%nat by lia. rewrite <-drop_drop.
    rewrite <-(take_drop n (drop (S (length pre)) lv)) at 2. rewrite <-(take_drop n rest) at 2.
    rewrite zip_with_app by (rewrite length_take, length_take, length_drop; lia).
    assert (forallb (atLeast k) ((i8 l, d) :: zip (take n (drop (S (length pre)) lv)) (take n rest)) = true) as Hrun.
    { cbn [forallb]. unfold atLeast at 1. cbn [fst]. rewrite (proj2 (Z.leb_le _ _)) by lia. cbn [andb].
      revert Hall. generalize (take n (drop (S (length pre)) lv)) (take n rest). intros a. induction a as [|x a IHa]; intros b Ha; [done|].
      destruct b as [|y b]; [done|]. cbn in *. apply andb_true_iff in Ha as [Hx Ha]. unfold atLeast at 1. cbn [fst]. by rewrite Hx, IHa. }
    change ((i8 l, d) :: ?a ++ ?b) with (((i8 l, d) :: a) ++ b). rewrite (reverseRuns_run (atLeast k) _ []); [|done|].
    + rewrite app_nil_r, fmap_app. f_equal. rewrite fmap_reverse. unfold mid. f_equal. cbn [fmap list_fmap snd]. f_equal.
      rewrite snd_zip; [done|]. rewrite !length_take, length_drop. lia.
    + rewrite drop_drop. replace (n + S (length pre))%nat with (S (length pre) + n)%nat by lia.
      destruct (drop (S (length pre) + n) lv) as [|x xs]; [done|]. destruct (drop n rest); [done|]. cbn. exact Hnext.
Qed.

(** Reversing the runs of a level by the levels of the positions is reversing the
    runs of pairs that carry their levels, as long as every higher level was
    reversed before. *)
Definition sameAtMost {A} (k : Z) (lv : list Z) (l : list (Z * A)) : Prop :=
  forall j, j <= k -> atLeast j <$> l = Z.leb j <$> lv.

Lemma flip_carried {A} k lv (l : list (Z * A)) :
  sameAtMost k lv l ->
  (reverseRuns (atLeast k) [] (zip lv l.*2)).*2 = (reverseRuns (atLeast k) [] l).*2 /\
  sameAtMost (k - 1) lv (reverseRuns (atLeast k) [] l).
Proof.
  intros Hs. split.
  - assert (forall l : list (Z * A), (reverseRuns (atLeast k) [] l).*2 =
      (reverseRuns fst [] ((fun p => (atLeast k p, p.2)) <$> l)).*2) as Hb.
    { intros l'. rewrite <-(reverseRuns_fmap (fun p : Z * A => (atLeast k p, p.2)) (atLeast k) fst []) by done.
      rewrite <-list_fmap_compose. done. }
    rewrite (Hb l), (Hb (zip _ _)). f_equal. f_equal. specialize (Hs k (Z.le_refl k)). clear Hb. revert lv Hs.
    induction l as [|[x a] l IH]; intros [|y lv] Hs; try done. cbn in Hs. cbn [fmap list_fmap zip zip_with snd].
    injection Hs as Hx Hs. f_equal; [unfold atLeast in *; cbn in *; by rewrite Hx|]. by apply IH.
  - intros j Hj. rewrite (reverseRuns_const _ (atLeast j) true); [|intros [x a]; unfold atLeast; cbn; rewrite !Z.leb_le; lia|done].
    apply Hs. lia.
Qed.

Lemma flips_spec levels size n k (l : list (Z * Z)) :
  (size <= length levels)%nat -> length l = size -> sameAtMost k (take size (i8 <$> levels)) l ->
  turnsDown n k (fun workLevel map => flipRuns size levels (Z.of_nat size) workLevel 0 map) l.*2 =
    Ret (ruleL2 n k l).*2.
Proof.
  intros Hsize. revert k l. induction n as [|n IH]; intros k l Hl Hs; [done|]. cbn [turnsDown ruleL2].
  pose proof (flipRuns_spec size levels size k [] l.*2) as Hflip. rewrite len_nil in Hflip. cbn [app length] in Hflip.
  rewrite length_fmap, drop_0 in Hflip. rewrite Hflip by (lia || done). cbn [mbind outcome_bind].
  destruct (flip_carried _ _ _ Hs) as [-> Hs']. apply IH; [|done].
  rewrite (Permutation_length (reverseRuns_perm _ _ _)). done.
Qed.

(** The lowest level reversed: the lowest odd one, or for right-to-left output
    the lowest even one. *)
Definition lowestReversed (rtlOut : bool) (lv : list Z) : Z :=
  let lowest := foldl Z.min 100 lv in
  if rtlOut then i8 (Z.land (lowest + 1) (Z.lnot 1)) else Z.lor lowest 1.
Definition highestLevel (lv : list Z) : Z := foldl Z.max 0 lv.

(** The display order of a text with levels [lv] that arrives in the order
    [positions]. *)
Definition displayOrder (rtlOut : bool) (lv positions : list Z) : list Z :=
  (ruleL2 (Z.to_nat (highestLevel lv - (lowestReversed rtlOut lv - 1))) (highestLevel lv) (zip lv positions)).*2.

Lemma displayOrder_perm rtlOut lv positions : length lv = length positions -> displayOrder rtlOut lv positions ≡ₚ positions.
Proof. intros Hl. unfold displayOrder. rewrite ruleL2_perm, snd_zip by lia. done. Qed.

Lemma sameAtMost_zip {A} k lv (positions : list A) : length lv = length positions -> sameAtMost k lv (zip lv positions).
Proof.
  intros Hl j _. revert positions Hl. induction lv as [|l lv IH]; intros [|x positions] Hl; try done. cbn. f_equal. apply IH.
  by injection Hl.
Qed.

Definition identityMap (size : nat) : list Z := seqZ 0 (Z.of_nat size).

Lemma length_identityMap size : length (identityMap size) = size.
Proof. unfold identityMap. rewrite length_seqZ. lia. Qed.

Lemma pass2_spec levels size reset skip rtlOut map :
  (size <= length levels)%nat -> length map = size ->
  pass2 levels (Z.of_nat size) reset skip rtlOut map =
    Ret (let positions := if reset then identityMap size else map in
         if skip then positions else displayOrder rtlOut (take size (i8 <$> levels)) positions).
Proof.
  intros Hsize Hmap. unfold pass2. set (lv := take size (i8 <$> levels)).
  assert (length lv = size) as Hlv by (unfold lv; rewrite length_take, length_fmap; lia).
  match goal with |- forRange 0 _ ?b ?s ≫= _ = _ =>
    assert (yields (forRange 0 (Z.of_nat size) b s) (fun '(lo, hi, m) => lo = foldl Z.min 100 lv /\ hi = foldl Z.max 0 lv /\
      m = if reset then identityMap size else map)) as ([[lo hi] m] & -> & -> & -> & ->) end.
  { apply (yields_for _ _ _ (fun i '(lo, hi, m) => lo = foldl Z.min 100 (take (Z.to_nat i) lv) /\
      hi = foldl Z.max 0 (take (Z.to_nat i) lv) /\ m = if reset then seqZ 0 i ++ drop (Z.to_nat i) map else map)); [lia| | |].
    - split_and!; [done|done|]. by destruct reset.
    - intros i [[lo hi] m] Hi (-> & -> & ->). replace (Z.to_nat (i + 1)) with (S (Z.to_nat i)) by lia.
      destruct (lookup_lt_is_Some_2 levels (Z.to_nat i)) as [l Hl]; [lia|].
      assert (lv !! Z.to_nat i = Some (i8 l)) as Hlvi.
      { unfold lv. rewrite lookup_take_lt by lia. by rewrite list_lookup_fmap, Hl. }
      rewrite (take_S_r _ _ _ Hlvi), !foldl_app. cbn [foldl]. yield_step.
      assert (yields (if reset then put (if reset then seqZ 0 i ++ drop (Z.to_nat i) map else map) i i
                      else Ret (if reset then seqZ 0 i ++ drop (Z.to_nat i) map else map))
        (fun m => m = if reset then seqZ 0 (i + 1) ++ drop (S (Z.to_nat i)) map else map)) as (m & -> & ->).
      { destruct reset; [|by apply yields_Ret]. destruct (drop (Z.to_nat i) map) as [|d rest] eqn:Ed.
        { apply (f_equal length) in Ed. rewrite length_drop in Ed. cbn in Ed. lia. }
        rewrite put_middle by (unfold len; rewrite length_seqZ; lia). apply yields_Ret.
        rewrite seqZ_app, <-app_assoc by lia. cbn [app]. f_equal. change (seqZ (0 + i) 1) with [0 + i]. cbn [app]. f_equal.
        rewrite (drop_S _ d) in Ed; [by injection Ed|]. rewrite <-(Nat.add_0_r (Z.to_nat i)), <-lookup_drop, Ed. done. }
      apply yields_Ret. yield_step. apply yields_at; [unfold len; lia|]. intros l' Hl'. rewrite Hl in Hl'. injection Hl' as <-.
      by apply yields_Ret.
    - intros [[lo hi] m] (-> & -> & ->). rewrite Nat2Z.id, take_ge by lia. split_and!; [done|done|]. destruct reset; [|done].
      rewrite drop_ge, app_nil_r by lia. done. }
  cbn [mbind outcome_bind]. destruct skip; [done|]. set (positions := if reset then identityMap size else map).
  assert (length positions = size) as Hpos by (unfold positions; destruct reset; [apply length_identityMap|done]).
  unfold forDown, displayOrder. fold (lowestReversed rtlOut lv) (highestLevel lv).
  rewrite <-(snd_zip lv positions) at 1 by lia. rewrite Nat2Z.id.
  apply (flips_spec levels size); [done|rewrite length_zip; lia|]. apply sameAtMost_zip. lia.
Qed.

Lemma levels_int8 levels : Forall isLevel levels -> i8 <$> levels = levels.
Proof. induction 1 as [|l levels Hl _ IH]; [done|]. cbn. rewrite IH. f_equal. unfold isLevel in Hl. apply wraps_id; lia. Qed.

(** C33: the order of display is that of the Unicode bidirectional algorithm.
    The reversals in place of [pass2], guided by the levels of the positions, give
    what rule L2 gives on characters that take their levels along: from the
    highest level down to the lowest odd one (even one for right-to-left output)
    every run of at least that level is reversed. *)
Theorem pass2_is_rule_L2 (levels : list Z) (rtlOut : bool) (map : list Z) :
  length map = length levels -> Forall isLevel levels ->
  pass2 levels (len levels) true false rtlOut map =
    Ret (displayOrder rtlOut levels (identityMap (length levels))) /\
  displayOrder rtlOut levels (identityMap (length levels)) ≡ₚ identityMap (length levels).
Proof.
  intros Hmap Hl. split; [|apply displayOrder_perm; by rewrite length_identityMap].
  unfold len. rewrite pass2_spec by lia. rewrite take_ge by (rewrite length_fmap; lia). do 2 f_equal. by apply levels_int8.
Qed.

(** Numbers (level 2) keep their direction inside right-to-left text. *)
Lemma pass2_is_rule_L2_witness :
  let levels := [0; 1; 1; 2; 2; 1; 0] in
  pass2 levels (len levels) true false false (replicate 7 0) = Ret [0; 5; 3; 4; 2; 1; 6].
Proof.
  intros levels. destruct (pass2_is_rule_L2 levels false (replicate 7 0)) as [-> _]; [done|..].
  - apply (bool_decide_unpack _). by vm_compute.
  - by vm_compute.
Defined.

(** ** The loop over the text *)

Section LevelLoop.
Context (r : levelRun) (size : nat) (cls : list Z).
Context (Htab : closedTable (impTab r) = true) (Hcur : 0 <= ucbCurLev r <= 2) (Hsize : icsSize r = Z.of_nat size).
Context (Hmap : impToImpPhase r = 2 -> validMap size (dstToSrc r)).

(** The result of a pass. *)
Record levelled (s : levelState) : Prop := {
  le_swappable : Forall2 swappable cls (origTypes s);
  le_final : typesOk isClass size (origTypes s, finalTypes s);
  le_property : (size <= length (propertyMap s))%nat;
  le_levels : Forall isLevel (take size (propertyMap s));
  le_insert : insertCnt s = 0;
}.

#[local] Lemma Hmap' : impToImpPhase r = 2 ->
  Forall (fun d => 0 <= d < Z.of_nat size) (dstToSrc r) /\ (size <= length (dstToSrc r))%nat.
Proof. intros [Hl Hf]%Hmap. split; [done|lia]. Qed.

Lemma levelInv_types ix s l : levelInv r size cls ix s -> length l = size -> Forall2 swappable cls l ->
  levelInv r size cls ix (setOrig s l).
Proof. intros ([] & ? & ?) Hl Hs. split; [|done]. by constructor. Qed.

Lemma swappable_flip (second : bool) c t :
  (if second then abs8 t =? ubatN else t =? ubatN) = true -> swappable c t ->
  swappable c (if second then i8 (- t) else ubatNSwap).
Proof.
  intros Hn [Hc [->|[-> ->]]]; (split; [done|]).
  - destruct second; apply Z.eqb_eq in Hn; [|subst c; by right]. unfold abs8 in Hn. rewrite (proj2 (Z.ltb_ge c 0)) in Hn by lia.
    subst c. by right.
  - destruct second; [by left|by right].
Qed.

Lemma levelInv_next ix s w : levelInv r size cls ix s -> 0 <= ix < Z.of_nat size -> isLevel w ->
  levelInv r size cls (ix + 1) (setProperty s (<[Z.to_nat ix := u8 w]> (propertyMap s))).
Proof.
  intros ([] & ? & ?) Hix Hw. split; [|done]. constructor; cbn; rewrite ?length_insert; try done; [|lia].
  replace (Z.to_nat (ix + 1)) with (S (Z.to_nat ix)) by lia.
  assert (isLevel (u8 w)) as Hu by (unfold isLevel in *; rewrite wrapu_id; lia).
  rewrite (take_S_r _ _ (u8 w)) by (rewrite list_lookup_insert_eq; [done|lia]). apply Forall_app. split; [|by constructor].
  rewrite take_insert_ge by lia. done.
Qed.

Lemma levelLoop_ok s :
  levelInv r size cls 0 s -> yields (levelLoop r s) (fun s' => levelled s' /\ points s' = points s).
Proof.
  intros Hs. unfold levelLoop. yield_step.
  apply (yields_for _ _ _ (fun ix s' => levelInv r size cls ix s' /\ points s' = points s)); [lia|done| |].
  - intros ix s1 Hix [Hinv Hpts]. pose proof Hinv as ([Ho _ Hf Hc Hp Hl _ _] & _). yield_step.
    assert (yields (if impToImpPhase r =? 2 then at_ (dstToSrc r) ix else Ret ix) (fun k => 0 <= k < Z.of_nat size)) as (ipos & -> & Hipos).
    { apply yields_if; intros E; [apply Z.eqb_eq in E|by apply yields_Ret; lia]. apply validMap_at; [auto|lia]. }
    apply yields_Ret. yield_step. apply yields_at; [unfold len; lia|]. intros xType Hx. yield_step.
    eapply yields_weaken; [apply (implicitProcessing_ok r size cls Htab Hcur Hmap'); [done|lia|rewrite Forall_lookup in Hc; by eapply Hc]|].
    intros [s2 w] (Hinv2 & Hw & Hf2 & Hp2). pose proof Hinv2 as ([Ho2 Hs2 _ _ Hpr2 _ _ _] & _). yield_step. apply yields_put; [unfold len; lia|].
    cbv zeta. yield_step. apply yields_at; [cbn; unfold len; lia|]. intros t Ht. apply yields_if; intros Hn.
    + yield_step. apply yields_put; [cbn; unfold len; lia|]. apply yields_Ret. split; [|cbn; congruence].
      apply levelInv_types; [apply levelInv_next; [done|lia|done]|cbn; by rewrite length_insert|].
      apply (swappable_insert _ _ _ t); [done|done|]. apply andb_true_iff in Hn as [[Hn _]%andb_true_iff _].
      intros c Hc'. by apply (swappable_flip (impToImpPhase r =? 2) c t).
    + apply yields_Ret. split; [apply levelInv_next; [done|lia|done]|cbn; congruence].
  - intros s1 [Hinv Hpts]. yield_step.
    eapply yields_weaken; [apply (implicitProcessing_ok r size cls Htab Hcur Hmap'); [done|lia|done]|].
    intros [s2 w] (([Ho Hsw Hf Hc Hp Hl _ Hi] & _) & _ & _ & Hp2). apply yields_Ret. split; [|congruence].
    rewrite Hsize, Nat2Z.id in Hl. by constructor.
Qed.
End LevelLoop.

Lemma baseState_ok x oIn oOut ta property pts symmetric phase d2s size cls :
  typesOk isClass size ta -> Forall2 swappable cls ta.1 -> (size <= length property)%nat ->
  let r := baseRun x false oIn oOut symmetric phase d2s (Z.of_nat size) in
  closedTable (impTab r) = true /\ 0 <= ucbCurLev r <= 2 /\ levelInv r size cls 0 (baseState x false oIn ta property pts).
Proof.
  intros [Ho Hf Hc] Hs Hp. cbv zeta. assert (closedTable (impTab (baseRun x false oIn oOut symmetric phase d2s (Z.of_nat size))) = true)
    as Ht by apply implicitTable_closed.
  split_and!; [done|cbn; unfold currentLevel, baseLevel; by repeat case_bool_decide; cbn| |].
  - cbn. unfold currentLevel, baseLevel. by repeat case_bool_decide; cbn.
  - unfold closedTable in Ht. rewrite !andb_true_iff in Ht. destruct Ht as [[H0%Z.ltb_lt _] Hcond%Z.eqb_eq].
    split; [constructor; cbn; try done; lia|]. split; [cbn in *; lia|]. unfold rowCond. cbn [ucbImpSta baseState Z.to_nat].
    destruct (impTab _) as [|row rows]; [done|]. cbn [nth hd] in *. intros Hr. destruct Hr.
    destruct (decide (length row <= 9)%nat); [by rewrite nth_overflow|]. transitivity (nth 9 row 1); [|exact Hcond]. apply (nth_indep row). lia.
Qed.

Lemma getChType_range x : 0 <= getChType x <= 12.
Proof. unfold getChType. repeat (case_match; [by vm_compute|]). by vm_compute. Qed.

Lemma getChTypeWB_range x wb : 0 <= getChTypeWB x wb <= 12.
Proof. unfold getChTypeWB. case_match; [by vm_compute|]. apply getChType_range. Qed.

Lemma swappable_classes wb buffer : Forall2 swappable (classesOf wb buffer) (classesOf wb buffer).
Proof.
  unfold classesOf. induction buffer as [|c buffer IH]; [constructor|]. cbn. constructor; [|done].
  split; [apply getChTypeWB_range|by left].
Qed.

(** ** Phases *)

Lemma validMap_perm size map : map ≡ₚ identityMap size -> validMap size map.
Proof.
  intros Hp. split; [by rewrite (Permutation_length Hp), length_identityMap|]. rewrite Hp. apply Forall_forall.
  intros d Hd%elem_of_seqZ. lia.
Qed.

Lemma zeros_ok size : typesOk isClass size (replicate size 0, replicate size 0).
Proof. constructor; cbn; rewrite ?length_replicate; try done. by apply Forall_replicate. Qed.

Section Phases.
Context (p : orderPlan) (x : transformOptions) (m : transformMaps) (size : nat).
Context (Hins : insertMarkers p = false) (Hbuf : length (bufferIn p) = size).
Context (Hmap : length (DstToSrcMap m) = size) (Hprop : (size <= length (PropertyMap m))%nat).

(** The levels and the map of a plan. *)
Definition ordered (s : levelState) (map : list Z) : Prop :=
  levelled size (classesOf (WordBreak x) (bufferIn p)) s /\ points s = insertPoints m /\ map ≡ₚ identityMap size.

Lemma levels_of_table oIn : (implicitTable (RoundTrip x) (WinCompatible x) false (bool_decide (oIn = orientationRTL))).2 = false.
Proof. by destruct (RoundTrip x), (WinCompatible x). Qed.

Lemma onePhase_ok : yields (onePhase p x m (Z.of_nat size)) (fun '(s, map) => ordered s map).
Proof.
  unfold onePhase. rewrite Hins, Nat2Z.id. yield_step.
  eapply yields_weaken; [apply (fillTypeArray_ok isClass _ _ _ _ _ _ plain_isClass); [done|done|]; rewrite Hbuf; apply zeros_ok|]. rewrite Hbuf. intros ta [Hta Eta]. yield_step.
  edestruct (baseState_ok x (orientIn p) (orientOut p) ta (PropertyMap m) (insertPoints m)) as (Ht & Hc & Hinv);
    [exact Hta|rewrite Eta; apply swappable_classes|exact Hprop|].
  eapply yields_weaken; [eapply (levelLoop_ok _ size); [exact Ht|exact Hc|done|done|exact Hinv]|]. intros s [Hs Hp]. yield_step.
  destruct Hs as [Hsw Hty Hl Hlev Hi] eqn:E. rewrite pass2_spec by done. apply yields_Ret, yields_Ret. split; [done|]. split.
  - rewrite Hp. cbn. by rewrite levels_of_table.
  - cbn. case_match; [done|]. apply displayOrder_perm. rewrite length_identityMap, length_take, length_fmap. lia.
Qed.

Lemma invert_perm (ltr : bool) map : length map = size -> map ≡ₚ identityMap size ->
  yields (if ltr then invertInts map 0 (Z.of_nat size - 1) else Ret map) (fun map' => map' ≡ₚ identityMap size).
Proof.
  intros Hl Hp. apply yields_if; intros _; [|by apply yields_Ret]. pose proof (invertInts_spec [] map []) as Hi.
  rewrite !app_nil_r, len_nil in Hi. cbn [app] in Hi. unfold len in Hi. rewrite Hl in Hi.
  replace (0 + Z.of_nat size - 1) with (Z.of_nat size - 1) in Hi by lia. rewrite Hi. apply yields_Ret. by rewrite reverse_Permutation.
Qed.

Lemma twoPhases_ok : yields (twoPhases p x m (Z.of_nat size)) (fun '(s, map) => ordered s map).
Proof.
  unfold twoPhases. rewrite Hins, Nat2Z.id. yield_step.
  eapply yields_weaken; [apply (fillTypeArray_ok isClass _ _ _ _ _ _ plain_isClass); [done|done|]; rewrite Hbuf; apply zeros_ok|]. rewrite Hbuf. intros ta [Hta Eta]. yield_step.
  edestruct (baseState_ok x (orientIn p) orientationLTR ta (PropertyMap m) (insertPoints m)) as (Ht & Hc & Hinv);
    [exact Hta|rewrite Eta; apply swappable_classes|exact Hprop|].
  eapply yields_weaken; [eapply (levelLoop_ok _ size); [exact Ht|exact Hc|done|done|exact Hinv]|]. intros s [Hs Hp]. yield_step.
  destruct Hs as [Hsw Hty Hl Hlev Hi]. rewrite pass2_spec by done. apply yields_Ret. yield_step.
  assert (length (take size (i8 <$> propertyMap s)) = length (identityMap size)) as Hlen
    by (rewrite length_identityMap, length_take, length_fmap; lia).
  cbn [negb]. eapply yields_weaken; [apply invert_perm; [|by apply displayOrder_perm]|].
  { by rewrite (Permutation_length (displayOrder_perm false _ _ Hlen)), length_identityMap. }
  intros map Hmp. cbn beta in Hmp. yield_step. pose proof (validMap_perm _ _ Hmp) as Hv.
  eapply yields_weaken; [by apply (fillTypeArray2_ok size)|]. intros ta2 [Hta2 Eta2]. yield_step. cbn [fst] in Eta2.
  edestruct (baseState_ok x (if impToImpOrient p =? impLTR then orientationRTL else orientationLTR) (orientOut p) ta2 (propertyMap s) (points s))
    as (Ht2 & Hc2 & Hinv2); [exact Hta2|rewrite Eta2; exact Hsw|exact Hl|].
  eapply yields_weaken; [eapply (levelLoop_ok _ size); [exact Ht2|exact Hc2|done|intros _; exact Hv|exact Hinv2]|].
  intros s2 [Hs2 Hp2]. yield_step. pose proof Hs2 as [_ _ Hl2 _ _]. rewrite pass2_spec by (done || apply Hv).
  apply yields_Ret, yields_Ret. split; [done|]. split.
  - rewrite Hp2. cbn. rewrite levels_of_table, Hp. cbn. by rewrite levels_of_table.
  - cbn. rewrite displayOrder_perm; [done|]. rewrite length_take, length_fmap. destruct Hv as [-> _]. lia.
Qed.
End Phases.

(** ** The output *)

(** What [y] may be where [c] is displayed: the character, its national or
    nominal digit, or its mirror image. *)
Definition renders (wordBreak : bool) (numFlag : BidiFlag) (c y : Z) : Prop :=
  let t := getChTypeWB c wordBreak in
  y = c \/
  (t = ubatEN /\ numFlag ∈ [numeralsNational; numeralsContextual] /\ y = u16 (c + nationalOffset)) \/
  (t = ubatAN /\ numFlag = numeralsNominal /\ y = u16 (c - nationalOffset)) \/
  (t = ubatN /\ y = ucqsymm c).

Definition unitsAt (text map : list Z) : list Z := (fun k => nth (Z.to_nat k) text 0) <$> map.

Lemma outputChar_renders wb nf c o f : swappable (getChTypeWB c wb) o -> renders wb nf c (outputChar nf c o f).
Proof.
  intros [_ Hs]. unfold renders, outputChar. destruct (Z.eqb_spec o ubatEN) as [->|H1].
  { case_match eqn:E; [|by left]. right. left. destruct Hs as [<-|[_ ?]]; [|done]. split_and!; [done| |done].
    apply orb_true_iff in E as [->%bool_decide_eq_true|[->%bool_decide_eq_true _]%andb_true_iff]; [left|right; left]. }
  destruct (Z.eqb_spec o ubatAN) as [->|H2].
  { case_match eqn:E; [|by left]. right. right. left. destruct Hs as [<-|[_ ?]]; [|done]. by apply bool_decide_eq_true in E. }
  destruct (Z.eqb_spec o ubatNSwap) as [->|H3]; [|by left]. right. right. right. destruct Hs as [Hc|[-> _]]; [|done].
  pose proof (getChTypeWB_range c wb). unfold ubatNSwap in Hc. lia.
Qed.

Lemma pass3_ok size wb buffer map nf ta :
  length buffer = size -> validMap size map -> typesOk isClass size ta -> Forall2 swappable (classesOf wb buffer) ta.1 ->
  yields (pass3 buffer map nf ta) (fun out => Forall2 (renders wb nf) (unitsAt buffer map) out).
Proof.
  intros Hb [Hl Hf] [Ho Hfin _] Hs. unfold pass3.
  apply (yields_for _ _ _ (fun i out => length out = size /\
    Forall2 (renders wb nf) (unitsAt buffer (take (Z.to_nat i) map)) (take (Z.to_nat i) out))).
  - apply len_nonneg.
  - split; [by rewrite length_replicate|constructor].
  - intros i out Hi [Hlo Hout]. unfold len in Hi. yield_step. apply yields_at; [unfold len; lia|]. intros k Hk. yield_step.
    assert (0 <= k < Z.of_nat size) as Hkr by (rewrite Forall_lookup in Hf; by eapply Hf).
    apply yields_at; [unfold len; lia|]. intros c Hc. yield_step. apply yields_at; [unfold len; lia|]. intros o Hoi. yield_step.
    apply yields_at; [unfold len; lia|]. intros f _. apply yields_put; [unfold len; lia|]. split; [by rewrite length_insert|].
    replace (Z.to_nat (i + 1)) with (S (Z.to_nat i)) by lia. rewrite (take_S_r _ _ _ Hk).
    rewrite (take_S_r _ _ (outputChar nf c o f)) by (rewrite list_lookup_insert_eq; [done|lia]).
    unfold unitsAt. rewrite fmap_app, take_insert_ge by lia. apply Forall2_app; [done|]. constructor; [|done].
    rewrite (nth_lookup_Some _ _ _ _ Hc). apply outputChar_renders.
    eapply Forall2_lookup_lr; [exact Hs| |exact Hoi]. unfold classesOf. by rewrite list_lookup_fmap, Hc.
  - intros out [Hlo Hout]. unfold len in Hout. rewrite Nat2Z.id, Hb, !take_ge in Hout by lia. done.
Qed.

Definition isMark (c : Z) : bool := (c =? lrm) || (c =? rlm).
Definition withoutMarks (us : list Z) : list Z := List.filter (fun c => negb (isMark c)) us.

Lemma removeMarkers_ok size out map :
  length out = size -> length map = size ->
  yields (removeMarkers (Z.of_nat size) out map) (fun '(out', map', removed) =>
    length out' = size /\ length map' = size /\ removed = Z.of_nat size - len (withoutMarks out) /\
    take (length (withoutMarks out)) out' = withoutMarks out).
Proof.
  intros Ho Hm. unfold removeMarkers.
  apply (yields_for _ _ _ (fun pos '(out', map', removed) =>
    length out' = size /\ length map' = size /\ removed = pos - len (withoutMarks (take (Z.to_nat pos) out)) /\ 0 <= removed /\
    take (length (withoutMarks (take (Z.to_nat pos) out))) out' = withoutMarks (take (Z.to_nat pos) out) /\
    drop (Z.to_nat pos) out' = drop (Z.to_nat pos) out)); [lia|done| |].
  - intros pos [[out' map'] removed] Hpos (Hlo & Hlm & Hr & Hr0 & Htake & Hdrop).
    set (kept := withoutMarks (take (Z.to_nat pos) out)) in *. yield_step. apply yields_at; [unfold len; lia|]. intros c Hc.
    assert (out !! Z.to_nat pos = Some c) as Hco.
    { pose proof (f_equal (lookup 0%nat) Hdrop) as H0. rewrite !lookup_drop, Nat.add_0_r in H0. by rewrite <-H0. }
    replace (Z.to_nat (pos + 1)) with (S (Z.to_nat pos)) by lia. rewrite (take_S_r _ _ _ Hco).
    assert (withoutMarks (take (Z.to_nat pos) out ++ [c]) = kept ++ (if isMark c then [] else [c])) as ->.
    { unfold withoutMarks. rewrite List.filter_app. fold (withoutMarks (take (Z.to_nat pos) out)). unfold kept. cbn. by destruct (isMark c). }
    assert (drop (S (Z.to_nat pos)) out' = drop (S (Z.to_nat pos)) out) as HdropS.
    { rewrite <-Nat.add_1_r, <-!drop_drop. by rewrite Hdrop. }
    fold (isMark c). destruct (isMark c) eqn:Em.
    + apply yields_Ret. rewrite app_nil_r. split_and!; try done; lia.
    + apply yields_if; intros Hrem.
      * apply Z.ltb_lt in Hrem. yield_step. apply yields_put; [unfold len in *; lia|]. yield_step.
        apply yields_at; [unfold len; lia|]. intros d _. yield_step. apply yields_put; [unfold len in *; lia|]. apply yields_Ret.
        assert (Z.to_nat (pos - removed) = length kept) as Hk by (unfold len in Hr; lia). rewrite Hk, !length_insert, length_app, len_app, len_cons, len_nil. cbn [length]. rewrite Nat.add_1_r.
        split_and!; try done; try lia.
        -- rewrite (take_S_r _ _ c) by (rewrite list_lookup_insert_eq; [done|unfold len in Hr; lia]).
           rewrite take_insert_ge by lia. by rewrite Htake.
        -- rewrite drop_insert_lt by lia. done.
      * apply Z.ltb_ge in Hrem. apply yields_Ret. assert (Z.to_nat pos = length kept) as Hk by (unfold len in Hr; lia).
        rewrite length_app, len_app, len_cons, len_nil. cbn [length].
        split_and!; try done; try lia. rewrite Hk in Hc. rewrite Nat.add_1_r, (take_S_r _ _ _ Hc). by rewrite Htake.
  - intros [[out' map'] removed] (Hlo & Hlm & Hr & _ & Htake & _). rewrite Nat2Z.id, (take_ge out) in * by lia. done.
Qed.

Lemma planOrder_buffer text sf df x :
  bufferIn (planOrder text sf df x) = if invertInput (planOrder text sf df x) then reverse text else text.
Proof. unfold planOrder. by repeat (case_match; cbn; try done). Qed.

Lemma planOrder_numerals text sf df x : numFlag (planOrder text sf df x) = GetNumerals df.
Proof. unfold planOrder. by repeat (case_match; cbn; try done). Qed.

Lemma planOrder_insert text sf df x : InsertMarkers x = false -> insertMarkers (planOrder text sf df x) = false.
Proof. intros Hi. unfold planOrder. rewrite Hi. by repeat (case_match; cbn; try done). Qed.

(** Positions counted from the end. *)
Definition fromEnd (size : nat) (map : list Z) : list Z := (fun d => Z.of_nat size - d - 1) <$> map.

Lemma fromEnd_perm size map : map ≡ₚ identityMap size -> fromEnd size map ≡ₚ identityMap size.
Proof.
  intros Hp. unfold fromEnd. rewrite Hp. clear Hp. assert ((fun d => Z.of_nat size - d - 1) <$> identityMap size = reverse (identityMap size)) as ->.
  2: by rewrite reverse_Permutation.
  apply list_eq. intros i. unfold identityMap. rewrite list_lookup_fmap.
  destruct (decide (i < size)%nat) as [Hi|Hi].
  - rewrite reverse_lookup by (rewrite length_seqZ; lia). rewrite length_seqZ, !lookup_seqZ_lt by lia. cbn. f_equal. lia.
  - rewrite !lookup_ge_None_2; [done|rewrite length_reverse, length_seqZ; lia|rewrite length_seqZ; lia].
Qed.

Lemma unitsAt_reverse size text map : length text = size -> validMap size map ->
  unitsAt (reverse text) map = unitsAt text (fromEnd size map).
Proof.
  intros Hl [_ Hf]. unfold unitsAt, fromEnd. rewrite <-list_fmap_compose. induction Hf as [|d map Hd _ IH]; [done|].
  cbn. f_equal; [|done]. rewrite !nth_lookup, reverse_lookup by lia. do 2 f_equal. lia.
Qed.

Lemma invertMap_ok size map : length map = size ->
  yields (forRange 0 (Z.of_nat size) (fun i map => d ← at_ map i; put map i (Z.of_nat size - d - 1)) map)
    (fun map' => map' = fromEnd size map).
Proof.
  intros Hl. apply (yields_for _ _ _ (fun i map' => map' = fromEnd size (take (Z.to_nat i) map) ++ drop (Z.to_nat i) map)).
  - lia.
  - done.
  - intros i map' Hi ->. replace (Z.to_nat (i + 1)) with (S (Z.to_nat i)) by lia.
    destruct (lookup_lt_is_Some_2 map (Z.to_nat i)) as [d Hd]; [lia|]. rewrite (drop_S _ _ _ Hd), (take_S_r _ _ _ Hd).
    assert (i = len (fromEnd size (take (Z.to_nat i) map))) as Hi'
      by (unfold fromEnd, len; rewrite length_fmap, length_take_le by lia; lia).
    rewrite at_middle by done. cbn [mbind outcome_bind]. rewrite put_middle by done. apply yields_Ret.
    unfold fromEnd. by rewrite fmap_app, <-app_assoc.
  - intros map' ->. rewrite Nat2Z.id, take_ge, drop_ge, app_nil_r by lia. done.
Qed.

(** The text of a flag set that [Transform] starts from, and its empty
    destination. *)
Definition sourceText (flags : BidiFlagSet) (text : list Z) : bidiText := mkText flags (Some text) 0 (len text).
Definition emptyText (flags : BidiFlagSet) : bidiText := mkText flags None 0 0.

(** Levels and map, from either number of phases. *)
Lemma phases_ok text sf df x m :
  let size := length text in
  InsertMarkers x = false -> length (DstToSrcMap m) = size -> (size <= length (PropertyMap m))%nat ->
  let p := planOrder text sf df x in
  yields (if 0 <? impToImpOrient p then twoPhases p x m (Z.of_nat size) else onePhase p x m (Z.of_nat size))
    (fun '(s, map) => ordered p x m size s map).
Proof.
  intros size Hi Hm Hp p. assert (length (bufferIn p) = size) as Hb.
  { unfold p. rewrite planOrder_buffer. destruct (invertInput _); [by rewrite length_reverse|done]. }
  apply yields_if; intros _; [apply twoPhases_ok|apply onePhase_ok]; try done; by apply planOrder_insert.
Qed.

(** What [order] returns. *)
Lemma order_spec (text : list Z) (srcFlags dstFlags : BidiFlagSet) (x : transformOptions) :
  InsertMarkers x = false -> SrcToDstMapRequired x = false -> PropertyMapRequired x = false ->
  exists data m map out,
    order (sourceText srcFlags text) (emptyText dstFlags) x emptyMaps =
      Ret (mkText dstFlags (Some data) 0 (OutCount m), m) /\
    map ≡ₚ identityMap (length text) /\
    Forall2 (renders (WordBreak x) (GetNumerals dstFlags)) (unitsAt text map) out /\
    let shown := if RemoveMarkers x then withoutMarks out else out in
    OutCount m = len shown /\ take (length shown) data = shown /\ length data = length text.
Proof.
  intros Hi Hs Hp. unfold order. cbn [Count sourceText textAttrs emptyText Offset Data units].
  destruct text as [|u us] eqn:Et.
  { exists [], (mkMaps 0 0 [] [] [] None), [], []. split_and!; [done|done|constructor|..]; by destruct (RemoveMarkers x). }
  rewrite <-Et. assert (1 <= len text) as Hlen by (rewrite Et, len_cons; pose proof (len_nonneg us); lia). clear Et u us.
  rewrite (proj2 (Z.ltb_ge _ _)) by lia. change (units (sourceText srcFlags text)) with text. rewrite (cut_all text) by lia.
  cbn [mbind outcome_bind].
  set (p := planOrder text srcFlags dstFlags x). set (m := mkMaps _ _ _ _ _ _).
  assert (len text = Z.of_nat (length text)) as Hn by done.
  edestruct (phases_ok text srcFlags dstFlags x m Hi) as ([s map] & E & Hlev & Hpts & Hperm).
  { cbn. rewrite (proj2 (Z.ltb_lt _ _)) by (rewrite len_nil; lia). rewrite length_replicate. lia. }
  { cbn. rewrite (proj2 (Z.ltb_lt _ _)) by (rewrite len_nil; lia). rewrite length_replicate. lia. }
  rewrite <-Hn in E. fold p in E. rewrite E. cbn [mbind outcome_bind]. clear E.
  destruct Hlev as [Hsw Hty _ _ Hins]. fold p in Hsw. pose proof (validMap_perm _ _ Hperm) as Hv.
  assert (length (bufferIn p) = length text) as Hb.
  { unfold p. rewrite planOrder_buffer. destruct (invertInput _); [by rewrite length_reverse|done]. }
  destruct (pass3_ok (length text) (WordBreak x) (bufferIn p) map (numFlag p) _ Hb Hv Hty Hsw) as (out & -> & Hout).
  cbn [mbind outcome_bind]. unfold p at 1 in Hout. rewrite planOrder_numerals in Hout.
  assert (exists source, source ≡ₚ identityMap (length text) /\ unitsAt (bufferIn p) map = unitsAt text source) as (source & Hsp & Hsu).
  { unfold p. rewrite planOrder_buffer. destruct (invertInput _); [|by exists map].
    exists (fromEnd (length text) map). split; [by apply fromEnd_perm|]. by apply unitsAt_reverse. }
  rewrite Hsu in Hout. pose proof (Forall2_length _ _ _ Hout) as Hol. unfold unitsAt in Hol. rewrite length_fmap in Hol.
  rewrite (Permutation_length Hsp), length_identityMap in Hol.
  match goal with |- context [if ?b then forRange _ _ _ map else Ret map] =>
    assert (yields (if b then forRange 0 (len text) (fun i map => d ← at_ map i; put map i (len text - d - 1)) map else Ret map)
      (fun map' => length map' = length text)) as (map' & -> & Hm') end.
  { destruct Hv as [Hl _]. apply yields_if; intros _; [|by apply yields_Ret]. rewrite Hn.
    eapply yields_weaken; [by apply invertMap_ok|]. intros ? ->. unfold fromEnd. by rewrite length_fmap. }
  cbn [mbind outcome_bind]. rewrite Hs, Hp, Hins. change (0 <? 0) with false.
  assert (yields (if RemoveMarkers x then removeMarkers (len text) out map' else Ret (out, map', 0)) (fun '(data, _, removed) =>
    let shown := if RemoveMarkers x then withoutMarks out else out in
    length data = length text /\ removed = len text - len shown /\ take (length shown) data = shown)) as ([[data map2] removed] & -> & Hd & Hr & Ht).
  { destruct (RemoveMarkers x); cbn.
    - rewrite Hn. eapply yields_weaken; [by apply removeMarkers_ok|]. intros [[data map2] removed] (? & _ & ? & ?). done.
    - apply yields_Ret. split_and!; [lia|unfold len; lia|by rewrite take_ge]. }
  cbn [mbind outcome_bind]. unfold destinationData. cbn [Data Offset bool_decide]. cbn. 
  exists data, (mkMaps (len text) (len text - removed + 0) [] map2 (propertyMap s) (points s)), source, out. split; [reflexivity|]. cbn [OutCount]. split_and!; try done. cbn in Hr. lia.
Qed.

(** C34: reordering permutes.  For every text and every pair of flag sets, when no
    markers are to be inserted and no maps are asked for, [order] returns: what it displays is the text in
    the order of some permutation of its positions, each character shown as
    itself, as its digit in the other set, or as its mirror image.  When markers
    are removed exactly they are missing; the array keeps its length. *)
Theorem order_permutes (text : list Z) (srcFlags dstFlags : BidiFlagSet) (x : transformOptions) :
  InsertMarkers x = false -> SrcToDstMapRequired x = false -> PropertyMapRequired x = false ->
  exists data m map out,
    order (sourceText srcFlags text) (emptyText dstFlags) x emptyMaps =
      Ret (mkText dstFlags (Some data) 0 (OutCount m), m) /\
    map ≡ₚ identityMap (length text) /\
    Forall2 (renders (WordBreak x) (GetNumerals dstFlags)) (unitsAt text map) out /\
    let shown := if RemoveMarkers x then withoutMarks out else out in
    OutCount m = len shown /\ take (length shown) data = shown /\ length data = length text.
Proof. exact (order_spec text srcFlags dstFlags x). Qed.

(** ** Left-to-right text *)

(** The first row of a table for left-to-right text stays, at the base level, on
    everything but right-to-left letters and Arabic digits. *)
Definition restingTable (table : list (list Z)) : bool :=
  match table with
  | row :: _ => (len row =? 10) && forallb (fun x => nth x row 1 =? 0) [0; 1; 2; 4; 6; 7; 8; 9]%nat
  | [] => false
  end.

Lemma ltrTables_rest rt : restingTable (implicitTable rt false false false).1 = true.
Proof. by destruct rt. Qed.

Lemma rest_at row x : len row = 10 -> 0 <= x < 10 -> nth (Z.to_nat x) row 1 = 0 -> at_ row x = Ret 0.
Proof.
  intros Hl Hx Hn. destruct (lookup_lt_is_Some_2 row (Z.to_nat x)) as [v Hv]; [unfold len in Hl; lia|].
  rewrite (nth_lookup_Some _ _ _ _ Hv) in Hn. subst v. apply at_Some; [lia|done].
Qed.

Lemma implicitProcessing_rest r ix xType s :
  restingTable (impTab r) = true -> isPlainClass xType -> ucbImpSta s = 0 -> ucbCondPos s = -1 -> ucbCurLev r = 0 ->
  implicitProcessing r ix xType s = Ret (setImpSta s 0, 0).
Proof.
  intros Ht Hx Hs Hc Hl. unfold implicitProcessing. rewrite Hs. destruct (impTab r) as [|row rows]; [done|].
  cbn [restingTable] in Ht. rewrite andb_true_iff, forallb_forall in Ht. destruct Ht as [Hlen%Z.eqb_eq Hz].
  assert (forall x, isPlainClass x \/ x = itil \/ x = itcond -> at_ row x = Ret 0) as Hrow.
  { intros x H. assert (In (Z.to_nat x) [0; 1; 2; 4; 6; 7; 8; 9]%nat /\ 0 <= x < 10) as [Hin Hr].
    { unfold isPlainClass, ubatB, ubatS, ubatL, ubatEN, ubatW, ubatN, itil, itcond in H. cbn [In]. lia. }
    apply rest_at; [done|done|]. by apply Z.eqb_eq, Hz. }
  change (at_ (row :: rows) 0) with (Ret row). cbn [mbind outcome_bind]. rewrite Hrow by auto. cbn [mbind outcome_bind].
  change (Z.land 0 15) with 0. change (at_ (row :: rows) 0) with (Ret row). cbn [mbind outcome_bind]. rewrite Hrow by auto.
  cbn [mbind outcome_bind]. change (0 <? Z.shiftr 0 4) with false. cbn [mbind outcome_bind]. rewrite Hrow by auto.
  cbn [mbind outcome_bind]. change (0 =? 0) with true. rewrite Hc. change (-1 <? -1) with false. cbn [mbind outcome_bind].
  rewrite Hl. change (i8 (0 + 0)) with 0. by destruct (xType =? ubatB).
Qed.

Lemma levelLoop_rest r size s :
  restingTable (impTab r) = true -> ucbCurLev r = 0 -> icsSize r = Z.of_nat size -> impToImpPhase r = 0 ->
  length (origTypes s) = size -> length (finalTypes s) = size -> Forall isPlainClass (finalTypes s) ->
  (size <= length (propertyMap s))%nat -> ucbImpSta s = 0 -> ucbCondPos s = -1 ->
  yields (levelLoop r s) (fun s' => origTypes s' = origTypes s /\ finalTypes s' = finalTypes s /\ insertCnt s' = insertCnt s /\
    length (propertyMap s') = length (propertyMap s) /\ take size (propertyMap s') = replicate size 0).
Proof.
  intros Ht Hl Hsize Hph Ho Hf Hplain Hp Hsta Hcond. unfold levelLoop. rewrite Hph. change (0 =? 2) with false. yield_step.
  apply (yields_for _ _ _ (fun ix s' => origTypes s' = origTypes s /\ finalTypes s' = finalTypes s /\ insertCnt s' = insertCnt s /\
    length (propertyMap s') = length (propertyMap s) /\ ucbImpSta s' = 0 /\ ucbCondPos s' = -1 /\
    take (Z.to_nat ix) (propertyMap s') = replicate (Z.to_nat ix) 0)); [lia|done| |].
  - intros ix s1 Hix (Eo & Ef & Ei & Ep & Es & Ec & Et). yield_step. yield_step. yield_step. rewrite Ef.
    apply yields_at; [unfold len; lia|]. intros xType Hx.
    rewrite implicitProcessing_rest; [|done|rewrite Forall_lookup in Hplain; by eapply Hplain|done|done|done].
    yield_step. yield_step. yield_step. apply yields_put; [cbn; unfold len; lia|]. cbv zeta. yield_step.
    apply yields_at; [cbn; rewrite Eo; unfold len; lia|]. intros t _. change (Z.odd 0) with false. rewrite andb_false_r.
    apply yields_Ret. cbn. rewrite length_insert. split_and!; try done.
    replace (Z.to_nat (ix + 1)) with (S (Z.to_nat ix)) by lia.
    rewrite (take_S_r _ _ 0) by (rewrite list_lookup_insert_eq; [done|lia]). rewrite take_insert_ge by lia.
    by rewrite Et, replicate_S_end.
  - intros s1 (Eo & Ef & Ei & Ep & Es & Ec & Et). yield_step.
    rewrite implicitProcessing_rest; [|done|by left|done|done|done]. yield_step. apply yields_Ret. cbn.
    rewrite Hsize, Nat2Z.id in Et. done.
Qed.

(** A character of left-to-right text: no right-to-left letter, Arabic digit or
    marker. *)
Definition leftToRight (u : Z) : Prop := (getChType u ∉ [ubatR; ubatAL; ubatAN]) /\ u <> lrm.

Lemma leftToRight_class wb u : leftToRight u -> getChTypeWB u wb ∉ [ubatR; ubatAL; ubatAN].
Proof. intros [H _]. unfold getChTypeWB. destruct (wb && (u =? 0x20)); [|done]. apply (bool_decide_unpack _). by vm_compute. Qed.

Lemma leftToRight_no_mark u : leftToRight u -> isMark u = false.
Proof.
  intros [H Hl]. unfold isMark. destruct (Z.eqb_spec u lrm); [done|]. destruct (Z.eqb_spec u rlm) as [->|]; [|done].
  destruct H. apply (bool_decide_unpack _). by vm_compute.
Qed.

Lemma strongOf_ltr us : Forall leftToRight us -> strongOf us = ubatL \/ strongOf us = ubatN.
Proof.
  induction 1 as [|u us [Hu _] _ IH]; [by right|]. cbn [strongOf]. destruct (Z.eqb_spec (getChType u) ubatL); [by left|].
  destruct (Z.eqb_spec (getChType u) ubatR) as [E|_]; [destruct Hu; rewrite E; left|].
  destruct (Z.eqb_spec (getChType u) ubatAL) as [E|_]; [destruct Hu; rewrite E; right; left|]. exact IH.
Qed.

Definition ltrOriented (f : BidiFlagSet) : Prop := GetOrientation f = orientationLTR \/ GetOrientation f = orientationContextLTR.

Lemma resolve_ltr f text : ltrOriented f -> Forall leftToRight text ->
  resolveIn (GetOrientation f) text = orientationLTR /\ resolveOut (GetOrientation f) text = orientationLTR.
Proof.
  intros [-> | ->] Ht; [done|]. unfold resolveIn, resolveOut. cbn [isContextual].
  change (isContextual orientationContextLTR) with true. cbn. unfold firstStrong, lastStrong.
  destruct (strongOf_ltr text Ht) as [-> | ->]; [|done]. cbn.
  assert (Forall leftToRight (reverse text)) as Hr by (by rewrite reverse_Permutation).
  by destruct (strongOf_ltr _ Hr) as [-> | ->].
Qed.

Lemma plan_ltr text sf df x : ltrOriented sf -> ltrOriented df -> Forall leftToRight text -> InsertMarkers x = false ->
  let p := planOrder text sf df x in
  orientIn p = orientationLTR /\ orientOut p = orientationLTR /\ impToImpOrient p = 0 /\ invertInput p = false /\
  insertMarkers p = false /\ bufferIn p = text /\ numFlag p = GetNumerals df.
Proof.
  intros Hs Hd Ht Hi. cbv zeta. unfold planOrder. rewrite Hi. destruct (resolve_ltr sf text Hs Ht) as [-> _].
  destruct (resolve_ltr df text Hd Ht) as [_ ->]. cbn. rewrite !andb_false_r.
  by destruct (Delimiters x) as [|d [|e l]].
Qed.

Lemma displayOrder_flat size positions : length positions = size -> displayOrder false (replicate size 0) positions = positions.
Proof.
  intros Hl. unfold displayOrder. assert (highestLevel (replicate size 0) = 0) as ->.
  { unfold highestLevel. clear. induction size as [|n IH]; [done|]. exact IH. }
  assert (1 <= lowestReversed false (replicate size 0)) as Hlow.
  { unfold lowestReversed. destruct size as [|n]; [by vm_compute|]. assert (foldl Z.min 100 (replicate (S n) 0) = 0) as ->; [|by vm_compute].
    cbn. clear. induction n as [|n IH]; [done|]. exact IH. }
  replace (Z.to_nat _) with O by lia. cbn. apply snd_zip. rewrite length_replicate. lia.
Qed.

Lemma outputChar_ltr nf wb u f :
  leftToRight u -> isPlainClass f -> nf <> numeralsNational -> outputChar nf u (getChTypeWB u wb) f = u.
Proof.
  intros Hu Hf Hnf. unfold outputChar. pose proof (getChTypeWB_range u wb). pose proof (leftToRight_class wb u Hu) as Hc.
  destruct (Z.eqb_spec (getChTypeWB u wb) ubatEN).
  - rewrite bool_decide_eq_false_2 by done. cbn [orb].
    destruct (Z.eqb_spec f ubatAN) as [->|]; [|by rewrite andb_false_r]. unfold isPlainClass in Hf. by decompose [or] Hf.
  - destruct (Z.eqb_spec (getChTypeWB u wb) ubatAN) as [E|_]; [destruct Hc; rewrite E; right; right; left|].
    destruct (Z.eqb_spec (getChTypeWB u wb) ubatNSwap) as [E|_]; [unfold ubatNSwap in E; lia|done].
Qed.

Lemma plain_zeros size : typesOk isPlainClass size (replicate size 0, replicate size 0).
Proof. constructor; cbn; rewrite ?length_replicate; try done. apply Forall_replicate. by left. Qed.

Lemma onePhase_ltr p x m text :
  bufferIn p = text -> Forall leftToRight text -> insertMarkers p = false -> WinCompatible x = false ->
  orientIn p = orientationLTR -> orientOut p = orientationLTR ->
  length (DstToSrcMap m) = length text -> (length text <= length (PropertyMap m))%nat ->
  yields (onePhase p x m (len text)) (fun '(s, map) =>
    origTypes s = classesOf (WordBreak x) text /\ length (finalTypes s) = length text /\ Forall isPlainClass (finalTypes s) /\
    insertCnt s = 0 /\ map = identityMap (length text)).
Proof.
  intros Hb Ht Hi Hw Hin Hout Hm Hp. unfold onePhase. rewrite Hi, Hb, Hin, Hout. yield_step.
  assert (Z.to_nat (len text) = length text) as Hn by (unfold len; lia). rewrite Hn.
  assert (forall c, c ∈ classesOf (WordBreak x) text -> c ∉ [ubatR; ubatAL; ubatAN]) as Hcls.
  { intros c Hc. unfold classesOf in Hc. apply list_elem_of_fmap in Hc as (u & -> & Hu). apply leftToRight_class.
    rewrite Forall_forall in Ht. auto. }
  eapply yields_weaken; [apply (fillTypeArray_ok isPlainClass); [done| | |apply plain_zeros]|].
  { intros c Hc [-> | ->]; destruct (Hcls _ Hc); [left|right; left]. }
  { intros c Hc [-> | ->]; destruct (Hcls _ Hc); [right; left|right; right; left]. }
  intros ta [[Ho Hf Hpl] E]. yield_step.
  eapply yields_weaken; [apply (levelLoop_rest _ (length text)); cbn; try done; rewrite Hw; apply ltrTables_rest|].
  intros s (Eo & Ef & Ei & Ep & Et). cbn in Eo, Ef, Ei, Ep. yield_step. unfold len. rewrite pass2_spec by lia. apply yields_Ret, yields_Ret.
  split_and!; [congruence|congruence|congruence|done|]. cbv zeta. case_match; [done|].
  rewrite <-fmap_take, Et, fmap_replicate. change (i8 0) with 0. change (bool_decide (orientationLTR = orientationRTL)) with false.
  apply displayOrder_flat, length_identityMap.
Qed.

Lemma pass3_ltr wb text nf final :
  Forall leftToRight text -> nf <> numeralsNational -> length final = length text -> Forall isPlainClass final ->
  pass3 text (identityMap (length text)) nf (classesOf wb text, final) = Ret text.
Proof.
  intros Ht Hnf Hl Hpl. assert (yields (pass3 text (identityMap (length text)) nf (classesOf wb text, final)) (fun out => out = text)) as (out & -> & ->); [|done].
  unfold pass3. apply (yields_for _ _ _ (fun i out => length out = length text /\ take (Z.to_nat i) out = take (Z.to_nat i) text)).
  - apply len_nonneg.
  - split; [by rewrite length_replicate|done].
  - intros i out Hi [Hlo Hout]. unfold len in Hi. yield_step. apply yields_at; [unfold len; rewrite length_identityMap; lia|].
    intros k Hk. apply lookup_seqZ in Hk as [-> _]. replace (0 + Z.of_nat (Z.to_nat i)) with i by lia. yield_step.
    apply yields_at; [done|]. intros u Hu. yield_step. apply yields_at; [cbn [fst]; unfold len, classesOf; rewrite length_fmap; lia|].
    intros o Hoi. cbn [fst] in Hoi. unfold classesOf in Hoi. rewrite list_lookup_fmap, Hu in Hoi. injection Hoi as <-. yield_step.
    apply yields_at; [unfold len; cbn; lia|]. intros f Hf. apply yields_put; [unfold len; lia|].
    rewrite outputChar_ltr; [|rewrite Forall_lookup in Ht; by eapply Ht|rewrite Forall_lookup in Hpl; by eapply Hpl|done].
    rewrite length_insert. split; [done|]. replace (Z.to_nat (i + 1)) with (S (Z.to_nat i)) by lia.
    rewrite (take_S_r text _ _ Hu), (take_S_r _ _ u) by (rewrite list_lookup_insert_eq; [done|lia]).
    rewrite take_insert_ge by lia. by rewrite Hout.
  - intros out [Hlo Hout]. unfold len in Hout. by rewrite Nat2Z.id, !take_ge in Hout by lia.
Qed.

Lemma withoutMarks_ltr text : Forall leftToRight text -> withoutMarks text = text.
Proof.
  induction 1 as [|u text Hu _ IH]; [done|]. unfold withoutMarks in *. cbn. rewrite leftToRight_no_mark by done. cbn. by rewrite IH.
Qed.

(** What [order] returns on left-to-right text. *)
Lemma order_ltr (text : list Z) (srcFlags dstFlags : BidiFlagSet) (x : transformOptions) :
  ltrOriented srcFlags -> ltrOriented dstFlags -> GetNumerals dstFlags <> numeralsNational ->
  InsertMarkers x = false -> WinCompatible x = false -> SrcToDstMapRequired x = false -> PropertyMapRequired x = false ->
  Forall leftToRight text ->
  exists m, order (sourceText srcFlags text) (emptyText dstFlags) x emptyMaps =
    Ret (mkText dstFlags (Some text) 0 (len text), m).
Proof.
  intros Hs Hd Hnum Hi Hw Hsd Hpm Ht. unfold order. cbn [Count sourceText textAttrs emptyText Offset Data units].
  destruct (Z.ltb_spec (len text) 1) as [Hlt|Hge].
  { assert (text = []) as -> by (destruct text; [done|]; rewrite len_cons in Hlt; pose proof (len_nonneg text); lia). by eexists. }
  change (units (sourceText srcFlags text)) with text. rewrite (cut_all text) by lia. cbn [mbind outcome_bind].
  destruct (plan_ltr text srcFlags dstFlags x Hs Hd Ht Hi) as (Hin & Hout & Himp & Hinv & Hins & Hbuf & Hnf).
  set (p := planOrder text srcFlags dstFlags x) in *. set (m := mkMaps _ _ _ _ _ _). rewrite Himp. change (0 <? 0) with false.
  edestruct (onePhase_ltr p x m text) as ([s map] & -> & Eo & Ef & Hpl & Ei & ->); try done.
  { cbn. rewrite (proj2 (Z.ltb_lt _ _)) by (rewrite len_nil; lia). rewrite length_replicate. unfold len. lia. }
  { cbn. rewrite (proj2 (Z.ltb_lt _ _)) by (rewrite len_nil; lia). rewrite length_replicate. unfold len. lia. }
  cbn [mbind outcome_bind]. rewrite Hbuf, Hnf, Eo, pass3_ltr by done. cbn [mbind outcome_bind].
  rewrite Hinv, andb_false_r. cbn [mbind outcome_bind]. rewrite Ei, Hsd, Hpm. change (0 <? 0) with false.
  assert (yields (if RemoveMarkers x then removeMarkers (len text) text (identityMap (length text)) else Ret (text, identityMap (length text), 0))
    (fun '(data, _, removed) => data = text /\ removed = 0)) as ([[data map2] removed] & -> & -> & ->).
  { destruct (RemoveMarkers x); [|by apply yields_Ret].
    eapply yields_weaken; [apply (removeMarkers_ok (length text)); [done|apply length_identityMap]|].
    intros [[data map2] removed] (Hl & _ & Hr & Htake). rewrite withoutMarks_ltr in Hr, Htake by done.
    split; [|unfold len in Hr; lia]. rewrite <-Htake. symmetry. apply take_ge. lia. }
  cbn. eexists. do 2 f_equal. f_equal. lia.
Qed.

(** Left-to-right text is left alone.  Between layouts whose orientation is
    left-to-right, or contextual with that default, text without right-to-left
    letters, Arabic digits and markers comes back unit by unit, so Latin SQL and
    data do not depend on the bidirectional settings (national digits and the
    Windows tables apart). *)
Theorem order_keeps_ltr (text : list Z) (srcFlags dstFlags : BidiFlagSet) (x : transformOptions) :
  ltrOriented srcFlags -> ltrOriented dstFlags -> GetNumerals dstFlags <> numeralsNational ->
  InsertMarkers x = false -> WinCompatible x = false -> SrcToDstMapRequired x = false -> PropertyMapRequired x = false ->
  Forall leftToRight text ->
  exists m, order (sourceText srcFlags text) (emptyText dstFlags) x emptyMaps =
    Ret (mkText dstFlags (Some text) 0 (len text), m).
Proof. exact (order_ltr text srcFlags dstFlags x). Qed.

Definition hebrewLine : list Z := [65; 32; 0x5D0; 0x28; 0x5D1; 32; 49; 50; 0x200E].

(** Implicit text to left-to-right visual text: the letters are reversed around
    the number, the bracket is mirrored and the marker removed. *)
Lemma order_permutes_witness :
  let x := mkOptions true false false false true [] None false false false false in
  exists m map,
    order (sourceText (initFlagSet 5) hebrewLine) (emptyText (initFlagSet 4)) x emptyMaps =
      Ret (mkText (initFlagSet 4) (Some [65; 32; 49; 50; 32; 0x5D1; 0x29; 0x5D0; 0x200E]) 0 8, m) /\
    map ≡ₚ identityMap 9 /\ OutCount m = 8.
Proof.
  intros x. destruct (order_permutes hebrewLine (initFlagSet 5) (initFlagSet 4) x) as (data & m & map & out & E & Hp & _ & _);
    [reflexivity..|].
  exists m, map. assert (order (sourceText (initFlagSet 5) hebrewLine) (emptyText (initFlagSet 4)) x emptyMaps =
    Ret (mkText (initFlagSet 4) (Some [65; 32; 49; 50; 32; 0x5D1; 0x29; 0x5D0; 0x200E]) 0 8,
         mkMaps 9 8 [] [0; 1; 6; 7; 5; 4; 3; 2; 8] [0; 0; 1; 1; 1; 1; 2; 2; 0] None)) as Ev by (vm_compute; reflexivity).
  rewrite Ev in E. apply Ret_inj, pair_equal_spec in E as [Et Em]. subst m. split_and!; [exact Ev|exact Hp|reflexivity].
Defined.

Lemma order_keeps_ltr_witness :
  exists m, order (sourceText (initFlagSet 5) (lit "SELECT (1+2) FROM t")) (emptyText (initFlagSet 4)) defaultOptions emptyMaps =
    Ret (mkText (initFlagSet 4) (Some (lit "SELECT (1+2) FROM t")) 0 19, m).
Proof.
  apply (order_keeps_ltr (lit "SELECT (1+2) FROM t")); try reflexivity; [by left|by left|by vm_compute|].
  apply (bool_decide_unpack (Forall leftToRight _)). by vm_compute.
Defined.

(** The position of a marker is kept in 15 bits of its key: markers inserted after
    the first 16384 characters get a negative position. *)
Example marker_position_wraps :
  pointPos (hd 0 (default [] (points (addPoint (mkLevels [] [] [] None 0 (-1) (-1) (-1) 0) 16384 before lrm)))) = -16384.
Proof. by vm_compute. Qed.

(** Combining marks are not classified: a Hebrew point counts as a letter and an
    Arabic one as an Arabic letter, though the rules have a case for them. *)
Example points_are_letters : getChType 0x05B0 = ubatR /\ getChType 0x064B = ubatAL /\ getChType 0x0300 = ubatL.
Proof. by vm_compute. Qed.
