(* ===== verification/BidiShape.v ===== *)
(** Arabic shaping (internal/bidi/shape.go, tables.go): the presentation form
    of each letter, lam-alef ligatures, the tails of the Seen family, Yeh with
    hamza, and vowel marks, in a buffer of UTF-16 units that is changed in
    place.

    Letters are taken in language order: from the beginning of the buffer for
    a right-to-left layout, from its end for a left-to-right one. *)
From stdpp Require Import base list numbers relations.
From S2P Require Import Prelude Arrays BidiFlags.
Open Scope Z_scope.

(** ** Tables *)

Definition shapeTable : list (list (list Z)) :=
  [[[0; 0; 0; 0]; [0; 0; 0; 0]; [0; 1; 0; 3]; [0; 1; 0; 1]];
   [[0; 0; 2; 2]; [0; 0; 1; 2]; [0; 1; 1; 2]; [0; 1; 1; 3]];
   [[0; 0; 0; 0]; [0; 0; 0; 0]; [0; 1; 0; 3]; [0; 1; 0; 3]];
   [[0; 0; 1; 2]; [0; 0; 1; 2]; [0; 1; 1; 2]; [0; 1; 1; 3]]].

Definition convertFEto06 : list Z :=
  [1611; 1611; 1612; 1612; 1613; 1613; 1614; 1614; 1615; 1615; 1616; 1616; 1617; 1617; 1618; 1618;
   1569; 1570; 1570; 1571; 1571; 1572; 1572; 1573; 1573; 1574; 1574; 1574; 1574; 1575; 1575; 1576;
   1576; 1576; 1576; 1577; 1577; 1578; 1578; 1578; 1578; 1579; 1579; 1579; 1579; 1580; 1580; 1580;
   1580; 1581; 1581; 1581; 1581; 1582; 1582; 1582; 1582; 1583; 1583; 1584; 1584; 1585; 1585; 1586;
   1586; 1587; 1587; 1587; 1587; 1588; 1588; 1588; 1588; 1589; 1589; 1589; 1589; 1590; 1590; 1590;
   1590; 1591; 1591; 1591; 1591; 1592; 1592; 1592; 1592; 1593; 1593; 1593; 1593; 1594; 1594; 1594;
   1594; 1601; 1601; 1601; 1601; 1602; 1602; 1602; 1602; 1603; 1603; 1603; 1603; 1604; 1604; 1604;
   1604; 1605; 1605; 1605; 1605; 1606; 1606; 1606; 1606; 1607; 1607; 1607; 1607; 1608; 1608; 1609;
   1609; 1610; 1610; 1610; 1610; 1628; 1628; 1629; 1629; 1630; 1630; 1631; 1631].

Definition convert06toFE : list Z :=
  [16; 17; 19; 21; 23; 25; 29; 31; 35; 37; 41; 45; 49; 53; 57; 59;
   61; 63; 65; 69; 73; 77; 81; 85; 89; 93; 0; 0; 0; 0; 0; 0;
   97; 101; 105; 109; 113; 117; 121; 125; 127; 129; 0; 2; 4; 6; 8; 10;
   12; 14].

Definition link06 : list Z :=
  [4385; 4897; 5377; 5921; 6403; 7457; 7939; 8961; 9475; 10499; 11523; 12547; 13571; 14593; 15105; 15617;
   16129; 16643; 17667; 18691; 19715; 20739; 21763; 22787; 23811; 0; 0; 0; 0; 0; 3; 24835;
   25859; 26883; 27923; 28931; 29955; 30979; 32001; 32513; 33027; 4; 4; 4; 4; 4; 4; 4;
   4; 0; 0; 0; 0; 0; 0; 0; 0; 0; 34049; 34561; 35073; 35585; 0; 0;
   0; 0; 0; 0; 0; 0; 0; 0; 0; 0; 0; 0; 0; 0; 4; 0;
   33; 33; 0; 33; 1; 1; 3; 3; 3; 3; 3; 3; 3; 3; 3; 3;
   3; 3; 3; 3; 3; 3; 1; 1; 1; 1; 1; 1; 1; 1; 1; 1;
   1; 1; 1; 1; 1; 1; 1; 1; 3; 3; 3; 3; 3; 3; 3; 3;
   3; 3; 3; 3; 3; 3; 3; 3; 3; 3; 3; 3; 3; 3; 3; 3;
   3; 3; 3; 3; 3; 3; 3; 3; 3; 3; 3; 3; 3; 3; 1; 3;
   1; 1; 1; 1; 1; 1; 1; 1; 1; 1; 3; 1; 3; 3; 3; 3;
   1; 1].

Definition linkFE : list Z :=
  [3; 3; 3; 0; 3; 0; 3; 3; 3; 3; 3; 3; 3; 3; 3; 3;
   0; 32; 33; 32; 33; 0; 1; 32; 33; 0; 2; 3; 1; 32; 33; 0;
   2; 3; 1; 0; 1; 0; 2; 3; 1; 0; 2; 3; 1; 0; 2; 3;
   1; 0; 2; 3; 1; 0; 2; 3; 1; 0; 1; 0; 1; 0; 1; 0;
   1; 0; 2; 3; 1; 0; 2; 3; 1; 0; 2; 3; 1; 0; 2; 3;
   1; 0; 2; 3; 1; 0; 2; 3; 1; 0; 2; 3; 1; 0; 2; 3;
   1; 0; 2; 3; 1; 0; 2; 3; 1; 0; 2; 3; 1; 16; 18; 19;
   17; 0; 2; 3; 1; 0; 2; 3; 1; 0; 2; 3; 1; 0; 1; 0;
   1; 0; 2; 3; 1; 0; 1; 0; 1; 0; 1; 0; 1].

Definition irrelevantPos : list Z := [0; 2; 4; 6; 8; 10; 12; 14].
Definition alefType : list Z := [1570; 1570; 1571; 1571; 1573; 1573; 1575; 1575].
Definition tashkeel : list Z := [65136; 65138; 65140; 65142; 65144; 65146; 65148; 65150].
Definition tashkeelTatweel : list Z := [65137; 65138; 65140; 65143; 65145; 65147; 65149; 65151].

(** ** Links *)

Definition Tail : Z := 0x200B.
Definition linkR : Z := 1.
Definition linkL : Z := 2.
Definition irrelevant : Z := 4.
Definition lamTypeBit : Z := 16.
Definition alefTypeBit : Z := 32.
Definition linkFieldBit : Z := 3.

Definition ubaGetLink (x : Z) : Z :=
  if (0x0622 <=? x) && (x <=? 0x06D3) then nth (Z.to_nat (x - 0x0622)) link06 0
  else if x =? 0x200D then 3
  else if (0x206D <=? x) && (x <=? 0x206F) then 4
  else if (0xFE70 <=? x) && (x <=? 0xFEFC) then nth (Z.to_nat (x - 0xFE70)) linkFE 0
  else 0.

Definition lamalef (x : Z) : Z :=
  if x =? 0x0622 then 0x065C else if x =? 0x0623 then 0x065D
  else if x =? 0x0625 then 0x065E else if x =? 0x0627 then 0x065F else 0.

Definition specialChar (ch : Z) : Z :=
  if ((0x0621 <=? ch) && (ch <? 0x0626)) || (ch =? 0x0627) || ((0x062e <? ch) && (ch <? 0x0633))
     || ((0x0647 <? ch) && (ch <? 0x064a)) || (ch =? 0x0629)
  then 1 else 0.

Definition seenChar (ch : Z) : bool :=
  bool_decide (ch ∈ [0xFEB1; 0xFEB2; 0xFEB5; 0xFEB6; 0xFEB9; 0xFEBA; 0xFEBD; 0xFEBE]).

(** A bit of a link. *)
Definition hasBit (l bit : Z) : bool := 0 <? Z.land l bit.
Definition linkBits (l : Z) : Z := Z.land l (linkR + linkL).
(** The letters with several presentation forms. *)
Definition hasForms (l : Z) : bool := 0 <? Z.land l 0xFF00.

(** ** The shaping routine *)

Record shapeState := mkShapeState {
  str : list Z;
  ix : Z;
  nx : Z;
  currLink : Z;
  nextLink : Z;
  prevLink : Z;
  lastLink : Z;
  lastPos : Z;
}.

(** The search for the next letter that matters to linking; the fuel is the
    number of units. *)
Fixpoint seekNext (fuel : nat) (buffer : list Z) (nw iEnd step : Z) : outcome (Z * Z) :=
  match fuel with
  | O => Panic
  | S fuel' =>
      if nw =? iEnd then Ret (0, 30000)
      else
        x ← at_ buffer nw;
        let l := ubaGetLink x in
        if negb (hasBit l irrelevant) then Ret (l, nw) else seekNext fuel' buffer (nw + step) iEnd step
  end.

(** [for t := lo; t < hi; t++ { buffer[t] = buffer[t+1] }] and its mirror image. *)
Definition shiftLeft (lo hi : Z) (buffer : list Z) : outcome (list Z) :=
  forRange lo hi (fun t b => x ← at_ b (t + 1); put b t x) buffer.
Definition shiftRight (hi lo : Z) (buffer : list Z) : outcome (list Z) :=
  forDown hi lo (fun t b => x ← at_ b (t - 1); put b t x) buffer.

(** The form of a letter in its word. *)
Definition joiningShape (next last curr : Z) : outcome Z :=
  rows ← at_ shapeTable (linkBits next); row ← at_ rows (linkBits last); at_ row (linkBits curr).

Definition chooseShape (outTextShape : BidiFlag) (ch next last curr : Z) : outcome Z :=
  let flag := specialChar ch in
  if bool_decide (outTextShape = textInitial) then Ret (if flag =? 0 then 2 else 0)
  else if bool_decide (outTextShape = textMiddle) then Ret (if flag =? 0 then 3 else 1)
  else if bool_decide (outTextShape = textFinal) then Ret (if flag =? 0 then 1 else 1)
  else if bool_decide (outTextShape = textIsolated) then Ret 0
  else joiningShape next last curr.

(** An alef after a lam: the ligature takes the place of the lam, and the alef
    goes away for a space at the end of the text (in language order). *)
Definition joinLamAlef (rtl : bool) (s : shapeState) : outcome shapeState :=
  x ← at_ (str s) (ix s);
  let wLamalef := lamalef x in
  '(buffer, i) ←
    (if negb (wLamalef =? 0) then
       b ← put (str s) (lastPos s) wLamalef;
       if rtl then
         b ← shiftLeft (ix s) (len b - 1) b; b ← put b (len b - 1) 0x0020; Ret (b, lastPos s)
       else
         b ← shiftRight (ix s) 0 b; b ← put b 0 0x0020; Ret (b, lastPos s)
     else Ret (str s, ix s));
  Ret (mkShapeState buffer i (-2) (ubaGetLink wLamalef) (nextLink s) (prevLink s) (prevLink s) (lastPos s)).

Definition shapeLetter (outTextShape : BidiFlag) (rtl : bool) (iEnd step : Z) (s : shapeState) : outcome shapeState :=
  if hasForms (currLink s) then
    '(next, n) ← (if nx s <? 0 then seekNext (S (length (str s))) (str s) (ix s + step) iEnd step
                  else Ret (nextLink s, nx s));
    let s := mkShapeState (str s) (ix s) n (currLink s) next (prevLink s) (lastLink s) (lastPos s) in
    s ← (if hasBit (currLink s) alefTypeBit && hasBit (lastLink s) lamTypeBit then joinLamAlef rtl s else Ret s);
    ch ← at_ (str s) (ix s);
    shape ← chooseShape outTextShape ch (nextLink s) (lastLink s) (currLink s);
    b ← put (str s) (ix s) (u16 (0xFE70 + Z.shiftr (currLink s) 8 + shape));
    Ret (mkShapeState b (ix s) (nx s) (currLink s) (nextLink s) (prevLink s) (lastLink s) (lastPos s))
  else Ret s.

(** A letter that matters becomes the last one. *)
Definition noteLast (s : shapeState) : shapeState :=
  if negb (hasBit (currLink s) irrelevant)
  then mkShapeState (str s) (ix s) (nx s) (currLink s) (nextLink s) (lastLink s) (currLink s) (ix s)
  else s.

Definition shapeMark (s : shapeState) : outcome shapeState :=
  if hasBit (currLink s) irrelevant then
    x ← at_ (str s) (ix s);
    let charidx := x - 0x064B in
    if (0 <=? charidx) && (charidx <? len irrelevantPos) then
      let next := linkBits (nextLink s) in
      let last := linkBits (lastLink s) in
      let myShape := if ((last =? 3) && (next =? 1)) || ((last =? 3) && (next =? 3)) then 1 else 0 in
      let myShape := if hasBit (nextLink s) alefTypeBit && hasBit (lastLink s) lamTypeBit then 0 else myShape in
      let myShape := if (x =? 0x064C) || (x =? 0x064D) then 0 else myShape in
      pos ← at_ irrelevantPos charidx;
      b ← put (str s) (ix s) (u16 (0xFE70 + pos + myShape));
      Ret (mkShapeState b (ix s) (nx s) (currLink s) (nextLink s) (prevLink s) (lastLink s) (lastPos s))
    else Ret s
  else Ret s.

Definition moveOn (iEnd step : Z) (s : shapeState) : outcome shapeState :=
  let i := ix s + step in
  if i =? nx s then Ret (mkShapeState (str s) i (-2) (nextLink s) (nextLink s) (prevLink s) (lastLink s) (lastPos s))
  else if negb (i =? iEnd) then
    x ← at_ (str s) i;
    Ret (mkShapeState (str s) i (nx s) (ubaGetLink x) (nextLink s) (prevLink s) (lastLink s) (lastPos s))
  else Ret (mkShapeState (str s) i (nx s) (currLink s) (nextLink s) (prevLink s) (lastLink s) (lastPos s)).

Definition shapeTurn (outTextShape : BidiFlag) (rtl : bool) (iEnd step : Z) (s : shapeState) : outcome shapeState :=
  s ← shapeLetter outTextShape rtl iEnd step s;
  s ← shapeMark (noteLast s);
  moveOn iEnd step s.

(** The loop goes back to the lam of a ligature, once for each alef of the
    text, so the square of the length bounds its turns. *)
Fixpoint shapeLoop (fuel : nat) (outTextShape : BidiFlag) (rtl : bool) (iEnd step : Z) (s : shapeState) : outcome shapeState :=
  match fuel with
  | O => Panic
  | S fuel' =>
      if ix s =? iEnd then Ret s
      else s ← shapeTurn outTextShape rtl iEnd step s; shapeLoop fuel' outTextShape rtl iEnd step s
  end.
Definition shapeFuel (buffer : list Z) : nat := (S (length buffer) * S (length buffer))%nat.

Definition nominalForms (buffer : list Z) : outcome (list Z) :=
  forRange 0 (len buffer) (fun idx b =>
    x ← at_ b idx;
    if (0xFE70 <=? x) && (x <=? 0xFEF4) then v ← at_ convertFEto06 (x - 0xFE70); put b idx (u16 v) else Ret b) buffer.

Definition shapingRoutine (inAttr outAttr : BidiFlagSet) (buffer : list Z) (rtl : bool) : outcome (list Z) :=
  if len buffer =? 0 then Ret buffer
  else if bool_decide (GetType inAttr = typeVisual) && bool_decide (GetType outAttr = typeImplicit) then nominalForms buffer
  else if bool_decide (GetType outAttr = typeVisual) then
    let i := if rtl then 0 else len buffer - 1 in
    let iEnd := if rtl then len buffer else -1 in
    let step := if rtl then 1 else -1 in
    x ← at_ buffer i;
    s ← shapeLoop (shapeFuel buffer) (GetText outAttr) rtl iEnd step (mkShapeState buffer i (-2) (ubaGetLink x) 0 0 0 i);
    Ret (str s)
  else Ret buffer.

(** ** Lam-alef ligatures *)

Definition isLamAlef (x : Z) : bool := (0xFEF5 <=? x) && (x <=? 0xFEFC).
Definition alefOf (x : Z) : outcome Z := at_ alefType (x - 0xFEF5).

Definition countLamAlef (buffer : list Z) (length : Z) : outcome Z :=
  forRange 0 length (fun i n => x ← at_ buffer i; Ret (if isLamAlef x then n + 1 else n)) 0.

Definition handleLamAlefWithResizeBuffer (buffer : list Z) (length : Z) (rtl : bool) : outcome (list Z) :=
  count ← countLamAlef buffer length;
  if count =? 0 then Ret buffer
  else
    compressed ← makeSlice (length - count) 0;
    part ← (if rtl then cut buffer 0 (len buffer - count) else cut buffer count (len buffer));
    blit compressed 0 (length - count) part.

Definition deshapeLamAlefWithResizeBuffer (buffer : list Z) (length : Z) : outcome (list Z) :=
  count ← countLamAlef buffer length;
  if count =? 0 then Ret buffer
  else
    expanded ← makeSlice (length + count) 0;
    '(expanded, _) ← forRange 0 length (fun oldCounter '(expanded, newCounter) =>
      x ← at_ buffer oldCounter;
      if isLamAlef x then
        chAlefType ← alefOf x;
        expanded ← put expanded newCounter 0x0644;
        expanded ← put expanded (newCounter + 1) chAlefType;
        Ret (expanded, newCounter + 2)
      else
        expanded ← put expanded newCounter x;
        Ret (expanded, newCounter + 1)) (expanded, 0);
    Ret expanded.

Definition handleLamAlefNear (buffer : list Z) (length : Z) (rtl : bool) : outcome (list Z) :=
  forRange 0 length (fun count b =>
    x ← at_ b count; final ← at_ b (length - 1); first ← at_ b 0;
    if isLamAlef x && (final =? 0x0020) && rtl then
      b ← shiftRight (length - 1) (count + 1) b;
      if count <? length - 1 then put b (count + 1) 0x0020 else Ret b
    else if isLamAlef x && (first =? 0x0020) && negb rtl then
      b ← shiftLeft 0 (count - 1) b;
      if negb (count =? 0) then put b (count - 1) 0x0020 else Ret b
    else Ret b) buffer.

Definition deshapeLamAlefNear (buffer : list Z) (length : Z) : outcome (list Z) :=
  forRange 1 length (fun count b =>
    x ← at_ b count;
    space ← (if isLamAlef x && negb (count =? length - 1) then y ← at_ b (count + 1); Ret (y =? 0x0020) else Ret false);
    if space : bool then chAlefType ← alefOf x; b ← put b (count + 1) chAlefType; put b count 0x0644 else Ret b) buffer.

(** The ligature moves with the shift, so the loop goes past it. *)
Fixpoint lamAlefsAtBegin (fuel : nat) (length count occurences : Z) (b : list Z) : outcome (list Z) :=
  match fuel with
  | O => Panic
  | S fuel' =>
      if count <? length then
        x ← at_ b count; final ← at_ b (length - 1);
        if isLamAlef x && (final =? 0x0020) then
          b ← shiftRight (length - 1) occurences b;
          b ← put b occurences 0x0020;
          lamAlefsAtBegin fuel' length (count + 2) (occurences + 1) b
        else lamAlefsAtBegin fuel' length (count + 1) occurences b
      else Ret b
  end.
Definition handleLamAlefAtBegin (buffer : list Z) (length : Z) : outcome (list Z) :=
  lamAlefsAtBegin (S (Z.to_nat length)) length 0 0 buffer.

Definition deshapeLamAlefAtBegin (buffer : list Z) (length : Z) : outcome (list Z) :=
  forRange 0 length (fun count b =>
    x ← at_ b count; first ← at_ b 0;
    if isLamAlef x && (first =? 0x0020) then
      chAlefType ← alefOf x;
      b ← shiftLeft 0 (count - 1) b;
      b ← put b (count - 1) 0x0644;
      put b count chAlefType
    else Ret b) buffer.

Definition handleLamAlefAtEnd (buffer : list Z) (length : Z) : outcome (list Z) :=
  '(b, _) ← forRange 0 length (fun count '(b, occurences) =>
    x ← at_ b count; first ← at_ b 0;
    if isLamAlef x && (first =? 0x0020) then
      b ← shiftLeft 0 (length - occurences - 1) b;
      b ← put b (length - occurences - 1) 0x0020;
      Ret (b, occurences + 1)
    else Ret (b, occurences)) (buffer, 0);
  Ret b.

Definition deshapeLamAlefAtEnd (buffer : list Z) (length : Z) : outcome (list Z) :=
  forRange 0 length (fun count b =>
    x ← at_ b count; final ← at_ b (length - 1);
    if isLamAlef x && (final =? 0x0020) then
      chAlefType ← alefOf x;
      b ← shiftRight (length - 1) (count + 1) b;
      b ← put b count 0x0644;
      put b (count + 1) chAlefType
    else Ret b) buffer.

Definition deshapeLamAlefAuto (buffer : list Z) (length : Z) (rtl : bool) : outcome (list Z) :=
  forRange 0 length (fun count b =>
    x ← at_ b count; final ← at_ b (length - 1); first ← at_ b 0;
    if isLamAlef x && (final =? 0x0020) && rtl then
      chAlefType ← alefOf x;
      b ← shiftRight (length - 1) count b;
      b ← put b (count + 1) chAlefType;
      put b count 0x0644
    else if isLamAlef x && (first =? 0x0020) && negb rtl then
      chAlefType ← alefOf x;
      b ← shiftLeft 0 count b;
      b ← put b count chAlefType;
      put b (count - 1) 0x0644
    else Ret b) buffer.

(** ** Seen, Yeh with hamza, vowel marks *)

(** A unit becomes another where the neighbour [i] exists and is a space. *)
Definition fillSpace (length i : Z) (b : list Z) (v : Z) : outcome (list Z) :=
  if (0 <=? i) && (i <? length) then y ← at_ b i; if y =? 0x0020 then put b i v else Ret b else Ret b.

Definition shapeSeenNear (buffer : list Z) (length : Z) (rtl : bool) : outcome (list Z) :=
  forRange 0 length (fun idx b =>
    x ← at_ b idx;
    if seenChar x then fillSpace length (if rtl then idx + 1 else idx - 1) b Tail else Ret b) buffer.

Definition deshapeSeenNear (buffer : list Z) (length : Z) : outcome (list Z) :=
  forRange 0 length (fun idx b => x ← at_ b idx; if x =? Tail then put b idx 0x0020 else Ret b) buffer.

Definition splitYehHamza (form yeh length counter neighbour : Z) (b : list Z) : outcome (list Z) :=
  x ← at_ b counter;
  if x =? form then b ← put b counter yeh; fillSpace length neighbour b 0xfe80 else Ret b.

Definition shapeYehHamzaTwoCellNear (buffer : list Z) (length : Z) (rtl : bool) : outcome (list Z) :=
  forRange 0 length (fun counter b =>
    let neighbour := if rtl then counter + 1 else counter - 1 in
    b ← splitYehHamza 0xfe8a 0xfef0 length counter neighbour b;
    splitYehHamza 0xfe89 0xfeef length counter neighbour b) buffer.

Definition mergeYehHamza (yeh form length counter : Z) (b : list Z) : outcome (list Z) :=
  if counter + 1 <? length then
    x ← at_ b counter; y ← at_ b (counter + 1);
    if (x =? yeh) && (y =? 0xfe80) then b ← put b counter form; put b (counter + 1) 0x0020 else Ret b
  else Ret b.

Definition deshapeYehHamzaTwoCellNear (buffer : list Z) (length : Z) : outcome (list Z) :=
  forRange 0 length (fun counter b =>
    b ← mergeYehHamza 0xfef0 0xfe8a length counter b;
    mergeYehHamza 0xfeef 0xfe89 length counter b) buffer.

Definition isTashkeelForm (c : Z) : bool :=
  ((0xFE70 <=? c) && (c <=? 0xFE72)) || (c =? 0xFE74) || ((0xFE76 <=? c) && (c <=? 0xFE7B))
  || ((0xFE7E <=? c) && (c <=? 0xFE7F)).

Definition customizeTashkeelAtBegin (buffer : list Z) (length : Z) : outcome (list Z) :=
  '(b, _) ← forRange 0 length (fun count '(b, occurences) =>
    x ← at_ b count;
    if isTashkeelForm x then
      b ← shiftRight count occurences b; b ← put b occurences 0x0020; Ret (b, occurences + 1)
    else Ret (b, occurences)) (buffer, 0);
  Ret b.

Definition customizeTashkeelAtEnd (buffer : list Z) (length : Z) : outcome (list Z) :=
  '(b, _) ← forRange 0 length (fun count '(b, occurences) =>
    x ← at_ b count;
    if isTashkeelForm x then
      b ← shiftLeft count (length - occurences - 1) b;
      b ← put b (length - occurences - 1) 0x0020; Ret (b, occurences + 1)
    else Ret (b, occurences)) (buffer, 0);
  Ret b.

(** ** Shaping a buffer *)

Definition isMode (mode : ArabicOption) (modes : list ArabicOption) : bool := bool_decide (mode ∈ modes).

Definition customizeTashkeel (mode : ArabicOption) (b : list Z) (bufLen : Z) : outcome (list Z) :=
  if isMode mode [TashkeelKeep; TashkeelAuto] then Ret b
  else if isMode mode [TashkeelCustomizedAtBegin] then customizeTashkeelAtBegin b bufLen
  else if isMode mode [TashkeelCustomizedAtEnd] then customizeTashkeelAtEnd b bufLen
  else Ret b.

Definition deshapeLamAlef (mode : ArabicOption) (rtl : bool) (b : list Z) (bufLen : Z) : outcome (list Z) :=
  if isMode mode [LamAlefResizeBuffer] then deshapeLamAlefWithResizeBuffer b bufLen
  else if isMode mode [LamAlefNear] then deshapeLamAlefNear b bufLen
  else if isMode mode [LamAlefAtBegin] then deshapeLamAlefAtBegin b bufLen
  else if isMode mode [LamAlefAtEnd] then deshapeLamAlefAtEnd b bufLen
  else if isMode mode [LamAlefAuto] then deshapeLamAlefAuto b bufLen rtl
  else Ret b.

Definition handleLamAlef (mode : ArabicOption) (rtl : bool) (b : list Z) (bufLen : Z) : outcome (list Z) :=
  if isMode mode [LamAlefResizeBuffer] then handleLamAlefWithResizeBuffer b bufLen rtl
  else if isMode mode [LamAlefNear] then handleLamAlefNear b bufLen rtl
  else if isMode mode [LamAlefAtBegin] then (if rtl then handleLamAlefAtBegin b bufLen else Ret b)
  else if isMode mode [LamAlefAtEnd] then (if rtl then Ret b else handleLamAlefAtEnd b bufLen)
  else Ret b.

Definition Shape (inAttr outAttr : BidiFlagSet) (buffer : list Z) (optionSet : option ArabicOptionSet) : outcome (list Z) :=
  let bufLen := len buffer in
  if bufLen =? 0 then Ret buffer
  else
    let opts := default NewArabicOptionSet optionSet in
    let rtl := bool_decide (GetOrientation outAttr = orientationRTL) in
    let seenNear := isMode (GetSeenMode opts) [SeenNear; SeenAuto] in
    let yehHamzaNear := isMode (GetYehHamzaMode opts) [YehHamzaTwoCellNear; YehHamzaAuto] in
    if bool_decide (GetType inAttr = typeVisual) && bool_decide (GetType outAttr = typeImplicit) then
      b ← (if seenNear then deshapeSeenNear buffer bufLen else Ret buffer);
      b ← (if yehHamzaNear then deshapeYehHamzaTwoCellNear b bufLen else Ret b);
      b ← customizeTashkeel (GetTashkeelMode opts) b bufLen;
      b ← deshapeLamAlef (GetLamAlefMode opts) rtl b bufLen;
      shapingRoutine inAttr outAttr b rtl
    else if bool_decide (GetType outAttr = typeVisual) then
      b ← shapingRoutine inAttr outAttr buffer rtl;
      b ← (if seenNear then shapeSeenNear b bufLen rtl else Ret b);
      b ← (if yehHamzaNear then shapeYehHamzaTwoCellNear b bufLen rtl else Ret b);
      b ← customizeTashkeel (GetTashkeelMode opts) b bufLen;
      handleLamAlef (GetLamAlefMode opts) rtl b bufLen
    else Ret buffer.

(** * Lemmas *)

(** ** Shifts *)

Lemma shiftLeft_ok lo hi b : 0 <= lo -> hi < len b ->
  yields (shiftLeft lo hi b) (fun b' => len b' = len b /\
    forall j : nat, b' !! j = if bool_decide (lo <= Z.of_nat j < hi) then b !! S j else b !! j).
Proof.
  intros Hlo Hhi. unfold shiftLeft. destruct (decide (lo <= hi)) as [Hle|Hlt].
  2:{ apply yields_for_empty; [lia|]. split; [done|]. intros j. by rewrite bool_decide_eq_false_2 by lia. }
  eapply yields_for with (I := fun i b' => len b' = len b /\
    forall j : nat, b' !! j = if bool_decide (lo <= Z.of_nat j < i) then b !! S j else b !! j).
  - done.
  - split; [done|]. intros j. by rewrite bool_decide_eq_false_2 by lia.
  - intros i b' Hi [Hlen Hb']. yield_step. apply yields_at; [lia|]. intros x Hx.
    apply yields_put; [lia|]. rewrite len_insert. split; [done|]. intros j.
    rewrite Hb', bool_decide_eq_false_2 in Hx by lia.
    destruct (decide (j = Z.to_nat i)) as [->|Hj].
    + rewrite list_lookup_insert_eq by (unfold len in *; lia). rewrite bool_decide_eq_true_2 by lia.
      by replace (S (Z.to_nat i)) with (Z.to_nat (i + 1)) by lia.
    + rewrite list_lookup_insert_ne by done. rewrite Hb'. repeat case_bool_decide; done || lia.
  - done.
Qed.

Lemma shiftRight_ok hi lo b : 0 <= lo -> hi < len b ->
  yields (shiftRight hi lo b) (fun b' => len b' = len b /\
    forall j : nat, b' !! j = if bool_decide (lo < Z.of_nat j <= hi) then b !! Nat.pred j else b !! j).
Proof.
  intros Hlo Hhi. unfold shiftRight. destruct (decide (lo <= hi)) as [Hle|Hlt].
  2:{ apply yields_down_empty; [lia|]. split; [done|]. intros j. by rewrite bool_decide_eq_false_2 by lia. }
  eapply yields_down with (I := fun i b' => len b' = len b /\
    forall j : nat, b' !! j = if bool_decide (i < Z.of_nat j <= hi) then b !! Nat.pred j else b !! j).
  - done.
  - split; [done|]. intros j. by rewrite bool_decide_eq_false_2 by lia.
  - intros i b' Hi [Hlen Hb']. yield_step. apply yields_at; [lia|]. intros x Hx.
    apply yields_put; [lia|]. rewrite len_insert. split; [done|]. intros j.
    rewrite Hb', bool_decide_eq_false_2 in Hx by lia.
    destruct (decide (j = Z.to_nat i)) as [->|Hj].
    + rewrite list_lookup_insert_eq by (unfold len in *; lia). rewrite bool_decide_eq_true_2 by lia.
      by replace (Nat.pred (Z.to_nat i)) with (Z.to_nat (i - 1)) by lia.
    + rewrite list_lookup_insert_ne by done. rewrite Hb'. repeat case_bool_decide; done || lia.
  - done.
Qed.

(** A unit is taken out, and a space fills the end or the beginning. *)
Lemma delete_shiftLeft i b : 0 <= i < len b ->
  yields (b' ← shiftLeft i (len b - 1) b; put b' (len b' - 1) 0x0020) (fun b' => b' = delete (Z.to_nat i) b ++ [0x0020]).
Proof.
  intros Hi. apply yields_bind. eapply yields_weaken; [apply shiftLeft_ok; lia|]. intros b' [Hlen Hb'].
  apply yields_put; [lia|]. rewrite Hlen. assert (length b' = length b) as Hl by (unfold len in *; lia).
  apply list_eq. intros j. unfold len in *.
  assert (length (delete (Z.to_nat i) b) = length b - 1)%nat as Hd by (apply length_delete, lookup_lt_is_Some_2; lia).
  destruct (decide (j = Z.to_nat (Z.of_nat (length b) - 1))) as [->|Hj].
  - rewrite list_lookup_insert_eq, lookup_app_r by lia. rewrite Hd. by replace (_ - _)%nat with O by lia.
  - rewrite list_lookup_insert_ne by done. rewrite Hb'.
    destruct (decide (j < length b - 1)%nat) as [Hlt|Hge].
    + rewrite lookup_app_l by lia. case_bool_decide.
      * by rewrite list_lookup_delete_ge by lia.
      * by rewrite list_lookup_delete_lt by lia.
    + rewrite bool_decide_eq_false_2 by lia. rewrite !lookup_ge_None_2; [done| |lia].
      rewrite length_app. cbn. lia.
Qed.

Lemma delete_shiftRight i b : 0 <= i < len b ->
  yields (b' ← shiftRight i 0 b; put b' 0 0x0020) (fun b' => b' = 0x0020 :: delete (Z.to_nat i) b).
Proof.
  intros Hi. apply yields_bind. eapply yields_weaken; [apply shiftRight_ok; lia|]. intros b' [Hlen Hb'].
  apply yields_put; [lia|]. assert (length b' = length b) as Hl by (unfold len in *; lia).
  apply list_eq. intros [|j]; unfold len in *.
  - by rewrite list_lookup_insert_eq by lia.
  - rewrite list_lookup_insert_ne by lia. rewrite Hb'. change ((0x0020 :: delete (Z.to_nat i) b) !! S j) with (delete (Z.to_nat i) b !! j).
    case_bool_decide; cbn [Nat.pred].
    + by rewrite list_lookup_delete_lt by lia.
    + by rewrite list_lookup_delete_ge by lia.
Qed.

(** ** Links *)

Definition isLink (l : Z) : Prop := 0 <= l <= 35585.

Lemma isLink_table table : forallb (fun l => (0 <=? l) && (l <=? 35585)) table = true -> forall i, isLink (nth i table 0).
Proof.
  intros H i. destruct (nth_in_or_default i table 0) as [Hin| ->]; [|unfold isLink; lia].
  rewrite forallb_forall in H. apply H in Hin. unfold isLink. lia.
Qed.

Lemma ubaGetLink_isLink x : isLink (ubaGetLink x).
Proof.
  unfold ubaGetLink. repeat case_match; try (unfold isLink; lia); apply isLink_table; by vm_compute.
Qed.

Lemma shiftr_isLink l : isLink l -> 0 <= Z.shiftr l 8 <= 139.
Proof. intros [H1 H2]. rewrite Z.shiftr_div_pow2 by lia. change (2 ^ 8) with 256. Z.to_euclidean_division_equations; lia. Qed.

Lemma linkBits_range l : 0 <= linkBits l <= 3.
Proof. unfold linkBits. change (linkR + linkL) with (Z.ones 2). rewrite Z.land_ones by lia. pose proof (Z.mod_pos_bound l (2 ^ 2)). lia. Qed.

Lemma chooseShape_range outTextShape ch next last curr :
  yields (chooseShape outTextShape ch next last curr) (fun shape => 0 <= shape <= 3).
Proof.
  unfold chooseShape. repeat (apply yields_if; intros ?); try (apply yields_Ret; repeat case_match; lia).
  unfold joiningShape. pose proof (linkBits_range next). pose proof (linkBits_range last). pose proof (linkBits_range curr).
  assert (Forall (fun rows => len rows = 4 /\ Forall (fun row => len row = 4 /\ Forall (fun s => 0 <= s <= 3) row) rows) shapeTable)
    as Hall by (apply (bool_decide_unpack _); by vm_compute).
  apply yields_bind, yields_at; [change (len shapeTable) with 4; lia|]. intros rows Hrows.
  destruct (Forall_lookup_1 _ _ _ _ Hall Hrows) as [Hlen Hall'].
  apply yields_bind, yields_at; [lia|]. intros row Hrow. destruct (Forall_lookup_1 _ _ _ _ Hall' Hrow) as [Hlen' Hall''].
  apply yields_at; [lia|]. intros s Hs. apply (Forall_lookup_1 _ _ _ _ Hall'' Hs).
Qed.

(** ** The routine returns *)

(** The alefs that may still join a lam. *)
Definition alefs (b : list Z) : nat := length (base.filter (fun u => lamalef u <> 0) b).
Arguments alefs b : simpl never.

Lemma alefs_app b c : alefs (b ++ c) = (alefs b + alefs c)%nat.
Proof. unfold alefs. by rewrite list_basics.list.filter_app, length_app. Qed.

Lemma alefs_cons u b : alefs (u :: b) = ((if decide (lamalef u <> 0%Z) then 1 else 0) + alefs b)%nat.
Proof. unfold alefs. rewrite list_basics.list.filter_cons. by destruct (decide _). Qed.

Lemma alefs_insert i v b : lamalef v = 0 -> (alefs (<[i := v]> b) <= alefs b)%nat.
Proof.
  intros Hv. destruct (decide (i < length b)%nat) as [Hi|Hi]; [|by rewrite list_insert_ge by lia].
  destruct (lookup_lt_is_Some_2 b i Hi) as [x Hx]. rewrite insert_take_drop by done.
  rewrite <- (take_drop_middle b i x Hx) at 3. rewrite !alefs_app, !alefs_cons, decide_False by congruence. lia.
Qed.

Lemma alefs_delete i x b : b !! i = Some x -> lamalef x <> 0 -> alefs b = S (alefs (delete i b)).
Proof.
  intros Hx Ha. rewrite <- (take_drop_middle b i x Hx) at 1. rewrite delete_take_drop, !alefs_app, alefs_cons, decide_True by done. lia.
Qed.

Lemma alefs_delete_le i b : (alefs (delete i b) <= alefs b)%nat.
Proof.
  rewrite delete_take_drop. rewrite <- (take_drop i b) at 3. rewrite !alefs_app.
  destruct (drop i b) as [|x r] eqn:E.
  - replace (drop (S i) b) with (@nil Z); [lia|]. symmetry. apply (f_equal length) in E. rewrite length_drop in E.
    cbn in E. apply drop_ge. lia.
  - replace (drop (S i) b) with r; [rewrite alefs_cons; lia|].
    rewrite <- (Nat.add_1_r i), <- drop_drop, E. done.
Qed.

Lemma alefs_join i p x w b : b !! i = Some x -> lamalef x <> 0 -> lamalef w = 0 ->
  (alefs (delete i (<[p := w]> b)) < alefs b)%nat.
Proof.
  intros Hx Ha Hw. destruct (decide (p = i)) as [->|Hp].
  - pose proof (alefs_delete i x b Hx Ha) as E. rewrite delete_take_drop, take_insert_ge, drop_insert_lt, <- delete_take_drop by lia. lia.
  - pose proof (alefs_delete i x (<[p := w]> b)) as E. rewrite list_lookup_insert_ne in E by done.
    pose proof (alefs_insert p w b Hw). specialize (E Hx Ha). lia.
Qed.

Lemma lamalef_values x : lamalef x = 0 \/ (0x065C <= lamalef x <= 0x065F).
Proof. unfold lamalef. repeat case_match; lia. Qed.

Lemma lamalef_none x : x < 0x0622 \/ 0x0627 < x -> lamalef x = 0.
Proof. intros H. unfold lamalef. repeat case_match; lia. Qed.

(** A position counted in language order. *)
Definition inOrder (rtl : bool) (n i : Z) : Z := if rtl then i else n - 1 - i.

Section Routine.
Context (outTextShape : BidiFlag) (rtl : bool) (n : Z).
Let iEnd : Z := if rtl then n else -1.
Let step : Z := if rtl then 1 else -1.

(** What holds of the state between turns, whatever the text. *)
Record shapeInv (s : shapeState) : Prop := {
  inv_len : len (str s) = n;
  inv_curr : isLink (currLink s);
  inv_next : isLink (nextLink s);
  inv_last : 0 <= inOrder rtl n (lastPos s) <= inOrder rtl n (ix s);
  inv_lastPos : 0 <= lastPos s < n;
}.

Lemma seekNext_ok fuel buffer nw : len buffer = n -> 0 <= inOrder rtl n nw <= n ->
  n - inOrder rtl n nw < Z.of_nat fuel -> yields (seekNext fuel buffer nw iEnd step) (fun p => isLink p.1).
Proof.
  intros Hlen. revert nw. induction fuel as [|fuel IH]; intros nw Hnw Hfuel; [lia|]. cbn [seekNext].
  apply yields_if; intros E; [apply yields_Ret; unfold isLink; cbn; lia|].
  apply yields_bind, yields_at; [unfold inOrder, iEnd in *; destruct rtl; lia|]. intros x _.
  apply yields_if; intros _; [apply yields_Ret, ubaGetLink_isLink|].
  apply IH; unfold inOrder, iEnd, step in *; destruct rtl; lia.
Qed.

(** A ligature takes an alef out of the text. *)
Lemma joinLamAlef_ok s : shapeInv s -> 0 <= ix s < n ->
  yields (joinLamAlef rtl s) (fun s' => shapeInv s' /\ 0 <= ix s' < n /\
    ((alefs (str s') < alefs (str s))%nat \/ (str s' = str s /\ ix s' = ix s))).
Proof.
  intros [Hlen Hcurr Hnext Hlast Hpos] Hix. unfold joinLamAlef.
  apply yields_bind, yields_at; [lia|]. intros x Hx. cbn zeta. apply yields_bind.
  destruct (lamalef_values x) as [E|E].
  - rewrite E. cbn [Z.eqb negb]. apply yields_Ret. cbn beta iota. apply yields_Ret.
    split; [by split; cbn; auto using ubaGetLink_isLink|]. cbn. auto.
  - rewrite (proj2 (Z.eqb_neq _ _)) by lia. cbn [negb]. set (w := lamalef x) in *.
    assert (forall b, alefs b = alefs (delete (Z.to_nat (ix s)) (<[Z.to_nat (lastPos s) := w]> (str s))) -> len b = n ->
      yields (Ret (mkShapeState b (lastPos s) (-2) (ubaGetLink w) (nextLink s) (prevLink s) (prevLink s) (lastPos s)))
        (fun s' => shapeInv s' /\ 0 <= ix s' < n /\
          ((alefs (str s') < alefs (str s))%nat \/ (str s' = str s /\ ix s' = ix s)))) as Hdone.
    { intros b Ha Hb. apply yields_Ret. cbn. split; [split; cbn; auto using ubaGetLink_isLink; lia|].
      split; [lia|]. left. rewrite Ha. apply (alefs_join _ _ x); [done| |]; [subst w; lia|apply lamalef_none; lia]. }
    apply yields_bind, yields_put; [lia|]. set (b := <[_ := _]> (str s)) in *.
    assert (len b = n) as Hb by (subst b; by rewrite len_insert).
    assert (len (delete (Z.to_nat (ix s)) b) = n - 1) as Hd.
    { unfold len in *. rewrite length_delete by (apply lookup_lt_is_Some_2; lia). lia. }
    destruct rtl.
    + apply yields_bind. pose proof (delete_shiftLeft (ix s) b) as Hs. destruct Hs as (b1 & E1 & ->); [lia|].
      destruct (shiftLeft (ix s) (len b - 1) b) as [b2| |] eqn:E2; [|done..]. cbn in E1. apply yields_Ret.
      cbn. rewrite E1. cbn. apply yields_Ret, Hdone; [rewrite alefs_app; change (alefs [32]) with O; lia|rewrite len_app; change (len [32]) with 1; lia].
    + apply yields_bind. pose proof (delete_shiftRight (ix s) b) as Hs. destruct Hs as (b1 & E1 & ->); [lia|].
      destruct (shiftRight (ix s) 0 b) as [b2| |] eqn:E2; [|done..]. cbn in E1. apply yields_Ret.
      cbn. rewrite E1. cbn. apply yields_Ret, Hdone; [by rewrite alefs_cons|rewrite len_cons; lia].
Qed.

Lemma form_not_alef l shape : isLink l -> 0 <= shape <= 3 ->
  u16 (0xFE70 + Z.shiftr l 8 + shape) = 0xFE70 + Z.shiftr l 8 + shape /\ lamalef (u16 (0xFE70 + Z.shiftr l 8 + shape)) = 0.
Proof.
  intros Hl Hs. pose proof (shiftr_isLink l Hl). unfold u16. rewrite Z.mod_small by lia. split; [done|]. apply lamalef_none. lia.
Qed.

Lemma shapeLetter_ok s : shapeInv s -> 0 <= ix s < n ->
  yields (shapeLetter outTextShape rtl iEnd step s) (fun s' => shapeInv s' /\ 0 <= ix s' < n /\
    ((alefs (str s') < alefs (str s))%nat \/ ((alefs (str s') <= alefs (str s))%nat /\ ix s' = ix s))).
Proof.
  intros Hinv Hix. unfold shapeLetter. apply yields_if; intros _; [|apply yields_Ret; auto].
  apply yields_bind, (yields_weaken _ (fun p => isLink p.1)).
  { apply yields_if; intros _; [|apply yields_Ret, (inv_next _ Hinv)].
    pose proof (inv_len _ Hinv). apply seekNext_ok; [done|unfold inOrder, step; destruct rtl; lia|].
    unfold inOrder, step, len in *; destruct rtl; lia. }
  intros [next nx'] Hnext. cbn [fst] in Hnext. cbn zeta. cbn beta iota.
  set (s0 := mkShapeState (str s) _ _ _ _ _ _ _).
  assert (shapeInv s0) as H0 by (destruct Hinv; split; done).
  apply yields_bind, (yields_weaken _ (fun s' => shapeInv s' /\ 0 <= ix s' < n /\
    ((alefs (str s') < alefs (str s))%nat \/ (str s' = str s /\ ix s' = ix s)))).
  { apply yields_if; intros _; [apply (joinLamAlef_ok s0 H0 Hix)|apply yields_Ret; auto]. }
  intros s1 ([Hlen1 Hcurr1 Hnext1 Hlast1 Hpos1] & Hix1 & Halef).
  apply yields_bind, yields_at; [lia|]. intros ch _.
  apply yields_bind. eapply yields_weaken; [apply chooseShape_range|]. intros shape Hshape. cbn beta in Hshape.
  apply yields_bind, yields_put; [lia|]. apply yields_Ret. cbn.
  destruct (form_not_alef _ _ Hcurr1 Hshape) as [_ Hform].
  pose proof (alefs_insert (Z.to_nat (ix s1)) _ (str s1) Hform).
  split; [split; cbn; rewrite ?len_insert; done|]. split; [done|].
  destruct Halef as [?|[E ?]]; [left|right]; rewrite ?E in *; lia.
Qed.

Lemma noteLast_ok s : shapeInv s -> 0 <= ix s < n -> shapeInv (noteLast s).
Proof. intros [] ?. unfold noteLast. case_match; split; cbn; auto; lia. Qed.

Lemma noteLast_same s : str (noteLast s) = str s /\ ix (noteLast s) = ix s.
Proof. unfold noteLast. by case_match. Qed.

Lemma shapeMark_ok s : shapeInv s -> 0 <= ix s < n ->
  yields (shapeMark s) (fun s' => shapeInv s' /\ ix s' = ix s /\ (alefs (str s') <= alefs (str s))%nat).
Proof.
  intros Hinv; pose proof Hinv as [Hlen Hcurr Hnext Hlast Hpos]; intros Hix. unfold shapeMark. apply yields_if; intros _; [|apply yields_Ret; auto].
  apply yields_bind, yields_at; [lia|]. intros x _. cbn zeta.
  apply yields_if; intros Hx; [|apply yields_Ret; auto].
  change (len irrelevantPos) with 8 in Hx. apply yields_bind, yields_at; [change (len irrelevantPos) with 8; lia|].
  intros pos Hp. assert (0 <= pos <= 14).
  { assert (Forall (fun p => 0 <= p <= 14) irrelevantPos) as Hall by (apply (bool_decide_unpack _); by vm_compute).
    apply (Forall_lookup_1 _ _ _ _ Hall Hp). }
  apply yields_bind, yields_put; [lia|]. apply yields_Ret. cbn. set (v := u16 _).
  assert (lamalef v = 0) as Hv.
  { apply lamalef_none. subst v. unfold u16. rewrite Z.mod_small; repeat case_match; lia. }
  split; [split; cbn; rewrite ?len_insert; done|]. split; [done|]. by apply alefs_insert.
Qed.

(** What the turns to come cannot exceed. *)
Definition turnsLeft (s : shapeState) : Z := Z.of_nat (alefs (str s)) * (n + 1) + (n - inOrder rtl n (ix s)).

Lemma moveOn_ok s : shapeInv s -> 0 <= ix s < n ->
  yields (moveOn iEnd step s) (fun s' => shapeInv s' /\ str s' = str s /\ ix s' = ix s + step).
Proof.
  intros [Hlen Hcurr Hnext Hlast Hpos] Hix. unfold moveOn. cbn zeta.
  assert (inOrder rtl n (ix s) <= inOrder rtl n (ix s + step)) by (unfold inOrder, step; destruct rtl; lia).
  repeat (apply yields_if; intros ?).
  - apply yields_Ret. split; [split; cbn; auto; lia|done].
  - apply yields_bind, yields_at; [unfold iEnd, step in *; destruct rtl; lia|]. intros x _. apply yields_Ret.
    split; [split; cbn; auto using ubaGetLink_isLink; lia|done].
  - apply yields_Ret. split; [split; cbn; auto; lia|done].
Qed.

Lemma shapeTurn_ok s : shapeInv s -> 0 <= ix s < n ->
  yields (shapeTurn outTextShape rtl iEnd step s) (fun s' => shapeInv s' /\ (0 <= ix s' < n \/ ix s' = iEnd) /\ turnsLeft s' < turnsLeft s).
Proof.
  intros Hinv Hix. unfold shapeTurn. apply yields_bind. eapply yields_weaken; [by apply shapeLetter_ok|].
  intros s1 (H1 & Hix1 & Ha1). destruct (noteLast_same s1) as [E1 E2].
  apply yields_bind. eapply yields_weaken; [apply shapeMark_ok; [by apply noteLast_ok|by rewrite E2]|].
  intros s2 (H2 & E3 & Ha2). rewrite E1 in Ha2. rewrite E2 in E3.
  eapply yields_weaken; [apply moveOn_ok; [done|by rewrite E3]|]. intros s3 (H3 & E4 & E5). rewrite E3 in E5.
  split; [done|]. split; [unfold iEnd, step in *; destruct rtl; lia|].
  unfold turnsLeft, inOrder, step in *. rewrite E4, E5.
  destruct Ha1 as [Ha1|[Ha1 E]]; [|rewrite ?E]; destruct rtl; nia.
Qed.

Lemma shapeLoop_ok fuel s : shapeInv s -> (0 <= ix s < n \/ ix s = iEnd) -> turnsLeft s < Z.of_nat fuel ->
  yields (shapeLoop fuel outTextShape rtl iEnd step s) (fun s' => len (str s') = n).
Proof.
  revert s. induction fuel as [|fuel IH]; intros s Hinv Hix Hfuel.
  - pose proof (inv_lastPos _ Hinv).
    assert (0 <= inOrder rtl n (ix s) <= n) by (unfold inOrder, iEnd in *; destruct rtl; lia).
    unfold turnsLeft in Hfuel. nia.
  - cbn [shapeLoop]. apply yields_if; intros E; [apply yields_Ret, (inv_len _ Hinv)|].
    apply yields_bind. eapply yields_weaken; [apply shapeTurn_ok; [done|lia]|]. intros s' (H1 & H2 & H3).
    apply IH; [done|done|lia].
Qed.
End Routine.

Lemma nominalForms_ok buffer : yields (nominalForms buffer) (fun b => len b = len buffer).
Proof.
  unfold nominalForms. apply yields_for with (I := fun _ b => len b = len buffer); [apply len_nonneg|done| |done].
  intros i b Hi Hb. apply yields_bind, yields_at; [lia|]. intros x _.
  apply yields_if; intros E; [|by apply yields_Ret].
  apply yields_bind, yields_at; [change (len convertFEto06) with 141; lia|]. intros v _.
  apply yields_put; [lia|by rewrite len_insert].
Qed.

Lemma shapingRoutine_ok inAttr outAttr buffer rtl :
  yields (shapingRoutine inAttr outAttr buffer rtl) (fun b => len b = len buffer).
Proof.
  unfold shapingRoutine. repeat (apply yields_if; intros ?); try (by apply yields_Ret).
  { apply nominalForms_ok. }
  pose proof (len_nonneg buffer). cbn zeta. apply yields_bind, yields_at; [destruct rtl; lia|]. intros x _.
  apply yields_bind. eapply yields_weaken; [apply (shapeLoop_ok _ rtl (len buffer))|].
  - split; cbn; [done|apply ubaGetLink_isLink|unfold isLink; lia|unfold inOrder; destruct rtl; lia|destruct rtl; lia].
  - cbn. left. destruct rtl; lia.
  - unfold turnsLeft, shapeFuel, inOrder. cbn [str ix]. pose proof (list.length_filter (fun u => lamalef u <> 0) buffer) as Ha.
    fold (alefs buffer) in Ha. unfold len in *. destruct rtl; nia.
  - intros s Hs. by apply yields_Ret.
Qed.

(** ** The other routines return *)

Lemma alefOf_ok x : isLamAlef x = true -> yields (alefOf x) (fun _ => True).
Proof. unfold isLamAlef, alefOf. intros H. apply yields_at; [change (len alefType) with 8; lia|done]. Qed.

Lemma shiftLeft_len lo hi b (Q : list Z -> Prop) : 0 <= lo -> hi < len b ->
  (forall b', len b' = len b -> Q b') -> yields (shiftLeft lo hi b) Q.
Proof. intros ?? HQ. eapply yields_weaken; [by apply shiftLeft_ok|]. intros b' [Hb _]. auto. Qed.

Lemma shiftRight_len hi lo b (Q : list Z -> Prop) : 0 <= lo -> hi < len b ->
  (forall b', len b' = len b -> Q b') -> yields (shiftRight hi lo b) Q.
Proof. intros ?? HQ. eapply yields_weaken; [by apply shiftRight_ok|]. intros b' [Hb _]. auto. Qed.

(** A step of a routine that keeps the length [n]. *)
Ltac keep_step :=
  lazymatch goal with
  | |- yields (let '(_, _) := ?p in _) _ => destruct p
  | |- yields (Ret _) _ => apply yields_Ret; rewrite ?len_insert; auto
  | |- yields (_ ≫= _) _ => apply yields_bind
  | |- yields (at_ _ _) _ => apply yields_at; [rewrite ?len_insert; lia|intros ? ?]
  | |- yields (put _ _ _) _ => apply yields_put; [rewrite ?len_insert; lia|rewrite ?len_insert]
  | |- yields (if _ then _ else _) _ => apply yields_if; intros ?
  | |- yields (alefOf _) _ => eapply yields_weaken; [apply alefOf_ok; by repeat match goal with H : _ && _ = true |- _ => apply andb_prop in H as [? ?] end|intros ? _]
  | |- yields (shiftLeft _ _ _) _ => apply shiftLeft_len; [lia|rewrite ?len_insert; lia|intros ? ?]
  | |- yields (shiftRight _ _ _) _ => apply shiftRight_len; [lia|rewrite ?len_insert; lia|intros ? ?]
  end.

Section SameLength.
Context (n : Z) (Hn : 0 <= n).
Let keeps (b : list Z) : Prop := len b = n.

Lemma fillSpace_ok i b v : keeps b -> yields (fillSpace n i b v) keeps.
Proof. unfold keeps, fillSpace. intros Hb. repeat keep_step; try done. Qed.

(** A loop whose body keeps the length. *)
Lemma keeps_for lo (body : Z -> list Z -> outcome (list Z)) b : 0 <= lo -> keeps b ->
  (forall i b, lo <= i < n -> keeps b -> yields (body i b) keeps) -> yields (forRange lo n body b) keeps.
Proof.
  intros Hlo Hb Hbody. destruct (decide (lo <= n)); [|by apply yields_for_empty; [lia|]].
  by apply yields_for with (I := fun _ => keeps).
Qed.

(** The same with a count of the moved units, which is at most the index. *)
Lemma keeps_count (body : Z -> list Z * Z -> outcome (list Z * Z)) b : keeps b ->
  (forall i b k, 0 <= i < n -> keeps b -> 0 <= k <= i -> yields (body i (b, k)) (fun '(b', k') => keeps b' /\ k <= k' <= k + 1)) ->
  yields ('(b', _) ← forRange 0 n body (b, 0); Ret b') keeps.
Proof.
  intros Hb Hbody. apply yields_bind.
  apply yields_for with (I := fun i '(b, k) => keeps b /\ 0 <= k <= i); [done|done| |].
  - intros i [b' k] Hi [Hb' Hk]. eapply yields_weaken; [by apply Hbody|]. intros [b'' k'] [? ?]. split; [done|lia].
  - intros [b' k] [Hb' _]. by apply yields_Ret.
Qed.

Lemma deshapeSeenNear_ok b : keeps b -> yields (deshapeSeenNear b n) keeps.
Proof. intros Hb. apply keeps_for; [done..|]. unfold keeps. intros i b' Hi Hb'. repeat keep_step; try done. Qed.

Lemma shapeSeenNear_ok rtl b : keeps b -> yields (shapeSeenNear b n rtl) keeps.
Proof.
  intros Hb. apply keeps_for; [done..|]. unfold keeps. intros i b' Hi Hb'. repeat keep_step; try done. by apply fillSpace_ok.
Qed.

Lemma deshapeYehHamza_ok b : keeps b -> yields (deshapeYehHamzaTwoCellNear b n) keeps.
Proof.
  assert (forall yeh form i b, 0 <= i -> keeps b -> yields (mergeYehHamza yeh form n i b) keeps) as H.
  { unfold keeps, mergeYehHamza. intros yeh form i b' Hi Hb'. repeat keep_step; try done. }
  intros Hb. apply keeps_for; [done..|]. intros i b' Hi Hb'. apply yields_bind. eapply yields_weaken; [apply H; [lia|done]|].
  intros b'' Hb''. apply H; [lia|done].
Qed.

Lemma shapeYehHamza_ok rtl b : keeps b -> yields (shapeYehHamzaTwoCellNear b n rtl) keeps.
Proof.
  assert (forall form yeh i j b, 0 <= i < n -> keeps b -> yields (splitYehHamza form yeh n i j b) keeps) as H.
  { unfold splitYehHamza. intros form yeh i j b' Hi Hb'. unfold keeps in Hb'. repeat keep_step; try done.
    apply fillSpace_ok. unfold keeps. by rewrite len_insert. }
  intros Hb. apply keeps_for; [done..|]. intros i b' Hi Hb'. apply yields_bind. eapply yields_weaken; [by apply H|].
  intros b'' Hb''. by apply H.
Qed.

Lemma tashkeelAtBegin_ok b : keeps b -> yields (customizeTashkeelAtBegin b n) keeps.
Proof. intros Hb. apply keeps_count; [done|]. unfold keeps. intros i b' k Hi Hb' Hk. repeat keep_step; try done; auto with lia. Qed.

Lemma tashkeelAtEnd_ok b : keeps b -> yields (customizeTashkeelAtEnd b n) keeps.
Proof. intros Hb. apply keeps_count; [done|]. unfold keeps. intros i b' k Hi Hb' Hk. repeat keep_step; try done; auto with lia. Qed.

Lemma customizeTashkeel_ok mode b : keeps b -> yields (customizeTashkeel mode b n) keeps.
Proof.
  intros Hb. unfold customizeTashkeel. repeat (apply yields_if; intros _); try (by apply yields_Ret).
  - by apply tashkeelAtBegin_ok.
  - by apply tashkeelAtEnd_ok.
Qed.

(** A ligature is not a space. *)
Lemma ligature_apart (b : list Z) i j x y : b !! Z.to_nat i = Some x -> b !! Z.to_nat j = Some y ->
  isLamAlef x = true -> (y =? 0x0020) = true -> i <> j.
Proof. intros Hx Hy Hl Hs ->. rewrite Hx in Hy. injection Hy as ->. unfold isLamAlef in Hl. lia. Qed.

(** The ligature found and the space found are apart. *)
Ltac apart_tac :=
  repeat match goal with H : _ && _ = true |- _ => apply andb_prop in H as [? ?] end;
  repeat match goal with
  | Hx : ?b !! Z.to_nat ?i = Some ?x, Hy : ?b !! Z.to_nat ?j = Some ?y, Hl : isLamAlef ?x = true, Hs : (?y =? 0x0020) = true |- _ =>
      lazymatch goal with
      | _ : i <> j |- _ => fail
      | |- _ => pose proof (ligature_apart b i j x y Hx Hy Hl Hs)
      end
  end.

Lemma handleLamAlefNear_ok rtl b : keeps b -> yields (handleLamAlefNear b n rtl) keeps.
Proof. intros Hb. apply keeps_for; [done..|]. unfold keeps. intros i b' Hi Hb'. repeat (keep_step; apart_tac); congruence. Qed.

Lemma deshapeLamAlefNear_ok b : keeps b -> yields (deshapeLamAlefNear b n) keeps.
Proof.
  intros Hb. apply keeps_for; [done..|]. unfold keeps. intros i b' Hi Hb'. keep_step. keep_step. keep_step.
  apply (yields_weaken _ (fun space : bool => space = true -> isLamAlef a = true /\ i <> n - 1)).
  { apply yields_if; intros E.
    - apply andb_prop in E as [E1 E2]. apply negb_true_iff, Z.eqb_neq in E2.
      apply yields_bind, yields_at; [lia|]. intros y _. by apply yields_Ret.
    - by apply yields_Ret. }
  intros [|] Hs; [|by apply yields_Ret]. destruct (Hs eq_refl) as [Ha ?]. repeat keep_step; done.
Qed.

Lemma handleLamAlefAtEnd_ok b : keeps b -> yields (handleLamAlefAtEnd b n) keeps.
Proof. intros Hb. apply keeps_count; [done|]. unfold keeps. intros i b' k Hi Hb' Hk. repeat keep_step; try done; auto with lia. Qed.

Lemma deshapeLamAlefAtBegin_ok b : keeps b -> yields (deshapeLamAlefAtBegin b n) keeps.
Proof. intros Hb. apply keeps_for; [done..|]. unfold keeps. intros i b' Hi Hb'. repeat (keep_step; apart_tac); congruence. Qed.

Lemma deshapeLamAlefAtEnd_ok b : keeps b -> yields (deshapeLamAlefAtEnd b n) keeps.
Proof. intros Hb. apply keeps_for; [done..|]. unfold keeps. intros i b' Hi Hb'. repeat (keep_step; apart_tac); congruence. Qed.

Lemma deshapeLamAlefAuto_ok rtl b : keeps b -> yields (deshapeLamAlefAuto b n rtl) keeps.
Proof. intros Hb. apply keeps_for; [done..|]. unfold keeps. intros i b' Hi Hb'. repeat (keep_step; apart_tac); congruence. Qed.

Lemma handleLamAlefAtBegin_ok b : keeps b -> yields (handleLamAlefAtBegin b n) keeps.
Proof.
  intros Hb. unfold handleLamAlefAtBegin.
  assert (forall fuel count k b, keeps b -> 0 <= k <= count -> Z.max 0 (n - count) < Z.of_nat fuel ->
    yields (lamAlefsAtBegin fuel n count k b) keeps) as H; [|apply H; [done|lia|lia]].
  clear b Hb. unfold keeps. intros fuel. induction fuel as [|fuel IH]; intros count k b Hb Hk Hf; [lia|].
  cbn [lamAlefsAtBegin]. apply yields_if; intros Hlt; [|by apply yields_Ret].
  repeat keep_step; apply IH; rewrite ?len_insert; done || lia.
Qed.
End SameLength.

Lemma countLamAlef_ok buffer : yields (countLamAlef buffer (len buffer)) (fun k => k = Z.of_nat (length (List.filter isLamAlef buffer))).
Proof.
  unfold countLamAlef. pose proof (len_nonneg buffer).
  apply yields_for with (I := fun i k => k = Z.of_nat (length (List.filter isLamAlef (take (Z.to_nat i) buffer)))); [done|done| |].
  - intros i k Hi ->. apply yields_bind, yields_at; [lia|]. intros x Hx. apply yields_Ret.
    replace (Z.to_nat (i + 1)) with (S (Z.to_nat i)) by lia. rewrite (take_S_r _ _ x Hx), List.filter_app, length_app.
    cbn. destruct (isLamAlef x); cbn; lia.
  - intros k ->. unfold len. rewrite Nat2Z.id, take_ge by done. done.
Qed.

Lemma handleResize_ok rtl buffer : yields (handleLamAlefWithResizeBuffer buffer (len buffer) rtl) (fun _ => True).
Proof.
  unfold handleLamAlefWithResizeBuffer. apply yields_bind. eapply yields_weaken; [apply countLamAlef_ok|]. intros k Hk. cbn beta in Hk.
  pose proof (List.filter_length_le isLamAlef buffer) as Hle. unfold len in *.
  apply yields_if; intros _; [by apply yields_Ret|].
  apply yields_bind, yields_make; [lia|]. apply yields_bind.
  apply (yields_weaken _ (fun _ => True)); [apply yields_if; intros _; apply yields_cut; unfold len; done || lia|].
  intros part _. unfold blit, len. rewrite length_replicate. rewrite !(proj2 (Z.leb_le _ _)) by lia. by apply yields_Ret.
Qed.

(** A ligature becomes the lam and the alef. *)
Definition expandLamAlef (x : Z) : list Z :=
  if isLamAlef x then [0x0644; nth (Z.to_nat (x - 0xFEF5)) alefType 0] else [x].

Lemma expand_count b : len (flat_map expandLamAlef b) = len b + Z.of_nat (length (List.filter isLamAlef b)).
Proof.
  unfold len. induction b as [|x b IH]; [done|]. cbn [flat_map List.filter]. rewrite length_app. unfold expandLamAlef at 1.
  destruct (isLamAlef x); cbn [length]; lia.
Qed.

Lemma deshapeResize_spec buffer :
  deshapeLamAlefWithResizeBuffer buffer (len buffer) = Ret (flat_map expandLamAlef buffer).
Proof.
  assert (yields (deshapeLamAlefWithResizeBuffer buffer (len buffer)) (fun b => b = flat_map expandLamAlef buffer)) as (b & -> & ->); [|done].
  unfold deshapeLamAlefWithResizeBuffer. apply yields_bind. eapply yields_weaken; [apply countLamAlef_ok|]. intros k Hk. cbn beta in Hk.
  pose proof (expand_count buffer) as Hlen. rewrite <- Hk in Hlen. pose proof (len_nonneg buffer).
  apply yields_if; intros E.
  { apply yields_Ret. assert (List.filter isLamAlef buffer = []) as Hf by (apply length_zero_iff_nil; lia).
    clear -Hf. induction buffer as [|x r IH]; [done|]. cbn [flat_map List.filter] in *. unfold expandLamAlef at 1.
    destruct (isLamAlef x); [done|]. cbn. f_equal. auto. }
  apply yields_bind, yields_make; [lia|]. apply yields_bind.
  apply yields_for with (I := fun i '(expanded, newCounter) => exists tail,
    expanded = flat_map expandLamAlef (take (Z.to_nat i) buffer) ++ tail /\
    newCounter = len (flat_map expandLamAlef (take (Z.to_nat i) buffer)) /\
    len tail = len (flat_map expandLamAlef (drop (Z.to_nat i) buffer))).
  - done.
  - eexists. split; [done|]. split; [done|]. change (drop (Z.to_nat 0) buffer) with buffer. rewrite Hlen. unfold len. rewrite length_replicate. unfold len in *. lia.
  - intros i [expanded newCounter] Hi (tail & -> & -> & Ht). apply yields_bind, yields_at; [lia|]. intros x Hx.
    replace (Z.to_nat (i + 1)) with (S (Z.to_nat i)) by lia.
    rewrite (take_S_r _ _ x Hx), flat_map_app. rewrite (drop_S _ x _ Hx) in Ht. cbn [flat_map] in *.
    rewrite app_nil_r, len_app in *. set (done_ := flat_map expandLamAlef (take (Z.to_nat i) buffer)) in *.
    set (rest := flat_map expandLamAlef (drop (S (Z.to_nat i)) buffer)) in *. pose proof (len_nonneg rest).
    assert (expandLamAlef x = if isLamAlef x then [0x0644; nth (Z.to_nat (x - 0xFEF5)) alefType 0] else [x]) as Hex by done.
    rewrite Hex in *. clear Hex. destruct (isLamAlef x) eqn:El; rewrite ?len_cons, len_nil in *.
    + destruct tail as [|t1 [|t2 tail]]; rewrite ?len_cons, ?len_nil in Ht; [lia..|].
      assert (alefOf x = Ret (nth (Z.to_nat (x - 0xFEF5)) alefType 0)) as ->.
      { unfold isLamAlef in El. apply at_Some; [lia|].
        destruct (lookup_lt_is_Some_2 alefType (Z.to_nat (x - 0xFEF5))) as [v Hv]; [cbn; lia|]. by rewrite Hv, (nth_lookup_Some _ _ _ _ Hv). }
      cbn [mbind outcome_bind]. rewrite put_middle by done. cbn [mbind outcome_bind].
      rewrite (app_assoc done_ [0x0644] (t2 :: tail) : done_ ++ 0x0644 :: t2 :: tail = _).
      rewrite put_middle by (rewrite len_app; done). cbn [mbind outcome_bind]. apply yields_Ret.
      exists tail. rewrite <- !app_assoc. split; [done|]. rewrite ?len_cons, ?len_nil. lia.
    + destruct tail as [|t1 tail]; rewrite ?len_cons, ?len_nil in Ht; [lia..|].
      rewrite put_middle by done. cbn [mbind outcome_bind]. apply yields_Ret.
      exists tail. rewrite <- app_assoc. split; [done|]. rewrite ?len_cons, ?len_nil. lia.
  - intros [expanded newCounter] (tail & -> & _ & Ht). rewrite drop_ge in Ht by (unfold len; lia).
    rewrite take_ge by (unfold len; lia). destruct tail; [|cbn in Ht; unfold len in Ht; cbn in Ht; lia].
    apply yields_Ret. by rewrite app_nil_r.
Qed.

(** The length is not the text's when ligatures resize the buffer. *)
Definition keepsLength (optionSet : option ArabicOptionSet) (b b' : list Z) : Prop :=
  GetLamAlefMode (default NewArabicOptionSet optionSet) <> LamAlefResizeBuffer -> len b' = len b.

(** The cases of conditions that are written out. *)
Ltac if_step := lazymatch goal with |- yields (if _ then _ else _) _ => apply yields_if; intros _ end.

Lemma isMode_single m o : isMode m [o] = true -> m = o.
Proof. unfold isMode. intros E. apply bool_decide_eq_true, list_elem_of_In in E as [E|[]]. done. Qed.

Lemma deshapeLamAlef_ok mode rtl b : yields (deshapeLamAlef mode rtl b (len b)) (fun b' => mode <> LamAlefResizeBuffer -> len b' = len b).
Proof.
  unfold deshapeLamAlef. pose proof (len_nonneg b). apply yields_if; intros E.
  - rewrite deshapeResize_spec. apply yields_Ret. intros Hm. by apply isMode_single in E.
  - repeat if_step; (eapply yields_weaken; [|intros b' Hb' _; exact Hb']).
    + by apply deshapeLamAlefNear_ok.
    + by apply deshapeLamAlefAtBegin_ok.
    + by apply deshapeLamAlefAtEnd_ok.
    + by apply deshapeLamAlefAuto_ok.
    + by apply yields_Ret.
Qed.

Lemma handleLamAlef_ok mode rtl b : yields (handleLamAlef mode rtl b (len b)) (fun b' => mode <> LamAlefResizeBuffer -> len b' = len b).
Proof.
  unfold handleLamAlef. pose proof (len_nonneg b). apply yields_if; intros E.
  - eapply yields_weaken; [apply handleResize_ok|]. intros b' _ Hm. by apply isMode_single in E.
  - repeat if_step; (eapply yields_weaken; [|intros b' Hb' _; exact Hb']); try by apply yields_Ret.
    + by apply handleLamAlefNear_ok.
    + by apply handleLamAlefAtBegin_ok.
    + by apply handleLamAlefAtEnd_ok.
Qed.

(** An optional step that keeps the length. *)
Lemma optional_ok n (on : bool) (m : outcome (list Z)) b : len b = n -> yields m (fun b' => len b' = n) ->
  yields (if on then m else Ret b) (fun b' => len b' = n).
Proof. intros ? Hm. apply yields_if; intros _; [exact Hm|by apply yields_Ret]. Qed.

Lemma Shape_ok inAttr outAttr buffer optionSet :
  yields (Shape inAttr outAttr buffer optionSet) (keepsLength optionSet buffer).
Proof.
  unfold Shape, keepsLength. pose proof (len_nonneg buffer) as Hn. set (n := len buffer) in *. cbn zeta.
  repeat if_step; try (by apply yields_Ret).
  - apply yields_bind. eapply yields_weaken; [by apply (optional_ok n); [|apply deshapeSeenNear_ok]|]. intros b1 H1.
    apply yields_bind. eapply yields_weaken; [by apply (optional_ok n); [|apply deshapeYehHamza_ok]|]. intros b2 H2.
    apply yields_bind. eapply yields_weaken; [by apply customizeTashkeel_ok|]. intros b3 H3.
    apply yields_bind. cbn beta in H3. rewrite <- H3. eapply yields_weaken; [apply deshapeLamAlef_ok|]. intros b4 H4.
    eapply yields_weaken; [apply shapingRoutine_ok|]. intros b5 H5 Hm. rewrite H5. auto.
  - apply yields_bind. eapply yields_weaken; [apply shapingRoutine_ok|]. intros b1 H1.
    apply yields_bind. eapply yields_weaken; [by apply (optional_ok n); [|apply shapeSeenNear_ok]|]. intros b2 H2.
    apply yields_bind. eapply yields_weaken; [by apply (optional_ok n); [|apply shapeYehHamza_ok]|]. intros b3 H3.
    apply yields_bind. eapply yields_weaken; [by apply customizeTashkeel_ok|]. intros b4 H4. cbn beta in H4. rewrite <- H4.
    apply handleLamAlef_ok.
Qed.

(** ** Joining *)

(** The text in language order. *)
Definition langOrder (rtl : bool) (b : list Z) : list Z := if rtl then b else reverse b.

Lemma length_langOrder rtl b : length (langOrder rtl b) = length b.
Proof. unfold langOrder. destruct rtl; [done|apply length_reverse]. Qed.

Lemma langOrder_twice rtl b : langOrder rtl (langOrder rtl b) = b.
Proof. unfold langOrder. destruct rtl; [done|apply reverse_involutive]. Qed.

Lemma langOrder_fmap (f : Z -> Z) rtl b : f <$> langOrder rtl b = langOrder rtl (f <$> b).
Proof. unfold langOrder. destruct rtl; [done|]. by rewrite fmap_reverse. Qed.

Lemma at_langOrder rtl b pre x r i : langOrder rtl b = pre ++ x :: r -> i = inOrder rtl (len b) (len pre) -> at_ b i = Ret x.
Proof.
  intros E ->. pose proof (length_langOrder rtl b) as Hl. rewrite E, length_app in Hl. cbn in Hl.
  apply at_Some; unfold inOrder, len; [destruct rtl; lia|]. unfold langOrder in E. destruct rtl.
  - rewrite E, Nat2Z.id. by apply list_lookup_middle.
  - assert (b = reverse r ++ x :: reverse pre) as ->.
    { rewrite <- (reverse_involutive b), E, reverse_app, reverse_cons, <- app_assoc. done. }
    apply list_lookup_middle. rewrite length_app in *. cbn in *. rewrite !length_reverse in *. lia.
Qed.

Lemma put_langOrder rtl b pre x y r i : langOrder rtl b = pre ++ x :: r -> i = inOrder rtl (len b) (len pre) ->
  yields (put b i y) (fun b' => langOrder rtl b' = pre ++ y :: r /\ len b' = len b).
Proof.
  intros E ->. pose proof (length_langOrder rtl b) as Hl. rewrite E, length_app in Hl. cbn in Hl.
  apply yields_put; unfold inOrder, len; [destruct rtl; lia|]. rewrite length_insert. split; [|done].
  unfold langOrder in *. destruct rtl.
  - rewrite E, Nat2Z.id. by rewrite insert_app_r_alt, Nat.sub_diag by lia.
  - assert (b = reverse r ++ x :: reverse pre) as ->.
    { rewrite <- (reverse_involutive b), E, reverse_app, reverse_cons, <- app_assoc. done. }
    rewrite length_app in *. cbn in *. rewrite !length_reverse in *.
    replace (Z.to_nat _) with (length (reverse r)) by (rewrite length_reverse; lia).
    rewrite insert_app_r_alt, Nat.sub_diag by lia. cbn. by rewrite reverse_app, reverse_cons, !reverse_involutive, <- app_assoc.
Qed.

(** A unit goes away, and a space is added at the end of the text. *)
Definition closeGap (rtl : bool) (i : Z) (b : list Z) : outcome (list Z) :=
  if rtl then b' ← shiftLeft i (len b - 1) b; put b' (len b' - 1) 0x0020
  else b' ← shiftRight i 0 b; put b' 0 0x0020.

Lemma closeGap_langOrder rtl b pre x r i : langOrder rtl b = pre ++ x :: r -> i = inOrder rtl (len b) (len pre) ->
  yields (closeGap rtl i b) (fun b' => langOrder rtl b' = pre ++ r ++ [0x0020] /\ len b' = len b).
Proof.
  intros E ->. pose proof (length_langOrder rtl b) as Hl. rewrite E, length_app in Hl. cbn in Hl.
  unfold closeGap, inOrder, langOrder in *. destruct rtl.
  - eapply yields_weaken; [apply delete_shiftLeft; unfold len; lia|]. intros b' ->. rewrite E.
    rewrite (Nat2Z.id (length pre) : Z.to_nat (len pre) = _), delete_middle. split; [by rewrite <- app_assoc|].
    unfold len. rewrite !length_app. cbn. lia.
  - eapply yields_weaken; [apply delete_shiftRight; unfold len; lia|]. intros b' ->.
    assert (b = reverse r ++ x :: reverse pre) as ->.
    { rewrite <- (reverse_involutive b), E, reverse_app, reverse_cons, <- app_assoc. done. }
    assert (Z.to_nat (len (reverse r ++ x :: reverse pre) - 1 - len pre) = length (reverse r)) as ->.
    { unfold len. rewrite length_app. cbn. rewrite !length_reverse. lia. }
    rewrite delete_middle. split; [by rewrite reverse_cons, reverse_app, !reverse_involutive, <- app_assoc|].
    unfold len. cbn. rewrite !length_app. cbn. lia.
Qed.

(** The link of the next letter that matters, and where it is. *)
Fixpoint nextLinkOf (r : list Z) : Z :=
  match r with
  | [] => 0
  | u :: r' => if hasBit (ubaGetLink u) irrelevant then nextLinkOf r' else ubaGetLink u
  end.

Fixpoint nextAt (rtl : bool) (n k : Z) (r : list Z) : Z :=
  match r with
  | [] => 30000
  | u :: r' => if hasBit (ubaGetLink u) irrelevant then nextAt rtl n (k + 1) r' else inOrder rtl n k
  end.

(** The form of a letter: it joins the letter before it when that one links on
    and this one links back, and likewise the letter after it.  The forms of a
    letter follow each other in the table of Unicode: isolated, final, initial,
    medial. *)
Definition joins (a b : Z) : bool := hasBit a linkL && hasBit b linkR.
Definition joiningForm (last curr next : Z) : Z := (if joins last curr then 1 else 0) + (if joins curr next then 2 else 0).

Definition letterForm (last next u : Z) : Z :=
  let c := ubaGetLink u in if hasForms c then 0xFE70 + Z.shiftr c 8 + joiningForm last c next else u.

Definition isTashkeel (u : Z) : bool := (0x064B <=? u) && (u <=? 0x0652).

(** A vowel mark is written alone or, for most of them, on a connecting line;
    other units that do not matter to linking stay. *)
Definition markForm (u v : Z) : Prop :=
  if isTashkeel u then v = 0xFE70 + 2 * (u - 0x064B) \/ (v = 0xFE70 + 2 * (u - 0x064B) + 1 /\ u <> 0x064C /\ u <> 0x064D)
  else v = u.

Definition mark (u : Z) : bool := hasBit (ubaGetLink u) irrelevant.
Definition isLam (u : Z) : bool := hasBit (ubaGetLink u) lamTypeBit.
Definition isAlef (u : Z) : bool := hasForms (ubaGetLink u) && hasBit (ubaGetLink u) alefTypeBit.

(** The next letter is an alef. *)
Fixpoint meetsAlef (r : list Z) : bool :=
  match r with
  | [] => false
  | u :: r' => if mark u then meetsAlef r' else isAlef u
  end.

(** The link that follows a ligature.  It is that of the ligature; but the marks
    between the lam and the alef are met again behind it, and the form of a
    vowel mark counts as a letter that joins on both sides. *)
Definition afterLigature (marks : list Z) (alef : Z) : Z :=
  if existsb isTashkeel marks then linkR + linkL else ubaGetLink (lamalef alef).

(** [joined last l out]: in language order, after a letter of link [last].  A lam
    and the alef after it become one ligature, in the form of a letter between
    the neighbours of the two; the marks between them follow it, and a space is
    added at the end of the text. *)
Inductive joined (last : Z) : list Z -> list Z -> Prop :=
| JoinEnd : joined last [] []
| JoinMark u v r o : mark u = true -> markForm u v -> joined last r o -> joined last (u :: r) (v :: o)
| JoinLetter u r o :
    mark u = false -> isLam u && meetsAlef r = false ->
    joined (ubaGetLink u) r o -> joined last (u :: r) (letterForm last (nextLinkOf r) u :: o)
| JoinLamAlef lam alef marks forms r o :
    isLam lam = true -> isAlef alef = true -> Forall (fun u => mark u = true) marks -> Forall2 markForm marks forms ->
    joined (afterLigature marks alef) (r ++ [0x20]) o ->
    joined last (lam :: marks ++ alef :: r) (letterForm last (nextLinkOf r) (lamalef alef) :: forms ++ o).

(** No alef that would join a lam before it. *)
Fixpoint lamAlefFree (last : Z) (l : list Z) : bool :=
  match l with
  | [] => true
  | u :: r =>
      let c := ubaGetLink u in
      if hasBit c irrelevant then lamAlefFree last r
      else negb (hasForms c && hasBit c alefTypeBit && hasBit last lamTypeBit) && lamAlefFree c r
  end.

(** Units that are not presentation forms, nor the four that stand for ligatures. *)
Definition nominalUnit (u : Z) : bool :=
  (0 <=? u) && (u <? 65536) && negb ((0xFE70 <=? u) && (u <=? 0xFEFC)) && negb ((0x065C <=? u) && (u <=? 0x065F)).

(** The links of such units: both sides, the right one or none; those that do
    not matter have no forms and no bits of letters. *)
Definition plainLink (l : Z) : bool :=
  bool_decide (linkBits l ∈ [0; 1; 3]) && (negb (hasBit l irrelevant) || (negb (hasForms l) && (l =? 4))).

Lemma plain_table : forallb plainLink link06 = true.
Proof. by vm_compute. Qed.

Lemma nominal_plain u : nominalUnit u = true -> plainLink (ubaGetLink u) = true.
Proof.
  unfold nominalUnit. intros H. unfold ubaGetLink.
  destruct ((0x0622 <=? u) && (u <=? 0x06D3)) eqn:E1.
  - destruct (nth_in_or_default (Z.to_nat (u - 0x0622)) link06 0) as [Hin| ->]; [|done].
    pose proof plain_table as Ht. rewrite forallb_forall in Ht. by apply Ht.
  - destruct (u =? 0x200D); [done|]. destruct ((0x206D <=? u) && (u <=? 0x206F)); [done|].
    destruct ((0xFE70 <=? u) && (u <=? 0xFEFC)); [by rewrite ?andb_false_r in H|done].
Qed.

Lemma plain_bits l : plainLink l = true -> linkBits l ∈ [0; 1; 3].
Proof. unfold plainLink. intros H. apply andb_prop in H as [H _]. by apply bool_decide_eq_true in H. Qed.

Lemma plain_irrelevant l : plainLink l = true -> hasBit l irrelevant = true -> l = 4.
Proof. unfold plainLink. intros H Hi. rewrite Hi in H. cbn [negb orb] in H. lia. Qed.

Lemma hasBit_bits l bit : Z.land linkFieldBit bit = bit -> hasBit (linkBits l) bit = hasBit l bit.
Proof. intros H. unfold hasBit, linkBits. change (linkR + linkL) with linkFieldBit. by rewrite <- Z.land_assoc, H. Qed.

(** The table of shapes is the joining of Unicode, for such links. *)
Lemma joiningShape_spec next last curr : linkBits next ∈ [0; 1; 3] -> linkBits last ∈ [0; 1; 3] -> linkBits curr ∈ [0; 1; 3] ->
  joiningShape next last curr = Ret (joiningForm last curr next).
Proof.
  intros Hn Hl Hc.
  assert (joiningForm last curr next = joiningForm (linkBits last) (linkBits curr) (linkBits next)) as ->.
  { unfold joiningForm, joins. by rewrite !hasBit_bits. }
  unfold joiningShape. set (a := linkBits next) in *. set (b := linkBits last) in *. set (c := linkBits curr) in *. clearbody a b c.
  assert (forallb (fun a => forallb (fun b => forallb (fun c =>
    match rows ← at_ shapeTable a; row ← at_ rows b; at_ row c with Ret s => s =? joiningForm b c a | _ => false end)
      [0; 1; 3]) [0; 1; 3]) [0; 1; 3] = true) as H by by vm_compute.
  rewrite forallb_forall in H. apply list_elem_of_In, H in Hn. rewrite forallb_forall in Hn. apply list_elem_of_In, Hn in Hl.
  rewrite forallb_forall in Hl. apply list_elem_of_In, Hl in Hc.
  destruct (rows ← at_ shapeTable a; _) as [s| |]; [|done..]. f_equal. lia.
Qed.

Lemma nextLinkOf_bits r : Forall (fun u => nominalUnit u = true) r -> linkBits (nextLinkOf r) ∈ [0; 1; 3].
Proof.
  induction 1 as [|u r Hu _ IH]; [by left|]. cbn. case_match; [done|]. by apply plain_bits, nominal_plain.
Qed.

Lemma joiningForm_range last curr next : 0 <= joiningForm last curr next <= 3.
Proof. unfold joiningForm. repeat case_match; lia. Qed.

(** The lam and the four alefs are the only letters of a ligature. *)
Lemma link_cases (P : Z -> bool) u : nominalUnit u = true -> P 0 = false -> P 3 = false -> P 4 = false -> P (ubaGetLink u) = true ->
  exists k, (k < length link06)%nat /\ u = 0x0622 + Z.of_nat k /\ P (nth k link06 0) = true.
Proof.
  intros Hu H0 H3 H4. unfold ubaGetLink. destruct ((0x0622 <=? u) && (u <=? 0x06D3)) eqn:E1.
  - intros HP. exists (Z.to_nat (u - 0x0622)). change (length link06) with 178%nat. split_and!; [lia|lia|done].
  - case_match; [congruence|]. case_match; [congruence|]. unfold nominalUnit in Hu.
    destruct ((0xFE70 <=? u) && (u <=? 0xFEFC)); [by rewrite ?andb_false_r in Hu|congruence].
Qed.

Lemma lam_is u : nominalUnit u = true -> isLam u = true -> u = 0x0644.
Proof.
  intros Hu Hl. destruct (link_cases (fun l => hasBit l lamTypeBit) u Hu) as (k & Hk & -> & Hp); [done..|].
  assert (forallb (fun k => negb (hasBit (nth k link06 0) lamTypeBit) || (k =? 34)%nat) (seq 0 178) = true) as Ht by by vm_compute.
  rewrite forallb_forall in Ht. specialize (Ht k ltac:(apply in_seq; change (length link06) with 178%nat in Hk; lia)).
  rewrite Hp in Ht. cbn [negb orb] in Ht. apply Nat.eqb_eq in Ht. by subst k.
Qed.

Lemma alef_is u : nominalUnit u = true -> isAlef u = true -> u ∈ [0x0622; 0x0623; 0x0625; 0x0627].
Proof.
  intros Hu Hl. destruct (link_cases (fun l => hasForms l && hasBit l alefTypeBit) u Hu) as (k & Hk & -> & Hp); [done..|].
  assert (forallb (fun k => negb (hasForms (nth k link06 0) && hasBit (nth k link06 0) alefTypeBit) ||
    bool_decide (0x0622 + Z.of_nat k ∈ [0x0622; 0x0623; 0x0625; 0x0627])) (seq 0 178) = true) as Ht by by vm_compute.
  rewrite forallb_forall in Ht. specialize (Ht k ltac:(apply in_seq; change (length link06) with 178%nat in Hk; lia)).
  rewrite Hp in Ht. cbn [negb orb] in Ht. by apply bool_decide_eq_true in Ht.
Qed.

(** The unit that stands for a ligature is a letter with forms that joins the
    letter before it only. *)
Lemma ligature_link alef : nominalUnit alef = true -> isAlef alef = true ->
  lamalef alef <> 0 /\ linkBits (ubaGetLink (lamalef alef)) = 1 /\ hasForms (ubaGetLink (lamalef alef)) = true /\
  mark (lamalef alef) = false /\ isLam (lamalef alef) = false /\ mark alef = false.
Proof.
  intros Hu Ha. pose proof (alef_is alef Hu Ha) as Hin. apply list_elem_of_In in Hin. cbn in Hin.
  by decompose sum Hin; subst alef.
Qed.

Section Joining.
Context (outTextShape : BidiFlag) (rtl : bool) (n : Z).
Hypothesis plainShape : outTextShape ∈ [textNominal; textShaped].
Hypothesis short : n <= 30000.
Let iEnd : Z := if rtl then n else -1.
Let step : Z := if rtl then 1 else -1.

Lemma chooseShape_spec ch next last curr :
  linkBits next ∈ [0; 1; 3] -> linkBits last ∈ [0; 1; 3] -> linkBits curr ∈ [0; 1; 3] ->
  chooseShape outTextShape ch next last curr = Ret (joiningForm last curr next).
Proof.
  intros. rewrite <- joiningShape_spec by done. apply list_elem_of_In in plainShape as [<-|[<-|[]]]; done.
Qed.

Lemma nextAt_range k r : 0 <= k -> k + len r = n -> nextAt rtl n k r = 30000 \/ exists j, nextAt rtl n k r = inOrder rtl n j /\ k <= j < n.
Proof.
  revert k. induction r as [|u r IH]; intros k Hk Hl; [by left|]. rewrite len_cons in Hl. cbn. pose proof (len_nonneg r).
  case_match; [|right; exists k; split; [done|lia]]. destruct (IH (k + 1)) as [E|(j & E & Hj)]; [lia|lia|by left|].
  right. exists j. split; [done|lia].
Qed.

Lemma seekNext_spec fuel b pre r : langOrder rtl b = pre ++ r -> len b = n -> (length r < fuel)%nat ->
  seekNext fuel b (inOrder rtl n (len pre)) iEnd step = Ret (nextLinkOf r, nextAt rtl n (len pre) r).
Proof.
  intros E Hn. revert pre r E. induction fuel as [|fuel IH]; intros pre r E Hf; [lia|]. cbn [seekNext].
  pose proof (length_langOrder rtl b) as Hl. rewrite E, length_app in Hl. unfold len in Hn.
  destruct r as [|u r]; cbn [length] in *.
  - rewrite (proj2 (Z.eqb_eq _ _)); [done|]. unfold inOrder, iEnd, len. destruct rtl; lia.
  - rewrite (proj2 (Z.eqb_neq _ _)); [|unfold inOrder, iEnd, len; destruct rtl; lia].
    rewrite (at_langOrder rtl b pre u r) by (done || by unfold len; rewrite Hn). cbn [mbind outcome_bind nextLinkOf nextAt].
    destruct (hasBit (ubaGetLink u) irrelevant); [|done]. cbn [negb].
    specialize (IH (pre ++ [u]) r). rewrite <- app_assoc, len_app, len_cons, len_nil in IH.
    replace (len pre + (1 + 0)) with (len pre + 1) in IH by lia. rewrite <- IH by (done || lia).
    f_equal. unfold inOrder, step. destruct rtl; lia.
Qed.

(** What is known of the next letter that matters before position [k]. *)
Definition knowsNext (k : Z) (rest : list Z) (s : shapeState) : Prop :=
  nx s = -2 \/ (nextLink s = nextLinkOf rest /\ nx s = nextAt rtl n k rest /\
                match rest with [] => True | u :: _ => hasBit (ubaGetLink u) irrelevant = true end).

(** The state before the unit at the head of [rest]. *)
Record joinInv (out rest : list Z) (last : Z) (s : shapeState) : Prop := {
  join_str : langOrder rtl (str s) = out ++ rest;
  join_len : len (str s) = n;
  join_ix : ix s = inOrder rtl n (len out);
  join_last : lastLink s = last;
  join_curr : match rest with [] => True | u :: _ => currLink s = ubaGetLink u end;
  join_next : knowsNext (len out) rest s;
}.

Lemma joinInv_len out rest last s : joinInv out rest last s -> len out + len rest = n.
Proof.
  intros H. pose proof (length_langOrder rtl (str s)) as Hl. rewrite (join_str _ _ _ _ H), length_app in Hl.
  pose proof (join_len _ _ _ _ H). unfold len in *. lia.
Qed.

(** Moving on, once the unit is written. *)
Lemma moveOn_join out v r last s :
  langOrder rtl (str s) = out ++ v :: r -> len (str s) = n -> ix s = inOrder rtl n (len out) -> lastLink s = last ->
  (nx s = -2 \/ (nextLink s = nextLinkOf r /\ nx s = nextAt rtl n (len out + 1) r)) ->
  yields (moveOn iEnd step s) (joinInv (out ++ [v]) r last).
Proof.
  intros E Hn Hix Hlast Hnext. pose proof (length_langOrder rtl (str s)) as Hl. rewrite E, length_app in Hl. cbn [length] in Hl.
  assert (len out + 1 + len r = n) as Hlen by (unfold len in *; lia). pose proof (len_nonneg out). pose proof (len_nonneg r).
  assert (ix s + step = inOrder rtl n (len out + 1)) as Hi by (rewrite Hix; unfold inOrder, step; destruct rtl; lia).
  assert (langOrder rtl (str s) = (out ++ [v]) ++ r) as E' by (by rewrite <- app_assoc).
  assert (len (out ++ [v]) = len out + 1) as Hk by (rewrite len_app, len_cons, len_nil; lia).
  unfold moveOn. rewrite Hi. cbn zeta. apply yields_if; intros Enx.
  - apply yields_Ret. apply Z.eqb_eq in Enx. split; cbn; rewrite ?Hk; try done; [|by left].
    destruct r as [|u r]; [done|]. destruct Hnext as [Hx|[-> Hx]]; [unfold inOrder in *; destruct rtl; lia|].
    cbn in Hx |- *. destruct (hasBit (ubaGetLink u) irrelevant); [|done]. exfalso. rewrite len_cons in Hlen. pose proof (len_nonneg r).
    destruct (nextAt_range (len out + 1 + 1) r) as [Hn'|(j & Hn' & Hj)]; [lia|lia| |];
      rewrite Hx, Hn' in Enx; unfold inOrder in Enx; destruct rtl; lia.
  - apply yields_if; intros Eend.
    + destruct r as [|u r].
      { rewrite len_nil in Hlen. unfold inOrder, iEnd in Eend. destruct rtl; lia. }
      apply yields_bind. rewrite (at_langOrder rtl (str s) (out ++ [v]) u r) by (done || by rewrite Hk, Hn).
      apply yields_Ret. apply yields_Ret. split; cbn; rewrite ?Hk; try done.
      destruct Hnext as [Hx|[Hx Hy]]; [by left|right]. repeat split; try done.
      cbn in Hy. destruct (hasBit (ubaGetLink u) irrelevant); [done|]. lia.
    + apply yields_Ret. split; cbn; rewrite ?Hk; try done; destruct r as [|u r]; try done.
      * rewrite len_cons in Hlen. pose proof (len_nonneg r). unfold inOrder, iEnd in Eend. destruct rtl; lia.
      * destruct Hnext as [Hx|[Hx Hy]]; [by left|right]. done.
      * rewrite len_cons in Hlen. pose proof (len_nonneg r). unfold inOrder, iEnd in Eend. destruct rtl; lia.
Qed.

(** One letter or mark is written, and the turns go on. *)
Lemma shapeTurn_mark out u r last s : joinInv out (u :: r) last s -> nominalUnit u = true ->
  hasBit (ubaGetLink u) irrelevant = true ->
  yields (shapeTurn outTextShape rtl iEnd step s) (fun s' => exists v, markForm u v /\ joinInv (out ++ [v]) r last s').
Proof.
  intros H Hu Hi. pose proof (plain_irrelevant _ (nominal_plain _ Hu) Hi) as Hl. destruct H as [E Hn Hix Hlast Hcurr Hnext].
  assert (nx s = -2 \/ (nextLink s = nextLinkOf r /\ nx s = nextAt rtl n (len out + 1) r)) as Hnext'.
  { destruct Hnext as [?|(H1 & H2 & _)]; [by left|right]. cbn in H1, H2. by rewrite Hi in H1, H2. }
  unfold shapeTurn, shapeLetter. rewrite Hcurr, Hl. change (hasForms 4) with false. cbn iota.
  apply yields_bind, yields_Ret. unfold noteLast. rewrite Hcurr, Hl. change (hasBit 4 irrelevant) with true. cbn [negb].
  apply yields_bind. unfold shapeMark. rewrite Hcurr, Hl. change (hasBit 4 irrelevant) with true. cbn iota.
  rewrite (at_langOrder rtl (str s) out u r) by (done || by rewrite Hn). cbn [mbind outcome_bind]. change (len irrelevantPos) with 8.
  destruct ((0 <=? u - 0x064B) && (u - 0x064B <? 8)) eqn:Et.
  - set (myShape := if (u =? 0x064C) || (u =? 0x064D) then 0 else _).
    assert (myShape = 0 \/ (myShape = 1 /\ u <> 0x064C /\ u <> 0x064D)) as Hs.
    { subst myShape. destruct ((u =? 0x064C) || (u =? 0x064D)) eqn:Eu; [by left|]. repeat case_match; (by left) || (right; lia). }
    clearbody myShape. assert (at_ irrelevantPos (u - 0x064B) = Ret (2 * (u - 0x064B))) as ->.
    { assert (u - 0x064B ∈ [0; 1; 2; 3; 4; 5; 6; 7]) as Hin by (apply list_elem_of_In; cbn; lia).
      apply list_elem_of_In in Hin. cbn in Hin. decompose sum Hin; try done; by match goal with Hk : _ = u - 0x064B |- _ => rewrite <- Hk end. }
    cbn [mbind outcome_bind]. apply yields_bind. set (v := u16 _).
    assert (v = 0xFE70 + 2 * (u - 0x064B) + myShape) as Hv by (subst v; unfold u16; rewrite Z.mod_small; lia). clearbody v.
    eapply yields_weaken; [apply (put_langOrder rtl (str s) out u v r (ix s) E); by rewrite Hn|]. intros b [Eb Hb]. apply yields_Ret.
    eapply yields_weaken; [eapply (moveOn_join out v r last); cbn; rewrite ?Hb; done|]. intros s' Hs'. exists v. split; [|done].
    unfold markForm, isTashkeel. rewrite !(proj2 (Z.leb_le _ _)) by lia. cbn. destruct Hs as [->|[-> ?]]; [left|right]; lia.
  - apply yields_Ret. eapply yields_weaken; [by eapply (moveOn_join out u r last)|]. intros s' Hs'. exists u. split; [|done].
    unfold markForm, isTashkeel. destruct ((0x064B <=? u) && (u <=? 0x0652)) eqn:E2; [lia|done].
Qed.

Lemma shapeTurn_letter out u r last s : joinInv out (u :: r) last s -> nominalUnit u = true ->
  Forall (fun u => nominalUnit u = true) r -> linkBits last ∈ [0; 1; 3] ->
  hasBit (ubaGetLink u) irrelevant = false -> hasForms (ubaGetLink u) && hasBit (ubaGetLink u) alefTypeBit && hasBit last lamTypeBit = false ->
  yields (shapeTurn outTextShape rtl iEnd step s) (joinInv (out ++ [letterForm last (nextLinkOf r) u]) r (ubaGetLink u)).
Proof.
  intros H Hu Hr Hbits Hi Hfree. pose proof (joinInv_len _ _ _ _ H) as Hlen. rewrite len_cons in Hlen.
  destruct H as [E Hn Hix Hlast Hcurr Hnext].
  assert (nx s = -2) as Hnx by (destruct Hnext as [?|(_ & _ & ?)]; congruence).
  unfold shapeTurn, shapeLetter, letterForm. cbn zeta. rewrite Hcurr. destruct (hasForms (ubaGetLink u)) eqn:Hforms.
  - rewrite Hnx. change (-2 <? 0) with true. cbn iota.
    assert (ix s + step = inOrder rtl n (len (out ++ [u]))) as ->.
    { rewrite Hix, len_app, len_cons, len_nil. unfold inOrder, step. destruct rtl; lia. }
    rewrite (seekNext_spec _ _ (out ++ [u]) r) by (rewrite <- ?app_assoc; done || (pose proof (length_langOrder rtl (str s)) as Hl;
      rewrite E, length_app in Hl; cbn in Hl; lia)).
    cbn [mbind outcome_bind str ix nx currLink nextLink prevLink lastLink lastPos]. rewrite Hlast.
    cbn [andb] in Hfree. rewrite Hfree. cbn [mbind outcome_bind str ix nx currLink nextLink prevLink lastLink lastPos].
    rewrite (at_langOrder rtl (str s) out u r) by (done || by rewrite Hn). cbn [mbind outcome_bind].
    rewrite chooseShape_spec by (done || (by apply nextLinkOf_bits) || (by apply plain_bits, nominal_plain)).
    cbn [mbind outcome_bind]. set (form := joiningForm last (ubaGetLink u) (nextLinkOf r)).
    assert (u16 (0xFE70 + Z.shiftr (ubaGetLink u) 8 + form) = 0xFE70 + Z.shiftr (ubaGetLink u) 8 + form) as ->.
    { pose proof (shiftr_isLink _ (ubaGetLink_isLink u)). pose proof (joiningForm_range last (ubaGetLink u) (nextLinkOf r)).
      unfold u16. rewrite Z.mod_small; subst form; lia. }
    set (v := 0xFE70 + _ + form). destruct (put_langOrder rtl (str s) out u v r (ix s) E) as (b & -> & Eb & Hb); [by rewrite Hn|].
    cbn [mbind outcome_bind]. unfold noteLast. cbn [currLink]. rewrite Hi. cbn [negb].
    apply yields_bind. unfold shapeMark. cbn [currLink]. rewrite Hi. apply yields_Ret.
    eapply (moveOn_join out v r); cbn; rewrite ?Hb; try done. right. split; [done|]. by rewrite len_app, len_cons, len_nil.
  - apply yields_bind, yields_Ret. unfold noteLast. rewrite Hcurr, Hi. cbn [negb].
    apply yields_bind. unfold shapeMark. cbn [currLink]. rewrite Hi. apply yields_Ret.
    eapply (moveOn_join out u r); cbn; try done. by left.
Qed.

(** A turn of the loop, and the turns that are left after some. *)
Definition turn (s s' : shapeState) : Prop := ix s <> iEnd /\ shapeTurn outTextShape rtl iEnd step s = Ret s'.

Lemma loop_after fuel s s1 s' : rtc turn s s1 -> shapeLoop fuel outTextShape rtl iEnd step s = Ret s' ->
  exists fuel1, (fuel1 <= fuel)%nat /\ shapeLoop fuel1 outTextShape rtl iEnd step s1 = Ret s'.
Proof.
  intros Ht. revert fuel. induction Ht as [s|s s2 s1 [Hix Et] _ IH]; intros fuel E; [by exists fuel|].
  destruct fuel as [|fuel]; [done|]. cbn [shapeLoop] in E. rewrite (proj2 (Z.eqb_neq _ _)) in E by done. rewrite Et in E.
  destruct (IH fuel E) as (fuel1 & ? & ?). exists fuel1. split; [lia|done].
Qed.

Lemma loop_turn fuel s s1 s' : turn s s1 -> shapeLoop fuel outTextShape rtl iEnd step s = Ret s' ->
  exists fuel1, (fuel1 < fuel)%nat /\ shapeLoop fuel1 outTextShape rtl iEnd step s1 = Ret s'.
Proof.
  intros [Hix Et] E. destruct fuel as [|fuel]; [done|]. cbn [shapeLoop] in E.
  rewrite (proj2 (Z.eqb_neq _ _)) in E by done. rewrite Et in E. exists fuel. split; [lia|done].
Qed.

Lemma joinInv_turn out u r last s (P : shapeState -> Prop) : joinInv out (u :: r) last s ->
  yields (shapeTurn outTextShape rtl iEnd step s) P -> exists s', turn s s' /\ P s'.
Proof.
  intros H (s' & E & Hs'). exists s'. split; [|done]. split; [|done].
  pose proof (joinInv_len _ _ _ _ H) as Hlen. rewrite len_cons in Hlen. pose proof (len_nonneg r). pose proof (len_nonneg out).
  rewrite (join_ix _ _ _ _ H). unfold inOrder, iEnd. destruct rtl; lia.
Qed.

(** The letter before the last one, and where the last one is. *)
Lemma shapeLetter_before s s' : shapeLetter outTextShape rtl iEnd step s = Ret s' ->
  hasForms (currLink s) && hasBit (currLink s) alefTypeBit && hasBit (lastLink s) lamTypeBit = false ->
  currLink s' = currLink s /\ ix s' = ix s /\ lastLink s' = lastLink s /\ prevLink s' = prevLink s /\ lastPos s' = lastPos s.
Proof.
  unfold shapeLetter. destruct (hasForms (currLink s)); [|by intros [= <-]]. cbn [andb]. intros E Hno. revert E.
  intros ([next k] & _ & E)%bind_Ret. cbn zeta in E. cbn [currLink lastLink] in E. rewrite Hno in E.
  cbn [mbind outcome_bind str ix nx currLink nextLink prevLink lastLink lastPos] in E.
  apply bind_Ret in E as (ch & _ & (shape & _ & (b & _ & [= <-])%bind_Ret)%bind_Ret). done.
Qed.

Lemma shapeMark_before s s' : shapeMark s = Ret s' -> prevLink s' = prevLink s /\ lastPos s' = lastPos s.
Proof.
  unfold shapeMark. case_match; [|by intros [= <-]]. intros (x & _ & E)%bind_Ret. revert E. case_match; [|by intros [= <-]].
  by intros (pos & _ & (b & _ & [= <-])%bind_Ret)%bind_Ret.
Qed.

Lemma moveOn_before s s' : moveOn iEnd step s = Ret s' -> prevLink s' = prevLink s /\ lastPos s' = lastPos s.
Proof.
  unfold moveOn. cbn zeta. case_match; [by intros [= <-]|]. case_match; [|by intros [= <-]].
  by intros (x & _ & [= <-])%bind_Ret.
Qed.

Lemma shapeTurn_before s s' : shapeTurn outTextShape rtl iEnd step s = Ret s' ->
  hasForms (currLink s) && hasBit (currLink s) alefTypeBit && hasBit (lastLink s) lamTypeBit = false ->
  (prevLink s', lastPos s') =
  if hasBit (currLink s) irrelevant then (prevLink s, lastPos s) else (lastLink s, ix s).
Proof.
  intros (s1 & E1 & (s2 & E2 & E3)%bind_Ret)%bind_Ret Hno.
  destruct (shapeLetter_before _ _ E1 Hno) as (Hc & Hi & Hl & Hp & Hpos).
  destruct (moveOn_before _ _ E3) as [-> ->]. destruct (shapeMark_before _ _ E2) as [-> ->].
  unfold noteLast. rewrite Hc. destruct (hasBit (currLink s) irrelevant); cbn; congruence.
Qed.

(** Units without forms that count as letters. *)
Lemma shapeTurn_form out v r last s : joinInv out (v :: r) last s -> mark v = false -> hasForms (ubaGetLink v) = false ->
  yields (shapeTurn outTextShape rtl iEnd step s) (joinInv (out ++ [v]) r (ubaGetLink v)).
Proof.
  intros H Hi Hforms. destruct H as [E Hn Hix Hlast Hcurr Hnext]. unfold mark in Hi.
  assert (nx s = -2) as Hnx by (destruct Hnext as [?|(_ & _ & ?)]; congruence).
  unfold shapeTurn, shapeLetter. rewrite Hcurr, Hforms. apply yields_bind, yields_Ret. unfold noteLast. rewrite Hcurr, Hi. cbn [negb].
  apply yields_bind. unfold shapeMark. cbn [currLink]. rewrite Hi. apply yields_Ret.
  eapply (moveOn_join out v r); cbn; try done. by left.
Qed.

(** The marks between a lam and its alef. *)
Lemma marks_turns marks : forall out r last s, joinInv out (marks ++ r) last s -> 
  Forall (fun u => nominalUnit u = true) marks -> Forall (fun u => mark u = true) marks ->
  exists s' forms, rtc turn s s' /\ Forall2 markForm marks forms /\ joinInv (out ++ forms) r last s' /\
    prevLink s' = prevLink s /\ lastPos s' = lastPos s.
Proof.
  induction marks as [|u marks IH]; intros out r last s H Hnom Hm.
  { exists s, []. rewrite app_nil_r. split_and!; [reflexivity|by constructor|done..]. }
  apply Forall_cons_1 in Hnom as [Hu Hnom]. apply Forall_cons_1 in Hm as [Hmu Hm]. cbn [app] in H.
  destruct (joinInv_turn _ _ _ _ _ _ H (shapeTurn_mark _ _ _ _ _ H Hu Hmu)) as (s1 & Ht & v & Hv & H1).
  destruct (IH _ _ _ _ H1 Hnom Hm) as (s' & forms & Ht' & Hforms & H' & Hp & Hl).
  exists s', (v :: forms). pose proof (join_curr _ _ _ _ H) as Hc. cbn in Hc. unfold mark in Hmu.
  pose proof (plain_irrelevant _ (nominal_plain _ Hu) Hmu) as E4.
  destruct Ht as [Hix Et]. pose proof (shapeTurn_before _ _ Et) as Hb. rewrite Hc, E4 in Hb. specialize (Hb eq_refl).
  injection Hb as Hb1 Hb2. split_and!; [by eapply rtc_l|by constructor| |congruence..].
  by rewrite <- app_assoc in H'.
Qed.

(** The forms of marks, met again behind the ligature. *)
Lemma forms_turns marks forms : Forall2 markForm marks forms -> forall out r last s,
  joinInv out (forms ++ r) last s -> Forall (fun u => nominalUnit u = true) marks -> Forall (fun u => mark u = true) marks ->
  exists s', rtc turn s s' /\ joinInv (out ++ forms) r (if existsb isTashkeel marks then linkR + linkL else last) s'.
Proof.
  induction 1 as [|u v marks forms Huv _ IH]; intros out r last s H Hnom Hm.
  { exists s. rewrite app_nil_r. by split. }
  apply Forall_cons_1 in Hnom as [Hu Hnom]. apply Forall_cons_1 in Hm as [Hmu Hm]. cbn [app existsb] in *.
  unfold markForm in Huv. destruct (isTashkeel u) eqn:Et; cbn [orb].
  - assert (ubaGetLink v = 3) as Hv.
    { assert (u ∈ [0x064B; 0x064C; 0x064D; 0x064E; 0x064F; 0x0650; 0x0651; 0x0652]) as Hin
        by (apply list_elem_of_In; unfold isTashkeel in Et; cbn; lia).
      apply list_elem_of_In in Hin. cbn in Hin. decompose sum Hin; subst u; destruct Huv as [->|(-> & ? & ?)]; done. }
    destruct (joinInv_turn _ _ _ _ _ _ H (shapeTurn_form _ _ _ _ _ H ltac:(unfold mark; by rewrite Hv) ltac:(by rewrite Hv))) as (s1 & Ht & H1).
    destruct (IH _ _ _ _ H1 Hnom Hm) as (s' & Ht' & H'). exists s'. split; [by eapply rtc_l|].
    rewrite Hv, <- app_assoc in H'. by destruct (existsb isTashkeel marks).
  - subst v. destruct (joinInv_turn _ _ _ _ _ _ H (shapeTurn_mark _ _ _ _ _ H Hu Hmu)) as (s1 & Ht & v & Hv & H1).
    unfold markForm in Hv. rewrite Et in Hv. subst v. destruct (IH _ _ _ _ H1 Hnom Hm) as (s' & Ht' & H').
    exists s'. split; [by eapply rtc_l|]. by rewrite <- app_assoc in H'.
Qed.

(** The alef goes away, and the ligature takes the place of the lam. *)
Lemma joinLamAlef_spec b out lam forms alef r i p k curr next prev last :
  langOrder rtl b = out ++ lam :: forms ++ alef :: r -> len b = n ->
  i = inOrder rtl n (len (out ++ lam :: forms)) -> p = inOrder rtl n (len out) -> lamalef alef <> 0 ->
  exists b', joinLamAlef rtl (mkShapeState b i k curr next prev last p) =
      Ret (mkShapeState b' p (-2) (ubaGetLink (lamalef alef)) next prev prev p) /\
    langOrder rtl b' = out ++ lamalef alef :: forms ++ r ++ [0x20] /\ len b' = n.
Proof.
  intros E Hn Hi Hp Hw. unfold joinLamAlef. cbn [str ix nx currLink nextLink prevLink lastLink lastPos].
  rewrite (at_langOrder rtl b (out ++ lam :: forms) alef r) by (by rewrite <- app_assoc) || (by rewrite Hn).
  cbn [mbind outcome_bind]. rewrite (proj2 (Z.eqb_neq (lamalef alef) 0)) by done. cbn [negb].
  destruct (put_langOrder rtl b out lam (lamalef alef) (forms ++ alef :: r) p E) as (b1 & -> & E1 & Hb1); [by rewrite Hn|].
  cbn [mbind outcome_bind].
  destruct (closeGap_langOrder rtl b1 (out ++ lamalef alef :: forms) alef r i) as (b2 & Egap & E2 & Hb2).
  { by rewrite <- app_assoc. }
  { rewrite Hi, Hb1, Hn. f_equal. by rewrite !len_app, !len_cons. }
  rewrite <- app_assoc in E2. exists b2. split; [|split; [done|by rewrite Hb2, Hb1]].
  unfold closeGap in Egap. destruct rtl; apply bind_Ret in Egap as (b3 & -> & Ep); cbn [mbind outcome_bind]; by rewrite Ep.
Qed.

Lemma shapeTurn_alef out lam forms alef r last prev s :
  joinInv (out ++ lam :: forms) (alef :: r) last s -> prevLink s = prev -> lastPos s = inOrder rtl n (len out) ->
  nominalUnit alef = true -> isAlef alef = true -> hasBit last lamTypeBit = true -> linkBits prev ∈ [0; 1; 3] ->
  Forall (fun u => nominalUnit u = true) r ->
  yields (shapeTurn outTextShape rtl iEnd step s)
    (joinInv (out ++ [letterForm prev (nextLinkOf r) (lamalef alef)]) (forms ++ r ++ [0x20]) (ubaGetLink (lamalef alef))).
Proof.
  intros H Hprev Hpos Hu Ha Hlam Hbits Hr. pose proof (joinInv_len _ _ _ _ H) as Hlen. rewrite len_cons in Hlen.
  pose proof (len_nonneg r). pose proof (len_nonneg out). pose proof (len_nonneg forms).
  destruct (ligature_link alef Hu Ha) as (Hw & Hlink & Hform & Hirr & _ & Hmark).
  unfold isAlef in Ha. apply andb_prop in Ha as [Hforms Halef].
  destruct H as [E Hn Hix Hlast Hcurr Hnext].
  assert (nx s = -2) as Hnx by (destruct Hnext as [?|(_ & _ & ?)]; unfold mark in Hmark; congruence).
  unfold shapeTurn, shapeLetter. rewrite Hcurr, Hforms, Hnx. change (-2 <? 0) with true. cbn iota.
  assert (ix s + step = inOrder rtl n (len ((out ++ lam :: forms) ++ [alef]))) as ->.
  { rewrite Hix, (len_app (out ++ lam :: forms)), len_cons, len_nil. unfold inOrder, step. destruct rtl; lia. }
  rewrite (seekNext_spec _ _ ((out ++ lam :: forms) ++ [alef]) r) by (rewrite <- ?app_assoc; try done;
    (by rewrite E, <- app_assoc) || (pose proof (length_langOrder rtl (str s)) as Hl; rewrite E, length_app in Hl; cbn in Hl; lia)).
  cbn [mbind outcome_bind str ix nx currLink nextLink prevLink lastLink lastPos]. rewrite Hlast, Halef, Hlam. cbn [andb].
  rewrite <- app_assoc in E. cbn [app] in E.
  destruct (joinLamAlef_spec (str s) out lam forms alef r (ix s) (lastPos s)
    (nextAt rtl n (len ((out ++ lam :: forms) ++ [alef])) r) (ubaGetLink alef) (nextLinkOf r) (prevLink s) last E Hn Hix Hpos Hw)
    as (b & -> & Eb & Hb).
  set (w := lamalef alef) in *. cbn [mbind outcome_bind str ix nx currLink nextLink prevLink lastLink lastPos].
  rewrite (at_langOrder rtl b out w (forms ++ r ++ [0x20])) by (done || by rewrite Hb). cbn [mbind outcome_bind].
  rewrite Hprev, chooseShape_spec by (done || (by apply nextLinkOf_bits) || (rewrite Hlink; right; by left)). cbn [mbind outcome_bind].
  set (form := joiningForm prev (ubaGetLink w) (nextLinkOf r)).
  assert (u16 (0xFE70 + Z.shiftr (ubaGetLink w) 8 + form) = letterForm prev (nextLinkOf r) w) as ->.
  { unfold letterForm. cbn zeta. rewrite Hform. pose proof (shiftr_isLink _ (ubaGetLink_isLink w)).
    pose proof (joiningForm_range prev (ubaGetLink w) (nextLinkOf r)). unfold u16. rewrite Z.mod_small; subst form; lia. }
  set (v := letterForm prev (nextLinkOf r) w).
  destruct (put_langOrder rtl b out w v (forms ++ r ++ [0x20]) (lastPos s) Eb) as (b' & -> & Eb' & Hb'); [by rewrite Hb|].
  cbn [mbind outcome_bind]. unfold mark in Hirr. unfold noteLast. cbn [currLink]. rewrite Hirr. cbn [negb].
  apply yields_bind. unfold shapeMark. cbn [currLink]. rewrite Hirr. apply yields_Ret.
  eapply (moveOn_join out v); cbn; rewrite ?Hb', ?Hb; try done. by left.
Qed.

Lemma meetsAlef_split r : meetsAlef r = true ->
  exists marks alef r', r = marks ++ alef :: r' /\ Forall (fun u => mark u = true) marks /\ isAlef alef = true.
Proof.
  induction r as [|u r IH]; [done|]. cbn [meetsAlef]. destruct (mark u) eqn:Hm; intros H.
  - destruct (IH H) as (marks & alef & r' & -> & ? & ?). exists (u :: marks), alef, r'. split; [done|]. split; [by constructor|done].
  - exists [], u, r. by repeat split.
Qed.

(** The turns of a lam, the marks and the alef behind it, and the marks again. *)
Lemma ligature_turns out lam marks alef r last s :
  joinInv out (lam :: marks ++ alef :: r) last s -> Forall (fun u => nominalUnit u = true) (lam :: marks ++ alef :: r) ->
  linkBits last ∈ [0; 1; 3] -> isLam lam = true -> Forall (fun u => mark u = true) marks -> isAlef alef = true ->
  exists s0 s' forms, turn s s0 /\ rtc turn s0 s' /\ Forall2 markForm marks forms /\
    joinInv ((out ++ [letterForm last (nextLinkOf r) (lamalef alef)]) ++ forms) (r ++ [0x20]) (afterLigature marks alef) s'.
Proof.
  intros H Hnom Hbits Hlam Hmarks Halef.
  apply Forall_cons_1 in Hnom as [Hu Hnom]. apply Forall_app in Hnom as [Hnm Hnom]. apply Forall_cons_1 in Hnom as [Ha Hr].
  pose proof (lam_is lam Hu Hlam) as ->. set (lam := 0x0644) in *.
  assert (yields (shapeTurn outTextShape rtl iEnd step s)
    (joinInv (out ++ [letterForm last (nextLinkOf (marks ++ alef :: r)) lam]) (marks ++ alef :: r) (ubaGetLink lam))) as Hy.
  { apply shapeTurn_letter; try done. apply Forall_app. split; [done|by constructor]. }
  destruct (joinInv_turn _ _ _ _ _ _ H Hy) as (s0 & Ht0 & H0).
  pose proof (shapeTurn_before _ _ (proj2 Ht0)) as Hb. pose proof (join_curr _ _ _ _ H) as Hc. cbn in Hc. rewrite Hc in Hb.
  specialize (Hb eq_refl). change (hasBit (ubaGetLink lam) irrelevant) with false in Hb. injection Hb as Hp Hl.
  rewrite (join_last _ _ _ _ H) in Hp. rewrite (join_ix _ _ _ _ H) in Hl.
  destruct (marks_turns marks _ _ _ _ H0 Hnm Hmarks) as (s1 & forms & Ht1 & Hforms & H1 & Hp1 & Hl1).
  rewrite <- app_assoc in H1. cbn [app] in H1. rewrite Hp in Hp1. rewrite Hl in Hl1.
  destruct (joinInv_turn _ _ _ _ _ _ H1 (shapeTurn_alef _ _ _ _ _ _ _ _ H1 Hp1 Hl1 Ha Halef eq_refl Hbits Hr)) as (s2 & Ht2 & H2).
  destruct (forms_turns marks forms Hforms _ _ _ _ H2 Hnm Hmarks) as (s3 & Ht3 & H3).
  exists s0, s3, forms. split; [done|]. split; [etransitivity; [exact Ht1|by eapply rtc_l]|]. by split.
Qed.

Lemma shapeLoop_joined fuel : forall out rest last s s', joinInv out rest last s ->
  Forall (fun u => nominalUnit u = true) rest -> linkBits last ∈ [0; 1; 3] -> hasBit last lamTypeBit && meetsAlef rest = false ->
  shapeLoop fuel outTextShape rtl iEnd step s = Ret s' -> exists o, langOrder rtl (str s') = out ++ o /\ joined last rest o.
Proof.
  induction fuel as [fuel IH] using lt_wf_ind. intros out rest last s s' H Hnom Hbits Hno E.
  destruct rest as [|u r].
  { destruct fuel as [|fuel]; [done|]. cbn [shapeLoop] in E. pose proof (joinInv_len _ _ _ _ H) as Hlen. rewrite len_nil in Hlen.
    rewrite (proj2 (Z.eqb_eq _ _)) in E by (rewrite (join_ix _ _ _ _ H); unfold inOrder, iEnd; destruct rtl; lia).
    injection E as <-. exists []. split; [apply H|constructor]. }
  pose proof Hnom as Hnom0. apply Forall_cons_1 in Hnom as [Hu Hr]. cbn [meetsAlef] in Hno. destruct (mark u) eqn:Hm.
  - destruct (joinInv_turn _ _ _ _ _ _ H (shapeTurn_mark _ _ _ _ _ H Hu Hm)) as (s1 & Ht & v & Hv & H1).
    destruct (loop_turn _ _ _ _ Ht E) as (fuel1 & Hf & E1). destruct (IH _ Hf _ _ _ _ _ H1 Hr Hbits Hno E1) as (o & Eo & Ho).
    exists (v :: o). rewrite Eo, <- app_assoc. split; [done|by constructor].
  - destruct (isLam u && meetsAlef r) eqn:Hl.
    + apply andb_prop in Hl as [Hl Ha]. destruct (meetsAlef_split r Ha) as (marks & alef & r' & -> & Hmarks & Halef).
      destruct (ligature_turns out u marks alef r' last s H Hnom0 Hbits Hl Hmarks Halef) as (s0 & s1 & forms & Ht & Hts & Hforms & H1).
      destruct (loop_turn _ _ _ _ Ht E) as (fuel0 & Hf0 & E0). destruct (loop_after _ _ _ _ Hts E0) as (fuel1 & Hf & E1).
      apply Forall_app in Hr as [_ Hr]. apply Forall_cons_1 in Hr as [Ha' Hr].
      destruct (ligature_link alef Ha' Halef) as (_ & Hlink & _ & _ & Hnl & _).
      destruct (IH fuel1 ltac:(lia) _ _ _ _ s' H1) as (o & Eo & Ho); [| | |exact E1|].
      * apply Forall_app. split; [done|]. by repeat constructor.
      * unfold afterLigature. case_match; [by right; right; left|]. rewrite Hlink. by right; left.
      * unfold isLam in Hnl. unfold afterLigature. case_match; [done|]. by rewrite Hnl.
      * exists (letterForm last (nextLinkOf r') (lamalef alef) :: forms ++ o). rewrite Eo, <- !app_assoc. split; [done|by constructor].
    + assert (yields (shapeTurn outTextShape rtl iEnd step s) (joinInv (out ++ [letterForm last (nextLinkOf r) u]) r (ubaGetLink u))) as Hy.
      { apply shapeTurn_letter; try done. unfold isAlef in Hno. by rewrite andb_comm. }
      destruct (joinInv_turn _ _ _ _ _ _ H Hy) as (s1 & Ht & H1). destruct (loop_turn _ _ _ _ Ht E) as (fuel1 & Hf & E1).
      destruct (IH _ Hf _ _ _ _ s' H1 Hr) as (o & Eo & Ho); [by apply plain_bits, nominal_plain|done|done|].
      exists (letterForm last (nextLinkOf r) u :: o). rewrite Eo, <- app_assoc. split; [done|by constructor].
Qed.
End Joining.

Lemma shapingRoutine_joined inAttr outAttr text rtl :
  GetType outAttr = typeVisual -> GetText outAttr ∈ [textNominal; textShaped] ->
  Forall (fun u => nominalUnit u = true) text -> len text <= 30000 ->
  yields (shapingRoutine inAttr outAttr text rtl) (fun out => len out = len text /\ joined 0 (langOrder rtl text) (langOrder rtl out)).
Proof.
  intros Hout Hshape Hnom Hlen. destruct (shapingRoutine_ok inAttr outAttr text rtl) as (out & Eout & Hl).
  exists out. split; [done|]. split; [done|]. revert Eout. unfold shapingRoutine. destruct text as [|u0 r0] eqn:Et.
  { intros [= <-]. destruct rtl; constructor. }
  rewrite <- Et in *. assert (0 < len text) by (rewrite Et, len_cons; pose proof (len_nonneg r0); lia). clear Et u0 r0.
  rewrite (proj2 (Z.eqb_neq _ _)) by lia. rewrite Hout, (bool_decide_eq_true_2 (typeVisual = typeVisual)) by done.
  rewrite (bool_decide_eq_false_2 (typeVisual = typeImplicit)), andb_false_r by done. cbn iota. cbn zeta.
  assert (Forall (fun u => nominalUnit u = true) (langOrder rtl text)) as Hn by (unfold langOrder; destruct rtl; [done|by apply Forall_reverse]).
  destruct (langOrder rtl text) as [|u r] eqn:E.
  { pose proof (length_langOrder rtl text) as Hll. rewrite E in Hll. unfold len in *. cbn in Hll. lia. }
  assert ((if rtl then 0 else len text - 1) = inOrder rtl (len text) (len (@nil Z))) as ->.
  { unfold inOrder, len. cbn. destruct rtl; lia. }
  rewrite (at_langOrder rtl text [] u r) by done. cbn [mbind outcome_bind]. intros (s' & Es & [= <-])%bind_Ret.
  apply (shapeLoop_joined _ rtl (len text) Hshape Hlen _ [] (u :: r) 0) in Es as (o & Eo & Ho); try done.
  - by rewrite Eo.
  - split; cbn; try done. by left.
  - by left.
Qed.

(** ** Letters come back *)

Definition nominalForm (x : Z) : Z :=
  if (0xFE70 <=? x) && (x <=? 0xFEF4) then nth (Z.to_nat (x - 0xFE70)) convertFEto06 0 else x.

Lemma nominalForms_spec buffer : nominalForms buffer = Ret (nominalForm <$> buffer).
Proof.
  assert (yields (nominalForms buffer) (fun b => b = nominalForm <$> buffer)) as (b & -> & ->); [|done].
  unfold nominalForms. pose proof (len_nonneg buffer).
  apply yields_for with (I := fun i b => b = (nominalForm <$> take (Z.to_nat i) buffer) ++ drop (Z.to_nat i) buffer); [done|done| |].
  - intros i b Hi ->. destruct (lookup_lt_is_Some_2 buffer (Z.to_nat i)) as [x Hx]; [unfold len in Hi; lia|].
    replace (Z.to_nat (i + 1)) with (S (Z.to_nat i)) by lia. rewrite (drop_S _ x _ Hx), (take_S_r _ _ x Hx), fmap_app, <- app_assoc.
    assert (i = len (nominalForm <$> take (Z.to_nat i) buffer)) as Hk.
    { rewrite len_fmap. unfold len in *. rewrite length_take. lia. }
    rewrite at_middle by done. cbn [mbind outcome_bind]. change (nominalForm <$> [x]) with [nominalForm x].
    assert (nominalForm x = if (0xFE70 <=? x) && (x <=? 0xFEF4) then nth (Z.to_nat (x - 0xFE70)) convertFEto06 0 else x) as -> by done.
    destruct ((0xFE70 <=? x) && (x <=? 0xFEF4)) eqn:E; [|by apply yields_Ret].
    assert (Forall (fun v => 0 <= v < 65536) convertFEto06) as Hall by (apply (bool_decide_unpack _); by vm_compute).
    destruct (lookup_lt_is_Some_2 convertFEto06 (Z.to_nat (x - 0xFE70))) as [v Hv]; [cbn; lia|].
    rewrite (at_Some _ _ v) by (done || lia). cbn [mbind outcome_bind].
    rewrite put_middle by done. apply yields_Ret. rewrite (nth_lookup_Some _ _ _ _ Hv).
    unfold u16. rewrite Z.mod_small; [done|]. apply (Forall_lookup_1 _ _ _ _ Hall Hv).
  - intros b ->. rewrite take_ge, drop_ge by (unfold len; lia). apply app_nil_r.
Qed.

(** Every form of a letter leads back to it. *)
Lemma forms_table : forallb (fun u => negb (nominalUnit u) || negb (hasForms (ubaGetLink u)) ||
  forallb (fun a => forallb (fun b => nominalForm (0xFE70 + Z.shiftr (ubaGetLink u) 8 +
    ((if a && hasBit (ubaGetLink u) linkR then 1 else 0) + (if hasBit (ubaGetLink u) linkL && b then 2 else 0))) =? u)
    [true; false]) [true; false]) (seqZ 0x0622 178) = true.
Proof. by vm_compute. Qed.

Lemma forms_marks : forallb (fun k => (nominalForm (0xFE70 + 2 * k) =? 0x064B + k) && (nominalForm (0xFE70 + 2 * k + 1) =? 0x064B + k))
  [0; 1; 2; 3; 4; 5; 6; 7] = true.
Proof. by vm_compute. Qed.

Lemma nominal_stays u : nominalUnit u = true -> nominalForm u = u.
Proof. unfold nominalUnit, nominalForm. intros H. destruct ((0xFE70 <=? u) && (u <=? 0xFEF4)) eqn:E; [lia|done]. Qed.

Lemma hasForms_range u : nominalUnit u = true -> hasForms (ubaGetLink u) = true -> 0x0622 <= u <= 0x06D3.
Proof.
  unfold nominalUnit, ubaGetLink. intros Hu. destruct ((0x0622 <=? u) && (u <=? 0x06D3)) eqn:E1; [lia|].
  destruct (u =? 0x200D); [done|]. destruct ((0x206D <=? u) && (u <=? 0x206F)); [done|].
  destruct ((0xFE70 <=? u) && (u <=? 0xFEFC)); [lia|done].
Qed.

Lemma letterForm_back last next u : nominalUnit u = true -> nominalForm (letterForm last next u) = u.
Proof.
  intros Hu. unfold letterForm. cbn zeta. destruct (hasForms (ubaGetLink u)) eqn:Hf; [|by apply nominal_stays].
  pose proof (hasForms_range u Hu Hf) as Hr. pose proof forms_table as H. rewrite forallb_forall in H.
  specialize (H u). rewrite Hu, Hf in H. cbn [negb orb] in H. rewrite forallb_forall in H.
  assert (In u (seqZ 1570 178)) as Hin by (apply list_elem_of_In, elem_of_seqZ; lia).
  specialize (H Hin (hasBit last linkL)). rewrite forallb_forall in H.
  specialize (H ltac:(destruct (hasBit last linkL); cbn; auto) (hasBit next linkR) ltac:(destruct (hasBit next linkR); cbn; auto)).
  apply Z.eqb_eq in H. exact H.
Qed.

Lemma markForm_back u v : nominalUnit u = true -> markForm u v -> nominalForm v = u.
Proof.
  intros Hu. unfold markForm. destruct (isTashkeel u) eqn:E; [|intros ->; by apply nominal_stays].
  unfold isTashkeel in E. pose proof forms_marks as H. rewrite forallb_forall in H. specialize (H (u - 0x064B)).
  assert (In (u - 1611) [0; 1; 2; 3; 4; 5; 6; 7]) as Hin by (cbn; lia). specialize (H Hin). apply andb_prop in H as [H1 H2].
  intros [->|[-> _]]; lia.
Qed.

Lemma marks_free marks : forall last r, Forall (fun u => mark u = true) marks ->
  lamAlefFree last (marks ++ r) = lamAlefFree last r.
Proof. induction marks as [|u marks IH]; intros last r Hm; [done|]. apply Forall_cons_1 in Hm as [Hu Hm]. cbn. unfold mark in Hu. rewrite Hu. by apply IH. Qed.

Lemma joined_back last l out :
  Forall (fun u => nominalUnit u = true) l -> lamAlefFree last l = true -> joined last l out -> nominalForm <$> out = l.
Proof.
  intros Hnom Hfree H. revert Hnom Hfree. induction H as [last|last u v r o Hm Hv _ IH|last u r o Hm _ _ IH|last lam alef marks forms r o Hl Ha Hm _ _ _];
    intros Hnom Hfree; [done|apply Forall_cons_1 in Hnom as [Hu Hnom]; cbn [lamAlefFree fmap list_fmap] in *..].
  - unfold mark in Hm. rewrite Hm in Hfree. by rewrite (markForm_back u v), IH.
  - unfold mark in Hm. rewrite Hm in Hfree. apply andb_prop in Hfree as [_ Hfree]. by rewrite letterForm_back, IH.
  - exfalso. pose proof (lam_is lam Hu Hl) as ->. change (hasBit (ubaGetLink 0x0644) irrelevant) with false in Hfree.
    apply andb_prop in Hfree as [_ Hfree]. rewrite marks_free in Hfree by done.
    apply Forall_app in Hnom as [_ Hnom]. apply Forall_cons_1 in Hnom as [Hua _].
    destruct (ligature_link alef Hua Ha) as (_ & _ & _ & _ & _ & Hma). cbn [lamAlefFree] in Hfree. unfold mark in Hma.
    rewrite Hma in Hfree. unfold isAlef in Ha. by rewrite Ha in Hfree.
Qed.

(** ** Text that shaping leaves alone *)

(** Latin, Greek, Cyrillic and Armenian: the units before Hebrew. *)
Definition latinUnit (u : Z) : Prop := 0 <= u < 0x590.

Lemma latin_link u : latinUnit u -> ubaGetLink u = 0.
Proof.
  intros H. unfold latinUnit, ubaGetLink in *. repeat match goal with |- context [if ?b then _ else _] => replace b with false by lia end. done.
Qed.

Lemma latin_nominal u : latinUnit u -> nominalUnit u = true.
Proof. unfold latinUnit, nominalUnit. lia. Qed.

Lemma joined_latin last l out : Forall latinUnit l -> joined last l out -> out = l.
Proof.
  intros Hl H. revert Hl. induction H as [last|last u v r o Hm _ _ _|last u r o Hm _ _ IH|last lam alef marks forms r o Hl _ _ _ _ _];
    intros Hlatin; [done|apply Forall_cons_1 in Hlatin as [Hu Hlatin]; pose proof (latin_link u Hu) as E || pose proof (latin_link lam Hu) as E..].
  - unfold mark in Hm. by rewrite E in Hm.
  - rewrite (IH Hlatin). unfold letterForm. by rewrite E.
  - unfold isLam in Hl. by rewrite E in Hl.
Qed.

Section Latin.
Context (b : list Z).
Hypothesis latin : Forall latinUnit b.

(** A loop that looks at units and finds nothing to change. *)
Ltac nothing_to_do :=
  apply forRange_same; intros i Hi;
  repeat match goal with
  | |- context [at_ b ?j] =>
      destruct (at_Forall latinUnit b j latin) as (? & -> & ?); [lia|]; cbn [mbind outcome_bind]
  end.

Lemma deshapeSeenNear_latin : deshapeSeenNear b (len b) = Ret b.
Proof. nothing_to_do. unfold latinUnit, Tail in *. by rewrite (proj2 (Z.eqb_neq _ _)) by lia. Qed.

Lemma seenChar_latin u : latinUnit u -> seenChar u = false.
Proof. unfold latinUnit, seenChar. intros Hu. apply bool_decide_eq_false. rewrite list_elem_of_In. cbn. lia. Qed.

Lemma shapeSeenNear_latin rtl : shapeSeenNear b (len b) rtl = Ret b.
Proof. nothing_to_do. by rewrite seenChar_latin. Qed.

Lemma mergeYehHamza_latin yeh form i : 0xFE70 <= yeh -> 0 <= i < len b -> mergeYehHamza yeh form (len b) i b = Ret b.
Proof.
  intros Hy Hi. unfold mergeYehHamza. destruct (Z.ltb_spec (i + 1) (len b)); [|done].
  destruct (at_Forall latinUnit b i latin Hi) as (x & -> & Hx). cbn [mbind outcome_bind].
  destruct (at_Forall latinUnit b (i + 1) latin) as (y & -> & _); [lia|]. cbn [mbind outcome_bind].
  unfold latinUnit in Hx. by rewrite (proj2 (Z.eqb_neq x yeh)) by lia.
Qed.

Lemma deshapeYehHamza_latin : deshapeYehHamzaTwoCellNear b (len b) = Ret b.
Proof.
  apply forRange_same. intros i Hi. rewrite mergeYehHamza_latin by lia. cbn [mbind outcome_bind]. by apply mergeYehHamza_latin.
Qed.

Lemma splitYehHamza_latin form yeh i j : 0xFE70 <= form -> 0 <= i < len b -> splitYehHamza form yeh (len b) i j b = Ret b.
Proof.
  intros Hf Hi. unfold splitYehHamza. destruct (at_Forall latinUnit b i latin Hi) as (x & -> & Hx). cbn [mbind outcome_bind].
  unfold latinUnit in Hx. by rewrite (proj2 (Z.eqb_neq x form)) by lia.
Qed.

Lemma shapeYehHamza_latin rtl : shapeYehHamzaTwoCellNear b (len b) rtl = Ret b.
Proof.
  apply forRange_same. intros i Hi. cbn zeta. rewrite splitYehHamza_latin by lia. cbn [mbind outcome_bind]. by apply splitYehHamza_latin.
Qed.

Lemma deshapeLamAlefAuto_latin rtl : deshapeLamAlefAuto b (len b) rtl = Ret b.
Proof.
  nothing_to_do. match goal with |- context [isLamAlef ?x] => assert (isLamAlef x = false) as -> end; [|done].
  unfold isLamAlef, latinUnit in *. lia.
Qed.

Lemma nominalForms_latin : nominalForms b = Ret b.
Proof.
  rewrite nominalForms_spec. f_equal. rewrite <- (list_fmap_id b) at 2. apply list_fmap_ext. intros i x Hx.
  apply nominal_stays, latin_nominal. by apply (Forall_lookup_1 _ _ _ _ latin Hx).
Qed.

Lemma shapingRoutine_latin inAttr outAttr rtl : GetText outAttr ∈ [textNominal; textShaped] -> len b <= 30000 ->
  shapingRoutine inAttr outAttr b rtl = Ret b.
Proof.
  intros Ht Hlen. destruct (decide (GetType outAttr = typeVisual)) as [Ev|Ev].
  - assert (Forall latinUnit (langOrder rtl b)) as Hl by (unfold langOrder; destruct rtl; [done|by apply Forall_reverse]).
    destruct (shapingRoutine_joined inAttr outAttr b rtl) as (out & -> & _ & Hj); try done.
    + exact (List.Forall_impl _ latin_nominal latin).
    + apply joined_latin in Hj; [|done]. apply (f_equal (langOrder rtl)) in Hj. rewrite !langOrder_twice in Hj. by rewrite Hj.
  - unfold shapingRoutine. rewrite (bool_decide_eq_false_2 (GetType outAttr = typeVisual)) by done.
    destruct (len b =? 0); [done|]. destruct (_ && _); [apply nominalForms_latin|done].
Qed.

Lemma Shape_latin inAttr outAttr : GetText outAttr ∈ [textNominal; textShaped] -> len b <= 30000 ->
  Shape inAttr outAttr b None = Ret b.
Proof.
  intros Ht Hlen. unfold Shape. cbn zeta. cbn [default].
  change (isMode (GetSeenMode NewArabicOptionSet) [SeenNear; SeenAuto]) with true.
  change (isMode (GetYehHamzaMode NewArabicOptionSet) [YehHamzaTwoCellNear; YehHamzaAuto]) with true.
  change (GetTashkeelMode NewArabicOptionSet) with TashkeelAuto. change (GetLamAlefMode NewArabicOptionSet) with LamAlefAuto.
  cbn iota. destruct (len b =? 0); [done|]. destruct (_ && _).
  - rewrite deshapeSeenNear_latin. cbn [mbind outcome_bind]. rewrite deshapeYehHamza_latin. cbn [mbind outcome_bind].
    change (customizeTashkeel TashkeelAuto b (len b)) with (Ret b). cbn [mbind outcome_bind].
    match goal with |- context [deshapeLamAlef LamAlefAuto ?r b (len b)] =>
      change (deshapeLamAlef LamAlefAuto r b (len b)) with (deshapeLamAlefAuto b (len b) r) end.
    rewrite deshapeLamAlefAuto_latin. cbn [mbind outcome_bind]. by apply shapingRoutine_latin.
  - destruct (bool_decide _); [|done]. rewrite shapingRoutine_latin by done. cbn [mbind outcome_bind].
    rewrite shapeSeenNear_latin. cbn [mbind outcome_bind]. rewrite shapeYehHamza_latin. cbn [mbind outcome_bind]. done.
Qed.
End Latin.

(** * Properties *)

(** C35: Shaping always returns, whatever the text, the flags and the options:
    no index is out of range, and the routine that goes back to the lam of each
    ligature ends.  The text keeps its length, except with the option that
    resizes the buffer for ligatures. *)
Theorem shape_returns (inAttr outAttr : BidiFlagSet) (buffer : list Z) (optionSet : option ArabicOptionSet) :
  exists out, Shape inAttr outAttr buffer optionSet = Ret out /\
    (GetLamAlefMode (default NewArabicOptionSet optionSet) <> LamAlefResizeBuffer -> len out = len buffer).
Proof. exact (Shape_ok inAttr outAttr buffer optionSet). Qed.



(** ** Witnesses *)

(** Salam with a kasra and a space, and a Latin letter. *)
Definition arabicWord : list Z := [0x0633; 0x0650; 0x0644; 0x0645; 0x20; 0x0628; 0x0627; 0x41].

(** Slam with its ligature, which is in its final form, and the meem behind it
    isolated. *)
Definition salam : list Z := [0x0633; 0x0644; 0x0627; 0x0645].


(** With a fatha between the lam and the alef, the meem behind the ligature gets
    its final form (FEE2), although an alef does not join the letter after it:
    the form of the fatha, which is met again, counts as a joining letter. *)
Example vowelled_ligature_joins :
  shapingRoutine 0x01110101 0x03110103 [0x0633; 0x0644; 0x064E; 0x0627; 0x0645] true =
    Ret [0xFEB3; 0xFEFC; 0xFE76; 0xFEE2; 0x20].
Proof. by vm_compute. Qed.


Example arabicWord_shaped :
  shapingRoutine 0x01110101 0x03110103 arabicWord true = Ret [0xFEB3; 0xFE7B; 0xFEE0; 0xFEE2; 0x20; 0xFE91; 0xFE8E; 0x41].
Proof. by vm_compute. Qed.

(** A mark is not moved to the beginning of the text: a space takes its place
    there, and the mark is gone. *)
Example tashkeel_is_dropped : customizeTashkeelAtBegin [0x41; 0x42; 0xFE76; 0x43] 4 = Ret [0x20; 0x41; 0x42; 0x43].
Proof. by vm_compute. Qed.

(** The ligature at the head of a text gets its space from shaping, and
    deshaping does not look there. *)
Example first_ligature_stays :
  handleLamAlefNear [0xFEFB; 0x41; 0x20] 3 true = Ret [0xFEFB; 0x20; 0x41] /\
  deshapeLamAlefNear [0xFEFB; 0x20; 0x41] 3 = Ret [0xFEFB; 0x20; 0x41] /\
  deshapeLamAlefNear [0x41; 0xFEFB; 0x20] 3 = Ret [0x41; 0x0644; 0x0627].
Proof. by vm_compute. Qed.
