(* ===== verification/Bidi.v ===== *)
(** The bidirectional layout of texts (internal/bidi/text.go, as400transform.go,
    layout.go, properties.go): a transform reorders and then shapes; the
    conversions between the layout of a server's CCSID and the client's; and the
    functions that convert SQL statements and the names of columns.

    A transform object is made for each text, so its outputs start empty. *)
From Stdlib Require Import Strings.String.
From stdpp Require Import base list numbers.
From S2P Require Import Prelude Arrays BidiFlags BidiOrder BidiShape.
Open Scope Z_scope.

(** ** text.go: Transform *)

(** The shaped units take the place of the reordered ones. *)
Definition storeShaped (dst : bidiText) (sData : list Z) : outcome bidiText :=
  let count := len sData in
  if Offset dst =? 0 then Ret (mkText (textAttrs dst) (Some sData) 0 count)
  else if Offset dst + count <=? len (units dst) then
    part ← cut sData 0 count;
    data ← blit (units dst) (Offset dst) (Offset dst + count) part;
    Ret (mkText (textAttrs dst) (Some data) (Offset dst) count)
  else
    tmp ← makeSlice (Offset dst + count) 0;
    head ← cut (units dst) 0 (Offset dst);
    tmp ← blit tmp 0 (len tmp) head;
    part ← cut sData 0 count;
    tmp ← blit tmp (Offset dst) (len tmp) part;
    Ret (mkText (textAttrs dst) (Some tmp) (Offset dst) count).

Definition Transform (t : bidiText) (x : BidiTransform) : outcome (bidiText * BidiTransform) :=
  '(dst, m) ← order t (mkText (Flags x) None 0 0) (options x) (maps x);
  let x := mkTransform (Flags x) (options x) m in
  if bool_decide (GetText (textAttrs t) = GetText (textAttrs dst)) then Ret (dst, x)
  else
    sData ← (if (Offset dst =? 0) && (len (units dst) =? Count dst) then Ret (units dst) else ToCharArray dst);
    sData ← Shape (textAttrs t) (textAttrs dst) sData (Options (options x));
    dst ← storeShaped dst sData;
    Ret (dst, x).

Definition TransformFlags (t : bidiText) (dstFlags : BidiFlagSet) : outcome bidiText :=
  '(dst, _) ← Transform t (mkTransform dstFlags defaultOptions emptyMaps); Ret dst.

(** ** properties.go: copyOptionsTo *)

Definition expandOptions (p : Properties) : option ArabicOptionSet :=
  if ExpandLamAlef p then Some (SetOneOption 0 LamAlefResizeBuffer) else None.

Definition copyOptionsTo (p : Properties) (dst : BidiTransform) : BidiTransform :=
  mkTransform (shapedNumerals p (Flags dst))
    (mkOptions (negb (NoImplicitReordering p)) (NumericOrderingRoundTrip p) (PropWinCompatible p) (PropInsertMarkers p)
       (PropRemoveMarkers p) (Delimiters (options dst)) (expandOptions p) (PropWordBreak p) false false false)
    (maps dst).

(** ** as400transform.go *)

Record as400Transform := mkAS400 {
  as400Ccsid : Z;
  as400Type : Z;
  javaType : Z;
  bdxJ2A : BidiTransform;
  bdxA2J : BidiTransform;
}.

Definition withFlags (x : BidiTransform) (f : BidiFlagSet) : BidiTransform := mkTransform f (options x) (maps x).
Definition withRemoveMarkers (x : BidiTransform) (remove : bool) : BidiTransform :=
  let o := options x in
  mkTransform (Flags x)
    (mkOptions (ImpToImp o) (RoundTrip o) (WinCompatible o) (InsertMarkers o) remove (Delimiters o) (Options o) (WordBreak o)
       (SrcToDstMapRequired o) (DstToSrcMapRequired o) (PropertyMapRequired o))
    (maps x).

Definition flagSetCache : list BidiFlagSet := initFlagSet <$> seqZ 0 15.

Definition setAS400StringType (a : as400Transform) (stringType : Z) : as400Transform :=
  let flags := if (stringType <? 0) || (len flagSetCache <=? stringType) then initFlagSet stringType
               else nth (Z.to_nat stringType) flagSetCache 0 in
  mkAS400 (as400Ccsid a) stringType (javaType a) (withFlags (bdxJ2A a) flags) (bdxA2J a).

Definition setAS400Ccsid (a : as400Transform) (ccsid : Z) : as400Transform :=
  setAS400StringType (mkAS400 ccsid (as400Type a) (javaType a) (bdxJ2A a) (bdxA2J a)) (StringTypeForCCSID ccsid).

Definition setJavaStringType (a : as400Transform) (t : Z) : as400Transform :=
  mkAS400 (as400Ccsid a) (as400Type a) t (bdxJ2A a) (withFlags (bdxA2J a) (initFlagSet t)).

Definition newAS400Transform (ccsid : Z) : as400Transform :=
  let a := mkAS400 0 0 0 NewBidiTransform (withFlags NewBidiTransform (initFlagSet 0)) in
  setJavaStringType (setAS400Ccsid a ccsid) StringTypeDefault.

Definition setBidiConversionProperties (a : as400Transform) (p : Properties) : as400Transform :=
  let a := setJavaStringType a (StringType p) in
  let j2a := copyOptionsTo p (bdxJ2A a) in
  let a2j := copyOptionsTo p (bdxA2J a) in
  if RemoveMarksOnImplicitToVisual p
  then mkAS400 (as400Ccsid a) (as400Type a) (javaType a) (withRemoveMarkers j2a true) (withRemoveMarkers a2j false)
  else mkAS400 (as400Ccsid a) (as400Type a) (javaType a) j2a a2j.

(** No layout is applied: one of the string types is none, or they agree. *)
Definition sameLayout (a : as400Transform) : bool :=
  (as400Type a =? StringTypeNone) || (javaType a =? StringTypeNone) || (javaType a =? as400Type a).

Definition layoutCount (from : BidiFlagSet) (x : BidiTransform) (text : list Z) : outcome (list Z * Z) :=
  src ← NewBidiTextFromData from text;
  '(dst, _) ← Transform src x;
  Ret (units dst, Count dst).

Definition toJavaLayoutCount (a : as400Transform) (text : list Z) : outcome (list Z * Z) :=
  if sameLayout a then Ret (text, len text) else layoutCount (Flags (bdxJ2A a)) (bdxA2J a) text.
Definition toAS400LayoutCount (a : as400Transform) (text : list Z) : outcome (list Z * Z) :=
  if sameLayout a then Ret (text, len text) else layoutCount (Flags (bdxA2J a)) (bdxJ2A a) text.
Definition toJavaLayout (a : as400Transform) (text : list Z) : outcome (list Z) := fst <$> toJavaLayoutCount a text.
Definition toAS400Layout (a : as400Transform) (text : list Z) : outcome (list Z) := fst <$> toAS400LayoutCount a text.

(** The transform of a CCSID with the properties of a connection. *)
Definition conversionTransform (ccsid : Z) (p : Properties) : as400Transform :=
  setAS400StringType (setJavaStringType (setBidiConversionProperties (newAS400Transform ccsid) p) (StringType p))
    (StringTypeForCCSID ccsid).

Definition toLogicalCount (text : list Z) (ccsid : Z) (p : Properties) : outcome (list Z * Z) :=
  if StringType p =? StringTypeNone then Ret (text, len text)
  else toJavaLayoutCount (conversionTransform ccsid p) text.
Definition toHostCount (text : list Z) (ccsid : Z) (p : Properties) : outcome (list Z * Z) :=
  toAS400LayoutCount (conversionTransform ccsid p) text.
Definition ToLogical (text : list Z) (ccsid : Z) (p : Properties) : outcome (list Z) := fst <$> toLogicalCount text ccsid p.
Definition ToHost (text : list Z) (ccsid : Z) (p : Properties) : outcome (list Z) := fst <$> toHostCount text ccsid p.

(** ** layout.go: conversions *)

Definition padStaleTail (data : list Z) (valid : Z) : outcome (list Z) :=
  let valid := if valid <? 0 then 0 else valid in
  forRange valid (len data) (fun i d => put d i 0x20) data.

Definition ToLogicalPadded (text : list Z) (ccsid : Z) (p : Properties) : outcome (list Z) :=
  '(data, valid) ← toLogicalCount text ccsid p; padStaleTail data valid.
Definition ToHostPadded (text : list Z) (ccsid : Z) (p : Properties) : outcome (list Z) :=
  '(data, valid) ← toHostCount text ccsid p; padStaleTail data valid.

Record SystemInfo := mkSystem { Present : bool; SystemCCSID : Z; VRM : Z }.

Definition isBidiSystemCCSID (ccsid : Z) : bool :=
  existsb (Z.eqb ccsid)
    [420; 424; 425; 856; 862; 864; 867; 916; 1046; 1089; 1255; 1256; 5012; 5351; 5352;
     8612; 8616; 9238; 12708; 12712; 13488; 16804; 17248; 61952; 62208; 62209; 62210; 62211].

Definition StringTypeForSystem (ccsid : Z) (sys : SystemInfo) : Z :=
  if negb (Present sys) then StringTypeForCCSID ccsid
  else if (ccsid =? 13488) || (ccsid =? 1200) then
    let v5r1 := negb (VRM sys =? 0) && (Z.shiftr (VRM sys) 8 =? 0x0501) in
    if isBidiSystemCCSID (SystemCCSID sys) && negb v5r1 then 10 else 5
  else StringTypeForCCSID ccsid.

(** ** layout.go: statements *)

Definition noConversion (inFormat outFormat : Z) : bool :=
  (inFormat =? outFormat) || (inFormat =? StringTypeNone) || (outFormat =? StringTypeNone).

Definition TransformString (text : list Z) (inFormat outFormat : Z) : outcome (list Z) :=
  if noConversion inFormat outFormat then Ret text
  else
    let bdx := withRemoveMarkers (withFlags NewBidiTransform (initFlagSet outFormat)) true in
    src ← NewBidiTextFromData (initFlagSet inFormat) text;
    '(out, _) ← Transform src bdx;
    cut (units out) (Offset out) (Offset out + Count out).

Definition replaceRange (value : list Z) (start end_ : Z) (repl : list Z) : outcome (list Z) :=
  front ← cut value 0 start; back ← cut value end_ (len value); Ret (front ++ repl ++ back).

(** [value[start:end]] in the other layout. *)
Definition reorderRange (value : list Z) (start end_ inFormat outFormat : Z) : outcome (list Z) :=
  part ← cut value start end_;
  repl ← TransformString part inFormat outFormat;
  replaceRange value start end_ repl.

Record scan := mkScan { value : list Z; into : bool; scanAt : Z; scanStart : Z }.

(** A turn of the scan of literals. *)
Definition literalTurn (inFormat outFormat : Z) (s : scan) : outcome scan :=
  u ← at_ (value s) (scanAt s);
  s ← (if into s && ((u =? 10) || (u =? 13)) then
         v ← reorderRange (value s) (scanStart s) (scanAt s) inFormat outFormat;
         Ret (mkScan v (into s) (scanAt s) (scanAt s + 1))
       else Ret s);
  u ← at_ (value s) (scanAt s);
  if u =? 39 then
    if into s then
      doubled ← (if scanAt s + 1 <? len (value s) then w ← at_ (value s) (scanAt s + 1); Ret (w =? 39) else Ret false);
      if doubled : bool then Ret (mkScan (value s) true (scanAt s + 2) (scanStart s))
      else
        v ← reorderRange (value s) (scanStart s) (scanAt s) inFormat outFormat;
        Ret (mkScan v false (scanAt s + 1) 0)
    else Ret (mkScan (value s) true (scanAt s + 1) (scanAt s + 1))
  else Ret (mkScan (value s) (into s) (scanAt s + 1) (scanStart s)).

(** A turn of the scan of quoted names. *)
Definition nameTurn (inFormat outFormat : Z) (s : scan) : outcome scan :=
  u ← at_ (value s) (scanAt s);
  if u =? 34 then
    if into s then
      v ← reorderRange (value s) (scanStart s) (scanAt s) inFormat outFormat;
      Ret (mkScan v false (scanAt s + 1) 0)
    else Ret (mkScan (value s) true (scanAt s + 1) (scanAt s + 1))
  else Ret (mkScan (value s) (into s) (scanAt s + 1) (scanStart s)).

(** The scan: a transformed part has no more units than before, so the length
    bounds the turns. *)
Fixpoint scanLoop (fuel : nat) (turn : scan -> outcome scan) (s : scan) : outcome (list Z) :=
  match fuel with
  | O => Panic
  | S fuel' => if scanAt s <? len (value s) then s ← turn s; scanLoop fuel' turn s else Ret (value s)
  end.

Definition SQLStatementReordering (sql : list Z) (inFormat outFormat : Z) : outcome (list Z) :=
  if noConversion inFormat outFormat then Ret sql
  else scanLoop (S (length sql)) (literalTurn inFormat outFormat) (mkScan sql false 0 0).

Definition MetaDataReordering (sql : list Z) (inFormat outFormat : Z) : outcome (list Z) :=
  if noConversion inFormat outFormat then Ret sql
  else scanLoop (S (length sql)) (nameTurn inFormat outFormat) (mkScan sql false 0 0).

Definition systemType (sys : SystemInfo) : Z := if Present sys then StringTypeForCCSID (SystemCCSID sys) else 4.

Definition ConvertSQLToHost (sql : list Z) (bidiType packageCCSID : Z) (implicitReordering : bool) (sys : SystemInfo)
    : outcome (list Z) :=
  let hostType := systemType sys in
  if (bidiType =? StringTypeNone) || (hostType =? StringTypeNone) then Ret sql
  else
    let packageType := StringTypeForSystem packageCCSID sys in
    value ← (if implicitReordering then MetaDataReordering sql bidiType hostType else Ret sql);
    SQLStatementReordering value bidiType packageType.

Definition ConvertDataFromHost (text : list Z) (bidiType hostCCSID : Z) (sys : SystemInfo) : outcome (list Z) :=
  let hostType := StringTypeForSystem hostCCSID sys in
  let hostType := if hostType =? 0 then systemType sys else hostType in
  if negb (bidiType =? 0) && negb (hostType =? 0) then TransformString text hostType bidiType else Ret text.

(** * Lemmas *)

(** ** Transforms *)

Lemma newText flags text : NewBidiTextFromData flags text = Ret (sourceText flags text).
Proof.
  unfold NewBidiTextFromData, NewBidiTextFromRange. pose proof (len_nonneg text).
  rewrite (proj2 (Z.ltb_ge _ _)) by lia. unfold makeSlice. rewrite (proj2 (Z.leb_le _ _)) by lia. cbn [mbind outcome_bind].
  rewrite (cut_all text) by lia. cbn [mbind outcome_bind]. unfold blit.
  rewrite len_replicate, Z2Nat.id, !(proj2 (Z.leb_le _ _)) by lia. cbn [andb mbind outcome_bind].
  rewrite Z.sub_0_r, Z.min_id. change (Z.to_nat 0) with O. cbn [take app]. rewrite (take_ge text) by (unfold len; lia).
  rewrite drop_ge by (rewrite length_replicate; lia). by rewrite app_nil_r.
Qed.

(** The options that keep the number of units. *)
Record keepingOptions (o : transformOptions) : Prop := {
  keeping_insert : InsertMarkers o = false;
  keeping_map : SrcToDstMapRequired o = false;
  keeping_property : PropertyMapRequired o = false;
  keeping_lamalef : GetLamAlefMode (default NewArabicOptionSet (Options o)) <> LamAlefResizeBuffer;
}.

Lemma Transform_ok text f g o : keepingOptions o ->
  yields (Transform (sourceText f text) (mkTransform g o emptyMaps)) (fun '(dst, _) =>
    Offset dst = 0 /\ 0 <= Count dst <= len (units dst) /\ len (units dst) <= len text /\
    (RemoveMarkers o = false -> Count dst = len text /\ len (units dst) = len text)).
Proof.
  intros [Hi Hs Hp Hl]. unfold Transform. cbn [Flags options maps].
  destruct (order_spec text f g o Hi Hs Hp) as (data & m & map & out & E & Hperm & Hr & Hcount & _ & Hdata).
  change (mkText g None 0 0) with (emptyText g). rewrite E. cbn [mbind outcome_bind]. cbn [textAttrs sourceText Offset Count units].
  change (units (mkText g (Some data) 0 (OutCount m))) with data.
  apply Forall2_length in Hr. unfold unitsAt in Hr. rewrite length_fmap, (Permutation_length Hperm), length_identityMap in Hr.
  assert (0 <= OutCount m <= len text /\ (RemoveMarkers o = false -> OutCount m = len text)) as [Hc Hk].
  { rewrite Hcount. unfold len. destruct (RemoveMarkers o); [|lia]. split; [|done].
    unfold withoutMarks. pose proof (List.filter_length_le (fun c => negb (isMark c)) out). lia. }
  assert (len data = len text) as Hdl by (unfold len; lia).
  apply yields_if; intros _.
  { apply yields_Ret. cbn [Offset Count]. change (units (mkText g (Some data) 0 (OutCount m))) with data.
    split_and!; try lia. intros Hm. split; [by apply Hk|done]. }
  apply yields_bind. apply (yields_weaken _ (fun sData => len sData = OutCount m)).
  { apply yields_if; intros Ed; [apply yields_Ret; lia|]. unfold ToCharArray. cbn [Count Offset].
    change (units (mkText g (Some data) 0 (OutCount m))) with data.
    apply yields_bind, yields_make; [lia|]. apply yields_bind, yields_cut; [lia|lia|].
    unfold blit. rewrite len_replicate, Z2Nat.id, !(proj2 (Z.leb_le _ _)) by lia. apply yields_Ret. cbn [andb].
    unfold len in *. repeat rewrite ?length_app, ?length_take, ?length_drop, ?length_replicate. lia. }
  intros sData Hsd. apply yields_bind. eapply yields_weaken; [apply Shape_ok|]. intros b Hb.
  specialize (Hb Hl). cbn beta in Hb.
  apply yields_bind. unfold storeShaped. cbn [Offset]. change (0 =? 0) with true. cbn iota. apply yields_Ret. apply yields_Ret.
  cbn [Offset Count]. change (units (mkText (textAttrs (mkText g (Some data) 0 (OutCount m))) (Some b) 0 (len b))) with b.
  split_and!; try lia. intros Hm. rewrite Hb, Hsd. auto.
Qed.

Lemma default_keeps : keepingOptions defaultOptions.
Proof. split; done. Qed.

(** ** Left-to-right text *)

Lemma latin_leftToRight u : latinUnit u -> leftToRight u.
Proof.
  intros Hu. unfold latinUnit in Hu.
  assert (forallb (fun u => bool_decide (getChType u ∉ [ubatR; ubatAL; ubatAN]) && negb (u =? lrm)) (seqZ 0 0x590) = true) as H by by vm_compute.
  rewrite forallb_forall in H. specialize (H u). rewrite andb_true_iff, bool_decide_eq_true, negb_true_iff, Z.eqb_neq in H.
  apply H. apply list_elem_of_In, elem_of_seqZ. lia.
Qed.

(** The flag sets of the string types. *)
Definition stringTypeFlags (f : BidiFlagSet) : Prop := GetNumerals f <> numeralsNational /\ GetText f ∈ [textNominal; textShaped].

Lemma initFlagSet_flags t : stringTypeFlags (initFlagSet t).
Proof. unfold initFlagSet. repeat case_match; (split; [by vm_compute|apply (bool_decide_unpack _); by vm_compute]). Qed.

(** The string types whose orientation is left-to-right, or contextual with that
    default: all but 6, 8, 9 and 11. *)
Definition ltrType (t : Z) : bool := negb (existsb (Z.eqb t) [6; 8; 9; 11]).

Lemma initFlagSet_ltr t : ltrType t = true -> ltrOriented (initFlagSet t).
Proof.
  unfold ltrType. cbn [existsb]. intros H. unfold initFlagSet, ltrOriented.
  destruct (t =? 4); [by left|]. destruct (t =? 5); [by left|]. destruct (t =? 6); [done|]. destruct (t =? 7); [by right|].
  destruct (t =? 8); [done|]. destruct (t =? 9); [done|]. destruct (t =? 10); [by right|]. destruct (t =? 11); [done|by left].
Qed.

(** The options that leave left-to-right text alone. *)
Record latinOptions (o : transformOptions) : Prop := {
  latin_insert : InsertMarkers o = false;
  latin_windows : WinCompatible o = false;
  latin_map : SrcToDstMapRequired o = false;
  latin_property : PropertyMapRequired o = false;
  latin_options : Options o = None;
}.

Lemma Transform_latin text f g o : latinOptions o -> ltrOriented f -> ltrOriented g -> stringTypeFlags g ->
  Forall latinUnit text -> len text <= 30000 ->
  yields (Transform (sourceText f text) (mkTransform g o emptyMaps)) (fun '(dst, _) => dst = mkText g (Some text) 0 (len text)).
Proof.
  intros [Hi Hw Hs Hp Ho] Hf Hg [Hn Ht] Hl Hlen. unfold Transform. cbn [Flags options maps].
  assert (Forall leftToRight text) as Hltr by exact (List.Forall_impl _ latin_leftToRight Hl).
  destruct (order_ltr text f g o Hf Hg Hn Hi Hw Hs Hp Hltr) as (m & E). change (mkText g None 0 0) with (emptyText g).
  rewrite E. cbn [mbind outcome_bind]. cbn [textAttrs sourceText Offset Count].
  change (units (mkText g (Some text) 0 (len text))) with text.
  apply yields_if; intros _; [by apply yields_Ret|].
  rewrite !Z.eqb_refl. cbn [andb]. apply yields_bind, yields_Ret.
  rewrite Ho, Shape_latin by done. apply yields_bind, yields_Ret. apply yields_bind.
  unfold storeShaped. cbn [Offset textAttrs]. change (0 =? 0) with true. cbn iota. apply yields_Ret. by apply yields_Ret.
Qed.

Lemma padStaleTail_ok data valid : yields (padStaleTail data valid) (fun out => len out = len data).
Proof.
  unfold padStaleTail. set (v := if valid <? 0 then 0 else valid). assert (0 <= v) by (subst v; destruct (Z.ltb_spec valid 0); lia).
  destruct (decide (v <= len data)); [|apply yields_for_empty; [lia|done]].
  apply yields_for with (I := fun _ d => len d = len data); [done|done| |done].
  intros i d Hi Hd. apply yields_put; [lia|by rewrite len_insert].
Qed.

Lemma padStaleTail_full data : padStaleTail data (len data) = Ret data.
Proof.
  unfold padStaleTail. pose proof (len_nonneg data). rewrite (proj2 (Z.ltb_ge _ _)) by lia.
  unfold forRange. by rewrite Z.sub_diag.
Qed.

(** ** Conversions *)

Lemma setAS400StringType_spec a t :
  setAS400StringType a t = mkAS400 (as400Ccsid a) t (javaType a) (withFlags (bdxJ2A a) (initFlagSet t)) (bdxA2J a).
Proof.
  unfold setAS400StringType. f_equal. f_equal. change (len flagSetCache) with 15. destruct ((t <? 0) || (15 <=? t)) eqn:E; [done|].
  apply nth_lookup_Some. unfold flagSetCache. rewrite list_lookup_fmap, lookup_seqZ_lt by lia. cbn [fmap option_fmap option_map]. do 2 f_equal. lia.
Qed.

Lemma newAS400Transform_spec ccsid :
  newAS400Transform ccsid = mkAS400 ccsid (StringTypeForCCSID ccsid) 0
    (mkTransform (initFlagSet (StringTypeForCCSID ccsid)) defaultOptions emptyMaps)
    (mkTransform (initFlagSet 0) defaultOptions emptyMaps).
Proof. unfold newAS400Transform, setAS400Ccsid. by rewrite setAS400StringType_spec. Qed.

(** The transform of a conversion: the flags are those of the string types, the
    options those of the properties. *)
Definition conversionOptions (p : Properties) (remove : bool) : transformOptions :=
  mkOptions (negb (NoImplicitReordering p)) (NumericOrderingRoundTrip p) (PropWinCompatible p) (PropInsertMarkers p)
    remove [] (expandOptions p) (PropWordBreak p) false false false.

Lemma setProperties_spec c t j f g p :
  setBidiConversionProperties (mkAS400 c t j (mkTransform f defaultOptions emptyMaps) (mkTransform g defaultOptions emptyMaps)) p =
    mkAS400 c t (StringType p)
      (mkTransform (shapedNumerals p f) (conversionOptions p (PropRemoveMarkers p || RemoveMarksOnImplicitToVisual p)) emptyMaps)
      (mkTransform (shapedNumerals p (initFlagSet (StringType p)))
         (conversionOptions p (PropRemoveMarkers p && negb (RemoveMarksOnImplicitToVisual p))) emptyMaps).
Proof.
  unfold setBidiConversionProperties, setJavaStringType, withFlags, copyOptionsTo, withRemoveMarkers, conversionOptions.
  destruct (RemoveMarksOnImplicitToVisual p); cbn [as400Ccsid as400Type javaType bdxJ2A bdxA2J Flags options maps];
    by rewrite ?orb_true_r, ?orb_false_r, ?andb_false_r, ?andb_true_r.
Qed.

(** The numerals of the properties are lost: both flag sets are replaced after
    the properties are set. *)
Lemma conversionTransform_spec ccsid p :
  conversionTransform ccsid p =
    mkAS400 ccsid (StringTypeForCCSID ccsid) (StringType p)
      (mkTransform (initFlagSet (StringTypeForCCSID ccsid))
         (conversionOptions p (PropRemoveMarkers p || RemoveMarksOnImplicitToVisual p)) emptyMaps)
      (mkTransform (initFlagSet (StringType p))
         (conversionOptions p (PropRemoveMarkers p && negb (RemoveMarksOnImplicitToVisual p))) emptyMaps).
Proof.
  unfold conversionTransform. by rewrite newAS400Transform_spec, setProperties_spec, setAS400StringType_spec.
Qed.

(** The properties that keep the number of units. *)
Definition keepingProperties (p : Properties) : bool := negb (PropInsertMarkers p) && negb (ExpandLamAlef p).
Definition removesMarkers (p : Properties) : bool := PropRemoveMarkers p || RemoveMarksOnImplicitToVisual p.

Lemma conversionOptions_keep p r : keepingProperties p = true -> keepingOptions (conversionOptions p r).
Proof.
  unfold keepingProperties. intros H. apply andb_prop in H as [H1 H2]. apply negb_true_iff in H1, H2.
  split; try done. cbn. unfold expandOptions. by rewrite H2.
Qed.

Lemma layoutCount_ok f g o text : keepingOptions o ->
  yields ('(data, valid) ← layoutCount f (mkTransform g o emptyMaps) text; padStaleTail data valid) (fun out =>
    len out <= len text /\ (RemoveMarkers o = false -> len out = len text)).
Proof.
  intros Hk. unfold layoutCount. apply yields_bind. rewrite newText. cbn [mbind outcome_bind]. apply yields_bind.
  eapply yields_weaken; [by apply Transform_ok|]. intros [dst x] (_ & _ & Hle & Hm). apply yields_Ret.
  eapply yields_weaken; [apply padStaleTail_ok|]. intros out ->. split; [done|]. intros Hr. by apply Hm in Hr as [_ ->].
Qed.

Lemma padded_same text : padStaleTail text (len text) = Ret text.
Proof. apply padStaleTail_full. Qed.

Lemma paddedLayouts_ok text ccsid p : keepingProperties p = true ->
  let fits (m : outcome (list Z)) := yields m (fun out => len out <= len text /\ (removesMarkers p = false -> len out = len text)) in
  fits (ToHostPadded text ccsid p) /\ fits (ToLogicalPadded text ccsid p).
Proof.
  intros Hp fits. assert (fits (Ret text)) as Hsame by (apply yields_Ret; split; [lia|done]).
  unfold ToHostPadded, ToLogicalPadded, toHostCount, toLogicalCount, toAS400LayoutCount, toJavaLayoutCount.
  rewrite conversionTransform_spec. cbn [Flags bdxA2J bdxJ2A]. unfold removesMarkers in *. split.
  - destruct (sameLayout _); [cbn [mbind outcome_bind]; by rewrite padded_same|].
    eapply yields_weaken; [by apply layoutCount_ok, conversionOptions_keep|]. cbn [RemoveMarkers conversionOptions]. done.
  - destruct (StringType p =? StringTypeNone); [cbn [mbind outcome_bind]; by rewrite padded_same|].
    destruct (sameLayout _); [cbn [mbind outcome_bind]; by rewrite padded_same|].
    eapply yields_weaken; [by apply layoutCount_ok, conversionOptions_keep|]. cbn [RemoveMarkers conversionOptions].
    intros out [Hle Hm]. split; [done|]. intros Hr. apply Hm. apply orb_false_iff in Hr as [-> _]. done.
Qed.

(** The properties that leave left-to-right text alone. *)
Definition latinProperties (p : Properties) : bool :=
  negb (PropInsertMarkers p) && negb (PropWinCompatible p) && negb (ExpandLamAlef p) && ltrType (StringType p).

Lemma conversionOptions_latin p r : latinProperties p = true -> latinOptions (conversionOptions p r).
Proof.
  unfold latinProperties. intros H. apply andb_prop in H as [H _]. apply andb_prop in H as [H H3]. apply andb_prop in H as [H1 H2].
  apply negb_true_iff in H1, H2, H3. split; try done. cbn. unfold expandOptions. by rewrite H3.
Qed.

Lemma layoutCount_latin a b o text : latinOptions o -> ltrType a = true -> ltrType b = true ->
  Forall latinUnit text -> len text <= 30000 ->
  layoutCount (initFlagSet a) (mkTransform (initFlagSet b) o emptyMaps) text = Ret (text, len text).
Proof.
  intros Ho Ha Hb Hl Hlen. unfold layoutCount. rewrite newText. cbn [mbind outcome_bind].
  destruct (Transform_latin text (initFlagSet a) (initFlagSet b) o Ho) as ([dst x] & -> & ->); try done;
    auto using initFlagSet_ltr, initFlagSet_flags.
Qed.

Lemma paddedLayouts_latin text ccsid p : latinProperties p = true -> ltrType (StringTypeForCCSID ccsid) = true ->
  Forall latinUnit text -> len text <= 30000 ->
  ToHostPadded text ccsid p = Ret text /\ ToLogicalPadded text ccsid p = Ret text.
Proof.
  intros Hp Hc Hl Hlen. assert (ltrType (StringType p) = true) as Ht by (unfold latinProperties in Hp; by apply andb_prop in Hp as [_ ?]).
  unfold ToHostPadded, ToLogicalPadded, toHostCount, toLogicalCount, toAS400LayoutCount, toJavaLayoutCount.
  rewrite conversionTransform_spec. cbn [Flags bdxA2J bdxJ2A].
  rewrite !layoutCount_latin by (done || by apply conversionOptions_latin).
  split; repeat case_match; cbn [mbind outcome_bind]; apply padded_same.
Qed.

(** ** Statements *)

Lemma TransformString_latin text a b : ltrType a = true -> ltrType b = true -> Forall latinUnit text -> len text <= 30000 ->
  TransformString text a b = Ret text.
Proof.
  intros Ha Hb Hl Hlen. unfold TransformString. destruct (noConversion a b); [done|].
  rewrite newText. cbn [mbind outcome_bind].
  change (withRemoveMarkers (withFlags NewBidiTransform (initFlagSet b)) true) with
    (mkTransform (initFlagSet b) (mkOptions true false false false true [] None false false false false) emptyMaps).
  destruct (Transform_latin text (initFlagSet a) (initFlagSet b) (mkOptions true false false false true [] None false false false false))
    as ([dst x] & -> & ->); try done; auto using initFlagSet_ltr, initFlagSet_flags.
  cbn [mbind outcome_bind Offset Count]. change (units _) with text. by apply cut_all.
Qed.

Lemma cut_front {A} (l : list A) hi : 0 <= hi <= len l -> cut l 0 hi = Ret (take (Z.to_nat hi) l).
Proof. intros H. unfold cut. rewrite !(proj2 (Z.leb_le _ _)) by lia. cbn [andb]. by rewrite Z.sub_0_r. Qed.

Lemma replaceRange_same value start end_ : 0 <= start <= end_ -> end_ <= len value ->
  exists part, cut value start end_ = Ret part /\ replaceRange value start end_ part = Ret value.
Proof.
  intros H1 H2. destruct (yields_cut value start end_ (fun part => part = take (Z.to_nat (end_ - start)) (drop (Z.to_nat start) value)))
    as (part & E & ->); [done|done|done|]. eexists. split; [exact E|].
  unfold replaceRange. rewrite cut_front by lia. cbn [mbind outcome_bind]. unfold cut.
  rewrite !(proj2 (Z.leb_le _ _)) by lia. cbn [andb mbind outcome_bind]. f_equal.
  rewrite (take_ge (drop (Z.to_nat end_) value)) by (rewrite length_drop; unfold len in *; lia).
  rewrite <- (take_drop (Z.to_nat start) value) at 4. f_equal.
  rewrite <- (take_drop (Z.to_nat (end_ - start)) (drop (Z.to_nat start) value)) at 2. f_equal. rewrite drop_drop. f_equal. lia.
Qed.

Section LatinStatements.
Context (sql : list Z) (a b : Z).
Hypothesis latin : Forall latinUnit sql.
Hypothesis short : len sql <= 30000.
Hypothesis ltrFrom : ltrType a = true.
Hypothesis ltrTo : ltrType b = true.

Lemma reorderRange_latin start end_ : 0 <= start <= end_ -> end_ <= len sql -> reorderRange sql start end_ a b = Ret sql.
Proof.
  intros H1 H2. unfold reorderRange. destruct (replaceRange_same sql start end_ H1 H2) as (part & E & Er). rewrite E.
  cbn [mbind outcome_bind]. unfold cut in E. rewrite !(proj2 (Z.leb_le _ _)) in E by lia. cbn [andb] in E. apply Ret_inj in E. subst part.
  rewrite TransformString_latin; try done.
  - by apply Forall_take, Forall_drop.
  - unfold len in *. rewrite length_take, length_drop. lia.
Qed.

(** The scan has changed nothing, and the literal it is in starts before it. *)
Definition scanning (s : scan) : Prop :=
  value s = sql /\ 0 <= scanAt s /\ (into s = true -> 0 <= scanStart s <= scanAt s).

Definition turnOk (turn : scan -> outcome scan) : Prop := forall s, scanning s -> scanAt s < len sql ->
  yields (turn s) (fun s' => scanning s' /\ scanAt s < scanAt s').

Lemma scanLoop_latin turn fuel s : turnOk turn -> scanning s -> len sql - scanAt s < Z.of_nat fuel -> 0 < Z.of_nat fuel ->
  scanLoop fuel turn s = Ret sql.
Proof.
  intros Hturn. revert s. induction fuel as [|fuel IH]; intros s Hs Hf Hpos; [lia|]. cbn [scanLoop].
  pose proof Hs as (Hv & Hi & Hin). rewrite Hv. destruct (Z.ltb_spec (scanAt s) (len sql)); [|done].
  destruct (Hturn s) as (s' & -> & Hs' & Hlt); [done|done|]. cbn [mbind outcome_bind]. apply IH; [done|lia|lia].
Qed.

Ltac scanning_tac :=
  split_and!; cbn; [done|lia|]; let H := fresh in intros H; try done;
  try match goal with Hin : ?e = true -> _ |- _ => specialize (Hin H) end; lia.

Lemma literalTurn_latin : turnOk (literalTurn a b).
Proof.
  intros [v inside i start] (Hv & Hi & Hin) Hlt. cbn [value into scanAt scanStart] in *. subst v. unfold literalTurn.
  cbn [value into scanAt scanStart]. apply yields_bind, yields_at; [lia|]. intros u Hu. apply yields_bind.
  assert (forall s, scanning s -> scanAt s = i + 1 -> yields (Ret s) (fun s' => scanning s' /\ i < scanAt s')) as Hdone.
  { intros s Hs Ha. apply yields_Ret. split; [done|lia]. }
  destruct (inside && ((u =? 10) || (u =? 13))) eqn:Hc.
  - apply andb_prop in Hc as [-> Hc]. specialize (Hin eq_refl). rewrite reorderRange_latin by lia. apply yields_bind, yields_Ret, yields_Ret.
    cbn [value into scanAt scanStart]. apply yields_bind. rewrite (at_Some _ _ u) by (done || lia). apply yields_Ret.
    rewrite (proj2 (Z.eqb_neq u 39)) by lia. apply Hdone; [scanning_tac|done].
  - apply yields_Ret. cbn [value into scanAt scanStart]. apply yields_bind. rewrite (at_Some _ _ u) by (done || lia). apply yields_Ret.
    apply yields_if; intros _; [|apply Hdone; [scanning_tac|done]].
    destruct inside; [|apply Hdone; [scanning_tac|done]].
    apply yields_bind, (yields_weaken _ (fun _ => True)).
    { apply yields_if; intros ?; [apply yields_bind, yields_at; [lia|]; intros w _|]; by apply yields_Ret. }
    intros [|] _; [apply yields_Ret; split; [scanning_tac|cbn; lia]|].
    specialize (Hin eq_refl). rewrite reorderRange_latin by lia. apply yields_bind, yields_Ret. apply Hdone; [scanning_tac|done].
Qed.

Lemma nameTurn_latin : turnOk (nameTurn a b).
Proof.
  intros [v inside i start] (Hv & Hi & Hin) Hlt. cbn [value into scanAt scanStart] in *. subst v. unfold nameTurn.
  cbn [value into scanAt scanStart]. apply yields_bind, yields_at; [lia|]. intros u Hu.
  apply yields_if; intros _; [|apply yields_Ret; split; [scanning_tac|cbn; lia]].
  destruct inside; [|apply yields_Ret; split; [scanning_tac|cbn; lia]].
  specialize (Hin eq_refl). rewrite reorderRange_latin by lia. apply yields_bind, yields_Ret, yields_Ret. split; [scanning_tac|cbn; lia].
Qed.

Lemma reorderings_latin : SQLStatementReordering sql a b = Ret sql /\ MetaDataReordering sql a b = Ret sql.
Proof.
  unfold SQLStatementReordering, MetaDataReordering. destruct (noConversion a b); [done|].
  assert (scanning (mkScan sql false 0 0)) as Hs by done.
  split; apply scanLoop_latin; (apply literalTurn_latin || apply nameTurn_latin || done || (unfold len; cbn; lia)).
Qed.
End LatinStatements.

Lemma ltrType_system sys ccsid : ltrType (StringTypeForCCSID ccsid) = true -> ltrType (StringTypeForSystem ccsid sys) = true.
Proof. intros H. unfold StringTypeForSystem. by repeat case_match. Qed.

(** * Properties *)

(** A layout neither fails nor grows a text.  For every text, CCSID and
    properties (but inserted markers and expanded ligatures), both conversions of
    the driver return, with no more units than the text has, and exactly as many
    unless markers are removed: what is encoded after it fits the field. *)
Theorem padded_layout_fits (text : list Z) (ccsid : Z) (p : Properties) :
  keepingProperties p = true ->
  exists host logical,
    ToHostPadded text ccsid p = Ret host /\ ToLogicalPadded text ccsid p = Ret logical /\
    len host <= len text /\ len logical <= len text /\
    (removesMarkers p = false -> len host = len text /\ len logical = len text).
Proof.
  intros Hp. destruct (paddedLayouts_ok text ccsid p Hp) as [(host & E1 & H1 & H2) (logical & E2 & H3 & H4)].
  exists host, logical. split_and!; auto.
Qed.

(** Latin data is stored as it is.  When neither the connection's string
    type nor the CCSID's is right-to-left, text without right-to-left letters goes
    through both conversions, reordering and shaping included, unchanged. *)
Theorem latin_text_keeps_layout (text : list Z) (ccsid : Z) (p : Properties) :
  latinProperties p = true -> ltrType (StringTypeForCCSID ccsid) = true ->
  Forall latinUnit text -> len text <= 30000 ->
  ToHostPadded text ccsid p = Ret text /\ ToLogicalPadded text ccsid p = Ret text.
Proof. apply paddedLayouts_latin. Qed.

(** A Latin statement is sent as it is: neither the scan of quoted names nor
    the scan of literals, over line breaks and doubled quotes, fails or changes a
    statement of such text. *)
Theorem latin_statement_kept (sql : list Z) (bidiType packageCCSID : Z) (implicitReordering : bool) (sys : SystemInfo) :
  ltrType bidiType = true -> ltrType (StringTypeForCCSID packageCCSID) = true -> ltrType (systemType sys) = true ->
  Forall latinUnit sql -> len sql <= 30000 ->
  ConvertSQLToHost sql bidiType packageCCSID implicitReordering sys = Ret sql.
Proof.
  intros Hb Hp Hs Hl Hlen. unfold ConvertSQLToHost. cbn zeta. destruct (_ || _); [done|].
  apply (ltrType_system sys) in Hp.
  destruct (reorderings_latin sql bidiType (systemType sys) Hl Hlen Hb Hs) as [_ ->].
  destruct (reorderings_latin sql bidiType (StringTypeForSystem packageCCSID sys) Hl Hlen Hb Hp) as [E _].
  by destruct implicitReordering.
Qed.

(** ** Witnesses *)

Definition hebrewServer : SystemInfo := mkSystem true 424 0x70500.

Lemma padded_layout_fits_witness :
  exists host logical, ToHostPadded hebrewLine 424 DefaultProperties = Ret host /\ ToLogicalPadded hebrewLine 424 DefaultProperties = Ret logical /\
    len host <= 9 /\ len logical <= 9 /\ (false = false -> len host = 9 /\ len logical = 9).
Proof. exact (padded_layout_fits hebrewLine 424 DefaultProperties eq_refl). Defined.

Lemma latin_text_keeps_layout_witness :
  ToHostPadded (lit "Name (1)") 420 DefaultProperties = Ret (lit "Name (1)") /\
  ToLogicalPadded (lit "Name (1)") 420 DefaultProperties = Ret (lit "Name (1)").
Proof.
  apply (latin_text_keeps_layout (lit "Name (1)") 420 DefaultProperties); [by vm_compute..| |by vm_compute].
  apply (bool_decide_unpack (Forall (fun u => 0 <= u < 0x590) _)). by vm_compute.
Defined.

Definition latinStatement : list Z := lit "SELECT 'it''s' FROM t WHERE n = 'a" ++ [10] ++ lit "b'".

Lemma latin_statement_kept_witness : ConvertSQLToHost latinStatement 5 13488 true hebrewServer = Ret latinStatement.
Proof.
  apply (latin_statement_kept latinStatement 5 13488 true hebrewServer); [by vm_compute..| |by vm_compute].
  apply (bool_decide_unpack (Forall (fun u => 0 <= u < 0x590) _)). by vm_compute.
Defined.

(** The conversions of such a server are not the identity. *)
Example hebrew_is_reordered :
  ToHostPadded [65; 32; 0x5D0; 0x28; 0x5D1] 424 DefaultProperties = Ret [65; 32; 0x5D1; 0x29; 0x5D0] /\
  ToLogicalPadded [65; 32; 0x5D1; 0x29; 0x5D0] 424 DefaultProperties = Ret [65; 32; 0x5D0; 0x28; 0x5D1].
Proof. by vm_compute. Qed.

(** A literal with a directional mark and a line break: the mark is removed, the
    statement is shorter, and the scan goes on at the old place.  Here the start of
    the rest of the literal lies beyond its end, and the slice is out of range. *)
Example marked_literal_panics :
  ConvertSQLToHost [39; 0x200E; 10; 39] 5 13488 true hebrewServer = Panic /\
  ConvertSQLToHost [39; 0x200E; 39] 5 13488 true hebrewServer = Ret [39; 39].
Proof. by vm_compute. Qed.

(** The numerals of the properties have no effect on a conversion. *)
Lemma numerals_are_lost (ccsid numerals : Z) (p : Properties) :
  conversionTransform ccsid (mkProperties (StringType p) (NoImplicitReordering p) (NumericOrderingRoundTrip p) (PropWinCompatible p)
    (PropInsertMarkers p) (PropRemoveMarkers p) (RemoveMarksOnImplicitToVisual p) (PropWordBreak p) numerals (ExpandLamAlef p)) =
  conversionTransform ccsid p.
Proof. by rewrite !conversionTransform_spec. Qed.
