(* ===== verification/BidiSettings.v ===== *)
(** The bidirectional settings of a connection (bidi_settings.go): the layout of
    column data, of statements and of column names.  These are the instances of
    the interfaces [BidiText] and [BidiLayout] that the rest of the development
    is stated against. *)
From Stdlib Require Import Strings.String.
From stdpp Require Import base list numbers strings.
From S2P Require Import Prelude GoStrings Utf Ccsid Config Columns Attributes Package Session Sqlca BidiFlags BidiShape Bidi.
Open Scope Z_scope.

(** [bidiSettings.properties]. *)
Definition settingsProperties (bs : bidiOptions) (id : Z) : Properties :=
  let stringType := if BidiStringType bs =? bidiStringTypeNotSet then StringTypeForCCSID id else BidiStringType bs in
  mkProperties stringType (negb (BidiImplicitReordering bs)) (BidiNumericOrdering bs) false false false false false 0 false.

#[export] Instance driverText : BidiText := {|
  toLogicalLayout units ccsidID bs := ToLogicalPadded units ccsidID (settingsProperties bs ccsidID);
  toHostLayout units ccsidID bs := ToHostPadded units ccsidID (settingsProperties bs ccsidID);
|}.

Definition bidiSystemInfo (c : Conn) : Bidi.SystemInfo :=
  match systemInfo c with
  | None => mkSystem false 0 0
  | Some s => mkSystem true (ServerCCSID s) (ServerVersion s)
  end.

Definition bidiPackageCCSID (c : Conn) : Z :=
  let o := Config.Packages (cfg c) in
  if PackageCCSIDSystem o then SystemCCSID (bidiSystemInfo c)
  else if PackageCCSID o <=? 0 then Request.defaultPackageCCSID
  else PackageCCSID o.

(** The statement itself when no unit changes, so that what is not valid UTF-8
    is kept. *)
Definition statementLayout (c : Conn) (query : bytes) : outcome bytes :=
  let bs := Bidi (cfg c) in
  if BidiStringType bs =? bidiStringTypeNotSet then Ret query
  else
    let units := utf16Encode (runesOf query) in
    layout ← ConvertSQLToHost units (BidiStringType bs) (bidiPackageCCSID c) (BidiImplicitReordering bs) (bidiSystemInfo c);
    if bool_decide (layout = units) then Ret query else Ret (stringOf (utf16Decode layout)).

Definition columnNameLayout (c : Conn) (name : bytes) (id : Z) : outcome bytes :=
  let bs := Bidi (cfg c) in
  if negb (BidiImplicitReordering bs) || (BidiStringType bs =? bidiStringTypeNotSet) then Ret name
  else
    layout ← ConvertDataFromHost (utf16Encode (runesOf name)) (BidiStringType bs) id (bidiSystemInfo c);
    Ret (stringOf (utf16Decode layout)).

#[export] Instance driverLayout : BidiLayout := {|
  bidiStatementText := statementLayout;
  bidiColumnName := columnNameLayout;
|}.

(** * Lemmas *)

Lemma settings_keep bs id : keepingProperties (settingsProperties bs id) = true.
Proof. done. Qed.

(** The string type of the data of a column is not right-to-left. *)
Definition ltrSettings (bs : bidiOptions) (ccsid : Z) : bool :=
  ltrType (StringType (settingsProperties bs ccsid)) && ltrType (StringTypeForCCSID ccsid).

Lemma settings_latin bs id text : ltrSettings bs id = true -> Forall latinUnit text -> len text <= 30000 ->
  toHostLayout text id bs = Ret text /\ toLogicalLayout text id bs = Ret text.
Proof.
  unfold ltrSettings. intros [H1 H2]%andb_prop Hl Hlen.
  apply (paddedLayouts_latin text id (settingsProperties bs id)); [|done|done|done].
  unfold latinProperties. by rewrite H1.
Qed.

(** A rune below Hebrew is one such unit. *)
Definition latinText (text : bytes) : Prop := Forall latinUnit (runesOf text).

Lemma utf16_latin rs : Forall latinUnit rs -> utf16Encode rs = rs.
Proof.
  induction 1 as [|r rs Hr _ IH]; [done|]. unfold utf16Encode in *. cbn [fmap list_fmap concat]. rewrite IH.
  unfold latinUnit in Hr. unfold utf16EncodeRune. assert (validRune r = true) as -> by (unfold validRune, between; lia).
  rewrite (proj2 (Z.ltb_lt _ _)) by lia. done.
Qed.

(** * Properties *)

(** C38: Latin text in a column of a bidirectional single-byte CCSID is what its
    table makes of it.  When the string types of the settings and of the CCSID
    are not right-to-left, the text is valid UTF-8 of at most 30000 characters,
    all below U+0590, and the table of the CCSID leads back to them, the text
    that was written is the text that is read: no layout, shaping or padding
    comes between. *)
Theorem bidi_column_roundtrip `{TableFS} (text : bytes) (id : Z) (bs : bidiOptions) (sb : singleByte) :
  isConversionBidiCCSID (textCCSID id) = true -> Lookup (textCCSID id) = Ret (CSingle sb) ->
  ltrSettings bs (textCCSID id) = true -> latinText text -> len (runesOf text) <= 30000 -> text = stringOf (runesOf text) ->
  Forall (fun u => Ccsid.at_ (sbToUnicode sb) (Ccsid.at_ (sbFromUni sb) u) = u) (runesOf text) ->
  (data ← encodeTextWithBidi text id bs; decodeTextWithBidi data id bs) = Ret text.
Proof.
  intros Hb Hsb Hs Hl Hlen Ht Hu. unfold encodeTextWithBidi, decodeTextWithBidi. cbn zeta. rewrite Hb. cbn [negb].
  rewrite utf16_latin by done. destruct (settings_latin bs (textCCSID id) (runesOf text) Hs Hl Hlen) as [-> E].
  unfold EncodeUnits, DecodeUnits. rewrite Hsb. cbn [mbind outcome_bind].
  assert ((fun b => Ccsid.at_ (sbToUnicode sb) b) <$> ((fun u => Ccsid.at_ (sbFromUni sb) u) <$> runesOf text) = runesOf text) as Hback.
  { rewrite <- list_fmap_compose. rewrite <- (list_fmap_id (runesOf text)) at 2. apply list_fmap_ext.
    intros i u Hi. apply (Forall_lookup_1 _ _ _ _ Hu Hi). }
  rewrite len_fmap. destruct (len (runesOf text) =? 0) eqn:El.
  { rewrite Ht. destruct (runesOf text); [done|]. rewrite len_cons in El. pose proof (len_nonneg l). lia. }
  rewrite Hback, E. cbn [mbind outcome_bind]. rewrite <- (utf16_latin (runesOf text)) at 1 by done.
  rewrite utf16Decode_Encode; [by rewrite <- Ht|].
  eapply List.Forall_impl; [|exact Hl]. intros r Hr. unfold latinUnit in Hr. unfold validRune, between. lia.
Qed.

(** C39: Latin SQL goes to the server as it was written, and Latin column names
    come back as they are, under every setting and on every server whose string
    types are not right-to-left; neither can fail.  Latin stands for at most
    30000 characters, all below U+0590 (Latin, Greek, Cyrillic, Armenian). *)
Theorem latin_statement_unchanged (c : Conn) (query name : bytes) (id : Z) :
  ltrType (BidiStringType (Bidi (cfg c))) = true -> ltrType (StringTypeForCCSID (bidiPackageCCSID c)) = true ->
  ltrType (systemType (bidiSystemInfo c)) = true -> ltrType (StringTypeForCCSID id) = true ->
  latinText query -> len (runesOf query) <= 30000 ->
  latinText name -> len (runesOf name) <= 30000 -> name = stringOf (runesOf name) ->
  bidiStatementText c query = Ret query /\ bidiColumnName c name id = Ret name.
Proof.
  intros Hb Hp Hs Hid Hq Hql Hn Hnl Hname. cbn [bidiStatementText bidiColumnName driverLayout]. split.
  - unfold statementLayout. cbn zeta. destruct (_ =? bidiStringTypeNotSet); [done|]. rewrite utf16_latin by done.
    unfold ConvertSQLToHost. cbn zeta. destruct (_ || _); [cbn [mbind outcome_bind]; by rewrite bool_decide_eq_true_2|].
    apply (ltrType_system (bidiSystemInfo c)) in Hp.
    destruct (reorderings_latin (runesOf query) _ _ Hq Hql Hb Hs) as [_ ->].
    destruct (reorderings_latin (runesOf query) _ _ Hq Hql Hb Hp) as [E _].
    destruct (BidiImplicitReordering _); cbn [mbind outcome_bind]; rewrite E; cbn [mbind outcome_bind]; by rewrite bool_decide_eq_true_2.
  - unfold columnNameLayout. cbn zeta. destruct (_ || _); [done|]. rewrite utf16_latin by done.
    apply (ltrType_system (bidiSystemInfo c)) in Hid. unfold ConvertDataFromHost. cbn zeta.
    set (h := if StringTypeForSystem id (bidiSystemInfo c) =? 0 then _ else _).
    assert (ltrType h = true) as Hh by (subst h; by destruct (_ =? 0)).
    assert (forall (b : bool), (if b then TransformString (runesOf name) h (BidiStringType (Bidi (cfg c))) else Ret (runesOf name)) = Ret (runesOf name)) as ->.
    { intros [|]; [|done]. by apply TransformString_latin. }
    cbn [mbind outcome_bind]. rewrite <- (utf16_latin (runesOf name)) at 1 by done.
    rewrite utf16Decode_Encode; [by rewrite <- Hname|].
    eapply List.Forall_impl; [|exact Hn]. intros r Hr. unfold latinUnit in Hr. unfold validRune, between. lia.
Qed.

(** ** Witnesses *)

(** A table for CCSID 424 that maps each byte to the unit of the same value. *)
Definition hebrewTables : TableFS := fun id => if id =? 424 then sampleTables 37 else NoFile.
Definition hebrewTable : singleByte :=
  match @Lookup hebrewTables 424 with Ret (CSingle s) => s | _ => mkSingle 0 0 [] [] end.

Lemma hebrewTable_found : @Lookup hebrewTables 424 = Ret (CSingle hebrewTable).
Proof.
  assert (match @Lookup hebrewTables 424 with Ret (CSingle _) => True | _ => False end) as H by (vm_compute; exact I).
  unfold hebrewTable. by destruct (@Lookup hebrewTables 424) as [[]| |].
Qed.

Lemma bidi_column_roundtrip_witness :
  (data ← @encodeTextWithBidi hebrewTables driverText (lit "Name (1)") 424 defaultBidiSettings;
   @decodeTextWithBidi hebrewTables driverText data 424 defaultBidiSettings) = Ret (lit "Name (1)").
Proof.
  apply (@bidi_column_roundtrip hebrewTables (lit "Name (1)") 424 defaultBidiSettings hebrewTable).
  - reflexivity.
  - apply hebrewTable_found.
  - by vm_compute.
  - apply (bool_decide_unpack (Forall (fun u => 0 <= u < 0x590) _)). by vm_compute.
  - by vm_compute.
  - by vm_compute.
  - apply (bool_decide_unpack _). by vm_compute.
Defined.

Lemma latin_statement_unchanged_witness :
  statementLayout sampleConn (lit "SELECT 'a' FROM t") = Ret (lit "SELECT 'a' FROM t") /\
  columnNameLayout sampleConn (lit "AMOUNT") 424 = Ret (lit "AMOUNT").
Proof.
  apply (latin_statement_unchanged sampleConn (lit "SELECT 'a' FROM t") (lit "AMOUNT") 424); try by vm_compute.
  - apply (bool_decide_unpack (Forall (fun u => 0 <= u < 0x590) _)). by vm_compute.
  - apply (bool_decide_unpack (Forall (fun u => 0 <= u < 0x590) _)). by vm_compute.
Defined.
