(* ===== verification/GoCrypto.v ===== *)
(** The ciphers of Go's standard library that the password substitutes are made
    with: [crypto/des] (one block), [crypto/sha1], [crypto/sha256],
    [crypto/sha512], HMAC and [crypto/pbkdf2], as FIPS 46-3, FIPS 180-4,
    RFC 2104 and RFC 8018 define them.  They are executable; the password
    vectors of password_level_test.go are computed with them in Password. *)
From Stdlib Require Import Strings.String.
From stdpp Require Import base list numbers.
From S2P Require Import Prelude.
Open Scope Z_scope.

(** ** Words *)

(** The exclusive or of two byte strings, as long as the shorter one. *)
Definition xorOf (a b : bytes) : bytes := zip_with Z.lxor a b.

(** Words of [w] bits: sum, complement and rotation to the right. *)
Definition addw (w : Z) (xs : list Z) : Z := wrapu w (foldl Z.add 0 xs).
Definition notw (w x : Z) : Z := 2 ^ w - 1 - x.
Definition rotr (w n x : Z) : Z := Z.lor (Z.shiftr x n) (wrapu w (Z.shiftl x (w - n))).
Definition rotl (w n x : Z) : Z := rotr w (w - n) x.

(** The message in blocks of [block] bytes: a one bit, zeros and the length in
    bits in [lenBytes] bytes. *)
Definition padMessage (block lenBytes : Z) (message : bytes) : bytes :=
  message ++ 0x80 :: replicate (Z.to_nat ((- (len message + 1 + lenBytes)) mod block)) 0
    ++ be (Z.to_nat lenBytes) (8 * len message).

Fixpoint chunks (fuel size : nat) (bs : bytes) : list bytes :=
  match fuel, bs with
  | S fuel', _ :: _ => take size bs :: chunks fuel' size (drop size bs)
  | _, _ => []
  end.
Definition splitBlocks (size : nat) (bs : bytes) : list bytes := chunks (length bs) size bs.

(** ** DES *)

(** The bits of a word of [w] bits that a table selects, numbered from 1 at the
    left. *)
Definition permute (w : Z) (table : list Z) (x : Z) : Z :=
  foldl (fun a i => 2 * a + Z.b2z (Z.testbit x (w - i))) 0 table.

Definition initialPermutation : list Z :=
  [58; 50; 42; 34; 26; 18; 10; 2; 60; 52; 44; 36; 28; 20; 12; 4; 62; 54; 46; 38; 30; 22; 14; 6;
   64; 56; 48; 40; 32; 24; 16; 8; 57; 49; 41; 33; 25; 17; 9; 1; 59; 51; 43; 35; 27; 19; 11; 3;
   61; 53; 45; 37; 29; 21; 13; 5; 63; 55; 47; 39; 31; 23; 15; 7].
Definition finalPermutation : list Z :=
  [40; 8; 48; 16; 56; 24; 64; 32; 39; 7; 47; 15; 55; 23; 63; 31; 38; 6; 46; 14; 54; 22; 62; 30;
   37; 5; 45; 13; 53; 21; 61; 29; 36; 4; 44; 12; 52; 20; 60; 28; 35; 3; 43; 11; 51; 19; 59; 27;
   34; 2; 42; 10; 50; 18; 58; 26; 33; 1; 41; 9; 49; 17; 57; 25].
Definition expansion : list Z :=
  [32; 1; 2; 3; 4; 5; 4; 5; 6; 7; 8; 9; 8; 9; 10; 11; 12; 13; 12; 13; 14; 15; 16; 17; 16; 17;
   18; 19; 20; 21; 20; 21; 22; 23; 24; 25; 24; 25; 26; 27; 28; 29; 28; 29; 30; 31; 32; 1].
Definition roundPermutation : list Z :=
  [16; 7; 20; 21; 29; 12; 28; 17; 1; 15; 23; 26; 5; 18; 31; 10; 2; 8; 24; 14; 32; 27; 3; 9; 19;
   13; 30; 6; 22; 11; 4; 25].
Definition keyPermutation : list Z :=
  [57; 49; 41; 33; 25; 17; 9; 1; 58; 50; 42; 34; 26; 18; 10; 2; 59; 51; 43; 35; 27; 19; 11; 3;
   60; 52; 44; 36; 63; 55; 47; 39; 31; 23; 15; 7; 62; 54; 46; 38; 30; 22; 14; 6; 61; 53; 45; 37;
   29; 21; 13; 5; 28; 20; 12; 4].
Definition compression : list Z :=
  [14; 17; 11; 24; 1; 5; 3; 28; 15; 6; 21; 10; 23; 19; 12; 4; 26; 8; 16; 7; 27; 20; 13; 2; 41;
   52; 31; 37; 47; 55; 30; 40; 51; 45; 33; 48; 44; 49; 39; 56; 34; 53; 46; 42; 50; 36; 29; 32].
Definition keyShifts : list Z :=
  [1; 1; 2; 2; 2; 2; 2; 2; 1; 2; 2; 2; 2; 2; 2; 1].
Definition sBoxes : list (list Z) :=
  [[14; 4; 13; 1; 2; 15; 11; 8; 3; 10; 6; 12; 5; 9; 0; 7; 0; 15; 7; 4; 14; 2; 13; 1; 10; 6; 12;
    11; 9; 5; 3; 8; 4; 1; 14; 8; 13; 6; 2; 11; 15; 12; 9; 7; 3; 10; 5; 0; 15; 12; 8; 2; 4;
    9; 1; 7; 5; 11; 3; 14; 10; 0; 6; 13];
   [15; 1; 8; 14; 6; 11; 3; 4; 9; 7; 2; 13; 12; 0; 5; 10; 3; 13; 4; 7; 15; 2; 8; 14; 12; 0; 1;
    10; 6; 9; 11; 5; 0; 14; 7; 11; 10; 4; 13; 1; 5; 8; 12; 6; 9; 3; 2; 15; 13; 8; 10; 1; 3;
    15; 4; 2; 11; 6; 7; 12; 0; 5; 14; 9];
   [10; 0; 9; 14; 6; 3; 15; 5; 1; 13; 12; 7; 11; 4; 2; 8; 13; 7; 0; 9; 3; 4; 6; 10; 2; 8; 5;
    14; 12; 11; 15; 1; 13; 6; 4; 9; 8; 15; 3; 0; 11; 1; 2; 12; 5; 10; 14; 7; 1; 10; 13; 0;
    6; 9; 8; 7; 4; 15; 14; 3; 11; 5; 2; 12];
   [7; 13; 14; 3; 0; 6; 9; 10; 1; 2; 8; 5; 11; 12; 4; 15; 13; 8; 11; 5; 6; 15; 0; 3; 4; 7; 2;
    12; 1; 10; 14; 9; 10; 6; 9; 0; 12; 11; 7; 13; 15; 1; 3; 14; 5; 2; 8; 4; 3; 15; 0; 6; 10;
    1; 13; 8; 9; 4; 5; 11; 12; 7; 2; 14];
   [2; 12; 4; 1; 7; 10; 11; 6; 8; 5; 3; 15; 13; 0; 14; 9; 14; 11; 2; 12; 4; 7; 13; 1; 5; 0; 15;
    10; 3; 9; 8; 6; 4; 2; 1; 11; 10; 13; 7; 8; 15; 9; 12; 5; 6; 3; 0; 14; 11; 8; 12; 7; 1;
    14; 2; 13; 6; 15; 0; 9; 10; 4; 5; 3];
   [12; 1; 10; 15; 9; 2; 6; 8; 0; 13; 3; 4; 14; 7; 5; 11; 10; 15; 4; 2; 7; 12; 9; 5; 6; 1; 13;
    14; 0; 11; 3; 8; 9; 14; 15; 5; 2; 8; 12; 3; 7; 0; 4; 10; 1; 13; 11; 6; 4; 3; 2; 12; 9;
    5; 15; 10; 11; 14; 1; 7; 6; 0; 8; 13];
   [4; 11; 2; 14; 15; 0; 8; 13; 3; 12; 9; 7; 5; 10; 6; 1; 13; 0; 11; 7; 4; 9; 1; 10; 14; 3; 5;
    12; 2; 15; 8; 6; 1; 4; 11; 13; 12; 3; 7; 14; 10; 15; 6; 8; 0; 5; 9; 2; 6; 11; 13; 8; 1;
    4; 10; 7; 9; 5; 0; 15; 14; 2; 3; 12];
   [13; 2; 8; 4; 6; 15; 11; 1; 10; 9; 3; 14; 5; 0; 12; 7; 1; 15; 13; 8; 10; 3; 7; 4; 12; 5; 6;
    11; 0; 14; 9; 2; 7; 11; 4; 1; 9; 12; 14; 2; 0; 6; 10; 13; 15; 3; 5; 8; 2; 1; 14; 7; 4;
    10; 8; 13; 15; 12; 9; 0; 3; 5; 6; 11]].

(** The row of an S-box is in the outer bits of its six, the column inside. *)
Definition sBox (box : list Z) (six : Z) : Z :=
  let row := 2 * Z.b2z (Z.testbit six 5) + Z.b2z (Z.testbit six 0) in
  nth (Z.to_nat (16 * row + Z.land (Z.shiftr six 1) 15)) box 0.

(** The function of a round: expansion, key, substitution, permutation. *)
Definition feistel (key r : Z) : Z :=
  let x := Z.lxor (permute 32 expansion r) key in
  permute 32 roundPermutation
    (foldl (fun a '(i, box) => 16 * a + sBox box (Z.land (Z.shiftr x (42 - 6 * Z.of_nat i)) 63)) 0
      (imap pair sBoxes)).

Definition desRound (lr : Z * Z) (key : Z) : Z * Z := (lr.2, Z.lxor lr.1 (feistel key lr.2)).

(** The sixteen round keys: the halves of the key rotate to the left. *)
Fixpoint roundKeys (shifts : list Z) (c d : Z) : list Z :=
  match shifts with
  | [] => []
  | n :: shifts' =>
      let c := rotl 28 n c in
      let d := rotl 28 n d in
      permute 56 compression (Z.lor (Z.shiftl c 28) d) :: roundKeys shifts' c d
  end.

Definition desWord (key block : Z) : Z :=
  let k := permute 64 keyPermutation key in
  let keys := roundKeys keyShifts (Z.shiftr k 28) (wrapu 28 k) in
  let x := permute 64 initialPermutation block in
  let '(l, r) := foldl desRound (Z.shiftr x 32, wrapu 32 x) keys in
  permute 64 finalPermutation (Z.lor (Z.shiftl r 32) l).

(** [des.NewCipher(key)] and [block.Encrypt(out, data)] on eight bytes. *)
Definition desEncrypt (key data : bytes) : bytes := be 8 (desWord (unbe key) (unbe data)).

(** ** SHA-1 *)

Record sha1State := mkSHA1 { s1a : Z; s1b : Z; s1c : Z; s1d : Z; s1e : Z }.

Definition sha1Init : sha1State := mkSHA1 0x67452301 0xEFCDAB89 0x98BADCFE 0x10325476 0xC3D2E1F0.

(** The schedule, newest word first. *)
Fixpoint sha1Schedule (n : nat) (ws : list Z) : list Z :=
  match n with
  | O => ws
  | S n' =>
      let w i := nth i ws 0 in
      sha1Schedule n' (rotl 32 1 (Z.lxor (Z.lxor (w 2%nat) (w 7%nat)) (Z.lxor (w 13%nat) (w 15%nat))) :: ws)
  end.

Definition sha1Function (t : nat) (b c d : Z) : Z * Z :=
  if (t <? 20)%nat then (Z.lor (Z.land b c) (Z.land (notw 32 b) d), 0x5A827999)
  else if (t <? 40)%nat then (Z.lxor (Z.lxor b c) d, 0x6ED9EBA1)
  else if (t <? 60)%nat then (Z.lor (Z.lor (Z.land b c) (Z.land b d)) (Z.land c d), 0x8F1BBCDC)
  else (Z.lxor (Z.lxor b c) d, 0xCA62C1D6).

Definition sha1Round (s : sha1State) (tw : nat * Z) : sha1State :=
  let '(f, k) := sha1Function tw.1 (s1b s) (s1c s) (s1d s) in
  mkSHA1 (addw 32 [rotl 32 5 (s1a s); f; s1e s; k; tw.2]) (s1a s) (rotl 32 30 (s1b s)) (s1c s) (s1d s).

Definition sha1Block (h : sha1State) (block : bytes) : sha1State :=
  let ws := reverse (sha1Schedule 64 (reverse (unbe <$> splitBlocks 4 block))) in
  let s := foldl sha1Round h (imap pair ws) in
  mkSHA1 (addw 32 [s1a h; s1a s]) (addw 32 [s1b h; s1b s]) (addw 32 [s1c h; s1c s])
    (addw 32 [s1d h; s1d s]) (addw 32 [s1e h; s1e s]).

Definition sha1Sum (message : bytes) : bytes :=
  let h := foldl sha1Block sha1Init (splitBlocks 64 (padMessage 64 8 message)) in
  be 4 (s1a h) ++ be 4 (s1b h) ++ be 4 (s1c h) ++ be 4 (s1d h) ++ be 4 (s1e h).

(** ** SHA-256 and SHA-512 *)

(** The integer cube root, bit by bit from bit [n]. *)
Fixpoint cubeRoot (n : nat) (r x : Z) : Z :=
  match n with
  | O => r
  | S n' => let r' := r + 2 ^ Z.of_nat n' in cubeRoot n' (if r' ^ 3 <=? x then r' else r) x
  end.

Definition isPrime (n : Z) : bool := forallb (fun d => negb (n mod Z.of_nat d =? 0)) (seq 2 (Z.to_nat n - 2)).
Definition primes : list Z := Eval vm_compute in filter (fun n => isPrime n) (Z.of_nat <$> seq 2 408).

(** The constants are the first bits of the fractions of the cube roots and of
    the square roots of the primes. *)
Definition rootConstants (w : Z) (n : nat) : list Z := (fun p => wrapu w (cubeRoot 70 0 (p * 2 ^ (3 * w)))) <$> take n primes.
Definition rootStart (w : Z) : list Z := (fun p => wrapu w (Z.sqrt (p * 2 ^ (2 * w)))) <$> take 8 primes.

Record sha2State := mkSHA2 { ha : Z; hb : Z; hc : Z; hd : Z; he : Z; hf : Z; hg : Z; hh : Z }.

(** One of the two functions: word width, constants, and the rotations of the
    rounds and of the schedule (the last of the schedule's is a shift). *)
Record sha2 := mkFunction { width : Z; constants : list Z; rotations : (Z * Z * Z) * (Z * Z * Z) * (Z * Z * Z) * (Z * Z * Z) }.

Definition sha256Constants : list Z := Eval vm_compute in rootConstants 32 64.
Definition sha512Constants : list Z := Eval vm_compute in rootConstants 64 80.

Definition sha256 : sha2 := mkFunction 32 sha256Constants ((2, 13, 22), (6, 11, 25), (7, 18, 3), (17, 19, 10)).
Definition sha512 : sha2 := mkFunction 64 sha512Constants ((28, 34, 39), (14, 18, 41), (1, 8, 7), (19, 61, 6)).

Definition sigmaRound (w : Z) (r : Z * Z * Z) (x : Z) : Z :=
  let '(a, b, c) := r in Z.lxor (Z.lxor (rotr w a x) (rotr w b x)) (rotr w c x).
Definition sigmaWord (w : Z) (r : Z * Z * Z) (x : Z) : Z :=
  let '(a, b, c) := r in Z.lxor (Z.lxor (rotr w a x) (rotr w b x)) (Z.shiftr x c).

Fixpoint sha2Schedule (h : sha2) (n : nat) (ws : list Z) : list Z :=
  match n with
  | O => ws
  | S n' =>
      let w i := nth i ws 0 in
      let '(_, _, r0, r1) := rotations h in
      sha2Schedule h n' (addw (width h) [sigmaWord (width h) r1 (w 1%nat); w 6%nat; sigmaWord (width h) r0 (w 14%nat); w 15%nat] :: ws)
  end.

Definition sha2Round (h : sha2) (s : sha2State) (kw : Z * Z) : sha2State :=
  let w := width h in
  let '(r0, r1, _, _) := rotations h in
  let ch := Z.lxor (Z.land (he s) (hf s)) (Z.land (notw w (he s)) (hg s)) in
  let maj := Z.lxor (Z.lxor (Z.land (ha s) (hb s)) (Z.land (ha s) (hc s))) (Z.land (hb s) (hc s)) in
  let t1 := addw w [hh s; sigmaRound w r1 (he s); ch; kw.1; kw.2] in
  let t2 := addw w [sigmaRound w r0 (ha s); maj] in
  mkSHA2 (addw w [t1; t2]) (ha s) (hb s) (hc s) (addw w [hd s; t1]) (he s) (hf s) (hg s).

Definition sha2Block (h : sha2) (s0 : sha2State) (block : bytes) : sha2State :=
  let w := width h in
  let first := reverse (unbe <$> splitBlocks (Z.to_nat (w / 8)) block) in
  let ws := reverse (sha2Schedule h (length (constants h) - 16) first) in
  let s := foldl (sha2Round h) s0 (zip (constants h) ws) in
  let add f := addw w [f s0; f s] in
  mkSHA2 (add ha) (add hb) (add hc) (add hd) (add he) (add hf) (add hg) (add hh).

Definition sha2Init (w : Z) : sha2State :=
  match rootStart w with
  | [a; b; c; d; e; f; g; h] => mkSHA2 a b c d e f g h
  | _ => mkSHA2 0 0 0 0 0 0 0 0
  end.
Definition sha256Init : sha2State := Eval vm_compute in sha2Init 32.
Definition sha512Init : sha2State := Eval vm_compute in sha2Init 64.

Definition stateBytes (n : nat) (s : sha2State) : bytes :=
  be n (ha s) ++ be n (hb s) ++ be n (hc s) ++ be n (hd s) ++ be n (he s) ++ be n (hf s) ++ be n (hg s) ++ be n (hh s).

Definition sha256Sum (message : bytes) : bytes :=
  stateBytes 4 (foldl (sha2Block sha256) sha256Init (splitBlocks 64 (padMessage 64 8 message))).
Definition sha512Sum (message : bytes) : bytes :=
  stateBytes 8 (foldl (sha2Block sha512) sha512Init (splitBlocks 128 (padMessage 128 16 message))).

(** ** HMAC and PBKDF2 with SHA-512 *)

Definition hmacKey (key : bytes) : bytes :=
  let key := if 128 <? len key then sha512Sum key else key in
  key ++ replicate (128 - length key) 0.

Definition hmacSHA512 (key message : bytes) : bytes :=
  let k := hmacKey key in
  sha512Sum (xorOf k (replicate 128 0x5C) ++ sha512Sum (xorOf k (replicate 128 0x36) ++ message)).

(** The exclusive or of the last [n] of [n + 1] iterated codes. *)
Fixpoint pbkdf2Rounds (n : nat) (password u t : bytes) : bytes :=
  match n with
  | O => t
  | S n' => let u := hmacSHA512 password u in pbkdf2Rounds n' password u (xorOf t u)
  end.

Definition pbkdf2Block (password salt : bytes) (iterations i : Z) : bytes :=
  let u := hmacSHA512 password (salt ++ be32 i) in
  pbkdf2Rounds (Z.to_nat (iterations - 1)) password u u.

(** [pbkdf2.Key(sha512.New, password, salt, iterations, keyLength)]. *)
Definition pbkdf2Key (password salt : bytes) (iterations keyLength : Z) : bytes :=
  take (Z.to_nat keyLength)
    (concat ((fun i => pbkdf2Block password salt iterations (Z.of_nat i)) <$> seq 1 (Z.to_nat ((keyLength + 63) / 64)))).

(** * Lemmas: the lengths of the results *)

#[local] Opaque desWord sha1Block sha2Block padMessage.

Lemma len_desEncrypt key data : len (desEncrypt key data) = 8.
Proof. apply len_be. Qed.

Lemma is_bytes_desEncrypt key data : is_bytes (desEncrypt key data).
Proof. apply is_bytes_be. Qed.

Lemma len_sha1Sum message : len (sha1Sum message) = 20.
Proof. unfold sha1Sum. cbv zeta. by rewrite !len_app, !len_be. Qed.

Lemma is_bytes_sha1Sum message : is_bytes (sha1Sum message).
Proof. unfold sha1Sum. cbv zeta. rewrite !is_bytes_app. split_and!; apply is_bytes_be. Qed.

Lemma len_stateBytes n s : len (stateBytes n s) = 8 * Z.of_nat n.
Proof. unfold stateBytes. rewrite !len_app, !len_be. lia. Qed.

Lemma is_bytes_stateBytes n s : is_bytes (stateBytes n s).
Proof. unfold stateBytes. rewrite !is_bytes_app. split_and!; apply is_bytes_be. Qed.

Lemma len_sha256Sum message : len (sha256Sum message) = 32.
Proof. unfold sha256Sum. apply len_stateBytes. Qed.

Lemma len_sha512Sum message : len (sha512Sum message) = 64.
Proof. unfold sha512Sum. apply len_stateBytes. Qed.

Lemma is_bytes_sha512Sum message : is_bytes (sha512Sum message).
Proof. apply is_bytes_stateBytes. Qed.

#[local] Opaque sha512Sum.

Lemma len_xorOf a b : len (xorOf a b) = Z.min (len a) (len b).
Proof. unfold len, xorOf. rewrite length_zip_with. lia. Qed.

Lemma len_hmacSHA512 key message : len (hmacSHA512 key message) = 64.
Proof. apply len_sha512Sum. Qed.

#[local] Opaque hmacSHA512.

Lemma len_pbkdf2Rounds n password u t : len u = 64 -> len t = 64 -> len (pbkdf2Rounds n password u t) = 64.
Proof.
  revert u t. induction n as [|n IH]; intros u t Hu Ht; [done|]. cbn [pbkdf2Rounds]. cbv zeta.
  apply IH; [apply len_hmacSHA512|]. rewrite len_xorOf, Ht, len_hmacSHA512. lia.
Qed.

Lemma len_pbkdf2Block password salt iterations i : len (pbkdf2Block password salt iterations i) = 64.
Proof. unfold pbkdf2Block. cbv zeta. apply len_pbkdf2Rounds; apply len_hmacSHA512. Qed.

Lemma len_pbkdf2Key password salt iterations keyLength :
  0 <= keyLength -> len (pbkdf2Key password salt iterations keyLength) = keyLength.
Proof.
  intros Hk. unfold pbkdf2Key, len.
  set (n := Z.to_nat ((keyLength + 63) / 64)). set (f := fun i : nat => _).
  assert (forall k, length (concat (f <$> seq k n)) = (64 * n)%nat) as Hc.
  { clear Hk. induction n as [|n IH]; intros k; [done|]. cbn [seq fmap list_fmap concat]. rewrite length_app.
    change (list_fmap nat bytes f (seq (S k) n)) with (f <$> seq (S k) n). rewrite IH.
    pose proof (len_pbkdf2Block password salt iterations (Z.of_nat k)) as Hb. unfold len in Hb. subst f. cbv beta. lia. }
  rewrite length_take, Hc. subst n.
  assert (keyLength <= 64 * ((keyLength + 63) / 64)) by (Z.to_euclidean_division_equations; lia). lia.
Qed.

(** * Examples from the standards *)

Example des_vector : unbe (desEncrypt (be 8 0x133457799BBCDFF1) (be 8 0x0123456789ABCDEF)) = 0x85E813540F0AB405.
Proof. vm_compute. reflexivity. Qed.

Example sha1_vector : unbe (sha1Sum (lit "abc")) = 0xA9993E364706816ABA3E25717850C26C9CD0D89D.
Proof. vm_compute. reflexivity. Qed.

Example sha256_vector :
  unbe (sha256Sum (lit "abc")) = 0xBA7816BF8F01CFEA414140DE5DAE2223B00361A396177A9CB410FF61F20015AD.
Proof. vm_compute. reflexivity. Qed.

Example sha512_vector :
  unbe (sha512Sum (lit "abc")) =
  0xDDAF35A193617ABACC417349AE20413112E6FA4E89A97EA20A9EEEE64B55D39A2192992A274FC1A836BA3C23A3FEEBBD454D4423643CE80E2A9AC94FA54CA49F.
Proof. vm_compute. reflexivity. Qed.

Example pbkdf2_vector :
  unbe (pbkdf2Key (lit "password") (lit "salt") 1 64) =
  0x867F70CF1ADE02CFF3752599A3A53DC4AF34C7A669815AE5D513554E1C8CF252C02D470A285A0501BAD999BFE943C08F050235D7D68B1DA55E63F73B60A57FCE.
Proof. vm_compute. reflexivity. Qed.
