(* ===== verification/Password.v ===== *)
(** Password substitutes: encryption.go.

    At every password level the server is sent a value computed from the user
    ID, the password and the seeds of both sides.  The ciphers are those of
    GoCrypto.  [unicode.ToUpper] of a rune beyond ASCII is an interface. *)
From Stdlib Require Import Strings.String.
From stdpp Require Import base list numbers strings.
From S2P Require Import Prelude GoStrings Utf Ccsid Arrays GoCrypto.
Open Scope Z_scope.

(** What [unicode] promises about its table of upper case letters. *)
Class UnicodeCase := {
  upperRune : Z -> Z;
  upperRune_ascii : forall r, 0 <= r < 128 -> upperRune r = upperByte r;
}.

Definition pwdLevel4Iterations : Z := 10022.
Definition pwdLevel4KeyLength : Z := 64.
Definition maxUserIDLength : Z := 10.
Definition maxPasswordLengthDES : Z := 10.
Definition passwordSubstituteDES : Z := 8.
Definition passwordSubstituteSHA : Z := 20.

Definition shaSequence : bytes := [0; 0; 0; 0; 0; 0; 0; 1].

(** ** Bytes *)

(** [xorBytes(left, right, out)], which may be the same slice. *)
Fixpoint xorBytes (left right out : bytes) : bytes :=
  match left, right, out with
  | l :: left', r :: right', _ :: out' => Z.lxor l r :: xorBytes left' right' out'
  | _, _, _ => out
  end.

Definition addStep (left right : bytes) (i : Z) (state : bytes * Z) : outcome (bytes * Z) :=
  let '(out, carry) := state in
  l ← at_ left i;
  r ← at_ right i;
  let sum := Z.land l 0xFF + Z.land r 0xFF + carry in
  out ← put out i (u8 sum);
  Ret (out, Z.shiftr sum 8).

Definition addBytes (left right out : bytes) : outcome bytes :=
  '(out, _) ← forDown (len out - 1) (-1) (addStep left right) (out, 0);
  Ret out.

Definition xorWith0x55AndLshift (bs : bytes) : outcome bytes :=
  bs ← forRange 0 (Z.min 8 (len bs)) (fun i b => x ← at_ b i; put b i (Z.lxor x 0x55)) bs;
  bs ← forRange 0 (Z.min 7 (len bs)) (fun i b =>
    x ← at_ b i;
    y ← at_ b (i + 1);
    put b i (Z.lor (u8 (Z.shiftl x 1)) (Z.shiftr (Z.land y 0x80) 7))) bs;
  if 0 <? len bs then x ← at_ bs 7; put bs 7 (u8 (Z.shiftl x 1)) else Ret bs.

(** The number of characters before the first blank or NUL, at most [maxLength]. *)
Fixpoint ebcdicStrLen (data : bytes) (maxLength : nat) : Z :=
  match maxLength, data with
  | S n, b :: data' => if (b =? 0x40) || (b =? 0) then 0 else 1 + ebcdicStrLen data' n
  | _, _ => 0
  end.

Definition desEncrypt8 (key data : bytes) : outcome bytes :=
  if (len key <? 8) || (len data <? 8) then Fail (EText "DES key and data must be at least 8 bytes" [])
  else Ret (desEncrypt (take 8 key) (take 8 data)).

(** ** Levels 0 and 1: DES *)

(** The ninth and tenth character go into the high bits of the first eight, two
    bits each. *)
Definition foldUserID (w : bytes) : bytes :=
  let a := nth 8 w 0 in
  let b := nth 9 w 0 in
  xorBytes w
    [Z.land a 0xC0; u8 (Z.shiftl (Z.land a 0x30) 2); u8 (Z.shiftl (Z.land a 0x0C) 4); u8 (Z.shiftl (Z.land a 0x03) 6);
     Z.land b 0xC0; u8 (Z.shiftl (Z.land b 0x30) 2); u8 (Z.shiftl (Z.land b 0x0C) 4); u8 (Z.shiftl (Z.land b 0x03) 6)] w.

Definition generateToken (userID password : bytes) : outcome bytes :=
  if len userID <? maxUserIDLength then Fail (EText "invalid DES user ID length" [])
  else
    let blanks := replicate 10 0x40 in
    let workBuffer1 := copyInto (replicate 10 0) userID in
    let workBuffer1 := if 8 <? ebcdicStrLen userID 10 then foldUserID workBuffer1 else workBuffer1 in
    let length := ebcdicStrLen password 10 in
    if 8 <? length then
      first ← slice password 0 8;
      second ← slice password 8 length;
      workBuffer2 ← xorWith0x55AndLshift (copyInto blanks first);
      enc1 ← desEncrypt8 workBuffer2 (take 8 workBuffer1);
      workBuffer3 ← xorWith0x55AndLshift (copyInto blanks second);
      enc2 ← desEncrypt8 workBuffer3 (take 8 workBuffer1);
      Ret (xorBytes enc1 enc2 (replicate 8 0))
    else
      first ← slice password 0 length;
      workBuffer2 ← xorWith0x55AndLshift (copyInto blanks first);
      enc ← desEncrypt8 workBuffer2 (take 8 workBuffer1);
      Ret (copyInto (replicate 8 0) enc).

(** The substitute, and the verifier it leaves in [passwordVerifier]. *)
Definition generatePasswordSubstitute (userID token passwordVerifier sequenceNumber clientSeed serverSeed : bytes)
    : outcome (bytes * bytes) :=
  if (len userID <? maxUserIDLength) || (len token <? 8) || (len passwordVerifier <? 8)
     || (len sequenceNumber <? 8) || (len clientSeed <? 8) || (len serverSeed <? 8)
  then Fail (EText "invalid DES password inputs" [])
  else
    let token := take 8 token in
    let nextData := replicate 8 0 in
    rDrSEQ ← addBytes (take 8 sequenceNumber) (take 8 serverSeed) (replicate 8 0);
    nextEncryptedData ← desEncrypt8 token rDrSEQ;
    let nextData := xorBytes nextEncryptedData (take 8 clientSeed) nextData in
    nextEncryptedData ← desEncrypt8 token nextData;
    let passwordVerifier := copyInto passwordVerifier (take 8 nextEncryptedData) in
    let nextData := xorBytes (take 8 userID) rDrSEQ nextData in
    let nextData := xorBytes nextData nextEncryptedData nextData in
    nextEncryptedData ← desEncrypt8 token nextData;
    c8 ← index userID 8;
    c9 ← index userID 9;
    let nextData := [c8; c9] ++ replicate 6 0x40 in
    let nextData := xorBytes rDrSEQ nextData nextData in
    let nextData := xorBytes nextData nextEncryptedData nextData in
    nextEncryptedData ← desEncrypt8 token nextData;
    let nextData := xorBytes (take 8 sequenceNumber) nextEncryptedData nextData in
    substitute ← desEncrypt8 token nextData;
    Ret (substitute, passwordVerifier).

Definition encryptPasswordDES (userID password clientSeed serverSeed : bytes) : outcome bytes :=
  token ← generateToken userID password;
  '(substitute, _) ← generatePasswordSubstitute userID token (replicate 8 0) shaSequence clientSeed serverSeed;
  Ret substitute.

(** ** Levels 2 and 3: SHA-1 *)

Definition encryptPasswordSHA (userID password clientSeed serverSeed : bytes) : outcome bytes :=
  if (len userID =? 0) || (len clientSeed <? 8) || (len serverSeed <? 8)
  then Fail (EText "invalid SHA password inputs" [])
  else
    let token := sha1Sum (userID ++ password) in
    if negb (len token =? 20) then Fail (EText "unexpected SHA token length" [])
    else Ret (sha1Sum (token ++ take 8 serverSeed ++ take 8 clientSeed ++ userID ++ shaSequence)).

(** [strings.TrimRight(password, cutset)] for NUL, space and U+3000, on the
    reversed bytes. *)
Fixpoint dropBlanks (r : bytes) : bytes :=
  match r with
  | [] => []
  | b :: r' =>
      if (b =? 0) || (b =? 32) then dropBlanks r'
      else match r' with
           | c :: d :: r'' => if (b =? 0x80) && (c =? 0x80) && (d =? 0xE3) then dropBlanks r'' else r
           | _ => r
           end
  end.
Definition trimBlanks (password : bytes) : bytes := reverse (dropBlanks (reverse password)).

(** ** Level 4: PBKDF2 and SHA-512 *)

(** The last four units of the password, blank-padded. *)
Definition saltUnits (password : bytes) : list Z :=
  let units := utf16Encode (runesOf password) in
  let start := len units - 4 in
  let start := if start <? 0 then 0 else start in
  let tail := drop (Z.to_nat start) units in
  (fun i => if Z.of_nat i <? len tail then nth i tail 0 else 32) <$> seq 0 4.

Definition passwordLevel4Salt (user password : bytes) : bytes :=
  sha256Sum (EncodeUTF16BEBlankPad user 20 ++ unitsBE (saltUnits password)).

Definition sha512Substitute (token serverSeed clientSeed userIDBytes sequence : bytes) : bytes :=
  sha512Sum (token ++ take 8 serverSeed ++ take 8 clientSeed ++ userIDBytes ++ sequence).

(** ** Choosing by the level *)

Definition checkPasswordPresent (password : bytes) : outcome unit :=
  match password with
  | [] => Fail (EText "password is empty" [])
  | b :: _ => if b =? 42 then Fail (EText "password begins with a '*' character" []) else Ret tt
  end.

Definition passwordAuthScheme (substituteLen : Z) : Z :=
  if substituteLen =? passwordSubstituteDES then 0x01
  else if substituteLen =? passwordSubstituteSHA then 0x03
  else 0x07.

(** A password that starts with a digit gets a Q in front. *)
Definition desPassword (password : bytes) : bytes :=
  match password with
  | b :: _ => if (48 <=? b) && (b <=? 57) then 81 :: password else password
  | [] => password
  end.

Section Substitute.
Context `{TableFS} `{UnicodeCase}.

(** [strings.ToUpper]: rune by rune; bytes that are not UTF-8 become U+FFFD. *)
Definition ToUpper (s : bytes) : bytes := stringOf (upperRune <$> runesOf s).

(** [utf8.RuneCountInString]. *)
Definition runeCount (s : bytes) : Z := len (runesOf s).

Definition userIDUTF16 (user : bytes) : bytes := EncodeUTF16BEBlankPad (ToUpper user) 20.

Definition desPasswordSubstitute (user password clientSeed serverSeed : bytes) : outcome bytes :=
  let password := desPassword password in
  if maxPasswordLengthDES <? runeCount password then Fail (EText "password too long" [])
  else
    userBytes ← EncodeEBCDIC37BlankPad user maxUserIDLength;
    passwordBytes ← EncodeEBCDIC37BlankPad (ToUpper password) maxPasswordLengthDES;
    encryptPasswordDES userBytes passwordBytes clientSeed serverSeed.

Definition sha1PasswordSubstitute (user password clientSeed serverSeed : bytes) : outcome bytes :=
  _ ← checkPasswordPresent password;
  encryptPasswordSHA (userIDUTF16 user) (EncodeUTF16BE (trimBlanks password)) clientSeed serverSeed.

Definition passwordLevel4Token (user password : bytes) : bytes :=
  pbkdf2Key password (passwordLevel4Salt (ToUpper user) password) pwdLevel4Iterations pwdLevel4KeyLength.

Definition sha512PasswordSubstitute (user password clientSeed serverSeed : bytes) : outcome bytes :=
  _ ← checkPasswordPresent password;
  Ret (sha512Substitute (passwordLevel4Token user password) serverSeed clientSeed (userIDUTF16 user) shaSequence).

Definition passwordSubstitute (user password : bytes) (level : Z) (clientSeed serverSeed : bytes) : outcome bytes :=
  if (len clientSeed <? 8) || (len serverSeed <? 8)
  then Fail (EText "client and server seeds must be at least 8 bytes" [])
  else
    let user := ToUpper user in
    if maxUserIDLength <? runeCount user then Fail (EText "user ID too long" [])
    else if level <? 2 then desPasswordSubstitute user password clientSeed serverSeed
    else if level <? 4 then sha1PasswordSubstitute user password clientSeed serverSeed
    else sha512PasswordSubstitute user password clientSeed serverSeed.
End Substitute.

(** * The published algorithm

    RFC 4777 (section 5) describes the DES substitute in 64-bit words: the token
    is the user ID enciphered under the password, and the substitute is the last
    block of a cipher block chain over the seeds and the user ID. *)

(** Eight characters, blank-padded, as a key: each bit of 0x55 flipped, shifted
    so that the parity bits are the last ones of the bytes. *)
Definition keyOfChars (chars : bytes) : Z :=
  wrapu 64 (2 * Z.lxor (unbe (take 8 (chars ++ replicate 8 0x40))) 0x5555555555555555).

(** The four pairs of bits of a character, each in the high bits of a byte. *)
Definition spreadBits (x : Z) : bytes := [x / 64 * 64; x / 16 mod 4 * 64; x / 4 mod 4 * 64; x mod 4 * 64].

Definition foldedID (userID : bytes) : Z :=
  let id := unbe (take 8 userID) in
  if 8 <? ebcdicStrLen userID 10
  then Z.lxor id (unbe (spreadBits (nth 8 userID 0) ++ spreadBits (nth 9 userID 0))) else id.

Definition passwordToken (userID password : bytes) : Z :=
  let chars := take (Z.to_nat (ebcdicStrLen password 10)) password in
  let half part := desWord (keyOfChars part) (foldedID userID) in
  if 8 <? len chars then Z.lxor (half (take 8 chars)) (half (drop 8 chars)) else half chars.

(** The last block of a chain that starts at zero. *)
Definition cipherChain (key : Z) (blocks : list Z) : Z := foldl (fun v b => desWord key (Z.lxor v b)) 0 blocks.

Definition chainedSubstitute (token : Z) (userID clientSeed serverSeed : bytes) (sequence : Z) : Z :=
  let r := wrapu 64 (sequence + unbe (take 8 serverSeed)) in
  let id := take 10 userID ++ replicate 6 0x40 in
  cipherChain token
    [r; unbe (take 8 clientSeed); Z.lxor (unbe (take 8 id)) r; Z.lxor (unbe (drop 8 id)) r; sequence].

(** * Lemmas: bytes and words *)

Lemma lxor_split k a b u v :
  0 <= k -> 0 <= u < 2 ^ k -> 0 <= v < 2 ^ k ->
  Z.lxor (a * 2 ^ k + u) (b * 2 ^ k + v) = Z.lxor a b * 2 ^ k + Z.lxor u v.
Proof.
  intros Hk Hu Hv.
  assert (0 <= Z.lxor u v < 2 ^ k) as Hx.
  { split; [apply Z.lxor_nonneg; lia|]. destruct (Z.eq_dec (Z.lxor u v) 0) as [->|Hne]; [lia|].
    assert (0 <= Z.lxor u v) by (apply Z.lxor_nonneg; lia). apply Z.log2_lt_pow2; [lia|].
    eapply Z.le_lt_trans; [apply Z.log2_lxor; lia|].
    destruct (decide (u = 0)) as [->|]; destruct (decide (v = 0)) as [->|]; rewrite ?Z.lxor_0_l, ?Z.lxor_0_r in Hne; try done.
    - cbn [Z.log2 Z.max]. pose proof (Z.log2_nonneg v). rewrite Z.max_r by done. apply Z.log2_lt_pow2; lia.
    - pose proof (Z.log2_nonneg u). change (Z.log2 0) with 0. rewrite Z.max_l by done. apply Z.log2_lt_pow2; lia.
    - apply Z.max_lub_lt; apply Z.log2_lt_pow2; lia. }
  assert (forall x y n, 0 <= y < 2 ^ k -> 0 <= n -> Z.testbit (x * 2 ^ k + y) n = if n <? k then Z.testbit y n else Z.testbit x (n - k)) as Hb.
  { intros x y n Hy Hn. destruct (Z.ltb_spec n k).
    - rewrite <- (Z.mod_pow2_bits_low (x * 2 ^ k + y) k n), Z.add_comm, Z_mod_plus_full by lia. by rewrite Z.mod_small.
    - replace n with ((n - k) + k) at 1 by lia. rewrite <- Z.div_pow2_bits, Z.div_add_l, Z.div_small, Z.add_0_r by lia. done. }
  apply Z.bits_inj'. intros n Hn. rewrite Z.lxor_spec, !Hb by lia.
  destruct (n <? k); by rewrite Z.lxor_spec.
Qed.

Lemma unbe_xorOf a b : is_bytes a -> is_bytes b -> length a = length b -> unbe (xorOf a b) = Z.lxor (unbe a) (unbe b).
Proof.
  intros Ha. revert b. induction Ha as [|x a Hx Ha IH]; intros b Hb Hl; destruct Hb as [|y b Hy Hb]; try done.
  cbn in Hl. unfold xorOf in *. cbn [zip_with]. rewrite !unbe_cons, IH by (done || lia).
  assert (len (zip_with Z.lxor a b) = len a) as -> by (unfold len; rewrite length_zip_with; lia).
  assert (len b = len a) as -> by (unfold len; lia). symmetry. apply lxor_split; [pose proof (len_nonneg a); lia|by apply unbe_range|].
  pose proof (unbe_range b Hb) as Hr. replace (len a) with (len b) by (unfold len; lia). done.
Qed.

Lemma lxor_byte x y : is_byte x -> is_byte y -> is_byte (Z.lxor x y).
Proof.
  unfold is_byte. intros Hx Hy. split; [apply Z.lxor_nonneg; lia|].
  assert (Z.lxor x y / 256 = 0) as E.
  { change 256 with (2 ^ 8). rewrite <- Z.shiftr_div_pow2, Z.shiftr_lxor, !Z.shiftr_div_pow2 by lia.
    rewrite !Z.div_small by (change (2 ^ 8) with 256; lia). done. }
  assert (0 <= Z.lxor x y) by (apply Z.lxor_nonneg; lia). Z.to_euclidean_division_equations. lia.
Qed.

Lemma is_bytes_xorOf a b : is_bytes a -> is_bytes b -> is_bytes (xorOf a b).
Proof.
  intros Ha. revert b. induction Ha as [|x a Hx Ha IH]; intros b Hb; destruct Hb; try constructor.
  - by apply lxor_byte.
  - by apply IH.
Qed.

Lemma xorBytes_eq l r out : length l = length out -> length r = length out -> xorBytes l r out = xorOf l r.
Proof.
  revert r out. induction l as [|x l IH]; intros [|y r] [|o out] Hl Hr; try done. cbn in Hl, Hr.
  cbn [xorBytes]. unfold xorOf. cbn [zip_with]. f_equal. apply IH; lia.
Qed.

Lemma length_xorOf a b : length a = length b -> length (xorOf a b) = length a.
Proof. intros H. unfold xorOf. rewrite length_zip_with. lia. Qed.

(** Eight bytes and their word. *)
Lemma be8_xor a b : length a = 8%nat -> length b = 8%nat -> is_bytes a -> is_bytes b ->
  xorOf a b = be 8 (Z.lxor (unbe a) (unbe b)).
Proof.
  intros Ha Hb Hba Hbb. rewrite <- unbe_xorOf by (done || lia). symmetry.
  apply be_unbe; [by apply is_bytes_xorOf|]. rewrite length_xorOf; lia.
Qed.

Lemma word_be8 w : 0 <= w < 2 ^ 64 -> unbe (be 8 w) = w.
Proof. intros H. rewrite unbe_be. by apply Z.mod_small. Qed.

(** ** Addition *)

Lemma addBytes_spec left right out :
  is_bytes left -> is_bytes right -> length left = length out -> length right = length out ->
  addBytes left right out = Ret (be (length out) (unbe left + unbe right)).
Proof.
  intros Hl Hr Ell Elr. unfold addBytes.
  set (n := length out) in *.
  pose (I := fun (i : Z) (s : bytes * Z) =>
    length s.1 = n /\ 0 <= s.2 /\ is_bytes (drop (Z.to_nat (i + 1)) s.1) /\
    s.2 * 2 ^ (8 * (Z.of_nat n - 1 - i)) + unbe (drop (Z.to_nat (i + 1)) s.1) =
      unbe (drop (Z.to_nat (i + 1)) left) + unbe (drop (Z.to_nat (i + 1)) right)).
  assert (yields (forDown (len out - 1) (-1) (addStep left right) (out, 0)) (I (-1))) as ([out' carry] & -> & Hlen & Hc & Hb & E).
  { assert (len out = Z.of_nat n) as Hlen by done.
    apply yields_down with (I := I); [lia| |intros i [o carry] Hi (Ho & Hc & Hb & E)|done].
    - unfold I. cbn [fst snd]. replace (len out - 1 + 1) with (Z.of_nat n) by lia. rewrite Nat2Z.id, !drop_ge by lia.
      split_and!; [done|lia|constructor|done].
    - cbn [fst snd] in *. unfold addStep.
      yield_step. apply yields_at; [unfold len; lia|]. intros a Ha. yield_step. apply yields_at; [unfold len; lia|]. intros b Hbb. cbn zeta.
      assert (is_byte a) as Hab by (apply (Forall_lookup_1 _ _ _ _ Hl Ha)).
      assert (is_byte b) as Hbyte by (apply (Forall_lookup_1 _ _ _ _ Hr Hbb)). unfold is_byte in Hab, Hbyte.
      change 0xFF with (Z.ones 8). rewrite !Z.land_ones, !Z.mod_small by lia.
      yield_step. apply yields_put; [unfold len; lia|]. yield_step. unfold I. cbn [fst snd].
      replace (i - 1 + 1) with i by lia.
      rewrite (drop_S left a (Z.to_nat i) Ha), (drop_S right b (Z.to_nat i) Hbb).
      rewrite (drop_S (<[Z.to_nat i:=_]> o) (u8 (a + b + carry)) (Z.to_nat i)) by (apply list_lookup_insert_eq; lia).
      replace (S (Z.to_nat i)) with (Z.to_nat (i + 1)) by lia. rewrite drop_insert_lt by lia.
      rewrite length_insert, !unbe_cons. unfold len. rewrite !length_drop, Ell, Elr, Ho.
      rewrite Z.shiftr_div_pow2 by lia. change (2 ^ 8) with 256.
      assert (u8 (a + b + carry) = (a + b + carry) mod 256) as -> by done.
      replace (8 * (Z.of_nat n - 1 - (i - 1))) with (8 + 8 * (Z.of_nat n - 1 - i)) by lia. rewrite Z.pow_add_r by lia.
      replace (Z.of_nat (n - Z.to_nat (i + 1))) with (Z.of_nat n - 1 - i) by lia.
      set (m := 2 ^ (8 * (Z.of_nat n - 1 - i))) in *. change (2 ^ 8) with 256.
      pose proof (Z.div_mod (a + b + carry) 256 ltac:(lia)) as Hdm.
      split_and!; [done|apply Z.div_pos; lia| |].
      + constructor; [apply Z.mod_pos_bound; lia|done].
      + set (q := (a + b + carry) / 256) in *. set (r := (a + b + carry) mod 256) in *. clearbody q r m.
        transitivity ((256 * q + r) * m + unbe (drop (Z.to_nat (i + 1)) o)); [lia|]. rewrite <- Hdm. lia. }
  cbn [mbind outcome_bind fst snd] in *. change (Z.to_nat (-1 + 1)) with O in *. rewrite !drop_0 in *. f_equal.
  rewrite <- E. replace (Z.of_nat n - 1 - -1) with (Z.of_nat n) by lia.
  rewrite <- be_wrapu. unfold wrapu. rewrite Z.add_comm, Z_mod_plus_full. fold (wrapu (8 * Z.of_nat n) (unbe out')).
  rewrite be_wrapu. symmetry. by apply be_unbe.
Qed.

(** ** Flipping and shifting *)

Lemma map_turns (f : Z -> Z) n pre bs :
  (n <= length bs)%nat ->
  turns n (len pre) (fun i b => x ← at_ b i; put b i (f x)) (pre ++ bs) = Ret (pre ++ (f <$> take n bs) ++ drop n bs).
Proof.
  revert pre bs. induction n as [|n IH]; intros pre bs Hn; [by rewrite take_0, drop_0|].
  destruct bs as [|x bs]; [cbn in Hn; lia|]. cbn [turns]. rewrite at_middle by done. cbn [mbind outcome_bind].
  rewrite put_middle by done. cbn [mbind outcome_bind].
  replace (pre ++ f x :: bs) with ((pre ++ [f x]) ++ bs) by (by rewrite <- app_assoc).
  replace (len pre + 1) with (len (pre ++ [f x])) by (rewrite len_app; done).
  rewrite IH by (cbn in Hn; lia). by rewrite <- app_assoc.
Qed.

Lemma pair_turns (g : Z -> Z -> Z) n pre bs :
  (n < length bs)%nat ->
  turns n (len pre) (fun i b => x ← at_ b i; y ← at_ b (i + 1); put b i (g x y)) (pre ++ bs) =
    Ret (pre ++ zip_with g (take n bs) (take n (drop 1 bs)) ++ drop n bs).
Proof.
  revert pre bs. induction n as [|n IH]; intros pre bs Hn; [by rewrite take_0, drop_0|].
  destruct bs as [|x [|y bs]]; [cbn in Hn; lia..|]. cbn [turns]. rewrite (at_middle pre x (y :: bs) (len pre)) by done. cbn [mbind outcome_bind].
  assert (at_ (pre ++ x :: y :: bs) (len pre + 1) = Ret y) as ->.
  { change (x :: y :: bs) with ([x] ++ y :: bs). rewrite app_assoc. apply at_middle. by rewrite len_app. }
  cbn [mbind outcome_bind].
  rewrite put_middle by done. cbn [mbind outcome_bind].
  replace (pre ++ g x y :: y :: bs) with ((pre ++ [g x y]) ++ y :: bs) by (by rewrite <- app_assoc).
  replace (len pre + 1) with (len (pre ++ [g x y])) by (rewrite len_app; done).
  rewrite IH by (cbn in *; lia). by rewrite <- app_assoc.
Qed.

Definition shiftedByte (x y : Z) : Z := Z.lor (u8 (Z.shiftl x 1)) (Z.shiftr (Z.land y 0x80) 7).

(** A check of all bytes, as a rule. *)
Lemma all_bytes (p : Z -> bool) : forallb (fun n => p (Z.of_nat n)) (seq 0 256) = true -> forall x, is_byte x -> p x = true.
Proof.
  intros H x Hx. unfold is_byte in Hx. rewrite forallb_forall in H.
  replace x with (Z.of_nat (Z.to_nat x)) by lia. apply H. apply in_seq. lia.
Qed.

Lemma shiftedByte_spec x y : is_byte x -> is_byte y ->
  shiftedByte x y = 2 * x + y / 128 - 256 * (x / 128) /\ u8 (Z.shiftl x 1) = 2 * x - 256 * (x / 128).
Proof.
  intros Hx Hy. unfold shiftedByte.
  assert (u8 (Z.shiftl x 1) = 2 * x - 256 * (x / 128)) as E.
  { apply Z.eqb_eq. by apply (all_bytes (fun x => u8 (Z.shiftl x 1) =? 2 * x - 256 * (x / 128))). }
  split; [|done].
  assert (Z.shiftr (Z.land y 0x80) 7 = y / 128) as ->.
  { apply Z.eqb_eq. by apply (all_bytes (fun y => Z.shiftr (Z.land y 0x80) 7 =? y / 128)). }
  assert (y / 128 = 0 \/ y / 128 = 1) as [->| ->].
  { unfold is_byte in Hy. Z.to_euclidean_division_equations. lia. }
  - rewrite Z.lor_0_r. lia.
  - apply Z.eqb_eq. by apply (all_bytes (fun x => Z.lor (u8 (Z.shiftl x 1)) 1 =? 2 * x + 1 - 256 * (x / 128))).
Qed.

(** The first eight bytes, as one word. *)
Lemma xorWith0x55AndLshift_spec chars rest : length chars = 8%nat -> is_bytes chars ->
  xorWith0x55AndLshift (chars ++ rest) = Ret (be 8 (2 * Z.lxor (unbe chars) 0x5555555555555555) ++ rest).
Proof.
  intros Hl Hb. unfold xorWith0x55AndLshift.
  assert (len chars = 8) as Hlen by (unfold len; lia). pose proof (len_nonneg rest).
  rewrite len_app, Hlen, Z.min_l by lia. unfold forRange. change (Z.to_nat (8 - 0)) with 8%nat.
  pose proof (map_turns (fun x => Z.lxor x 0x55) 8 [] (chars ++ rest)) as E1. cbn [app] in E1. change (len []) with 0 in E1.
  rewrite E1 by (rewrite length_app; lia). clear E1. cbn [mbind outcome_bind].
  rewrite take_app_length', drop_app_length' by done.
  set (cs := (fun x => Z.lxor x 0x55) <$> chars).
  assert (cs = xorOf chars (replicate 8 0x55)) as Hcs.
  { subst cs. unfold xorOf. rewrite <- Hl, zip_with_replicate_r_eq by done. done. }
  assert (is_bytes cs) as Hbc by (rewrite Hcs; apply is_bytes_xorOf; [done|by apply (bool_decide_unpack _)]).
  assert (Z.lxor (unbe chars) 0x5555555555555555 = unbe cs) as ->.
  { rewrite Hcs, unbe_xorOf by (done || by apply (bool_decide_unpack _)). done. }
  assert (length cs = 8%nat) as Hlc by (subst cs; by rewrite length_fmap). clearbody cs. clear chars Hl Hb Hlen Hcs.
  assert (len (cs ++ rest) = 8 + len rest) as Hlen by (rewrite len_app; unfold len; lia).
  rewrite !Hlen, Z.min_l by lia. change (Z.to_nat (7 - 0)) with 7%nat.
  pose proof (pair_turns shiftedByte 7 [] (cs ++ rest)) as E2. cbn [app] in E2. change (len []) with 0 in E2.
  unfold shiftedByte in E2 at 1. rewrite E2 by (rewrite length_app; lia). clear E2. cbn [mbind outcome_bind].
  destruct cs as [|c0 [|c1 [|c2 [|c3 [|c4 [|c5 [|c6 [|c7 [|]]]]]]]]]; try done.
  cbn [app take drop zip_with]. set (hd := [shiftedByte c0 c1; shiftedByte c1 c2; shiftedByte c2 c3; shiftedByte c3 c4; shiftedByte c4 c5; shiftedByte c5 c6; shiftedByte c6 c7]).
  match goal with |- context [len ?l] => change l with (hd ++ c7 :: rest) end.
  assert (len (hd ++ c7 :: rest) = 8 + len rest) as -> by (rewrite len_app, len_cons; change (len hd) with 7; lia).
  rewrite (proj2 (Z.ltb_lt 0 _)) by lia. rewrite at_middle by done. cbn [mbind outcome_bind].
  rewrite put_middle by done. f_equal.
  change (hd ++ u8 (Z.shiftl c7 1) :: rest) with (hd ++ [u8 (Z.shiftl c7 1)] ++ rest). rewrite app_assoc. f_equal.
  unfold is_bytes in Hbc. rewrite !Forall_cons in Hbc. destruct Hbc as (H0 & H1 & H2 & H3 & H4 & H5 & H6 & H7 & _).
  destruct (shiftedByte_spec c0 c1 H0 H1) as [E0 _], (shiftedByte_spec c1 c2 H1 H2) as [E1 _], (shiftedByte_spec c2 c3 H2 H3) as [E2 _],
    (shiftedByte_spec c3 c4 H3 H4) as [E3 _], (shiftedByte_spec c4 c5 H4 H5) as [E4 _], (shiftedByte_spec c5 c6 H5 H6) as [E5 _],
    (shiftedByte_spec c6 c7 H6 H7) as [E6 _], (shiftedByte_spec c7 c7 H7 H7) as [_ E7].
  subst hd. rewrite E0, E1, E2, E3, E4, E5, E6, E7. unfold is_byte in *. symmetry.
  assert (forall c, 0 <= c < 256 -> 0 <= c / 128 <= 1 /\ 0 <= c - 128 * (c / 128) < 128) as Hq by (intros; Z.to_euclidean_division_equations; lia).
  pose proof (Hq c0 H0). pose proof (Hq c1 H1). pose proof (Hq c2 H2). pose proof (Hq c3 H3). pose proof (Hq c4 H4).
  pose proof (Hq c5 H5). pose proof (Hq c6 H6). pose proof (Hq c7 H7). clear Hq.
  set (q0 := c0 / 128) in *. set (q1 := c1 / 128) in *. set (q2 := c2 / 128) in *. set (q3 := c3 / 128) in *.
  set (q4 := c4 / 128) in *. set (q5 := c5 / 128) in *. set (q6 := c6 / 128) in *. set (q7 := c7 / 128) in *.
  clearbody q0 q1 q2 q3 q4 q5 q6 q7.
  match goal with |- _ = ?l => set (bs := l) end. transitivity (be 8 (unbe bs)); [|apply be_unbe; [|done]].
  - rewrite <- be_wrapu, <- (be_wrapu 8 (unbe bs)). f_equal. change (8 * Z.of_nat 8) with 64. unfold wrapu.
    rewrite <- (Z_mod_plus_full (unbe bs) q0). f_equal. subst bs. cbn [app]. unfold unbe. cbn [foldl]. lia.
  - subst bs. cbn [app]. unfold is_bytes. rewrite !Forall_cons. unfold is_byte. split_and!; try lia. constructor.
Qed.

(** ** The token *)

Lemma desEncrypt8_spec key data : length key = 8%nat -> is_bytes key -> length data = 8%nat ->
  desEncrypt8 key data = Ret (be 8 (desWord (unbe key) (unbe data))).
Proof.
  intros Hk Hb Hd. unfold desEncrypt8, len. rewrite Hk, Hd. cbn [orb Z.ltb]. by rewrite !take_ge by lia.
Qed.

Lemma ebcdicStrLen_range data n : 0 <= ebcdicStrLen data n <= Z.min (Z.of_nat n) (len data).
Proof.
  revert data. induction n as [|n IH]; intros [|b data]; cbn [ebcdicStrLen]; rewrite ?len_cons; [done|pose proof (len_nonneg data); lia|..].
  - change (len (@nil Z)) with 0. lia.
  - pose proof (len_nonneg data). specialize (IH data). destruct (_ || _); lia.
Qed.

Lemma spreadBits_spec x : is_byte x ->
  [Z.land x 0xC0; u8 (Z.shiftl (Z.land x 0x30) 2); u8 (Z.shiftl (Z.land x 0x0C) 4); u8 (Z.shiftl (Z.land x 0x03) 6)] = spreadBits x /\
  is_bytes (spreadBits x).
Proof.
  intros Hx. split.
  - pose proof (all_bytes (fun x => bool_decide ([Z.land x 0xC0; u8 (Z.shiftl (Z.land x 0x30) 2); u8 (Z.shiftl (Z.land x 0x0C) 4); u8 (Z.shiftl (Z.land x 0x03) 6)] = spreadBits x))) as H.
    assert (bool_decide ([Z.land x 0xC0; u8 (Z.shiftl (Z.land x 0x30) 2); u8 (Z.shiftl (Z.land x 0x0C) 4); u8 (Z.shiftl (Z.land x 0x03) 6)] = spreadBits x) = true) as E.
    { apply H; [vm_compute; reflexivity|done]. }
    by apply bool_decide_eq_true_1 in E.
  - unfold spreadBits, is_bytes, is_byte in *. rewrite !Forall_cons. split_and!; try (Z.to_euclidean_division_equations; lia). constructor.
Qed.

Lemma copyInto_long (dst src : bytes) : (length dst <= length src)%nat -> copyInto dst src = take (length dst) src.
Proof. intros H. unfold copyInto. by rewrite drop_ge, app_nil_r. Qed.

(** The key of the cipher of a token. *)
Lemma foldedID_spec userID :
  (10 <= length userID)%nat -> is_bytes userID ->
  let w := copyInto (replicate 10 0) userID in
  let key := take 8 (if 8 <? ebcdicStrLen userID 10 then foldUserID w else w) in
  length key = 8%nat /\ unbe key = foldedID userID.
Proof.
  intros Hl Hb w key. subst key w. rewrite copyInto_long by (rewrite length_replicate; lia). rewrite length_replicate.
  unfold foldedID. destruct (8 <? ebcdicStrLen userID 10); [|rewrite take_take; split; [rewrite length_take; lia|done]].
  pose proof (is_bytes_take 8 userID Hb) as Hb8.
  do 10 (destruct userID as [|? userID]; [cbn in Hl; lia|]).
  unfold is_bytes in Hb. rewrite !Forall_cons in Hb. destruct Hb as (?&?&?&?&?&?&?&?&Ha&Hc&_).
  destruct (spreadBits_spec z7 Ha) as [Ea Hba], (spreadBits_spec z8 Hc) as [Ec Hbc].
  unfold foldUserID. cbn [take nth]. rewrite <- unbe_xorOf by (exact Hb8 || (by apply is_bytes_app) || done).
  rewrite <- Ea, <- Ec. done.
Qed.

Lemma keyOfChars_spec part : (length part <= 8)%nat -> is_bytes part ->
  exists rest, xorWith0x55AndLshift (copyInto (replicate 10 0x40) part) = Ret (be 8 (keyOfChars part) ++ rest).
Proof.
  intros Hl Hb. exists [0x40; 0x40].
  set (padded := take 8 (part ++ replicate 8 0x40)).
  assert (copyInto (replicate 10 0x40) part = padded ++ [0x40; 0x40]) as ->.
  { unfold copyInto, padded. rewrite length_replicate, (take_ge part) by lia. rewrite take_app, take_ge, <- app_assoc by lia. f_equal.
    rewrite drop_replicate, take_replicate. change [0x40; 0x40] with (replicate 2 0x40). rewrite <- replicate_add. f_equal. lia. }
  assert (is_bytes padded) as Hbp. { apply is_bytes_take, is_bytes_app. split; [done|by apply (bool_decide_unpack _)]. }
  rewrite xorWith0x55AndLshift_spec; [|subst padded; rewrite length_take, length_app, length_replicate; lia|done].
  unfold keyOfChars. by rewrite be_wrapu.
Qed.

Lemma keyOfChars_range part : 0 <= keyOfChars part < 2 ^ 64.
Proof. by apply wrapu_range. Qed.

Lemma permute_range w table x : 0 <= permute w table x < 2 ^ Z.of_nat (length table).
Proof.
  unfold permute. induction table as [|i table IH] using rev_ind; [done|].
  rewrite foldl_app, length_app. cbn [foldl length]. rewrite Nat2Z.inj_add, Z.pow_add_r by lia. change (2 ^ Z.of_nat 1) with 2.
  destruct (Z.testbit x (w - i)); cbn [Z.b2z]; lia.
Qed.

Lemma desWord_range key block : 0 <= desWord key block < 2 ^ 64.
Proof. unfold desWord. cbv zeta. destruct (foldl _ _ _) as [l r]. apply permute_range. Qed.

Lemma generateToken_spec userID password :
  (10 <= length userID)%nat -> is_bytes userID -> is_bytes password ->
  generateToken userID password = Ret (be 8 (passwordToken userID password)).
Proof.
  intros Hl Hb Hp. unfold generateToken, maxUserIDLength. rewrite (proj2 (Z.ltb_ge _ _)) by (unfold len; lia). cbv zeta.
  destruct (foldedID_spec userID Hl Hb) as [Hkl Hk]. cbv zeta in Hkl, Hk. set (key := take 8 _) in *. clearbody key.
  pose proof (ebcdicStrLen_range password 10) as Hr. unfold passwordToken. cbv zeta. rewrite <- Hk.
  set (n := ebcdicStrLen password 10) in *. clearbody n.
  assert (forall part, (length part <= 8)%nat -> is_bytes part ->
    (w ← xorWith0x55AndLshift (copyInto (replicate 10 0x40) part); desEncrypt8 w key) = Ret (be 8 (desWord (keyOfChars part) (unbe key)))) as Hpart.
  { intros part Hpl Hpb. destruct (keyOfChars_spec part Hpl Hpb) as [rest ->]. cbn [mbind outcome_bind].
    unfold desEncrypt8. rewrite len_app, len_be. unfold len. rewrite Hkl. pose proof (Nat2Z.is_nonneg (length rest)).
    rewrite (proj2 (Z.ltb_ge _ _)) by lia. cbn [orb Z.ltb Z.compare].
    rewrite take_app_length' by (by rewrite length_be). rewrite (take_ge key) by lia. unfold desEncrypt. by rewrite word_be8 by apply keyOfChars_range. }
  assert (len (take (Z.to_nat n) password) = n) as Hn by (unfold len in *; rewrite length_take; lia).
  rewrite Hn. destruct (8 <? n) eqn:E.
  - apply Z.ltb_lt in E. rewrite !slice_ok by lia. cbn [mbind outcome_bind].
    change (8 - 0) with 8. assert (sub password 0 8 = take 8 (take (Z.to_nat n) password)) as ->.
    { unfold sub. rewrite drop_0, take_take. f_equal. lia. }
    assert (sub password 8 (n - 8) = drop 8 (take (Z.to_nat n) password)) as ->.
    { unfold sub. rewrite skipn_firstn_comm. f_equal. lia. }
    set (chars := take (Z.to_nat n) password) in *. assert (is_bytes chars) as Hc by (by apply is_bytes_take).
    pose proof (Hpart (take 8 chars)) as H1. pose proof (Hpart (drop 8 chars)) as H2.
    specialize (H1 ltac:(rewrite length_take; lia) ltac:(by apply is_bytes_take)).
    specialize (H2 ltac:(rewrite length_drop; unfold len in *; lia) ltac:(by apply is_bytes_drop)).
    apply bind_Ret in H1 as (w1 & -> & H1). apply bind_Ret in H2 as (w2 & E2 & H2). cbn [mbind outcome_bind]. rewrite H1. cbn [mbind outcome_bind].
    rewrite E2. cbn [mbind outcome_bind]. rewrite H2. cbn [mbind outcome_bind]. f_equal.
    rewrite xorBytes_eq by (by rewrite length_be, length_replicate).
    rewrite be8_xor by (apply length_be || apply is_bytes_be). by rewrite !word_be8 by apply desWord_range.
  - apply Z.ltb_ge in E. rewrite slice_ok by lia. cbn [mbind outcome_bind].
    assert (sub password 0 (n - 0) = take (Z.to_nat n) password) as ->. { unfold sub. rewrite drop_0. f_equal. lia. }
    specialize (Hpart (take (Z.to_nat n) password) ltac:(rewrite length_take; lia) ltac:(by apply is_bytes_take)).
    apply bind_Ret in Hpart as (w1 & -> & H1). cbn [mbind outcome_bind]. rewrite H1. reflexivity.
Qed.

Lemma lxor_word a b : 0 <= a < 2 ^ 64 -> 0 <= b < 2 ^ 64 -> 0 <= Z.lxor a b < 2 ^ 64.
Proof.
  intros Ha Hb. rewrite <- (word_be8 a Ha), <- (word_be8 b Hb), <- unbe_xorOf by (apply is_bytes_be || by rewrite !length_be).
  pose proof (unbe_range (xorOf (be 8 a) (be 8 b)) (is_bytes_xorOf _ _ (is_bytes_be 8 a) (is_bytes_be 8 b))) as Hrange.
  rewrite len_xorOf, !len_be in Hrange. exact Hrange.
Qed.

Lemma passwordToken_range userID password : 0 <= passwordToken userID password < 2 ^ 64.
Proof. unfold passwordToken. cbv zeta. destruct (8 <? _); [apply lxor_word|]; apply desWord_range. Qed.

(** ** The substitute *)

Lemma generatePasswordSubstitute_spec userID token verifier seq clientSeed serverSeed :
  (10 <= length userID)%nat -> is_bytes userID -> length token = 8%nat -> is_bytes token -> (8 <= length verifier)%nat ->
  length seq = 8%nat -> is_bytes seq -> (8 <= length clientSeed)%nat -> is_bytes clientSeed ->
  (8 <= length serverSeed)%nat -> is_bytes serverSeed ->
  exists v, generatePasswordSubstitute userID token verifier seq clientSeed serverSeed =
    Ret (be 8 (chainedSubstitute (unbe token) userID clientSeed serverSeed (unbe seq)), v).
Proof.
  intros Hu Hbu Ht Hbt Hv Hs Hbs Hc Hbc Hss Hbss. unfold generatePasswordSubstitute, maxUserIDLength, len.
  rewrite !(proj2 (Z.ltb_ge _ _)) by lia. cbn [orb]. cbv zeta.
  rewrite (take_ge seq), (take_ge token) by lia.
  assert (length (take 8 clientSeed) = 8%nat) as Hc8 by (rewrite length_take; lia).
  assert (length (take 8 serverSeed) = 8%nat) as Hs8 by (rewrite length_take; lia).
  assert (length (take 8 userID) = 8%nat) as Hu8 by (rewrite length_take; lia).
  assert (is_bytes (take 8 clientSeed)) by (by apply is_bytes_take).
  assert (is_bytes (take 8 serverSeed)) by (by apply is_bytes_take).
  assert (is_bytes (take 8 userID)) by (by apply is_bytes_take).
  rewrite addBytes_spec by done. rewrite length_replicate. cbn [mbind outcome_bind].
  unfold chainedSubstitute. rewrite <- (be_wrapu 8 (unbe seq + _)). change (8 * Z.of_nat 8) with 64.
  set (r := wrapu 64 _). assert (0 <= r < 2 ^ 64) as Hr by (by apply wrapu_range). clearbody r.
  assert (forall w, 0 <= w < 2 ^ 64 -> desEncrypt8 token (be 8 w) = Ret (be 8 (desWord (unbe token) w))) as Hdes.
  { intros w Hw. rewrite desEncrypt8_spec by (done || apply length_be). by rewrite word_be8. }
  pose proof lxor_word as Hx.
  assert (forall a b, 0 <= a < 2 ^ 64 -> 0 <= b < 2 ^ 64 -> xorOf (be 8 a) (be 8 b) = be 8 (Z.lxor a b)) as Hxor.
  { intros a b Ha Hb. rewrite be8_xor by (apply length_be || apply is_bytes_be). by rewrite !word_be8. }
  assert (forall w : bytes, length w = 8%nat -> is_bytes w -> exists x, w = be 8 x /\ 0 <= x < 2 ^ 64 /\ unbe w = x) as Hword.
  { intros w Hw Hbw. exists (unbe w). pose proof (unbe_range w Hbw) as Hrange. unfold len in Hrange. rewrite Hw in Hrange.
    split; [symmetry; by apply be_unbe|]. by split. }
  assert (take 8 (take 10 userID ++ replicate 6 0x40) = take 8 userID) as ->.
  { rewrite take_app_le by (rewrite length_take; lia). by rewrite take_take. }
  assert (exists c8 c9, userID !! 8%nat = Some c8 /\ userID !! 9%nat = Some c9 /\ is_byte c8 /\ is_byte c9 /\
    drop 8 (take 10 userID ++ replicate 6 0x40) = [c8; c9] ++ replicate 6 0x40) as (c8 & c9 & E8 & E9 & H8 & H9 & ->).
  { do 10 (destruct userID as [|? userID]; [cbn in Hu; lia|]). unfold is_bytes in Hbu. rewrite !Forall_cons in Hbu. exists z7, z8. by destruct_and!. }
  assert (index userID 8 = Ret c8 /\ index userID 9 = Ret c9) as [-> ->].
  { destruct (index_ok userID 8) as (x & Ex & ->); [unfold len; lia|]. destruct (index_ok userID 9) as (y & Ey & ->); [unfold len; lia|].
    change (Z.to_nat 8) with 8%nat in Ex. change (Z.to_nat 9) with 9%nat in Ey. split; congruence. }
  cbn [mbind outcome_bind].
  destruct (Hword (take 8 clientSeed)) as (c & -> & Hcr & Ec); [done..|].
  destruct (Hword (take 8 userID)) as (i1 & -> & Hi1 & Ei1); [done..|].
  destruct (Hword ([c8; c9] ++ replicate 6 0x40)) as (i2 & -> & Hi2 & Ei2).
  { done. } { apply is_bytes_app. split; [unfold is_bytes; by rewrite !Forall_cons|by apply (bool_decide_unpack _)]. }
  destruct (Hword seq) as (s & -> & Hsr & Es); [done..|]. rewrite Es, Ec, Ei1, Ei2.
  set (t := unbe token) in *. clearbody t.
  rewrite Hdes by done. cbn [mbind outcome_bind]. repeat rewrite xorBytes_eq by (rewrite ?length_xorOf, ?length_be, ?length_replicate; done).
  pose proof desWord_range.
  repeat (first [rewrite Hxor by auto|rewrite Hdes by auto; cbn [mbind outcome_bind]
                |rewrite xorBytes_eq by (rewrite ?length_be; done)]).
  eexists. do 2 f_equal. unfold cipherChain. cbn [foldl]. rewrite Z.lxor_0_l.
  rewrite (Z.lxor_comm (desWord t (Z.lxor (desWord t r) c)) _), (Z.lxor_comm (desWord t (Z.lxor (Z.lxor i1 r) _)) _), (Z.lxor_comm r i2).
  by rewrite (Z.lxor_comm s).
Qed.

Lemma encryptPasswordDES_spec userID password clientSeed serverSeed :
  (10 <= length userID)%nat -> is_bytes userID -> is_bytes password ->
  (8 <= length clientSeed)%nat -> is_bytes clientSeed -> (8 <= length serverSeed)%nat -> is_bytes serverSeed ->
  encryptPasswordDES userID password clientSeed serverSeed =
    Ret (be 8 (chainedSubstitute (passwordToken userID password) userID clientSeed serverSeed 1)).
Proof.
  intros Hu Hbu Hbp Hc Hbc Hs Hbs. unfold encryptPasswordDES. rewrite generateToken_spec by done. cbn [mbind outcome_bind].
  pose proof (passwordToken_range userID password) as Hr. set (token := passwordToken userID password) in *. clearbody token.
  destruct (generatePasswordSubstitute_spec userID (be 8 token) (replicate 8 0) shaSequence clientSeed serverSeed)
    as [v E]; [done|done|apply length_be|apply is_bytes_be|done|done|by apply (bool_decide_unpack _)|done..|].
  rewrite E, word_be8 by done. reflexivity.
Qed.

(** ** Text *)

Lemma length_copyInto (dst src : bytes) : length (copyInto dst src) = length dst.
Proof. unfold copyInto. rewrite length_app, length_take, length_drop. lia. Qed.

Lemma is_bytes_copyInto dst src : is_bytes dst -> is_bytes src -> is_bytes (copyInto dst src).
Proof. intros Hd Hs. apply is_bytes_app. split; [by apply is_bytes_take|by apply is_bytes_drop]. Qed.

Lemma is_byte_at t i : is_bytes t -> is_byte (Ccsid.at_ t i).
Proof.
  intros Ht. unfold Ccsid.at_. destruct (nth_in_or_default (Z.to_nat i) t 0) as [Hin| ->]; [|unfold is_byte; lia].
  unfold is_bytes in Ht. rewrite List.Forall_forall in Ht. auto.
Qed.

Lemma is_bytes_sbEncode sb text : is_bytes (sbFromUni sb) -> is_bytes (sbEncode sb text).
Proof.
  intros Hb. unfold sbEncode. induction (runesOf text) as [|r rs IH]; [constructor|]. cbn [fmap list_fmap concat].
  apply is_bytes_app. split; [|exact IH]. unfold sbEncodeRune. destruct (0xFFFF <? r).
  - unfold is_bytes. apply Forall_fmap, Forall_true. intros u. by apply is_byte_at.
  - constructor; [by apply is_byte_at|constructor].
Qed.

Lemma blankPad_ok `{TableFS} sb text size :
  Lookup 37 = Ret (CSingle sb) -> is_bytes (sbFromUni sb) -> 0 <= size ->
  exists bs, EncodeEBCDIC37BlankPad text size = Ret bs /\ length bs = Z.to_nat size /\ is_bytes bs.
Proof.
  intros Hsb Hb Hs. unfold EncodeEBCDIC37BlankPad, EncodeEBCDIC37, Encode. rewrite Hsb. cbn [mbind outcome_bind].
  rewrite (proj2 (Z.ltb_ge _ _)) by done. eexists. split; [done|]. rewrite length_copyInto, length_replicate. split; [done|].
  apply is_bytes_copyInto; [|by apply is_bytes_sbEncode]. apply Forall_replicate. unfold is_byte. lia.
Qed.

Lemma len_userIDUTF16 `{UnicodeCase} user : len (userIDUTF16 user) = 20.
Proof. unfold userIDUTF16, EncodeUTF16BEBlankPad. change (20 <=? 0) with false. cbv iota zeta. unfold len. by rewrite length_copyInto. Qed.

Lemma checkPasswordPresent_spec password :
  checkPasswordPresent password = Ret tt <-> password <> [] /\ head password <> Some 42.
Proof.
  unfold checkPasswordPresent. destruct password as [|b password]; [naive_solver|]. cbn [head].
  destruct (Z.eqb_spec b 42) as [->|Hb]; naive_solver.
Qed.

Lemma checkPasswordPresent_no_panic password : no_panic (checkPasswordPresent password).
Proof. unfold checkPasswordPresent. by repeat case_match. Qed.

(** ** No step panics *)

Lemma xorWith0x55AndLshift_no_panic bs : (8 <= length bs)%nat -> no_panic (xorWith0x55AndLshift bs).
Proof.
  intros Hl. unfold xorWith0x55AndLshift. rewrite Z.min_l by (unfold len; lia). unfold forRange. change (Z.to_nat (8 - 0)) with 8%nat.
  pose proof (map_turns (fun x => Z.lxor x 0x55) 8 [] bs) as E1. cbn [app] in E1. change (len []) with 0 in E1.
  rewrite E1 by lia. clear E1. cbn [mbind outcome_bind]. set (cs := _ ++ drop 8 bs).
  assert (length cs = length bs) as Hc by (subst cs; rewrite length_app, length_fmap, length_take, length_drop; lia).
  rewrite Z.min_l by (unfold len; lia). change (Z.to_nat (7 - 0)) with 7%nat.
  pose proof (pair_turns shiftedByte 7 [] cs) as E2. cbn [app] in E2. change (len []) with 0 in E2.
  unfold shiftedByte in E2 at 1. rewrite E2 by lia. clear E2. cbn [mbind outcome_bind]. set (ds := _ ++ drop 7 cs).
  assert (len ds = len bs) as Hd.
  { subst ds. unfold len. rewrite length_app, length_zip_with, !length_take, !length_drop. lia. }
  rewrite Hd. rewrite (proj2 (Z.ltb_lt _ _)) by (unfold len; lia).
  assert (yields (x ← at_ ds 7; put ds 7 (u8 (Z.shiftl x 1))) (fun _ => True)) as (r & -> & _); [|done].
  unfold len in Hd. yield_step. apply yields_at; [unfold len; lia|]. intros x _. apply yields_put; [unfold len; lia|done].
Qed.

Lemma addBytes_no_panic left right out : length left = length out -> length right = length out -> no_panic (addBytes left right out).
Proof.
  intros Hl Hr. unfold addBytes.
  assert (yields (forDown (len out - 1) (-1) (addStep left right) (out, 0)) (fun s => length s.1 = length out)) as ([o c] & -> & _); [|done].
  pose proof (len_nonneg out). apply yields_down with (I := fun _ s => length s.1 = length out); [lia|done| |done].
  intros i [o c] Hi Ho. cbn in Ho. unfold addStep, len in *. yield_step. apply yields_at; [unfold len; lia|]. intros a _.
  yield_step. apply yields_at; [unfold len; lia|]. intros b _. cbn zeta. yield_step. apply yields_put; [unfold len; lia|]. yield_step.
  cbn. by rewrite length_insert.
Qed.

Lemma desEncrypt8_no_panic key data : no_panic (desEncrypt8 key data).
Proof. unfold desEncrypt8. np. Qed.

#[local] Hint Resolve desEncrypt8_no_panic slice_no_panic : nopanic.

Lemma generateToken_no_panic userID password : no_panic (generateToken userID password).
Proof.
  unfold generateToken. case_match; [done|]. cbv zeta. set (key := take 8 _). pose proof (ebcdicStrLen_range password 10) as Hr.
  set (n := ebcdicStrLen password 10) in *. clearbody n.
  assert (forall part, no_panic (xorWith0x55AndLshift (copyInto (replicate 10 64) part))) as Hx.
  { intros part. apply xorWith0x55AndLshift_no_panic. rewrite length_copyInto, length_replicate. lia. }
  destruct (8 <? n) eqn:E; [apply Z.ltb_lt in E|]; rewrite !slice_ok by lia; cbn [mbind outcome_bind]; np; apply Hx.
Qed.

Lemma generatePasswordSubstitute_no_panic userID token verifier seq clientSeed serverSeed :
  no_panic (generatePasswordSubstitute userID token verifier seq clientSeed serverSeed).
Proof.
  unfold generatePasswordSubstitute, maxUserIDLength. destruct (_ || _) eqn:E; [done|]. rewrite !orb_false_iff, !Z.ltb_ge in E. destruct_and! E.
  cbv zeta. apply bind_no_panic.
  { apply addBytes_no_panic; rewrite length_take, length_replicate; unfold len in *; lia. }
  intros r _. destruct (index_ok userID 8) as (c8 & _ & ->); [lia|]. destruct (index_ok userID 9) as (c9 & _ & ->); [lia|].
  cbn [mbind outcome_bind]. np.
Qed.

Lemma EncodeEBCDIC37_no_panic `{TableFS} text : no_panic (Lookup 37) -> no_panic (EncodeEBCDIC37 text).
Proof. intros Hl. unfold EncodeEBCDIC37, Encode. by apply bind_no_panic. Qed.

Lemma blankPad_no_panic `{TableFS} text size : no_panic (Lookup 37) -> 0 <= size -> no_panic (EncodeEBCDIC37BlankPad text size).
Proof.
  intros Hl Hs. unfold EncodeEBCDIC37BlankPad. apply bind_no_panic; [by apply EncodeEBCDIC37_no_panic|]. intros e _.
  by rewrite (proj2 (Z.ltb_ge _ _)).
Qed.

Lemma passwordSubstitute_no_panic `{TableFS} `{UnicodeCase} user password level clientSeed serverSeed :
  no_panic (Lookup 37) -> no_panic (passwordSubstitute user password level clientSeed serverSeed).
Proof.
  intros Hl. unfold passwordSubstitute. case_match; [done|]. cbv zeta. case_match; [done|]. case_match; [|case_match].
  - unfold desPasswordSubstitute. cbv zeta. case_match; [done|].
    apply bind_no_panic; [by apply blankPad_no_panic|]. intros ub _. apply bind_no_panic; [by apply blankPad_no_panic|]. intros pb _.
    unfold encryptPasswordDES. apply bind_no_panic; [apply generateToken_no_panic|]. intros token _.
    apply bind_no_panic; [apply generatePasswordSubstitute_no_panic|]. by intros [s v] _.
  - unfold sha1PasswordSubstitute. apply bind_no_panic; [apply checkPasswordPresent_no_panic|]. intros _ _.
    unfold encryptPasswordSHA. cbv zeta. by repeat case_match.
  - unfold sha512PasswordSubstitute. apply bind_no_panic; [apply checkPasswordPresent_no_panic|done].
Qed.

Section Results.
Context `{TableFS} `{UnicodeCase} (sb : singleByte).
Hypothesis table37 : Lookup 37 = Ret (CSingle sb).
Hypothesis table37_bytes : is_bytes (sbFromUni sb).

(** What is sent at each level, and when. *)
Lemma passwordSubstitute_cases user password level clientSeed serverSeed :
  is_bytes clientSeed -> is_bytes serverSeed ->
  let m := passwordSubstitute user password level clientSeed serverSeed in
  let fits := 8 <= len clientSeed /\ 8 <= len serverSeed /\ runeCount (ToUpper user) <= 10 /\
    (if level <? 2 then runeCount (desPassword password) <= 10 else password <> [] /\ head password <> Some 42) in
  (fits /\ exists s, m = Ret s /\ len s = (if level <? 2 then 8 else if level <? 4 then 20 else 64)) \/
  (~ fits /\ exists e, m = Fail e).
Proof.
  intros Hc Hs m fits. subst m fits. unfold passwordSubstitute, maxUserIDLength. cbv zeta.
  destruct (Z.ltb_spec (len clientSeed) 8), (Z.ltb_spec (len serverSeed) 8); cbn [orb]; try (right; split; [lia|by eexists]).
  destruct (Z.ltb_spec 10 (runeCount (ToUpper user))); [right; split; [lia|by eexists]|].
  destruct (level <? 2) eqn:El.
  - unfold desPasswordSubstitute, maxPasswordLengthDES, maxUserIDLength. cbv zeta.
    destruct (Z.ltb_spec 10 (runeCount (desPassword password))); [right; split; [lia|by eexists]|]. left. split; [lia|].
    destruct (blankPad_ok sb (ToUpper user) 10 table37 table37_bytes) as (ub & -> & Hul & Hub); [done|]. cbn [mbind outcome_bind].
    destruct (blankPad_ok sb (ToUpper (desPassword password)) 10 table37 table37_bytes) as (pb & -> & Hpl & Hpb); [done|]. cbn [mbind outcome_bind].
    rewrite encryptPasswordDES_spec by (done || unfold len in *; lia). eexists. split; [done|]. apply len_be.
  - destruct (checkPasswordPresent password) as [[]|e|] eqn:Ep; [| |by apply checkPasswordPresent_no_panic in Ep].
    + left. split; [by apply checkPasswordPresent_spec in Ep|]. destruct (level <? 4).
      * unfold sha1PasswordSubstitute. rewrite Ep. cbn [mbind outcome_bind]. unfold encryptPasswordSHA. rewrite len_userIDUTF16, len_sha1Sum.
        rewrite !(proj2 (Z.ltb_ge _ _)) by done. eexists. split; [reflexivity|]. apply len_sha1Sum.
      * unfold sha512PasswordSubstitute. rewrite Ep. cbn [mbind outcome_bind]. eexists. split; [reflexivity|]. unfold sha512Substitute. apply len_sha512Sum.
    + right. split.
      * intros (_ & _ & _ & Hp). apply checkPasswordPresent_spec in Hp. congruence.
      * exists e. destruct (level <? 4); unfold sha1PasswordSubstitute, sha512PasswordSubstitute; by rewrite Ep.
Qed.
End Results.

(** Trailing blanks of any kind are dropped. *)
Lemma dropBlanks_blank b r : b ∈ [[0]; [32]; [0xE3; 0x80; 0x80]] -> dropBlanks (reverse b ++ r) = dropBlanks r.
Proof. intros Hb. apply list_elem_of_In in Hb as [<-|[<-|[<-|[]]]]; done. Qed.

Lemma trimBlanks_blanks password blanks :
  Forall (fun b => b ∈ [[0]; [32]; [0xE3; 0x80; 0x80]]) blanks -> trimBlanks (password ++ concat blanks) = trimBlanks password.
Proof.
  intros Hb. unfold trimBlanks. rewrite reverse_app. f_equal. induction blanks as [|b blanks IH] using rev_ind; [done|].
  apply Forall_app in Hb as [Hbs Hb]. rewrite concat_app, reverse_app. cbn [concat]. rewrite app_nil_r, <- app_assoc.
  rewrite dropBlanks_blank by (by apply Forall_cons_1 in Hb as [Hb _]). by apply IH.
Qed.

(** * Properties *)

(** C13: The DES substitute is that of RFC 4777.  The user ID enciphered under
    the password is the token; the substitute is the last block of the cipher
    block chain, under the token, of the server seed plus one, the client seed,
    the two halves of the user ID, each combined with the first block, and the
    number one. *)
Theorem des_substitute_is_chain `{TableFS} `{UnicodeCase} (sb : singleByte) (user password clientSeed serverSeed : bytes) (level : Z) :
  Lookup 37 = Ret (CSingle sb) -> is_bytes (sbFromUni sb) ->
  is_bytes clientSeed -> is_bytes serverSeed -> 8 <= len clientSeed -> 8 <= len serverSeed ->
  level < 2 -> runeCount (ToUpper user) <= 10 -> runeCount (desPassword password) <= 10 ->
  exists userBytes passwordBytes,
    EncodeEBCDIC37BlankPad (ToUpper user) 10 = Ret userBytes /\
    EncodeEBCDIC37BlankPad (ToUpper (desPassword password)) 10 = Ret passwordBytes /\
    passwordSubstitute user password level clientSeed serverSeed =
      Ret (be 8 (chainedSubstitute (passwordToken userBytes passwordBytes) userBytes clientSeed serverSeed 1)).
Proof.
  intros Hsb Hb Hc Hs Hcl Hsl Hl Hu Hp.
  destruct (blankPad_ok sb (ToUpper user) 10 Hsb Hb) as (ub & Eu & Hul & Hub); [done|].
  destruct (blankPad_ok sb (ToUpper (desPassword password)) 10 Hsb Hb) as (pb & Ep & Hpl & Hpb); [done|].
  exists ub, pb. split; [done|]. split; [done|]. unfold passwordSubstitute, desPasswordSubstitute, maxPasswordLengthDES, maxUserIDLength.
  rewrite !(proj2 (Z.ltb_ge _ _)), (proj2 (Z.ltb_lt level 2)) by lia. cbn [orb]. cbv zeta. rewrite (proj2 (Z.ltb_ge _ _)) by lia.
  rewrite Eu. cbn [mbind outcome_bind]. rewrite Ep. cbn [mbind outcome_bind].
  apply encryptPasswordDES_spec; (done || unfold len in *; lia).
Qed.


(** The SHA-1 levels take a password with blanks behind it, NUL and U+3000
    included, for the password without them. *)
Theorem trailing_blanks_are_no_password `{TableFS} `{UnicodeCase} (user password clientSeed serverSeed : bytes) (blanks : list bytes) (level : Z) :
  2 <= level < 4 -> Forall (fun b => b ∈ [[0]; [32]; [0xE3; 0x80; 0x80]]) blanks -> password <> [] ->
  passwordSubstitute user (password ++ concat blanks) level clientSeed serverSeed =
    passwordSubstitute user password level clientSeed serverSeed.
Proof.
  intros Hl Hb Hp. unfold passwordSubstitute. rewrite (proj2 (Z.ltb_ge level 2)), (proj2 (Z.ltb_lt level 4)) by lia. cbv zeta.
  do 2 (case_match; [done|]). unfold sha1PasswordSubstitute. rewrite trimBlanks_blanks by done.
  destruct password as [|b password]; done.
Qed.

(** ** Witnesses *)

(** The letters, digits and blank of CCSID 37, and the upper case of Latin-1. *)
Definition ebcdic37 (u : Z) : Z :=
  if u =? 32 then 0x40
  else if (48 <=? u) && (u <=? 57) then 0xF0 + (u - 48)
  else if (65 <=? u) && (u <=? 73) then 0xC1 + (u - 65)
  else if (74 <=? u) && (u <=? 82) then 0xD1 + (u - 74)
  else if (83 <=? u) && (u <=? 90) then 0xE2 + (u - 83)
  else 0x6F.

Definition letterTable : singleByte :=
  mkSingle 37 0x6F (Z.of_nat <$> seq 0 256)
    (((fun n => ebcdic37 (Z.of_nat n)) <$> seq 0 256) ++ replicate (Z.to_nat (65536 - 256)) 0).

Definition letterTables : TableFS := fun id =>
  if id =? 37 then RawFile (83 :: 0x6F :: concat (be16 <$> sbToUnicode letterTable) ++ sbFromUni letterTable) else NoFile.

Definition latinUpper (r : Z) : Z :=
  if r <? 128 then upperByte r
  else if (0xE0 <=? r) && (r <=? 0xFE) && negb (r =? 0xF7) then r - 32
  else if r =? 0xFF then 0x178 else if r =? 0xB5 then 0x39C else r.

Definition latinCase : UnicodeCase.
Proof.
  refine {| upperRune := latinUpper |}. intros r Hr. unfold latinUpper. by rewrite (proj2 (Z.ltb_lt _ _)) by lia.
Defined.

#[local] Existing Instances letterTables latinCase.

Lemma letterTable_found : Lookup 37 = Ret (CSingle letterTable).
Proof.
  assert (match Lookup 37 with
          | Ret (CSingle t) => bool_decide ((sbCcsid t, sbSub t, sbToUnicode t, sbFromUni t) =
              (sbCcsid letterTable, sbSub letterTable, sbToUnicode letterTable, sbFromUni letterTable)) = true
          | _ => False end) as H by (vm_compute; reflexivity).
  destruct (Lookup 37) as [[[a b c d]| | |]| |]; try done. apply bool_decide_eq_true_1 in H. cbn [sbCcsid sbSub sbToUnicode sbFromUni] in H.
  rewrite !pair_equal_spec in H. destruct H as [[[-> ->] ->] ->]. reflexivity.
Qed.

Lemma letterTable_bytes : is_bytes (sbFromUni letterTable).
Proof. apply (bool_decide_unpack _). by vm_compute. Qed.

Definition sampleClientSeed : bytes := [1; 2; 3; 4; 5; 6; 7; 8].
Definition sampleServerSeed : bytes := [0xA1; 0xB2; 0xC3; 0xD4; 0xE5; 0xF6; 0x07; 0x18].

Lemma des_substitute_is_chain_witness :
  exists userBytes passwordBytes,
    EncodeEBCDIC37BlankPad (ToUpper (lit "joe")) 10 = Ret userBytes /\
    EncodeEBCDIC37BlankPad (ToUpper (desPassword (lit "1234abcd"))) 10 = Ret passwordBytes /\
    passwordSubstitute (lit "joe") (lit "1234abcd") 1 sampleClientSeed sampleServerSeed =
      Ret (be 8 (chainedSubstitute (passwordToken userBytes passwordBytes) userBytes sampleClientSeed sampleServerSeed 1)).
Proof.
  apply (des_substitute_is_chain letterTable); [apply letterTable_found|apply letterTable_bytes| | |done..].
  - apply (bool_decide_unpack _). by vm_compute.
  - apply (bool_decide_unpack _). by vm_compute.
Defined.


Lemma trailing_blanks_are_no_password_witness :
  passwordSubstitute (lit "joe") (lit "ab" ++ concat [[0]; [0xE3; 0x80; 0x80]; [32]]) 2 sampleClientSeed sampleServerSeed =
    passwordSubstitute (lit "joe") (lit "ab") 2 sampleClientSeed sampleServerSeed.
Proof. apply trailing_blanks_are_no_password; [done| |done]. apply (bool_decide_unpack _). by vm_compute. Defined.

(** *** The vectors of password_level_test.go *)

Definition goldenSubstitute (user password : string) (level : Z) : Z :=
  match passwordSubstitute (lit user) (lit password) level sampleClientSeed sampleServerSeed with Ret s => unbe s | _ => 0 end.

Example golden_des :
  (goldenSubstitute "QSECOFR" "password" 0, goldenSubstitute "JOE" "Pa55w0rd" 0, goldenSubstitute "JOE" "1234abcd" 1,
   goldenSubstitute "QSECOFR" "ABCDEFGHIJ" 0, goldenSubstitute "QSECOFR" "MixedCase9" 1, goldenSubstitute "QSECOFR" "" 0) =
  (0x3F0122A5F35D6CB0, 0x6309658170713D2F, 0x4919F06382377BC7, 0xBD9D965BB0750562, 0x230A4AB2D4ED5196, 0x868D90D6C1541032).
Proof. vm_compute. reflexivity. Qed.

Example golden_sha1 :
  (goldenSubstitute "QSECOFR" "Secret1" 2, goldenSubstitute "QSECOFR" "Secret1   " 3, goldenSubstitute "JOE" "LongerPassword!2026" 3) =
  (0xDAD7121B1985D5EA5477CB33E2FF037CFCA28D51, 0xDAD7121B1985D5EA5477CB33E2FF037CFCA28D51, 0x4C23438FA0C78B2783BA1D056DEE6A2F7ACDE79C).
Proof. vm_compute. reflexivity. Qed.

(** The token, 10022 iterations, is computed beforehand. *)
Example golden_sha512 :
  unbe (sha512Substitute
    (be 64 0x6E5AB369DAB0AEF421718B362AD7AFBD90611E52B10D9D9E769F73DE438B148EDFBFD2C1927C50707D17F47D1D679B891A8E7F0148126B6FE8A7D29B18BB65F1)
    sampleServerSeed sampleClientSeed (userIDUTF16 (lit "QSECOFR")) shaSequence) =
  0xCA523D59C9B8820EB3687F0B6670AB550BE19E0037A921ECF11F4996BFE95857DC11232D85FBA335749A13715D0577767BDEC2C0E5CD588B030F5408D8E1B458.
Proof. vm_compute. reflexivity. Qed.
