(* ===== verification/Transport.v ===== *)
(** Sockets: transport.go, portmapper.go and the deadlines of wire.go.

    Opening a connection uses several sockets, so that a computation here works
    on the world of the sockets: which are open, and for each what was written
    and read so far, the bytes left unread, its options and its deadline.  The
    network is an environment: what a dial, an option, a handshake, a write and
    a read come to and how long they take, given the deadline the driver set. *)
From Stdlib Require Import Strings.String.
From stdpp Require Import base list numbers strings gmap.
From S2P Require Import Prelude GoStrings Utf Ccsid Wire Config Session.
Open Scope Z_scope.

(** ** The world of the sockets *)

Inductive socketOption :=
| OptNoDelay (enabled : bool)
| OptReadBuffer (size : Z)
| OptWriteBuffer (size : Z).

(** The fields of [net.Dialer] that the driver sets. *)
Record dialer := mkDialer { dialTimeout : Z; dialKeepAlive : Z }.

(** What went over a socket: a packet written, or the bytes a reader took. *)
Inductive message := Out (packet : bytes) | In (taken : bytes).

(** [readTimeout] is the timeout of a [socketTimeoutConn], zero for a socket
    that is not wrapped in one; [operations] counts the writes and reads. *)
Record socket := mkSocket {
  remote : bytes;
  options : list socketOption;
  serverName : option bytes;
  deadline : option Z;
  readTimeout : Z;
  history : list message;
  unread : bytes;
  operations : nat;
}.

Record world := mkWorld { now : Z; dials : nat; opened : gset nat; socketOf : gmap nat socket }.

Definition newSocket (address : bytes) : socket := mkSocket address [] None None 0 [] [] 0.
Definition socketAt (w : world) (i : nat) : socket := default (newSocket []) (socketOf w !! i).

(** What arrives on a socket before a read ends, how it ends, and when. *)
Record arrival := mkArrival { arrived : bytes; arrivedEnd : goerror; arrivalTime : Z; arrived_bytes : is_bytes arrived }.

(** The socket or the number of the dial, the number of the operation, the time
    and the deadline are what the environment knows; a reader may call Read more
    than once, each call having the deadline of the time it begins at.  All of
    them may also end because the context of the caller ended.  [callbackLate] tells whether the callback that watches a context runs
    after the deadline of the socket was cleared. *)
Class Network := {
  dialing : nat -> dialer -> bytes -> Z -> option Z -> option goerror * Z;
  optionAnswer : nat -> socketOption -> option goerror;
  handshaking : nat -> bytes -> Z -> option Z -> option goerror * Z;
  writing : nat -> nat -> bytes -> Z -> option Z -> option goerror * Z;
  reading : nat -> nat -> Z -> (Z -> option Z) -> arrival;
  callbackLate : nat -> bool;
}.

(** ** Computations on the world *)

Definition Net (A : Type) : Type := world -> outcome A * world.

#[export] Instance Net_ret : MRet Net := fun _ a w => (Ret a, w).
#[export] Instance Net_bind : MBind Net := fun _ _ f m w =>
  match m w with
  | (Ret a, w') => f a w'
  | (Fail e, w') => (Fail e, w')
  | (Panic, w') => (Panic, w')
  end.

Definition getWorld : Net world := fun w => (Ret w, w).
Definition liftNet {A} (m : outcome A) : Net A := fun w => (m, w).
Definition failNet {A} (e : goerror) : Net A := fun w => (Fail e, w).
Definition modifyWorld (f : world -> world) : Net unit := fun w => (Ret tt, f w).

(** [if err != nil { return handle(err) }]. *)
Definition onError {A} (m : Net A) (handle : goerror -> Net A) : Net A := fun w =>
  match m w with
  | (Fail e, w') => handle e w'
  | r => r
  end.

(** [defer cleanup; m]. *)
Definition deferNet {A} (cleanup : Net unit) (m : Net A) : Net A := fun w =>
  let '(r, w1) := m w in
  let '(_, w2) := cleanup w1 in (r, w2).

Definition onSocket (i : nat) (f : socket -> socket) : Net unit :=
  modifyWorld (fun w => mkWorld (now w) (dials w) (opened w) (<[i := f (socketAt w i)]> (socketOf w))).
Definition elapse (time : Z) : Net unit :=
  modifyWorld (fun w => mkWorld (now w + Z.max time 0) (dials w) (opened w) (socketOf w)).

(** [conn.Close()]. *)
Definition closeSocket (i : nat) : Net unit :=
  modifyWorld (fun w => mkWorld (now w) (dials w) (opened w ∖ {[i]}) (socketOf w)).

(** [conn.SetDeadline(t)], the zero time being [None]. *)
Definition setDeadline (i : nat) (t : option Z) : Net unit :=
  onSocket i (fun s => mkSocket (remote s) (options s) (serverName s) t (readTimeout s) (history s) (unread s) (operations s)).

Definition addSent (packet : bytes) (s : socket) : socket :=
  mkSocket (remote s) (options s) (serverName s) (deadline s) (readTimeout s) (history s ++ [Out packet]) (unread s) (S (operations s)).
Definition countOperation (s : socket) : socket :=
  mkSocket (remote s) (options s) (serverName s) (deadline s) (readTimeout s) (history s) (unread s) (S (operations s)).
Definition leaveRest (available rest : bytes) (s : socket) : socket :=
  mkSocket (remote s) (options s) (serverName s) (deadline s) (readTimeout s)
    (history s ++ [In (take (length available - length rest) available)]) rest (S (operations s)).
Definition addOption (o : socketOption) (s : socket) : socket :=
  mkSocket (remote s) (options s ++ [o]) (serverName s) (deadline s) (readTimeout s) (history s) (unread s) (operations s).
Definition secureWith (name : bytes) (s : socket) : socket :=
  mkSocket (remote s) (options s) (Some name) (deadline s) (readTimeout s) (history s) (unread s) (operations s).
Definition withReadTimeout (timeout : Z) (s : socket) : socket :=
  mkSocket (remote s) (options s) (serverName s) (deadline s) timeout (history s) (unread s) (operations s).

(** The deadline of one read of a [socketTimeoutConn]. *)
Definition socketReadDeadline (time timeout : Z) (ctxDeadline : option Z) : Z :=
  let deadline := time + timeout in
  match ctxDeadline with Some d => if d <? deadline then d else deadline | None => deadline end.

(** The deadline of a read that begins at a time. *)
Definition readLimit (s : socket) (time : Z) : option Z :=
  if 0 <? readTimeout s then Some (socketReadDeadline time (readTimeout s) (deadline s)) else deadline s.

(** ** Contexts with a timeout *)

(** When a context is done that ends at [d] at the latest. *)
Definition doneBy (ctx : context) (d : Z) : Z * goerror :=
  match ctxDone ctx with
  | Some (t, e) => if t <=? d then (t, e) else (d, EDeadlineExceeded)
  | None => (d, EDeadlineExceeded)
  end.

(** [context.WithTimeout(ctx, timeout)] at a time: the earlier of the two
    deadlines. *)
Definition WithTimeout (ctx : context) (time timeout : Z) : context :=
  let d := time + timeout in
  if match ctxDeadline ctx with Some parent => parent <? d | None => false end then ctx
  else mkCtx (Some (doneBy ctx d)) (Some d).

Section Transport.
Context `{Network}.

(** ** Operations of the network *)

Definition netDial (d : dialer) (address : bytes) (limit : option Z) : Net nat := fun w =>
  let i := dials w in
  let '(answer, time) := dialing i d address (now w) limit in
  let w := mkWorld (now w + Z.max time 0) (S i) (opened w) (socketOf w) in
  match answer with
  | Some e => (Fail e, w)
  | None => (Ret i, mkWorld (now w) (dials w) ({[i]} ∪ opened w) (<[i := newSocket address]> (socketOf w)))
  end.

Definition setOption (i : nat) (o : socketOption) : Net unit :=
  onSocket i (addOption o);; match optionAnswer i o with Some e => failNet e | None => mret tt end.

Definition handshake (i : nat) (name : bytes) (limit : option Z) : Net unit :=
  w ← getWorld;
  let '(answer, time) := handshaking i name (now w) limit in
  elapse time;;
  match answer with Some e => failNet e | None => onSocket i (secureWith name) end.

(** [conn.Write(packet)]. *)
Definition writeTo (i : nat) (packet : bytes) : Net unit :=
  w ← getWorld;
  let s := socketAt w i in
  let '(answer, time) := writing i (operations s) packet (now w) (deadline s) in
  elapse time;;
  match answer with
  | Some e => onSocket i countOperation;; failNet e
  | None => onSocket i (addSent packet)
  end.

(** A reader of [Wire] on a socket. *)
Definition readFrom {A} (i : nat) (read : inbound -> outcome A * inbound) : Net A :=
  w ← getWorld;
  let s := socketAt w i in
  let a := reading i (operations s) (now w) (readLimit s) in
  elapse (arrivalTime a);;
  let available := unread s ++ arrived a in
  let '(r, rest) := read (mkInbound available (arrivedEnd a)) in
  onSocket i (leaveRest available (pending rest));; liftNet r.

(** ** wire.go *)

Definition setConnDeadline (i : nat) (ctx : context) : Net unit :=
  match ctxDeadline ctx with Some d => setDeadline i (Some d) | None => mret tt end.
Definition clearConnDeadline (i : nat) : Net unit := setDeadline i None.

(** [defer clearConnDeadline(conn)] after [defer cancelDeadline()], which stops
    the [context.AfterFunc] that sets the deadline to the present when the context
    ends: a callback that was started then is not waited for. *)
Definition releaseDeadline (i : nat) (ctx : context) : Net unit :=
  clearConnDeadline i;;
  w ← getWorld;
  match ctxErr ctx (now w) with
  | Some _ => if callbackLate i then setDeadline i (Some (now w)) else mret tt
  | None => mret tt
  end.

(** ** transport.go *)

(** A [TransportError]: its cause is only in its text. *)
Definition transportError (operation : string) : goerror := EText ("connection error: " ++ operation) [].

Definition applySocketOptions (i : nat) (cfg : Config) : Net unit :=
  let o := Socket cfg in
  let set option name := onError (setOption i option) (fun _ => failNet (transportError ("socket option " ++ name))) in
  (match TCPNoDelay o with Some enabled => set (OptNoDelay enabled) "tcpNoDelay"%string | None => mret tt end);;
  (if 0 <? ReceiveBufferSize o then set (OptReadBuffer (ReceiveBufferSize o)) "receiveBufferSize"%string else mret tt);;
  (if 0 <? SendBufferSize o then set (OptWriteBuffer (SendBufferSize o)) "sendBufferSize"%string else mret tt).

(** [net.JoinHostPort(host, strconv.Itoa(port))]. *)
Definition joinHostPort (host : bytes) (port : Z) : bytes :=
  match indexByte host 58 with
  | Some _ => [91] ++ host ++ [93; 58] ++ formatInt port
  | None => host ++ [58] ++ formatInt port
  end.

(** The socket is closed and the error returned. *)
Definition closing {A} (i : nat) (m : Net A) : Net A := onError m (fun e => closeSocket i;; failNet e).

Definition dialHostServer (ctx : context) (cfg : Config) (port : Z) : Net nat :=
  if port <=? 0 then failNet (EText "connection error: invalid port" [port])
  else
    let d := mkDialer (if 0 <? ConnectTimeout cfg then ConnectTimeout cfg else 0)
               (match KeepAlive (Socket cfg) with Some false => -1 | _ => 0 end) in
    let address := joinHostPort (Host cfg) port in
    let operation := if UseTLS cfg then "TLS dial"%string else "TCP dial"%string in
    conn ← onError (netDial d address (ctxDeadline ctx)) (fun _ => failNet (transportError operation));
    closing conn (applySocketOptions conn cfg);;
    (if UseTLS cfg then
       w ← getWorld;
       let handshakeCtx := if 0 <? ConnectTimeout cfg then WithTimeout ctx (now w) (ConnectTimeout cfg) else ctx in
       closing conn (onError (handshake conn (Host cfg) (ctxDeadline handshakeCtx)) (fun _ => failNet (transportError operation)))
     else mret tt);;
    (if 0 <? SocketTimeout (Socket cfg) then onSocket conn (withReadTimeout (SocketTimeout (Socket cfg))) else mret tt);;
    mret conn.

(** ** portmapper.go *)

(** The answer after its first byte: the port, in four bytes. *)
Definition portAnswer (conn : nat) (prefix : bytes) : Net Z :=
  first ← liftNet (index prefix 0);
  if negb (first =? 43) then failNet (EText "unexpected port mapper reply" [first])
  else
    portBuf ← readFrom conn (readFull 4);
    let port := unbe portBuf in
    if (port <=? 0) || (65535 <? port) then failNet (EText "invalid port mapper reply" [port])
    else mret port.

Definition ResolvePort (ctx : context) (host service : bytes) : Net Z :=
  if len (trimSpace host) =? 0 then failNet (EText "connection error: host is required" [])
  else if len (trimSpace service) =? 0 then failNet (EText "connection error: service is required" [])
  else
    conn ← netDial (mkDialer 0 0) (joinHostPort host 449) (ctxDeadline ctx);
    deferNet (closeSocket conn) (
      setConnDeadline conn ctx;;
      writeTo conn service;;
      prefix ← readFrom conn (readFull 1);
      portAnswer conn prefix).
End Transport.

(** * Lemmas: reasoning about computations *)

(** From a world with [P], the computation returns with [Q] or fails with [E]; it
    does not panic. *)
Definition triple {A} (P : world -> Prop) (m : Net A) (Q : A -> world -> Prop) (E : world -> Prop) : Prop :=
  forall w, P w -> match m w with (Ret a, w') => Q a w' | (Fail _, w') => E w' | (Panic, _) => False end.

Lemma triple_ret {A} (a : A) (P : world -> Prop) (Q : A -> world -> Prop) E :
  (forall w, P w -> Q a w) -> triple P (mret a) Q E.
Proof. intros H w Hw. by apply H. Qed.

Lemma triple_fail {A} e (P : world -> Prop) (Q : A -> world -> Prop) (E : world -> Prop) :
  (forall w, P w -> E w) -> triple P (failNet e) Q E.
Proof. intros H w Hw. by apply H. Qed.

Lemma triple_bind {A B} (m : Net A) (f : A -> Net B) P R Q E :
  triple P m R E -> (forall a, triple (R a) (f a) Q E) -> triple P (m ≫= f) Q E.
Proof.
  intros Hm Hf w Hw. specialize (Hm w Hw). unfold mbind, Net_bind. destruct (m w) as [[a|e|] w']; try done. by apply Hf.
Qed.

Lemma triple_weaken {A} (m : Net A) (P P' : world -> Prop) (Q Q' : A -> world -> Prop) (E E' : world -> Prop) :
  triple P' m Q' E' -> (forall w, P w -> P' w) -> (forall a w, Q' a w -> Q a w) -> (forall w, E' w -> E w) -> triple P m Q E.
Proof. intros Hm HP HQ HE w Hw. specialize (Hm w (HP w Hw)). destruct (m w) as [[a|e|] w']; auto. Qed.

Lemma triple_onError {A} (m : Net A) h P Q E E' :
  triple P m Q E' -> (forall e, triple E' (h e) Q E) -> triple P (onError m h) Q E.
Proof. intros Hm Hh w Hw. specialize (Hm w Hw). unfold onError. destruct (m w) as [[a|e|] w']; try done. by apply Hh. Qed.

Lemma triple_defer {A} cleanup (m : Net A) P (Q Q' : A -> world -> Prop) (E E' : world -> Prop) :
  triple P m Q' E' -> (forall a w, Q' a w -> Q a (cleanup w).2) -> (forall w, E' w -> E (cleanup w).2) ->
  triple P (deferNet cleanup m) Q E.
Proof.
  intros Hm Hq He w Hw. specialize (Hm w Hw). unfold deferNet. destruct (m w) as [[a|e|] w1].
  - specialize (Hq a w1 Hm). by destruct (cleanup w1).
  - specialize (He w1 Hm). by destruct (cleanup w1).
  - by destruct (cleanup w1).
Qed.

Lemma triple_lift {A} (m : outcome A) (P : world -> Prop) :
  no_panic m -> triple P (liftNet m) (fun a w => m = Ret a /\ P w) P.
Proof. intros Hm w Hw. unfold liftNet. by destruct m. Qed.

Lemma triple_get {A} (f : world -> Net A) P Q E : (forall v, triple P (f v) Q E) -> triple P (getWorld ≫= f) Q E.
Proof. intros H w Hw. apply (H w w Hw). Qed.

Lemma triple_now {A} (f : world -> Net A) (P : world -> Prop) Q E :
  (forall v, P v -> triple (eq v) (f v) Q E) -> triple P (getWorld ≫= f) Q E.
Proof. intros H w Hw. by apply (H w Hw w). Qed.

Lemma triple_modify f (P : world -> Prop) (Q : unit -> world -> Prop) E :
  (forall w, P w -> Q tt (f w)) -> triple P (modifyWorld f) Q E.
Proof. intros H w Hw. by apply H. Qed.

Lemma triple_if {A} (b : bool) (m1 m2 : Net A) P Q E : triple P m1 Q E -> triple P m2 Q E -> triple P (if b then m1 else m2) Q E.
Proof. by destruct b. Qed.

Lemma triple_lifted {A} (m : outcome A) (P E : world -> Prop) :
  no_panic m -> (forall w, P w -> E w) -> triple P (liftNet m) (fun _ => P) E.
Proof. intros Hm HE w Hw. unfold liftNet. destruct m; auto. Qed.

(** The world after a computation that keeps a property. *)
Lemma triple_world {A} (m : Net A) (P Q : world -> Prop) w : triple P m (fun _ => Q) Q -> P w -> Q (m w).2.
Proof. intros Hm Hw. specialize (Hm w Hw). by destruct (m w) as [[a|e|] w']. Qed.

(** What is known beforehand. *)
Lemma triple_known {A} (P : world -> Prop) (C : Prop) (m : Net A) Q E : (C -> triple P m Q E) -> triple (fun w => C /\ P w) m Q E.
Proof. intros Hm w [HC Hw]. by apply Hm. Qed.

Lemma triple_exists {A B} (P : B -> world -> Prop) (m : Net A) Q E :
  (forall b, triple (P b) m Q E) -> triple (fun w => exists b, P b w) m Q E.
Proof. intros Hm w [b Hw]. by apply (Hm b). Qed.

(** [m] keeps [I], whatever it returns. *)
Abbreviation keeping_world I m := (triple I m (fun _ => I) I).

Lemma keeping_world_bind {A B} (m : Net A) (f : A -> Net B) I :
  keeping_world I m -> (forall a, keeping_world I (f a)) -> keeping_world I (m ≫= f).
Proof. intros. by eapply triple_bind. Qed.

Lemma socketAt_other w i j f :
  j <> i -> socketAt (mkWorld (now w) (dials w) (opened w) (<[i := f]> (socketOf w))) j = socketAt w j.
Proof. intros Hj. unfold socketAt. cbn. by rewrite lookup_insert_ne. Qed.

Lemma socketAt_same t d o w i s : socketAt (mkWorld t d o (<[i := s]> (socketOf w))) i = s.
Proof. unfold socketAt. cbn. by rewrite lookup_insert_eq. Qed.

(** ** Which sockets are open, and what was sent *)

(** No socket is open that was not dialled. *)
Definition known (w : world) : Prop := forall i, i ∈ opened w -> (i < dials w)%nat.

(** Since [w0] the sockets that were there are as they were, and no other is
    open. *)
Definition undone (w0 w : world) : Prop :=
  opened w = opened w0 /\ (dials w0 <= dials w)%nat /\ (forall j, (j < dials w0)%nat -> socketAt w j = socketAt w0 j).

(** One new socket is open, with its conversation. *)
Definition connected (w0 : world) (i : nat) (h : list message) (w : world) : Prop :=
  opened w = {[i]} ∪ opened w0 /\ i ∉ opened w0 /\ (dials w0 <= i < dials w)%nat /\
  (forall j, (j < dials w0)%nat -> socketAt w j = socketAt w0 j) /\ history (socketAt w i) = h.

(** On a new socket, whatever was said. *)
Definition talking (w0 : world) (i : nat) (w : world) : Prop := exists h, connected w0 i h w.

Lemma undone_refl w : undone w w.
Proof. by split_and!. Qed.

Lemma undone_trans w0 w1 w : undone w0 w1 -> undone w1 w -> undone w0 w.
Proof.
  intros (Ho & Hd & Hs) (Ho' & Hd' & Hs'). split_and!; [congruence|lia|]. intros j Hj. rewrite Hs' by lia. by apply Hs.
Qed.

Lemma undone_known w0 w : known w0 -> undone w0 w -> known w.
Proof. intros Hk (Ho & Hd & _) i Hi. rewrite Ho in Hi. specialize (Hk i Hi). lia. Qed.

Lemma connected_undone w0 w1 i h w : undone w0 w1 -> connected w1 i h w -> connected w0 i h w.
Proof.
  intros (Ho & Hd & Hs) (Ho' & Hi & Hr & Hs' & Hp). split_and!; [congruence|congruence|lia|lia| |done].
  intros j Hj. rewrite Hs' by lia. by apply Hs.
Qed.

Lemma connected_close w0 i h w : connected w0 i h w -> undone w0 (closeSocket i w).2.
Proof.
  intros (Ho & Hi & Hr & Hs & _). split_and!; cbn; [set_solver|lia|done].
Qed.

Lemma talking_close w0 i w : talking w0 i w -> undone w0 (closeSocket i w).2.
Proof. intros [h Hc]. by eapply connected_close. Qed.

(** A change of the socket itself. *)
Lemma connected_socket w0 i h h' f w :
  connected w0 i h w -> history (f (socketAt w i)) = h' -> connected w0 i h' (onSocket i f w).2.
Proof.
  intros (Ho & Hi & Hr & Hs & Hp) Hf. split_and!; cbn; [done|done|lia|lia| |].
  - intros j Hj. rewrite socketAt_other by lia. by apply Hs.
  - by rewrite socketAt_same.
Qed.

Lemma connected_elapse w0 i h time w : connected w0 i h w -> connected w0 i h (elapse time w).2.
Proof. intros H. exact H. Qed.

(** A reader of [Wire] fails, or returns something for the bytes it takes from
    the front. *)
Definition reads {A} (read : inbound -> outcome A * inbound) (R : A -> bytes -> Prop) : Prop :=
  forall conn, match read conn with
  | (Ret a, rest) => exists taken, pending conn = taken ++ pending rest /\ R a taken
  | (Fail _, _) => True
  | (Panic, _) => False
  end.

Lemma readFull_reads n : 0 <= n -> reads (readFull n) (fun bs taken => taken = bs /\ len bs = n).
Proof.
  intros Hn conn. destruct (readFull n conn) as [[bs|e|] rest] eqn:E; [|done|].
  - apply readFull_Ret in E as (Hp & Hl & _); [|done]. by exists bs.
  - unfold readFull in E. by destruct (n <=? len (pending conn)).
Qed.

Lemma readPacket_reads : reads readPacket (fun packet taken => taken = packet).
Proof.
  intros conn. unfold readPacket. pose proof (readFull_reads 4 ltac:(lia) conn) as H4.
  destruct (readFull 4 conn) as [[l|e|] conn1]; [|done|done]. destruct H4 as (t1 & Hp1 & -> & _).
  destruct (unbe l <? HeaderSize) eqn:El; [done|]. destruct (maxPacketLength <? unbe l); [done|]. unfold HeaderSize in El.
  pose proof (readFull_reads (unbe l - 4) ltac:(lia) conn1) as Hn.
  destruct (readFull _ conn1) as [[b|e|] conn2]; [|done|done]. destruct Hn as (t2 & Hp2 & -> & _).
  exists (l ++ b). split; [|done]. by rewrite Hp1, Hp2, app_assoc.
Qed.

Section Sockets.
Context `{Network}.

Lemma dial_connected d address limit w0 : known w0 ->
  triple (eq w0) (netDial d address limit) (fun i => connected w0 i []) (undone w0).
Proof.
  intros Hk w <-. unfold netDial. destruct (dialing _ _ _ _ _) as [[e|] time]; cbn.
  - split_and!; cbn; [done|lia|done].
  - assert (dials w0 ∉ opened w0) as Hi by (intros Hi; specialize (Hk _ Hi); lia).
    split_and!; cbn; [done|done|lia|lia| |by rewrite socketAt_same].
    intros j Hj. unfold socketAt. cbn. by rewrite lookup_insert_ne by lia.
Qed.

Lemma onSocket_connected w0 i h f E :
  (forall s, history (f s) = history s) -> triple (connected w0 i h) (onSocket i f) (fun _ => connected w0 i h) E.
Proof. intros Hf. apply triple_modify. intros w Hw. apply (connected_socket _ _ h h); [done|]. rewrite Hf. by destruct Hw as (_&_&_&_&Hp). Qed.

Lemma setDeadline_connected w0 i h t E :
  triple (connected w0 i h) (setDeadline i t) (fun _ => connected w0 i h) E.
Proof. by apply onSocket_connected. Qed.

Lemma releaseDeadline_connected w0 i h ctx E :
  triple (connected w0 i h) (releaseDeadline i ctx) (fun _ => connected w0 i h) E.
Proof.
  unfold releaseDeadline. eapply triple_bind; [apply setDeadline_connected|]. intros []. apply triple_get. intros v.
  destruct (ctxErr ctx (now v)); [destruct (callbackLate i); [apply setDeadline_connected|]|]; by apply triple_ret.
Qed.

(** No deadline is left on the socket, unless the context has ended. *)
Lemma releaseDeadline_clears i ctx w :
  ctxErr ctx (now w) = None -> deadline (socketAt (releaseDeadline i ctx w).2 i) = None.
Proof.
  intros Hn. unfold releaseDeadline, clearConnDeadline, setDeadline, onSocket, modifyWorld, getWorld, mbind, Net_bind. cbn -[ctxErr socketAt]. rewrite Hn.
  cbn -[socketAt]. by rewrite socketAt_same.
Qed.

Lemma now_releaseDeadline i ctx w : now (releaseDeadline i ctx w).2 = now w.
Proof.
  unfold releaseDeadline, clearConnDeadline, setDeadline, onSocket, modifyWorld, getWorld, mbind, Net_bind. cbn -[ctxErr socketAt].
  destruct (ctxErr ctx (now w)); [by destruct (callbackLate i)|done].
Qed.

Lemma setConnDeadline_connected w0 i h ctx E :
  triple (connected w0 i h) (setConnDeadline i ctx) (fun _ => connected w0 i h) E.
Proof. unfold setConnDeadline. destruct (ctxDeadline ctx); [apply setDeadline_connected|by apply triple_ret]. Qed.

Lemma writeTo_connected w0 i h packet :
  triple (connected w0 i h) (writeTo i packet) (fun _ => connected w0 i (h ++ [Out packet])) (talking w0 i).
Proof.
  unfold writeTo. apply triple_get. intros v. cbv zeta. destruct (writing _ _ _ _ _) as [answer time].
  eapply triple_bind; [apply (triple_modify _ _ (fun _ => connected w0 i h)); by intros w Hw|]. intros [].
  destruct answer as [e|].
  - eapply triple_bind; [by apply onSocket_connected|]. intros []. apply triple_fail. intros w Hw. by exists h.
  - apply triple_modify. intros w Hw. apply (connected_socket _ _ h); [done|]. cbn. by destruct Hw as (_&_&_&_&->).
Qed.

Lemma take_taken (taken rest : bytes) : take (length (taken ++ rest) - length rest) (taken ++ rest) = taken.
Proof. rewrite length_app, Nat.add_sub. apply take_app_length. Qed.

Lemma readFrom_connected {A} w0 i h (read : inbound -> outcome A * inbound) R : reads read R ->
  triple (connected w0 i h) (readFrom i read) (fun a w => exists taken, R a taken /\ connected w0 i (h ++ [In taken]) w) (talking w0 i).
Proof.
  intros Hread. unfold readFrom. apply triple_get. intros v. cbv zeta.
  eapply triple_bind; [apply (triple_modify _ _ (fun _ => connected w0 i h)); by intros w Hw|]. intros [].
  set (available := _ ++ _). specialize (Hread (mkInbound available (arrivedEnd (reading i (operations (socketAt v i)) (now v) (readLimit (socketAt v i)))))).
  destruct (read _) as [r rest].
  eapply triple_bind with (R := fun _ => connected w0 i (h ++ [In (take (length available - length (pending rest)) available)])).
  - apply triple_modify. intros w Hw. apply (connected_socket _ _ h); [done|]. cbn [leaveRest history]. by destruct Hw as (_&_&_&_&->).
  - intros [] w Hw. unfold liftNet. destruct r; [|by eexists|done]. destruct Hread as (taken & Ht & HR). cbn [pending] in Ht.
    exists taken. split; [done|]. by rewrite Ht, take_taken in Hw.
Qed.

(** A failure closes the socket. *)
Lemma closing_connected {A} w0 i P (m : Net A) Q :
  triple P m Q (talking w0 i) -> triple P (closing i m) Q (undone w0).
Proof.
  intros Hm. eapply triple_onError; [exact Hm|]. intros e. eapply triple_bind.
  - apply (triple_modify _ _ (fun _ => undone w0)). intros w Hw. by apply talking_close in Hw.
  - intros []. by apply triple_fail.
Qed.

Lemma option_connected w0 i o name :
  triple (connected w0 i []) (onError (setOption i o) (fun _ => failNet (transportError ("socket option " ++ name))))
    (fun _ => connected w0 i []) (talking w0 i).
Proof.
  eapply triple_onError.
  - unfold setOption. eapply triple_bind; [by apply onSocket_connected|]. intros [].
    instantiate (1 := talking w0 i). destruct (optionAnswer i o); [apply triple_fail|by apply triple_ret]. intros w Hw. by exists [].
  - intros e. by apply triple_fail.
Qed.

Lemma applySocketOptions_connected w0 i cfg :
  triple (connected w0 i []) (applySocketOptions i cfg) (fun _ => connected w0 i []) (talking w0 i).
Proof.
  unfold applySocketOptions. cbv zeta. eapply triple_bind; [|intros []; eapply triple_bind; [|intros []]].
  - destruct (TCPNoDelay _); [apply option_connected|by apply triple_ret].
  - apply triple_if; [apply option_connected|by apply triple_ret].
  - apply triple_if; [apply option_connected|by apply triple_ret].
Qed.

Lemma handshake_connected w0 i name limit :
  triple (connected w0 i []) (handshake i name limit) (fun _ => connected w0 i []) (talking w0 i).
Proof.
  unfold handshake. apply triple_get. intros v. cbv beta. destruct (handshaking _ _ _ _) as [answer time].
  eapply triple_bind; [apply (triple_modify _ _ (fun _ => connected w0 i [])); by intros w Hw|]. intros [].
  destruct answer; [apply triple_fail; intros w Hw; by exists []|by apply onSocket_connected].
Qed.

Lemma dialHostServer_connected ctx cfg port w0 : known w0 ->
  triple (eq w0) (dialHostServer ctx cfg port) (fun i => connected w0 i []) (undone w0).
Proof.
  intros Hk. unfold dialHostServer. apply triple_if; [apply triple_fail; intros w <-; apply undone_refl|]. cbv zeta.
  eapply triple_bind.
  { eapply triple_onError; [by apply dial_connected|]. intros e. by apply triple_fail. }
  intros i. eapply triple_bind; [apply closing_connected, applySocketOptions_connected|]. intros [].
  eapply triple_bind with (R := fun _ => connected w0 i []).
  { apply triple_if; [|by apply triple_ret]. apply triple_get. intros v. cbv beta zeta.
    apply closing_connected. eapply triple_onError; [|intros e; by apply triple_fail].
    eapply triple_weaken; [apply handshake_connected|done|done|done]. }
  intros []. eapply triple_bind with (R := fun _ => connected w0 i []); [|intros []; by apply triple_ret].
  apply triple_if; [by apply onSocket_connected|by apply triple_ret].
Qed.

Lemma ResolvePort_undone ctx host service w0 : known w0 ->
  triple (eq w0) (ResolvePort ctx host service) (fun _ => undone w0) (undone w0).
Proof.
  intros Hk. unfold ResolvePort. do 2 (apply triple_if; [apply triple_fail; intros w <-; apply undone_refl|]).
  eapply triple_bind; [by apply dial_connected|]. intros i.
  eapply triple_defer with (Q' := fun _ => talking w0 i) (E' := talking w0 i); [|intros ? w Hw; by apply talking_close|intros w Hw; by apply talking_close].
  eapply triple_bind; [apply setConnDeadline_connected|]. intros [].
  eapply triple_bind; [apply writeTo_connected|]. intros [].
  eapply triple_bind; [apply readFrom_connected, (readFull_reads 1); lia|]. intros prefix.
  apply triple_exists. intros taken. apply triple_known. intros [-> Hp].
  unfold portAnswer.
  eapply triple_bind; [apply triple_lifted; [|intros w Hw; by eexists]|].
  { destruct (index_ok prefix 0) as (b & _ & ->); [lia|done]. }
  intros first. apply triple_if; [apply triple_fail; intros w Hw; by eexists|].
  eapply triple_bind; [apply readFrom_connected, (readFull_reads 4); lia|]. intros portBuf. cbv zeta.
  apply triple_if; [apply triple_fail|apply triple_ret]; intros w (t & _ & Hw); by eexists.
Qed.
End Sockets.

(** ** Time *)

(** A network that respects deadlines: what has a deadline takes no longer. *)
Record punctual `{Network} : Prop := {
  dial_ends : forall i d address t l, (dialing i d address t (Some l)).2 <= Z.max 0 (l - t);
  handshake_ends : forall i name t l, (handshaking i name t (Some l)).2 <= Z.max 0 (l - t);
  write_ends : forall i k packet t l, (writing i k packet t (Some l)).2 <= Z.max 0 (l - t);
  read_ends : forall i k t limit l, (forall t', exists d, limit t' = Some d /\ d <= l) ->
    arrivalTime (reading i k t limit) <= Z.max 0 (l - t);
}.

Definition inTime (D : Z) (w : world) : Prop := now w <= D.

(** In time, with a deadline on the socket that is. *)
Definition timed (D : Z) (i : nat) (w : world) : Prop :=
  now w <= D /\ match deadline (socketAt w i) with Some l => l <= D | None => False end.

Lemma timed_inTime D i w : timed D i w -> inTime D w.
Proof. by intros [Ht _]. Qed.

(** The timeout of a socket does not put off its deadline. *)
Lemma readLimit_deadline s t l : deadline s = Some l -> exists d, readLimit s t = Some d /\ d <= l.
Proof.
  intros Hl. unfold readLimit, socketReadDeadline. rewrite Hl. destruct (0 <? readTimeout s); [|by exists l].
  destruct (Z.ltb_spec l (t + readTimeout s)); eexists; (split; [reflexivity|lia]).
Qed.

Lemma in_time time l t D : time <= Z.max 0 (l - t) -> l <= D -> t <= D -> t + Z.max time 0 <= D.
Proof. lia. Qed.

Lemma WithTimeout_deadline ctx t timeout :
  exists l, ctxDeadline (WithTimeout ctx t timeout) = Some l /\ l <= t + timeout /\
    forall d, ctxDeadline ctx = Some d -> l <= d.
Proof.
  unfold WithTimeout. cbv zeta. destruct (ctxDeadline ctx) as [c|] eqn:E.
  - destruct (Z.ltb_spec c (t + timeout)); cbn.
    + rewrite E. exists c. split_and!; [done|lia|]. intros d [= <-]. lia.
    + exists (t + timeout). split_and!; [done|lia|]. intros d [= <-]. lia.
  - exists (t + timeout). split_and!; [done|lia|done].
Qed.

Section Time.
Context `{Network} (Hpunctual : punctual) (D : Z).

Lemma onSocket_inTime i f : keeping_world (inTime D) (onSocket i f).
Proof. by apply triple_modify. Qed.

Lemma closeSocket_inTime i : keeping_world (inTime D) (closeSocket i).
Proof. by apply triple_modify. Qed.

Lemma onSocket_timed i f : (forall s, deadline (f s) = deadline s) -> keeping_world (timed D i) (onSocket i f).
Proof. intros Hf. apply triple_modify. intros w [Ht Hd]. split; [done|]. by rewrite socketAt_same, Hf. Qed.

Lemma failNet_timed {A} i e : triple (timed D i) (@failNet A e) (fun _ => timed D i) (inTime D).
Proof. apply triple_fail. intros w Hw. by eapply timed_inTime. Qed.

Lemma netDial_inTime d address l : l <= D -> keeping_world (inTime D) (netDial d address (Some l)).
Proof.
  intros Hl w Hw. unfold netDial, inTime in *. pose proof (dial_ends Hpunctual (dials w) d address (now w) l) as Ht.
  destruct (dialing _ _ _ _ _) as [[e|] time]; cbn in *; by eapply in_time.
Qed.

Lemma setConnDeadline_timed i ctx l E : ctxDeadline ctx = Some l -> l <= D ->
  triple (inTime D) (setConnDeadline i ctx) (fun _ => timed D i) E.
Proof. intros E' Hl. unfold setConnDeadline. rewrite E'. apply triple_modify. intros w Hw. split; [done|]. by rewrite socketAt_same. Qed.

Lemma elapse_timed i time v :
  timed D i v -> (forall l, deadline (socketAt v i) = Some l -> time <= Z.max 0 (l - now v)) ->
  triple (eq v) (elapse time) (fun _ => timed D i) (inTime D).
Proof.
  intros [Ht Hd] Htime. apply triple_modify. intros w <-. split; [|done]. cbn.
  destruct (deadline (socketAt v i)) as [l|] eqn:E; [|done]. eapply in_time; [by apply Htime|done|done].
Qed.

Lemma writeTo_timed i packet : triple (timed D i) (writeTo i packet) (fun _ => timed D i) (inTime D).
Proof.
  unfold writeTo. apply triple_now. intros v Hv. cbv zeta.
  destruct (writing _ _ _ _ _) as [answer time] eqn:Ew. eapply triple_bind.
  { apply elapse_timed; [done|]. intros l Hl. rewrite Hl in Ew. pose proof (write_ends Hpunctual i (operations (socketAt v i)) packet (now v) l) as He.
    by rewrite Ew in He. }
  intros []. destruct answer as [e|].
  - eapply triple_bind; [eapply triple_weaken; [by apply onSocket_timed|done|done|apply timed_inTime]|]. intros []. apply failNet_timed.
  - eapply triple_weaken; [by apply onSocket_timed|done|done|apply timed_inTime].
Qed.

Lemma readFrom_timed {A} i (read : inbound -> outcome A * inbound) R : reads read R ->
  triple (timed D i) (readFrom i read) (fun a w => exists taken, R a taken /\ timed D i w) (inTime D).
Proof.
  intros Hread. unfold readFrom. apply triple_now. intros v Hv. cbv zeta. eapply triple_bind.
  { apply elapse_timed; [done|]. intros l Hl. apply (read_ends Hpunctual). intros t'. by apply readLimit_deadline. }
  intros []. set (conn := mkInbound _ _). specialize (Hread conn). destruct (read conn) as [r rest].
  eapply triple_bind; [eapply triple_weaken; [by apply onSocket_timed|done|done|apply timed_inTime]|]. intros [].
  intros w Hw. unfold liftNet. destruct r; [|by eapply timed_inTime|done]. destruct Hread as (taken & _ & HR). by exists taken.
Qed.

Lemma handshake_inTime i name l : l <= D -> keeping_world (inTime D) (handshake i name (Some l)).
Proof.
  intros Hl. unfold handshake. apply triple_now. intros v Hv. destruct (handshaking _ _ _ _) as [answer time] eqn:Eh.
  pose proof (handshake_ends Hpunctual i name (now v) l) as He. rewrite Eh in He. cbn in He.
  eapply triple_bind with (R := fun _ => inTime D).
  - apply triple_modify. intros w <-. by eapply in_time.
  - intros []. destruct answer; [by apply triple_fail|apply onSocket_inTime].
Qed.

Lemma closing_inTime {A} i P (m : Net A) Q : triple P m Q (inTime D) -> triple P (closing i m) Q (inTime D).
Proof.
  intros Hm. eapply triple_onError; [exact Hm|]. intros e. eapply triple_bind; [apply closeSocket_inTime|]. intros []. by apply triple_fail.
Qed.

Lemma reworded_inTime {A} (m : Net A) e : keeping_world (inTime D) m -> keeping_world (inTime D) (onError m (fun _ => failNet e)).
Proof. intros Hm. eapply triple_onError; [exact Hm|]. intros e'. by apply triple_fail. Qed.

Lemma setOption_inTime i o : keeping_world (inTime D) (setOption i o).
Proof.
  unfold setOption. apply keeping_world_bind; [apply onSocket_inTime|]. intros _. destruct (optionAnswer i o); [by apply triple_fail|by apply triple_ret].
Qed.

Lemma applySocketOptions_inTime i cfg : keeping_world (inTime D) (applySocketOptions i cfg).
Proof.
  unfold applySocketOptions. cbv zeta. apply keeping_world_bind; [|intros _; apply keeping_world_bind; [|intros _]].
  - destruct (TCPNoDelay _); [apply reworded_inTime, setOption_inTime|by apply triple_ret].
  - apply triple_if; [apply reworded_inTime, setOption_inTime|by apply triple_ret].
  - apply triple_if; [apply reworded_inTime, setOption_inTime|by apply triple_ret].
Qed.

Lemma dialHostServer_inTime ctx cfg port l : ctxDeadline ctx = Some l -> l <= D ->
  keeping_world (inTime D) (dialHostServer ctx cfg port).
Proof.
  intros Hc Hl. unfold dialHostServer. apply triple_if; [by apply triple_fail|]. cbv zeta. apply keeping_world_bind.
  { rewrite Hc. apply reworded_inTime. by apply netDial_inTime. }
  intros i. apply keeping_world_bind; [apply closing_inTime, applySocketOptions_inTime|]. intros _. apply keeping_world_bind.
  { apply triple_if; [|by apply triple_ret]. apply triple_get. intros v. cbv beta zeta. apply closing_inTime, reworded_inTime.
    destruct (0 <? ConnectTimeout cfg); [|rewrite Hc; by apply handshake_inTime].
    destruct (WithTimeout_deadline ctx (now v) (ConnectTimeout cfg)) as (l' & -> & _ & Hd). specialize (Hd l Hc). apply handshake_inTime. lia. }
  intros _. apply keeping_world_bind; [|intros _; by apply triple_ret].
  apply triple_if; [apply onSocket_inTime|by apply triple_ret].
Qed.

Lemma ResolvePort_inTime ctx host service l : ctxDeadline ctx = Some l -> l <= D ->
  keeping_world (inTime D) (ResolvePort ctx host service).
Proof.
  intros Hc Hl. unfold ResolvePort. do 2 (apply triple_if; [by apply triple_fail|]). apply keeping_world_bind.
  { rewrite Hc. by apply netDial_inTime. }
  intros i. eapply triple_defer with (Q' := fun _ => timed D i) (E' := inTime D); [|intros ? w Hw; by apply timed_inTime in Hw|done].
  eapply triple_bind; [by eapply setConnDeadline_timed|]. intros [].
  eapply triple_bind; [apply writeTo_timed|]. intros [].
  eapply triple_bind; [apply readFrom_timed, (readFull_reads 1); lia|]. intros prefix.
  apply triple_exists. intros taken. apply triple_known. intros [-> Hp].
  unfold portAnswer. eapply triple_bind; [apply triple_lifted; [|apply timed_inTime]|].
  { destruct (index_ok prefix 0) as (b & _ & ->); [lia|done]. }
  intros first. apply triple_if; [apply failNet_timed|].
  eapply triple_bind; [apply readFrom_timed, (readFull_reads 4); lia|].
  intros portBuf. cbv zeta. apply triple_if; [apply triple_fail; intros w (t & _ & Hw); by eapply timed_inTime|apply triple_ret; by intros w (t & _ & Hw)].
Qed.
End Time.
