(* ===== verification/SignOn.v ===== *)
(** Opening a connection: signon.go, the handshake of dbconn.go, openConn of
    driver.go, and the second connection of a native cancel.

    A connection is opened in two steps: the sign-on server is asked for the
    password level, then the database server is started with the password
    substitute of that level, told the attributes of the connection, and given
    its library list. *)
From Stdlib Require Import Strings.String.
From stdpp Require Import base list numbers strings gmap.
From S2P Require Import Prelude GoStrings Utf Ccsid Wire Reply Format Request Sqlca Config Package StatementCache Attributes Session.
From S2P Require Import GoCrypto Password Transport.
Open Scope Z_scope.

Definition clientVersion : Z := 1.
Definition clientDataStreamLevel : Z := 2.
Definition clientCCSID : Z := 1200.

(** Assignments to the fields of [SystemInfo]. *)
Definition withServerVersion (s : SystemInfo) (v : Z) : SystemInfo :=
  mkSystemInfo (System s) v (ServerLevel s) (ServerCCSID s) (ServerFunctionalLevel s) (ServerJobIdentifier s) (PasswordLevel s) (JobName s).
Definition withServerLevel (s : SystemInfo) (v : Z) : SystemInfo :=
  mkSystemInfo (System s) (ServerVersion s) v (ServerCCSID s) (ServerFunctionalLevel s) (ServerJobIdentifier s) (PasswordLevel s) (JobName s).
Definition withServerCCSID (s : SystemInfo) (v : Z) : SystemInfo :=
  mkSystemInfo (System s) (ServerVersion s) (ServerLevel s) v (ServerFunctionalLevel s) (ServerJobIdentifier s) (PasswordLevel s) (JobName s).
Definition withPasswordLevel (s : SystemInfo) (v : Z) : SystemInfo :=
  mkSystemInfo (System s) (ServerVersion s) (ServerLevel s) (ServerCCSID s) (ServerFunctionalLevel s) (ServerJobIdentifier s) v (JobName s).

Definition newSystemInfo (system : bytes) : SystemInfo := mkSystemInfo system 0 0 0 0 [] 0 [].

(** [uint64(time.Now().UnixMilli())] as eight bytes; the clock is in
    nanoseconds. *)
Definition seedOfClock (time : Z) : bytes := be64 (u64 (time / 1000000)).

(** The loop [for len(payload) >= 6 { ... ParseLLCP ... }].  Every turn consumes
    six bytes, so that [len payload] turns are enough. *)
Fixpoint whileLLCP {S} (body : S -> Z -> bytes -> outcome S) (fuel : nat) (s : S) (payload : bytes) : outcome S :=
  if len payload <? 6 then Ret s
  else
    match fuel with
    | O => Panic
    | Datatypes.S fuel' =>
        '(cp, cpPayload, rest) ← ParseLLCP payload;
        s ← body s cp cpPayload;
        whileLLCP body fuel' s rest
    end.
Definition eachLLCP {S} (body : S -> Z -> bytes -> outcome S) (s : S) (payload : bytes) : outcome S :=
  whileLLCP body (length payload) s payload.

(** ** Requests *)

Definition signonExchangeRequest (clientSeed : bytes) : bytes :=
  let request := buildHeader 52 0 SignonServerID 0 RequestExchangeAttributes in
  let request := appendU32 request 10 in
  let request := appendU16 request CodePointClientVersion in
  let request := appendU32 request clientVersion in
  let request := appendU32 request 8 in
  let request := appendU16 request CodePointClientDSLevel in
  let request := appendU16 request clientDataStreamLevel in
  let request := appendU32 request 14 in
  let request := appendU16 request CodePointClientSeed in
  appendBytes request clientSeed.

Definition signonInfoRequest (serverLevel : Z) (encryptedPassword wireUserBytes : bytes) : bytes :=
  let length := 37 + len encryptedPassword + 16 in
  let length := if 5 <=? serverLevel then length + 7 else length in
  let request := buildHeader (u32 length) 0 SignonServerID 1 RequestSignonInfo in
  let request := request ++ [passwordAuthScheme (len encryptedPassword)] in
  let request := appendU32 request 10 in
  let request := appendU16 request CodePointClientCCSID in
  let request := appendU32 request clientCCSID in
  let request := appendU32 request (u32 (6 + len encryptedPassword)) in
  let request := appendU16 request CodePointPassword in
  let request := appendBytes request encryptedPassword in
  let request := appendU32 request 16 in
  let request := appendU16 request CodePointUserID in
  let request := appendBytes request wireUserBytes in
  if 5 <=? serverLevel then
    let request := appendU32 request 7 in
    let request := appendU16 request CodePointReturnErrorMessages in
    request ++ [1]
  else request.

Definition exchangeSeedsRequest (clientSeed : bytes) : bytes :=
  let request := appendU32 [] 28 in
  let request := request ++ [1] in
  let request := request ++ [0] in
  let request := appendU16 request DatabaseServerID in
  let request := appendU32 request 0 in
  let request := appendU32 request 0 in
  let request := appendU16 request 8 in
  let request := appendU16 request RequestExchangeRandomSeeds in
  appendBytes request clientSeed.

Definition startServerRequest (encryptedPassword wireUserBytes : bytes) : bytes :=
  let requestLen := 44 + len encryptedPassword in
  let request := appendU32 [] (u32 requestLen) in
  let request := request ++ [2] in
  let request := request ++ [0] in
  let request := appendU16 request DatabaseServerID in
  let request := appendU32 request 0 in
  let request := appendU32 request 0 in
  let request := appendU16 request 2 in
  let request := appendU16 request RequestStartServer in
  let request := request ++ [passwordAuthScheme (len encryptedPassword)] in
  let request := request ++ [1] in
  let request := appendU32 request (u32 (6 + len encryptedPassword)) in
  let request := appendU16 request CodePointPassword in
  let request := appendBytes request encryptedPassword in
  let request := appendU32 request 16 in
  let request := appendU16 request CodePointUserID in
  appendBytes request wireUserBytes.

Definition signonError (rc : Z) : goerror :=
  if rc =? 0x20001 then EText "authentication failed: user ID is not known" []
  else if rc =? 0x3000B then EText "authentication failed: signon rejected by server" []
  else if rc =? 0x3000C then EText "authentication failed: user profile will be revoked on next invalid password or passphrase" []
  else if rc =? 0x3000D then EText "authentication failed: password is expired" []
  else EText "authentication failed: signon failed with return code" [u32 rc].

Section SignOn.
Context `{TableFS} `{UnicodeCase} `{Network}.

Definition signonUserBytes (user : bytes) (level : Z) (forEncryption : bool) : outcome bytes :=
  if (2 <=? level) && forEncryption then Ret (EncodeUTF16BEBlankPad (ToUpper user) 20)
  else if 10 <? len user then Fail (EText "user too long" [])
  else EncodeEBCDIC37BlankPad (ToUpper user) 10.

(** ** signon.go *)

(** One request and its reply. *)
Definition converse {A} (conn : nat) (request : bytes) (read : bytes -> outcome A) : Net A :=
  writeTo conn request;;
  packet ← readFrom conn readPacket;
  liftNet (read packet).

(** The parameters of the reply to the exchange of attributes; the state is the
    information and the server seed. *)
Definition signonParameter (s : SystemInfo * bytes) (cp : Z) (p : bytes) : outcome (SystemInfo * bytes) :=
  let '(info, seed) := s in
  if cp =? CodePointClientVersion then
    Ret (if 4 <=? len p then withServerVersion info (unbe (take 4 p)) else info, seed)
  else if cp =? CodePointClientDSLevel then
    Ret (if 2 <=? len p then withServerLevel info (unbe (take 2 p)) else info, seed)
  else if cp =? CodePointClientSeed then
    Ret (info, if 8 <=? len p then take 8 p else seed)
  else if cp =? CodePointPasswordLevel then
    Ret (match p with b :: _ => withPasswordLevel info b | [] => info end, seed)
  else if (cp =? CodePointJobName) && (4 <=? len p) then
    jobName ← decoded37 (drop 4 p);
    Ret (match jobName with Some name => withJobName info name | None => info end, seed)
  else Ret s.

Definition signonExchange (conn : nat) (system : bytes) : Net (SystemInfo * bytes * bytes) :=
  w ← getWorld;
  let clientSeed := seedOfClock (now w) in
  '(rc, payload) ← converse conn (signonExchangeRequest clientSeed) (fun packet => readSimpleReplyForID packet ReplyExchangeAttributes);
  if negb (rc =? 0) then failNet (signonError rc)
  else
    '(info, serverSeed) ← liftNet (eachLLCP signonParameter (newSystemInfo system, []) payload);
    if len serverSeed =? 0 then failNet (EText "signon exchange reply missing server seed" [])
    else mret (info, clientSeed, serverSeed).

Definition ccsidParameter (info : SystemInfo) (cp : Z) (p : bytes) : outcome SystemInfo :=
  Ret (if (cp =? CodePointServerCCSID) && (4 <=? len p) then withServerCCSID info (unbe (take 4 p)) else info).

Definition signonAuthenticate (conn : nat) (info : SystemInfo) (user password clientSeed serverSeed : bytes) : Net SystemInfo :=
  encryptedPassword ← liftNet (passwordSubstitute user password (PasswordLevel info) clientSeed serverSeed);
  wireUserBytes ← liftNet (signonUserBytes user 0 false);
  '(rc, payload) ← converse conn (signonInfoRequest (ServerLevel info) encryptedPassword wireUserBytes)
    (fun packet => readSimpleReplyForID packet ReplySignonInfo);
  if negb (rc =? 0) then failNet (signonError rc)
  else liftNet (eachLLCP ccsidParameter info payload).

(** [if ctxErr := ctx.Err(); ctxErr != nil { return ctxErr }; return err]. *)
Definition orContextError {A} (ctx : context) (m : Net A) : Net A :=
  onError m (fun e => w ← getWorld; failNet (match ctxErr ctx (now w) with Some c => c | None => e end)).

Definition connectSystemInfo (ctx : context) (cfg : Config) (user password : bytes) : Net SystemInfo :=
  let signonPort := if UseTLS cfg then SecureSignonPort else SignonPort in
  conn ← dialHostServer ctx cfg signonPort;
  deferNet (closeSocket conn) (
    setConnDeadline conn ctx;;
    deferNet (releaseDeadline conn ctx) (
      '(info, clientSeed, serverSeed) ← orContextError ctx (signonExchange conn (Host cfg));
      orContextError ctx (signonAuthenticate conn info user password clientSeed serverSeed))).

(** ** dbconn.go *)

Definition databaseExchangeSeeds (conn : nat) (clientSeed : bytes) : Net bytes :=
  '(rc, payload) ← converse conn (exchangeSeedsRequest clientSeed) (fun packet => readSimpleReplyForID packet ReplyExchangeRandomSeeds);
  if negb (rc =? 0) then failNet (EText "database exchange seeds failed with return code" [u32 rc])
  else if len payload <? 8 then failNet (EText "database exchange seeds reply too short" [])
  else mret (take 8 payload).

Definition jobNameParameter (info : SystemInfo) (cp : Z) (p : bytes) : outcome SystemInfo :=
  if (cp =? CodePointJobName) && (4 <=? len p) then
    jobName ← decoded37 (drop 4 p);
    Ret (match jobName with Some name => withJobName info name | None => info end)
  else Ret info.

Definition databaseStartServer (conn : nat) (info : SystemInfo) (user password clientSeed serverSeed : bytes) : Net SystemInfo :=
  encryptedPassword ← liftNet (passwordSubstitute user password (PasswordLevel info) clientSeed serverSeed);
  wireUserBytes ← liftNet (signonUserBytes user 0 false);
  '(rc, payload) ← converse conn (startServerRequest encryptedPassword wireUserBytes)
    (fun packet => readSimpleReplyForID packet ReplyStartServer);
  if negb (rc =? 0) then failNet (EText "database start server failed with return code" [u32 rc])
  else liftNet (eachLLCP jobNameParameter info payload).

Definition databaseSetServerAttributes (conn : nat) (cfg : Config) (info : SystemInfo) (autoCommit : bool) : Net (SystemInfo * bytes) :=
  request ← liftNet (buildSetServerAttributesRequestVRM cfg autoCommit (CommitmentControl cfg) (ServerVersion info));
  '(envelope, payload) ← converse conn request readReplyEnvelope;
  if hasError envelope then failNet (EText "database server attributes failed" [RCClass envelope; u32 (RCCode envelope)])
  else
    parsed ← liftNet (parseServerAttributesPayload payload (Some info));
    let info := default info parsed in
    mret (info, JobName info).

Definition databaseAddLibraryList (conn : nat) (cfg : Config) : Net unit :=
  let '(indicators, libraries) := configuredLibraryList cfg in
  request ← liftNet (buildAddLibraryListRequest indicators libraries);
  match request with
  | None => mret tt
  | Some request =>
      '(envelope, _) ← converse conn request readReplyEnvelope;
      if hasError envelope then failNet (EText "database add library list failed" [RCClass envelope; u32 (RCCode envelope)])
      else mret tt
  end.

(** config.go: the service the port mapper is asked for. *)
Definition DatabaseServiceName (cfg : Config) : bytes := if UseTLS cfg then lit "as-database-s" else lit "as-database".

Definition databasePortOf (ctx : context) (cfg : Config) : Net Z :=
  if Port cfg =? 0 then onError (ResolvePort ctx (Host cfg) (DatabaseServiceName cfg)) (fun _ => mret (DefaultPort cfg))
  else mret (Port cfg).

(** The connection, the job name and what the server told about itself. *)
Definition connectDatabase (ctx : context) (cfg : Config) (info : SystemInfo) (user password : bytes) : Net (nat * bytes * SystemInfo) :=
  databasePort ← databasePortOf ctx cfg;
  if databasePort <=? 0 then failNet (EText "connection error: invalid database port" [])
  else
    conn ← dialHostServer ctx cfg databasePort;
    setConnDeadline conn ctx;;
    deferNet (releaseDeadline conn ctx) (closing conn (
      w ← getWorld;
      let clientSeed := seedOfClock (now w) in
      serverSeed ← orContextError ctx (databaseExchangeSeeds conn clientSeed);
      info ← orContextError ctx (databaseStartServer conn info user password clientSeed serverSeed);
      '(info, jobName) ← orContextError ctx (databaseSetServerAttributes conn cfg info true);
      orContextError ctx (databaseAddLibraryList conn cfg);;
      mret (conn, jobName, info))).

(** ** driver.go *)

(** The connection starts with the bytes the handshake left unread. *)
Definition newConn (cfg : Config) (info : SystemInfo) (pkg : option packageState) (left : bytes) (time : Z) : Conn :=
  mkConn cfg (Some info) (Some left) false None true (CommitmentControl cfg) [] emptyCache pkg ∅ 0 0 ∅ ∅ ∅ time 0 [] ∅.

(** The context of an open that begins at a time. *)
Definition openContext (ctx : context) (cfg : Config) (time : Z) : context :=
  if 0 <? ConnectTimeout cfg then WithTimeout ctx time (ConnectTimeout cfg) else ctx.

Definition openConn (ctx : context) (cfg : Config) : Net (nat * Conn) :=
  w ← getWorld;
  let ctx := openContext ctx cfg (now w) in
  info ← connectSystemInfo ctx cfg (User cfg) (Config.Password cfg);
  '(dbConn, _, info) ← connectDatabase ctx cfg info (User cfg) (Config.Password cfg);
  pkg ← closing dbConn (liftNet (newPackageState cfg));
  w ← getWorld;
  let conn pkg := newConn cfg info pkg (unread (socketAt w dbConn)) (now w) in
  mret (dbConn, match pkg with
    | NewState p => conn (Some p)
    | NoPackage => conn None
    | NoPackageWarning => (recordWarning [mkWarning 0 packageSQLStateDisabled missingPackageName] (conn None)).2
    end).

(** ** Native cancel (dbconn.go) *)

Definition cancelStatement (ctx : context) (c : Conn) : Net unit :=
  w ← getWorld;
  match ctxErr ctx (now w), systemInfo c with
  | Some e, _ => failNet e
  | None, None => failNet (EUnsupported "protocol-native cancel")
  | None, Some info =>
      if negb (canCancelNatively c) then failNet (EUnsupported "protocol-native cancel")
      else
        let ctx := WithTimeout ctx (now w) nativeCancelTimeout in
        '(cancelConn, _, _) ← connectDatabase ctx (cfg c) info (User (cfg c)) (Config.Password (cfg c));
        deferNet (closeSocket cancelConn) (
          request ← liftNet (buildCancelRequest 0 (ServerJobIdentifier info));
          setConnDeadline cancelConn ctx;;
          deferNet (clearConnDeadline cancelConn) (
            '(envelope, _) ← converse cancelConn request readReplyEnvelope;
            if hasError envelope then failNet (EText "cancel request failed" [RCClass envelope; u32 (RCCode envelope)])
            else mret tt))
  end.
End SignOn.

(** * Lemmas *)

(** ** The loops over parameters *)

Lemma eachLLCP_no_panic {S} (body : S -> Z -> bytes -> outcome S) s payload :
  (forall s cp p, no_panic (body s cp p)) -> no_panic (eachLLCP body s payload).
Proof.
  intros Hb. unfold eachLLCP.
  assert (forall fuel s payload, (length payload <= fuel)%nat -> no_panic (whileLLCP body fuel s payload)) as H; [|by apply H].
  intros fuel. induction fuel as [|fuel IH]; intros t data Hl; cbn [whileLLCP]; (destruct (len data <? 6) eqn:E; [done|]).
  - unfold len in E. lia.
  - apply bind_no_panic; [apply ParseLLCP_no_panic|]. intros [[cp p] rest] Hp. apply bind_no_panic; [apply Hb|]. intros t' _.
    apply IH. apply ParseLLCP_shrinks in Hp. lia.
Qed.

Lemma length_reverseFront {A} n (l : list A) : length (reverseFront n l) = length l.
Proof. unfold reverseFront. case_match; [|done]. rewrite length_app, length_reverse, length_take, length_drop. lia. Qed.

Lemma length_indicatorsOf a b libraries : length (indicatorsOf a b libraries) = length libraries.
Proof. revert b. induction libraries as [|l libraries IH]; intros b; [done|]. cbn [indicatorsOf length]. by rewrite IH. Qed.

Lemma configuredLibraryList_lengths cfg : length (configuredLibraryList cfg).1 = length (configuredLibraryList cfg).2.
Proof. unfold configuredLibraryList. cbv zeta. cbn [fst snd]. by rewrite !length_reverseFront, length_indicatorsOf. Qed.

(** ** What a conversation on a socket keeps *)

(** [T h] holds after the conversation [h] on the socket, [E] when it fails.  Both
    the bookkeeping of the sockets and that of the time are such invariants, so
    that the handshake is walked through once. *)
Record conversation `{Network} (i : nat) (T : list message -> world -> Prop) (E : world -> Prop) : Prop := {
  conversation_write : forall h packet, triple (T h) (writeTo i packet) (fun _ => T (h ++ [Out packet])) E;
  conversation_read : forall h A (read : inbound -> outcome A * inbound) R, reads read R ->
    triple (T h) (readFrom i read) (fun a w => exists taken, R a taken /\ T (h ++ [In taken]) w) E;
  conversation_fails : forall h w, T h w -> E w;
}.

Lemma connected_conversation `{Network} w0 i : conversation i (connected w0 i) (talking w0 i).
Proof.
  constructor; [intros; apply writeTo_connected|intros; by apply readFrom_connected|intros h w Hw; by exists h].
Qed.

Lemma timed_conversation `{Network} D i : punctual -> conversation i (fun _ => timed D i) (inTime D).
Proof.
  intros Hp. constructor; [intros; by apply writeTo_timed|intros; by apply readFrom_timed|intros h w; apply timed_inTime].
Qed.

Lemma orContextError_triple {A} ctx (m : Net A) P Q E : triple P m Q E -> triple P (orContextError ctx m) Q E.
Proof. intros Hm. eapply triple_onError; [exact Hm|]. intros e. apply triple_get. intros v. by apply triple_fail. Qed.

(** ** What a successful handshake consists of

    Each step is a request with the reply it was accepted by: [h] is what went
    over the socket, the other arguments what the step starts from and gives. *)

Definition exchanged (request reply : bytes) : list message := [Out request; In reply].

Section Steps.
Context `{TableFS} `{UnicodeCase}.

(** The password level and the seed of the sign-on server. *)
Definition exchangedAttributes (system clientSeed : bytes) (h : list message) (info : SystemInfo) (serverSeed : bytes) : Prop :=
  exists reply payload,
    h = exchanged (signonExchangeRequest clientSeed) reply /\
    readSimpleReplyForID reply ReplyExchangeAttributes = Ret (0, payload) /\
    eachLLCP signonParameter (newSystemInfo system, []) payload = Ret (info, serverSeed).

(** The sign-on server took the substitute. *)
Definition acceptedSignon (user password clientSeed serverSeed : bytes) (info : SystemInfo) (h : list message) (info' : SystemInfo) : Prop :=
  exists substitute userBytes reply payload,
    passwordSubstitute user password (PasswordLevel info) clientSeed serverSeed = Ret substitute /\
    signonUserBytes user 0 false = Ret userBytes /\
    h = exchanged (signonInfoRequest (ServerLevel info) substitute userBytes) reply /\
    readSimpleReplyForID reply ReplySignonInfo = Ret (0, payload) /\
    eachLLCP ccsidParameter info payload = Ret info'.

Definition exchangedSeeds (clientSeed : bytes) (h : list message) (serverSeed : bytes) : Prop :=
  exists reply payload,
    h = exchanged (exchangeSeedsRequest clientSeed) reply /\
    readSimpleReplyForID reply ReplyExchangeRandomSeeds = Ret (0, payload) /\
    8 <= len payload /\ serverSeed = take 8 payload.

(** The database server took the substitute. *)
Definition startedServer (user password clientSeed serverSeed : bytes) (info : SystemInfo) (h : list message) (info' : SystemInfo) : Prop :=
  exists substitute userBytes reply payload,
    passwordSubstitute user password (PasswordLevel info) clientSeed serverSeed = Ret substitute /\
    signonUserBytes user 0 false = Ret userBytes /\
    h = exchanged (startServerRequest substitute userBytes) reply /\
    readSimpleReplyForID reply ReplyStartServer = Ret (0, payload) /\
    eachLLCP jobNameParameter info payload = Ret info'.

Definition setAttributes (cfg : Config) (autoCommit : bool) (info : SystemInfo) (h : list message) (info' : SystemInfo) : Prop :=
  exists request reply envelope payload parsed,
    buildSetServerAttributesRequestVRM cfg autoCommit (CommitmentControl cfg) (ServerVersion info) = Ret request /\
    h = exchanged request reply /\
    readReplyEnvelope reply = Ret (envelope, payload) /\ hasError envelope = false /\
    parseServerAttributesPayload payload (Some info) = Ret parsed /\ info' = default info parsed.

(** Without libraries there is nothing to add. *)
Definition addedLibraries (cfg : Config) (h : list message) : Prop :=
  exists request,
    buildAddLibraryListRequest (configuredLibraryList cfg).1 (configuredLibraryList cfg).2 = Ret request /\
    match request with
    | None => h = []
    | Some request => exists reply envelope payload,
        h = exchanged request reply /\ readReplyEnvelope reply = Ret (envelope, payload) /\ hasError envelope = false
    end.

(** The two handshakes: on the socket of the sign-on server, and on the socket of
    the database server with the password level the first one announced. *)
Definition signedOn (system user password : bytes) (h : list message) (info' : SystemInfo) : Prop :=
  exists clientSeed serverSeed info h1 h2,
    h = h1 ++ h2 /\ exchangedAttributes system clientSeed h1 info serverSeed /\
    acceptedSignon user password clientSeed serverSeed info h2 info'.

Definition startedDatabase (cfg : Config) (user password : bytes) (info : SystemInfo) (h : list message) (info' : SystemInfo) : Prop :=
  exists clientSeed serverSeed info1 h1 h2 h3 h4,
    h = ((h1 ++ h2) ++ h3) ++ h4 /\ exchangedSeeds clientSeed h1 serverSeed /\
    startedServer user password clientSeed serverSeed info h2 info1 /\
    setAttributes cfg true info1 h3 info' /\ addedLibraries cfg h4.
End Steps.

Section Handshake.
Context `{TableFS} `{UnicodeCase} `{Network} (sb : singleByte).
Hypothesis table37 : Lookup 37 = Ret (CSingle sb).

Lemma table37_no_panic : no_panic (Lookup 37).
Proof. by rewrite table37. Qed.

Lemma decoded37_no_panic data : no_panic (decoded37 data).
Proof.
  unfold decoded37, DecodeEBCDIC37, Decode. by rewrite table37.
Qed.
#[local] Hint Resolve decoded37_no_panic : nopanic.

Lemma signonUserBytes_no_panic user level forEncryption : no_panic (signonUserBytes user level forEncryption).
Proof. unfold signonUserBytes. do 2 (case_match; [done|]). apply blankPad_no_panic; [apply table37_no_panic|done]. Qed.

Lemma signonParameter_no_panic s cp p : no_panic (signonParameter s cp p).
Proof. unfold signonParameter. destruct s as [info seed]. np. Qed.

Lemma jobNameParameter_no_panic s cp p : no_panic (jobNameParameter s cp p).
Proof. unfold jobNameParameter. np. Qed.

Lemma textAttribute_no_panic cp value b : no_panic (textAttribute cp value b).
Proof. unfold textAttribute, appendEBCDIC37StringAttribute. pose proof (EncodeEBCDIC37_no_panic value table37_no_panic). np. Qed.

Lemma appendClientInfos_no_panic dst count attrs : no_panic (appendClientInfos dst count attrs).
Proof.
  revert dst count. induction attrs as [|[cp value] attrs IH]; intros dst count; cbn [appendClientInfos]; [done|].
  case_match; [apply IH|]. apply bind_no_panic; [|intros d _; apply IH]. unfold appendClientInfoAttribute.
  pose proof (EncodeEBCDIC37_no_panic value table37_no_panic). np.
Qed.
#[local] Hint Resolve textAttribute_no_panic appendClientInfos_no_panic : nopanic.

Lemma setAttributes_no_panic cfg autoCommit mode vrm : no_panic (buildSetServerAttributesRequestVRM cfg autoCommit mode vrm).
Proof. unfold buildSetServerAttributesRequestVRM, appendVRMOptionAttributes. cbv zeta. np. Qed.

Lemma one_byte b : exists x, EncodeEBCDIC37 [b] = Ret [x].
Proof.
  unfold EncodeEBCDIC37, Encode. rewrite table37. cbn [mbind outcome_bind codecEncode]. unfold sbEncode.
  assert (exists r, runesOf [b] = [r] /\ r <= 0xFFFF) as (r & -> & Hr).
  { assert (decodeRune [b] = (if b <? 128 then b else runeError, 1%nat)) as E.
    { cbn [decodeRune]. destruct (b <? 128); [done|]. destruct (between 0xC2 0xDF b); [done|]. destruct (between 0xE0 0xEF b); [done|].
      by destruct (between 0xF0 0xF4 b). }
    unfold runesOf. cbn [length runesFuel]. rewrite E. eexists. split; [reflexivity|]. unfold runeError. destruct (Z.ltb_spec b 128); lia. }
  cbn [fmap list_fmap concat]. unfold sbEncodeRune. rewrite (proj2 (Z.ltb_ge _ _)) by lia. by eexists.
Qed.

Lemma libraryEntries_no_panic indicators libraries :
  (length libraries <= length indicators)%nat -> no_panic (libraryEntries indicators libraries).
Proof.
  revert libraries. induction indicators as [|ind indicators IH]; intros [|l libraries] Hl; cbn [libraryEntries length] in *; try done; [lia|].
  destruct (one_byte ind) as [x ->]. cbn [mbind outcome_bind]. apply bind_no_panic; [apply EncodeEBCDIC37_no_panic, table37_no_panic|].
  intros e _. change (index [x] 0) with (Ret x). cbn [mbind outcome_bind]. apply bind_no_panic; [apply IH; lia|done].
Qed.

Lemma addLibraries_no_panic cfg :
  no_panic (buildAddLibraryListRequest (configuredLibraryList cfg).1 (configuredLibraryList cfg).2).
Proof.
  unfold buildAddLibraryListRequest. case_match; [done|]. apply bind_no_panic; [|done]. unfold appendLibraryListAttribute.
  apply bind_no_panic; [|done]. apply libraryEntries_no_panic. by rewrite configuredLibraryList_lengths.
Qed.

Lemma serverAttributes_no_panic payload info : no_panic (parseServerAttributesPayload payload info).
Proof.
  unfold parseServerAttributesPayload. destruct info as [info|]; [|done]. apply bind_no_panic; [|done].
  apply forLLCP_no_panic; [done| |lia]. intros s cp p. unfold serverAttributesBody. case_match; [|done]. apply fmap_no_panic.
  unfold parseServerAttributesBlock. case_match eqn:El; [done|]. apply Z.ltb_ge in El. rewrite !slice_ok by lia. cbn [mbind outcome_bind].
  apply bind_no_panic; [apply decoded37_no_panic|]. intros level _. cbv zeta. rewrite ?slice_ok by lia. cbn [mbind outcome_bind].
  apply bind_no_panic; [apply decoded37_no_panic|done].
Qed.

(** ** The handshake, request by request *)

Section Conversation.
Context (i : nat) (T : list message -> world -> Prop) (E : world -> Prop) (HT : conversation i T E).

Lemma converse_triple {A} h request (read : bytes -> outcome A) :
  (forall packet, no_panic (read packet)) ->
  triple (T h) (converse i request read) (fun a w => exists reply, read reply = Ret a /\ T (h ++ exchanged request reply) w) E.
Proof.
  intros Hread. unfold converse. eapply triple_bind; [apply (conversation_write _ _ _ HT)|]. intros [].
  eapply triple_bind; [apply (conversation_read _ _ _ HT), readPacket_reads|]. intros packet.
  apply triple_exists. intros taken. apply triple_known. intros ->.
  eapply triple_weaken; [by apply triple_lift|done| |apply (conversation_fails _ _ _ HT)].
  intros a w [Ha Hw]. exists packet. split; [done|]. by rewrite <- app_assoc in Hw.
Qed.

Lemma fail_triple {A} h e (Q : A -> world -> Prop) : triple (T h) (failNet e) Q E.
Proof. apply triple_fail. apply (conversation_fails _ _ _ HT). Qed.

Lemma lift_triple {A} h (m : outcome A) :
  no_panic m -> triple (T h) (liftNet m) (fun a w => m = Ret a /\ T h w) E.
Proof.
  intros Hm. eapply triple_weaken; [by apply triple_lift|done|done|apply (conversation_fails _ _ _ HT)].
Qed.

(** A request that is refused with an error, or gone on from with [Q]. *)
Lemma refused_triple {A} h (refused : bool) e (m : Net A) Q :
  (refused = false -> triple (T h) m Q E) -> triple (T h) (if refused then failNet e else m) Q E.
Proof. intros Hm. destruct refused; [apply fail_triple|by apply Hm]. Qed.

Lemma signonExchange_triple system h :
  triple (T h) (signonExchange i system)
    (fun r w => exists h', exchangedAttributes system r.1.2 h' r.1.1 r.2 /\ T (h ++ h') w) E.
Proof.
  unfold signonExchange. apply triple_get. intros v. cbv zeta. set (seed := seedOfClock _).
  eapply triple_bind; [apply converse_triple; intros packet; apply readSimpleReplyForID_no_panic|]. intros [rc payload].
  apply triple_exists. intros reply. apply triple_known. intros Er. apply refused_triple. intros Hrc%negb_false_iff%Z.eqb_eq. subst rc.
  eapply triple_bind; [apply lift_triple, eachLLCP_no_panic; intros; apply signonParameter_no_panic|].
  intros [info serverSeed]. apply triple_known. intros Ep. apply refused_triple. intros _.
  apply triple_ret. intros w Hw. eexists. split; [|exact Hw]. by exists reply, payload.
Qed.

Lemma signonAuthenticate_triple info user password clientSeed serverSeed h :
  triple (T h) (signonAuthenticate i info user password clientSeed serverSeed)
    (fun info' w => exists h', acceptedSignon user password clientSeed serverSeed info h' info' /\ T (h ++ h') w) E.
Proof.
  unfold signonAuthenticate.
  eapply triple_bind; [apply lift_triple, passwordSubstitute_no_panic, table37_no_panic|]. intros substitute. apply triple_known. intros Es.
  eapply triple_bind; [apply lift_triple, signonUserBytes_no_panic|]. intros userBytes. apply triple_known. intros Eu.
  eapply triple_bind; [apply converse_triple; intros packet; apply readSimpleReplyForID_no_panic|]. intros [rc payload].
  apply triple_exists. intros reply. apply triple_known. intros Er. apply refused_triple. intros Hrc%negb_false_iff%Z.eqb_eq. subst rc.
  eapply triple_weaken; [apply lift_triple, eachLLCP_no_panic; done|done| |done]. intros info' w [Ei Hw].
  eexists. split; [|exact Hw]. by exists substitute, userBytes, reply, payload.
Qed.

Lemma databaseExchangeSeeds_triple clientSeed h :
  triple (T h) (databaseExchangeSeeds i clientSeed)
    (fun serverSeed w => exists h', exchangedSeeds clientSeed h' serverSeed /\ T (h ++ h') w) E.
Proof.
  unfold databaseExchangeSeeds. eapply triple_bind; [apply converse_triple; intros packet; apply readSimpleReplyForID_no_panic|].
  intros [rc payload]. apply triple_exists. intros reply. apply triple_known. intros Er.
  apply refused_triple. intros Hrc%negb_false_iff%Z.eqb_eq. subst rc. apply refused_triple. intros Hl%Z.ltb_ge.
  apply triple_ret. intros w Hw. eexists. split; [|exact Hw]. by exists reply, payload.
Qed.

Lemma databaseStartServer_triple info user password clientSeed serverSeed h :
  triple (T h) (databaseStartServer i info user password clientSeed serverSeed)
    (fun info' w => exists h', startedServer user password clientSeed serverSeed info h' info' /\ T (h ++ h') w) E.
Proof.
  unfold databaseStartServer.
  eapply triple_bind; [apply lift_triple, passwordSubstitute_no_panic, table37_no_panic|]. intros substitute. apply triple_known. intros Es.
  eapply triple_bind; [apply lift_triple, signonUserBytes_no_panic|]. intros userBytes. apply triple_known. intros Eu.
  eapply triple_bind; [apply converse_triple; intros packet; apply readSimpleReplyForID_no_panic|]. intros [rc payload].
  apply triple_exists. intros reply. apply triple_known. intros Er. apply refused_triple. intros Hrc%negb_false_iff%Z.eqb_eq. subst rc.
  eapply triple_weaken; [apply lift_triple, eachLLCP_no_panic; intros; apply jobNameParameter_no_panic|done| |done]. intros info' w [Ei Hw].
  eexists. split; [|exact Hw]. by exists substitute, userBytes, reply, payload.
Qed.

Lemma databaseSetServerAttributes_triple cfg info autoCommit h :
  triple (T h) (databaseSetServerAttributes i cfg info autoCommit)
    (fun r w => exists h', setAttributes cfg autoCommit info h' r.1 /\ T (h ++ h') w) E.
Proof.
  unfold databaseSetServerAttributes. eapply triple_bind; [apply lift_triple, setAttributes_no_panic|]. intros request. apply triple_known. intros Er.
  eapply triple_bind; [apply converse_triple; intros packet; apply readReplyEnvelope_no_panic|]. intros [envelope payload].
  apply triple_exists. intros reply. apply triple_known. intros Ee. apply refused_triple. intros He.
  eapply triple_bind; [apply lift_triple, serverAttributes_no_panic|]. intros parsed. apply triple_known. intros Ep.
  apply triple_ret. intros w Hw. eexists. split; [|exact Hw]. by exists request, reply, envelope, payload, parsed.
Qed.

Lemma databaseAddLibraryList_triple cfg h :
  triple (T h) (databaseAddLibraryList i cfg) (fun _ w => exists h', addedLibraries cfg h' /\ T (h ++ h') w) E.
Proof.
  unfold databaseAddLibraryList, addedLibraries. pose proof (addLibraries_no_panic cfg) as Hl.
  destruct (configuredLibraryList cfg) as [indicators libraries]. cbn [fst snd] in *.
  eapply triple_bind; [by apply lift_triple|]. intros [request|]; apply triple_known; intros Er.
  - eapply triple_bind; [apply converse_triple; intros packet; apply readReplyEnvelope_no_panic|]. intros [envelope payload].
    apply triple_exists. intros reply. apply triple_known. intros Ee. apply refused_triple. intros He.
    apply triple_ret. intros w Hw. eexists. split; [|exact Hw]. exists (Some request). split; [done|]. by exists reply, envelope, payload.
  - apply triple_ret. intros w Hw. exists []. split; [by exists None|]. by rewrite app_nil_r.
Qed.
End Conversation.
End Handshake.

(** ** Opening and closing *)

(** What is kept around the conversations: [Idle] without a new socket, [Dialled]
    on a new one, [T] in a conversation that [E] may end, [Done] when its deadline
    is cleared, and [Closed] when the socket was closed. *)
Record socketLogic `{Network} (ctx : context) (cfg : Config) (Idle : world -> Prop) (Dialled : nat -> world -> Prop)
    (T : nat -> list message -> world -> Prop) (E : nat -> world -> Prop) (Done : nat -> list message -> world -> Prop)
    (Closed : nat -> world -> Prop) : Prop := {
  logic_conversation : forall i, conversation i (T i) (E i);
  logic_dial : forall port, triple Idle (dialHostServer ctx cfg port) Dialled Idle;
  logic_resolve : forall service, keeping_world Idle (ResolvePort ctx (Host cfg) service);
  logic_deadline : forall i F, triple (Dialled i) (setConnDeadline i ctx) (fun _ => T i []) F;
  logic_clear : forall i h w, T i h w -> Done i h (releaseDeadline i ctx w).2;
  logic_clear_failed : forall i w, E i w -> E i (releaseDeadline i ctx w).2;
  logic_clear_closed : forall i w, Closed i w -> Closed i (releaseDeadline i ctx w).2;
  logic_done : forall i h w, Done i h w -> E i w;
  logic_close : forall i w, E i w -> Closed i (closeSocket i w).2;
  logic_idle : forall i w, Closed i w -> Idle w;
}.

Lemma undone_socket w0 i f E : (dials w0 <= i)%nat -> triple (undone w0) (onSocket i f) (fun _ => undone w0) E.
Proof.
  intros Hi. apply triple_modify. intros w (Ho & Hd & Hs). split_and!; cbn; [done|done|]. intros j Hj.
  rewrite socketAt_other by lia. by apply Hs.
Qed.

Lemma releaseDeadline_undone `{Network} w0 i ctx E :
  (dials w0 <= i)%nat -> triple (undone w0) (releaseDeadline i ctx) (fun _ => undone w0) E.
Proof.
  intros Hi. unfold releaseDeadline. eapply triple_bind; [by apply undone_socket|]. intros []. apply triple_get. intros v.
  destruct (ctxErr ctx (now v)); [destruct (callbackLate i); [by apply undone_socket|]|]; by apply triple_ret.
Qed.

(** Connected, and no deadline is left on the socket while the context lives. *)
Definition settled (ctx : context) (w0 : world) (i : nat) (h : list message) (w : world) : Prop :=
  connected w0 i h w /\ (ctxErr ctx (now w) = None -> deadline (socketAt w i) = None).

Lemma connected_logic `{Network} ctx cfg w0 : known w0 ->
  socketLogic ctx cfg (undone w0) (fun i => connected w0 i []) (connected w0) (talking w0) (settled ctx w0)
    (fun i w => undone w0 w /\ (dials w0 <= i)%nat).
Proof.
  intros Hk. constructor.
  - intros i. apply connected_conversation.
  - intros port w Hw. pose proof (dialHostServer_connected ctx cfg port w (undone_known _ _ Hk Hw) w eq_refl) as H'.
    destruct (dialHostServer ctx cfg port w) as [[i|e|] w']; [by eapply connected_undone|by eapply undone_trans|done].
  - intros service w Hw. pose proof (ResolvePort_undone ctx (Host cfg) service w (undone_known _ _ Hk Hw) w eq_refl) as H'.
    destruct (ResolvePort ctx (Host cfg) service w) as [[p|e|] w']; [by eapply undone_trans|by eapply undone_trans|done].
  - intros i F. apply setConnDeadline_connected.
  - intros i h w Hw. split.
    + by apply (triple_world _ _ _ _ (releaseDeadline_connected w0 i h ctx _) Hw).
    + rewrite now_releaseDeadline. apply releaseDeadline_clears.
  - intros i w [h Hw]. exists h. by apply (triple_world _ _ _ _ (releaseDeadline_connected w0 i h ctx _) Hw).
  - intros i w [Hw Hi]. split; [|done]. by apply (triple_world _ _ _ _ (releaseDeadline_undone w0 i ctx _ Hi) Hw).
  - intros i h w [Hw _]. by exists h.
  - intros i w [h Hw]. split; [by eapply connected_close|]. destruct Hw as (_&_&[Hi _]&_). exact Hi.
  - by intros i w [Hw _].
Qed.

Lemma timed_logic `{Network} ctx cfg D l : punctual -> ctxDeadline ctx = Some l -> l <= D ->
  socketLogic ctx cfg (inTime D) (fun _ => inTime D) (fun i _ => timed D i) (fun _ => inTime D) (fun _ _ => inTime D) (fun _ => inTime D).
Proof.
  intros Hp Hc Hl. constructor; try done; try (unfold inTime; intros; by rewrite now_releaseDeadline).
  - intros i. by apply timed_conversation.
  - intros port. by eapply dialHostServer_inTime.
  - intros service. by eapply ResolvePort_inTime.
  - intros i F. by eapply setConnDeadline_timed.
  - intros i h w [Hw _]. unfold inTime. by rewrite now_releaseDeadline.
Qed.

Section Opening.
Context `{TableFS} `{UnicodeCase} `{Network} (sb : singleByte).
Hypothesis table37 : Lookup 37 = Ret (CSingle sb).
Context (ctx : context) (cfg : Config) (Idle : world -> Prop) (Dialled : nat -> world -> Prop)
  (T : nat -> list message -> world -> Prop) (E : nat -> world -> Prop) (Done : nat -> list message -> world -> Prop)
  (Closed : nat -> world -> Prop) (HL : socketLogic ctx cfg Idle Dialled T E Done Closed).

Lemma logic_closing {A} i P (m : Net A) Q : triple P m Q (E i) -> triple P (closing i m) Q (Closed i).
Proof.
  intros Hm. eapply triple_onError; [exact Hm|]. intros e. eapply triple_bind.
  - apply (triple_modify _ _ (fun _ => Closed i)). intros w Hw. by apply (logic_close _ _ _ _ _ _ _ _ HL).
  - intros []. by apply triple_fail.
Qed.

Lemma connectSystemInfo_triple user password :
  triple Idle (connectSystemInfo ctx cfg user password)
    (fun info w => exists i h v, signedOn (Host cfg) user password h info /\ Done i h v /\ w = (closeSocket i v).2) Idle.
Proof.
  unfold connectSystemInfo. cbv zeta. eapply triple_bind; [apply (logic_dial _ _ _ _ _ _ _ _ HL)|]. intros i.
  eapply triple_defer with (E' := E i) (Q' := fun info w => exists h, signedOn (Host cfg) user password h info /\ Done i h w);
    [|intros info w (h & Hs & Hw); by exists i, h, w
     |intros w Hw; apply (logic_idle _ _ _ _ _ _ _ _ HL i); by apply (logic_close _ _ _ _ _ _ _ _ HL)].
  eapply triple_bind; [apply (logic_deadline _ _ _ _ _ _ _ _ HL)|]. intros [].
  eapply triple_defer with (E' := E i) (Q' := fun info w => exists h, signedOn (Host cfg) user password h info /\ T i h w);
    [|intros info w (h & Hs & Hw); exists h; split; [done|by apply (logic_clear _ _ _ _ _ _ _ _ HL)]
     |apply (logic_clear_failed _ _ _ _ _ _ _ _ HL)].
  pose proof (logic_conversation _ _ _ _ _ _ _ _ HL i) as HT.
  eapply triple_bind; [eapply orContextError_triple, (signonExchange_triple sb table37 i _ _ HT)|]. intros [[info clientSeed] serverSeed]. cbn [fst snd app].
  apply triple_exists. intros h1. apply triple_known. intros H1'.
  eapply orContextError_triple, triple_weaken; [apply (signonAuthenticate_triple sb table37 i _ _ HT)|done| |done].
  intros info' w (h2 & H2' & Hw). eexists. split; [|exact Hw]. by exists clientSeed, serverSeed, info, h1, h2.
Qed.

Lemma connectDatabase_triple info user password :
  triple Idle (connectDatabase ctx cfg info user password)
    (fun r w => exists h, startedDatabase cfg user password info h r.2 /\ Done r.1.1 h w) Idle.
Proof.
  unfold connectDatabase. eapply triple_bind with (R := fun _ => Idle).
  { unfold databasePortOf. apply triple_if; [|by apply triple_ret]. eapply triple_onError; [apply (logic_resolve _ _ _ _ _ _ _ _ HL)|].
    intros e. by apply triple_ret. }
  intros port. apply triple_if; [by apply triple_fail|]. eapply triple_bind; [apply (logic_dial _ _ _ _ _ _ _ _ HL)|]. intros i.
  eapply triple_bind; [apply (logic_deadline _ _ _ _ _ _ _ _ HL)|]. intros [].
  eapply triple_defer with (E' := Closed i)
    (Q' := fun r w => exists h, startedDatabase cfg user password info h r.2 /\ r.1.1 = i /\ T i h w);
    [|intros r w (h & Hs & -> & Hw); exists h; split; [done|by apply (logic_clear _ _ _ _ _ _ _ _ HL)]
     |intros w Hw; apply (logic_idle _ _ _ _ _ _ _ _ HL i); by apply (logic_clear_closed _ _ _ _ _ _ _ _ HL)].
  apply logic_closing. apply triple_get. intros v. cbv zeta. pose proof (logic_conversation _ _ _ _ _ _ _ _ HL i) as HT.
  set (clientSeed := seedOfClock (now v)).
  eapply triple_bind; [eapply orContextError_triple, (databaseExchangeSeeds_triple i _ _ HT)|]. intros serverSeed.
  apply triple_exists. intros h1. apply triple_known. intros H1'.
  eapply triple_bind; [eapply orContextError_triple, (databaseStartServer_triple sb table37 i _ _ HT)|]. intros info1.
  apply triple_exists. intros h2. apply triple_known. intros H2'.
  eapply triple_bind; [eapply orContextError_triple, (databaseSetServerAttributes_triple sb table37 i _ _ HT)|]. intros [info2 jobName].
  apply triple_exists. intros h3. apply triple_known. intros H3'.
  eapply triple_bind; [eapply orContextError_triple, (databaseAddLibraryList_triple sb table37 i _ _ HT)|]. intros [].
  apply triple_exists. intros h4. apply triple_known. intros H4'.
  apply triple_ret. intros w Hw. eexists. split; [|split; [done|exact Hw]].
  by exists clientSeed, serverSeed, info1, h1, h2, h3, h4.
Qed.
End Opening.

Lemma triple_at {A} (m : Net A) (P : world -> Prop) Q E : (forall v, P v -> triple (eq v) m Q E) -> triple P m Q E.
Proof. intros Hm w Hw. by apply (Hm w Hw). Qed.

(** A connection nobody has used: valid, in autocommit, nothing prepared. *)
Record unused (c : Conn) : Prop := {
  unused_valid : IsValid c = true;
  unused_autoCommit : autoCommit c = true;
  unused_cache : stmtCaching c = emptyCache;
  unused_ids : usedStatementHandles c = ∅;
  unused_cursors : defaultCursorBusy c = ∅;
  unused_trace : trace c = [];
}.

Lemma talking_clear w0 i w : talking w0 i w -> talking w0 i (clearConnDeadline i w).2.
Proof.
  intros [packets Hw]. exists packets. apply (triple_world _ _ _ _ (setDeadline_connected w0 i packets None _) Hw).
Qed.

Lemma buildCancelRequest_no_panic `{TableFS} handle job : no_panic (Lookup 37) -> no_panic (buildCancelRequest handle job).
Proof.
  intros Ht. unfold buildCancelRequest, appendEBCDIC37FixedAttribute. apply bind_no_panic; [|done].
  apply bind_no_panic; [|done]. by apply blankPad_no_panic.
Qed.

Section Opened.
Context `{TableFS} `{UnicodeCase} `{Network} (sb : singleByte).
Hypothesis table37 : Lookup 37 = Ret (CSingle sb).

(** What an opened connection has gone through: the sign-on, on a socket that is
    closed, and the start of the database server, on its own. *)
Definition authenticated (ctx : context) (cfg : Config) (w0 : world) (conn : nat) (c : Conn) (w : world) : Prop :=
  exists i signon database info info',
    (dials w0 <= i < conn)%nat /\ (i ∉ opened w) /\ history (socketAt w i) = signon /\
    signedOn (Host cfg) (User cfg) (Config.Password cfg) signon info /\
    startedDatabase cfg (User cfg) (Config.Password cfg) info database info' /\
    settled (openContext ctx cfg (now w0)) w0 conn database w /\
    systemInfo c = Some info' /\ netConn c = Some (unread (socketAt w conn)).

Lemma openConn_spec ctx cfg w0 : known w0 -> Validate cfg = Ret tt ->
  triple (eq w0) (openConn ctx cfg)
    (fun r w => authenticated ctx cfg w0 r.1 r.2 w /\ unused r.2 /\ Session.cfg r.2 = cfg /\ currentCommitmentControl r.2 = CommitmentControl cfg)
    (undone w0).
Proof.
  intros Hk Hv. unfold openConn. apply triple_now. intros v <-. cbv beta zeta. unfold authenticated. set (ctx' := openContext ctx cfg (now w0)). clearbody ctx'.
  eapply triple_bind.
  { eapply triple_weaken; [apply (connectSystemInfo_triple sb table37 _ _ _ _ _ _ _ _ (connected_logic ctx' cfg w0 Hk))|
      intros w <-; apply undone_refl|done|done]. }
  intros info. apply triple_at. intros w1 (i & signon & v & Hs & Hc & Hw1).
  assert (undone w0 w1) as Hu by (subst w1; by eapply connected_close, Hc).
  assert ((dials w0 <= i < dials w1)%nat /\ (i ∉ opened w1) /\ history (socketAt w1 i) = signon) as (Hi & Hio & His).
  { destruct Hc as [(Hvo & Hni & Hd & _ & Hp) _]. subst w1. split_and!; cbn; [lia|lia|by intros [_ []%not_elem_of_singleton]%elem_of_difference|exact Hp]. }
  eapply triple_bind.
  { eapply triple_weaken; [apply (connectDatabase_triple sb table37 _ _ _ _ _ _ _ _ (connected_logic ctx' cfg w1 (undone_known _ _ Hk Hu)))|
      intros w <-; apply undone_refl|by intros r w|intros w; by apply undone_trans]. }
  intros [[conn jobName] info2]. cbn [fst snd]. apply triple_exists. intros database. apply triple_known. intros Hdb.
  eapply triple_bind with (R := fun _ => settled ctx' w1 conn database).
  { apply (triple_weaken _ _ (settled ctx' w1 conn database) _ (fun _ => settled ctx' w1 conn database) _ (undone w1));
      [|done|done|intros w; by apply undone_trans].
    apply closing_connected, triple_lifted; [by apply newPackageState_no_panic|]. intros w [Hw _]. by exists database. }
  intros pkg. apply triple_now. intros w Hw. cbv beta zeta. apply triple_ret. intros ? <-. cbn [fst snd].
  split; [|destruct pkg; done].
  pose proof Hw as [(Ho & Hn & Hd & Hsame & Hp) Hdead].
  exists i, signon, database, info, info2. split_and!; [lia|lia| | |done|done| |by destruct pkg..].
  - rewrite Ho. intros [->%elem_of_singleton|Hin]%elem_of_union; [lia|done].
  - by rewrite Hsame by lia.
  - split; [by eapply connected_undone, Hw|done].
Qed.

Lemma cancelStatement_spec ctx c w0 : known w0 ->
  triple (eq w0) (cancelStatement ctx c) (fun _ => undone w0) (undone w0).
Proof.
  intros Hk. unfold cancelStatement. apply triple_get. intros v. cbv beta.
  assert (forall e, triple (eq w0) (@failNet unit e) (fun _ => undone w0) (undone w0)) as Hfail.
  { intros e. apply triple_fail. intros w <-. apply undone_refl. }
  destruct (ctxErr ctx (now v)) as [e|]; [apply Hfail|]. destruct (systemInfo c) as [info|]; [|apply Hfail].
  apply triple_if; [apply Hfail|]. cbv zeta. set (ctx' := WithTimeout _ _ _). clearbody ctx'.
  pose proof (connected_logic ctx' (cfg c) w0 Hk) as HL. eapply triple_bind.
  { eapply triple_weaken; [apply (connectDatabase_triple sb table37 _ _ _ _ _ _ _ _ HL)|intros w <-; apply undone_refl|done|done]. }
  intros [[conn jobName] info2]. cbn [fst snd]. apply triple_exists. intros database. apply triple_known. intros _.
  apply (triple_weaken _ _ (connected w0 conn database) _ (fun _ => undone w0) _ (undone w0)); [|by intros w [Hw _]|done|done].
  eapply triple_defer with (Q' := fun _ => talking w0 conn) (E' := talking w0 conn);
    [|intros ? w Hw; by apply talking_close|intros w Hw; by apply talking_close].
  eapply triple_bind; [apply triple_lifted; [|intros w Hw; by eexists]|].
  { apply buildCancelRequest_no_panic. by rewrite table37. }
  intros request. eapply triple_bind; [apply setConnDeadline_connected|]. intros [].
  eapply triple_defer with (Q' := fun _ => talking w0 conn) (E' := talking w0 conn);
    [|intros ? w Hw; by apply talking_clear|intros w Hw; by apply talking_clear].
  pose proof (connected_conversation w0 conn) as HT.
  eapply triple_bind; [apply (converse_triple conn _ _ HT); intros packet; apply readReplyEnvelope_no_panic|]. intros [envelope payload].
  apply triple_exists. intros reply. apply triple_known. intros _. apply triple_if; [by eapply fail_triple|]. apply triple_ret. intros w Hw. by eexists.
Qed.

End Opened.

(** ** How long it takes *)

Section Timely.
Context `{TableFS} `{UnicodeCase} `{Network} (sb : singleByte).
Hypothesis table37 : Lookup 37 = Ret (CSingle sb).
Hypothesis Hpunctual : punctual.

Lemma openConn_inTime ctx cfg w0 : Validate cfg = Ret tt -> 0 < ConnectTimeout cfg ->
  let D := now w0 + ConnectTimeout cfg in triple (eq w0) (openConn ctx cfg) (fun _ => inTime D) (inTime D).
Proof.
  intros Hv Ht D. unfold openConn. apply triple_now. intros v <-. cbv beta zeta. unfold openContext. rewrite (proj2 (Z.ltb_lt _ _) Ht).
  destruct (WithTimeout_deadline ctx (now w0) (ConnectTimeout cfg)) as (l & El & Hl & _). set (ctx' := WithTimeout _ _ _) in *.
  pose proof (timed_logic ctx' cfg D l Hpunctual El Hl) as HL. eapply triple_bind with (R := fun _ => inTime D).
  { eapply triple_weaken; [apply (connectSystemInfo_triple sb table37 _ _ _ _ _ _ _ _ HL)|intros w <-; unfold inTime, D; lia| |done].
    intros info w (i & h & w1 & _ & Hw1 & ->). exact Hw1. }
  intros info. eapply triple_bind with (R := fun _ => inTime D).
  { eapply triple_weaken; [apply (connectDatabase_triple sb table37 _ _ _ _ _ _ _ _ HL)|by intros w| |done].
    intros r w (h & _ & Hw). exact Hw. }
  intros [[conn jobName] info2]. eapply triple_bind with (R := fun _ => inTime D).
  - apply closing_inTime, triple_lifted; [by apply newPackageState_no_panic|done].
  - intros pkg. apply triple_get. intros w. by apply triple_ret.
Qed.

Lemma cancelStatement_inTime ctx c w0 :
  let D := now w0 + nativeCancelTimeout in triple (eq w0) (cancelStatement ctx c) (fun _ => inTime D) (inTime D).
Proof.
  intros D. assert (now w0 <= D) as HD by (unfold D, nativeCancelTimeout; lia).
  assert (forall e, triple (eq w0) (@failNet unit e) (fun _ => inTime D) (inTime D)) as Hfail.
  { intros e. apply triple_fail. by intros w <-. }
  unfold cancelStatement. apply triple_now. intros v <-. destruct (ctxErr ctx (now w0)) as [e|]; [apply Hfail|].
  destruct (systemInfo c) as [info|]; [|apply Hfail]. apply triple_if; [apply Hfail|]. cbv zeta.
  destruct (WithTimeout_deadline ctx (now w0) nativeCancelTimeout) as (l & El & Hl & _). set (ctx' := WithTimeout _ _ _) in *.
  pose proof (timed_logic ctx' (cfg c) D l Hpunctual El Hl) as HL. eapply triple_bind with (R := fun _ => inTime D).
  { eapply triple_weaken; [apply (connectDatabase_triple sb table37 _ _ _ _ _ _ _ _ HL)|by intros w <-| |done].
    intros r w (h & _ & Hw). exact Hw. }
  intros [[conn jobName] info2].
  eapply triple_defer with (Q' := fun _ => inTime D) (E' := inTime D); [|done|done].
  eapply triple_bind; [apply triple_lifted; [apply buildCancelRequest_no_panic; by rewrite table37|done]|]. intros request.
  eapply triple_bind; [apply (setConnDeadline_timed D conn ctx' l); done|]. intros [].
  eapply triple_defer with (Q' := fun _ => timed D conn) (E' := inTime D); [|intros ? w Hw; by apply timed_inTime in Hw|done].
  pose proof (timed_conversation D conn Hpunctual) as HT.
  eapply triple_bind; [apply (converse_triple conn _ _ HT []); intros packet; apply readReplyEnvelope_no_panic|]. intros [envelope payload].
  apply triple_exists. intros reply. apply triple_known. intros _. apply triple_if; [apply failNet_timed|by apply triple_ret].
Qed.
End Timely.

(** ** The requests on the wire *)

(** The packet is a header with its length, a template and parameters. *)
Definition framed (headerID serverID reqRepID : Z) (template : bytes) (ps : list (Z * bytes)) (packet : bytes) : Prop :=
  ParseHeader packet = Ret (mkHeader (len packet) headerID serverID 0 0 (len template) reqRepID) /\
  drop 20 packet = template ++ encodeLLCPs ps /\ Forall llcp_ok ps.

Lemma framed_packet headerID serverID reqRepID template ps packet :
  packet = MarshalBinary (mkHeader (20 + len template + len (encodeLLCPs ps)) headerID serverID 0 0 (len template) reqRepID) ++
    template ++ encodeLLCPs ps ->
  0 <= headerID < 2 ^ 16 -> 0 <= serverID < 2 ^ 16 -> 0 <= reqRepID < 2 ^ 16 -> len template < 2 ^ 16 ->
  20 + len template + len (encodeLLCPs ps) < 2 ^ 32 -> Forall llcp_ok ps ->
  framed headerID serverID reqRepID template ps packet.
Proof.
  intros -> Hh Hs Hr Ht Hl Hps. pose proof (len_nonneg template). pose proof (len_nonneg (encodeLLCPs ps)).
  assert (len (MarshalBinary (mkHeader (20 + len template + len (encodeLLCPs ps)) headerID serverID 0 0 (len template) reqRepID) ++
    template ++ encodeLLCPs ps) = 20 + len template + len (encodeLLCPs ps)) as El by len_lia.
  split_and!; [|by apply drop_app_length'|done]. rewrite El. apply ParseHeader_MarshalBinary; [|cbn [Length]; len_lia].
  unfold header_ok. cbn. lia.
Qed.

Lemma encodeLLCPs_cons cp p ps : len p + 6 < 2 ^ 32 ->
  encodeLLCPs ((cp, p) :: ps) = be32 (6 + len p) ++ be16 cp ++ p ++ encodeLLCPs ps.
Proof.
  intros Hl. unfold encodeLLCPs. rewrite fmap_cons. cbn [concat fst snd]. unfold AppendLLCP. pose proof (len_nonneg p). rewrite wrapu_id by lia.
  rewrite app_nil_l, <-!app_assoc. do 2 f_equal. lia.
Qed.

Lemma len_encodeLLCPs_cons cp p ps : len (encodeLLCPs ((cp, p) :: ps)) = 6 + len p + len (encodeLLCPs ps).
Proof. unfold encodeLLCPs. rewrite fmap_cons. cbn [concat fst snd]. unfold AppendLLCP. len_lia. Qed.

Lemma encodeLLCPs_nil : encodeLLCPs [] = [].
Proof. done. Qed.

(** Both sides as one right-nested append. *)
Ltac lay_out_request :=
  rewrite ?len_encodeLLCPs_cons, ?encodeLLCPs_cons, ?encodeLLCPs_nil by len_lia;
  unfold appendBytes, appendU32, appendU16; rewrite ?buildHeader_MarshalBinary, <-?app_assoc, ?app_nil_r;
  cbn [app].

(** A packet that is laid out as [framed_packet] wants it. *)
Ltac frame_request :=
  apply framed_packet;
    [lay_out_request
    |done|done|done|first [done|len_lia]
    |rewrite ?len_encodeLLCPs_cons, ?encodeLLCPs_nil; len_lia
    |repeat constructor; cbn [fst snd]; first [done|len_lia]].

Section Framing.
Context (clientSeed substitute userBytes : bytes).
Hypothesis seed_length : len clientSeed = 8.
Hypothesis user_length : len userBytes = 10.
Hypothesis substitute_length : len substitute < 2 ^ 16.

Lemma signonExchange_framed :
  framed 0 SignonServerID RequestExchangeAttributes []
    [(CodePointClientVersion, be32 clientVersion); (CodePointClientDSLevel, be16 clientDataStreamLevel); (CodePointClientSeed, clientSeed)]
    (signonExchangeRequest clientSeed).
Proof. unfold signonExchangeRequest. frame_request. by rewrite seed_length. Qed.

Lemma signonInfo_framed serverLevel :
  framed 0 SignonServerID RequestSignonInfo [passwordAuthScheme (len substitute)]
    ([(CodePointClientCCSID, be32 clientCCSID); (CodePointPassword, substitute); (CodePointUserID, userBytes)] ++
     (if 5 <=? serverLevel then [(CodePointReturnErrorMessages, [1])] else []))
    (signonInfoRequest serverLevel substitute userBytes).
Proof.
  pose proof (len_nonneg substitute).
  unfold signonInfoRequest. destruct (5 <=? serverLevel); cbn [app]; frame_request;
    rewrite user_length, !wrapu_id by lia; f_equal; do 2 f_equal; len_lia.
Qed.

Lemma exchangeSeeds_framed :
  framed 0x0100 DatabaseServerID RequestExchangeRandomSeeds clientSeed [] (exchangeSeedsRequest clientSeed).
Proof.
  unfold exchangeSeedsRequest. frame_request. rewrite seed_length. unfold MarshalBinary. by rewrite <-?app_assoc.
Qed.

Lemma startServer_framed :
  framed 0x0200 DatabaseServerID RequestStartServer [passwordAuthScheme (len substitute); 1]
    [(CodePointPassword, substitute); (CodePointUserID, userBytes)] (startServerRequest substitute userBytes).
Proof.
  pose proof (len_nonneg substitute).
  unfold startServerRequest. frame_request. rewrite user_length, !wrapu_id by lia.
  unfold MarshalBinary. cbn [Length]. rewrite <-?app_assoc. apply (f_equal2 app); [f_equal; len_lia|reflexivity].
Qed.
End Framing.

(** * Properties *)

(** C9: whatever the network answers, and wherever it fails, opening a
    connection leaves exactly the socket of the connection open when it succeeds,
    without a deadline unless its context had ended by then, and no socket when it
    fails; the second connection of a native cancel is closed in every case.
    Neither panics. *)
Theorem sockets_are_closed `{TableFS} `{UnicodeCase} `{Network} (sb : singleByte) (ctx : context) (cfg : Config) (c : Conn) (w0 : world) :
  Lookup 37 = Ret (CSingle sb) -> known w0 -> Validate cfg = Ret tt ->
  match openConn ctx cfg w0 with
  | (Ret (i, _), w) => (i ∉ opened w0) /\ opened w = {[i]} ∪ opened w0 /\
      (ctxErr (openContext ctx cfg (now w0)) (now w) = None -> deadline (socketAt w i) = None)
  | (Fail _, w) => opened w = opened w0
  | (Panic, _) => False
  end /\
  match cancelStatement ctx c w0 with
  | (Panic, _) => False
  | (_, w) => opened w = opened w0
  end.
Proof.
  intros Ht Hk Hv. split.
  - pose proof (openConn_spec sb Ht ctx cfg w0 Hk Hv w0 eq_refl) as Ho. destruct (openConn ctx cfg w0) as [[[i conn]|e|] w]; [|apply Ho|done].
    destruct Ho as [(j & so & db & info & info' & _ & _ & _ & _ & _ & [(Ho & Hi & _) Hd] & _) _]. by split_and!.
  - pose proof (cancelStatement_spec sb Ht ctx c w0 Hk w0 eq_refl) as Ho. destruct (cancelStatement ctx c w0) as [[[]|e|] w]; [apply Ho|apply Ho|done].
Qed.

(** C10: a connection that was opened is authenticated.  The conversation with the
    sign-on server, on a socket that is closed again, was the exchange of
    attributes and the substitute of the password for the level and the seed it
    answered, which it accepted; the conversation on the connection's own socket
    was the exchange of seeds, the substitute for them at that level, the
    attributes and the library list of the configuration, each of which the
    database server accepted, and nothing else.  What the connection knows of the
    server is what these replies say.  The connection itself is new: valid, in
    autocommit and at the configured isolation, with no statement, cursor or
    request. *)
Theorem open_connection_is_authenticated `{TableFS} `{UnicodeCase} `{Network} (sb : singleByte) (ctx : context) (cfg : Config) (w0 w : world) (i : nat) (c : Conn) :
  Lookup 37 = Ret (CSingle sb) -> known w0 -> Validate cfg = Ret tt ->
  openConn ctx cfg w0 = (Ret (i, c), w) ->
  authenticated ctx cfg w0 i c w /\ unused c /\ Session.cfg c = cfg /\ currentCommitmentControl c = CommitmentControl cfg.
Proof.
  intros Ht Hk Hv E. pose proof (openConn_spec sb Ht ctx cfg w0 Hk Hv w0 eq_refl) as Ho. by rewrite E in Ho.
Qed.

(** C12: on a network that respects deadlines an open ends within the connection
    timeout of the configuration and a native cancel within its own, whether they
    succeed or fail: the port mapper, both dials and handshakes, and every write
    and read together. *)
Theorem open_within_timeout `{TableFS} `{UnicodeCase} `{Network} (sb : singleByte) (ctx : context) (cfg : Config) (c : Conn) (w0 : world) :
  Lookup 37 = Ret (CSingle sb) -> punctual -> Validate cfg = Ret tt -> 0 < ConnectTimeout cfg ->
  now (openConn ctx cfg w0).2 <= now w0 + ConnectTimeout cfg /\
  now (cancelStatement ctx c w0).2 <= now w0 + nativeCancelTimeout.
Proof.
  intros Ht Hp Hv Hc. split.
  - pose proof (openConn_inTime sb Ht Hp ctx cfg w0 Hv Hc w0 eq_refl) as Ho. by destruct (openConn ctx cfg w0) as [[a|e|] w].
  - pose proof (cancelStatement_inTime sb Ht Hp ctx c w0 w0 eq_refl) as Ho. by destruct (cancelStatement ctx c w0) as [[a|e|] w].
Qed.

(** The four requests of the handshake are well-formed: each parses as a
    header with the request's own length, server and identifier, followed by its
    template and exactly the parameters named, the password substitute and the
    user name of the connection among them. *)
Theorem handshake_requests_framed (clientSeed substitute userBytes : bytes) (serverLevel : Z) :
  len clientSeed = 8 -> len userBytes = 10 -> len substitute < 2 ^ 16 ->
  let credentials := [(CodePointPassword, substitute); (CodePointUserID, userBytes)] in
  let scheme := passwordAuthScheme (len substitute) in
  framed 0 SignonServerID RequestExchangeAttributes []
    [(CodePointClientVersion, be32 clientVersion); (CodePointClientDSLevel, be16 clientDataStreamLevel); (CodePointClientSeed, clientSeed)]
    (signonExchangeRequest clientSeed) /\
  framed 0 SignonServerID RequestSignonInfo [scheme]
    ((CodePointClientCCSID, be32 clientCCSID) :: credentials ++ (if 5 <=? serverLevel then [(CodePointReturnErrorMessages, [1])] else []))
    (signonInfoRequest serverLevel substitute userBytes) /\
  framed 0x0100 DatabaseServerID RequestExchangeRandomSeeds clientSeed [] (exchangeSeedsRequest clientSeed) /\
  framed 0x0200 DatabaseServerID RequestStartServer [scheme; 1] credentials (startServerRequest substitute userBytes).
Proof.
  intros Hc Hu Hs credentials scheme. split_and!.
  - by apply signonExchange_framed with (substitute := substitute) (userBytes := userBytes).
  - by apply signonInfo_framed with (clientSeed := clientSeed).
  - by apply exchangeSeeds_framed with (substitute := substitute) (userBytes := userBytes).
  - by apply startServer_framed with (clientSeed := clientSeed).
Qed.

(** ** A server to connect to *)

(** Every operation takes five nanoseconds, or what the deadline leaves. *)
Definition spent (time : Z) (limit : option Z) : Z :=
  match limit with Some l => Z.min 5 (Z.max 0 (l - time)) | None => 5 end.

Lemma reduced_bytes (bs : bytes) : is_bytes ((fun b => b mod 256) <$> bs).
Proof. apply Forall_fmap, Forall_true. intros b. by apply (Z.mod_pos_bound b 256). Qed.

Definition arrives (bs : bytes) (time : Z) (limit : option Z) : arrival :=
  mkArrival ((fun b => b mod 256) <$> bs) EEOF (spent time limit) (reduced_bytes bs).

Definition reply (reqRepID rc : Z) (ps : list (Z * bytes)) : bytes :=
  buildHeader (24 + len (encodeLLCPs ps)) 0 SignonServerID 4 reqRepID ++ be32 rc ++ encodeLLCPs ps.
Definition emptyReply : bytes := buildHeader 40 0 DatabaseServerID 20 0x2800 ++ replicate 20 0.

(** What the host sends on its sign-on, port mapper and database socket. *)
Definition hostAnswers (i k : nat) : bytes :=
  match i, k with
  | 0%nat, 1%nat => reply ReplyExchangeAttributes 0
              [(CodePointClientVersion, be32 0x070500); (CodePointClientDSLevel, be16 5);
               (CodePointPasswordLevel, [1]); (CodePointClientSeed, sampleServerSeed)]
  | 0%nat, 3%nat => reply ReplySignonInfo 0 [(CodePointServerCCSID, be32 37)]
  | 1%nat, 1%nat => [43] ++ be32 8471
  | 2%nat, 1%nat => buildHeader 32 0 DatabaseServerID 4 ReplyExchangeRandomSeeds ++ be32 0 ++ sampleServerSeed
  | 2%nat, 3%nat => reply ReplyStartServer 0 []
  | 2%nat, (5 | 7)%nat => emptyReply
  | _, _ => []
  end.

Definition sampleNetwork : Network := {|
  dialing := fun _ _ _ time limit => (None, spent time limit);
  optionAnswer := fun _ _ => None;
  handshaking := fun _ _ time limit => (None, spent time limit);
  writing := fun _ _ _ time limit => (None, spent time limit);
  reading := fun i k time limit => arrives (hostAnswers i k) time (limit time);
  callbackLate := fun _ => true
|}.
#[local] Existing Instances letterTables latinCase sampleNetwork.

Lemma sampleNetwork_punctual : punctual.
Proof.
  constructor; intros; cbn; try lia. destruct (H t) as (d & -> & ?). cbn. lia.
Qed.

Definition noSockets : world := mkWorld 1700000000000000000 0 ∅ ∅.
Definition sampleContext : context := mkCtx None None.

Definition timedConfig : Config :=
  mkConfig (lit "host") 0 false (lit "U") (lit "P1") [] NamingSQL 5 1 0 0 0 2 [lit "QGPL"] 30000000000 0 false false false
    (mkServerOptions 0 0 0 0 0 0 false false false false 0) (mkSocketOptions None None 0 0 0)
    (mkPackageOptions false [] [] CriteriaUnset false PackageErrorUnset 0 false false false)
    (mkClientOptions [] [] [] [] [] 0 false) (mkBidiOptions 0 false false).

Lemma noSockets_known : known noSockets.
Proof. intros i Hi. by apply not_elem_of_empty in Hi. Qed.

Definition succeeded {A B} (r : outcome A * B) : bool := match r.1 with Ret _ => true | _ => false end.

(** The open goes through, the port mapper included. *)
Example sample_opens : succeeded (openConn sampleContext timedConfig noSockets) = true.
Proof. vm_compute. reflexivity. Qed.

(** A connection the sample server can cancel on. *)
Definition cancelable : Conn :=
  newConn timedConfig (mkSystemInfo (lit "host") 0x070500 5 37 10 (lit "123456/U/QZDASOINIT") 0 []) None [] 0.

Lemma sockets_are_closed_witness :
  (exists i c w, openConn sampleContext timedConfig noSockets = (Ret (i, c), w) /\ opened w = {[i]} ∪ ∅) /\
  opened (cancelStatement sampleContext cancelable noSockets).2 = ∅.
Proof.
  destruct (sockets_are_closed letterTable sampleContext timedConfig cancelable noSockets letterTable_found noSockets_known) as [Ho Hc]; [reflexivity|].
  pose proof sample_opens as Hs. split.
  - clear Hc. destruct (openConn _ _ _) as [[[i c]|e|] w]; [|discriminate|discriminate]. destruct Ho as (_ & Ho & _). exists i, c, w. exact (conj eq_refl Ho).
  - clear Ho Hs. by destruct (cancelStatement _ _ _) as [[[]|e|] w].
Defined.

Lemma open_connection_is_authenticated_witness :
  exists i c w, openConn sampleContext timedConfig noSockets = (Ret (i, c), w) /\ authenticated sampleContext timedConfig noSockets i c w /\ unused c.
Proof.
  pose proof sample_opens as Hs. destruct (openConn sampleContext timedConfig noSockets) as [[[i c]|e|] w] eqn:E; [|discriminate|discriminate].
  destruct (open_connection_is_authenticated letterTable sampleContext timedConfig noSockets w i c letterTable_found noSockets_known) as (Ha & Hu & _);
    [reflexivity|exact E|]. exists i, c, w. exact (conj eq_refl (conj Ha Hu)).
Defined.

Lemma open_within_timeout_witness :
  punctual /\ now (openConn sampleContext timedConfig noSockets).2 <= now noSockets + 30000000000 /\
  now (cancelStatement sampleContext cancelable noSockets).2 <= now noSockets + 10000000000.
Proof.
  split; [exact sampleNetwork_punctual|].
  apply (open_within_timeout letterTable sampleContext timedConfig cancelable noSockets);
    [apply letterTable_found|exact sampleNetwork_punctual|reflexivity|reflexivity].
Defined.

Lemma handshake_requests_framed_witness :
  framed 0x0200 DatabaseServerID RequestStartServer [3; 1]
    [(CodePointPassword, replicate 20 7); (CodePointUserID, replicate 10 64)] (startServerRequest (replicate 20 7) (replicate 10 64)).
Proof.
  apply (handshake_requests_framed sampleClientSeed (replicate 20 7) (replicate 10 64) 5); reflexivity.
Defined.

(** A user of ten characters with an umlaut: the substitute counts characters,
    the user name sent with it bytes. *)
Example umlaut_user_rejected :
  let user := lit "ABCDEFGHI" ++ [0xC3; 0x9C] in
  runeCount user = 10 /\ returns (passwordSubstitute user (lit "P1") 0 sampleClientSeed sampleServerSeed) /\
  signonUserBytes user 0 false = Fail (EText "user too long" []).
Proof. split_and!; [reflexivity| |reflexivity]. eexists. vm_compute. reflexivity. Qed.

(** The context ends while the last reply arrives, and the callback that watches
    it runs late: the connection is returned with a deadline that has passed. *)
Example ended_context_leaves_deadline :
  let ctx := mkCtx (Some (now noSockets + 90, ECanceled)) None in
  match openConn ctx timedConfig noSockets with
  | (Ret (i, _), w) => deadline (socketAt w i) = Some (now noSockets + 90)
  | _ => False
  end.
Proof. vm_compute. reflexivity. Qed.
