(* ===== verification/Requests.v ===== *)
(** Every request of the driver as a packet on the wire.

    The builders are spread over Request (statements, cursors, transactions,
    packages, LOBs), Attributes (server attributes, client information, query
    timeout) and SignOn (the handshakes); this file puts them together. *)
From Stdlib Require Import Strings.String.
From stdpp Require Import base list numbers strings gmap.
From S2P Require Import Prelude GoStrings Utf Ccsid Wire Reply Format Request Config Attributes GoCrypto Password SignOn.
Open Scope Z_scope.

(** * Definitions *)

(** How a request is laid out behind its header: a template of twenty bytes
    that counts the parameters, a template of its own without a count, or
    twenty bytes of zeros that the header does not call a template. *)
Inductive layout :=
| Counted
| Handshake (headerID : Z) (template : bytes)
| Bare.

Definition laid_out (shape : layout) (serverID function : Z) (packet : bytes) : Prop :=
  match shape with
  | Counted => well_formed serverID function packet
  | Handshake headerID template => exists ps, framed headerID serverID function template ps packet
  | Bare =>
      ParseHeader packet = Ret (mkHeader (len packet) 0 serverID 0 0 0 function) /\
      drop 20 packet = replicate 20 0
  end.

Section Sent.
Context `{TableFS} `{UnicodeCase}.

(** The requests of the driver, one rule for each builder. *)
Inductive sent : layout -> Z -> Z -> bytes -> Prop :=
| sent_create_rpb h n pkg p :
    buildCreateRPBRequest h n pkg = Ret p -> sent Counted DatabaseServerID FunctionCreateRPB p
| sent_change_timeout h seconds :
    sent Counted DatabaseServerID FunctionChangeRPB (buildChangeRPBQueryTimeoutRequest h seconds)
| sent_delete_rpb h : sent Counted DatabaseServerID FunctionDeleteRPB (buildDeleteRPBRequest h)
| sent_prepare h n q pkg id p :
    buildPrepareAndDescribeRequestCCSID h n q pkg id = Ret p ->
    sent Counted DatabaseServerID FunctionPrepareDescribe p
| sent_immediate q t pkg id p :
    buildExecuteImmediateRequestCCSID q t pkg id = Ret p ->
    sent Counted DatabaseServerID FunctionExecuteImmediate p
| sent_open n c p :
    buildOpenAndDescribeRequest n c = Ret p -> sent Counted DatabaseServerID FunctionOpenDescribe p
| sent_open_prepared h d n c format bs scrollable hold pkg p :
    buildOpenDescribePreparedRequest h d n c format bs scrollable hold pkg = Ret p ->
    sent Counted DatabaseServerID FunctionOpenDescribe p
| sent_fetch h c size opt rel p :
    buildFetchRequestForStatement h c size opt rel = Ret p -> sent Counted DatabaseServerID FunctionFetch p
| sent_close_cursor c reuse p :
    buildCloseCursorRequest c reuse = Ret p -> sent Counted DatabaseServerID FunctionClose p
| sent_close_result_set h c reuse p :
    buildCloseResultSetCursorRequest h c reuse = Ret p -> sent Counted DatabaseServerID FunctionClose p
| sent_test : sent Counted DatabaseServerID FunctionTestConnection buildTestConnectionRequest
| sent_change_descriptor h d format bs :
    sent Counted DatabaseServerID FunctionChangeDescriptor (buildChangeDescriptorRequest h d format bs)
| sent_delete_descriptor h d :
    sent Counted DatabaseServerID FunctionDeleteDescriptor (buildDeleteDescriptorRequest h d)
| sent_execute h d t format bs pkg p :
    buildExecutePreparedRequest h d t format bs pkg = Ret p -> sent Counted DatabaseServerID FunctionExecute p
| sent_block h d t format rows pkg p :
    buildBlockExecuteRequest h d t format rows pkg = Ret p -> sent Counted DatabaseServerID FunctionExecute p
| sent_call h pkg p :
    buildExecuteCallNoParamsRequest h pkg = Ret p -> sent Counted DatabaseServerID FunctionExecute p
| sent_write_lob w : sent Counted DatabaseServerID FunctionWriteLobData (buildWriteLOBDataRequest w)
| sent_retrieve_lob l n :
    sent Counted DatabaseServerID FunctionRetrieveLobData (buildRetrieveLobDataRequest l n)
| sent_free_lob l : sent Counted DatabaseServerID FunctionFreeLob (buildFreeLobRequest l)
| sent_commit : sent Counted DatabaseServerID FunctionCommit buildCommitRequest
| sent_rollback : sent Counted DatabaseServerID FunctionRollback buildRollbackRequest
| sent_auto_commit e level :
    sent Counted DatabaseServerID FunctionSetAttributes (buildAutoCommitRequestLevel e level)
| sent_attributes cfg autoCommit level vrm p :
    buildSetServerAttributesRequestVRM cfg autoCommit level vrm = Ret p ->
    sent Counted DatabaseServerID FunctionSetAttributes p
| sent_client_info cp value p :
    0 <= cp < 2 ^ 16 -> buildSetClientInfoRequest cp value = Ret p ->
    sent Counted DatabaseServerID FunctionSetAttributes p
| sent_results_set h bitmap :
    sent Counted DatabaseServerID functionSendResultsSet (buildSendResultsSetRequest h bitmap)
| sent_create_package n l p :
    buildCreatePackageRequest n l = Ret p -> sent Counted DatabaseServerID FunctionCreatePackage p
| sent_return_package n l p :
    buildReturnPackageRequest n l = Ret p -> sent Counted DatabaseServerID FunctionReturnPackage p
| sent_library_list inds libs p :
    buildAddLibraryListRequest inds libs = Ret (Some p) ->
    sent Counted NativeDatabaseServerID FunctionAddLibraryList p
| sent_cancel h job p : buildCancelRequest h job = Ret p -> sent Counted DatabaseServerID FunctionCancel p
| sent_end_job : sent Bare DatabaseServerID FunctionEndJob buildEndJobRequest
| sent_signon_exchange time :
    sent (Handshake 0 []) SignonServerID RequestExchangeAttributes (signonExchangeRequest (seedOfClock time))
| sent_signon_info level user substitute userBytes :
    signonUserBytes user 0 false = Ret userBytes -> len substitute < 2 ^ 16 ->
    sent (Handshake 0 [passwordAuthScheme (len substitute)]) SignonServerID RequestSignonInfo
      (signonInfoRequest level substitute userBytes)
| sent_exchange_seeds time :
    sent (Handshake 0x0100 (seedOfClock time)) DatabaseServerID RequestExchangeRandomSeeds
      (exchangeSeedsRequest (seedOfClock time))
| sent_start_server user substitute userBytes :
    signonUserBytes user 0 false = Ret userBytes -> len substitute < 2 ^ 16 ->
    sent (Handshake 0x0200 [passwordAuthScheme (len substitute); 1]) DatabaseServerID RequestStartServer
      (startServerRequest substitute userBytes).
End Sent.

(** * Lemmas *)

#[local] Arguments be : simpl never.

Section Attributes.
Context `{TableFS}.

Lemma clientInfo_param cp value attr :
  appendClientInfoAttribute [] cp value = Ret attr -> 0 <= cp < 2 ^ 16 -> one_param attr.
Proof.
  unfold appendClientInfoAttribute, ensure. intros (e & _ & Ha)%bind_Ret Hcp. case_match; [|done].
  apply Ret_inj in Ha as <-. cbn [app]. apply one_param_text; [done|len_lia].
Qed.

Lemma clientInfo_append dst cp value dst' :
  appendClientInfoAttribute dst cp value = Ret dst' ->
  exists attr, appendClientInfoAttribute [] cp value = Ret attr /\ dst' = dst ++ attr.
Proof.
  unfold appendClientInfoAttribute, ensure. intros (e & -> & Ha)%bind_Ret. cbn [mbind outcome_bind].
  case_match; [|done]. apply Ret_inj in Ha as <-. by eexists.
Qed.

Lemma string_append dst cp value dst' :
  appendEBCDIC37StringAttribute dst cp value = Ret dst' -> 0 <= cp < 2 ^ 16 ->
  exists attr, one_param attr /\ dst' = dst ++ attr.
Proof.
  unfold appendEBCDIC37StringAttribute. intros (e & _ & <-%Ret_inj)%bind_Ret Hcp. eexists. split; [|done].
  apply one_param_text; [done|len_lia].
Qed.

Lemma counted_text n cp value b b' :
  textAttribute cp value b = Ret b' -> 0 <= cp < 2 ^ 16 -> counted n b -> counted (n + 1) b'.
Proof.
  unfold textAttribute. intros (d & Hd & <-%Ret_inj)%bind_Ret Hcp Hb.
  apply string_append in Hd as (attr & Ha & ->); [|done]. destruct b. by apply counted_one.
Qed.

Lemma counted_clientInfos attrs dst k count dst' count' n :
  Forall (fun p => 0 <= p.1 < 2 ^ 16) attrs ->
  appendClientInfos dst count attrs = Ret (dst', count') -> counted n (dst, k) ->
  counted (n + len attrs) (dst', k + (count' - count)).
Proof.
  intros Hcp. revert dst k count n. induction Hcp as [|[cp value] attrs Hcp _ IH]; intros dst k count n E Hb.
  - injection E as <- <-. eapply counted_weaken; [by replace (k + _) with k by lia|len_lia].
  - cbn [appendClientInfos] in E. rewrite len_cons. destruct (len value =? 0).
    + eapply counted_weaken; [by eapply IH|lia].
    + apply bind_Ret in E as (d & Ed & E). apply clientInfo_append in Ed as (attr & Ea & ->).
      apply clientInfo_param in Ea; [|done].
      replace (k + (count' - count)) with (k + 1 + (count' - (count + 1))) by lia.
      eapply counted_weaken; [eapply IH; [done|by apply counted_one]|lia].
Qed.

Lemma counted_options dst k cfg vrm dst' count n :
  appendVRMOptionAttributes dst cfg vrm = Ret (dst', count) -> counted n (dst, k) -> counted (n + 6) (dst', k + count).
Proof.
  unfold appendVRMOptionAttributes. case_match.
  { intros [= <- <-] Hb. rewrite Z.add_0_r. eapply counted_weaken; [done|lia]. }
  intros ([d c] & Ec & E)%bind_Ret Hb. eapply (counted_clientInfos _ _ k) in Ec; [|by repeat constructor|done].
  rewrite Z.sub_0_r in Ec. change (len _) with 5 in Ec. apply Ret_inj in E. case_match; injection E as <- <-.
  - eapply counted_weaken; [done|lia].
  - rewrite Z.add_assoc. replace (n + 6) with (n + 5 + 1) by lia. eapply counted_one; [done|]. by apply one_param_text.
Qed.
End Attributes.

(** The next attribute of a request, counted. *)
Ltac count_attribute :=
  first
    [ apply counted_short; [|enc_cp]
    | apply counted_byte; [|enc_cp]
    | eapply counted_one; [|apply one_param_text; [enc_cp|done]]
    | eapply counted_one; [|apply one_param_text; [enc_cp|len_lia]] ].

Lemma counted_or n (c : bool) b b' : counted n b -> counted (n + 1) b' -> counted (n + 1) (if c then b' else b).
Proof. intros Hb Hb'. destruct c; [done|]. eapply counted_weaken; [exact Hb|lia]. Qed.

Lemma counted_unless n (c : bool) b b' : counted n b -> counted (n + 1) b' -> counted (n + 1) (if c then b else b').
Proof. intros. destruct c; [apply (counted_or n false _ b')|apply (counted_or n true b)]; done. Qed.

(** The fifteen attributes of which the last three are optional. *)
Lemma counted_fixed cfg autoCommit level vrm n b :
  counted n b -> counted (n + 15) (fixedAttributes cfg autoCommit level vrm b).
Proof.
  destruct b as [d k]. intros Hb. unfold fixedAttributes, counted1. cbv zeta.
  replace (n + 15) with (n + 12 + 1 + 1 + 1) by lia.
  match goal with |- counted _ (if _ then (appendByteAttribute ?b.1 _ _, _) else _) =>
    assert (counted (n + 12 + 1 + 1) b) as H3; [|destruct b; apply counted_or; [done|by apply counted_byte]] end.
  match goal with |- counted _ (if _ then ?b else _) =>
    assert (counted (n + 12 + 1) b) as H2; [|destruct b; apply counted_unless; [done|by apply counted_short]] end.
  match goal with |- counted _ (if _ then ?b else _) =>
    assert (counted (n + 12) b) as H1; [|apply counted_unless; [done|by apply counted_byte]] end.
  cbn [fst snd]. replace (n + 12) with (n + 1 + 1 + 1 + 1 + 1 + 1 + 1 + 1 + 1 + 1 + 1 + 1) by lia.
  repeat count_attribute. done.
Qed.

Lemma counted_schema n (schema : bytes) b b' `{TableFS} :
  (if len schema =? 0 then Ret b else textAttribute CodePointDefaultSQLLibrary schema b) = Ret b' ->
  counted n b -> counted (n + 1) b'.
Proof.
  intros E Hb. destruct (len schema =? 0).
  - apply Ret_inj in E as <-. eapply counted_weaken; [done|lia].
  - eapply counted_text; [done|enc_cp|done].
Qed.

Lemma server_attributes_ok `{TableFS} cfg autoCommit level vrm p :
  buildSetServerAttributesRequestVRM cfg autoCommit level vrm = Ret p -> len p < 2 ^ 32 ->
  well_formed DatabaseServerID FunctionSetAttributes p.
Proof.
  unfold buildSetServerAttributesRequestVRM. cbv zeta. intros E Hl.
  apply bind_Ret in E as (b1 & E1 & E). apply (counted_text 1) in E1; [|enc_cp|]; last first.
  { apply (counted_short 0); [by apply counted_encodes with []|enc_cp]. }
  apply (counted_fixed cfg autoCommit level vrm) in E1. destruct (fixedAttributes _ _ _ _ _) as [d k].
  apply bind_Ret in E as ([d2 count] & E2 & E). apply (counted_options _ k _ _ _ _ _ E2) in E1. unfold counted1 in E. cbn [fst snd] in E.
  assert (counted (1 + 1 + 15 + 6 + 1 + 1 + 1)
    (appendIntAttribute (appendShortAttribute (appendByteAttribute d2 0x3805 0xF0) 0x3806 1) 0x3825 0xF6000000, k + count + 1 + 1 + 1))
    as Hc by (repeat count_attribute; done).
  repeat (apply bind_Ret in E as (? & ?E & E)).
  eapply counted_text in Hc; [|eassumption|enc_cp]. eapply counted_text in Hc; [|eassumption|enc_cp].
  eapply counted_text in Hc; [|eassumption|enc_cp]. eapply counted_schema in Hc; [|eassumption].
  apply Ret_inj in E as <-. eapply finishRequest_ok; [exact Hc|enc_cp|enc_cp|enc_cp|exact Hl].
Qed.

Lemma client_info_ok `{TableFS} cp value p :
  0 <= cp < 2 ^ 16 -> buildSetClientInfoRequest cp value = Ret p -> len p < 2 ^ 32 ->
  well_formed DatabaseServerID FunctionSetAttributes p.
Proof.
  unfold buildSetClientInfoRequest. intros Hcp (attr & Ea & <-%Ret_inj)%bind_Ret Hl.
  apply clientInfo_param in Ea; [|done]. eapply (finishRequest_ok _ _ _ _ _ 1); [|enc_cp|enc_cp|enc_cp|exact Hl].
  apply (counted_one 0 [] 0); [by apply counted_encodes with []|done].
Qed.

(** The user ID is always ten bytes. *)
Lemma len_signonUserBytes `{TableFS} `{UnicodeCase} user userBytes :
  signonUserBytes user 0 false = Ret userBytes -> len userBytes = 10.
Proof.
  unfold signonUserBytes. cbn [Z.leb Z.compare andb]. case_match; [done|]. unfold EncodeEBCDIC37BlankPad.
  intros (e & _ & E)%bind_Ret. change (10 <? 0) with false in E. apply Ret_inj in E as <-.
  unfold len. by rewrite length_copyInto, length_replicate.
Qed.

(** * Properties *)

(** C1: every request of the driver is laid out the way its header says.
    Whatever the statement, names, parameters, options and attributes, the
    header carries the length of the packet, the server and the function; the
    body is a sequence of LL/CP parameters and nothing else, and the template
    in front of it counts exactly them.  The four handshake requests have a
    template of their own, which counts nothing, and the end of the job is a
    header without a template length in front of twenty zeros.  A packet has
    fewer than 2^32 bytes, which is what its length word can say. *)
Theorem request_well_formed `{TableFS} `{UnicodeCase} (shape : layout) (serverID function : Z) (packet : bytes) :
  sent shape serverID function packet -> len packet < 2 ^ 32 -> laid_out shape serverID function packet.
Proof.
  intros Hs Hl. destruct Hs as [???? E|h seconds|?|?????? E|????? E|??? E|?????????? E|?????? E|??? E|???? E|
    |????|??|??????? E|??????? E|??? E|?|??|?| | |??|????? E|??? Hcp E|??|??? E|??? E|??? E|??? E|
    |time|???? E Hn|time|??? E Hn]; cbn [laid_out];
    try lazymatch type of E with
    | buildCreateRPBRequest _ _ _ = _ => by apply create_rpb_ok in E
    | buildPrepareAndDescribeRequestCCSID _ _ _ _ _ = _ => by apply prepare_ok in E
    | buildFetchRequestForStatement _ _ _ _ _ = _ => by apply fetch_ok in E
    | buildExecuteImmediateRequestCCSID _ _ _ _ = _ => by apply immediate_ok in E
    | buildExecutePreparedRequest _ _ _ _ _ _ = _ => by apply execute_ok in E
    | buildBlockExecuteRequest _ _ _ _ _ _ = _ => by apply block_ok in E
    | buildExecuteCallNoParamsRequest _ _ = _ => by apply call_ok in E
    | buildOpenDescribePreparedRequest _ _ _ _ _ _ _ _ _ = _ => by apply open_prepared_ok in E
    | buildSetServerAttributesRequestVRM _ _ _ _ = _ => by apply server_attributes_ok in E
    | buildSetClientInfoRequest _ _ = _ => by apply client_info_ok in E
    | buildAddLibraryListRequest _ _ = _ => unfold buildAddLibraryListRequest in E; case_match; [done|];
        inv_ret; name_params; plain_request
    | signonUserBytes _ _ _ = _ => apply len_signonUserBytes in E
    | _ => unfold buildOpenAndDescribeRequest, buildCloseCursorRequest, buildCloseResultSetCursorRequest,
        buildCreatePackageRequest, buildReturnPackageRequest, buildCancelRequest in E;
        inv_ret; name_params; plain_request
    end;
    try lazymatch goal with
    | |- well_formed _ _ (buildAutoCommitRequestLevel _ _) => unfold buildAutoCommitRequestLevel in *; plain_request
    | |- well_formed _ _ (buildWriteLOBDataRequest _) => unfold buildWriteLOBDataRequest in *; plain_request
    | |- well_formed _ _ (buildRetrieveLobDataRequest _ _) => unfold buildRetrieveLobDataRequest in *; plain_request
    | |- well_formed _ _ (buildFreeLobRequest _) => unfold buildFreeLobRequest in *; plain_request
    | |- well_formed _ _ (buildChangeDescriptorRequest _ _ _ _) => apply change_descriptor_ok, Hl
    | |- well_formed _ _ (buildChangeRPBQueryTimeoutRequest _ _) => unfold buildChangeRPBQueryTimeoutRequest in *; plain_request
    | |- well_formed _ _ _ =>
        unfold buildDeleteRPBRequest, buildTestConnectionRequest, buildDeleteDescriptorRequest,
          buildCommitRequest, buildRollbackRequest, buildSendResultsSetRequest in *;
        apply bare_request_ok; [enc_cp|exact Hl]
    end.
  - by split.
  - eexists. by apply signonExchange_framed with (substitute := []) (userBytes := replicate 10 0).
  - eexists. by apply signonInfo_framed with (clientSeed := seedOfClock 0).
  - eexists. by apply exchangeSeeds_framed with (substitute := []) (userBytes := replicate 10 0).
  - eexists. by apply startServer_framed with (clientSeed := seedOfClock 0).
Qed.

Definition sampleExecute : bytes :=
  Eval vm_compute in
    match @buildExecutePreparedRequest (fun _ => NoFile) 1 1 sqlStatementTypeInsertUpdateDelete
            None (List.hd [] sampleRows) None with Ret p => p | _ => [] end.

Lemma request_well_formed_witness :
  laid_out Counted DatabaseServerID FunctionExecute sampleExecute /\
  laid_out Bare DatabaseServerID FunctionEndJob buildEndJobRequest.
Proof.
  split; [apply (@request_well_formed (fun _ => NoFile) latinCase Counted DatabaseServerID FunctionExecute sampleExecute)
         |apply (@request_well_formed (fun _ => NoFile) latinCase Bare DatabaseServerID FunctionEndJob)];
    [|reflexivity| |reflexivity].
  - apply (@sent_execute (fun _ => NoFile) latinCase 1 1 sqlStatementTypeInsertUpdateDelete None (List.hd [] sampleRows) None).
    vm_compute. reflexivity.
  - exact (@sent_end_job (fun _ => NoFile) latinCase).
Defined.
