(* ===== verification/Driver.v ===== *)
(** The entry points of driver.go: from a data source name to a connection.

    [Open] parses the name (Config), opens the sockets (Transport), signs on
    (SignOn) and hands out a connection (Session), on which statements are
    prepared (Stmt) and transactions begun (Transaction). *)
From Stdlib Require Import Strings.String.
From stdpp Require Import base list numbers strings gmap relations.
From S2P Require Import Prelude GoStrings Values Utf Ccsid Wire Reply Format Request Sqlca Config Package StatementCache Attributes Session.
From S2P Require Import Columns Encoding Statements Transaction Rows Binding Stmt Usage GoCrypto Password Transport SignOn.
Open Scope Z_scope.

(** [Config.ResolveAddress]. *)
Definition ResolveAddress (c : Config) : bytes :=
  joinHostPort (Host c) (if Port c =? 0 then DefaultPort c else Port c).

Section Opening.
Context `{TableFS} `{UnicodeCase} `{Network}.
(** [url.Parse] and [time.ParseDuration]. *)
Variable urlParse : bytes -> option parsedURL.
Variable ParseDuration : bytes -> outcome Z.

(** A [Connector] is its configuration. *)
Definition OpenConnector (name : bytes) : outcome Config := ParseDSN ParseDuration urlParse name.
Definition Connect (ctx : context) (connector : Config) : Net (nat * Conn) := openConn ctx connector.
Definition Open (name : bytes) : Net (nat * Conn) :=
  connector ← liftNet (OpenConnector name);
  Connect Background connector.
End Opening.

(** *** The methods of a connection that name another with defaults *)

Section Connection.
Context `{TableFS} `{Environment} `{BidiLayout}.

Definition PrepareContext (ctx : context) (query : bytes) : M Stmt := prepareStmt ctx query.
Definition Prepare (query : bytes) : M Stmt := prepareStmt Background query.
Definition Begin : M Tx := BeginTx Background 0.

(** The caller gets a copy of the warnings. *)
Definition Warnings (c : Conn) : list SQLWarning := lastWarning c.
End Connection.

(** * Lemmas *)

Lemma parseInt64_no_panic s : no_panic (parseInt64 s).
Proof. unfold parseInt64. np. Qed.
#[local] Hint Resolve parseInt64_no_panic : nopanic.

Lemma optionOr_no_panic {A} value (unset : A) parse : (forall v, no_panic (parse v)) -> no_panic (optionOr value unset parse).
Proof. intros Hp. unfold optionOr. by destruct value. Qed.

Lemma orInvalid_no_panic {A} name (m : outcome A) : no_panic m -> no_panic (orInvalid name m).
Proof. by destruct m. Qed.

(** The options of a data source name. *)
Ltac option_step :=
  match goal with
  | |- no_panic (optionOr _ _ _) => apply optionOr_no_panic; intros ?
  | |- no_panic (plainChoice _ _ _ _) => apply optionOr_no_panic; intros ?
  | |- no_panic (orInvalid _ _) => apply orInvalid_no_panic
  | |- no_panic (let '(_, _) := ?p in _) => destruct p
  | _ => np_step
  end.
Ltac options := repeat option_step.

Lemma parseEnumeratedOption_no_panic v min max names : no_panic (parseEnumeratedOption v min max names).
Proof. unfold parseEnumeratedOption. options. Qed.

Lemma choice_no_panic {A} name (names : list (string * A)) v : no_panic (choice name names v).
Proof. unfold choice. options. Qed.

Lemma ParseBool_no_panic v : no_panic (ParseBool v).
Proof. unfold ParseBool. options. Qed.

Lemma checkedInt_no_panic name ok v : no_panic (checkedInt name ok v).
Proof. unfold checkedInt. options. Qed.
#[local] Hint Resolve parseEnumeratedOption_no_panic choice_no_panic ParseBool_no_panic checkedInt_no_panic : nopanic.

Lemma Validate_no_panic cfg : no_panic (Validate cfg).
Proof. unfold Validate, validatePackageConfig. options. Qed.

Lemma parseServerAttributeOptions_no_panic q : no_panic (parseServerAttributeOptions q).
Proof. unfold parseServerAttributeOptions, boolOption. options. Qed.

Lemma parsePackageOptions_no_panic q : no_panic (parsePackageOptions q).
Proof. unfold parsePackageOptions, boolOption. options. Qed.

Lemma parseClientInfoOptions_no_panic q : no_panic (parseClientInfoOptions q).
Proof. unfold parseClientInfoOptions, clientValue. options. Qed.

Lemma parseBidiOptions_no_panic q : no_panic (parseBidiOptions q).
Proof. unfold parseBidiOptions, parseBidiStringTypeOption, plainBool. options. Qed.

Lemma parsePort_no_panic u : no_panic (parsePort u).
Proof. unfold parsePort. options. Qed.
#[local] Hint Resolve Validate_no_panic parseServerAttributeOptions_no_panic parsePackageOptions_no_panic
  parseClientInfoOptions_no_panic parseBidiOptions_no_panic parsePort_no_panic : nopanic.

Section Names.
Variable urlParse : bytes -> option parsedURL.
Variable ParseDuration : bytes -> outcome Z.
Hypothesis durations : forall text, no_panic (ParseDuration text).

Lemma parseSocketOptions_no_panic q : no_panic (parseSocketOptions ParseDuration q).
Proof. unfold parseSocketOptions, optionalBool, parseSocketTimeoutValue. options. Qed.

Lemma parseDurationValue_no_panic v : no_panic (parseDurationValue ParseDuration v).
Proof. unfold parseDurationValue. options. Qed.
#[local] Hint Resolve parseSocketOptions_no_panic parseDurationValue_no_panic : nopanic.

Lemma ParseURL_no_panic u : no_panic (ParseURL ParseDuration u).
Proof.
  unfold ParseURL, plainBool, parseDateFormatOption, parseDateSeparatorOption, parseTimeFormatOption, parseTimeSeparatorOption,
    parseDecimalSeparatorOption, parseCommitmentControlOption, parseTimestampPrecisionOption. cbv zeta. options.
Qed.

Lemma ParseDSN_no_panic name : no_panic (ParseDSN ParseDuration urlParse name).
Proof. unfold ParseDSN. destruct (_ =? 0); [done|]. destruct (urlParse name); [apply ParseURL_no_panic|done]. Qed.
End Names.

(** A configuration that was parsed is valid and has a timeout. *)
Lemma ParseURL_valid ParseDuration u cfg :
  ParseURL ParseDuration u = Ret cfg -> Validate cfg = Ret tt /\ ConnectTimeout cfg <> 0.
Proof.
  unfold ParseURL. cbv zeta. intros E. apply ensure_Ret in E as [_ E]. apply ensure_Ret in E as [_ E].
  repeat (apply bind_Ret in E as (? & ? & E)). apply Ret_inj in E as <-. cbn [ConnectTimeout].
  match goal with Hv : Validate _ = Ret ?u |- _ => destruct u; split; [exact Hv|] end. destruct (_ =? 0) eqn:E0; [done|].
  by apply Z.eqb_neq.
Qed.

(** A new connection owns no statement. *)
Lemma unused_owned c : unused c -> owned ∅ [] [] c.
Proof.
  intros [_ _ Hc Hu _ _]. split; rewrite Hc; [exists ∅; apply wf_initial|]. rewrite Hu.
  constructor; [done|done|set_solver|done].
Qed.

(** * Properties *)

(** C14: opening by name.  A name that is refused dials nothing and leaves every
    socket as it is.  When an open succeeds, the connection has the configuration
    the name stands for, which is valid and has a timeout, is itself valid, and
    its socket is the only one that was opened and not closed; when it fails none
    is.  No name and no behaviour of the network makes an open panic. *)
Theorem open_by_name `{TableFS} `{UnicodeCase} `{Network} (urlParse : bytes -> option parsedURL) (ParseDuration : bytes -> outcome Z)
    (sb : singleByte) (name : bytes) (w0 : world) :
  Lookup 37 = Ret (CSingle sb) -> (forall text, no_panic (ParseDuration text)) -> known w0 ->
  match Open urlParse ParseDuration name w0 with
  | (Ret (i, c), w) =>
      OpenConnector urlParse ParseDuration name = Ret (cfg c) /\ Validate (cfg c) = Ret tt /\ ConnectTimeout (cfg c) <> 0 /\
      IsValid c = true /\ (i ∉ opened w0) /\ opened w = {[i]} ∪ opened w0
  | (Fail e, w) => opened w = opened w0 /\ (OpenConnector urlParse ParseDuration name = Fail e -> w = w0)
  | (Panic, _) => False
  end.
Proof.
  intros Ht Hd Hk. unfold Open, Connect, OpenConnector, liftNet, mbind, Net_bind.
  pose proof (ParseDSN_no_panic urlParse ParseDuration Hd name) as Hp.
  destruct (ParseDSN ParseDuration urlParse name) as [connector|e|] eqn:E; [|done|done].
  assert (Validate connector = Ret tt /\ ConnectTimeout connector <> 0) as [Hv Hc].
  { unfold ParseDSN in E. destruct (_ =? 0); [done|]. destruct (urlParse name); [by eapply ParseURL_valid|done]. }
  pose proof (openConn_spec sb Ht Background connector w0 Hk Hv w0 eq_refl) as Ho.
  destruct (openConn Background connector w0) as [[[i c]|e|] w]; [|split; [apply Ho|done]|done].
  destruct Ho as ((j & so & db & info & info' & _ & _ & _ & _ & _ & [(Ho & Hi & _) _] & _) & Hu & <- & _).
  split_and!; [done|done|done|apply Hu|done|done].
Qed.


#[local] Existing Instances letterTables latinCase sampleNetwork.

(** [net/url] on two names. *)
Definition sampleParse (name : bytes) : option parsedURL :=
  if beqb name (lit "as400://U:P1@host/?libraries=QGPL") then
    Some (mkURL (lit "as400") (lit "U") (lit "P1") (lit "host") [] (lit "/") {[lit "libraries" := [lit "QGPL"]]})
  else None.

Example sample_name_opens :
  succeeded (Open sampleParse noDuration (lit "as400://U:P1@host/?libraries=QGPL") noSockets) = true.
Proof. vm_compute. reflexivity. Qed.

Lemma open_by_name_witness :
  exists i c w, Open sampleParse noDuration (lit "as400://U:P1@host/?libraries=QGPL") noSockets = (Ret (i, c), w) /\
    IsValid c = true /\ (i ∉ (∅ : gset nat)) /\ opened w = {[i]} ∪ ∅.
Proof.
  pose proof (open_by_name sampleParse noDuration letterTable (lit "as400://U:P1@host/?libraries=QGPL") noSockets letterTable_found
    (fun _ => ltac:(done)) noSockets_known) as Ho.
  pose proof sample_name_opens as Hs.
  destruct (Open _ _ _ _) as [[[i c]|e|] w]; [|discriminate|discriminate]. destruct Ho as (_ & _ & _ & Hv & Hi & Ho).
  exists i, c, w. exact (conj eq_refl (conj Hv (conj Hi Ho))).
Defined.

Lemma succeeded_run {A B} (r : outcome A * B) : succeeded r = true -> exists a b, r = (Ret a, b).
Proof. destruct r as [[a|e|] b]; [by eexists _, _|done|done]. Qed.

Section Used_example.
#[local] Instance plainLayout : BidiText := Build_BidiText (fun units _ _ => Ret units) (fun units _ _ => Ret units).
#[local] Instance plainSprint : Sprint := Build_Sprint (fun _ => []).
#[local] Existing Instances noFloatText noBidi.
#[refine, local] Instance unscannedMemory : CallerMemory := {| Scan held _ := (held, None); int64OfFloat _ := 0 |}.
Proof. done. Defined.
#[local] Instance obligingServer : Environment := always (answered 5).

(** Room for two statements, which an execution has prepared one of. *)
Definition cachingConfig : Config :=
  mkConfig (lit "host") 0 false (lit "U") (lit "P1") [] NamingSQL 5 1 0 0 0 2 [] 30000000000 2 false false false
    (Server timedConfig) (Socket timedConfig) (Config.Packages timedConfig) (Client timedConfig) (Bidi timedConfig).
Definition openedConn : Conn :=
  match openConn sampleContext cachingConfig noSockets with (Ret (_, c), _) => c | _ => cancelable end.
Definition preparedConn : Conn :=
  (ExecContext 9 Background (lit "UPDATE T SET A = ?") [mkNamedValue [] 1 (Native (VInt64 1))] openedConn).2.

Lemma no_blank_package c : packageStatements c = [] -> ~ blank_in_package c.
Proof. intros E (s & Hs & _). rewrite E in Hs. by apply not_elem_of_nil in Hs. Qed.

Lemma prepared_step : useStep (openedConn, []) (preparedConn, []).
Proof.
  eapply (use_exec _ _ 9 Background _ _ (ExecContext 9 Background (lit "UPDATE T SET A = ?") [mkNamedValue [] 1 (Native (VInt64 1))] openedConn).1);
    [apply surjective_pairing|by vm_compute..|]. by apply no_blank_package; vm_compute.
Qed.

End Used_example.
